(* ===== verification/_CoqProject ===== *)
-Q . S2P
Prelude.v
Layout.v
Memory.v
Bytes.v
Kalloc.v
Vm.v
VmMap.v
VmUser.v
VmFree.v
VmLife.v
VmFork.v
VmCopy.v
VmKernel.v
Ring.v
Pipe.v
Uart.v
Console.v
Ulib.v
Printf.v
Priority.v
Proc.v
ProcOps.v
ProcMem.v
ProcLife.v
ProcFork.v
ProcExit.v
ProcWait.v
ProcBoot.v
SleepWakeup.v
Syscall.v
Trap.v
Boot.v
Spinlock.v
Sleeplock.v
BlockCache.v
Bio.v
BioSpec.v
Virtio.v
VirtioSpec.v
Log.v
LogProto.v
Storage.v
FsState.v
Txn.v
Balloc.v
BallocSpec.v
Inode.v
InodeSpec.v
FileSpec.v
InodeTable.v
Dir.v
DirSpec.v
File.v
Sysfile.v
Exec.v
Mkfs.v
MkfsSpec.v
MkfsKernel.v
Umalloc.v
Grep.v
Utils.v
Sh.v
ShSpec.v
ShRun.v
