(* ===== verification/Prelude.v ===== *)
(** * A verification of xv6 with priority scheduling

    The program is a small Unix for RISC-V: a kernel (src/kernel), the user programs that
    run on it (src/user) and the program that builds its disk (src/mkfs).  This library
    translates the C sources into executable functions and step relations, and proves what
    the parts promise to each other and to their users.

    ** How C is translated

    A C integer is a [Z] with the wrap of its type written out ([u8] ... [u64], [i16],
    [i32]).  A pointer is an address in a byte memory (Memory.v) where the code computes with
    its bytes, and an index into a table where it only follows it.  Code that changes state
    is a function in the monad [M S A]: it takes what the running thread carries (the spin
    locks it holds, its process, the channels it has woken) and a state [S], and ends in
    - [Ok], a normal return;
    - [Panic], a call of [panic], or of [exit] after an error in mkfs;
    - [Fault], undefined behaviour: a null dereference or an index out of range;
    - [Sleep], the thread gives the processor up;
    - [OutOfFuel], a loop exceeded its fuel.
    Most theorems are total: they state that the call ends in [Ok] and with what, which
    rules the other ends out.  A component runs inside a larger state through a [lens].

    Taking a spin lock twice, or releasing one that is not held, is a [Panic]; code between
    [acquire] and [release] is one step for the other threads that take the lock; in Uart.v,
    where [uartputc_sync] takes none, every access to a register is a step.  A call that sleeps is cut
    into stretches, one definition up to the sleep and one from the wakeup on
    ([pipewrite], [yield_back], [sleep_back], [virtio_disk_rw_resume], ...), and where
    interleaving matters the stretches of all threads are the steps of a relation.

    Code outside the sources enters as a class of operations with, where a theorem needs it,
    a class of laws that state its documented behaviour: the UART ([UartDev], [UartSpec]),
    the virtio disk ([VirtioRegs], [VirtioDevice]), the interrupt controller ([Plic]), the
    host of mkfs ([Host]).  The same classes separate the components: [BlockCache] with
    [BlockCacheSpec] between the log and the buffer cache, [ProcFiles] with [ProcFilesSpec]
    and [ProcFilesClose] between processes and files, [FsEnv], [FileEnv] and [SysEnv] between the file system and
    the calling process, [UserOS], [StreamOS] and [Sbrk] between user programs and the
    kernel.  The main theorems that assume such laws are applied to a concrete instance.

    ** The parts

    Foundations.  Prelude.v: integers, the monad, its reasoning rules, lists.  Layout.v:
    param.h, memlayout.h, riscv.h and the constants of fs.h.  Memory.v: byte memory and
    kernel/string.c.  Bytes.v: fields of disk blocks.  Ring.v: ring buffers.

    Memory.  Kalloc.v is kernel/kalloc.c, a list threaded through the free pages; it
    implements a pool of pages.  Vm.v is kernel/vm.c on the bytes of page tables.  VmMap.v
    gives a page table its meaning, a finite map; VmUser.v, VmFree.v, VmLife.v, VmFork.v,
    VmCopy.v and VmKernel.v show that address spaces are built, grown, copied, read, written
    and freed as that meaning says, with no page lost or freed twice, and that the kernel's
    own table maps what it should.

    Processes.  Priority.v and Proc.v are kernel/proc.c: the table of processes with one
    list per priority, and the life cycle.  ProcOps.v to ProcWait.v prove that the lists are
    queues, that every page has one owner, and what [fork], [exit] and [wait] do.  ProcBoot.v
    runs the code from boot.  SleepWakeup.v interleaves [sleep] and [wakeup] at the grain of
    lock operations and proves that no wakeup is lost.  Syscall.v is kernel/syscall.c and
    kernel/sysproc.c, Trap.v is kernel/trap.c, Boot.v is kernel/start.c, kernel/main.c and
    kernel/plic.c.

    Locks.  Spinlock.v runs kernel/spinlock.c on several harts, one access to the lock at a
    time; Sleeplock.v is kernel/sleeplock.c over stretches.

    Disk.  Virtio.v is kernel/virtio_disk.c; VirtioSpec.v interleaves callers, device and
    interrupts and proves that every call that returns has transferred the block it asked
    for, and that the driver stops the kernel exactly when the device reports an error.
    Bio.v is
    kernel/bio.c, the buffers in a linked ring; BioSpec.v proves that it implements the
    interface of BlockCache.v.  Log.v is kernel/log.c, proved against that interface;
    LogProto.v is the sharing of the log between system calls; Storage.v composes log and
    cache: after a crash between any two disk writes recovery finds a prefix of the
    operations.

    Files.  FsState.v, Balloc.v, Inode.v and Dir.v are kernel/fs.c.  Txn.v is its view of the
    disk inside a transaction; on it BallocSpec.v, InodeSpec.v, FileSpec.v, InodeTable.v and
    DirSpec.v prove that the bitmap, the blocks of a file, its bytes, the table of inodes and
    a directory behave as a set of blocks, a map, an array, a cache and a map from names.
    A copy from user memory that fails is taken to have stored nothing.
    File.v is kernel/file.c, Sysfile.v kernel/sysfile.c, Exec.v kernel/exec.c.  Mkfs.v is
    mkfs/mkfs.c; MkfsSpec.v proves that its image is a file system with the files of the
    command line, and MkfsKernel.v that the kernel finds and reads them there.

    Devices and output.  Uart.v is kernel/uart.c, Console.v kernel/console.c, a line editor;
    Printf.v is the formatted output of kernel/printf.c and user/printf.c; Pipe.v is
    kernel/pipe.c, a queue of bytes between interleaved readers and writers that loses a
    byte only when the memory of a reader refuses it.

    User programs.  Ulib.v is user/ulib.c, Umalloc.v user/umalloc.c, Grep.v the matchers of
    user/grep.c and user/find.c and the search of grep, Utils.v user/cat.c, user/wc.c and the
    command line of grep.  Sh.v is the parser of user/sh.c, ShSpec.v its grammar, ShRun.v
    what the shell executes, and when, while calls fail and programs take their time.

    ** What the theorems show of defects

    The code does most of what it means to.  Where it does not, a theorem runs it into the
    defect: a [fork] that fails for lack of memory leaves its slot on a priority list and a
    later [fork] never returns ([failed_fork_hangs_next]); [kill(0)] marks a free slot
    ([kill_zero_kills_next_child]); the log mkfs makes is one block too small for three
    system calls ([mkfs_log_too_small]); a killed writer of a pipe leaves its reader asleep
    ([pipewrite_killed_loses_wakeup]); [printint] overruns its buffer
    ([printint_prints_or_overruns]); [set_priority] accepts a priority beyond the arrays
    ([set_priority_admits_out_of_bounds]).

    ** Bounds and fuel

    Sizes are those of the sources: 64 processes, 30 buffers, 512 entries per page table,
    three levels.  Loops with a bound in the source recurse on the number of turns left.
    Fuel bounds the others, and the theorems give enough of it: walks along a priority list
    take at least [NPROC], since a list without repetition is no longer than the table;
    polling loops take the number of polls after which the device's law promises an answer;
    loops over [read] take the length of the input, of which each turn but the last takes a
    byte; the walks of the allocator take the number of free blocks; string loops take the
    length of the string.  [failed_fork_hangs_next] holds for every fuel.  [malloc] is
    verified for requests of at most 2^31 - 32 bytes, the disk driver for blocks below 2^31,
    the shell for lines of fewer than 100 characters.

    ** Not modelled

    Assembly (entry.S, swtch.S, trampoline.S, kernelvec.S, initcode.S, usys.pl): its effect
    is written where C meets it.  [swtch] ends a stretch of one thread and starts one of
    another; the trampoline is the entry of [usertrap] and the end of [usertrapret].

    The memory model: harts interleave at the accesses to a lock and share a sequentially
    consistent memory, so the fences of spinlock.c and main.c have no counterpart; the
    translation cache is not modelled, so [sfence_vma] has none either.

    Messages of the kernel are not part of the state of the components that print them;
    [printf] itself is in Printf.v.

    Whole-system runs: the components are joined through their classes, not into one machine
    that runs user instructions on every hart.

    The test programs (usertests.c, grind.c, forktest.c, stressfs.c), the user programs that
    are a few system calls in a row (echo, init, kill, ln, ls, mkdir, rm, sleep, zombie,
    pingpong, primes, xargs) and the walk of find over directories; headers that only
    declare (defs.h, types.h, user.h); generated listings, linker scripts and the build. *)

From stdpp Require Export base gmap list numbers strings sorting.
From Stdlib Require Export ZArith Lia.

#[export] Set Default Goal Selector "!".
#[global] Open Scope Z_scope.

(** ** Machine integers

    A C integer of width [w] is a [Z]; every operation that can leave the range
    of its type is followed by the wrap of that type. *)

Declare Scope xv6_scope.
Delimit Scope xv6_scope with xv6.
#[global] Open Scope xv6_scope.

Definition u8 (z : Z) : Z := z mod 2 ^ 8.
Definition u16 (z : Z) : Z := z mod 2 ^ 16.
Definition u32 (z : Z) : Z := z mod 2 ^ 32.
Definition u64 (z : Z) : Z := z mod 2 ^ 64.
Definition i16 (z : Z) : Z := (z + 2 ^ 15) mod 2 ^ 16 - 2 ^ 15.
Definition i32 (z : Z) : Z := (z + 2 ^ 31) mod 2 ^ 32 - 2 ^ 31.
Definition i64 (z : Z) : Z := (z + 2 ^ 63) mod 2 ^ 64 - 2 ^ 63.
Definition i8 (z : Z) : Z := (z + 2 ^ 7) mod 2 ^ 8 - 2 ^ 7.

#[global] Arguments u8 : simpl never.
#[global] Arguments u16 : simpl never.
#[global] Arguments u32 : simpl never.
#[global] Arguments u64 : simpl never.
#[global] Arguments i8 : simpl never.
#[global] Arguments i16 : simpl never.
#[global] Arguments i32 : simpl never.
#[global] Arguments i64 : simpl never.

(** The truth value of a C integer, and the C integer of a truth value. *)
Definition ctrue (z : Z) : bool := negb (z =? 0).
Definition cbool (b : bool) : Z := if b then 1 else 0.

Notation "'is_u8' z" := (0 <= z < 2 ^ 8) (at level 10) : xv6_scope.
Notation "'is_u16' z" := (0 <= z < 2 ^ 16) (at level 10) : xv6_scope.
Notation "'is_u32' z" := (0 <= z < 2 ^ 32) (at level 10) : xv6_scope.
Notation "'is_u64' z" := (0 <= z < 2 ^ 64) (at level 10) : xv6_scope.
Notation "'is_i16' z" := (- 2 ^ 15 <= z < 2 ^ 15) (at level 10) : xv6_scope.
Notation "'is_i32' z" := (- 2 ^ 31 <= z < 2 ^ 31) (at level 10) : xv6_scope.

Lemma u8_id z : is_u8 z -> u8 z = z.
Proof. intros; apply Z.mod_small; lia. Qed.
Lemma u16_id z : is_u16 z -> u16 z = z.
Proof. intros; apply Z.mod_small; lia. Qed.
Lemma u32_id z : is_u32 z -> u32 z = z.
Proof. intros; apply Z.mod_small; lia. Qed.
Lemma u64_id z : is_u64 z -> u64 z = z.
Proof. intros; apply Z.mod_small; lia. Qed.
Lemma i16_id z : is_i16 z -> i16 z = z.
Proof. intros; unfold i16; rewrite Z.mod_small; lia. Qed.
Lemma i32_id z : is_i32 z -> i32 z = z.
Proof. intros; unfold i32; rewrite Z.mod_small; lia. Qed.
Lemma u8_range z : is_u8 (u8 z).
Proof. apply Z.mod_pos_bound; lia. Qed.
Lemma u16_range z : is_u16 (u16 z).
Proof. apply Z.mod_pos_bound; lia. Qed.
Lemma u32_range z : is_u32 (u32 z).
Proof. apply Z.mod_pos_bound; lia. Qed.
Lemma u64_range z : is_u64 (u64 z).
Proof. apply Z.mod_pos_bound; lia. Qed.

Create HintDb xv6.
#[export] Hint Resolve u8_range u16_range u32_range u64_range : xv6.
#[export] Hint Rewrite u8_id u16_id u32_id u64_id i16_id i32_id using lia : xv6.

(** ** Outcomes

    Kernel code returns normally, stops in [panic], commits undefined behaviour
    (a null dereference, an array access out of bounds), or gives the processor
    up in [sleep].  A loop whose bound is not syntactic carries fuel; running out
    of it is an outcome of its own, so that a theorem about a normal return is
    also a theorem about termination. *)

(** The locks of the kernel, named by the object they protect. *)
Inductive lock_id : Set :=
| LkKmem | LkBcache | LkLog | LkItable | LkFtable | LkVdisk | LkCons | LkUartTx
| LkPr | LkTicks | LkPid | LkWait | LkPriority
| LkProc (i : nat) | LkPipe (pi : Z) | LkBuf (i : nat) | LkInode (i : nat).

(** The addresses processes sleep on. *)
Inductive chan : Set :=
| ChTicks | ChLog | ChConsR | ChUartTxR | ChDiskFree
| ChProc (i : nat) | ChPipeRead (pi : Z) | ChPipeWrite (pi : Z)
| ChBufLock (i : nat) | ChInodeLock (i : nat) | ChBufDisk (i : nat).

#[export] Instance lock_id_eq_dec : EqDecision lock_id.
Proof. solve_decision. Defined.
#[export] Instance chan_eq_dec : EqDecision chan.
Proof. solve_decision. Defined.

(** What a kernel thread carries with it: the spin locks its hart holds, the
    process it runs for ([myproc()] and its pid), and the channels it has called
    [wakeup] on, the latest first.  The process table that [wakeup] changes is
    modelled in Proc.v; below it a wakeup is an event of the calling thread. *)
Record thread := mkThread {
  th_held : list lock_id;
  th_proc : nat;
  th_pid : Z;
  th_woken : list chan;
}.

Inductive outcome (S A : Type) : Type :=
| Ok (a : A) (th : thread) (s : S)
| Panic (msg : string)
| Fault (why : string)
| Sleep (ch : chan) (th : thread) (s : S)
| OutOfFuel.
Arguments Ok {S A} a th s.
Arguments Panic {S A} msg.
Arguments Fault {S A} why.
Arguments Sleep {S A} ch th s.
Arguments OutOfFuel {S A}.

Definition M (S A : Type) : Type := thread -> S -> outcome S A.

Definition ret {S A} (a : A) : M S A := fun th s => Ok a th s.

Definition bind {S A B} (m : M S A) (k : A -> M S B) : M S B := fun th s =>
  match m th s with
  | Ok a th' s' => k a th' s'
  | Panic msg => Panic msg
  | Fault why => Fault why
  | Sleep ch th' s' => Sleep ch th' s'
  | OutOfFuel => OutOfFuel
  end.

Notation "'let!' x ':=' m 'in' k" := (bind m (fun x => k))
  (at level 200, x binder, m at level 200, k at level 200,
   format "'let!'  x  ':='  m  'in' '//' k") : xv6_scope.
Notation "m ';;;' k" := (bind m (fun _ => k))
  (at level 199, right associativity, format "m ';;;' '//' k") : xv6_scope.

Definition panic {S A} (msg : string) : M S A := fun _ _ => Panic msg.
Definition fault {S A} (why : string) : M S A := fun _ _ => Fault why.
Definition diverge {S A} : M S A := fun _ _ => OutOfFuel.
Definition get {S} : M S S := fun th s => Ok s th s.
Definition put {S} (s : S) : M S unit := fun th _ => Ok tt th s.
Definition modify {S} (f : S -> S) : M S unit := fun th s => Ok tt th (f s).
Definition gets {S A} (f : S -> A) : M S A := fun th s => Ok (f s) th s.
Definition self {S} : M S thread := fun th s => Ok th th s.
Definition assert_or {S} (b : bool) (m : M S unit) : M S unit := if b then ret tt else m.
Definition when {S} (b : bool) (m : M S unit) : M S unit := if b then m else ret tt.

(** A null or dangling dereference and an index out of range are undefined
    behaviour: [deref] turns a failed lookup into [Fault]. *)
Definition deref {S A} (why : string) (o : option A) : M S A :=
  match o with Some a => ret a | None => fault why end.

(** A component's code runs inside a larger state through the part it owns. *)
Record lens (S T : Type) := mkLens { view : S -> T; over : T -> S -> S }.
Arguments mkLens {S T} _ _.
Arguments view {S T} _ _.
Arguments over {S T} _ _ _.

Class LensLaws {S T} (l : lens S T) := {
  view_over : forall t s, view l (over l t s) = t;
  over_view : forall s, over l (view l s) s = s;
  over_over : forall t t' s, over l t (over l t' s) = over l t s;
}.

Definition zoom {S T A} (l : lens S T) (m : M T A) : M S A := fun th s =>
  match m th (view l s) with
  | Ok a th' t => Ok a th' (over l t s)
  | Panic msg => Panic msg
  | Fault why => Fault why
  | Sleep ch th' t => Sleep ch th' (over l t s)
  | OutOfFuel => OutOfFuel
  end.

(** ** Spin locks, as one thread sees them

    [acquire] stops the kernel when this hart already holds the lock, [release]
    when it does not (kernel/spinlock.c).  What happens between harts is in
    Spinlock.v. *)
Definition drop_lock (l : lock_id) (held : list lock_id) : list lock_id :=
  filter (fun x => x <> l) held.

Definition set_held (held : list lock_id) (th : thread) : thread :=
  mkThread held (th_proc th) (th_pid th) (th_woken th).

Definition woke (ch : chan) (th : thread) : thread :=
  mkThread (th_held th) (th_proc th) (th_pid th) (ch :: th_woken th).

(** Two threads that differ at most in the wakeups they have issued. *)
Definition same_thread (th th' : thread) : Prop :=
  th_held th' = th_held th /\ th_proc th' = th_proc th /\ th_pid th' = th_pid th.

#[export] Instance same_thread_equiv : Equivalence same_thread.
Proof.
  split; unfold same_thread;
    [intros x | intros x y | intros x y z]; intuition congruence.
Qed.

Lemma same_thread_woke ch th : same_thread th (woke ch th).
Proof. done. Qed.
#[export] Hint Resolve same_thread_woke : xv6.

Definition acquire {S} (l : lock_id) : M S unit := fun th s =>
  if bool_decide (l ∈ th_held th) then Panic "acquire"
  else Ok tt (set_held (l :: th_held th) th) s.

Definition release {S} (l : lock_id) : M S unit := fun th s =>
  if bool_decide (l ∈ th_held th)
  then Ok tt (set_held (drop_lock l (th_held th)) th) s
  else Panic "release".

(** [sleep(chan, lk)] releases [lk] and gives the processor up. *)
Definition sleep_on {S A} (ch : chan) (l : lock_id) : M S A := fun th s =>
  if bool_decide (l ∈ th_held th)
  then Sleep ch (set_held (drop_lock l (th_held th)) th) s
  else Panic "release".

Definition wakeup {S} (ch : chan) : M S unit := fun th s => Ok tt (woke ch th) s.

Lemma filter_notin {A} `{EqDecision A} (x : A) (l : list A) : x ∉ l -> filter (fun y => y <> x) l = l.
Proof.
  induction l as [|y l IH]; [done|]. intros Hx.
  rewrite filter_cons, decide_True by set_solver. f_equal. apply IH. set_solver.
Qed.

Lemma drop_lock_cons l held : l ∉ held -> drop_lock l (l :: held) = held.
Proof.
  intros Hl. unfold drop_lock. rewrite filter_cons, decide_False by tauto. by apply filter_notin.
Qed.

Lemma set_held_self th : set_held (th_held th) th = th.
Proof. by destruct th. Qed.

Lemma set_held_twice h h' th : set_held h (set_held h' th) = set_held h th.
Proof. done. Qed.

(** A critical section: taking a lock that is not held, and giving it back. *)
Lemma acquire_ok {S} l th (s : S) :
  l ∉ th_held th -> acquire l th s = Ok tt (set_held (l :: th_held th) th) s.
Proof. intros. unfold acquire. by rewrite bool_decide_false. Qed.

Lemma release_ok {S} l held th (s : S) :
  th_held th = l :: held -> l ∉ held ->
  release l th s = Ok tt (set_held held th) s.
Proof.
  intros E Hl. unfold release. rewrite E, bool_decide_true by set_solver.
  by rewrite drop_lock_cons.
Qed.

Lemma release_acquired {S} l th (s : S) :
  l ∉ th_held th ->
  release l (set_held (l :: th_held th) th) s = Ok tt th s.
Proof.
  intros Hl. erewrite release_ok; [|done|done].
  by rewrite set_held_twice, set_held_self.
Qed.

Lemma sleep_on_acquired {S A} ch l th (s : S) :
  l ∉ th_held th -> sleep_on (A := A) ch l (set_held (l :: th_held th) th) s = Sleep ch th s.
Proof.
  intros Hl. unfold sleep_on. rewrite bool_decide_true by (cbn; set_solver).
  change (th_held (set_held (l :: th_held th) th)) with (l :: th_held th).
  by rewrite drop_lock_cons, set_held_twice, set_held_self.
Qed.

(** ** A program logic

    [wp m Q th s] : from [th] and [s], [m] returns normally and its result
    satisfies [Q].  It rules out panics, faults, sleeping and divergence. *)
Definition wp {S A} (m : M S A) (Q : A -> thread -> S -> Prop) (th : thread) (s : S) : Prop :=
  match m th s with Ok a th' s' => Q a th' s' | _ => False end.

Lemma wp_ret {S A} (a : A) Q th (s : S) : Q a th s -> wp (ret a) Q th s.
Proof. done. Qed.

Lemma wp_bind {S A B} (m : M S A) (k : A -> M S B) Q th s :
  wp m (fun a th' s' => wp (k a) Q th' s') th s -> wp (bind m k) Q th s.
Proof. unfold wp, bind. by destruct (m th s). Qed.

Lemma wp_mono {S A} (m : M S A) (Q Q' : A -> thread -> S -> Prop) th s :
  wp m Q th s -> (forall a th' s', Q a th' s' -> Q' a th' s') -> wp m Q' th s.
Proof. unfold wp. destruct (m th s); naive_solver. Qed.

Lemma wp_ok {S A} (m : M S A) Q th s :
  wp m Q th s <-> exists a th' s', m th s = Ok a th' s' /\ Q a th' s'.
Proof. unfold wp. destruct (m th s); naive_solver. Qed.

Lemma wp_eq {S A} (m : M S A) (Q : A -> thread -> S -> Prop) th s a th' s' :
  m th s = Ok a th' s' -> Q a th' s' -> wp m Q th s.
Proof. unfold wp. by intros ->. Qed.

Lemma bind_ok {S A B} (m : M S A) (k : A -> M S B) th s a th' s' :
  m th s = Ok a th' s' -> bind m k th s = k a th' s'.
Proof. unfold bind. by intros ->. Qed.

Lemma bind_panic {S A B} (m : M S A) (k : A -> M S B) th s msg : m th s = Panic msg -> bind m k th s = Panic msg.
Proof. intros E. unfold bind. by rewrite E. Qed.

Lemma bind_assoc {S A B C} (m : M S A) (k : A -> M S B) (h : B -> M S C) th s :
  bind (bind m k) h th s = bind m (fun a => bind (k a) h) th s.
Proof. unfold bind. by destruct (m th s). Qed.

Lemma bind_inv {S A B} (m : M S A) (k : A -> M S B) th s b th' s' :
  bind m k th s = Ok b th' s' ->
  exists a th1 s1, m th s = Ok a th1 s1 /\ k a th1 s1 = Ok b th' s'.
Proof. unfold bind. destruct (m th s) as [a th1 s1| | | |]; [|done..]. intros E. by exists a, th1, s1. Qed.

Lemma zoom_inv {S T A} (l : lens S T) (m : M T A) th s a th' s' :
  zoom l m th s = Ok a th' s' -> exists t, m th (view l s) = Ok a th' t /\ s' = over l t s.
Proof. unfold zoom. destruct (m th (view l s)) as [x th1 t| | | |]; [|done..]. intros [= -> -> <-]. by exists t. Qed.

Lemma zoom_ok {S T A} (l : lens S T) (m : M T A) th s a th' t :
  m th (view l s) = Ok a th' t -> zoom l m th s = Ok a th' (over l t s).
Proof. unfold zoom. by intros ->. Qed.

Lemma wp_zoom {S T A} (l : lens S T) (m : M T A) Q th s :
  wp m (fun a th' t => Q a th' (over l t s)) th (view l s) -> wp (zoom l m) Q th s.
Proof. unfold wp, zoom. by destruct (m th (view l s)). Qed.

(** ** Step relations *)

(** An invariant of the initial state that every step preserves holds of every
    reachable state. *)
Lemma rtc_invariant {A} (R : relation A) (P : A -> Prop) x y :
  (forall a b, P a -> R a b -> P b) -> P x -> rtc R x y -> P y.
Proof. intros HR HP Hxy. induction Hxy; eauto. Qed.

(** ** Lists *)

Lemma lookup_insert_Some_eq {A} (l : list A) i x y :
  l !! i = Some y -> <[i:=x]> l !! i = Some x.
Proof. intros H. apply list_lookup_insert_eq. by eapply lookup_lt_Some. Qed.

(** The array element [a[i]] for a C index [i]. *)
Definition znth {A} (l : list A) (i : Z) : option A :=
  if (0 <=? i) then l !! Z.to_nat i else None.
Definition zupd {A} (l : list A) (i : Z) (x : A) : list A := <[Z.to_nat i:=x]> l.

Lemma znth_Some {A} (l : list A) i x :
  znth l i = Some x -> 0 <= i < Z.of_nat (length l) /\ l !! Z.to_nat i = Some x.
Proof.
  unfold znth. destruct (Z.leb_spec 0 i); [|done].
  intros H'. split; [|done]. apply lookup_lt_Some in H'. lia.
Qed.

Lemma znth_is_Some {A} (l : list A) i :
  0 <= i < Z.of_nat (length l) -> is_Some (znth l i).
Proof.
  intros H. unfold znth. destruct (Z.leb_spec 0 i); [|lia].
  apply lookup_lt_is_Some. lia.
Qed.

Lemma length_zupd {A} (l : list A) i x : length (zupd l i x) = length l.
Proof. apply length_insert. Qed.

Lemma znth_zupd_eq {A} (l : list A) i x :
  0 <= i < Z.of_nat (length l) -> znth (zupd l i x) i = Some x.
Proof.
  intros H. unfold znth, zupd. destruct (Z.leb_spec 0 i); [|lia].
  apply list_lookup_insert_eq. lia.
Qed.

Lemma znth_zupd_ne {A} (l : list A) i j x :
  0 <= i -> i <> j -> znth (zupd l i x) j = znth l j.
Proof.
  intros Hi Hij. unfold znth, zupd. destruct (Z.leb_spec 0 j); [|done].
  apply list_lookup_insert_ne. lia.
Qed.

Lemma znth_of_nat {A} (l : list A) (k : nat) : znth l (Z.of_nat k) = l !! k.
Proof. unfold znth. destruct (Z.leb_spec 0 (Z.of_nat k)); [|lia]. by rewrite Nat2Z.id. Qed.
Lemma zupd_of_nat {A} (l : list A) (k : nat) x : zupd l (Z.of_nat k) x = <[k := x]> l.
Proof. unfold zupd. by rewrite Nat2Z.id. Qed.

#[export] Hint Rewrite @length_zupd @length_insert : xv6.

(** ** Tactics *)

(** Reduce one bind whose first half is a computation that reduces by itself. *)
Ltac mstep := unfold bind at 1; cbn -[Z.add Z.sub Z.mul Z.modulo Z.div Z.pow].

(** Turn boolean comparisons of the context and the goal into propositions. *)
Ltac zbool :=
  repeat match goal with
  | H : context [Z.eqb ?a ?b] |- _ => destruct (Z.eqb_spec a b)
  | H : context [Z.ltb ?a ?b] |- _ => destruct (Z.ltb_spec a b)
  | H : context [Z.leb ?a ?b] |- _ => destruct (Z.leb_spec a b)
  | |- context [Z.eqb ?a ?b] => destruct (Z.eqb_spec a b)
  | |- context [Z.ltb ?a ?b] => destruct (Z.ltb_spec a b)
  | |- context [Z.leb ?a ?b] => destruct (Z.leb_spec a b)
  end; simpl in *; try discriminate; try lia.
