(* ===== verification/Layout.v ===== *)
(** * The machine's address layout and the kernel's size constants

    Translates kernel/param.h, kernel/memlayout.h, the paging part of
    kernel/riscv.h and the on-disk layout macros of kernel/fs.h.  [L] suffixes
    are 64-bit constants; the page macros work on [uint64]. *)

From S2P Require Import Prelude.

(** ** param.h *)
Definition NPROC : nat := 64.
Definition NCPU : nat := 8.
Definition NOFILE : nat := 16.
Definition NFILE : nat := 100.
Definition NINODE : nat := 50.
Definition NDEV : Z := 10.
Definition ROOTDEV : Z := 1.
Definition MAXARG : nat := 32.
Definition MAXOPBLOCKS : Z := 10.
Definition LOGSIZE : Z := MAXOPBLOCKS * 3.
Definition NBUF : nat := 30.
Definition FSSIZE : Z := 2000.
Definition MAXPATH : Z := 128.
Definition USERSTACK : Z := 1.
Definition MAXPRIORITY : nat := 5.

(** ** riscv.h: pages and page-table entries *)
Definition PGSIZE : Z := 4096.
Definition PGSHIFT : Z := 12.
Definition PGROUNDUP (sz : Z) : Z := Z.land (u64 (sz + PGSIZE - 1)) (Z.lnot (PGSIZE - 1)).
Definition PGROUNDDOWN (a : Z) : Z := Z.land a (Z.lnot (PGSIZE - 1)).

Definition PTE_V : Z := Z.shiftl 1 0.
Definition PTE_R : Z := Z.shiftl 1 1.
Definition PTE_W : Z := Z.shiftl 1 2.
Definition PTE_X : Z := Z.shiftl 1 3.
Definition PTE_U : Z := Z.shiftl 1 4.

Definition PA2PTE (pa : Z) : Z := u64 (Z.shiftl (Z.shiftr pa 12) 10).
Definition PTE2PA (pte : Z) : Z := u64 (Z.shiftl (Z.shiftr pte 10) 12).
Definition PTE_FLAGS (pte : Z) : Z := Z.land pte 0x3FF.

Definition PXMASK : Z := 0x1FF.
Definition PXSHIFT (level : Z) : Z := PGSHIFT + 9 * level.
Definition PX (level va : Z) : Z := Z.land (Z.shiftr va (PXSHIFT level)) PXMASK.
Definition MAXVA : Z := Z.shiftl 1 (9 + 9 + 9 + 12 - 1).

(** ** memlayout.h *)
Definition UART0 : Z := 0x10000000.
Definition UART0_IRQ : Z := 10.
Definition VIRTIO0 : Z := 0x10001000.
Definition VIRTIO0_IRQ : Z := 1.
Definition PLIC : Z := 0x0c000000.
Definition PLIC_SENABLE (hart : Z) : Z := PLIC + 0x2080 + hart * 0x100.
Definition PLIC_SPRIORITY (hart : Z) : Z := PLIC + 0x201000 + hart * 0x2000.
Definition PLIC_SCLAIM (hart : Z) : Z := PLIC + 0x201004 + hart * 0x2000.
Definition KERNBASE : Z := 0x80000000.
Definition PHYSTOP : Z := KERNBASE + 128 * 1024 * 1024.
Definition TRAMPOLINE : Z := MAXVA - PGSIZE.
Definition KSTACK (p : Z) : Z := TRAMPOLINE - (p + 1) * 2 * PGSIZE.
Definition TRAPFRAME : Z := TRAMPOLINE - PGSIZE.

(** ** fs.h *)
Definition ROOTINO : Z := 1.
Definition BSIZE : Z := 1024.
Definition FSMAGIC : Z := 0x10203040.
Definition NDIRECT : Z := 12.
Definition NINDIRECT : Z := BSIZE / 4.
Definition MAXFILE : Z := NDIRECT + NINDIRECT.
Definition DINODE_SIZE : Z := 2 + 2 + 2 + 2 + 4 + 4 * (NDIRECT + 1).
Definition IPB : Z := BSIZE / DINODE_SIZE.
Definition BPB : Z := BSIZE * 8.
Definition DIRSIZ : Z := 14.
Definition DIRENT_SIZE : Z := 2 + DIRSIZ.

(** ** Lemmas *)

Lemma land_lnot_ones a n : 0 <= n -> Z.land a (Z.lnot (Z.ones n)) = a - a mod 2 ^ n.
Proof.
  intros Hn. rewrite <- Z.ldiff_land, Z.ldiff_ones_r by lia.
  rewrite Z.shiftl_mul_pow2, Z.shiftr_div_pow2 by lia.
  pose proof (Z.div_mod a (2 ^ n)). lia.
Qed.

Lemma PGROUNDDOWN_eq a : PGROUNDDOWN a = a - a mod PGSIZE.
Proof. apply (land_lnot_ones a 12). lia. Qed.

Lemma PGROUNDUP_eq sz :
  0 <= sz <= 2 ^ 64 - PGSIZE ->
  PGROUNDUP sz = sz + PGSIZE - 1 - (sz + PGSIZE - 1) mod PGSIZE.
Proof.
  intros H. unfold PGROUNDUP. rewrite u64_id by (unfold PGSIZE in *; lia).
  apply (land_lnot_ones _ 12). lia.
Qed.

Lemma PX_eq level va : 0 <= level -> PX level va = (va / 2 ^ PXSHIFT level) mod 512.
Proof.
  intros H. unfold PX. change PXMASK with (Z.ones 9).
  rewrite Z.land_ones, Z.shiftr_div_pow2 by (unfold PXSHIFT, PGSHIFT; lia). done.
Qed.

(** A page-aligned physical address survives a round trip through a page-table
    entry, whatever the ten flag bits are. *)
Lemma PA2PTE_eq pa : 0 <= pa < 2 ^ 56 -> PA2PTE pa = pa / 4096 * 1024.
Proof.
  intros H. unfold PA2PTE.
  rewrite Z.shiftl_mul_pow2, Z.shiftr_div_pow2 by lia.
  rewrite u64_id; [done|]. change (2 ^ 12) with 4096. change (2 ^ 10) with 1024.
  pose proof (Z.div_lt_upper_bound pa 4096 (2 ^ 44)). pose proof (Z.div_pos pa 4096). lia.
Qed.

Lemma lor_flags x flags : 0 <= x -> 0 <= flags < 1024 -> Z.lor (x * 1024) flags = x * 1024 + flags.
Proof.
  intros Hx Hf. symmetry. apply Z.add_nocarry_lor.
  apply Z.bits_inj'; intros n Hn. rewrite Z.land_spec, Z.bits_0.
  change 1024 with (2 ^ 10). rewrite <- Z.shiftl_mul_pow2 by lia.
  destruct (Z.lt_ge_cases n 10); [by rewrite Z.shiftl_spec_low by lia|].
  rewrite (Z.bits_above_log2 flags n); [apply andb_false_r|lia|].
  destruct (Z.eq_dec flags 0) as [->|]; [simpl; lia|].
  apply Z.lt_le_trans with 10; [|lia]. apply Z.log2_lt_pow2; lia.
Qed.

Lemma PTE2PA_PA2PTE pa flags :
  0 <= pa < 2 ^ 56 -> pa mod PGSIZE = 0 -> 0 <= flags < 1024 ->
  PTE2PA (Z.lor (PA2PTE pa) flags) = pa /\ PTE_FLAGS (Z.lor (PA2PTE pa) flags) = flags.
Proof.
  intros Hpa Hal Hf. rewrite PA2PTE_eq by lia.
  rewrite lor_flags by (try apply Z.div_pos; lia).
  unfold PTE2PA, PTE_FLAGS, PGSIZE in *. change 0x3FF with (Z.ones 10). rewrite Z.land_ones by lia.
  rewrite Z.shiftl_mul_pow2, Z.shiftr_div_pow2 by lia.
  change (2 ^ 10) with 1024. change (2 ^ 12) with 4096.
  rewrite (Z.add_comm (_ * 1024)), Z.div_add, Z.div_small, Z.mod_add, Z.mod_small by lia.
  split; [|done]. rewrite u64_id; pose proof (Z.div_mod pa 4096); lia.
Qed.

(** The three 9-bit indices and the page offset determine a virtual address. *)
Lemma PX_decompose va :
  0 <= va < MAXVA ->
  va = PX 2 va * 2 ^ 30 + PX 1 va * 2 ^ 21 + PX 0 va * 2 ^ 12 + va mod PGSIZE.
Proof.
  intros H. rewrite !PX_eq by lia. unfold PXSHIFT, PGSHIFT, PGSIZE, MAXVA in *.
  change (Z.shiftl 1 (9 + 9 + 9 + 12 - 1)) with (2 ^ 38) in H.
  change (12 + 9 * 2) with 30. change (12 + 9 * 1) with 21. change (12 + 9 * 0) with 12.
  pose proof (Z.div_lt_upper_bound va (2 ^ 30) 256 ltac:(lia) ltac:(lia)).
  pose proof (Z.div_pos va (2 ^ 30) ltac:(lia) ltac:(lia)).
  rewrite (Z.mod_small (va / 2 ^ 30)) by lia.
  replace (va / 2 ^ 30) with (va / 4096 / 512 / 512)
    by (rewrite !Z.div_div by lia; done).
  replace (va / 2 ^ 21) with (va / 4096 / 512) by (rewrite !Z.div_div by lia; done).
  change (2 ^ 12) with 4096.
  pose proof (Z.div_mod va 4096). pose proof (Z.div_mod (va / 4096) 512).
  pose proof (Z.div_mod (va / 4096 / 512) 512). lia.
Qed.

Lemma PX_range level va : 0 <= level -> 0 <= PX level va < 512.
Proof. intros. rewrite PX_eq by lia. apply Z.mod_pos_bound. lia. Qed.
#[export] Hint Resolve PX_range : xv6.

(** ** Flags of [open] (kernel/fcntl.h) *)

Definition O_RDONLY : Z := 0x000.
Definition O_WRONLY : Z := 0x001.
Definition O_RDWR : Z := 0x002.
Definition O_CREATE : Z := 0x200.
Definition O_TRUNC : Z := 0x400.
