(* ===== verification/Memory.v ===== *)
(** * Byte memory and the kernel's string routines

    Memory is a finite map from addresses to byte values; an address outside the
    map reads as zero.  The second half translates kernel/string.c.  A pointer is
    its address; [char] is unsigned on RISC-V. *)

From S2P Require Import Prelude Layout.

Notation mem := (gmap Z Z).

Definition mget (m : mem) (a : Z) : Z := u8 (default 0 (m !! a)).
Definition mset (m : mem) (a v : Z) : mem := <[a := u8 v]> m.

Lemma mget_range m a : is_u8 (mget m a).
Proof. apply u8_range. Qed.
#[export] Hint Resolve mget_range : xv6.

Lemma mget_mset m a v b : mget (mset m a v) b = if b =? a then u8 v else mget m b.
Proof.
  unfold mget, mset. destruct (Z.eqb_spec b a) as [->|Hne].
  - rewrite lookup_insert_eq. simpl. apply u8_id, u8_range.
  - by rewrite lookup_insert_ne by congruence.
Qed.

(** [n]-byte little-endian loads and stores. *)
Fixpoint ldn (n : nat) (m : mem) (a : Z) : Z :=
  match n with O => 0 | S n' => mget m a + 256 * ldn n' m (a + 1) end.
Fixpoint stn (n : nat) (m : mem) (a v : Z) : mem :=
  match n with O => m | S n' => stn n' (mset m a v) (a + 1) (v / 256) end.

Notation ld64 := (ldn 8).
Notation st64 := (stn 8).
Notation ld32 := (ldn 4).
Notation st32 := (stn 4).

Lemma ldn_range n m a : 0 <= ldn n m a < 256 ^ Z.of_nat n.
Proof.
  revert a. induction n as [|n IH]; intros a; simpl ldn; [simpl; lia|].
  rewrite Nat2Z.inj_succ, Z.pow_succ_r by lia.
  pose proof (mget_range m a). specialize (IH (a + 1)). lia.
Qed.

Lemma mget_stn_out n m a v b :
  b < a \/ a + Z.of_nat n <= b -> mget (stn n m a v) b = mget m b.
Proof.
  revert m a v. induction n as [|n IH]; intros m a v Hb; simpl; [done|].
  rewrite IH by lia. rewrite mget_mset. destruct (Z.eqb_spec b a); [lia|done].
Qed.

Lemma ldn_ext n m m' a :
  (forall b, a <= b < a + Z.of_nat n -> mget m b = mget m' b) -> ldn n m a = ldn n m' a.
Proof.
  revert a. induction n as [|n IH]; intros a H; simpl; [done|].
  rewrite (H a) by lia. rewrite (IH (a + 1)); [done|]. intros b Hb. apply H. lia.
Qed.

Lemma ldn_stn_eq n m a v : ldn n (stn n m a v) a = v mod 256 ^ Z.of_nat n.
Proof.
  revert m a v. induction n as [|n IH]; intros m a v; simpl ldn; simpl stn.
  { simpl. by rewrite Z.mod_1_r. }
  rewrite IH, mget_stn_out by lia. rewrite mget_mset, Z.eqb_refl.
  rewrite Nat2Z.inj_succ, Z.pow_succ_r by lia.
  rewrite Z.rem_mul_r by lia. done.
Qed.

Lemma ldn_stn_ne n k m a b v :
  a + Z.of_nat n <= b \/ b + Z.of_nat k <= a -> ldn n (stn k m b v) a = ldn n m a.
Proof. intros H. apply ldn_ext. intros c Hc. apply mget_stn_out. lia. Qed.

#[global] Arguments ldn : simpl never.
#[global] Arguments stn : simpl never.

Lemma ld64_range m a : is_u64 (ld64 m a).
Proof. apply (ldn_range 8). Qed.
Lemma ld64_st64_eq m a v : is_u64 v -> ld64 (st64 m a v) a = v.
Proof. intros. rewrite ldn_stn_eq. apply Z.mod_small. done. Qed.
#[export] Hint Resolve ld64_range : xv6.

(** The [n] bytes at [a]. *)
Definition bytes (m : mem) (a : Z) (n : nat) : list Z :=
  (fun i => mget m (a + Z.of_nat i)) <$> seq 0 n.

Lemma length_bytes m a n : length (bytes m a n) = n.
Proof. unfold bytes. by rewrite length_fmap, length_seq. Qed.

Lemma bytes_lookup m a n i : (i < n)%nat -> bytes m a n !! i = Some (mget m (a + Z.of_nat i)).
Proof.
  intros H. unfold bytes. rewrite list_lookup_fmap, lookup_seq_lt by done. done.
Qed.

Lemma bytes_ext m m' a a' n :
  (forall i, 0 <= i < Z.of_nat n -> mget m (a + i) = mget m' (a' + i)) ->
  bytes m a n = bytes m' a' n.
Proof.
  intros H. apply list_eq_same_length with n; try apply length_bytes.
  intros i x y Hi. rewrite !bytes_lookup by done. rewrite H by lia. congruence.
Qed.

Lemma bytes_S m a n : bytes m a (S n) = mget m a :: bytes m (a + 1) n.
Proof.
  unfold bytes. simpl. f_equal; [f_equal; lia|].
  rewrite <- (fmap_S_seq 0 n), <- list_fmap_compose.
  apply list_fmap_ext. intros i x _. simpl. f_equal. lia.
Qed.

(** Laying out the bytes [l] at [a], and the bytes of a C string literal. *)
Fixpoint mput (m : mem) (a : Z) (l : list Z) : mem :=
  match l with [] => m | b :: l' => mput (mset m a b) (a + 1) l' end.
Definition cstr (s : string) : list Z :=
  ((fun c => Z.of_nat (Ascii.nat_of_ascii c)) <$> String.list_ascii_of_string s) ++ [0].

(** ** kernel/string.c *)

Fixpoint memset_loop (n : nat) (m : mem) (cdst i c : Z) : mem :=
  match n with
  | O => m
  | S n' => memset_loop n' (mset m (cdst + i) c) cdst (i + 1) c
  end.
Definition memset (m : mem) (dst c n : Z) : mem := memset_loop (Z.to_nat n) m dst 0 c.

Fixpoint memcmp_loop (n : nat) (m : mem) (s1 s2 : Z) : Z :=
  match n with
  | O => 0
  | S n' => if negb (mget m s1 =? mget m s2) then mget m s1 - mget m s2
            else memcmp_loop n' m (s1 + 1) (s2 + 1)
  end.
Definition memcmp (m : mem) (v1 v2 n : Z) : Z := memcmp_loop (Z.to_nat n) m v1 v2.

Fixpoint move_down (n : nat) (m : mem) (d s : Z) : mem :=
  match n with
  | O => m
  | S n' => move_down n' (mset m (d - 1) (mget m (s - 1))) (d - 1) (s - 1)
  end.
Fixpoint move_up (n : nat) (m : mem) (d s : Z) : mem :=
  match n with
  | O => m
  | S n' => move_up n' (mset m d (mget m s)) (d + 1) (s + 1)
  end.
Definition memmove (m : mem) (dst src n : Z) : mem :=
  if n =? 0 then m
  else if (src <? dst) && (src + n >? dst)
  then move_down (Z.to_nat n) m (dst + n) (src + n)
  else move_up (Z.to_nat n) m dst src.
Definition memcpy (m : mem) (dst src n : Z) : mem := memmove m dst src n.

Fixpoint strncmp_loop (n : nat) (m : mem) (p q : Z) : Z :=
  match n with
  | O => 0
  | S n' => if ctrue (mget m p) && (mget m p =? mget m q)
            then strncmp_loop n' m (p + 1) (q + 1)
            else mget m p - mget m q
  end.
Definition strncmp (m : mem) (p q n : Z) : Z := strncmp_loop (Z.to_nat n) m p q.

Fixpoint zero_fill (n : nat) (m : mem) (s : Z) : mem :=
  match n with O => m | S n' => zero_fill n' (mset m s 0) (s + 1) end.
Fixpoint strncpy_loop (n : nat) (m : mem) (s t : Z) : mem :=
  match n with
  | O => m
  | S n' => let c := mget m t in
            let m' := mset m s c in
            if negb (c =? 0) then strncpy_loop n' m' (s + 1) (t + 1)
            else zero_fill n' m' (s + 1)
  end.
Definition strncpy (m : mem) (s t n : Z) : mem := strncpy_loop (Z.to_nat n) m s t.

(** The loop of [safestrcpy] tests [--n > 0]: it copies at most [n - 1] bytes. *)
Fixpoint safestrcpy_loop (n : nat) (m : mem) (s t : Z) : mem :=
  match n with
  | O => mset m s 0
  | S n' => let c := mget m t in
            let m' := mset m s c in
            if negb (c =? 0) then safestrcpy_loop n' m' (s + 1) (t + 1)
            else mset m' (s + 1) 0
  end.
Definition safestrcpy (m : mem) (s t n : Z) : mem :=
  if n <=? 0 then m else safestrcpy_loop (Z.to_nat (n - 1)) m s t.

(** [None]: no NUL among the first [fuel] bytes. *)
Fixpoint strlen_loop (fuel : nat) (m : mem) (s n : Z) : option Z :=
  match fuel with
  | O => None
  | S f => if ctrue (mget m (s + n)) then strlen_loop f m s (n + 1) else Some n
  end.
Definition strlen (fuel : nat) (m : mem) (s : Z) : option Z := strlen_loop fuel m s 0.

#[global] Arguments memset : simpl never.
#[global] Arguments memmove : simpl never.
Strategy 1000 [memset memmove stn ldn].

(** ** Functional behaviour *)

Lemma memset_loop_get n m d i c a :
  mget (memset_loop n m d i c) a =
  if (d + i <=? a) && (a <? d + i + Z.of_nat n) then u8 c else mget m a.
Proof.
  revert m i. induction n as [|n IH]; intros m i; simpl memset_loop.
  - zbool.
  - rewrite IH, mget_mset. zbool; try done; f_equal; lia.
Qed.

Lemma memset_get m d c n a :
  0 <= n ->
  mget (memset m d c n) a = if (d <=? a) && (a <? d + n) then u8 c else mget m a.
Proof. intros. unfold memset. rewrite memset_loop_get. by rewrite Z.add_0_r, Z2Nat.id. Qed.

Lemma move_up_get n m d s a :
  d <= s \/ s + Z.of_nat n <= d ->
  mget (move_up n m d s) a =
  if (d <=? a) && (a <? d + Z.of_nat n) then mget m (s + (a - d)) else mget m a.
Proof.
  revert m d s. induction n as [|n IH]; intros m d s H; simpl move_up.
  - zbool.
  - rewrite IH by lia. rewrite !mget_mset, u8_id by apply mget_range.
    zbool; try done; f_equal; lia.
Qed.

Lemma move_down_get n m d s a :
  s <= d ->
  mget (move_down n m d s) a =
  if (d - Z.of_nat n <=? a) && (a <? d) then mget m (s + (a - d)) else mget m a.
Proof.
  revert m d s. induction n as [|n IH]; intros m d s H; simpl move_down.
  - zbool.
  - rewrite IH by lia. rewrite !mget_mset, u8_id by apply mget_range.
    zbool; try done; f_equal; lia.
Qed.

Lemma memmove_get m d s n a :
  0 <= n ->
  mget (memmove m d s n) a =
  if (d <=? a) && (a <? d + n) then mget m (s + (a - d)) else mget m a.
Proof.
  intros Hn. unfold memmove. destruct (Z.eqb_spec n 0) as [->|Hnz]; [zbool|].
  rewrite Z.gtb_ltb. destruct ((s <? d) && (d <? s + n)) eqn:E.
  - rewrite move_down_get by lia. rewrite Z2Nat.id by lia.
    replace (d + n - n) with d by lia. replace (s + n + (a - (d + n))) with (s + (a - d)) by lia.
    done.
  - rewrite move_up_get; rewrite Z2Nat.id by lia; [done|].
    apply andb_false_iff in E as [E|E]; lia.
Qed.

(** The string stored in a list of bytes: everything before the first NUL. *)
Fixpoint until_nul (l : list Z) : list Z :=
  match l with
  | [] => []
  | c :: l' => if c =? 0 then [] else c :: until_nul l'
  end.

Lemma until_nul_nonzero l c : c ∈ until_nul l -> c <> 0.
Proof. induction l; simpl; zbool; set_solver. Qed.

Lemma until_nul_zeros n : until_nul (replicate n 0) = [].
Proof. by destruct n. Qed.

(** [memmove] moves the source bytes as they were before the call, also when the
    ranges overlap, and writes nothing else. *)
Lemma memmove_bytes m d s n :
  bytes (memmove m d s (Z.of_nat n)) d n = bytes m s n.
Proof.
  apply bytes_ext. intros i Hi. rewrite memmove_get by lia.
  replace (s + (d + i - d)) with (s + i) by lia. zbool.
Qed.

Lemma strncmp_loop_spec n m p q :
  strncmp_loop n m p q = 0 <-> until_nul (bytes m p n) = until_nul (bytes m q n).
Proof.
  revert p q. induction n as [|n IH]; intros p q; [done|].
  rewrite !bytes_S. simpl. unfold ctrue.
  destruct (Z.eqb_spec (mget m p) 0) as [Ep|Ep], (Z.eqb_spec (mget m p) (mget m q)) as [E|E];
    simpl; destruct (Z.eqb_spec (mget m q) 0); try lia;
    try (split; intros H'; solve [done | lia | simplify_eq; lia]).
  rewrite IH, E. split; congruence.
Qed.

Lemma zero_fill_get n m s a :
  mget (zero_fill n m s) a = if (s <=? a) && (a <? s + Z.of_nat n) then 0 else mget m a.
Proof.
  revert m s. induction n as [|n IH]; intros m s; simpl zero_fill.
  - zbool.
  - rewrite IH, mget_mset. zbool; done.
Qed.

Lemma strncpy_loop_out n m s t a :
  a < s \/ s + Z.of_nat n <= a -> mget (strncpy_loop n m s t) a = mget m a.
Proof.
  revert m s t. induction n as [|n IH]; intros m s t H; simpl; [done|].
  destruct (Z.eqb_spec (mget m t) 0); simpl.
  - rewrite zero_fill_get, mget_mset. zbool.
  - rewrite IH by lia. rewrite mget_mset. zbool.
Qed.

Lemma strncpy_loop_spec n m s t :
  s + Z.of_nat n <= t \/ t + Z.of_nat n <= s ->
  bytes (strncpy_loop n m s t) s n =
  let name := until_nul (bytes m t n) in name ++ replicate (n - length name) 0.
Proof.
  revert m s t. induction n as [|n IH]; intros m s t H; [done|].
  rewrite !bytes_S. cbn [strncpy_loop until_nul].
  destruct (Z.eqb_spec (mget m t) 0) as [E|E]; simpl.
  - f_equal.
    + rewrite zero_fill_get, mget_mset, Z.eqb_refl, E. by zbool.
    + transitivity (bytes (∅ : mem) 0 n).
      * apply bytes_ext. intros i Hi. rewrite zero_fill_get. by zbool.
      * apply list_eq_same_length with n; rewrite ?length_bytes, ?length_replicate; try done.
        intros i x y Hi. rewrite bytes_lookup, lookup_replicate_2 by done.
        unfold mget. rewrite lookup_empty. simpl. change (u8 0) with 0. congruence.
  - f_equal.
    + rewrite strncpy_loop_out, mget_mset, Z.eqb_refl by lia. apply u8_id, mget_range.
    + rewrite IH by lia. simpl.
      assert (bytes (mset m s (mget m t)) (t + 1) n = bytes m (t + 1) n) as ->; [|done].
      apply bytes_ext. intros i Hi. rewrite mget_mset. zbool.
Qed.

Lemma until_nul_app l r : 0 ∉ l -> until_nul (l ++ 0 :: r) = l.
Proof.
  induction l as [|c l IH]; intros H; [done|]. apply not_elem_of_cons in H as [Hc H]. cbn. rewrite (proj2 (Z.eqb_neq c 0)) by congruence. by rewrite IH.
Qed.

Lemma mget_mput l : forall m a b, mget (mput m a l) b = if (a <=? b) && (b <? a + Z.of_nat (length l)) then u8 (default 0 (l !! Z.to_nat (b - a))) else mget m b.
Proof.
  induction l as [|x l IH]; intros m a b; cbn [mput length]; [zbool|]. rewrite IH, mget_mset. destruct (Z.eqb_spec b a) as [->|Hne].
  - replace (Z.to_nat (a - a)) with 0%nat by lia. zbool.
  - destruct (Z.le_gt_cases (a + 1) b).
    + replace (Z.to_nat (b - a)) with (S (Z.to_nat (b - (a + 1)))) by lia. rewrite lookup_cons. zbool; done || lia.
    + zbool.
Qed.

Lemma bytes_app m a n k : bytes m a (n + k) = bytes m a n ++ bytes m (a + Z.of_nat n) k.
Proof.
  revert a. induction n as [|n IH]; intros a; [by rewrite Z.add_0_r|]. cbn [Nat.add]. rewrite !bytes_S, IH. cbn. do 3 f_equal. lia.
Qed.

Lemma until_nul_length l : (length (until_nul l) <= length l)%nat.
Proof. induction l; simpl; [lia|]. zbool; simpl; lia. Qed.

Lemma safestrcpy_loop_out n m s t a :
  a < s \/ s + Z.of_nat n < a -> mget (safestrcpy_loop n m s t) a = mget m a.
Proof.
  revert m s t. induction n as [|n IH]; intros m s t H; simpl.
  - rewrite mget_mset. zbool.
  - destruct (Z.eqb_spec (mget m t) 0); simpl.
    + rewrite !mget_mset. zbool.
    + rewrite IH by lia. rewrite mget_mset. zbool.
Qed.

Lemma safestrcpy_loop_name n m s t :
  s + Z.of_nat n < t \/ t + Z.of_nat n <= s ->
  until_nul (bytes (safestrcpy_loop n m s t) s (S n)) = until_nul (bytes m t n).
Proof.
  revert m s t. induction n as [|n IH]; intros m s t H.
  - rewrite bytes_S. simpl. by rewrite mget_mset, Z.eqb_refl.
  - rewrite (bytes_S _ s), (bytes_S _ t). cbn [safestrcpy_loop until_nul].
    destruct (Z.eqb_spec (mget m t) 0) as [E|E]; cbn [negb].
    + rewrite !mget_mset, Z.eqb_refl, E. by zbool.
    + rewrite safestrcpy_loop_out, mget_mset, Z.eqb_refl, u8_id by (lia || apply mget_range).
      destruct (Z.eqb_spec (mget m t) 0); [done|]. f_equal.
      rewrite IH by lia. f_equal. apply bytes_ext. intros i Hi. rewrite mget_mset. zbool.
Qed.

(** [safestrcpy(s, t, n)] with a positive [n] leaves at [s] the longest prefix of
    the string at [t] that fits in [n - 1] bytes, NUL-terminated within the [n] bytes
    of the destination, and writes nothing outside them. *)
Theorem safestrcpy_spec m s t n :
  0 < n -> s + n <= t \/ t + n <= s ->
  until_nul (bytes (safestrcpy m s t n) s (Z.to_nat n)) = until_nul (bytes m t (Z.to_nat (n - 1)))
  /\ (length (until_nul (bytes (safestrcpy m s t n) s (Z.to_nat n))) < Z.to_nat n)%nat
  /\ forall a, a < s \/ s + n <= a -> mget (safestrcpy m s t n) a = mget m a.
Proof.
  intros Hn Hd. unfold safestrcpy. destruct (Z.leb_spec n 0); [lia|].
  replace (Z.to_nat n) with (S (Z.to_nat (n - 1))) by lia.
  rewrite safestrcpy_loop_name by lia. split_and!; [done| |].
  - pose proof (until_nul_length (bytes m t (Z.to_nat (n - 1)))) as H'.
    rewrite length_bytes in H'. lia.
  - intros a Ha. apply safestrcpy_loop_out. lia.
Qed.

Lemma safestrcpy_spec_witness :
  let m := mset (mset (mset ∅ 100 65) 101 66) 102 67 in
  until_nul (bytes (safestrcpy m 200 100 3) 200 3) = [65; 66].
Proof.
  intros m. destruct (safestrcpy_spec m 200 100 3) as (-> & _); [lia|lia|reflexivity].
Defined.

(** [memmove(dst, src, n)] leaves at [dst] the [n] bytes that were at [src] before
    the call, for overlapping ranges too, and changes no other byte. *)
Theorem memmove_spec m dst src n :
  bytes (memmove m dst src (Z.of_nat n)) dst n = bytes m src n /\
  forall a, a < dst \/ dst + Z.of_nat n <= a -> mget (memmove m dst src (Z.of_nat n)) a = mget m a.
Proof.
  split; [apply memmove_bytes|]. intros a Ha. rewrite memmove_get by lia. zbool.
Qed.
