(* ===== verification/Bytes.v ===== *)
(** * Little-endian fields of a block

    A disk block and the structures stored in it ([struct logheader], [struct dinode],
    [struct dirent], the block bitmap) as lists of bytes, with the loads and stores
    the kernel does through a pointer of another type into the block. *)

From S2P Require Import Prelude.

(** The [n] bytes of [v], the least significant first, and back. *)
Fixpoint le_bytes (n : nat) (v : Z) : list Z :=
  match n with O => [] | S n' => v mod 256 :: le_bytes n' (v / 256) end.
Fixpoint le_val (l : list Z) : Z :=
  match l with [] => 0 | b :: l' => b + 256 * le_val l' end.

(** Load and store [n] bytes at byte offset [off]. *)
Definition getn (n : nat) (l : list Z) (off : nat) : Z := le_val (take n (drop off l)).
Definition putn (n : nat) (l : list Z) (off : nat) (v : Z) : list Z :=
  take off l ++ le_bytes n v ++ drop (off + n) l.

Notation get8 := (getn 1).
Notation get16 := (getn 2).
Notation get32 := (getn 4).
Notation put8 := (putn 1).
Notation put16 := (putn 2).
Notation put32 := (putn 4).

Definition byte_list (l : list Z) : Prop := Forall (fun b => 0 <= b < 256) l.

Lemma length_le_bytes n v : length (le_bytes n v) = n.
Proof. revert v. induction n; intros; simpl; auto. Qed.

Lemma le_bytes_bytes n v : byte_list (le_bytes n v).
Proof.
  revert v. induction n; intros v; simpl; constructor; [apply Z.mod_pos_bound; lia|apply IHn].
Qed.

Lemma le_val_bytes n v : le_val (le_bytes n v) = v mod 256 ^ Z.of_nat n.
Proof.
  revert v. induction n as [|n IH]; intros v; cbn [le_bytes le_val].
  - symmetry. apply Z.mod_1_r.
  - rewrite IH, Nat2Z.inj_succ, Z.pow_succ_r by lia.
    rewrite Z.rem_mul_r by lia. lia.
Qed.

Lemma le_val_range l : byte_list l -> 0 <= le_val l < 256 ^ Z.of_nat (length l).
Proof.
  induction 1 as [|b l Hb Hl IH]; cbn [le_val length].
  - cbn. lia.
  - rewrite Nat2Z.inj_succ, Z.pow_succ_r by lia. lia.
Qed.

Lemma length_putn n l off v :
  (off + n <= length l)%nat -> length (putn n l off v) = length l.
Proof.
  intros H. unfold putn. rewrite !length_app, length_take, length_drop, length_le_bytes. lia.
Qed.

Lemma getn_putn_eq n l off v :
  (off + n <= length l)%nat -> getn n (putn n l off v) off = v mod 256 ^ Z.of_nat n.
Proof.
  intros H. unfold getn, putn. rewrite drop_app_length' by (rewrite length_take; lia).
  rewrite take_app_length' by (symmetry; apply length_le_bytes). apply le_val_bytes.
Qed.

Lemma lookup_putn n l off v i :
  (off + n <= length l)%nat ->
  putn n l off v !! i =
    if decide (off <= i < off + n)%nat then le_bytes n v !! (i - off)%nat else l !! i.
Proof.
  intros H. unfold putn. destruct (decide (i < off)%nat).
  - rewrite lookup_app_l by (rewrite length_take; lia). rewrite lookup_take_lt by lia.
    by rewrite decide_False by lia.
  - rewrite lookup_app_r by (rewrite length_take; lia). rewrite length_take, Nat.min_l by lia.
    destruct (decide (i < off + n)%nat).
    + rewrite lookup_app_l by (rewrite length_le_bytes; lia). by rewrite decide_True by lia.
    + rewrite lookup_app_r by (rewrite length_le_bytes; lia). rewrite length_le_bytes, lookup_drop.
      rewrite decide_False by lia. f_equal. lia.
Qed.

Lemma getn_ext n l l' off :
  (forall i, (off <= i < off + n)%nat -> l' !! i = l !! i) -> getn n l' off = getn n l off.
Proof.
  intros H. unfold getn. f_equal. apply list_eq. intros i.
  destruct (decide (i < n)%nat).
  - rewrite !lookup_take_lt, !lookup_drop by lia. apply H. lia.
  - by rewrite !lookup_take_ge by lia.
Qed.

Lemma getn_putn_ne n m l off off' v :
  (off' + m <= length l)%nat -> (off + n <= off' \/ off' + m <= off)%nat ->
  getn n (putn m l off' v) off = getn n l off.
Proof.
  intros Hl Hd. apply getn_ext. intros i Hi. rewrite lookup_putn by done.
  by rewrite decide_False by lia.
Qed.

Lemma putn_bytes n l off v : byte_list l -> byte_list (putn n l off v).
Proof.
  intros H. unfold putn. apply Forall_app. split; [by apply Forall_take|].
  apply Forall_app. split; [apply le_bytes_bytes|by apply Forall_drop].
Qed.

Lemma getn_range n l off :
  byte_list l -> 0 <= getn n l off < 256 ^ Z.of_nat n.
Proof.
  intros H. unfold getn.
  assert (byte_list (take n (drop off l))) as Hb by (by apply Forall_take, Forall_drop).
  pose proof (le_val_range _ Hb) as [Hr1 Hr2]. split; [done|].
  eapply Z.lt_le_trans; [exact Hr2|]. apply Z.pow_le_mono_r; [lia|]. rewrite length_take. lia.
Qed.
