(* ===== verification/Kalloc.v ===== *)
(** * The physical page allocator (kernel/kalloc.c)

    Free pages form a singly linked list threaded through their first eight
    bytes.  The state is physical memory and the list head; [kend] is the
    linker's symbol [end], the first address after the kernel. *)

From S2P Require Import Prelude Layout Memory.

(** [struct { struct spinlock lock; struct run *freelist; } kmem], with the
    memory its pages live in; 0 is the null pointer. *)
Record kmem := mkKmem { km_mem : mem; km_freelist : Z }.

(** [r->next] for a [struct run *r]. *)
Definition run_next (m : mem) (r : Z) : Z := ld64 m r.
Definition set_run_next (m : mem) (r next : Z) : mem := st64 m r next.

Definition set_mem (m : mem) (s : kmem) : kmem := mkKmem m (km_freelist s).
Definition set_freelist (p : Z) (s : kmem) : kmem := mkKmem (km_mem s) p.

Section Kalloc.
Variable kend : Z.

Definition kfree (pa : Z) : M kmem unit :=
  if negb (pa mod PGSIZE =? 0) || (pa <? kend) || (pa >=? PHYSTOP) then panic "kfree"
  else
    modify (fun s => set_mem (memset (km_mem s) pa 1 PGSIZE) s);;;
    acquire LkKmem;;;
    modify (fun s => set_mem (set_run_next (km_mem s) pa (km_freelist s)) s);;;
    modify (set_freelist pa);;;
    release LkKmem.

Definition kalloc : M kmem Z :=
  acquire LkKmem;;;
  let! r := gets km_freelist in
  when (ctrue r) (modify (fun s => set_freelist (run_next (km_mem s) r) s));;;
  release LkKmem;;;
  when (ctrue r) (modify (fun s => set_mem (memset (km_mem s) r 5 PGSIZE) s));;;
  ret r.

Fixpoint freerange_loop (fuel : nat) (p pa_end : Z) : M kmem unit :=
  match fuel with
  | O => diverge
  | S f => if p + PGSIZE <=? pa_end
           then kfree p;;; freerange_loop f (p + PGSIZE) pa_end
           else ret tt
  end.
Definition freerange (fuel : nat) (pa_start pa_end : Z) : M kmem unit :=
  freerange_loop fuel (PGROUNDUP pa_start) pa_end.

(** [initlock] leaves the lock free; memory and the null list head are what the
    boot loader left. *)
Definition kinit (fuel : nat) : M kmem unit := freerange fuel kend PHYSTOP.

(** ** The free list *)

Definition page_ok (p : Z) : Prop := p mod PGSIZE = 0 /\ kend <= p < PHYSTOP.

Fixpoint is_freelist (m : mem) (p : Z) (l : list Z) : Prop :=
  match l with
  | [] => p = 0
  | x :: l' => p = x /\ is_freelist m (run_next m x) l'
  end.

(** The allocator's invariant: the list is well linked, holds distinct pages, and
    every one of them is a page of allocatable memory. *)
Definition km_inv (s : kmem) (l : list Z) : Prop :=
  is_freelist (km_mem s) (km_freelist s) l /\ NoDup l /\ Forall page_ok l.

Definition in_page (p a : Z) : Prop := p <= a < p + PGSIZE.

(** The kernel image lies at the bottom of RAM (kernel.ld). *)
Hypothesis kend_ok : KERNBASE <= kend <= PHYSTOP.

Lemma page_ok_pos p : page_ok p -> 0 < p < 2 ^ 56.
Proof. intros [_ H]. unfold PHYSTOP, KERNBASE in *. lia. Qed.

Lemma page_ok_disjoint p q a : page_ok p -> page_ok q -> p <> q -> in_page p a -> ~ in_page q a.
Proof.
  unfold page_ok, in_page, PGSIZE. intros [Hp _] [Hq _] Hne Ha Hb.
  pose proof (Z.div_mod p 4096). pose proof (Z.div_mod q 4096). lia.
Qed.

Lemma is_freelist_ext m m' p l :
  Forall page_ok l ->
  (forall x a, x ∈ l -> in_page x a -> mget m' a = mget m a) ->
  is_freelist m p l -> is_freelist m' p l.
Proof.
  revert p. induction l as [|x l IH]; intros p Hok H; simpl; [done|].
  apply Forall_cons in Hok as [Hx Hok]. intros [-> Hl]. split; [done|].
  replace (run_next m' x) with (run_next m x).
  - apply IH; [done| |done]. intros y a Hy. apply H. set_solver.
  - unfold run_next. apply ldn_ext. intros b Hb. symmetry. apply (H x); [set_solver|].
    unfold in_page, PGSIZE. lia.
Qed.

Lemma kfree_ok pa th s l :
  km_inv s l -> page_ok pa -> pa ∉ l -> LkKmem ∉ th_held th ->
  exists s', kfree pa th s = Ok tt th s' /\ km_inv s' (pa :: l) /\
    forall a, ~ in_page pa a -> mget (km_mem s') a = mget (km_mem s) a.
Proof.
  intros (Hfl & Hnd & Hok) Hpa Hni Hlk. pose proof (page_ok_pos _ Hpa).
  unfold kfree. destruct Hpa as [Hal Hr].
  rewrite Hal. destruct (Z.ltb_spec pa kend); [lia|]. rewrite Z.geb_leb.
  destruct (Z.leb_spec PHYSTOP pa); [lia|]. rewrite Z.eqb_refl. cbn [negb orb].
  unfold bind, modify. rewrite acquire_ok by done. rewrite release_acquired by done.
  eexists. split; [done|]. unfold set_mem, set_freelist; cbn [km_mem km_freelist].
  set (m1 := memset _ _ _ _).
  assert (Hout : forall a, ~ in_page pa a ->
            mget (set_run_next m1 pa (km_freelist s)) a = mget (km_mem s) a).
  { intros a Ha. unfold set_run_next, in_page, PGSIZE in *. rewrite mget_stn_out by lia.
    unfold m1. rewrite memset_get by (unfold PGSIZE; lia). unfold PGSIZE. zbool. }
  split; [|exact Hout]. split_and!; [|by constructor|by constructor].
  { assert (0 <= km_freelist s < 2 ^ 64).
    { destruct l as [|x l]; simpl in Hfl; [lia|]. destruct Hfl as [-> _].
      apply Forall_cons in Hok as [Hx _]. pose proof (page_ok_pos _ Hx). lia. }
    split; [done|]. cbn [km_mem km_freelist]. unfold run_next, set_run_next.
    rewrite ld64_st64_eq by done. eapply is_freelist_ext; [done| |exact Hfl].
    intros x a Hx Ha. apply Hout. rewrite Forall_forall in Hok.
    eapply page_ok_disjoint; [apply Hok, Hx|by split| |done]. congruence. }
Qed.

Lemma kfree_panics pa th s : ~ page_ok pa -> kfree pa th s = Panic "kfree".
Proof.
  unfold page_ok, kfree. intros H. rewrite Z.geb_leb.
  destruct (Z.eqb_spec (pa mod PGSIZE) 0); [|done].
  destruct (Z.ltb_spec pa kend); [done|]. destruct (Z.leb_spec PHYSTOP pa); [done|].
  exfalso. lia.
Qed.

Lemma kalloc_empty th s :
  km_inv s [] -> LkKmem ∉ th_held th -> kalloc th s = Ok 0 th s.
Proof.
  intros (Hfl & _) Hlk. simpl in Hfl. unfold kalloc, bind, gets, when, ret.
  rewrite acquire_ok by done. rewrite Hfl. cbn. by rewrite release_acquired.
Qed.

Lemma kalloc_ok p l th s :
  km_inv s (p :: l) -> LkKmem ∉ th_held th ->
  exists s', kalloc th s = Ok p th s' /\ km_inv s' l /\ page_ok p /\
    (forall a, in_page p a -> mget (km_mem s') a = 5) /\
    (forall a, ~ in_page p a -> mget (km_mem s') a = mget (km_mem s) a).
Proof.
  intros ((Hp & Hfl) & Hnd & Hok) Hlk.
  apply NoDup_cons in Hnd as [Hni Hnd]. apply Forall_cons in Hok as [Hpok Hok].
  pose proof (page_ok_pos _ Hpok). unfold kalloc, bind, gets, ret.
  rewrite acquire_ok by done. rewrite Hp.
  replace (ctrue p) with true by (unfold ctrue; destruct (Z.eqb_spec p 0); [lia|done]).
  unfold when, modify. rewrite release_acquired by done.
  eexists. split; [done|]. unfold set_mem, set_freelist; cbn [km_mem km_freelist].
  assert (HP : 0 <= PGSIZE) by (unfold PGSIZE; lia).
  split; [split_and!; [|done|done]|split_and!; [done| |]].
  - cbn [km_mem km_freelist]. eapply is_freelist_ext; [done| |exact Hfl].
    intros x a Hx Ha. rewrite memset_get by done.
    rewrite Forall_forall in Hok.
    assert (~ in_page p a) as Hn by
      (eapply page_ok_disjoint; [apply Hok, Hx|done|congruence|done]).
    unfold in_page in Hn. zbool.
  - intros a Ha. cbn [km_mem]. rewrite memset_get by done. unfold in_page in Ha.
    destruct (Z.leb_spec p a); [|lia]. destruct (Z.ltb_spec a (p + PGSIZE)); [done|lia].
  - intros a Ha. cbn [km_mem]. rewrite memset_get by done. unfold in_page in Ha. zbool.
Qed.

Lemma freerange_loop_ok fuel p l th s :
  km_inv s l -> p mod PGSIZE = 0 -> kend <= p <= PHYSTOP -> (forall x, x ∈ l -> x < p) ->
  (PHYSTOP - p) / PGSIZE < Z.of_nat fuel -> LkKmem ∉ th_held th ->
  exists s' l', freerange_loop fuel p PHYSTOP th s = Ok tt th s' /\ km_inv s' l' /\
    (forall x, x ∈ l' <-> x ∈ l \/ page_ok x /\ p <= x).
Proof.
  revert p l s. induction fuel as [|fuel IH]; intros p l s Hinv Hal Hp Hl Hf Hlk.
  { pose proof (Z.div_pos (PHYSTOP - p) PGSIZE). unfold PGSIZE in *. lia. }
  cbn [freerange_loop]. assert (HT : PHYSTOP mod PGSIZE = 0) by done.
  destruct (Z.leb_spec (p + PGSIZE) PHYSTOP) as [Hle|Hgt].
  - assert (Hpok : page_ok p) by (split; [done|unfold PGSIZE in *; lia]).
    destruct (kfree_ok p th s l) as (s1 & E1 & Hinv1 & _); [done|done| |done|].
    { intros Hin. apply Hl in Hin. lia. }
    rewrite (bind_ok _ _ _ _ _ _ _ E1).
    destruct (IH (p + PGSIZE) (p :: l) s1) as (s' & l' & E & Hinv' & Hl'); try done.
    + unfold PGSIZE in *. rewrite <- Zplus_mod_idemp_l, Hal. done.
    + unfold PGSIZE in *. lia.
    + intros x [->|Hx]%elem_of_cons; [unfold PGSIZE; lia|]. apply Hl in Hx. unfold PGSIZE. lia.
    + replace (PHYSTOP - (p + PGSIZE)) with (PHYSTOP - p + (-1) * PGSIZE) by lia.
      rewrite Z.div_add by done. lia.
    + exists s', l'. split_and!; [done|done|]. intros x. rewrite Hl', elem_of_cons.
      split; [intros [[->|?]|[? ?]]|intros [?|[Hx ?]]]; auto.
      * right. split; [done|lia].
      * right. split; [done|]. unfold PGSIZE in *. lia.
      * destruct (Z.eq_dec x p); [by left; left|]. right. split; [done|].
        destruct Hx as [Hx _]. unfold PGSIZE in *.
        pose proof (Z.div_mod p 4096). pose proof (Z.div_mod x 4096). lia.
  - exists s, l. split_and!; [done|done|]. intros x. split; [auto|]. intros [?|[[Hx ?] ?]]; [done|].
    unfold PGSIZE in *. pose proof (Z.div_mod p 4096). pose proof (Z.div_mod x 4096).
    pose proof (Z.div_mod PHYSTOP 4096). lia.
Qed.

Lemma PGROUNDUP_kend : PGROUNDUP kend mod PGSIZE = 0 /\ kend <= PGROUNDUP kend <= PHYSTOP /\
  forall x, page_ok x -> PGROUNDUP kend <= x.
Proof.
  assert (HT : PHYSTOP = 557056 * 4096) by done.
  rewrite PGROUNDUP_eq by (unfold KERNBASE, PGSIZE in *; lia).
  unfold page_ok, KERNBASE, PGSIZE in *.
  set (k := kend + 4096 - 1). pose proof (Z.div_mod k 4096). pose proof (Z.mod_pos_bound k 4096).
  assert (k - k mod 4096 = k / 4096 * 4096) as -> by lia.
  rewrite Z.mod_mul by lia. split_and!; [done|lia|lia|].
  intros x [Hx ?]. pose proof (Z.div_mod x 4096). lia.
Qed.

(** C3: the page allocator refines a pool of free pages.  While the free list is
    well linked and holds the pages [l], [kfree] of a page outside the list gives the
    pool [pa :: l], and [kalloc] takes the page at the head, or returns null and
    changes nothing when the pool is empty; an allocated page is filled with 5, no
    byte of any other page changes, and the lock is released.  [kfree] of an address
    that is not an allocatable page stops the kernel. *)
Theorem kalloc_kfree_refine_pool s l th :
  km_inv s l -> LkKmem ∉ th_held th ->
  match l with
  | [] => kalloc th s = Ok 0 th s
  | p :: l' => exists s', kalloc th s = Ok p th s' /\ km_inv s' l' /\ page_ok p /\
      (forall a, in_page p a -> mget (km_mem s') a = 5) /\
      (forall a, ~ in_page p a -> mget (km_mem s') a = mget (km_mem s) a)
  end /\
  (forall pa, ~ page_ok pa -> kfree pa th s = Panic "kfree") /\
  forall pa, pa ∉ l -> page_ok pa ->
    exists s', kfree pa th s = Ok tt th s' /\ km_inv s' (pa :: l) /\
      forall a, ~ in_page pa a -> mget (km_mem s') a = mget (km_mem s) a.
Proof.
  intros Hinv Hlk. split.
  - destruct l; [by apply kalloc_empty|by apply kalloc_ok].
  - split; [intros pa; apply kfree_panics|]. intros pa Hni Hok. by apply kfree_ok.
Qed.

(** Booting from an empty free list, [kinit] returns with a free list that holds
    each page of memory between [end] and [PHYSTOP] exactly once, and no other. *)
Theorem kinit_frees_all_memory m th :
  LkKmem ∉ th_held th ->
  exists s' l', kinit (Z.to_nat (PHYSTOP / PGSIZE)) th (mkKmem m 0) = Ok tt th s' /\
    km_inv s' l' /\ forall p, p ∈ l' <-> page_ok p.
Proof.
  intros Hlk. destruct PGROUNDUP_kend as (H1 & H2 & H3).
  destruct (freerange_loop_ok (Z.to_nat (PHYSTOP / PGSIZE)) (PGROUNDUP kend) [] th (mkKmem m 0))
    as (s' & l' & E & Hinv & Hl'); try done.
  - split_and!; [done|constructor|constructor].
  - intros x Hx. by apply elem_of_nil in Hx.
  - rewrite Z2Nat.id by done.
    apply Z.lt_le_trans with ((PHYSTOP - KERNBASE) / PGSIZE + 1); [|done].
    apply Zle_lt_succ, Z.div_le_mono; [done|]. lia.
  - exists s', l'. split_and!; [exact E|done|]. intros p. rewrite Hl'. split.
    + intros [Hp|[? _]]; [by apply elem_of_nil in Hp|done].
    + intros Hp. right. split; [done|]. by apply H3.
Qed.

End Kalloc.

(** A one-page machine, and a thread that holds no lock. *)
Definition idle_thread : thread := mkThread [] 0 1 [].

Lemma kalloc_kfree_refine_pool_witness :
  exists s', kalloc idle_thread (mkKmem ∅ KERNBASE) = Ok KERNBASE idle_thread s' /\
    km_inv KERNBASE s' [].
Proof.
  destruct (kalloc_kfree_refine_pool KERNBASE ltac:(done) (mkKmem ∅ KERNBASE) [KERNBASE]
              idle_thread) as ((s' & E & Hinv & _) & _).
  - split_and!; [done|apply NoDup_singleton|]. by repeat constructor.
  - apply not_elem_of_nil.
  - exists s'. split; [exact E|exact Hinv].
Defined.

Lemma kinit_frees_all_memory_witness :
  exists s' l', kinit KERNBASE (Z.to_nat (PHYSTOP / PGSIZE)) idle_thread (mkKmem ∅ 0)
    = Ok tt idle_thread s' /\ KERNBASE ∈ l' /\ km_inv KERNBASE s' l'.
Proof.
  destruct (kinit_frees_all_memory KERNBASE ltac:(done) ∅ idle_thread) as (s' & l' & E & H & Hl).
  - apply not_elem_of_nil.
  - exists s', l'. split; [exact E|]. split; [|exact H].
    apply Hl. split; [reflexivity|unfold PHYSTOP; lia].
Defined.
