(* ===== verification/Vm.v ===== *)
(** * Page tables (kernel/vm.c)

    The state is the allocator's: physical memory and the free list.  The kernel
    runs on a direct map, so a pointer to a page is its physical address, and a
    page-table page is the 4096 bytes at its address: 512 entries of eight bytes.
    The file also holds the page-table routines of kernel/proc.c. *)

From S2P Require Import Prelude Layout Memory Kalloc.

(** [*p] and [*p = v] for a [uint64 *p]. *)
Definition load64 (p : Z) : M kmem Z := gets (fun s => ld64 (km_mem s) p).
Definition store64 (p v : Z) : M kmem unit := modify (fun s => set_mem (st64 (km_mem s) p v) s).
Definition mem_set (dst c n : Z) : M kmem unit := modify (fun s => set_mem (memset (km_mem s) dst c n) s).
Definition mem_move (dst src n : Z) : M kmem unit := modify (fun s => set_mem (memmove (km_mem s) dst src n) s).

(** [&pagetable[i]]. *)
Definition pte_at (pagetable i : Z) : Z := pagetable + 8 * i.

Definition flag (pte f : Z) : bool := ctrue (Z.land pte f).

Section Vm.
Variable kend : Z.

(** The loop of [walk] from [level] down, and its final return. *)
Fixpoint walk_loop (level : nat) (pagetable va alloc : Z) : M kmem Z :=
  match level with
  | O => ret (pte_at pagetable (PX 0 va))
  | S level' =>
      let pte := pte_at pagetable (PX (Z.of_nat level) va) in
      let! w := load64 pte in
      if flag w PTE_V then walk_loop level' (PTE2PA w) va alloc
      else if negb (ctrue alloc) then ret 0
      else
        let! pt := kalloc in
        if pt =? 0 then ret 0
        else
          mem_set pt 0 PGSIZE;;;
          store64 pte (Z.lor (PA2PTE pt) PTE_V);;;
          walk_loop level' pt va alloc
  end.

Definition walk (pagetable va alloc : Z) : M kmem Z :=
  if va >=? MAXVA then panic "walk" else walk_loop 2 pagetable va alloc.

Definition walkaddr (pagetable va : Z) : M kmem Z :=
  if va >=? MAXVA then ret 0
  else
    let! pte := walk pagetable va 0 in
    if pte =? 0 then ret 0
    else
      let! w := load64 pte in
      if negb (flag w PTE_V) then ret 0
      else if negb (flag w PTE_U) then ret 0
      else ret (PTE2PA w).

(** The loop steps by a page until [a == last]; [size/PGSIZE] rounds reach it. *)
Fixpoint mappages_loop (fuel : nat) (pagetable a last pa perm : Z) : M kmem Z :=
  match fuel with
  | O => diverge
  | S f =>
      let! pte := walk pagetable a 1 in
      if pte =? 0 then ret (-1)
      else
        let! w := load64 pte in
        if flag w PTE_V then panic "mappages: remap"
        else
          store64 pte (Z.lor (Z.lor (PA2PTE pa) perm) PTE_V);;;
          if a =? last then ret 0
          else mappages_loop f pagetable (u64 (a + PGSIZE)) last (u64 (pa + PGSIZE)) perm
  end.

Definition mappages (pagetable va size pa perm : Z) : M kmem Z :=
  if negb (va mod PGSIZE =? 0) then panic "mappages: va not aligned"
  else if negb (size mod PGSIZE =? 0) then panic "mappages: size not aligned"
  else if size =? 0 then panic "mappages: size"
  else mappages_loop (Z.to_nat (size / PGSIZE)) pagetable va (u64 (va + size - PGSIZE)) pa perm.

Fixpoint uvmunmap_loop (fuel : nat) (pagetable a va_end do_free : Z) : M kmem unit :=
  if a <? va_end then
    match fuel with
    | O => diverge
    | S f =>
        let! pte := walk pagetable a 0 in
        if pte =? 0 then panic "uvmunmap: walk"
        else
          let! w := load64 pte in
          if negb (flag w PTE_V) then panic "uvmunmap: not mapped"
          else if PTE_FLAGS w =? PTE_V then panic "uvmunmap: not a leaf"
          else
            when (ctrue do_free) (kfree kend (PTE2PA w));;;
            store64 pte 0;;;
            uvmunmap_loop f pagetable (u64 (a + PGSIZE)) va_end do_free
    end
  else ret tt.

Definition uvmunmap (pagetable va npages do_free : Z) : M kmem unit :=
  if negb (va mod PGSIZE =? 0) then panic "uvmunmap: not aligned"
  else uvmunmap_loop (Z.to_nat npages) pagetable va (u64 (va + u64 (npages * PGSIZE))) do_free.

Definition uvmcreate : M kmem Z :=
  let! pagetable := kalloc in
  if pagetable =? 0 then ret 0
  else mem_set pagetable 0 PGSIZE;;; ret pagetable.

Definition uvmfirst (pagetable src sz : Z) : M kmem unit :=
  if sz >=? PGSIZE then panic "uvmfirst: more than a page"
  else
    let! mem := kalloc in
    mem_set mem 0 PGSIZE;;;
    let! _ := mappages pagetable 0 PGSIZE mem (Z.lor (Z.lor (Z.lor PTE_W PTE_R) PTE_X) PTE_U) in
    mem_move mem src sz.

Definition uvmdealloc (pagetable oldsz newsz : Z) : M kmem Z :=
  if newsz >=? oldsz then ret oldsz
  else
    when (PGROUNDUP newsz <? PGROUNDUP oldsz)
      (let npages := i32 (u64 (PGROUNDUP oldsz - PGROUNDUP newsz) / PGSIZE) in
       uvmunmap pagetable (PGROUNDUP newsz) (u64 npages) 1);;;
    ret newsz.

Fixpoint uvmalloc_loop (fuel : nat) (pagetable a oldsz newsz xperm : Z) : M kmem Z :=
  if a <? newsz then
    match fuel with
    | O => diverge
    | S f =>
        let! mem := kalloc in
        if mem =? 0 then
          let! _ := uvmdealloc pagetable a oldsz in ret 0
        else
          mem_set mem 0 PGSIZE;;;
          let! r := mappages pagetable a PGSIZE mem (Z.lor (Z.lor PTE_R PTE_U) xperm) in
          if negb (r =? 0) then
            kfree kend mem;;;
            let! _ := uvmdealloc pagetable a oldsz in ret 0
          else uvmalloc_loop f pagetable (u64 (a + PGSIZE)) oldsz newsz xperm
    end
  else ret newsz.

Definition uvmalloc (pagetable oldsz newsz xperm : Z) : M kmem Z :=
  if newsz <? oldsz then ret oldsz
  else
    let oldsz := PGROUNDUP oldsz in
    uvmalloc_loop (Z.to_nat ((newsz - oldsz) / PGSIZE + 1)) pagetable oldsz oldsz newsz xperm.

(** The loop of [freewalk] over the [k] entries from [i]; [rec] is its call on a
    lower-level page. *)
Fixpoint free_entries (rec : Z -> M kmem unit) (k : nat) (pagetable i : Z) : M kmem unit :=
  match k with
  | O => ret tt
  | S k' =>
      let! pte := load64 (pte_at pagetable i) in
      (if flag pte PTE_V && (Z.land pte (Z.lor (Z.lor PTE_R PTE_W) PTE_X) =? 0) then
         let child := PTE2PA pte in
         rec child;;;
         store64 (pte_at pagetable i) 0
       else if flag pte PTE_V then panic "freewalk: leaf"
       else ret tt);;;
      free_entries rec k' pagetable (i + 1)
  end.

(** Sv39 tables are three levels deep. *)
Fixpoint freewalk (depth : nat) (pagetable : Z) : M kmem unit :=
  match depth with
  | O => diverge
  | S d => free_entries (freewalk d) 512 pagetable 0;;; kfree kend pagetable
  end.

Definition uvmfree (pagetable sz : Z) : M kmem unit :=
  when (sz >? 0) (uvmunmap pagetable 0 (PGROUNDUP sz / PGSIZE) 1);;;
  freewalk 3 pagetable.

Definition uvmcopy_err (new i : Z) : M kmem Z :=
  uvmunmap new 0 (i / PGSIZE) 1;;; ret (-1).

Fixpoint uvmcopy_loop (fuel : nat) (old new i sz : Z) : M kmem Z :=
  if i <? sz then
    match fuel with
    | O => diverge
    | S f =>
        let! pte := walk old i 0 in
        if pte =? 0 then panic "uvmcopy: pte should exist"
        else
          let! w := load64 pte in
          if negb (flag w PTE_V) then panic "uvmcopy: page not present"
          else
            let pa := PTE2PA w in
            let flags := PTE_FLAGS w in
            let! mem := kalloc in
            if mem =? 0 then uvmcopy_err new i
            else
              mem_move mem pa PGSIZE;;;
              let! r := mappages new i PGSIZE mem flags in
              if negb (r =? 0) then kfree kend mem;;; uvmcopy_err new i
              else uvmcopy_loop f old new (u64 (i + PGSIZE)) sz
    end
  else ret 0.

Definition uvmcopy (old new sz : Z) : M kmem Z :=
  uvmcopy_loop (Z.to_nat (sz / PGSIZE + 1)) old new 0 sz.

Definition uvmclear (pagetable va : Z) : M kmem unit :=
  let! pte := walk pagetable va 0 in
  if pte =? 0 then panic "uvmclear"
  else
    let! w := load64 pte in
    store64 pte (Z.land w (Z.lnot PTE_U)).

(** ** Copying between kernel and user memory *)

(** Each round copies at least one byte, so [len] rounds are enough. *)
Fixpoint copyout_loop (fuel : nat) (pagetable dstva src len : Z) : M kmem Z :=
  if len >? 0 then
    match fuel with
    | O => diverge
    | S f =>
        let va0 := PGROUNDDOWN dstva in
        if va0 >=? MAXVA then ret (-1)
        else
          let! pte := walk pagetable va0 0 in
          if pte =? 0 then ret (-1)
          else
            let! w := load64 pte in
            if negb (flag w PTE_V) || negb (flag w PTE_U) || negb (flag w PTE_W) then ret (-1)
            else
              let pa0 := PTE2PA w in
              let n := PGSIZE - (dstva - va0) in
              let n := if n >? len then len else n in
              mem_move (pa0 + (dstva - va0)) src n;;;
              copyout_loop f pagetable (u64 (va0 + PGSIZE)) (src + n) (len - n)
    end
  else ret 0.

Definition copyout (pagetable dstva src len : Z) : M kmem Z :=
  copyout_loop (Z.to_nat len) pagetable dstva src len.

Fixpoint copyin_loop (fuel : nat) (pagetable dst srcva len : Z) : M kmem Z :=
  if len >? 0 then
    match fuel with
    | O => diverge
    | S f =>
        let va0 := PGROUNDDOWN srcva in
        let! pa0 := walkaddr pagetable va0 in
        if pa0 =? 0 then ret (-1)
        else
          let n := PGSIZE - (srcva - va0) in
          let n := if n >? len then len else n in
          mem_move dst (pa0 + (srcva - va0)) n;;;
          copyin_loop f pagetable (dst + n) (u64 (va0 + PGSIZE)) (len - n)
    end
  else ret 0.

Definition copyin (pagetable dst srcva len : Z) : M kmem Z :=
  copyin_loop (Z.to_nat len) pagetable dst srcva len.

(** The inner loop over the [n] bytes at [p]: the flag [got_null] and the new
    values of [max] and [dst]. *)
Fixpoint copy_until_nul (n : nat) (p dst max : Z) : M kmem (bool * Z * Z) :=
  match n with
  | O => ret (false, max, dst)
  | S n' =>
      let! c := gets (fun s => mget (km_mem s) p) in
      if c =? 0 then
        modify (fun s => set_mem (mset (km_mem s) dst 0) s);;; ret (true, max, dst)
      else
        modify (fun s => set_mem (mset (km_mem s) dst c) s);;;
        copy_until_nul n' (p + 1) (dst + 1) (max - 1)
  end.

Fixpoint copyinstr_loop (fuel : nat) (pagetable dst srcva max : Z) (got_null : bool) : M kmem Z :=
  if negb got_null && (max >? 0) then
    match fuel with
    | O => diverge
    | S f =>
        let va0 := PGROUNDDOWN srcva in
        let! pa0 := walkaddr pagetable va0 in
        if pa0 =? 0 then ret (-1)
        else
          let n := PGSIZE - (srcva - va0) in
          let n := if n >? max then max else n in
          let! r := copy_until_nul (Z.to_nat n) (pa0 + (srcva - va0)) dst max in
          let '(got_null, max, dst) := r in
          copyinstr_loop f pagetable dst (u64 (va0 + PGSIZE)) max got_null
    end
  else ret (if got_null then 0 else -1).

Definition copyinstr (pagetable dst srcva max : Z) : M kmem Z :=
  copyinstr_loop (Z.to_nat max) pagetable dst srcva max false.

(** ** The kernel page table *)

Definition kvmmap (kpgtbl va pa sz perm : Z) : M kmem unit :=
  let! r := mappages kpgtbl va sz pa perm in
  if negb (r =? 0) then panic "kvmmap" else ret tt.

(** kernel/proc.c: a stack for each of the [n] remaining process slots. *)
Fixpoint proc_mapstacks_loop (n : nat) (p kpgtbl : Z) : M kmem unit :=
  match n with
  | O => ret tt
  | S n' =>
      let! pa := kalloc in
      if pa =? 0 then panic "kalloc"
      else
        kvmmap kpgtbl (KSTACK p) pa PGSIZE (Z.lor PTE_R PTE_W);;;
        proc_mapstacks_loop n' (p + 1) kpgtbl
  end.
Definition proc_mapstacks (kpgtbl : Z) : M kmem unit := proc_mapstacks_loop NPROC 0 kpgtbl.

(** [etext] and [trampoline] are symbols of the linker. *)
Definition kvmmake (etext trampoline : Z) : M kmem Z :=
  let! kpgtbl := kalloc in
  mem_set kpgtbl 0 PGSIZE;;;
  kvmmap kpgtbl UART0 UART0 PGSIZE (Z.lor PTE_R PTE_W);;;
  kvmmap kpgtbl VIRTIO0 VIRTIO0 PGSIZE (Z.lor PTE_R PTE_W);;;
  kvmmap kpgtbl PLIC PLIC 0x4000000 (Z.lor PTE_R PTE_W);;;
  kvmmap kpgtbl KERNBASE KERNBASE (etext - KERNBASE) (Z.lor PTE_R PTE_X);;;
  kvmmap kpgtbl etext etext (PHYSTOP - etext) (Z.lor PTE_R PTE_W);;;
  kvmmap kpgtbl TRAMPOLINE trampoline PGSIZE (Z.lor PTE_R PTE_X);;;
  proc_mapstacks kpgtbl;;;
  ret kpgtbl.

(** ** The page table of a process (kernel/proc.c) *)

(** [proc_pagetable(p)], of [p] only its trapframe. *)
Definition proc_pagetable (trampoline trapframe : Z) : M kmem Z :=
  let! pagetable := uvmcreate in
  if pagetable =? 0 then ret 0
  else
    let! r := mappages pagetable TRAMPOLINE PGSIZE trampoline (Z.lor PTE_R PTE_X) in
    if r <? 0 then uvmfree pagetable 0;;; ret 0
    else
      let! r := mappages pagetable TRAPFRAME PGSIZE trapframe (Z.lor PTE_R PTE_W) in
      if r <? 0 then
        uvmunmap pagetable TRAMPOLINE 1 0;;;
        uvmfree pagetable 0;;;
        ret 0
      else ret pagetable.

Definition proc_freepagetable (pagetable sz : Z) : M kmem unit :=
  uvmunmap pagetable TRAMPOLINE 1 0;;;
  uvmunmap pagetable TRAPFRAME 1 0;;;
  uvmfree pagetable sz.

(** The memory side of [growproc(n)]: its return value and the new [p->sz]. *)
Definition growproc_mem (pagetable sz n : Z) : M kmem (Z * Z) :=
  if n >? 0 then
    let! sz' := uvmalloc pagetable sz (u64 (sz + n)) PTE_W in
    if sz' =? 0 then ret (-1, sz) else ret (0, sz')
  else if n <? 0 then
    let! sz' := uvmdealloc pagetable sz (u64 (sz + n)) in
    ret (0, sz')
  else ret (0, sz).

End Vm.

#[global] Arguments walk : simpl never.
#[global] Arguments mappages : simpl never.
#[global] Arguments uvmunmap : simpl never.
#[global] Arguments freewalk : simpl never.
