(* ===== verification/VmMap.v ===== *)
(** * A page table is a map from pages to entries

    What the bytes of a page table mean, and what [walk], [mappages] and [uvmunmap]
    (kernel/vm.c) do to that meaning.

    The pages of a table are named by the path of indices from the root: [[]] is the
    root, [[i]] the middle-level page of entry [i], [[i; j]] a bottom-level page.  The
    table's meaning is the finite map [A] from page-aligned virtual addresses to valid
    bottom-level entries. *)

From S2P Require Import Prelude Layout Memory Kalloc Vm.

Notation path := (list Z).

Definition entry (m : mem) (p i : Z) : Z := ld64 m (pte_at p i).

(** The pages a table is made of. *)
Definition pages (own : gmap path Z) : list Z := (map_to_list own).*2.

(** The path from [level] down to the bottom page of [va]. *)
Fixpoint rest (level : nat) (va : Z) : path :=
  match level with O => [] | S l => PX (Z.of_nat level) va :: rest l va end.

Record ptree (m : mem) (root : Z) (own : gmap path Z) : Prop := mkPtree {
  pt_root : own !! [] = Some root;
  pt_len : forall q p, own !! q = Some p -> (length q <= 2)%nat;
  pt_low : forall q p, own !! q = Some p -> length q = 2%nat -> exists va, 0 <= va < MAXVA /\ q = rest 2 va;
  pt_parent : forall q i c, own !! (q ++ [i]) = Some c -> 0 <= i < 512 /\ is_Some (own !! q);
  pt_child : forall q p i c, own !! q = Some p -> own !! (q ++ [i]) = Some c ->
    entry m p i = Z.lor (PA2PTE c) PTE_V;
  pt_hole : forall q p i, own !! q = Some p -> (length q < 2)%nat -> 0 <= i < 512 ->
    own !! (q ++ [i]) = None -> flag (entry m p i) PTE_V = false;
}.

(** The valid bottom-level entries. *)
Definition leafs (m : mem) (own : gmap path Z) (A : gmap Z Z) : Prop :=
  forall va w, A !! va = Some w <->
    (0 <= va < MAXVA /\ va mod PGSIZE = 0 /\ flag w PTE_V = true /\
     exists t, own !! rest 2 va = Some t /\ entry m t (PX 0 va) = w).

(** Addresses in none of the pages [ps]. *)
Definition outside (ps : list Z) (a : Z) : Prop := forall p, p ∈ ps -> ~ in_page p a.

Lemma outside_app ps qs a : outside (ps ++ qs) a <-> outside ps a /\ outside qs a.
Proof. unfold outside. set_solver. Qed.
Lemma outside_perm ps qs a : ps ≡ₚ qs -> outside ps a -> outside qs a.
Proof. unfold outside. intros E H p Hp. apply H. by rewrite E. Qed.
Lemma outside_cons p ps a : outside (p :: ps) a <-> ~ in_page p a /\ outside ps a.
Proof. unfold outside. set_solver. Qed.

#[export] Instance outside_proper : Proper ((≡ₚ) ==> (=) ==> iff) outside.
Proof. intros ps qs E a ? <-. split; by apply outside_perm. Qed.

(** ** The pages of a table *)

Lemma elem_of_pages own p : p ∈ pages own <-> exists q, own !! q = Some p.
Proof.
  unfold pages. rewrite list_elem_of_fmap. split.
  - intros ([q p'] & -> & H). apply elem_of_map_to_list in H. by exists q.
  - intros [q H]. exists (q, p). split; [done|]. by apply elem_of_map_to_list.
Qed.

Lemma pages_insert own q p : own !! q = None -> pages (<[q := p]> own) ≡ₚ p :: pages own.
Proof. intros H. unfold pages. rewrite map_to_list_insert by done. done. Qed.

Lemma pages_delete own q p : own !! q = Some p -> pages own ≡ₚ p :: pages (delete q own).
Proof.
  intros H. rewrite <- pages_insert by apply lookup_delete_eq.
  by rewrite insert_delete_id.
Qed.

Lemma pages_inj own q q' p :
  NoDup (pages own) -> own !! q = Some p -> own !! q' = Some p -> q = q'.
Proof.
  intros Hnd Hq Hq'. destruct (decide (q = q')) as [|Hne]; [done|]. exfalso.
  rewrite (pages_delete own q p Hq) in Hnd. apply NoDup_cons in Hnd as [Hni _].
  apply Hni, elem_of_pages. exists q'. by rewrite lookup_delete_ne.
Qed.

(** ** Entries *)

Lemma flag_V_child c : 0 <= c < 2 ^ 56 -> flag (Z.lor (PA2PTE c) PTE_V) PTE_V = true.
Proof.
  intros Hc. unfold flag, ctrue. rewrite Z.land_lor_distr_l.
  destruct (Z.eqb_spec (Z.lor (Z.land (PA2PTE c) PTE_V) (Z.land PTE_V PTE_V)) 0) as [E|]; [|done].
  apply Z.lor_eq_0_iff in E as [_ E]. done.
Qed.

Lemma pte_child_u64 c f : 0 <= c < 2 ^ 56 -> 0 <= f < 1024 -> is_u64 (Z.lor (PA2PTE c) f).
Proof.
  intros Hc Hf. rewrite PA2PTE_eq by done.
  rewrite lor_flags by (try apply Z.div_pos; lia).
  pose proof (Z.div_lt_upper_bound c 4096 (2 ^ 44)). pose proof (Z.div_pos c 4096). lia.
Qed.

Lemma entry_in_page p i b : 0 <= i < 512 -> pte_at p i <= b < pte_at p i + 8 -> in_page p b.
Proof. unfold pte_at, in_page, PGSIZE. lia. Qed.

Lemma entry_ext m m' p i :
  (forall a, in_page p a -> mget m' a = mget m a) -> 0 <= i < 512 -> entry m' p i = entry m p i.
Proof.
  intros H Hi. apply ldn_ext. intros b Hb. apply H. by apply (entry_in_page p i).
Qed.

Lemma entry_store_eq m p i w : is_u64 w -> entry (st64 m (pte_at p i) w) p i = w.
Proof. apply ld64_st64_eq. Qed.

Lemma entry_store_ne m p i j w : i <> j -> entry (st64 m (pte_at p i) w) p j = entry m p j.
Proof. intros H. apply ldn_stn_ne. unfold pte_at. lia. Qed.

Lemma store_outside m p i w a :
  0 <= i < 512 -> ~ in_page p a -> mget (st64 m (pte_at p i) w) a = mget m a.
Proof.
  intros Hi Ha. apply mget_stn_out. unfold in_page, pte_at, PGSIZE in *. lia.
Qed.

Lemma entry_zeroed m p i : 0 <= i < 512 -> entry (memset m p 0 PGSIZE) p i = 0.
Proof.
  intros Hi. unfold entry. assert (forall n a, p <= a -> a + Z.of_nat n <= p + PGSIZE ->
    ldn n (memset m p 0 PGSIZE) a = 0) as H.
  { induction n as [|n IH]; intros a H1 H2; [done|]. unfold ldn; fold ldn.
    rewrite memset_get by done. rewrite IH by lia. change (u8 0) with 0. by zbool. }
  apply H; unfold pte_at, PGSIZE; lia.
Qed.

Lemma va_of_path va va' :
  0 <= va < MAXVA -> va mod PGSIZE = 0 -> 0 <= va' < MAXVA -> va' mod PGSIZE = 0 ->
  rest 2 va = rest 2 va' -> PX 0 va = PX 0 va' -> va = va'.
Proof.
  intros H1 H2 H3 H4 E1 E0. injection E1 as E2 E1.
  rewrite (PX_decompose va), (PX_decompose va') by done.
  change (Z.of_nat 2) with 2 in *. change (Z.of_nat 1) with 1 in *. lia.
Qed.

Lemma rest_range level va : Forall (fun i => 0 <= i < 512) (rest level va).
Proof. induction level; constructor; [apply PX_range; lia|done]. Qed.

Lemma length_rest level va : length (rest level va) = level.
Proof. induction level; simpl; lia. Qed.

Lemma MAXVA_eq : MAXVA = 2 ^ 38.
Proof. done. Qed.

Lemma rest_S level va : rest (S level) va = PX (Z.of_nat (S level)) va :: rest level va.
Proof. done. Qed.
#[global] Arguments rest : simpl never.

(** The entry [mappages] writes. *)
Definition leaf_pte (pa perm : Z) : Z := Z.lor (Z.lor (PA2PTE pa) perm) PTE_V.

Lemma lor_bound n a b : 0 <= a < 2 ^ n -> 0 <= b < 2 ^ n -> 0 <= Z.lor a b < 2 ^ n.
Proof.
  intros Ha Hb. destruct (Z.eq_dec a 0) as [->|]; [by rewrite Z.lor_0_l|].
  destruct (Z.eq_dec b 0) as [->|]; [by rewrite Z.lor_0_r|].
  assert (0 <= Z.lor a b) by (apply Z.lor_nonneg; lia).
  assert (Z.lor a b <> 0) by (rewrite Z.lor_eq_0_iff; lia).
  split; [done|]. apply Z.log2_lt_pow2; [lia|].
  rewrite Z.log2_lor by lia. apply Z.max_lub_lt; apply Z.log2_lt_pow2; lia.
Qed.

Lemma leaf_pte_eq pa perm :
  0 <= pa < 2 ^ 56 -> pa mod PGSIZE = 0 -> 0 <= perm < 1024 ->
  is_u64 (leaf_pte pa perm) /\ flag (leaf_pte pa perm) PTE_V = true /\
  PTE2PA (leaf_pte pa perm) = pa /\ PTE_FLAGS (leaf_pte pa perm) = Z.lor perm PTE_V.
Proof.
  intros Hpa Hal Hp. unfold leaf_pte. rewrite <- Z.lor_assoc.
  assert (0 <= Z.lor perm PTE_V < 1024) by (by apply (lor_bound 10)).
  split; [by apply pte_child_u64|]. split; [|by apply PTE2PA_PA2PTE].
  unfold flag, ctrue. rewrite Z.lor_assoc, Z.land_lor_distr_l.
  destruct (Z.eqb_spec (Z.lor (Z.land (Z.lor (PA2PTE pa) perm) PTE_V) (Z.land PTE_V PTE_V)) 0) as [E|]; [|done].
  apply Z.lor_eq_0_iff in E as [_ E]. done.
Qed.

(** [k] consecutive pages mapped, and unmapped. *)
Fixpoint map_range (A : gmap Z Z) (va pa perm : Z) (k : nat) : gmap Z Z :=
  match k with
  | O => A
  | S k' => map_range (<[va := leaf_pte pa perm]> A) (va + PGSIZE) (pa + PGSIZE) perm k'
  end.
Fixpoint unmap_range (A : gmap Z Z) (va : Z) (k : nat) : gmap Z Z :=
  match k with O => A | S k' => unmap_range (delete va A) (va + PGSIZE) k' end.

(** [x] is one of the [k] pages from [va]. *)
Definition in_range (va : Z) (k : nat) (x : Z) : bool :=
  (va <=? x) && (x <? va + Z.of_nat k * PGSIZE) && ((x - va) mod PGSIZE =? 0).

Lemma in_range_spec va k x :
  in_range va k x = true <-> exists i, (i < k)%nat /\ x = va + Z.of_nat i * PGSIZE.
Proof.
  unfold in_range. rewrite !andb_true_iff, Z.leb_le, Z.ltb_lt, Z.eqb_eq. unfold PGSIZE. split.
  - intros [[H1 H2] H3]. exists (Z.to_nat ((x - va) / 4096)).
    pose proof (Z.div_mod (x - va) 4096). pose proof (Z.div_pos (x - va) 4096). lia.
  - intros (i & Hi & ->). split; [lia|].
    replace (va + Z.of_nat i * 4096 - va) with (Z.of_nat i * 4096) by lia. apply Z.mod_mul. lia.
Qed.

Lemma in_range_S va k x : in_range va (S k) x = (x =? va) || in_range (va + PGSIZE) k x.
Proof.
  apply eq_true_iff_eq. rewrite orb_true_iff, Z.eqb_eq, !in_range_spec. split.
  - intros ([|i] & Hi & ->); [left; lia|right; exists i; lia].
  - intros [->|(i & Hi & ->)]; [exists 0%nat; lia|exists (S i); lia].
Qed.

Lemma in_range_0 va x : in_range va 0 x = false.
Proof. unfold in_range. zbool. Qed.

Lemma in_range_self va k : in_range (va + PGSIZE) k va = false.
Proof. unfold in_range, PGSIZE. zbool. Qed.

Lemma map_range_lookup A va pa perm k x :
  map_range A va pa perm k !! x =
  if in_range va k x then Some (leaf_pte (pa + (x - va)) perm) else A !! x.
Proof.
  revert A va pa. induction k as [|k IH]; intros A va pa; simpl map_range; [by rewrite in_range_0|].
  rewrite IH, in_range_S. destruct (Z.eqb_spec x va) as [->|Hne]; cbn [orb].
  - by rewrite in_range_self, lookup_insert_eq, Z.sub_diag, Z.add_0_r.
  - rewrite lookup_insert_ne by done. destruct (in_range _ _ _); [|done]. do 2 f_equal. lia.
Qed.

Lemma unmap_range_lookup A va k x :
  unmap_range A va k !! x = if in_range va k x then None else A !! x.
Proof.
  revert A va. induction k as [|k IH]; intros A va; simpl unmap_range; [by rewrite in_range_0|].
  rewrite IH, in_range_S. destruct (Z.eqb_spec x va) as [->|Hne]; cbn [orb].
  - by rewrite in_range_self, lookup_delete_eq.
  - by rewrite lookup_delete_ne by done.
Qed.

Section VmMap.
Variable kend : Z.
Hypothesis kend_ok : KERNBASE <= kend <= PHYSTOP.

Lemma ptree_ext m m' root own :
  (forall p a, p ∈ pages own -> in_page p a -> mget m' a = mget m a) ->
  ptree m root own -> ptree m' root own.
Proof.
  intros H [H1 H2 H2' H3 H4 H5]. split; try done.
  - intros q p i c Hq Hc. rewrite <- (H4 q p i c Hq Hc). apply entry_ext; [|by apply (H3 q i c)].
    intros a. apply H, elem_of_pages. by exists q.
  - intros q p i Hq Hlen Hi Hn. rewrite <- (H5 q p i Hq Hlen Hi Hn). f_equal.
    apply entry_ext; [|done]. intros a. apply H, elem_of_pages. by exists q.
Qed.

Lemma leafs_ext m m' own A :
  (forall p a, p ∈ pages own -> in_page p a -> mget m' a = mget m a) ->
  leafs m own A -> leafs m' own A.
Proof.
  intros H HA va w. rewrite (HA va w).
  assert (forall t, own !! rest 2 va = Some t -> entry m' t (PX 0 va) = entry m t (PX 0 va)) as E.
  { intros t Ht. apply entry_ext; [|by apply PX_range]. intros a. apply H, elem_of_pages. eauto. }
  split; intros (? & ? & ? & t & Ht & Hw); do 3 (split; [done|]); exists t; (split; [done|]);
    by rewrite <- Hw, E.
Qed.

(** The state of one page table beside the free list. *)
Record vm_inv (s : kmem) (l : list Z) (root : Z) (own : gmap path Z) (A : gmap Z Z) : Prop := mkVmInv {
  vi_km : km_inv kend s l;
  vi_tree : ptree (km_mem s) root own;
  vi_leafs : leafs (km_mem s) own A;
  vi_pages : Forall (page_ok kend) (pages own);
  vi_nodup : NoDup (l ++ pages own);
}.

Lemma vi_page_ok s l root own A q p : vm_inv s l root own A -> own !! q = Some p -> page_ok kend p.
Proof.
  intros H Hq. pose proof (vi_pages _ _ _ _ _ H) as HP. rewrite Forall_forall in HP.
  apply HP, elem_of_pages. by exists q.
Qed.

Lemma vi_page_range s l root own A q p : vm_inv s l root own A -> own !! q = Some p -> 0 < p < 2 ^ 56.
Proof. intros H Hq. by eapply page_ok_pos, vi_page_ok. Qed.

Lemma vi_inj s l root own A q q' p :
  vm_inv s l root own A -> own !! q = Some p -> own !! q' = Some p -> q = q'.
Proof. intros H. apply pages_inj. by apply (NoDup_app l), (vi_nodup _ _ _ _ _ H). Qed.

Lemma pages_disjoint p p' a : page_ok kend p -> page_ok kend p' -> in_page p a -> in_page p' a -> p = p'.
Proof.
  intros Hp Hp' Ha Ha'. destruct (decide (p = p')); [done|].
  exfalso. by eapply (page_ok_disjoint kend p p' a).
Qed.

(** ** [walk] without allocation *)

Lemma walk_loop_read level q pt va th s l root own A :
  vm_inv s l root own A -> own !! q = Some pt -> (length q + level = 2)%nat ->
  walk_loop level pt va 0 th s =
  Ok (match own !! (q ++ rest level va) with Some t => pte_at t (PX 0 va) | None => 0 end) th s.
Proof.
  intros Hinv. revert q pt. induction level as [|level IH]; intros q pt Hq Hlen.
  { simpl. rewrite app_nil_r, Hq. done. }
  cbn [walk_loop]. unfold load64 at 1. cbn -[walk_loop PX ctrue].
  assert (Hi : 0 <= PX (Z.of_nat (S level)) va < 512) by (apply PX_range; lia).
  set (i := PX (Z.of_nat (S level)) va) in *. fold (entry (km_mem s) pt i).
  rewrite rest_S, cons_middle, app_assoc. fold i.
  destruct (own !! (q ++ [i])) as [c|] eqn:Hc.
  - rewrite (pt_child _ _ _ (vi_tree _ _ _ _ _ Hinv) _ _ _ _ Hq Hc).
    pose proof (vi_page_range _ _ _ _ _ _ _ Hinv Hc). rewrite flag_V_child by lia.
    destruct (PTE2PA_PA2PTE c PTE_V) as [-> _]; [lia|by apply (vi_page_ok _ _ _ _ _ _ _ Hinv Hc)|done|].
    apply IH; [done|]. rewrite length_app. simpl. lia.
  - rewrite (pt_hole _ _ _ (vi_tree _ _ _ _ _ Hinv) _ _ _ Hq ltac:(lia) Hi Hc). cbn.
    destruct (own !! ((q ++ [i]) ++ rest level va)) as [t|] eqn:Ht; [|done]. exfalso.
    clear IH. remember (rest level va) as r eqn:Hr. clear Hr Hlen.
    revert t Ht. induction r as [|j r IHr] using rev_ind; intros t Ht.
    { rewrite app_nil_r, Hc in Ht. done. }
    rewrite app_assoc in Ht. apply (pt_parent _ _ _ (vi_tree _ _ _ _ _ Hinv)) in Ht as [_ [t' Ht]].
    by eapply IHr.
Qed.

Lemma walk_read va th s l root own A :
  vm_inv s l root own A -> va < MAXVA ->
  walk root va 0 th s =
  Ok (match own !! rest 2 va with Some t => pte_at t (PX 0 va) | None => 0 end) th s.
Proof.
  intros Hinv Hva. unfold walk. rewrite Z.geb_leb. destruct (Z.leb_spec MAXVA va); [lia|].
  rewrite (walk_loop_read 2 [] root va th s l root own A); try done.
  apply (pt_root _ _ _ (vi_tree _ _ _ _ _ Hinv)).
Qed.

Lemma walk_too_high root va alloc th s : MAXVA <= va -> walk root va alloc th s = Panic "walk".
Proof. intros H. unfold walk. rewrite Z.geb_leb. by destruct (Z.leb_spec MAXVA va); [|lia]. Qed.

(** ** [walk] with allocation *)

Lemma km_inv_set_mem s l m' :
  km_inv kend s l -> (forall x a, x ∈ l -> in_page x a -> mget m' a = mget (km_mem s) a) ->
  km_inv kend (set_mem m' s) l.
Proof.
  intros (Hfl & Hnd & Hok) H. split_and!; [|done|done]. by eapply is_freelist_ext.
Qed.

(** Hanging a fresh, zeroed page under entry [i] of the page at [q]. *)
Lemma add_child s s1 l root own A q pt i p :
  vm_inv s (p :: l) root own A -> own !! q = Some pt -> (length q < 2)%nat -> 0 <= i < 512 ->
  own !! (q ++ [i]) = None ->
  (length (q ++ [i]) = 2%nat -> exists va, 0 <= va < MAXVA /\ q ++ [i] = rest 2 va) ->
  km_inv kend s1 l -> (forall a, ~ in_page p a -> mget (km_mem s1) a = mget (km_mem s) a) ->
  vm_inv (set_mem (st64 (memset (km_mem s1) p 0 PGSIZE) (pte_at pt i) (Z.lor (PA2PTE p) PTE_V)) s1)
    l root (<[q ++ [i] := p]> own) A.
Proof.
  intros Hinv Hq Hlen Hi Hn Hlow Hkm Hs1. set (m' := st64 _ _ _).
  pose proof (vi_tree _ _ _ _ _ Hinv) as Ht. pose proof (vi_nodup _ _ _ _ _ Hinv) as Hnd.
  apply NoDup_cons in Hnd as [Hp Hnd].
  assert (Hpok : page_ok kend p).
  { destruct (vi_km _ _ _ _ _ Hinv) as (_ & _ & HF). by apply Forall_cons in HF as [? _]. }
  assert (Hpr := page_ok_pos kend kend_ok p Hpok).
  assert (Hptok := vi_page_ok _ _ _ _ _ _ _ Hinv Hq).
  assert (Hppt : p <> pt).
  { intros ->. apply Hp, elem_of_app. right. apply elem_of_pages. by exists q. }
  assert (Hout : forall a, ~ in_page p a -> ~ in_page pt a -> mget m' a = mget (km_mem s) a).
  { intros a Ha Ha'. unfold m'. rewrite store_outside, memset_get by done. rewrite <- (Hs1 a Ha).
    unfold in_page in Ha. zbool. }
  assert (Hin : forall a, in_page pt a -> mget (memset (km_mem s1) p 0 PGSIZE) a = mget (km_mem s) a).
  { intros a Ha. assert (~ in_page p a) as Hna by (intros Ha'; by apply Hppt, (pages_disjoint p pt a)).
    rewrite memset_get by done. rewrite <- (Hs1 a Hna). unfold in_page in Hna. zbool. }
  assert (Hold : forall q' p' j, own !! q' = Some p' -> 0 <= j < 512 -> q' ++ [j] <> q ++ [i] ->
            entry m' p' j = entry (km_mem s) p' j).
  { intros q' p' j Hq' Hj Hne. destruct (decide (p' = pt)) as [->|Hpp].
    - assert (q' = q) as -> by (by eapply vi_inj). assert (i <> j) by congruence.
      unfold m'. rewrite entry_store_ne by done. by apply entry_ext.
    - apply entry_ext; [|done]. intros a Ha. apply Hout; intros Ha'.
      + apply Hp, elem_of_app. right. apply elem_of_pages. exists q'. rewrite Hq'. f_equal.
        eapply pages_disjoint; [|exact Hpok|exact Ha|exact Ha']. by eapply vi_page_ok.
      + apply Hpp. eapply pages_disjoint; [|exact Hptok|exact Ha|exact Ha']. by eapply vi_page_ok. }
  assert (Hnew : forall j, 0 <= j < 512 -> entry m' p j = 0).
  { intros j Hj. rewrite <- (entry_zeroed (km_mem s1) p j Hj). apply entry_ext; [|done].
    intros a Ha. unfold m'. apply store_outside; [done|]. intros Ha'. apply Hppt.
    by eapply pages_disjoint. }
  assert (Hqi : forall q' j c, own !! (q' ++ [j]) = Some c -> q' <> q ++ [i]).
  { intros q' j c Hc ->. apply (pt_parent _ _ _ Ht) in Hc as [_ [c' Hc]]. congruence. }
  split.
  - apply km_inv_set_mem; [done|]. intros x a Hx Ha.
    destruct (vi_km _ _ _ _ _ Hinv) as (_ & _ & HF). apply Forall_cons in HF as [_ HF].
    rewrite Forall_forall in HF. specialize (HF x Hx).
    assert (~ in_page p a). { intros Ha'. apply Hp, elem_of_app. left.
      by rewrite <- (pages_disjoint x p a). }
    rewrite Hout; [by rewrite Hs1|done|]. intros Ha'.
    apply NoDup_app in Hnd as (_ & Hd & _). apply (Hd x Hx), elem_of_pages. exists q.
    rewrite Hq. f_equal. by eapply pages_disjoint.
  - destruct Ht as [H1 H2 H2' H3 H4 H5]. split.
    + rewrite lookup_insert_ne; [done|]. by destruct q.
    + intros q' p'. rewrite lookup_insert_Some. intros [[<- _]|[_ H]]; [|by eapply H2].
      rewrite length_app. simpl. lia.
    + intros q' p'. rewrite lookup_insert_Some. intros [[<- _]|[_ H]]; [done|by eapply H2'].
    + intros q' j c. rewrite lookup_insert_Some. intros [[E _]|[_ H]].
      * apply app_inj_2 in E as [-> E]; [|done]. injection E as ->.
        split; [done|]. rewrite lookup_insert_ne; [by eexists|]. intros E.
        apply (f_equal length) in E. rewrite length_app in E. simpl in E. lia.
      * destruct (H3 _ _ _ H) as [Hj HS]. split; [done|]. rewrite lookup_insert_is_Some'. by right.
    + intros q' p' j c. rewrite !lookup_insert_Some. intros [[<- _]|[Hne Hq']] [[E <-]|[Hne' Hc]].
      * exfalso. apply (f_equal length) in E. rewrite !length_app in E. simpl in E. lia.
      * exfalso. by eapply Hqi.
      * apply app_inj_2 in E as [<- E]; [|done]. injection E as ->.
        rewrite Hq in Hq'. injection Hq' as <-. apply entry_store_eq, pte_child_u64; [lia|done].
      * rewrite (Hold q'); [by eapply H4|done|by apply (H3 q' j c)|congruence].
    + intros q' p' j. rewrite lookup_insert_Some, lookup_insert_None.
      intros [[<- <-]|[Hne Hq']] Hl Hj [Hc Hne']; [by rewrite Hnew|].
      rewrite (Hold q'); [by eapply H5|done|done|congruence].
  - intros va w. rewrite (vi_leafs _ _ _ _ _ Hinv va w). simpl km_mem.
    destruct (decide (rest 2 va = q ++ [i])) as [E|E].
    + rewrite E, lookup_insert_eq, Hn. split; intros (? & ? & Hw & t & Ht' & He); [done|].
      injection Ht' as <-. rewrite Hnew in He by (by apply PX_range). by subst w.
    + rewrite lookup_insert_ne by congruence.
      split; intros (? & ? & Hw & t & Ht' & He); do 3 (split; [done|]); exists t; (split; [done|]);
        rewrite <- He; [|symmetry]; (eapply Hold; [exact Ht'|by apply PX_range|]);
        intros E'; apply (f_equal length) in E'; rewrite !length_app, length_rest in E'; simpl in E'; lia.
  - rewrite pages_insert by done. constructor; [done|]. apply (vi_pages _ _ _ _ _ Hinv).
  - rewrite pages_insert by done. rewrite <- Permutation_middle. by constructor.
Qed.

(** What growing a table does: pages move from the free list into the table, and
    only bytes of those two sets change. *)
Record grows (s s' : kmem) (l l' : list Z) (own own' : gmap path Z) : Prop := mkGrows {
  gr_sub : own ⊆ own';
  gr_perm : l' ++ pages own' ≡ₚ l ++ pages own;
  gr_out : forall a, outside (l ++ pages own) a -> mget (km_mem s') a = mget (km_mem s) a;
}.

#[local] Hint Constructors grows : core.

Lemma grows_refl s l own : grows s s l l own own.
Proof. done. Qed.

Lemma grows_trans s1 s2 s3 l1 l2 l3 o1 o2 o3 :
  grows s1 s2 l1 l2 o1 o2 -> grows s2 s3 l2 l3 o2 o3 -> grows s1 s3 l1 l3 o1 o3.
Proof.
  intros [A1 B1 C1] [A2 B2 C2]. split; [by etransitivity|by rewrite B2|].
  intros a Ha. rewrite C2, C1; [done|done|]. by rewrite B1.
Qed.

(** The prefixes of [va]'s path below the root. *)
Definition on_path (va : Z) (q : path) : Prop := q = take 1 (rest 2 va) \/ q = rest 2 va.

Lemma walk_loop_alloc level q pt va th s l root own A :
  vm_inv s l root own A -> own !! q = Some pt -> (length q + level = 2)%nat ->
  q ++ rest level va = rest 2 va -> 0 <= va < MAXVA -> LkKmem ∉ th_held th ->
  exists r s' l' own', walk_loop level pt va 1 th s = Ok r th s' /\ vm_inv s' l' root own' A /\
    grows s s' l l' own own' /\
    (forall q' : path, is_Some (own' !! q') -> is_Some (own !! q') \/ on_path va q') /\
    match own' !! rest 2 va with
    | Some t => r = pte_at t (PX 0 va)
    | None => r = 0 /\ l' = []
    end.
Proof.
  revert q pt s l own. induction level as [|level IH]; intros q pt s l own Hinv Hq Hlen Hpath Hva Hlk.
  { exists (pte_at pt (PX 0 va)), s, l, own. rewrite app_nil_r in Hpath. rewrite <- Hpath, Hq.
    split_and!; eauto using grows_refl. }
  cbn [walk_loop]. unfold bind at 1, load64 at 1, gets at 1.
  assert (Hi : 0 <= PX (Z.of_nat (S level)) va < 512) by (apply PX_range; lia).
  rewrite (rest_S level) in Hpath. set (i := PX (Z.of_nat (S level)) va) in *. fold (entry (km_mem s) pt i).
  rewrite cons_middle, app_assoc in Hpath.
  assert (Hlen' : (length (q ++ [i]) + level = 2)%nat) by (rewrite length_app; simpl; lia).
  destruct (own !! (q ++ [i])) as [c|] eqn:Hc.
  - rewrite (pt_child _ _ _ (vi_tree _ _ _ _ _ Hinv) _ _ _ _ Hq Hc).
    pose proof (vi_page_range _ _ _ _ _ _ _ Hinv Hc). rewrite flag_V_child by lia.
    destruct (PTE2PA_PA2PTE c PTE_V) as [-> _]; [lia|by apply (vi_page_ok _ _ _ _ _ _ _ Hinv Hc)|done|].
    by eapply IH.
  - rewrite (pt_hole _ _ _ (vi_tree _ _ _ _ _ Hinv) _ _ _ Hq ltac:(lia) Hi Hc).
    change (negb (ctrue 1)) with false. cbn [negb].
    destruct l as [|p l].
    { rewrite (bind_ok _ _ _ _ _ _ _ (kalloc_empty kend th s (vi_km _ _ _ _ _ Hinv) Hlk)).
      exists 0, s, [], own. split_and!; eauto using grows_refl.
      pose proof (walk_loop_read (S level) q pt va th s [] root own A Hinv Hq Hlen) as E.
      rewrite (rest_S level) in E. fold i in E. rewrite cons_middle, app_assoc, Hpath in E.
      cbn [walk_loop] in E. unfold bind at 1, load64 at 1, gets at 1 in E. fold i in E.
      fold (entry (km_mem s) pt i) in E.
      rewrite (pt_hole _ _ _ (vi_tree _ _ _ _ _ Hinv) _ _ _ Hq ltac:(lia) Hi Hc) in E.
      change (negb (ctrue 0)) with true in E. unfold ret in E. cbv beta iota in E.
      destruct (own !! rest 2 va) as [t|] eqn:Et; [|done]. injection E as E.
      pose proof (vi_page_range _ _ _ _ _ _ _ Hinv Et). pose proof (PX_range 0 va ltac:(lia)).
      unfold pte_at in E. lia. }
    destruct (kalloc_ok kend kend_ok p l th s (vi_km _ _ _ _ _ Hinv) Hlk)
      as (s1 & E1 & Hkm & Hpok & _ & Hout).
    rewrite (bind_ok _ _ _ _ _ _ _ E1).
    pose proof (page_ok_pos _ kend_ok _ Hpok). destruct (Z.eqb_spec p 0); [lia|].
    assert (Hlow : length (q ++ [i]) = 2%nat -> exists va, 0 <= va < MAXVA /\ q ++ [i] = rest 2 va).
    { intros HE. exists va. split; [done|]. assert (level = 0%nat) as -> by lia. by rewrite app_nil_r in Hpath. }
    pose proof (add_child s s1 l root own A q pt i p Hinv Hq ltac:(lia) Hi Hc Hlow Hkm Hout) as Hinv2.
    unfold bind at 1, mem_set at 1, modify at 1. unfold bind at 1, store64 at 1, modify at 1.
    unfold set_mem at 2. cbn [km_mem].
    change (set_mem ?m (set_mem ?m' s1)) with (set_mem m s1).
    destruct (IH (q ++ [i]) p _ l _ Hinv2) as (r & s' & l' & own' & E & Hinv' & Hgr & Hdom & Hr);
      [apply lookup_insert_eq|done|done|done|done|].
    exists r, s', l', own'. split_and!; [exact E|done| | |done].
    + eapply grows_trans; [|exact Hgr]. split.
      * by apply insert_subseteq.
      * rewrite pages_insert by done. by rewrite <- Permutation_middle.
      * intros a. rewrite outside_app, outside_cons. intros [[Ha _] Ha']. cbn [km_mem set_mem].
        rewrite store_outside; [|done|apply Ha', elem_of_pages; by exists q].
        rewrite memset_get by done. rewrite Hout by done. unfold in_page in Ha. zbool.
    + intros q' Hq'. destruct (Hdom q' Hq') as [H'|H']; [|by right].
      apply lookup_insert_is_Some in H' as [<-|[_ H']]; [|by left]. right.
      destruct level as [|level]; [right; by rewrite <- Hpath, app_nil_r|].
      left. rewrite <- Hpath. assert (length (q ++ [i]) = 1%nat) as E' by lia.
      by rewrite take_app_length' by done.
Qed.

Lemma walk_alloc va th s l root own A :
  vm_inv s l root own A -> 0 <= va < MAXVA -> LkKmem ∉ th_held th ->
  exists r s' l' own', walk root va 1 th s = Ok r th s' /\ vm_inv s' l' root own' A /\
    grows s s' l l' own own' /\
    (forall q' : path, is_Some (own' !! q') -> is_Some (own !! q') \/ on_path va q') /\
    match own' !! rest 2 va with
    | Some t => r = pte_at t (PX 0 va)
    | None => r = 0 /\ l' = []
    end.
Proof.
  intros Hinv Hva Hlk. unfold walk. rewrite Z.geb_leb. destruct (Z.leb_spec MAXVA va); [lia|].
  apply (walk_loop_alloc 2 []); try done. apply (pt_root _ _ _ (vi_tree _ _ _ _ _ Hinv)).
Qed.

(** ** Bottom-level entries *)

Lemma leaf_some s l root own A va w :
  vm_inv s l root own A -> A !! va = Some w ->
  exists t, own !! rest 2 va = Some t /\ entry (km_mem s) t (PX 0 va) = w /\ flag w PTE_V = true /\
    0 <= va < MAXVA /\ va mod PGSIZE = 0.
Proof.
  intros Hinv Hw. apply (vi_leafs _ _ _ _ _ Hinv) in Hw as (H1 & H2 & H3 & t & Ht & He). by exists t.
Qed.

Lemma leaf_none s l root own A va t :
  vm_inv s l root own A -> 0 <= va < MAXVA -> va mod PGSIZE = 0 -> A !! va = None ->
  own !! rest 2 va = Some t -> flag (entry (km_mem s) t (PX 0 va)) PTE_V = false.
Proof.
  intros Hinv H1 H2 Hn Ht. apply not_true_is_false. intros Hf.
  assert (A !! va = Some (entry (km_mem s) t (PX 0 va))); [|congruence].
  apply (vi_leafs _ _ _ _ _ Hinv). do 3 (split; [done|]). by exists t.
Qed.

Definition set_leaf (A : gmap Z Z) (va w : Z) : gmap Z Z :=
  if flag w PTE_V then <[va := w]> A else delete va A.

Lemma pte_addr_pos s l root own A va t :
  vm_inv s l root own A -> own !! rest 2 va = Some t -> (pte_at t (PX 0 va) =? 0) = false.
Proof.
  intros Hinv Ht. pose proof (vi_page_range _ _ _ _ _ _ _ Hinv Ht).
  pose proof (PX_range 0 va ltac:(lia)). unfold pte_at. zbool.
Qed.

Lemma store_leaf s l root own A va t w :
  vm_inv s l root own A -> own !! rest 2 va = Some t -> 0 <= va < MAXVA -> va mod PGSIZE = 0 -> is_u64 w ->
  vm_inv (set_mem (st64 (km_mem s) (pte_at t (PX 0 va)) w) s) l root own (set_leaf A va w).
Proof.
  intros Hinv Ht Hva Hal Hw. set (m' := st64 _ _ _).
  assert (Hi : 0 <= PX 0 va < 512) by (by apply PX_range).
  assert (Hold : forall q p j, own !! q = Some p -> 0 <= j < 512 -> (q <> rest 2 va \/ j <> PX 0 va) ->
            entry m' p j = entry (km_mem s) p j).
  { intros q p j Hq Hj Hne. destruct (decide (p = t)) as [->|Hpt].
    - assert (q = rest 2 va) as -> by (by eapply vi_inj). apply entry_store_ne. naive_solver.
    - apply entry_ext; [|done]. intros a Ha. apply store_outside; [done|]. intros Ha'. apply Hpt.
      eapply pages_disjoint; [| |exact Ha|exact Ha']; by eapply vi_page_ok. }
  split.
  - apply km_inv_set_mem; [apply (vi_km _ _ _ _ _ Hinv)|]. intros x a Hx Ha.
    apply store_outside; [done|]. intros Ha'. destruct (vi_km _ _ _ _ _ Hinv) as (_ & _ & HF).
    rewrite Forall_forall in HF. assert (x = t) as ->.
    { eapply pages_disjoint; [by apply HF| |exact Ha|exact Ha']. by eapply vi_page_ok. }
    pose proof (vi_nodup _ _ _ _ _ Hinv) as Hnd. apply NoDup_app in Hnd as (_ & Hd & _).
    apply (Hd t Hx), elem_of_pages. by eexists.
  - destruct (vi_tree _ _ _ _ _ Hinv) as [H1 H2 H2' H3 H4 H5]. split; try done.
    + intros q p j c Hq Hc. destruct (H3 _ _ _ Hc) as [Hj _]. rewrite <- (H4 q p j c Hq Hc).
      apply (Hold q); [done|done|]. left. intros ->. apply H2 in Hc.
      rewrite length_app, length_rest in Hc. simpl in Hc. lia.
    + intros q p j Hq Hl Hj Hc. rewrite <- (H5 q p j Hq Hl Hj Hc). f_equal.
      apply (Hold q); [done|done|]. left. intros ->. rewrite length_rest in Hl. lia.
  - intros va' w'. cbn [km_mem set_mem].
    destruct (decide (va' = va)) as [->|Hne].
    + transitivity (w' = w /\ flag w PTE_V = true).
      { unfold set_leaf. destruct (flag w PTE_V).
        - rewrite lookup_insert_eq. naive_solver.
        - rewrite lookup_delete_eq. naive_solver. }
      rewrite Ht. split; [intros [-> Hf]|intros (_ & _ & Hf & t' & [= <-] & He)].
      * do 3 (split; [done|]). exists t. split; [done|]. by apply entry_store_eq.
      * unfold m' in He. rewrite entry_store_eq in He by done. by subst w'.
    + transitivity (A !! va' = Some w').
      { unfold set_leaf. destruct (flag w PTE_V);
          [by rewrite lookup_insert_ne by done|by rewrite lookup_delete_ne by done]. }
      rewrite (vi_leafs _ _ _ _ _ Hinv va' w').
      split; intros (H1 & H2 & H3 & t' & Ht' & He); do 3 (split; [done|]); exists t'; (split; [done|]);
        rewrite <- He; [|symmetry]; (eapply Hold; [exact Ht'|by apply PX_range|]);
        (destruct (decide (rest 2 va' = rest 2 va)) as [E|]; [right|by left]);
        intros E'; apply Hne; by apply va_of_path.
  - apply (vi_pages _ _ _ _ _ Hinv).
  - apply (vi_nodup _ _ _ _ _ Hinv).
Qed.

(** ** [mappages] *)

(** One round of the loop: the entry of a page that is not mapped is found or
    made, and it is free to be written. *)
Lemma map_one va pa perm th s l root own A :
  vm_inv s l root own A -> LkKmem ∉ th_held th -> 0 <= perm < 1024 ->
  0 <= va < MAXVA -> va mod PGSIZE = 0 -> 0 <= pa < 2 ^ 56 -> pa mod PGSIZE = 0 -> A !! va = None ->
  exists r s1 l1 own1, walk root va 1 th s = Ok r th s1 /\
    (forall q : path, is_Some (own1 !! q) -> is_Some (own !! q) \/ on_path va q) /\
    match own1 !! rest 2 va with
    | None => r = 0 /\ l1 = [] /\ vm_inv s1 [] root own1 A /\ grows s s1 l [] own own1
    | Some _ =>
        (r =? 0) = false /\ flag (ld64 (km_mem s1) r) PTE_V = false /\
        let s2 := set_mem (st64 (km_mem s1) r (leaf_pte pa perm)) s1 in
        vm_inv s2 l1 root own1 (<[va := leaf_pte pa perm]> A) /\ grows s s2 l l1 own own1
    end.
Proof.
  intros Hinv Hlk Hperm Hva Hal Hpa Hpal Hfree.
  destruct (walk_alloc va th s l root own A) as (r & s1 & l1 & own1 & E & Hinv1 & Hgr1 & Hdom1 & Hr);
    [done|lia|done|].
  exists r, s1, l1, own1. split_and!; [done|done|].
  destruct (own1 !! rest 2 va) as [t|] eqn:Ht; [subst r|by destruct Hr as [-> ->]].
  destruct (leaf_pte_eq pa perm Hpa Hpal Hperm) as (Hw & Hf & _).
  split; [by eapply pte_addr_pos|]. split; [by eapply leaf_none|]. intros s2. split.
  - pose proof (store_leaf _ _ _ _ _ _ _ _ Hinv1 Ht Hva Hal Hw) as Hinv2.
    unfold set_leaf in Hinv2. by rewrite Hf in Hinv2.
  - eapply grows_trans; [exact Hgr1|]. split; [done|done|]. intros a [_ Ha]%outside_app.
    apply store_outside; [by apply PX_range|]. apply Ha, elem_of_pages. by eexists.
Qed.

Lemma mappages_loop_ok k va pa perm th s l root own A :
  vm_inv s l root own A -> LkKmem ∉ th_held th -> 0 <= perm < 1024 ->
  0 <= va -> va mod PGSIZE = 0 -> va + Z.of_nat (S k) * PGSIZE <= MAXVA ->
  0 <= pa -> pa mod PGSIZE = 0 -> pa + Z.of_nat (S k) * PGSIZE <= 2 ^ 56 ->
  (forall x, in_range va (S k) x = true -> A !! x = None) ->
  exists r j s' l' own',
    mappages_loop (S k) root va (va + Z.of_nat k * PGSIZE) pa perm th s = Ok r th s' /\
    vm_inv s' l' root own' (map_range A va pa perm j) /\ grows s s' l l' own own' /\
    (forall q : path, is_Some (own' !! q) -> is_Some (own !! q) \/
       exists x, in_range va (S k) x = true /\ on_path x q) /\
    ((r = 0 /\ j = S k) \/
     (r = -1 /\ (j < S k)%nat /\ l' = [] /\ own' !! rest 2 (va + Z.of_nat j * PGSIZE) = None)).
Proof.
  revert va pa s l own A. induction k as [k IH] using lt_wf_ind.
  intros va pa s l own A Hinv Hlk Hperm Hva Hal Hmax Hpa Hpal Hpmax Hfree.
  assert (Hself : in_range va (S k) va = true) by (rewrite in_range_S; by rewrite Z.eqb_refl).
  destruct (map_one va pa perm th s l root own A) as (r & s1 & l1 & own1 & E & Hdom1 & Hr);
    try done; [unfold PGSIZE in *; lia..|by apply Hfree|].
  cbn [mappages_loop]. rewrite (bind_ok _ _ _ _ _ _ _ E).
  assert (Hdom : forall q : path, is_Some (own1 !! q) -> is_Some (own !! q) \/
            exists x, in_range va (S k) x = true /\ on_path x q).
  { intros q Hq. destruct (Hdom1 q Hq); [by left|]. right. by exists va. }
  destruct (own1 !! rest 2 va) as [t|] eqn:Ht.
  2: { destruct Hr as (-> & -> & Hinv1 & Hgr1). exists (-1), 0%nat, s1, [], own1.
       rewrite Z.mul_0_l, Z.add_0_r. split_and!; [done|done|done|done|]. right. split_and!; try done. lia. }
  destruct Hr as (-> & Hv & Hinv2 & Hgr2). unfold bind at 1, load64 at 1, gets at 1. rewrite Hv.
  unfold bind at 1, store64 at 1, modify at 1. fold (leaf_pte pa perm).
  set (s2 := set_mem _ s1) in *. destruct k as [|k].
  - rewrite Z.mul_0_l, Z.add_0_r, Z.eqb_refl. exists 0, 1%nat, s2, l1, own1.
    split_and!; [done|done|done|done|by left].
  - destruct (Z.eqb_spec va (va + Z.of_nat (S k) * PGSIZE)) as [E'|_]; [unfold PGSIZE in E'; lia|].
    rewrite !u64_id by (rewrite MAXVA_eq in *; unfold PGSIZE in *; lia).
    replace (va + Z.of_nat (S k) * PGSIZE) with (va + PGSIZE + Z.of_nat k * PGSIZE) by lia.
    destruct (IH k ltac:(lia) (va + PGSIZE) (pa + PGSIZE) s2 l1 own1 _ Hinv2)
      as (r' & j & s' & l' & own' & E' & Hinv' & Hgr' & Hdom' & Hres); try done; try (unfold PGSIZE in *; lia).
    + unfold PGSIZE in *. by rewrite <- Zplus_mod_idemp_l, Hal.
    + unfold PGSIZE in *. by rewrite <- Zplus_mod_idemp_l, Hpal.
    + intros x Hx. rewrite lookup_insert_ne.
      * apply Hfree. rewrite in_range_S, Hx. apply orb_true_r.
      * intros <-. by rewrite in_range_self in Hx.
    + exists r', (S j), s', l', own'. split_and!; [exact E'|exact Hinv'|by eapply grows_trans| |].
      * intros q Hq. destruct (Hdom' q Hq) as [Hq'|(x & Hx & Hp)]; [by apply Hdom|].
        right. exists x. split; [|done]. rewrite in_range_S, Hx. apply orb_true_r.
      * destruct Hres as [[-> ->]|(-> & Hj & -> & Hn)]; [by left|right]. split_and!; [done|lia|done|].
        rewrite <- Hn. f_equal. f_equal. lia.
Qed.

Lemma mappages_ok n va pa perm th s l root own A :
  vm_inv s l root own A -> LkKmem ∉ th_held th -> (0 < n)%nat -> 0 <= perm < 1024 ->
  0 <= va -> va mod PGSIZE = 0 -> va + Z.of_nat n * PGSIZE <= MAXVA ->
  0 <= pa -> pa mod PGSIZE = 0 -> pa + Z.of_nat n * PGSIZE <= 2 ^ 56 ->
  (forall x, in_range va n x = true -> A !! x = None) ->
  exists r j s' l' own',
    mappages root va (Z.of_nat n * PGSIZE) pa perm th s = Ok r th s' /\
    vm_inv s' l' root own' (map_range A va pa perm j) /\ grows s s' l l' own own' /\
    (forall q : path, is_Some (own' !! q) -> is_Some (own !! q) \/
       exists x, in_range va n x = true /\ on_path x q) /\
    ((r = 0 /\ j = n) \/
     (r = -1 /\ (j < n)%nat /\ l' = [] /\ own' !! rest 2 (va + Z.of_nat j * PGSIZE) = None)).
Proof.
  intros Hinv Hlk Hn Hperm Hva Hal Hmax Hpa Hpal Hpmax Hfree. destruct n as [|k]; [lia|].
  unfold mappages. rewrite Hal, Z.mod_mul by done. cbn [negb Z.eqb].
  destruct (Z.eqb_spec (Z.of_nat (S k) * PGSIZE) 0) as [E|_]; [unfold PGSIZE in E; lia|].
  rewrite Z.div_mul, Nat2Z.id by done.
  replace (u64 (va + Z.of_nat (S k) * PGSIZE - PGSIZE)) with (va + Z.of_nat k * PGSIZE)
    by (rewrite u64_id; rewrite MAXVA_eq in *; unfold PGSIZE in *; lia).
  by apply mappages_loop_ok.
Qed.

(** ** Taking and giving back pages beside a table *)

Lemma kfree_vm pa th s l root own A :
  vm_inv s l root own A -> page_ok kend pa -> pa ∉ l ++ pages own -> LkKmem ∉ th_held th ->
  exists s', kfree kend pa th s = Ok tt th s' /\ vm_inv s' (pa :: l) root own A /\
    forall a, ~ in_page pa a -> mget (km_mem s') a = mget (km_mem s) a.
Proof.
  intros Hinv Hpa Hni Hlk. rewrite elem_of_app in Hni.
  destruct (kfree_ok kend kend_ok pa th s l) as (s' & E & Hkm & Hout);
    [apply (vi_km _ _ _ _ _ Hinv)|done|tauto|done|].
  assert (Hext : forall p a, p ∈ pages own -> in_page p a -> mget (km_mem s') a = mget (km_mem s) a).
  { intros p a Hp Ha. apply Hout. intros Ha'. apply Hni. right.
    pose proof (vi_pages _ _ _ _ _ Hinv) as HP. rewrite Forall_forall in HP.
    by rewrite <- (pages_disjoint p pa a) by auto. }
  destruct Hinv as [H1 H2 H3 H4 H5].
  exists s'. split_and!; [done| |done]. split; [done|by eapply ptree_ext|by eapply leafs_ext|done|].
  simpl. constructor; [by rewrite elem_of_app|done].
Qed.

Lemma kalloc_vm p l th s root own A :
  vm_inv s (p :: l) root own A -> LkKmem ∉ th_held th ->
  exists s', kalloc th s = Ok p th s' /\ vm_inv s' l root own A /\ page_ok kend p /\
    p ∉ l ++ pages own /\
    (forall a, ~ in_page p a -> mget (km_mem s') a = mget (km_mem s) a).
Proof.
  intros Hinv Hlk. destruct Hinv as [H1 H2 H3 H4 H5].
  destruct (kalloc_ok kend kend_ok p l th s H1 Hlk) as (s' & E & Hkm & Hp & _ & Hout).
  simpl in H5. apply NoDup_cons in H5 as [Hni Hnd].
  assert (Hext : forall q a, q ∈ pages own -> in_page q a -> mget (km_mem s') a = mget (km_mem s) a).
  { intros q a Hq Ha. apply Hout. intros Ha'. apply Hni, elem_of_app. right.
    rewrite Forall_forall in H4. by rewrite <- (pages_disjoint q p a) by auto. }
  exists s'. split_and!; try done. split; [done|by eapply ptree_ext|by eapply leafs_ext|done|done].
Qed.

(** Writing a page that is neither free nor part of the table. *)
Lemma vm_inv_write s l root own A m' p :
  vm_inv s l root own A -> page_ok kend p -> p ∉ l ++ pages own ->
  (forall a, ~ in_page p a -> mget m' a = mget (km_mem s) a) ->
  vm_inv (set_mem m' s) l root own A.
Proof.
  intros [H1 H2 H3 H4 H5] Hp Hni Hout. rewrite elem_of_app in Hni.
  assert (Hext : forall q a, q ∈ pages own -> in_page q a -> mget m' a = mget (km_mem s) a).
  { intros q a Hq Ha. apply Hout. intros Ha'. apply Hni. right.
    rewrite Forall_forall in H4. by rewrite <- (pages_disjoint q p a) by auto. }
  split; [|by eapply ptree_ext|by eapply leafs_ext|done|done].
  apply km_inv_set_mem; [done|]. intros x a Hx Ha. apply Hout. intros Ha'. apply Hni. left.
  destruct H1 as (_ & _ & HF). rewrite Forall_forall in HF. by rewrite <- (pages_disjoint x p a) by auto.
Qed.

(** ** [uvmunmap] *)

(** The [k] pages from [va] are mapped, to the frames [ps]. *)
Definition mapped (A : gmap Z Z) (va : Z) (ps : list Z) : Prop :=
  forall i p, ps !! i = Some p -> exists w, A !! (va + Z.of_nat i * PGSIZE) = Some w /\
    PTE2PA w = p /\ PTE_FLAGS w <> PTE_V.

Lemma mapped_cons A va p ps :
  mapped A va (p :: ps) <->
  (exists w, A !! va = Some w /\ PTE2PA w = p /\ PTE_FLAGS w <> PTE_V) /\ mapped A (va + PGSIZE) ps.
Proof.
  split.
  - intros H. split.
    + destruct (H 0%nat p eq_refl) as (w & Hw & ?). rewrite Z.mul_0_l, Z.add_0_r in Hw. eauto.
    + intros i q Hq. destruct (H (S i) q Hq) as (w & Hw & ?). exists w. split; [|done].
      rewrite <- Hw. f_equal. lia.
  - intros [H0 H] [|i] q Hq.
    + injection Hq as <-. by rewrite Z.mul_0_l, Z.add_0_r.
    + destruct (H i q Hq) as (w & Hw & ?). exists w. split; [|done]. rewrite <- Hw. f_equal. lia.
Qed.

Lemma uvmunmap_loop_ok ps va do_free th s l root own A :
  vm_inv s l root own A -> LkKmem ∉ th_held th ->
  0 <= va -> va mod PGSIZE = 0 -> va + Z.of_nat (length ps) * PGSIZE <= MAXVA ->
  mapped A va ps ->
  (do_free <> 0 -> Forall (page_ok kend) ps /\ NoDup (l ++ pages own ++ ps)) ->
  exists s',
    uvmunmap_loop kend (length ps) root va (va + Z.of_nat (length ps) * PGSIZE) do_free th s = Ok tt th s' /\
    vm_inv s' (if ctrue do_free then rev ps ++ l else l) root own (unmap_range A va (length ps)) /\
    forall a, outside (pages own ++ (if ctrue do_free then ps else [])) a ->
      mget (km_mem s') a = mget (km_mem s) a.
Proof.
  revert va s l A. induction ps as [|p ps IH]; intros va s l A Hinv Hlk Hva Hal Hmax Hm Hfree.
  { cbn [uvmunmap_loop length]. rewrite Z.mul_0_l, Z.add_0_r, Z.ltb_irrefl. exists s.
    split_and!; [done| |done]. by destruct (ctrue do_free). }
  cbn [uvmunmap_loop length unmap_range] in *.
  destruct (Z.ltb_spec va (va + Z.of_nat (S (length ps)) * PGSIZE)) as [_|]; [|unfold PGSIZE in *; lia].
  apply mapped_cons in Hm as [(w & Hw & <- & Hfl) Hm].
  destruct (leaf_some _ _ _ _ _ _ _ Hinv Hw) as (t & Ht & He & HV & Hvam & _).
  erewrite bind_ok; [|eapply walk_read; [done|lia]]. rewrite Ht.
  rewrite (pte_addr_pos _ _ _ _ _ _ _ Hinv Ht). unfold bind at 1, load64 at 1, gets at 1.
  fold (entry (km_mem s) t (PX 0 va)). rewrite He, HV. cbn [negb].
  destruct (Z.eqb_spec (PTE_FLAGS w) PTE_V); [done|].
  assert (exists s1, when (ctrue do_free) (kfree kend (PTE2PA w)) th s = Ok tt th s1 /\
    vm_inv s1 (if ctrue do_free then PTE2PA w :: l else l) root own A /\
    forall a, outside (if ctrue do_free then [PTE2PA w] else []) a ->
      mget (km_mem s1) a = mget (km_mem s) a) as (s1 & E1 & Hinv1 & Hout1).
  { unfold ctrue. destruct (Z.eqb_spec do_free 0) as [->|Hnz]; cbn [negb when].
    - exists s. by split_and!.
    - destruct (Hfree Hnz) as [HF Hnd]. apply Forall_cons in HF as [Hp _].
      destruct (kfree_vm (PTE2PA w) th s l root own A) as (s1 & E1 & Hinv1 & Hout1); try done.
      { rewrite (app_assoc l) in Hnd. apply NoDup_app in Hnd as (_ & Hd & _).
        intros Hin. apply (Hd _ Hin). left. }
      exists s1. split_and!; try done. intros a Ha. apply Hout1, Ha. left. }
  rewrite (bind_ok _ _ _ _ _ _ _ E1). unfold bind at 1, store64 at 1, modify at 1.
  pose proof (store_leaf _ _ _ _ _ _ _ 0 Hinv1 Ht Hvam Hal ltac:(done)) as Hinv2.
  change (set_leaf A va 0) with (delete va A) in Hinv2. set (s2 := set_mem _ s1) in *.
  rewrite u64_id by (rewrite MAXVA_eq in *; unfold PGSIZE in *; lia).
  destruct (IH (va + PGSIZE) s2 _ (delete va A) Hinv2) as (s' & E' & Hinv' & Hout'); try done.
  - unfold PGSIZE in *; lia.
  - unfold PGSIZE in *. by rewrite <- Zplus_mod_idemp_l, Hal.
  - unfold PGSIZE in *; lia.
  - intros i p Hp. destruct (Hm i p Hp) as (w' & Hw' & ?). exists w'. split; [|done].
    rewrite lookup_delete_ne; [done|]. unfold PGSIZE. lia.
  - intros Hnz. destruct (Hfree Hnz) as [HF Hnd]. apply Forall_cons in HF as [Hp HF]. split; [done|].
    replace (ctrue do_free) with true by (unfold ctrue; by destruct (Z.eqb_spec do_free 0)).
    rewrite (app_assoc l) in Hnd. rewrite <- Permutation_middle, <- (app_assoc l) in Hnd. done.
  - exists s'. split_and!.
    + rewrite <- E'. f_equal. lia.
    + destruct (ctrue do_free); [|done]. simpl rev. by rewrite <- app_assoc.
    + intros a [Ha Ha']%outside_app. rewrite Hout'.
      * unfold s2. cbn [km_mem set_mem]. rewrite store_outside.
        { apply Hout1. destruct (ctrue do_free); [|done]. apply outside_cons in Ha' as [? _].
          apply outside_cons. split; [done|]. intros x Hx. by apply elem_of_nil in Hx. }
        { by apply PX_range. }
        apply Ha, elem_of_pages. by eexists.
      * apply outside_app. split; [done|]. destruct (ctrue do_free); [|done].
        by apply outside_cons in Ha' as [_ ?].
Qed.

Lemma uvmunmap_ok ps va do_free th s l root own A :
  vm_inv s l root own A -> LkKmem ∉ th_held th ->
  0 <= va -> va mod PGSIZE = 0 -> va + Z.of_nat (length ps) * PGSIZE <= MAXVA ->
  mapped A va ps ->
  (do_free <> 0 -> Forall (page_ok kend) ps /\ NoDup (l ++ pages own ++ ps)) ->
  exists s',
    uvmunmap kend root va (Z.of_nat (length ps)) do_free th s = Ok tt th s' /\
    vm_inv s' (if ctrue do_free then rev ps ++ l else l) root own (unmap_range A va (length ps)) /\
    forall a, outside (pages own ++ (if ctrue do_free then ps else [])) a ->
      mget (km_mem s') a = mget (km_mem s) a.
Proof.
  intros Hinv Hlk Hva Hal Hmax Hm Hfree. unfold uvmunmap. rewrite Hal. cbn [negb Z.eqb].
  rewrite (u64_id (_ * _)), u64_id, Nat2Z.id by (rewrite MAXVA_eq in *; unfold PGSIZE in *; lia).
  by apply uvmunmap_loop_ok.
Qed.

End VmMap.
