(* ===== verification/VmUser.v ===== *)
(** * User address spaces (kernel/vm.c)

    Creating, growing, shrinking, copying and freeing the memory of a process.  The
    user pages of a process occupy the virtual addresses from 0 up to its size; [fs]
    lists their frames, in address order.  Pages are conserved: the free list, the
    pages of the table and the user frames together are the same pages before and
    after every operation. *)

From S2P Require Import Prelude Layout Memory Kalloc Vm VmMap.

(** ** Sizes in pages *)

Definition pgcount (sz : Z) : Z := PGROUNDUP sz / PGSIZE.

Lemma pgcount_eq sz : 0 <= sz <= MAXVA -> PGROUNDUP sz = pgcount sz * PGSIZE /\ 0 <= pgcount sz /\
  sz <= pgcount sz * PGSIZE < sz + PGSIZE.
Proof.
  intros Hsz. unfold pgcount. rewrite MAXVA_eq in Hsz. rewrite PGROUNDUP_eq by (unfold PGSIZE; lia).
  unfold PGSIZE. set (x := sz + 4096 - 1).
  pose proof (Z.div_mod x 4096). pose proof (Z.mod_pos_bound x 4096).
  assert (x - x mod 4096 = x / 4096 * 4096) as -> by lia. rewrite Z.div_mul by lia.
  pose proof (Z.div_pos x 4096). lia.
Qed.

Lemma pgcount_mul n : 0 <= n -> n * PGSIZE <= MAXVA -> pgcount (n * PGSIZE) = n.
Proof.
  intros Hn Hm. destruct (pgcount_eq (n * PGSIZE)) as (_ & H1 & H2); [unfold PGSIZE in *; lia|].
  unfold PGSIZE in *. lia.
Qed.

Lemma pgcount_mono a b : 0 <= a <= b -> b <= MAXVA -> pgcount a <= pgcount b.
Proof.
  intros Ha Hb. destruct (pgcount_eq a) as (_ & ? & ?); [lia|]. destruct (pgcount_eq b) as (_ & ? & ?); [lia|].
  unfold PGSIZE in *. lia.
Qed.

(** ** Mapping a list of frames *)

Fixpoint map_frames (A : gmap Z Z) (va perm : Z) (ps : list Z) : gmap Z Z :=
  match ps with
  | [] => A
  | p :: ps' => map_frames (<[va := leaf_pte p perm]> A) (va + PGSIZE) perm ps'
  end.

Lemma map_frames_snoc A va perm ps p :
  map_frames A va perm (ps ++ [p]) =
  <[va + Z.of_nat (length ps) * PGSIZE := leaf_pte p perm]> (map_frames A va perm ps).
Proof.
  revert A va. induction ps as [|q ps IH]; intros A va; simpl.
  - by rewrite Z.mul_0_l, Z.add_0_r.
  - rewrite IH. f_equal. lia.
Qed.

Lemma map_frames_lookup_ne A va perm ps x :
  in_range va (length ps) x = false -> map_frames A va perm ps !! x = A !! x.
Proof.
  revert A va. induction ps as [|q ps IH]; intros A va; [done|]. cbn [length].
  rewrite in_range_S. intros [H1 H2]%orb_false_iff. cbn [map_frames]. rewrite IH by done.
  apply lookup_insert_ne. apply Z.eqb_neq in H1. congruence.
Qed.

Lemma map_frames_lookup A va perm ps i p :
  ps !! i = Some p -> map_frames A va perm ps !! (va + Z.of_nat i * PGSIZE) = Some (leaf_pte p perm).
Proof.
  revert A va i. induction ps as [|q ps IH]; intros A va i Hi; [done|]. cbn [map_frames].
  destruct i as [|i].
  - injection Hi as ->. rewrite Z.mul_0_l, Z.add_0_r.
    rewrite map_frames_lookup_ne by apply in_range_self. apply lookup_insert_eq.
  - simpl in Hi. replace (va + Z.of_nat (S i) * PGSIZE) with (va + PGSIZE + Z.of_nat i * PGSIZE) by lia.
    by apply IH.
Qed.

(** Unmapping what was mapped into a gap. *)
Lemma unmap_map_frames A va perm ps :
  (forall x, in_range va (length ps) x = true -> A !! x = None) ->
  unmap_range (map_frames A va perm ps) va (length ps) = A.
Proof.
  intros H. apply map_eq. intros x. rewrite unmap_range_lookup.
  destruct (in_range va (length ps) x) eqn:E; [by rewrite H|]. by apply map_frames_lookup_ne.
Qed.

Lemma mapped_frames A va perm ps :
  0 <= perm < 1024 -> Z.lor perm PTE_V <> PTE_V -> Forall (fun p => 0 <= p < 2 ^ 56 /\ p mod PGSIZE = 0) ps ->
  mapped (map_frames A va perm ps) va ps.
Proof.
  intros Hperm Hx HF i p Hp. exists (leaf_pte p perm). split; [by apply map_frames_lookup|].
  rewrite Forall_lookup in HF. destruct (HF i p Hp) as [? ?].
  destruct (leaf_pte_eq p perm) as (_ & _ & -> & ->); done.
Qed.

Section VmUser.
Variable kend : Z.
Hypothesis kend_ok : KERNBASE <= kend <= PHYSTOP.

Notation vm_inv := (vm_inv kend).

(** An address space with user frames [fs]. *)
Record uspace (s : kmem) (l : list Z) (root : Z) (own : gmap path Z) (A : gmap Z Z) (fs : list Z) : Prop :=
  mkUspace {
  us_vm : vm_inv s l root own A;
  us_mapped : mapped A 0 fs;
  us_gap : forall x, Z.of_nat (length fs) * PGSIZE <= x < TRAPFRAME -> A !! x = None;
  us_frames : Forall (page_ok kend) fs;
  us_nodup : NoDup (l ++ pages own ++ fs);
  us_size : Z.of_nat (length fs) * PGSIZE <= TRAPFRAME;
}.

#[local] Arguments us_vm {s l root own A fs} _.
#[local] Arguments us_mapped {s l root own A fs} _.
#[local] Arguments us_gap {s l root own A fs} _.
#[local] Arguments us_frames {s l root own A fs} _.
#[local] Arguments us_nodup {s l root own A fs} _.
#[local] Arguments us_size {s l root own A fs} _.

Lemma us_disjoint s l root own A fs f a :
  uspace s l root own A fs -> f ∈ fs -> in_page f a -> outside (l ++ pages own) a.
Proof.
  intros H Hf Ha p Hp Ha'. pose proof (us_nodup H) as Hnd.
  rewrite app_assoc in Hnd. apply NoDup_app in Hnd as (_ & Hd & _). apply (Hd p Hp).
  assert (p = f) as ->; [|done]. apply (pages_disjoint kend p f a); [|by eapply Forall_forall; [apply (us_frames H)|]|done|done].
  apply elem_of_app in Hp as [Hp|Hp].
  - destruct (vi_km _ _ _ _ _ _ (us_vm H)) as (_ & _ & HF). by eapply Forall_forall in HF.
  - pose proof (vi_pages _ _ _ _ _ _ (us_vm H)) as HF. by eapply Forall_forall in HF.
Qed.

(** ** Shrinking *)

Lemma mapped_drop A va ps k : mapped A va ps -> mapped A (va + Z.of_nat k * PGSIZE) (drop k ps).
Proof.
  intros H i p. rewrite lookup_drop. intros Hp. destruct (H _ _ Hp) as (w & Hw & ?).
  exists w. split; [|done]. rewrite <- Hw. f_equal. lia.
Qed.

Lemma shrink_ok k th s l root own A fs :
  uspace s l root own A fs -> LkKmem ∉ th_held th -> (k <= length fs)%nat ->
  exists s',
    uvmunmap kend root (Z.of_nat k * PGSIZE) (Z.of_nat (length fs - k)) 1 th s = Ok tt th s' /\
    uspace s' (rev (drop k fs) ++ l) root own (unmap_range A (Z.of_nat k * PGSIZE) (length fs - k)) (take k fs) /\
    forall a, outside (pages own ++ drop k fs) a -> mget (km_mem s') a = mget (km_mem s) a.
Proof.
  intros [H1 H2 H3 H4 H5 H6] Hlk Hk.
  assert (HT : TRAPFRAME <= MAXVA) by done.
  assert (HN : NoDup (l ++ pages own ++ drop k fs)).
  { rewrite <- (take_drop k fs) in H5. rewrite (app_assoc _ (take k fs)) in H5.
    rewrite (Permutation_app_comm (pages own)), <- !app_assoc in H5.
    apply NoDup_app in H5 as (Hl & Hd & H5). apply NoDup_app in H5 as (_ & _ & H5).
    apply NoDup_app. split_and!; [done| |done]. intros x Hx Hx'. apply (Hd x Hx), elem_of_app. by right. }
  destruct (uvmunmap_ok kend kend_ok (drop k fs) (Z.of_nat k * PGSIZE) 1 th s l root own A)
    as (s' & E & Hinv & Hout); try done.
  - unfold PGSIZE. lia.
  - by apply Z.mod_mul.
  - rewrite length_drop. unfold PGSIZE in *. lia.
  - apply (mapped_drop A 0). done.
  - intros _. split; [|done]. by apply Forall_drop.
  - rewrite length_drop in *. exists s'. split_and!; [done| |done]. split.
    + done.
    + intros i p Hp. rewrite lookup_take_Some in Hp. destruct Hp as [Hp Hi].
      destruct (H2 i p Hp) as (w & Hw & ?). exists w. split; [|done].
      rewrite unmap_range_lookup. destruct (in_range _ _ _) eqn:Er; [|done].
      apply in_range_spec in Er as (j & Hj & Er). unfold PGSIZE in Er. lia.
    + intros x Hx. rewrite length_take in Hx. rewrite unmap_range_lookup.
      destruct (in_range (Z.of_nat k * PGSIZE) (length fs - k) x) eqn:Er; [done|].
      destruct (Z.le_gt_cases (Z.of_nat (length fs) * PGSIZE) x); [apply H3; lia|].
      destruct (A !! x) as [w|] eqn:Hw; [|done]. exfalso.
      destruct (leaf_some _ _ _ _ _ _ _ _ H1 Hw) as (_ & _ & _ & _ & _ & Hal).
      apply not_true_iff_false in Er. apply Er, in_range_spec.
      exists (Z.to_nat (x / PGSIZE) - k)%nat. unfold PGSIZE in *.
      pose proof (Z.div_mod x 4096). pose proof (Z.div_pos x 4096). lia.
    + by apply Forall_take.
    + rewrite <- (take_drop k fs) in H5. rewrite <- (Permutation_rev (drop k fs)).
      rewrite <- app_assoc, (Permutation_app_comm (drop k fs)), <- !app_assoc. done.
    + rewrite length_take. unfold PGSIZE in *. lia.
Qed.

Lemma uvmdealloc_ok oldsz newsz th s l root own A fs :
  uspace s l root own A fs -> LkKmem ∉ th_held th ->
  0 <= newsz -> 0 <= oldsz <= MAXVA -> Z.of_nat (length fs) = pgcount oldsz ->
  exists s' k, uvmdealloc kend root oldsz newsz th s = Ok (Z.min oldsz newsz) th s' /\
    Z.of_nat k = pgcount (Z.min oldsz newsz) /\ (k <= length fs)%nat /\
    uspace s' (rev (drop k fs) ++ l) root own
      (unmap_range A (Z.of_nat k * PGSIZE) (length fs - k)) (take k fs) /\
    forall a, outside (pages own ++ drop k fs) a -> mget (km_mem s') a = mget (km_mem s) a.
Proof.
  intros Hus Hlk Hn Ho Hlen. unfold uvmdealloc. rewrite Z.geb_leb.
  destruct (pgcount_eq oldsz) as (Eo & Ho1 & Ho2); [done|].
  destruct (Z.leb_spec oldsz newsz).
  - exists s, (length fs). rewrite drop_all, Nat.sub_diag, firstn_all, Z.min_l by lia. by split_and!.
  - rewrite Z.min_r by lia. destruct (pgcount_eq newsz) as (En & Hn1 & Hn2); [lia|].
    pose proof (pgcount_mono newsz oldsz ltac:(lia) ltac:(lia)).
    set (k := Z.to_nat (pgcount newsz)). assert (Hk : Z.of_nat k = pgcount newsz) by lia.
    destruct (Z.ltb_spec (PGROUNDUP newsz) (PGROUNDUP oldsz)) as [Hlt|Hge]; cbn [when].
    + assert (Hnp : u64 (i32 (u64 (PGROUNDUP oldsz - PGROUNDUP newsz) / PGSIZE)) = Z.of_nat (length fs - k)).
      { rewrite MAXVA_eq in Ho. rewrite Eo, En in *. rewrite <- Z.mul_sub_distr_r.
        unfold PGSIZE in *. rewrite (u64_id (_ * _)), Z.div_mul, i32_id, u64_id by lia. lia. }
      rewrite Hnp, En, <- Hk.
      destruct (shrink_ok k th s l root own A fs) as (s' & E & Hus' & Hout); [done|done|lia|].
      exists s', k. rewrite (bind_ok _ _ _ _ _ _ _ E). split_and!; [done|done|lia|done|done].
    + exists s, k. rewrite Eo, En in *. assert (k = length fs) as -> by (unfold PGSIZE in *; lia).
      rewrite drop_all, Nat.sub_diag, firstn_all. by split_and!.
Qed.

(** ** Adding a page *)

Lemma us_with_vm s s' l l' root own own' A fs :
  uspace s l root own A fs -> vm_inv s' l' root own' A -> NoDup (l' ++ pages own' ++ fs) ->
  uspace s' l' root own' A fs.
Proof. by intros [H1 H2 H3 H4 H5 H6] Hvm Hnd. Qed.

Lemma us_grows s s' l l' root own own' A fs :
  uspace s l root own A fs -> vm_inv s' l' root own' A -> grows s s' l l' own own' ->
  uspace s' l' root own' A fs.
Proof.
  intros Hus Hvm Hgr. eapply us_with_vm; [done|done|].
  rewrite app_assoc, (gr_perm _ _ _ _ _ _ Hgr), <- app_assoc. apply (us_nodup Hus).
Qed.

Lemma kalloc_us p l th s root own A fs :
  uspace s (p :: l) root own A fs -> LkKmem ∉ th_held th ->
  exists s', kalloc th s = Ok p th s' /\ uspace s' l root own A fs /\ page_ok kend p /\
    p ∉ l ++ pages own ++ fs /\
    (forall a, ~ in_page p a -> mget (km_mem s') a = mget (km_mem s) a).
Proof.
  intros Hus Hlk. destruct (kalloc_vm kend kend_ok p l th s root own A (us_vm Hus) Hlk)
    as (s' & E & Hvm & Hp & _ & Hout).
  pose proof (us_nodup Hus) as Hnd. simpl in Hnd. apply NoDup_cons in Hnd as [Hni Hnd].
  exists s'. split_and!; try done. by eapply us_with_vm.
Qed.

Lemma kfree_us pa th s l root own A fs :
  uspace s l root own A fs -> page_ok kend pa -> pa ∉ l ++ pages own ++ fs -> LkKmem ∉ th_held th ->
  exists s', kfree kend pa th s = Ok tt th s' /\ uspace s' (pa :: l) root own A fs /\
    forall a, ~ in_page pa a -> mget (km_mem s') a = mget (km_mem s) a.
Proof.
  intros Hus Hp Hni Hlk. destruct (kfree_vm kend kend_ok pa th s l root own A (us_vm Hus))
    as (s' & E & Hvm & Hout); [done|rewrite app_assoc, elem_of_app in Hni; tauto|done|].
  exists s'. split_and!; try done. eapply us_with_vm; [done|done|].
  simpl. constructor; [done|apply (us_nodup Hus)].
Qed.

Lemma us_write s l root own A fs m' p :
  uspace s l root own A fs -> page_ok kend p -> p ∉ l ++ pages own ++ fs ->
  (forall a, ~ in_page p a -> mget m' a = mget (km_mem s) a) ->
  uspace (set_mem m' s) l root own A fs.
Proof.
  intros Hus Hp Hni Hout. eapply us_with_vm; [done| |apply (us_nodup Hus)].
  eapply vm_inv_write; [done|apply (us_vm Hus)|done|rewrite app_assoc, elem_of_app in Hni; tauto|done].
Qed.

(** A page that is in none of the three sets becomes the next user page, or the
    table cannot be grown. *)
Lemma map_page p perm th s l root own A fs :
  uspace s l root own A fs -> LkKmem ∉ th_held th -> page_ok kend p -> p ∉ l ++ pages own ++ fs ->
  0 <= perm < 1024 -> Z.lor perm PTE_V <> PTE_V ->
  Z.of_nat (length fs) * PGSIZE + PGSIZE <= TRAPFRAME ->
  exists r s' l' own',
    mappages root (Z.of_nat (length fs) * PGSIZE) PGSIZE p perm th s = Ok r th s' /\
    grows s s' l l' own own' /\
    ((r = 0 /\ uspace s' l' root own'
        (<[Z.of_nat (length fs) * PGSIZE := leaf_pte p perm]> A) (fs ++ [p])) \/
     (r = -1 /\ l' = [] /\ uspace s' [] root own' A fs)).
Proof.
  intros Hus Hlk Hp Hni Hperm Hx Hmax. assert (HT : TRAPFRAME <= MAXVA) by done.
  pose proof (page_ok_pos kend kend_ok p Hp) as Hpr. destruct Hp as [Hpal Hpk].
  assert (Hgap : forall x, in_range (Z.of_nat (length fs) * PGSIZE) 1 x = true -> A !! x = None).
  { intros x (i & Hi & ->)%in_range_spec. apply (us_gap Hus). unfold PGSIZE in *. lia. }
  destruct (mappages_ok kend kend_ok 1 (Z.of_nat (length fs) * PGSIZE) p perm th s l root own A)
    as (r & j & s' & l' & own' & E & Hvm & Hgr & _ & Hr); try done; try (unfold PGSIZE in *; lia).
  { apply (us_vm Hus). }
  { by apply Z.mod_mul. }
  { unfold PHYSTOP, KERNBASE, PGSIZE in *. lia. }
  change (Z.of_nat 1 * PGSIZE) with PGSIZE in E. exists r, s', l', own'. split_and!; [done|done|].
  destruct Hr as [[-> ->]|(-> & Hj & -> & _)].
  2: { right. split_and!; [done|done|]. assert (j = 0%nat) as -> by lia. by eapply us_grows. }
  left. split; [done|]. destruct Hus as [H1 H2 H3 H4 H5 H6]. split.
  - exact Hvm.
  - intros i q Hq. destruct (decide (i = length fs)) as [->|Hne].
    + rewrite lookup_app_r, Nat.sub_diag in Hq by lia. injection Hq as <-.
      exists (leaf_pte p perm). rewrite lookup_insert_eq. split; [done|].
      destruct (leaf_pte_eq p perm) as (_ & _ & -> & ->); [lia|done|done|done].
    + apply lookup_app_Some in Hq as [Hq|[Hi Hq]].
      2: { apply list_lookup_singleton_Some in Hq as [Hq _]. lia. }
      destruct (H2 i q Hq) as (w & Hw & ?). exists w. split; [|done].
      rewrite lookup_insert_ne; [done|]. unfold PGSIZE. lia.
  - intros x Hx'. rewrite length_app in Hx'. simpl in Hx'.
    rewrite lookup_insert_ne by (unfold PGSIZE in *; lia). apply H3. unfold PGSIZE in *. lia.
  - apply Forall_app. split; [done|]. by apply Forall_singleton.
  - rewrite !app_assoc. apply NoDup_app. rewrite <- app_assoc.
    assert (Hpm : l' ++ pages own' ++ fs ≡ₚ l ++ pages own ++ fs)
      by (by rewrite app_assoc, (gr_perm _ _ _ _ _ _ Hgr), <- app_assoc).
    split_and!; [by rewrite Hpm| |apply NoDup_singleton].
    intros x Hx' ->%list_elem_of_singleton. by rewrite Hpm in Hx'.
  - rewrite length_app. simpl. unfold PGSIZE in *. lia.
Qed.

(** One round of the loops of [uvmalloc] and [uvmcopy]: take a page, fill it with
    [fill] and map it behind the last one; if the table cannot be grown, give it back. *)
Lemma grow_one (fill : mem -> mem) p perm th s l root own A fs :
  uspace s (p :: l) root own A fs -> LkKmem ∉ th_held th ->
  (forall m a, ~ in_page p a -> mget (fill m) a = mget m a) ->
  0 <= perm < 1024 -> Z.lor perm PTE_V <> PTE_V ->
  Z.of_nat (length fs) * PGSIZE + PGSIZE <= TRAPFRAME ->
  exists s1 r s3 l3 own3, kalloc th s = Ok p th s1 /\ (p =? 0) = false /\
    (forall a, ~ in_page p a -> mget (km_mem s1) a = mget (km_mem s) a) /\
    mappages root (Z.of_nat (length fs) * PGSIZE) PGSIZE p perm th (set_mem (fill (km_mem s1)) s1) = Ok r th s3 /\
    ((r = 0 /\ uspace s3 l3 root own3 (<[Z.of_nat (length fs) * PGSIZE := leaf_pte p perm]> A) (fs ++ [p]) /\
      p :: l3 ++ pages own3 ≡ₚ (p :: l) ++ pages own /\
      (forall a, in_page p a -> mget (km_mem s3) a = mget (fill (km_mem s1)) a) /\
      (forall b, outside ((p :: l) ++ pages own) b -> mget (km_mem s3) b = mget (km_mem s) b)) \/
     (r = -1 /\ exists s4, kfree kend p th s3 = Ok tt th s4 /\ uspace s4 [p] root own3 A fs /\
      [p] ++ pages own3 ≡ₚ (p :: l) ++ pages own /\
      (forall b, outside ((p :: l) ++ pages own) b -> mget (km_mem s4) b = mget (km_mem s) b))).
Proof.
  intros Hus Hlk Hfill Hperm Hx Hmax.
  destruct (kalloc_us p l th s root own _ _ Hus Hlk) as (s1 & E1 & Hus1 & Hp & Hni & Hout1).
  pose proof (page_ok_pos _ kend_ok _ Hp).
  pose proof (us_write _ _ _ _ _ _ _ _ Hus1 Hp Hni (Hfill (km_mem s1))) as Hus2.
  destruct (map_page p perm th _ l root own _ _ Hus2) as (r & s3 & l3 & own3 & E3 & Hgr & Hr); try done.
  assert (Hout3 : forall b, outside ((p :: l) ++ pages own) b -> mget (km_mem s3) b = mget (km_mem s) b).
  { intros b Hb. simpl in Hb. apply outside_cons in Hb as [Hb1 Hb2].
    rewrite (gr_out _ _ _ _ _ _ Hgr b Hb2). cbn [km_mem set_mem]. by rewrite Hfill, Hout1. }
  exists s1, r, s3, l3, own3. split_and!; try done; [zbool|].
  destruct Hr as [[-> Hus3]|(-> & -> & Hus3)].
  - left. split_and!; try done.
    + simpl. by rewrite (gr_perm _ _ _ _ _ _ Hgr).
    + intros a Ha. rewrite (gr_out _ _ _ _ _ _ Hgr); [done|].
      rewrite <- (gr_perm _ _ _ _ _ _ Hgr).
      eapply (us_disjoint s3 l3); [exact Hus3| |exact Ha]. rewrite elem_of_app. right. by left.
  - right. split; [done|].
    destruct (kfree_us p th s3 [] root own3 _ _ Hus3) as (s4 & E4 & Hus4 & Hout4); try done.
    { simpl. intros Hin. apply Hni. rewrite app_assoc, elem_of_app, <- (gr_perm _ _ _ _ _ _ Hgr).
      by rewrite elem_of_app in Hin. }
    exists s4. split_and!; try done.
    + simpl. by rewrite <- (gr_perm _ _ _ _ _ _ Hgr).
    + intros b Hb. rewrite Hout4; [by apply Hout3|]. apply Hb. by left.
Qed.

(** ** Growing *)

Definition zeroed (s : kmem) (ps : list Z) : Prop :=
  forall p a, p ∈ ps -> in_page p a -> mget (km_mem s) a = 0.

Lemma zeroed_nil s : zeroed s [].
Proof. by intros p a ?%elem_of_nil. Qed.

Lemma TRAPFRAME_MAXVA : TRAPFRAME <= MAXVA.
Proof. done. Qed.
Lemma TRAPFRAME_pages : TRAPFRAME = (2 ^ 26 - 2) * PGSIZE.
Proof. done. Qed.

(** The way out when memory has run out: the new pages go back. *)
Lemma undo_growth oldsz a perm ns th s l root own A fs :
  uspace s l root own (map_frames A oldsz perm ns) (fs ++ ns) -> LkKmem ∉ th_held th ->
  oldsz = Z.of_nat (length fs) * PGSIZE -> a = Z.of_nat (length (fs ++ ns)) * PGSIZE ->
  (forall x, oldsz <= x < TRAPFRAME -> A !! x = None) ->
  exists s' r, uvmdealloc kend root a oldsz th s = Ok r th s' /\
    uspace s' (rev ns ++ l) root own A fs /\
    forall b, outside (pages own ++ ns) b -> mget (km_mem s') b = mget (km_mem s) b.
Proof.
  intros Hus Hlk -> -> Hgap. pose proof (us_size Hus) as Hsz. pose proof TRAPFRAME_MAXVA as HT.
  rewrite length_app in Hsz.
  destruct (uvmdealloc_ok (Z.of_nat (length (fs ++ ns)) * PGSIZE) (Z.of_nat (length fs) * PGSIZE)
    th s l root own _ (fs ++ ns) Hus Hlk) as (s' & k & E & Hk & _ & Hus' & Hout).
  - unfold PGSIZE. lia.
  - rewrite length_app. unfold PGSIZE in *. lia.
  - rewrite pgcount_mul; [done|lia|]. rewrite length_app. unfold PGSIZE in *. lia.
  - rewrite Z.min_r in Hk by (rewrite length_app; unfold PGSIZE; lia).
    rewrite pgcount_mul in Hk by (unfold PGSIZE in *; lia). apply Nat2Z.inj in Hk. subst k.
    rewrite length_app, drop_app_length, take_app_length in Hus'. rewrite drop_app_length in Hout.
    replace (length fs + length ns - length fs)%nat with (length ns) in Hus' by lia.
    rewrite unmap_map_frames in Hus'; [by exists s'; eexists|].
    intros x (i & Hi & ->)%in_range_spec. apply Hgap. unfold PGSIZE in *. lia.
Qed.

Lemma uvmalloc_loop_ok fuel oldsz newsz xperm ns th s l root own A fs :
  let perm := Z.lor (Z.lor PTE_R PTE_U) xperm in
  uspace s l root own (map_frames A oldsz perm ns) (fs ++ ns) -> LkKmem ∉ th_held th ->
  oldsz = Z.of_nat (length fs) * PGSIZE ->
  (forall x, oldsz <= x < TRAPFRAME -> A !! x = None) -> zeroed s ns ->
  0 <= xperm < 1024 -> 0 <= newsz <= TRAPFRAME ->
  pgcount newsz <= Z.of_nat (length (fs ++ ns)) + Z.of_nat fuel ->
  exists r s' l' own' ns',
    uvmalloc_loop kend fuel root (Z.of_nat (length (fs ++ ns)) * PGSIZE) oldsz newsz xperm th s = Ok r th s' /\
    uspace s' l' root own' (map_frames A oldsz perm ns') (fs ++ ns') /\ zeroed s' ns' /\
    l' ++ pages own' ++ ns' ≡ₚ l ++ pages own ++ ns /\
    (forall b, outside (l ++ pages own ++ ns) b -> mget (km_mem s') b = mget (km_mem s) b) /\
    ((r = newsz /\ Z.of_nat (length (fs ++ ns')) = Z.max (Z.of_nat (length (fs ++ ns))) (pgcount newsz)) \/
     (r = 0 /\ ns' = [])).
Proof.
  intros perm. revert ns s l own. induction fuel as [|fuel IH];
    intros ns s l own Hus Hlk Ho Hgap Hz Hxp Hnew Hfuel; cbn [uvmalloc_loop];
    (destruct (pgcount_eq newsz) as (_ & Hc1 & Hc2); [pose proof TRAPFRAME_MAXVA; lia|]);
    (destruct (Z.ltb_spec (Z.of_nat (length (fs ++ ns)) * PGSIZE) newsz) as [Hlt|Hge];
      [|exists newsz, s, l, own, ns; split_and!; try done; left; split; [done|unfold PGSIZE in *; lia]]).
  { exfalso. unfold PGSIZE in *. lia. }
  assert (Hperm : 0 <= perm < 1024) by (by apply (lor_bound 10)).
  assert (Hx : Z.lor perm PTE_V <> PTE_V).
  { intros E. apply (f_equal (fun z => Z.testbit z 1)) in E.
    unfold perm in E. rewrite !Z.lor_spec in E. done. }
  destruct l as [|p l].
  { erewrite bind_ok; [|apply (kalloc_empty kend); [apply (us_vm Hus)|done]]. cbn [Z.eqb].
    destruct (undo_growth oldsz _ perm ns th s [] root own A fs Hus Hlk Ho eq_refl Hgap)
      as (s' & r & E & Hus' & Hout).
    rewrite (bind_ok _ _ _ _ _ _ _ E). exists 0, s', (rev ns ++ []), own, [].
    rewrite (app_nil_r fs). split_and!; [done|done|apply zeroed_nil| |done|by right].
    rewrite !app_nil_r. simpl. rewrite <- Permutation_rev. apply Permutation_app_comm. }
  destruct (grow_one (fun m => memset m p 0 PGSIZE) p perm th s l root own _ _ Hus Hlk)
    as (s1 & r & s3 & l3 & own3 & E1 & Hp & Hout1 & E3 & Hr); try done.
  { intros m a Ha. rewrite memset_get by done. unfold in_page in Ha. zbool. }
  { pose proof TRAPFRAME_pages. unfold PGSIZE in *. lia. }
  rewrite (bind_ok _ _ _ _ _ _ _ E1), Hp. unfold bind at 1, mem_set at 1, modify at 1. fold perm.
  rewrite (bind_ok _ _ _ _ _ _ _ E3). destruct Hr as
    [(-> & Hus3 & Hpm & Hin & Hout)|(-> & s4 & E4 & Hus4 & Hpm & Hout)]; cbn [negb Z.eqb].
  - rewrite <- (app_assoc fs) in Hus3.
    replace (Z.of_nat (length (fs ++ ns)) * PGSIZE) with (oldsz + Z.of_nat (length ns) * PGSIZE) in Hus3
      by (rewrite length_app; lia).
    rewrite <- map_frames_snoc in Hus3.
    replace (u64 (Z.of_nat (length (fs ++ ns)) * PGSIZE + PGSIZE))
      with (Z.of_nat (length (fs ++ ns ++ [p])) * PGSIZE).
    2: { rewrite u64_id; rewrite !length_app; simpl length;
           pose proof TRAPFRAME_pages; rewrite length_app in Hlt; unfold PGSIZE in *; lia. }
    destruct (IH (ns ++ [p]) s3 l3 own3 Hus3) as (r & s' & l' & own' & ns' & E' & Hus' & Hz' & Hpm' & Hout' & Hr);
      try done.
    + intros x b [Hx'| ->%list_elem_of_singleton]%elem_of_app Hb.
      * rewrite Hout; [by eapply Hz|].
        eapply (us_disjoint s); [exact Hus| |exact Hb]. apply elem_of_app. by right.
      * rewrite Hin, memset_get by done. unfold in_page in Hb. by zbool.
    + rewrite !length_app in *. simpl length. lia.
    + assert (Hpm3 : l3 ++ pages own3 ++ ns ++ [p] ≡ₚ (p :: l) ++ pages own ++ ns).
      { rewrite (app_assoc (p :: l)), <- Hpm. rewrite <- Permutation_cons_append. simpl.
        by rewrite <- !Permutation_middle, <- app_assoc. }
      exists r, s', l', own', ns'. split_and!; try done.
      * by rewrite Hpm'.
      * intros b Hb. rewrite Hout' by (by rewrite Hpm3). apply Hout.
        rewrite app_assoc in Hb. by apply outside_app in Hb as [? _].
      * destruct Hr as [[-> Hr]|Hr]; [left|by right]. split; [done|]. rewrite Hr, !length_app in *.
        simpl length. unfold PGSIZE in *. lia.
  - rewrite (bind_ok _ _ _ _ _ _ _ E4).
    destruct (undo_growth oldsz _ perm ns th s4 [p] root own3 A fs Hus4 Hlk Ho eq_refl Hgap)
      as (s' & r & E & Hus' & Hout').
    rewrite (bind_ok _ _ _ _ _ _ _ E). exists 0, s', (rev ns ++ [p]), own3, [].
    rewrite (app_nil_r fs). split_and!; [done|done|apply zeroed_nil| | |by right].
    + rewrite app_nil_r, <- Permutation_rev, (app_assoc _ (pages own)), <- Hpm, <- app_assoc.
      apply Permutation_app_comm.
    + intros b Hb. rewrite app_assoc, <- Hpm, <- app_assoc in Hb. apply outside_app in Hb as [Hb1 Hb2].
      rewrite Hout' by done. apply Hout. rewrite <- Hpm. apply outside_app. split; [done|].
      by apply outside_app in Hb2 as [? _].
Qed.


Lemma uvmalloc_ok oldsz newsz xperm th s l root own A fs :
  uspace s l root own A fs -> LkKmem ∉ th_held th ->
  0 <= oldsz <= newsz -> newsz <= TRAPFRAME -> Z.of_nat (length fs) = pgcount oldsz -> 0 <= xperm < 1024 ->
  exists r s' l' own' ns,
    uvmalloc kend root oldsz newsz xperm th s = Ok r th s' /\
    uspace s' l' root own'
      (map_frames A (PGROUNDUP oldsz) (Z.lor (Z.lor PTE_R PTE_U) xperm) ns) (fs ++ ns) /\
    zeroed s' ns /\ l' ++ pages own' ++ ns ≡ₚ l ++ pages own /\
    (forall b, outside (l ++ pages own) b -> mget (km_mem s') b = mget (km_mem s) b) /\
    ((r = newsz /\ Z.of_nat (length (fs ++ ns)) = pgcount newsz) \/ (r = 0 /\ ns = [])).
Proof.
  intros Hus Hlk Ho Hn Hlen Hxp. pose proof TRAPFRAME_MAXVA as HT.
  destruct (pgcount_eq oldsz) as (Eo & Ho1 & Ho2); [lia|].
  destruct (pgcount_eq newsz) as (En & Hn1 & Hn2); [lia|].
  pose proof (pgcount_mono oldsz newsz ltac:(lia) ltac:(lia)).
  unfold uvmalloc. destruct (Z.ltb_spec newsz oldsz); [lia|].
  destruct (uvmalloc_loop_ok (Z.to_nat ((newsz - PGROUNDUP oldsz) / PGSIZE + 1)) (PGROUNDUP oldsz) newsz xperm [] th s l root own A fs)
    as (r & s' & l' & own' & ns & E & Hus' & Hz & Hpm & Hout & Hr); rewrite ?app_nil_r in *; try done.
  - by rewrite Eo, Hlen.
  - intros x Hx. apply (us_gap Hus). by rewrite Hlen, <- Eo.
  - apply zeroed_nil.
  - lia.
  - rewrite Hlen, Eo in *. replace (newsz - pgcount oldsz * PGSIZE) with (newsz + - pgcount oldsz * PGSIZE) by lia.
    rewrite Z.div_add by done. pose proof (Z.div_mod newsz PGSIZE ltac:(done)).
    pose proof (Z.mod_pos_bound newsz PGSIZE ltac:(done)). unfold PGSIZE in *. lia.
  - rewrite Hlen, <- Eo in E. exists r, s', l', own', ns. split_and!; try done.
    destruct Hr as [[-> Hr]|Hr]; [left|by right]. split; [done|]. lia.
Qed.

End VmUser.

#[global] Arguments us_vm {kend s l root own A fs} _.
#[global] Arguments us_mapped {kend s l root own A fs} _.
#[global] Arguments us_gap {kend s l root own A fs} _.
#[global] Arguments us_frames {kend s l root own A fs} _.
#[global] Arguments us_nodup {kend s l root own A fs} _.
#[global] Arguments us_size {kend s l root own A fs} _.
