(* ===== verification/VmFree.v ===== *)
(** * Freeing page tables (kernel/vm.c, kernel/proc.c)

    [freewalk] gives back every page of a table whose user mappings are gone, and
    [uvmfree] the user pages too: nothing is leaked and nothing is freed twice. *)

From S2P Require Import Prelude Layout Memory Kalloc Vm VmMap VmUser.

(** The part of a table below a path, and the rest. *)
Definition below (q : path) (own : gmap path Z) : gmap path Z := filter (fun kv => q `prefix_of` kv.1) own.
Definition others (q : path) (own : gmap path Z) : gmap path Z := filter (fun kv => ~ q `prefix_of` kv.1) own.

Lemma below_lookup q own q' p : below q own !! q' = Some p <-> own !! q' = Some p /\ q `prefix_of` q'.
Proof. apply map_lookup_filter_Some. Qed.
Lemma others_lookup q own q' p : others q own !! q' = Some p <-> own !! q' = Some p /\ ~ q `prefix_of` q'.
Proof. apply map_lookup_filter_Some. Qed.

Lemma pages_split q own : pages own ≡ₚ pages (below q own) ++ pages (others q own).
Proof.
  induction own as [|q' p own Hn IH] using map_ind; [done|].
  rewrite pages_insert by done. unfold below, others. destruct (decide (q `prefix_of` q')).
  - rewrite map_filter_insert_True by done. rewrite map_filter_insert_not by naive_solver.
    rewrite pages_insert by (apply map_lookup_filter_None; by left). simpl. by rewrite IH.
  - rewrite map_filter_insert_not by naive_solver. rewrite map_filter_insert_True by done.
    rewrite pages_insert by (apply map_lookup_filter_None; by left).
    by rewrite <- Permutation_middle, IH.
Qed.

Lemma prefix_snoc_inv (q q' : path) i j :
  q ++ [i] `prefix_of` q' ++ [j] -> q ++ [i] `prefix_of` q' \/ (q = q' /\ i = j).
Proof.
  intros [r E]. destruct r as [|x r _] using rev_ind.
  - rewrite app_nil_r in E. apply app_inj_tail in E as [-> ->]. by right.
  - rewrite app_assoc in E. apply app_inj_tail in E as [-> _]. left. by apply prefix_app_r.
Qed.

(** The entry that points to a page of the table is not a leaf. *)
Lemma child_not_leaf c :
  0 <= c < 2 ^ 56 -> c mod PGSIZE = 0 ->
  (Z.land (Z.lor (PA2PTE c) PTE_V) (Z.lor (Z.lor PTE_R PTE_W) PTE_X) =? 0) = true.
Proof.
  intros Hc Hal. destruct (PTE2PA_PA2PTE c PTE_V) as [_ HF]; [done|done|done|].
  change (Z.lor (Z.lor PTE_R PTE_W) PTE_X) with (Z.land 0x3FF 14).
  unfold PTE_FLAGS in HF. by rewrite Z.land_assoc, HF.
Qed.

(** The virtual address of entry [i] of the bottom page of [va]. *)
Lemma va_with_low va i :
  0 <= va < MAXVA -> 0 <= i < 512 ->
  exists va', 0 <= va' < MAXVA /\ va' mod PGSIZE = 0 /\ rest 2 va' = rest 2 va /\ PX 0 va' = i.
Proof.
  intros Hva Hi. rewrite MAXVA_eq in *. exists (va / 2 ^ 21 * 2 ^ 21 + i * 2 ^ 12).
  pose proof (Z.div_mod va (2 ^ 21)). pose proof (Z.mod_pos_bound va (2 ^ 21)).
  pose proof (Z.div_lt_upper_bound va (2 ^ 21) (2 ^ 17)). pose proof (Z.div_pos va (2 ^ 21)).
  set (b := va / 2 ^ 21) in *.
  assert (Hd : (b * 2 ^ 21 + i * 2 ^ 12) / 2 ^ 21 = b).
  { rewrite Z.div_add_l by lia. rewrite Z.div_small by lia. lia. }
  split; [lia|]. split.
  { replace (b * 2 ^ 21 + i * 2 ^ 12) with ((b * 512 + i) * PGSIZE) by (unfold PGSIZE; lia).
    by apply Z.mod_mul. }
  split.
  - unfold rest. rewrite !PX_eq by lia.
    change (PXSHIFT (Z.of_nat 2)) with 30. change (PXSHIFT (Z.of_nat 1)) with 21.
    change (2 ^ 30) with (2 ^ 21 * 2 ^ 9). rewrite <- !Z.div_div, Hd by lia. done.
  - rewrite PX_eq by lia. change (PXSHIFT 0) with 12.
    replace (b * 2 ^ 21 + i * 2 ^ 12) with ((b * 512 + i) * 2 ^ 12) by lia.
    rewrite Z.div_mul, Z.add_comm, Z.mod_add, Z.mod_small by lia. done.
Qed.

Section VmFree.
Variable kend : Z.
Hypothesis kend_ok : KERNBASE <= kend <= PHYSTOP.

Notation vm_inv := (vm_inv kend).

(** Cutting off a subtree whose pages have been freed. *)
Lemma remove_child s s1 l root own q pt i c ps :
  vm_inv s l root own ∅ -> own !! q = Some pt -> own !! (q ++ [i]) = Some c ->
  km_inv kend s1 (ps ++ l) -> ps ≡ₚ pages (below (q ++ [i]) own) ->
  (forall a, outside (pages (below (q ++ [i]) own)) a -> mget (km_mem s1) a = mget (km_mem s) a) ->
  vm_inv (set_mem (st64 (km_mem s1) (pte_at pt i) 0) s1) (ps ++ l) root (others (q ++ [i]) own) ∅.
Proof.
  intros Hinv Hq Hc Hkm Hps Hout. set (m' := st64 _ _ _).
  pose proof (vi_tree _ _ _ _ _ _ Hinv) as Ht. destruct (pt_parent _ _ _ Ht _ _ _ Hc) as [Hi _].
  pose proof (vi_nodup _ _ _ _ _ _ Hinv) as Hnd.
  assert (Hpt : pt ∈ pages (others (q ++ [i]) own)).
  { apply elem_of_pages. exists q. apply others_lookup. split; [done|]. intros [r E].
    apply (f_equal length) in E. rewrite !length_app in E. simpl in E. lia. }
  assert (Hpm : ps ++ l ++ pages (others (q ++ [i]) own) ≡ₚ l ++ pages own).
  { rewrite (pages_split (q ++ [i]) own), Hps, !app_assoc. by rewrite (Permutation_app_comm l). }
  assert (Hnd' : NoDup ((ps ++ l) ++ pages (others (q ++ [i]) own))) by (by rewrite <- app_assoc, Hpm).
  assert (Hsame : forall q' p a, others (q ++ [i]) own !! q' = Some p -> in_page p a ->
            mget (km_mem s1) a = mget (km_mem s) a).
  { intros q' p a Hp Ha. apply Hout. intros p' Hp' Ha'.
    assert (p' = p) as ->.
    { apply (pages_disjoint kend p' p a); [| |done|done].
      - apply elem_of_pages in Hp' as [q'' H']. apply below_lookup in H' as [H' _].
        by eapply vi_page_ok.
      - apply others_lookup in Hp as [Hp _]. by eapply vi_page_ok. }
    rewrite <- Hps in Hp'. rewrite <- app_assoc in Hnd'. apply NoDup_app in Hnd' as (_ & Hd & _).
    apply (Hd p Hp'), elem_of_app. right. apply elem_of_pages. by exists q'. }
  assert (Hold : forall q' p j, others (q ++ [i]) own !! q' = Some p -> 0 <= j < 512 ->
            q' ++ [j] <> q ++ [i] -> entry m' p j = entry (km_mem s) p j).
  { intros q' p j Hp Hj Hne. transitivity (entry (km_mem s1) p j);
      [|apply entry_ext; [intros a; by apply (Hsame q')|done]].
    apply others_lookup in Hp as [Hp _].
    destruct (decide (p = pt)) as [->|Hpp].
    - assert (q' = q) as -> by (by eapply vi_inj). apply entry_store_ne. congruence.
    - apply entry_ext; [|done]. intros a Ha. apply store_outside; [done|]. intros Ha'. apply Hpp.
      eapply (pages_disjoint kend); [| |exact Ha|exact Ha']; by eapply vi_page_ok. }
  split.
  - apply (km_inv_set_mem kend kend_ok); [done|]. intros x a Hx Ha. apply store_outside; [done|]. intros Ha'.
    apply NoDup_app in Hnd' as (_ & Hd & _). apply (Hd x Hx). assert (x = pt) as ->; [|done].
    destruct Hkm as (_ & _ & HF). rewrite Forall_forall in HF.
    eapply (pages_disjoint kend); [by apply HF| |exact Ha|exact Ha']. by eapply vi_page_ok.
  - destruct Ht as [H1 H2 H2' H3 H4 H5]. split.
    + apply others_lookup. split; [done|]. intros [r E]. by destruct q.
    + intros q' p [Hp _]%others_lookup. by eapply H2.
    + intros q' p [Hp _]%others_lookup. by eapply H2'.
    + intros q' j d [Hd Hn]%others_lookup. destruct (H3 _ _ _ Hd) as [Hj [p Hp]]. split; [done|].
      exists p. apply others_lookup. split; [done|]. intros Hpre. by apply Hn, prefix_app_r.
    + intros q' p j d Hp Hd. pose proof Hp as [Hp' _]%others_lookup. apply others_lookup in Hd as [Hd Hn].
      rewrite <- (H4 q' p j d Hp' Hd). apply (Hold q'); [done|by apply (H3 q' j d)|].
      intros E. apply Hn. by rewrite E.
    + intros q' p j Hp Hl Hj Hn. destruct (decide (q' ++ [j] = q ++ [i])) as [E|E].
      * apply app_inj_tail in E as [-> ->]. apply others_lookup in Hp as [Hp _]. rewrite Hq in Hp.
        injection Hp as <-. cbn [km_mem set_mem]. unfold m'. by rewrite entry_store_eq.
      * rewrite (Hold q') by done. pose proof Hp as [Hp' Hnp]%others_lookup. apply (H5 q'); try done.
        destruct (own !! (q' ++ [j])) as [d|] eqn:Hd; [|done]. exfalso.
        assert (others (q ++ [i]) own !! (q' ++ [j]) = Some d); [|congruence].
        apply others_lookup. split; [done|]. intros Hpre. apply prefix_snoc_inv in Hpre as [?|[-> ->]]; done.
  - intros va w. rewrite lookup_empty. split; [done|]. intros (H1 & H2 & H3 & t & Hto & He). exfalso.
    assert ((∅ : gmap Z Z) !! va = Some w) as Hw; [|by rewrite lookup_empty in Hw].
    apply (vi_leafs _ _ _ _ _ _ Hinv). do 3 (split; [done|]). exists t.
    split; [by apply others_lookup in Hto as [? _]|]. rewrite <- He. symmetry.
    apply (Hold (rest 2 va)); [done|by apply PX_range|].
    intros E. apply (pt_len _ _ _ Ht) in Hc. rewrite <- E, length_app, length_rest in Hc. simpl in Hc. lia.
  - apply Forall_forall. intros p [q' Hp]%elem_of_pages. apply others_lookup in Hp as [Hp _].
    by eapply vi_page_ok.
  - done.
Qed.

Lemma freewalk_S d pt : freewalk kend (S d) pt = (free_entries (freewalk kend d) 512 pt 0;;; kfree kend pt).
Proof. reflexivity. Qed.

Lemma below_child q i own : below (q ++ [i]) own ⊆ below q own.
Proof.
  apply map_subseteq_spec. intros q' p [Hp Hpre]%below_lookup. apply below_lookup. split; [done|].
  destruct Hpre as [r ->]. rewrite <- app_assoc. by apply prefix_app_r.
Qed.

Lemma others_child q i own : others q (others (q ++ [i]) own) = others q own.
Proof.
  apply map_eq. intros q'. apply option_eq. intros p. rewrite !others_lookup. split; [tauto|].
  intros [Hp Hn]. split_and!; try done. intros [r ->]. apply Hn. rewrite <- app_assoc. by apply prefix_app_r.
Qed.

Lemma outside_below q i own a : outside (pages (below q own)) a -> outside (pages (below (q ++ [i]) own)) a.
Proof.
  intros H p [q' Hp]%elem_of_pages. apply H, elem_of_pages. exists q'.
  by eapply map_subseteq_spec, Hp; [apply below_child].
Qed.

(** What [freewalk] of the page at [q] does. *)
Definition frees (d : nat) (th : thread) (root : Z) : Prop :=
  forall q pt s l own, vm_inv s l root own ∅ -> own !! q = Some pt -> (length q + d = 3)%nat ->
  exists s' ps, freewalk kend d pt th s = Ok tt th s' /\ km_inv kend s' (ps ++ l) /\
    ps ≡ₚ pages (below q own) /\
    forall a, outside (pages (below q own)) a -> mget (km_mem s') a = mget (km_mem s) a.

Lemma free_entries_ok d th root :
  frees d th root ->
  forall k i q pt s l own, vm_inv s l root own ∅ -> own !! q = Some pt -> (length q + S d = 3)%nat ->
  0 <= i -> i + Z.of_nat k = 512 -> (forall j, 0 <= j < i -> own !! (q ++ [j]) = None) ->
  exists s' ps own', free_entries (freewalk kend d) k pt i th s = Ok tt th s' /\ vm_inv s' (ps ++ l) root own' ∅ /\
    own' !! q = Some pt /\ (forall j, 0 <= j < 512 -> own' !! (q ++ [j]) = None) /\
    others q own' = others q own /\ ps ++ pages own' ≡ₚ pages own /\
    forall a, outside (pages (below q own)) a -> mget (km_mem s') a = mget (km_mem s) a.
Proof.
  intros IH. induction k as [|k IHk]; intros i q pt s l own Hinv Hq Hlen Hi Hk Hnone.
  { exists s, [], own. split_and!; try done. intros j Hj. apply Hnone. lia. }
  cbn [free_entries]. unfold bind at 1, load64 at 1, gets at 1. fold (entry (km_mem s) pt i).
  destruct (own !! (q ++ [i])) as [c|] eqn:Hc.
  - rewrite (pt_child _ _ _ (vi_tree _ _ _ _ _ _ Hinv) _ _ _ _ Hq Hc).
    destruct (vi_page_ok _ _ _ _ _ _ _ _ Hinv Hc) as [Hal _].
    pose proof (vi_page_range kend kend_ok _ _ _ _ _ _ _ Hinv Hc) as Hcr.
    rewrite flag_V_child, child_not_leaf by (done || lia). cbn [andb].
    destruct (PTE2PA_PA2PTE c PTE_V) as [-> _]; [lia|done|done|].
    destruct (IH (q ++ [i]) c s l own Hinv Hc) as (s1 & ps1 & E1 & Hkm1 & Hps1 & Hout1).
    { rewrite length_app. simpl. lia. }
    rewrite bind_assoc, (bind_ok _ _ _ _ _ _ _ E1). unfold bind at 1, store64 at 1, modify at 1.
    pose proof (remove_child _ _ _ _ _ _ _ _ _ _ Hinv Hq Hc Hkm1 Hps1 Hout1) as Hinv2.
    set (s2 := set_mem _ s1) in *.
    assert (Hq2 : others (q ++ [i]) own !! q = Some pt).
    { apply others_lookup. split; [done|]. intros [r E]. apply (f_equal length) in E.
      rewrite !length_app in E. simpl in E. lia. }
    destruct (IHk (i + 1) q pt s2 _ _ Hinv2 Hq2 Hlen) as (s' & ps & own' & E & Hinv' & Hq' & Hn' & Hoth & Hpm & Hout).
    { lia. }
    { lia. }
    { intros j Hj. destruct (others (q ++ [i]) own !! (q ++ [j])) as [x|] eqn:Hx; [|done]. exfalso.
      apply others_lookup in Hx as [Hx Hx']. destruct (decide (j = i)) as [->|]; [done|].
      rewrite Hnone in Hx; [done|lia]. }
    exists s', (ps ++ ps1), own'. rewrite <- app_assoc. split_and!; try done.
    + by rewrite Hoth, others_child.
    + rewrite (pages_split (q ++ [i]) own), <- Hps1, <- Hpm, <- app_assoc.
      by rewrite !app_assoc, (Permutation_app_comm ps ps1).
    + intros a Ha. rewrite Hout.
      * unfold s2. cbn [km_mem set_mem]. rewrite store_outside; [apply Hout1; by apply outside_below| |].
        { apply (pt_parent _ _ _ (vi_tree _ _ _ _ _ _ Hinv) _ _ _ Hc). }
        apply Ha, elem_of_pages. exists q. by apply below_lookup.
      * intros p [q' Hp]%elem_of_pages. apply below_lookup in Hp as [Hp Hpre].
        apply others_lookup in Hp as [Hp _]. apply Ha, elem_of_pages. exists q'. by apply below_lookup.
  - assert (Hf : flag (entry (km_mem s) pt i) PTE_V = false).
    { destruct (decide (length q < 2)%nat).
      - apply (pt_hole _ _ _ (vi_tree _ _ _ _ _ _ Hinv) q); try done. lia.
      - destruct (pt_low _ _ _ (vi_tree _ _ _ _ _ _ Hinv) q pt Hq) as (va & Hva & ->); [lia|].
        destruct (va_with_low va i) as (va' & H1 & H2 & E & <-); [done|lia|]. rewrite <- E in Hq.
        by eapply leaf_none. }
    rewrite Hf. cbn [andb]. unfold bind at 1, ret at 1.
    destruct (IHk (i + 1) q pt s l own Hinv Hq Hlen) as (s' & ps & own' & H'); [lia|lia| |by exists s', ps, own'].
    intros j Hj. destruct (decide (j = i)) as [->|]; [done|]. apply Hnone. lia.
Qed.

Lemma no_children_below m root own q pt :
  ptree m root own -> own !! q = Some pt -> (forall j, 0 <= j < 512 -> own !! (q ++ [j]) = None) ->
  below q own = {[q := pt]}.
Proof.
  intros Ht Hq Hn. apply map_eq. intros q'. apply option_eq. intros p.
  rewrite below_lookup, lookup_singleton_Some. split.
  - intros [Hp [r ->]]. destruct r as [|j r]; [rewrite app_nil_r in *; naive_solver|]. exfalso.
    assert (exists x, own !! (q ++ [j]) = Some x) as [x Hx].
    { revert p Hp. induction r as [|k r IH] using rev_ind; intros p Hp; [by exists p|].
      rewrite app_comm_cons, app_assoc in Hp. apply (pt_parent _ _ _ Ht) in Hp as [_ [p' Hp']]. eauto. }
    destruct (pt_parent _ _ _ Ht _ _ _ Hx) as [Hj _]. rewrite Hn in Hx; done.
  - by intros [<- <-].
Qed.

Lemma freewalk_frees d th root : LkKmem ∉ th_held th -> frees d th root.
Proof.
  intros Hlk. induction d as [|d IH]; intros q pt s l own Hinv Hq Hlen.
  { apply (pt_len _ _ _ (vi_tree _ _ _ _ _ _ Hinv)) in Hq. lia. }
  rewrite freewalk_S.
  destruct (free_entries_ok d th root IH 512 0 q pt s l own Hinv Hq Hlen)
    as (s1 & ps & own' & E & Hinv1 & Hq1 & Hn1 & Hoth & Hpm & Hout); [done|done|lia|].
  rewrite (bind_ok _ _ _ _ _ _ _ E).
  pose proof (no_children_below _ _ _ _ _ (vi_tree _ _ _ _ _ _ Hinv1) Hq1 Hn1) as Hb.
  assert (Hp1 : pages own' ≡ₚ pt :: pages (others q own)).
  { rewrite (pages_split q own'), Hb, Hoth. unfold pages at 1. by rewrite map_to_list_singleton. }
  destruct (kfree_ok kend kend_ok pt th s1 (ps ++ l)) as (s2 & E2 & Hkm & Hout2); try done.
  - apply (vi_km _ _ _ _ _ _ Hinv1).
  - by eapply vi_page_ok.
  - pose proof (vi_nodup _ _ _ _ _ _ Hinv1) as Hnd. rewrite Hp1 in Hnd.
    apply NoDup_app in Hnd as (_ & Hd & _). intros Hin. apply (Hd pt Hin). by left.
  - exists s2, (pt :: ps). split_and!; [done|done| |].
    + apply (Permutation_app_inv_r (pages (others q own))).
      rewrite <- (pages_split q own), <- Hpm, Hp1. simpl. by rewrite <- Permutation_middle.
    + intros a Ha. rewrite Hout2; [by apply Hout|]. apply Ha, elem_of_pages. exists q. by apply below_lookup.
Qed.

Lemma below_root own : below [] own = own.
Proof. apply map_filter_id. intros. apply prefix_nil. Qed.

(** ** [uvmfree] *)

Lemma uvmfree_ok sz th s l root own A fs :
  uspace kend s l root own A fs -> LkKmem ∉ th_held th -> 0 <= sz <= MAXVA ->
  Z.of_nat (length fs) = pgcount sz -> (forall x, A !! x <> None -> in_range 0 (length fs) x = true) ->
  exists s' l', uvmfree kend root sz th s = Ok tt th s' /\ km_inv kend s' l' /\
    l' ≡ₚ l ++ pages own ++ fs /\
    forall a, outside (pages own ++ fs) a -> mget (km_mem s') a = mget (km_mem s) a.
Proof.
  intros Hus Hlk Hsz Hlen HA. unfold uvmfree. rewrite Z.gtb_ltb.
  assert (exists s1, when (0 <? sz) (uvmunmap kend root 0 (PGROUNDUP sz / PGSIZE) 1) th s = Ok tt th s1 /\
    vm_inv s1 (rev fs ++ l) root own ∅ /\
    forall a, outside (pages own ++ fs) a -> mget (km_mem s1) a = mget (km_mem s) a)
    as (s1 & E1 & Hinv1 & Hout1).
  { assert (HA0 : unmap_range A 0 (length fs) = ∅).
    { apply map_eq. intros x. rewrite unmap_range_lookup, lookup_empty.
      destruct (in_range 0 (length fs) x) eqn:E; [done|]. destruct (A !! x) eqn:E'; [|done].
      rewrite HA in E; [done|]. by rewrite E'. }
    destruct (Z.ltb_spec 0 sz); cbn [when].
    - destruct (shrink_ok kend kend_ok 0 th s l root own A fs Hus Hlk) as (s1 & E & Hus1 & Hout); [lia|].
      change (Z.of_nat 0 * PGSIZE) with 0 in *. rewrite Nat.sub_0_r, ?drop_0 in *.
      fold (pgcount sz). rewrite <- Hlen. exists s1. split_and!; [done| |done].
      apply us_vm in Hus1. by rewrite HA0 in Hus1.
    - exists s. assert (sz = 0) as -> by lia. destruct fs; [|change (pgcount 0) with 0 in Hlen; cbn [length] in Hlen; lia].
      cbn [length unmap_range] in HA0. subst A. split_and!; [done|apply (us_vm Hus)|done]. }
  rewrite (bind_ok _ _ _ _ _ _ _ E1).
  destruct (freewalk_frees 3 th root Hlk [] root s1 _ _ Hinv1) as (s' & ps & E & Hkm & Hps & Hout).
  { apply (pt_root _ _ _ (vi_tree _ _ _ _ _ _ Hinv1)). }
  { done. }
  rewrite below_root in *. exists s', (ps ++ rev fs ++ l). split_and!; [done|done| |].
  - rewrite Hps, <- Permutation_rev. rewrite app_assoc, (Permutation_app_comm _ l). done.
  - intros a [Ha Ha']%outside_app. rewrite Hout by done. apply Hout1. by apply outside_app.
Qed.

(** ** The page table of a process *)

Lemma uvmcreate_ok p l th s :
  km_inv kend s (p :: l) -> LkKmem ∉ th_held th ->
  exists s', uvmcreate th s = Ok p th s' /\ vm_inv s' l p {[ [] := p ]} ∅ /\ p <> 0 /\
    forall a, ~ in_page p a -> mget (km_mem s') a = mget (km_mem s) a.
Proof.
  intros Hkm Hlk. pose proof Hkm as (_ & Hnd & _). apply NoDup_cons in Hnd as [Hni Hnd].
  destruct (kalloc_ok kend kend_ok p l th s Hkm Hlk) as (s1 & E & Hkm1 & Hp & _ & Hout).
  pose proof (page_ok_pos _ kend_ok _ Hp). unfold uvmcreate. rewrite (bind_ok _ _ _ _ _ _ _ E).
  destruct (Z.eqb_spec p 0); [lia|]. unfold bind at 1, mem_set at 1, modify at 1, ret at 1.
  assert (Hout2 : forall a, ~ in_page p a -> mget (memset (km_mem s1) p 0 PGSIZE) a = mget (km_mem s1) a).
  { intros a Ha. rewrite memset_get by done. unfold in_page in Ha. zbool. }
  assert (Hz : forall i, 0 <= i < 512 -> entry (memset (km_mem s1) p 0 PGSIZE) p i = 0) by (intros; by apply entry_zeroed).
  eexists. split; [done|]. split; [|split; [done|]].
  2: { intros a Ha. cbn [km_mem set_mem]. by rewrite Hout2, Hout. }
  assert (Hpg : pages {[ [] := p ]} = [p]) by (unfold pages; by rewrite map_to_list_singleton).
  split.
  - apply (km_inv_set_mem kend kend_ok); [done|]. intros x a Hx Ha. apply Hout2. intros Ha'.
    destruct Hkm1 as (_ & _ & HF). rewrite Forall_forall in HF.
    apply Hni. by rewrite <- (pages_disjoint kend x p a) by auto.
  - split.
    + apply lookup_singleton_eq.
    + intros q x [<- _]%lookup_singleton_Some. simpl. lia.
    + by intros q x [<- _]%lookup_singleton_Some.
    + intros q i x [E' _]%lookup_singleton_Some. by destruct q.
    + intros q x i c _ [E' _]%lookup_singleton_Some. by destruct q.
    + intros q x i [<- <-]%lookup_singleton_Some _ Hi _. cbn [km_mem set_mem]. by rewrite Hz.
  - intros va w. rewrite lookup_empty. split; [done|]. intros (_ & _ & _ & t & [E' _]%lookup_singleton_Some & _).
    done.
  - rewrite Hpg. by apply Forall_singleton.
  - rewrite Hpg. apply NoDup_app. split_and!; [done| |apply NoDup_singleton].
    by intros x Hx ->%list_elem_of_singleton.
Qed.

Definition RX : Z := Z.lor PTE_R PTE_X.
Definition RW : Z := Z.lor PTE_R PTE_W.

(** The address space of a process: user pages, the trapframe and the trampoline. *)
Record proc_space (tramp tf : Z) (s : kmem) (l : list Z) (root : Z) (own : gmap path Z)
    (A : gmap Z Z) (fs : list Z) : Prop := mkProcSpace {
  ps_us : uspace kend s l root own A fs;
  ps_tramp : A !! TRAMPOLINE = Some (leaf_pte tramp RX);
  ps_tf : A !! TRAPFRAME = Some (leaf_pte tf RW);
}.

Definition frame_addr (p : Z) : Prop := 0 <= p /\ p mod PGSIZE = 0 /\ p + PGSIZE <= 2 ^ 56.

Lemma page_ok_frame p : page_ok kend p -> frame_addr p.
Proof.
  intros [H1 H2]. split_and!; [unfold KERNBASE in *; lia|done|unfold PHYSTOP, KERNBASE, PGSIZE in *; lia].
Qed.

Lemma leaf_mapped A va p perm :
  A !! va = Some (leaf_pte p perm) -> frame_addr p -> 0 <= perm < 1024 -> Z.lor perm PTE_V <> PTE_V ->
  mapped A va [p].
Proof.
  intros HA (H1 & H2 & H3) Hperm Hx i q [-> <-]%list_lookup_singleton_Some.
  exists (leaf_pte p perm). rewrite Z.mul_0_l, Z.add_0_r. split; [done|].
  destruct (leaf_pte_eq p perm) as (_ & _ & -> & ->); [unfold PGSIZE in *; lia|done|done|done].
Qed.

Lemma one_page A va : unmap_range A va 1 = delete va A.
Proof. done. Qed.

Lemma empty_uspace s l root own : vm_inv s l root own ∅ -> uspace kend s l root own ∅ [].
Proof. intros H. split; [done|by intros ? ?|done|done|rewrite app_nil_r; apply (vi_nodup _ _ _ _ _ _ H)|done]. Qed.

(** Giving a table without user pages back. *)
Lemma uvmfree_empty th s l root own :
  vm_inv s l root own ∅ -> LkKmem ∉ th_held th ->
  exists s' l', uvmfree kend root 0 th s = Ok tt th s' /\ km_inv kend s' l' /\ l' ≡ₚ l ++ pages own /\
    forall a, outside (pages own) a -> mget (km_mem s') a = mget (km_mem s) a.
Proof.
  intros Hinv Hlk. destruct (uvmfree_ok 0 th s l root own ∅ []) as (s' & l' & E & Hkm & Hpm & Hout);
    try done; [by apply empty_uspace|].
  rewrite app_nil_r in *. by exists s', l'.
Qed.

(** The first mapping of a fresh table, and the trapframe after it. *)
Lemma map_top va p perm th s l root own A :
  vm_inv s l root own A -> LkKmem ∉ th_held th -> (va = TRAMPOLINE \/ va = TRAPFRAME) -> frame_addr p ->
  0 <= perm < 1024 -> A !! va = None ->
  exists r s' l' own', mappages root va PGSIZE p perm th s = Ok r th s' /\ grows s s' l l' own own' /\
    ((r = 0 /\ vm_inv s' l' root own' (<[va := leaf_pte p perm]> A)) \/
     (r = -1 /\ vm_inv s' l' root own' A)).
Proof.
  intros Hinv Hlk Hva (H1 & H2 & H3) Hperm Hn.
  assert (0 <= va /\ va mod PGSIZE = 0 /\ va + Z.of_nat 1 * PGSIZE <= MAXVA) as (? & ? & ?)
    by (destruct Hva as [-> | ->]; done).
  destruct (mappages_ok kend kend_ok 1 va p perm th s l root own A)
    as (r & j & s' & l' & own' & E & Hvm & Hgr & _ & Hr); try done; try lia.
  { intros x (i & Hi & ->)%in_range_spec. assert (i = 0%nat) as -> by lia. by rewrite Z.mul_0_l, Z.add_0_r. }
  exists r, s', l', own'. split_and!; [done|done|].
  destruct Hr as [[-> ->]|(-> & Hj & _)]; [by left|right].
  assert (j = 0%nat) as -> by lia. done.
Qed.

Lemma proc_pagetable_ok tramp tf th s l :
  km_inv kend s l -> LkKmem ∉ th_held th -> frame_addr tramp -> frame_addr tf ->
  exists r s' l', proc_pagetable kend tramp tf th s = Ok r th s' /\
    (forall a, outside l a -> mget (km_mem s') a = mget (km_mem s) a) /\
    ((r = 0 /\ km_inv kend s' l' /\ l' ≡ₚ l) \/
     (r <> 0 /\ exists own, l' ++ pages own ≡ₚ l /\
        proc_space tramp tf s' l' r own {[ TRAPFRAME := leaf_pte tf RW; TRAMPOLINE := leaf_pte tramp RX ]} [])).
Proof.
  intros Hkm Hlk Htr Htf. unfold proc_pagetable. destruct l as [|p l].
  { assert (E : uvmcreate th s = Ok 0 th s).
    { unfold uvmcreate. by rewrite (bind_ok _ _ _ _ _ _ _ (kalloc_empty kend th s Hkm Hlk)). }
    rewrite (bind_ok _ _ _ _ _ _ _ E).
    exists 0, s, []. split_and!; try done. by left. }
  destruct (uvmcreate_ok p l th s Hkm Hlk) as (s1 & E1 & Hvm1 & Hp & Hout1).
  assert (Hpg : pages {[ [] := p ]} = [p]) by (unfold pages; by rewrite map_to_list_singleton).
  rewrite (bind_ok _ _ _ _ _ _ _ E1). destruct (Z.eqb_spec p 0); [done|].
  destruct (map_top TRAMPOLINE tramp RX th s1 l p _ ∅ Hvm1) as (r2 & s2 & l2 & own2 & E2 & Hgr2 & Hr2); try done.
  { by left. }
  rewrite (bind_ok _ _ _ _ _ _ _ E2).
  assert (Hpm2 : l2 ++ pages own2 ≡ₚ p :: l).
  { rewrite (gr_perm _ _ _ _ _ _ Hgr2), Hpg. by rewrite <- Permutation_cons_append. }
  assert (Hout2 : forall a, outside (p :: l) a -> mget (km_mem s2) a = mget (km_mem s) a).
  { intros a Ha. rewrite (gr_out _ _ _ _ _ _ Hgr2); [apply Hout1; apply Ha; by left|].
    rewrite Hpg. by rewrite <- Permutation_cons_append. }
  destruct Hr2 as [[-> Hvm2]|[-> Hvm2]]; cbn [Z.ltb Z.compare].
  2: { destruct (uvmfree_empty th s2 l2 p own2 Hvm2 Hlk) as (s' & l' & E & Hkm' & Hpm & Hout).
       rewrite (bind_ok _ _ _ _ _ _ _ E). exists 0, s', l'. split_and!; [done| |left; split_and!; [done|done|by rewrite Hpm]].
       intros a Ha. rewrite Hout; [by apply Hout2|]. rewrite <- Hpm2 in Ha. by apply outside_app in Ha as [_ ?]. }
  destruct (map_top TRAPFRAME tf RW th s2 l2 p own2 _ Hvm2) as (r3 & s3 & l3 & own3 & E3 & Hgr3 & Hr3); try done.
  { by right. }
  rewrite (bind_ok _ _ _ _ _ _ _ E3).
  assert (Hpm3 : l3 ++ pages own3 ≡ₚ p :: l) by (by rewrite (gr_perm _ _ _ _ _ _ Hgr3)).
  assert (Hout3 : forall a, outside (p :: l) a -> mget (km_mem s3) a = mget (km_mem s) a).
  { intros a Ha. rewrite (gr_out _ _ _ _ _ _ Hgr3); [by apply Hout2|]. by rewrite Hpm2. }
  destruct Hr3 as [[-> Hvm3]|[-> Hvm3]]; cbn [Z.ltb Z.compare].
  - exists p, s3, l3. split_and!; [done|done|]. right. split; [done|]. exists own3. split; [done|].
    split; [|done|done]. split; [done|by intros ? ?| |done|rewrite app_nil_r; apply (vi_nodup _ _ _ _ _ _ Hvm3)|done].
    intros x Hx. cbn [length] in Hx. rewrite lookup_insert_ne by lia. apply lookup_singleton_ne.
    intros <-. unfold TRAPFRAME, PGSIZE in Hx. lia.
  - destruct (uvmunmap_ok kend kend_ok [tramp] TRAMPOLINE 0 th s3 l3 p own3 _ Hvm3) as (s4 & E4 & Hvm4 & Hout4); try done.
    { eapply leaf_mapped; [apply lookup_insert_eq|done|done|done]. }
    change (Z.of_nat (length [tramp])) with 1 in E4. rewrite (bind_ok _ _ _ _ _ _ _ E4).
    cbn [length] in Hvm4. rewrite one_page, delete_insert_id in Hvm4 by done. cbn [ctrue negb Z.eqb] in Hvm4.
    destruct (uvmfree_empty th s4 l3 p own3 Hvm4 Hlk) as (s' & l' & E & Hkm' & Hpm & Hout).
    rewrite (bind_ok _ _ _ _ _ _ _ E). exists 0, s', l'. split_and!; [done| |left; split_and!; [done|done|by rewrite Hpm]].
    intros a Ha. pose proof Ha as Ha'. rewrite <- Hpm3 in Ha. apply outside_app in Ha as [_ Ha].
    rewrite Hout, Hout4; [by apply Hout3| |done]. cbn [ctrue negb Z.eqb]. by rewrite app_nil_r.
Qed.

Lemma unmap_top va p perm th s l root own A :
  vm_inv s l root own A -> LkKmem ∉ th_held th -> (va = TRAMPOLINE \/ va = TRAPFRAME) -> frame_addr p ->
  0 <= perm < 1024 -> Z.lor perm PTE_V <> PTE_V -> A !! va = Some (leaf_pte p perm) ->
  exists s', uvmunmap kend root va 1 0 th s = Ok tt th s' /\ vm_inv s' l root own (delete va A) /\
    forall a, outside (pages own) a -> mget (km_mem s') a = mget (km_mem s) a.
Proof.
  intros Hinv Hlk Hva Hp Hperm Hx HA.
  assert (0 <= va /\ va mod PGSIZE = 0 /\ va + Z.of_nat 1 * PGSIZE <= MAXVA) as (? & ? & ?)
    by (destruct Hva as [-> | ->]; done).
  destruct (uvmunmap_ok kend kend_ok [p] va 0 th s l root own A Hinv) as (s' & E & Hvm & Hout); try done.
  { by eapply leaf_mapped. }
  change (ctrue 0) with false in *. cbv iota in *. rewrite app_nil_r in Hout.
  exists s'. split_and!; [done|done|done].
Qed.

Lemma proc_freepagetable_ok tramp tf sz th s l root own A fs :
  proc_space tramp tf s l root own A fs -> LkKmem ∉ th_held th -> frame_addr tramp -> frame_addr tf ->
  0 <= sz <= MAXVA -> Z.of_nat (length fs) = pgcount sz ->
  exists s' l', proc_freepagetable kend root sz th s = Ok tt th s' /\ km_inv kend s' l' /\
    l' ≡ₚ l ++ pages own ++ fs /\
    forall a, outside (pages own ++ fs) a -> mget (km_mem s') a = mget (km_mem s) a.
Proof.
  intros [Hus H1 H2] Hlk Htr Htf Hsz Hlen. unfold proc_freepagetable.
  destruct (unmap_top TRAMPOLINE tramp RX th s l root own A (us_vm Hus)) as (s1 & E1 & Hvm1 & Hout1); try done.
  { by left. }
  rewrite (bind_ok _ _ _ _ _ _ _ E1).
  destruct (unmap_top TRAPFRAME tf RW th s1 l root own _ Hvm1) as (s2 & E2 & Hvm2 & Hout2); try done.
  { by right. }
  { by rewrite lookup_delete_ne. }
  rewrite (bind_ok _ _ _ _ _ _ _ E2).
  assert (HA : forall x, x < TRAPFRAME -> delete TRAPFRAME (delete TRAMPOLINE A) !! x = A !! x).
  { intros x Hx. rewrite !lookup_delete_ne; [done| |lia].
    unfold TRAPFRAME, PGSIZE in Hx. lia. }
  pose proof (us_size Hus) as Hs.
  destruct (uvmfree_ok sz th s2 l root own (delete TRAPFRAME (delete TRAMPOLINE A)) fs)
    as (s' & l' & E & Hkm & Hpm & Hout); try done.
  - split; [done| | |apply (us_frames Hus)|apply (us_nodup Hus)|done].
    + intros i p Hp. destruct (us_mapped Hus i p Hp) as (w & Hw & ?). exists w. split; [|done].
      rewrite HA; [done|]. apply lookup_lt_Some in Hp. unfold PGSIZE in *. lia.
    + intros x Hx. rewrite HA by lia. by apply (us_gap Hus).
  - intros x Hx. rewrite lookup_delete in Hx. case_decide; [done|].
    rewrite lookup_delete in Hx. case_decide; [done|].
    destruct (A !! x) as [w|] eqn:Hw; [|done].
    destruct (leaf_some _ _ _ _ _ _ _ _ (us_vm Hus) Hw) as (_ & _ & _ & _ & Hxr & Hal).
    assert (x < Z.of_nat (length fs) * PGSIZE).
    { apply Z.nle_gt. intros Hle. destruct (Z.lt_ge_cases x TRAPFRAME).
      - rewrite (us_gap Hus) in Hw; [done|lia].
      - unfold TRAPFRAME, TRAMPOLINE in *. rewrite MAXVA_eq in *. unfold PGSIZE in *.
        pose proof (Z.div_mod x 4096). lia. }
    apply in_range_spec. exists (Z.to_nat (x / PGSIZE)). unfold PGSIZE in *.
    pose proof (Z.div_mod x 4096). pose proof (Z.div_pos x 4096). lia.
  - exists s', l'. split_and!; try done. intros a Ha. rewrite Hout by done.
    apply outside_app in Ha as [Ha _]. by rewrite Hout2, Hout1.
Qed.

End VmFree.
