(* ===== verification/VmLife.v ===== *)
(** * The life of an address space (kernel/vm.c, kernel/proc.c)

    From [proc_pagetable] through any number of [sbrk] calls to
    [proc_freepagetable], and the copy that [fork] makes. *)

From S2P Require Import Prelude Layout Memory Kalloc Vm VmMap VmUser VmFree.

Section VmLife.
Variable kend : Z.
Hypothesis kend_ok : KERNBASE <= kend <= PHYSTOP.
Variables tramp tf : Z.
Hypothesis tramp_ok : frame_addr tramp.
Hypothesis tf_ok : frame_addr tf.

(** RAM has 32768 pages, so no address space reaches the trapframe. *)
Lemma frames_bound fs : Forall (page_ok kend) fs -> NoDup fs -> Z.of_nat (length fs) <= 32768.
Proof.
  intros HF Hnd.
  assert (Hsub : ((fun p => (p - KERNBASE) / PGSIZE) <$> fs) ⊆+ seqZ 0 32768).
  { apply NoDup_submseteq.
    - apply NoDup_fmap_2_strong; [|done]. intros x y Hx Hy E. rewrite Forall_forall in HF.
      destruct (HF x Hx) as [Hx1 Hx2]. destruct (HF y Hy) as [Hy1 Hy2].
      unfold PHYSTOP, KERNBASE, PGSIZE in *.
      pose proof (Z.div_mod x 4096). pose proof (Z.div_mod y 4096).
      pose proof (Z.div_mod (x - 2147483648) 4096). pose proof (Z.div_mod (y - 2147483648) 4096).
      pose proof (Z.mod_pos_bound (x - 2147483648) 4096). pose proof (Z.mod_pos_bound (y - 2147483648) 4096).
      lia.
    - intros i (p & -> & Hp)%list_elem_of_fmap. apply elem_of_seqZ. rewrite Forall_forall in HF.
      destruct (HF p Hp) as [_ Hr]. unfold PHYSTOP, KERNBASE, PGSIZE in *.
      pose proof (Z.div_pos (p - 2147483648) 4096).
      pose proof (Z.div_lt_upper_bound (p - 2147483648) 4096 32768). lia. }
  apply submseteq_length in Hsub. rewrite length_fmap, length_seqZ in Hsub. lia.
Qed.

(** A process of size [sz] with user frames [fs]. *)
Record process (sz : Z) (s : kmem) (l : list Z) (root : Z) (own : gmap path Z)
    (A : gmap Z Z) (fs : list Z) : Prop := mkProcess {
  pr_space : proc_space kend tramp tf s l root own A fs;
  pr_sz : 0 <= sz;
  pr_len : Z.of_nat (length fs) = pgcount sz;
}.

Lemma process_sz sz s l root own A fs : process sz s l root own A fs -> sz <= MAXVA -> sz <= 32768 * PGSIZE.
Proof.
  intros H Hm. destruct (pgcount_eq sz) as (_ & _ & Hc); [split; [apply (pr_sz _ _ _ _ _ _ _ H)|done]|].
  rewrite <- (pr_len _ _ _ _ _ _ _ H) in Hc.
  pose proof (ps_us _ _ _ _ _ _ _ _ _ (pr_space _ _ _ _ _ _ _ H)) as Hus.
  pose proof (us_nodup Hus) as Hnd. rewrite app_assoc in Hnd. apply NoDup_app in Hnd as (_ & _ & Hnd).
  pose proof (frames_bound fs (us_frames Hus) Hnd). unfold PGSIZE in *. lia.
Qed.

Lemma outside_app_3 ps qs rs a : outside (ps ++ qs ++ rs) a -> outside ps a /\ outside qs a /\ outside rs a.
Proof. rewrite !outside_app. tauto. Qed.

(** The bytes of user page [i], as the frames hold them. *)
Definition same_contents (s s' : kmem) (fs fs' : list Z) : Prop :=
  forall i f f', fs !! i = Some f -> fs' !! i = Some f' ->
    f = f' /\ forall a, in_page f a -> mget (km_mem s') a = mget (km_mem s) a.

Lemma us_frame_outside s l root own A fs i f a :
  uspace kend s l root own A fs -> fs !! i = Some f -> in_page f a -> outside (l ++ pages own) a.
Proof. intros H Hf. apply (us_disjoint kend _ _ _ _ _ _ _ _ H). by eapply list_elem_of_lookup_2. Qed.

Lemma kept_frame s l root own A fs k i f a :
  uspace kend s l root own A fs -> fs !! i = Some f -> (i < k)%nat -> in_page f a ->
  outside (pages own ++ drop k fs) a.
Proof.
  intros Hus Hf Hi Ha. apply outside_app. split.
  - pose proof (us_frame_outside _ _ _ _ _ _ _ _ _ Hus Hf Ha) as Ho. by apply outside_app in Ho as [_ ?].
  - intros p Hp Ha'. apply list_elem_of_lookup in Hp as [j Hj]. rewrite lookup_drop in Hj.
    pose proof (us_frames Hus) as HF. rewrite Forall_lookup in HF.
    assert (p = f) as -> by (eapply (pages_disjoint kend); [by eapply HF|by eapply HF|done|done]).
    pose proof (us_nodup Hus) as Hnd. rewrite app_assoc in Hnd. apply NoDup_app in Hnd as (_ & _ & Hnd).
    pose proof (NoDup_lookup _ _ _ _ Hnd Hf Hj). lia.
Qed.

Lemma TOP_ge A va perm ns x :
  va + Z.of_nat (length ns) * PGSIZE <= x -> map_frames A va perm ns !! x = A !! x.
Proof.
  intros Hx. apply map_frames_lookup_ne. apply not_true_is_false. intros (i & Hi & ->)%in_range_spec.
  unfold PGSIZE in *. lia.
Qed.

Lemma grow_ok sz n th s l root own A fs :
  process sz s l root own A fs -> LkKmem ∉ th_held th -> sz <= MAXVA -> 0 < n < 2 ^ 31 ->
  exists r sz' s' l' own' A' ns, growproc_mem kend root sz n th s = Ok (r, sz') th s' /\
    process sz' s' l' root own' A' (fs ++ ns) /\ sz' <= MAXVA /\
    l' ++ pages own' ++ ns ≡ₚ l ++ pages own /\ zeroed s' ns /\
    (forall b, outside (l ++ pages own) b -> mget (km_mem s') b = mget (km_mem s) b) /\
    ((r = 0 /\ sz' = sz + n) \/ (r = -1 /\ sz' = sz /\ ns = [] /\ A' = A)).
Proof.
  intros Hpr Hlk Hm Hn. pose proof (process_sz _ _ _ _ _ _ _ Hpr Hm) as Hb.
  destruct Hpr as [[Hus Ht1 Ht2] Hsz Hlen]. assert (HT : TRAPFRAME = (2 ^ 26 - 2) * PGSIZE) by done.
  assert (HM : MAXVA = 2 ^ 26 * PGSIZE) by done.
  unfold growproc_mem. rewrite Z.gtb_ltb. destruct (Z.ltb_spec 0 n); [|lia].
  rewrite u64_id by (unfold PGSIZE in *; lia).
  destruct (uvmalloc_ok kend kend_ok sz (sz + n) PTE_W th s l root own A fs Hus Hlk)
    as (r & s' & l' & own' & ns & E & Hus' & Hz & Hpm & Hout & Hr); try done; try (unfold PGSIZE in *; lia).
  rewrite (bind_ok _ _ _ _ _ _ _ E). set (A' := map_frames _ _ _ ns) in *.
  assert (Htop : forall x, TRAPFRAME <= x -> A' !! x = A !! x).
  { intros x Hx. apply TOP_ge. destruct (pgcount_eq sz) as (-> & _); [lia|]. rewrite <- Hlen.
    pose proof (us_size Hus') as Hs. rewrite length_app in Hs. unfold PGSIZE in *. lia. }
  destruct Hr as [[-> Hr]|[-> ->]].
  - destruct (Z.eqb_spec (sz + n) 0); [lia|]. exists 0, (sz + n), s', l', own', A', ns.
    split_and!; try done; [|unfold PGSIZE in *; lia|by left].
    split; [|lia|done]. split; [done|by rewrite Htop|by rewrite Htop].
  - exists (-1), sz, s', l', own', A, []. rewrite (app_nil_r fs) in *. split_and!; try done.
    right. by split_and!.
Qed.

Lemma shrink_proc_ok sz n th s l root own A fs :
  process sz s l root own A fs -> LkKmem ∉ th_held th -> sz <= MAXVA -> - 2 ^ 31 <= n < 0 ->
  exists sz' s' k, growproc_mem kend root sz n th s = Ok (0, sz') th s' /\ (k <= length fs)%nat /\
    process sz' s' (rev (drop k fs) ++ l) root own (unmap_range A (Z.of_nat k * PGSIZE) (length fs - k)) (take k fs) /\
    sz' = (if sz + n <? 0 then sz else sz + n) /\
    (forall b, outside (pages own ++ drop k fs) b -> mget (km_mem s') b = mget (km_mem s) b).
Proof.
  intros [[Hus Ht1 Ht2] Hsz Hlen] Hlk Hm Hn. unfold growproc_mem. rewrite Z.gtb_ltb.
  destruct (Z.ltb_spec 0 n); [lia|]. destruct (Z.ltb_spec n 0); [|lia].
  assert (HM : MAXVA = 2 ^ 38) by done.
  assert (Hu : 0 <= u64 (sz + n) /\ Z.min sz (u64 (sz + n)) = if sz + n <? 0 then sz else sz + n).
  { destruct (Z.ltb_spec (sz + n) 0).
    - assert (u64 (sz + n) = sz + n + 2 ^ 64) as ->; [|lia]. unfold u64.
      rewrite <- (Z.mod_add _ 1) by lia. rewrite Z.mod_small; lia.
    - rewrite u64_id; lia. }
  destruct Hu as [Hu1 Hu2].
  destruct (uvmdealloc_ok kend kend_ok sz (u64 (sz + n)) th s l root own A fs Hus Hlk)
    as (s' & k & E & Hk & Hk' & Hus' & Hout); try done.
  rewrite (bind_ok _ _ _ _ _ _ _ E). rewrite Hu2 in *. set (sz' := if sz + n <? 0 then sz else sz + n) in *.
  exists sz', s', k. split_and!; try done. pose proof (us_size Hus) as Hs.
  assert (Htop : forall x, TRAPFRAME <= x -> unmap_range A (Z.of_nat k * PGSIZE) (length fs - k) !! x = A !! x).
  { intros x Hx. rewrite unmap_range_lookup. destruct (in_range _ _ x) eqn:E'; [|done].
    apply in_range_spec in E' as (i & Hi & ->). unfold PGSIZE in *. lia. }
  split.
  - split; [done|by rewrite Htop|by rewrite Htop].
  - unfold sz'. destruct (Z.ltb_spec (sz + n) 0); lia.
  - rewrite <- Hk, length_take. lia.
Qed.

(** ** From creation to the end *)

(** A process calls [sbrk] with the arguments [ns], one after the other. *)
Fixpoint growprocs (pagetable sz : Z) (ns : list Z) : M kmem Z :=
  match ns with
  | [] => ret sz
  | n :: ns' =>
      let! r := growproc_mem kend pagetable sz n in
      growprocs pagetable (snd r) ns'
  end.

Definition lifecycle (ns : list Z) : M kmem unit :=
  let! pagetable := proc_pagetable kend tramp tf in
  if pagetable =? 0 then ret tt
  else
    let! sz := growprocs pagetable 0 ns in
    proc_freepagetable kend pagetable sz.

(** What one [growproc] does to the pages. *)
Lemma growproc_conserves sz n th s l root own A fs :
  process sz s l root own A fs -> LkKmem ∉ th_held th -> sz <= MAXVA -> is_i32 n ->
  exists r sz' s' l' own' A' fs', growproc_mem kend root sz n th s = Ok (r, sz') th s' /\
    process sz' s' l' root own' A' fs' /\ sz' <= MAXVA /\
    l' ++ pages own' ++ fs' ≡ₚ l ++ pages own ++ fs /\
    (forall b, outside (l ++ pages own ++ fs) b -> mget (km_mem s') b = mget (km_mem s) b) /\
    same_contents s s' fs fs' /\ zeroed s' (drop (length fs) fs') /\
    (r = 0 \/ (r = -1 /\ 0 < n /\ sz' = sz /\ fs' = fs /\ A' = A)) /\
    (r = 0 -> sz' = (if sz + n <? 0 then sz else sz + n)).
Proof.
  intros Hpr Hlk Hm Hn. pose proof (ps_us _ _ _ _ _ _ _ _ _ (pr_space _ _ _ _ _ _ _ Hpr)) as Hus.
  pose proof (pr_sz _ _ _ _ _ _ _ Hpr) as Hsz.
  destruct (Z.lt_trichotomy n 0) as [Hneg|[->|Hpos]].
  - destruct (shrink_proc_ok sz n th s l root own A fs Hpr Hlk Hm) as (sz' & s' & k & E & Hk & Hpr' & Hs & Hout); [lia|].
    eexists 0, sz', s', (rev (drop k fs) ++ l), own, _, (take k fs). split_and!; try done.
    + destruct (Z.ltb_spec (sz + n) 0); lia.
    + rewrite <- Permutation_rev, <- app_assoc. rewrite (Permutation_app_comm (drop k fs)), <- !app_assoc.
      by rewrite take_drop.
    + intros b (Hb1 & Hb2 & Hb3)%outside_app_3. apply Hout, outside_app. split; [done|].
      rewrite <- (take_drop k fs) in Hb3. by apply outside_app in Hb3 as [_ ?].
    + intros i f f' Hf [Hf' Hi]%lookup_take_Some. split; [congruence|]. intros a Ha. apply Hout.
      by apply (kept_frame s l root own A fs k i f).
    + rewrite drop_ge by (rewrite length_take; lia). apply zeroed_nil.
    + by left.
  - exists 0, sz, s, l, own, A, fs. split_and!; try done.
    + intros i f f' Hf Hf'. split; [congruence|done].
    + rewrite drop_all. apply zeroed_nil.
    + by left.
    + intros _. rewrite Z.add_0_r. destruct (Z.ltb_spec sz 0); lia.
  - destruct (grow_ok sz n th s l root own A fs Hpr Hlk Hm)
      as (r & sz' & s' & l' & own' & A' & ns & E & Hpr' & Hm' & Hpm & Hz & Hout & Hr); [lia|].
    exists r, sz', s', l', own', A', (fs ++ ns). split_and!; try done.
    + rewrite (Permutation_app_comm fs), !app_assoc, <- (app_assoc l'), Hpm. done.
    + intros b Hb. apply Hout. rewrite app_assoc in Hb. by apply outside_app in Hb as [? _].
    + intros i f f' Hf Hf'. rewrite (lookup_app_l_Some _ _ _ _ Hf) in Hf'. split; [congruence|].
      intros a Ha. apply Hout. by eapply us_frame_outside.
    + by rewrite drop_app_length.
    + destruct Hr as [[-> _]|(-> & -> & -> & ->)]; [by left|right]. rewrite app_nil_r. by split_and!.
    + intros ->. destruct Hr as [[_ ->]|(? & _)]; [|done]. destruct (Z.ltb_spec (sz + n) 0); lia.
Qed.


Lemma growprocs_ok ns sz th s l root own A fs :
  process sz s l root own A fs -> LkKmem ∉ th_held th -> sz <= MAXVA -> Forall (fun n => is_i32 n) ns ->
  exists sz' s' l' own' A' fs', growprocs root sz ns th s = Ok sz' th s' /\
    process sz' s' l' root own' A' fs' /\ sz' <= MAXVA /\
    l' ++ pages own' ++ fs' ≡ₚ l ++ pages own ++ fs /\
    (forall b, outside (l ++ pages own ++ fs) b -> mget (km_mem s') b = mget (km_mem s) b).
Proof.
  revert sz s l own A fs. induction ns as [|n ns IH]; intros sz s l own A fs Hpr Hlk Hm HF.
  { by exists sz, s, l, own, A, fs. }
  apply Forall_cons in HF as [Hn HF]. cbn [growprocs].
  destruct (growproc_conserves sz n th s l root own A fs Hpr Hlk Hm Hn)
    as (r & sz1 & s1 & l1 & own1 & A1 & fs1 & E1 & Hpr1 & Hm1 & Hpm1 & Hout1 & _).
  rewrite (bind_ok _ _ _ _ _ _ _ E1). cbn [snd].
  destruct (IH sz1 s1 l1 own1 A1 fs1 Hpr1 Hlk Hm1 HF) as (sz' & s' & l' & own' & A' & fs' & E & Hpr' & Hm' & Hpm & Hout).
  exists sz', s', l', own', A', fs'. split_and!; try done.
  - by rewrite Hpm.
  - intros b Hb. rewrite Hout; [by apply Hout1|]. by rewrite Hpm1.
Qed.

(** C10: an address space leaks nothing and frees nothing twice.  Creating the page
    table of a process, any sequence of [sbrk] calls with positive, negative or too
    large arguments, and freeing the table returns normally; the free list then holds
    the same pages as before, and no byte outside those pages has changed. *)
Theorem address_space_lifecycle ns th s l :
  km_inv kend s l -> LkKmem ∉ th_held th -> Forall (fun n => is_i32 n) ns ->
  exists s' l', lifecycle ns th s = Ok tt th s' /\ km_inv kend s' l' /\ l' ≡ₚ l /\
    forall b, outside l b -> mget (km_mem s') b = mget (km_mem s) b.
Proof.
  intros Hkm Hlk HF. unfold lifecycle.
  destruct (proc_pagetable_ok kend kend_ok tramp tf th s l Hkm Hlk tramp_ok tf_ok)
    as (r & s1 & l1 & E1 & Hout1 & [(-> & Hkm1 & Hpm1)|(Hr & own & Hpm1 & Hps)]);
    rewrite (bind_ok _ _ _ _ _ _ _ E1).
  { exists s1, l1. by split_and!. }
  destruct (Z.eqb_spec r 0); [done|].
  destruct (growprocs_ok ns 0 th s1 l1 r own _ [] (mkProcess 0 _ _ _ _ _ _ Hps ltac:(lia) eq_refl) Hlk ltac:(done) HF)
    as (sz & s2 & l2 & own2 & A2 & fs2 & E2 & [Hps2 Hsz Hlen] & Hm2 & Hpm2 & Hout2).
  rewrite (bind_ok _ _ _ _ _ _ _ E2). rewrite app_nil_r in *.
  destruct (proc_freepagetable_ok kend kend_ok tramp tf sz th s2 l2 r own2 A2 fs2 Hps2 Hlk tramp_ok tf_ok ltac:(lia) Hlen)
    as (s3 & l3 & E3 & Hkm3 & Hpm3 & Hout3).
  exists s3, l3. split_and!; [done|done| |].
  - by rewrite Hpm3, Hpm2, Hpm1.
  - intros b Hb. rewrite Hout3, Hout2; [by apply Hout1|by rewrite Hpm1|].
    rewrite <- Hpm1, <- Hpm2 in Hb. by apply outside_app in Hb as [_ ?].
Qed.

End VmLife.

(** [growproc(n)] returns 0 with the size changed by [n] (or unchanged, when the
    size would become negative), or, only for a positive [n], -1 with the address space
    as it was.  Pages added are zeroed, the bytes of the pages kept do not change, and
    pages are conserved between the free list, the table and the user memory. *)
Theorem growproc_resizes kend tramp tf sz n th s l root own A fs :
  KERNBASE <= kend <= PHYSTOP ->
  process kend tramp tf sz s l root own A fs -> LkKmem ∉ th_held th -> sz <= MAXVA -> is_i32 n ->
  exists r sz' s' l' own' A' fs', growproc_mem kend root sz n th s = Ok (r, sz') th s' /\
    process kend tramp tf sz' s' l' root own' A' fs' /\
    l' ++ pages own' ++ fs' ≡ₚ l ++ pages own ++ fs /\
    same_contents s s' fs fs' /\ zeroed s' (drop (length fs) fs') /\
    ((r = 0 /\ sz' = if sz + n <? 0 then sz else sz + n) \/
     (r = -1 /\ 0 < n /\ sz' = sz /\ fs' = fs /\ A' = A)).
Proof.
  intros Hk Hpr Hlk Hm Hn.
  destruct (growproc_conserves kend Hk tramp tf sz n th s l root own A fs Hpr Hlk Hm Hn)
    as (r & sz' & s' & l' & own' & A' & fs' & E & Hpr' & _ & Hpm & _ & Hsame & Hz & Hr & Hr0).
  exists r, sz', s', l', own', A', fs'. split_and!; try done.
  destruct Hr as [->|Hr]; [left; split; [done|by apply Hr0]|by right].
Qed.

(** ** A small machine *)

(** [n] free pages from [p] up. *)
Fixpoint free_chain (n : nat) (p : Z) : mem :=
  match n with
  | O => ∅
  | S n' => st64 (free_chain n' (p + PGSIZE)) p (match n' with O => 0 | S _ => p + PGSIZE end)
  end.

Definition small_memory : kmem := mkKmem (free_chain 12 KERNBASE) KERNBASE.
Definition small_pages : list Z := (fun i => KERNBASE + i * PGSIZE) <$> seqZ 0 12.

Lemma small_memory_ok : km_inv KERNBASE small_memory small_pages.
Proof.
  split_and!.
  - vm_compute. repeat split.
  - apply (bool_decide_unpack _). vm_compute. exact I.
  - apply (bool_decide_unpack (Forall (fun p => p mod PGSIZE = 0 /\ KERNBASE <= p < PHYSTOP) small_pages)).
    vm_compute. exact I.
Qed.

Definition outcome_code {S} (o : outcome S (Z * Z)) : Z := match o with Ok r _ _ => fst r | _ => -2 end.

Definition small_setup : M kmem (Z * Z) :=
  let! pt := proc_pagetable KERNBASE KERNBASE KERNBASE in
  if pt =? 0 then ret (-3, 0)
  else
    let! r := growproc_mem KERNBASE pt 0 PGSIZE in
    let! spare := kalloc in
    ret (if spare =? 0 then (-4, 0) else r).

Lemma idle_free : LkKmem ∉ th_held idle_thread.
Proof. apply not_elem_of_nil. Qed.

Lemma kernbase_ok : KERNBASE <= KERNBASE <= PHYSTOP.
Proof. done. Qed.

Lemma kernbase_frame : frame_addr KERNBASE.
Proof. done. Qed.

Lemma setup_process s0 l0 :
  km_inv KERNBASE s0 l0 -> outcome_code (small_setup idle_thread s0) = 0 ->
  exists s l root own A f, process KERNBASE KERNBASE KERNBASE PGSIZE s l root own A [f] /\ l <> [] /\ l ++ pages own ++ [f] ≡ₚ l0.
Proof.
  intros Hkm. unfold small_setup. intros Hcode.
  destruct (proc_pagetable_ok KERNBASE kernbase_ok KERNBASE KERNBASE idle_thread s0 l0
    Hkm idle_free kernbase_frame kernbase_frame) as (r & s1 & l1 & E1 & _ & [(-> & _)|(Hr & own & Hpm & Hps)]);
    rewrite (bind_ok _ _ _ _ _ _ _ E1) in Hcode; [discriminate Hcode|].
  destruct (Z.eqb_spec r 0); [done|].
  destruct (grow_ok KERNBASE kernbase_ok KERNBASE KERNBASE 0 PGSIZE idle_thread s1 l1 r own _ []
    (mkProcess _ _ _ 0 _ _ _ _ _ _ Hps ltac:(lia) eq_refl) idle_free ltac:(done) ltac:(done))
    as (r2 & sz & s2 & l2 & own2 & A2 & ns & E2 & Hpr & _ & Hpm2 & _ & _ & Hr2).
  rewrite (bind_ok _ _ _ _ _ _ _ E2) in Hcode.
  assert (Hl2 : l2 <> []).
  { intros ->. pose proof (vi_km _ _ _ _ _ _ (us_vm (ps_us _ _ _ _ _ _ _ _ _ (pr_space _ _ _ _ _ _ _ _ _ _ Hpr)))) as Hk2.
    rewrite (bind_ok _ _ _ _ _ _ _ (kalloc_empty _ _ _ Hk2 idle_free)) in Hcode. discriminate Hcode. }
  assert (r2 = 0) as ->.
  { destruct l2 as [|q l2]; [done|]. pose proof (vi_km _ _ _ _ _ _ (us_vm (ps_us _ _ _ _ _ _ _ _ _ (pr_space _ _ _ _ _ _ _ _ _ _ Hpr)))) as Hk2.
    destruct (kalloc_ok _ kernbase_ok _ _ _ _ Hk2 idle_free) as (s3 & E3 & _).
    rewrite (bind_ok _ _ _ _ _ _ _ E3) in Hcode. unfold ret in Hcode. cbn [outcome_code] in Hcode.
    by destruct (q =? 0). }
  destruct Hr2 as [[_ ->]|[? _]]; [|lia]. rewrite Z.add_0_l in Hpr. simpl app in Hpr.
  pose proof (pr_len _ _ _ _ _ _ _ _ _ _ Hpr) as Hl. change (pgcount PGSIZE) with 1 in Hl.
  destruct ns as [|f [|? ?]]; cbn [length] in Hl; [lia| |lia].
  exists s2, l2, r, own2, A2, f. split_and!; [done|done|]. by rewrite Hpm2, Hpm.
Qed.

(** On it there is a process with one user page, and pages to spare. *)
Lemma small_process : exists s l root own A f,
  process KERNBASE KERNBASE KERNBASE PGSIZE s l root own A [f] /\ l <> [] /\ l ++ pages own ++ [f] ≡ₚ small_pages.
Proof. apply (setup_process small_memory); [exact small_memory_ok|vm_compute; reflexivity]. Qed.

Lemma address_space_lifecycle_witness :
  exists s' l', lifecycle KERNBASE KERNBASE KERNBASE [5000; -3000; 2147483647; -1] idle_thread small_memory
    = Ok tt idle_thread s' /\ l' ≡ₚ small_pages /\ km_inv KERNBASE s' l'.
Proof.
  destruct (address_space_lifecycle KERNBASE kernbase_ok KERNBASE KERNBASE kernbase_frame kernbase_frame
    [5000; -3000; 2147483647; -1] idle_thread small_memory small_pages) as (s' & l' & E & Hkm & Hpm & _).
  - exact small_memory_ok.
  - exact idle_free.
  - apply (bool_decide_unpack _). vm_compute. exact I.
  - exists s', l'. split; [exact E|split; [exact Hpm|exact Hkm]].
Defined.

Lemma growproc_resizes_witness :
  exists s root r sz' s', growproc_mem KERNBASE root PGSIZE (-1) idle_thread s = Ok (r, sz') idle_thread s' /\ r = 0 /\ sz' = 4095.
Proof.
  destruct small_process as (s & l & root & own & A & f & Hpr & _).
  destruct (growproc_resizes KERNBASE KERNBASE KERNBASE PGSIZE (-1) idle_thread s l root own A [f])
    as (r & sz' & s' & l' & own' & A' & fs' & E & _ & _ & _ & _ & Hr).
  - exact kernbase_ok.
  - exact Hpr.
  - exact idle_free.
  - unfold MAXVA, PGSIZE. vm_compute. discriminate.
  - lia.
  - exists s, root, r, sz', s'. split; [exact E|]. destruct Hr as [[-> ->]|(_ & ? & _)]; [split; reflexivity|lia].
Defined.
