(* ===== verification/VmFork.v ===== *)
(** * Copying an address space (kernel/vm.c: uvmcopy)

    [fork] gives the child a copy of every user page of the parent, or, when memory
    runs out, nothing. *)

From S2P Require Import Prelude Layout Memory Kalloc Vm VmMap VmUser VmFree VmLife.

Section VmFork.
Variable kend : Z.
Hypothesis kend_ok : KERNBASE <= kend <= PHYSTOP.

Notation vm_inv := (vm_inv kend).
Notation uspace := (uspace kend).

(** A table that is not being changed keeps its meaning while the pages outside it
    change. *)
Lemma vm_inv_frame s s' l l' root own A :
  vm_inv s l root own A -> km_inv kend s' l' -> NoDup (l' ++ pages own) ->
  (forall p a, p ∈ pages own -> in_page p a -> mget (km_mem s') a = mget (km_mem s) a) ->
  vm_inv s' l' root own A.
Proof.
  intros [H1 H2 H3 H4 H5] Hkm Hnd H. split; [done|by eapply ptree_ext|by eapply leafs_ext|done|done].
Qed.

(** The parent: its table, its user frames [fsO] and the bytes [m0] they hold. *)
Variables (m0 : mem) (rootO : Z) (ownO : gmap path Z) (AO : gmap Z Z) (fsO : list Z).

Record parent (s : kmem) (l : list Z) : Prop := mkParent {
  pa_vm : vm_inv s l rootO ownO AO;
  pa_mapped : mapped AO 0 fsO;
  pa_ok : Forall (page_ok kend) fsO;
  pa_size : Z.of_nat (length fsO) * PGSIZE <= TRAPFRAME;
  pa_bytes : forall p a, p ∈ pages ownO ++ fsO -> in_page p a -> mget (km_mem s) a = mget m0 a;
}.

(** The pages [ns] of the child hold what the first pages of the parent hold, and are
    mapped with the same permissions. *)
Record copied (s : kmem) (AN0 AN : gmap Z Z) (ns : list Z) : Prop := mkCopied {
  cp_bytes : forall i f n a, fsO !! i = Some f -> ns !! i = Some n -> 0 <= a < PGSIZE ->
    mget (km_mem s) (n + a) = mget m0 (f + a);
  cp_flags : forall i n w, ns !! i = Some n -> AO !! (Z.of_nat i * PGSIZE) = Some w ->
    AN !! (Z.of_nat i * PGSIZE) = Some (leaf_pte n (PTE_FLAGS w));
  cp_other : forall x, in_range 0 (length ns) x = false -> AN !! x = AN0 !! x;
}.

Lemma parent_frame s s' l l' ps :
  parent s l -> km_inv kend s' l' -> Forall (page_ok kend) ps -> NoDup (ps ++ pages ownO ++ fsO) ->
  (forall x, x ∈ l' -> x ∈ ps) ->
  (forall a, outside ps a -> mget (km_mem s') a = mget (km_mem s) a) ->
  parent s' l'.
Proof.
  intros [H1 H2 H3 H4 H5] Hkm Hps Hnd Hsub Hout.
  assert (HO : Forall (page_ok kend) (pages ownO ++ fsO)).
  { apply Forall_app. split; [apply (vi_pages _ _ _ _ _ _ H1)|done]. }
  assert (Hin : forall p a, p ∈ pages ownO ++ fsO -> in_page p a -> mget (km_mem s') a = mget (km_mem s) a).
  { intros p a Hp Ha. apply Hout. intros q Hq Ha'. rewrite Forall_forall in HO, Hps.
    apply NoDup_app in Hnd as (_ & Hd & _). apply (Hd q Hq).
    by rewrite (pages_disjoint kend q p a) by auto. }
  split; try done.
  - eapply vm_inv_frame; [done|done| |].
    + pose proof Hkm as (_ & Hl & _). apply NoDup_app in Hnd as (_ & Hd & Hnd).
      apply NoDup_app in Hnd as (Hnd & _ & _). apply NoDup_app. split_and!; [done| |done].
      intros x Hx Hx'. apply (Hd x); [by apply Hsub|]. apply elem_of_app. by left.
    + intros p a Hp. apply (Hin p), elem_of_app. by left.
  - intros p a Hp Ha. rewrite (Hin p) by done. by apply (H5 p).
Qed.

(** Reading the parent's entry for page [i]. *)
Lemma parent_entry s l th i f :
  parent s l -> fsO !! i = Some f ->
  exists pte w, walk rootO (Z.of_nat i * PGSIZE) 0 th s = Ok pte th s /\ (pte =? 0) = false /\
    ld64 (km_mem s) pte = w /\ flag w PTE_V = true /\ PTE2PA w = f /\ PTE_FLAGS w <> PTE_V /\
    AO !! (Z.of_nat i * PGSIZE) = Some w.
Proof.
  intros Hpa Hf. destruct (pa_mapped _ _ Hpa i f Hf) as (w & Hw & Hpp & Hfl).
  destruct (leaf_some _ _ _ _ _ _ _ _ (pa_vm _ _ Hpa) Hw) as (t & Ht & He & HV & Hr & _).
  exists (pte_at t (PX 0 (0 + Z.of_nat i * PGSIZE))), w. rewrite Z.add_0_l in *.
  split_and!; try done.
  - erewrite walk_read; [by rewrite Ht|done|apply (pa_vm _ _ Hpa)|lia].
  - eapply (pte_addr_pos kend kend_ok); [apply (pa_vm _ _ Hpa)|done].
Qed.

Lemma flags_perm w : flag w PTE_V = true -> PTE_FLAGS w <> PTE_V ->
  0 <= PTE_FLAGS w < 1024 /\ Z.lor (PTE_FLAGS w) PTE_V <> PTE_V.
Proof.
  intros HV Hf. unfold PTE_FLAGS in *. change 0x3FF with (Z.ones 10) in *. rewrite Z.land_ones in * by lia.
  split; [apply Z.mod_pos_bound; lia|]. intros E. apply Hf. rewrite <- E. symmetry.
  apply Z.bits_inj'. intros n Hn. rewrite Z.lor_spec.
  destruct (Z.eq_dec n 0) as [->|].
  - rewrite <- Z.land_ones, Z.land_spec by lia. unfold flag, ctrue in HV.
    change PTE_V with (2 ^ 0) in HV. rewrite Z.land_comm in HV.
    destruct (Z.testbit w 0) eqn:Hb; [done|]. exfalso.
    rewrite Z.land_comm in HV. change (2 ^ 0) with (Z.ones 1) in HV. rewrite Z.land_ones in HV by lia.
    rewrite Z.bit0_odd in Hb. rewrite Zmod_odd, Hb in HV. done.
  - change PTE_V with (2 ^ 0). rewrite Z.pow2_bits_false by lia. by rewrite orb_false_r.
Qed.

Lemma unmap_copied (AN0 AN : gmap Z Z) (ns : list Z) :
  (forall x, in_range 0 (length ns) x = false -> AN !! x = AN0 !! x) ->
  (forall x, in_range 0 (length fsO) x = true -> AN0 !! x = None) ->
  (length ns <= length fsO)%nat -> unmap_range AN 0 (length ns) = AN0.
Proof.
  intros Hcp Hn Hlen. apply map_eq. intros x. rewrite unmap_range_lookup.
  destruct (in_range 0 (length ns) x) eqn:E; [|by apply Hcp].
  symmetry. apply Hn. apply in_range_spec in E as (i & Hi & ->). apply in_range_spec. exists i. lia.
Qed.

(** The error exit gives the copied pages back. *)
Lemma uvmcopy_err_ok th s s1 l l1 rootN ownN own1 AN0 AN ns :
  parent s l -> Forall (page_ok kend) (l ++ pages ownN ++ ns) ->
  NoDup ((l ++ pages ownN ++ ns) ++ pages ownO ++ fsO) ->
  uspace s1 l1 rootN own1 AN ns -> l1 ++ pages own1 ≡ₚ l ++ pages ownN ->
  (forall a, outside (l ++ pages ownN) a -> mget (km_mem s1) a = mget (km_mem s) a) ->
  LkKmem ∉ th_held th ->
  (forall x, in_range 0 (length ns) x = false -> AN !! x = AN0 !! x) ->
  (forall x, in_range 0 (length fsO) x = true -> AN0 !! x = None) -> (length ns <= length fsO)%nat ->
  exists s' l', uvmcopy_err kend rootN (Z.of_nat (length ns) * PGSIZE) th s1 = Ok (-1) th s' /\
    parent s' l' /\ uspace s' l' rootN own1 AN0 [] /\ l' ++ pages own1 ++ [] ≡ₚ l ++ pages ownN ++ ns /\
    forall a, outside (l ++ pages ownN ++ ns) a -> mget (km_mem s') a = mget (km_mem s) a.
Proof.
  intros Hpa Hok Hnd Hus Hpm Hout1 Hlk Hoth Hn Hlen. unfold uvmcopy_err. rewrite Z.div_mul by done.
  destruct (shrink_ok kend kend_ok 0 th s1 l1 rootN own1 AN ns Hus Hlk) as (s' & E & Hus' & Hout); [lia|].
  change (Z.of_nat 0 * PGSIZE) with 0 in *. rewrite Nat.sub_0_r, drop_0 in *.
  rewrite (unmap_copied AN0 AN ns) in Hus' by done. cbn [take] in Hus'.
  assert (Hpm' : (rev ns ++ l1) ++ pages own1 ++ [] ≡ₚ l ++ pages ownN ++ ns).
  { rewrite app_nil_r, <- Permutation_rev, <- app_assoc, Hpm, (app_assoc l). apply Permutation_app_comm. }
  assert (Hout' : forall a, outside (l ++ pages ownN ++ ns) a -> mget (km_mem s') a = mget (km_mem s) a).
  { intros a Ha. rewrite app_assoc, outside_app in Ha. destruct Ha as [Ha Hns].
    rewrite Hout; [by apply Hout1|]. rewrite <- Hpm in Ha. apply outside_app in Ha as [_ Ha]. by apply outside_app. }
  exists s', (rev ns ++ l1). rewrite (bind_ok _ _ _ _ _ _ _ E). split_and!; try done.
  eapply parent_frame; [exact Hpa|apply (vi_km _ _ _ _ _ _ (us_vm Hus'))|exact Hok|exact Hnd| |exact Hout'].
  intros x Hx. rewrite <- Hpm'. apply elem_of_app. by left.
Qed.

(** One more page copied. *)
Lemma copied_snoc s s' AN0 AN ns p f w :
  copied s AN0 AN ns -> fsO !! length ns = Some f -> AO !! (Z.of_nat (length ns) * PGSIZE) = Some w ->
  (forall n a, n ∈ ns -> in_page n a -> mget (km_mem s') a = mget (km_mem s) a) ->
  (forall a, 0 <= a < PGSIZE -> mget (km_mem s') (p + a) = mget m0 (f + a)) ->
  copied s' AN0 (<[Z.of_nat (length ns) * PGSIZE := leaf_pte p (PTE_FLAGS w)]> AN) (ns ++ [p]).
Proof.
  intros [H1 H2 H3] Hf Hw Hold Hnew. split.
  - intros i f' n a Hf' Hn Ha. apply lookup_snoc_Some in Hn as [[Hi Hn]|[-> <-]].
    + rewrite (Hold n); [by eapply H1|by eapply list_elem_of_lookup_2|unfold in_page; lia].
    + rewrite Hf in Hf'. injection Hf' as <-. by apply Hnew.
  - intros i n w' Hn Hw'. apply lookup_snoc_Some in Hn as [[Hi Hn]|[-> <-]].
    + rewrite lookup_insert_ne by (unfold PGSIZE; lia). by apply H2.
    + rewrite Hw in Hw'. injection Hw' as <-. apply lookup_insert_eq.
  - intros x Hx. rewrite length_app in Hx. assert (in_range 0 (length ns) x = false) as Hx'.
    { apply not_true_is_false. intros (i & Hi & ->)%in_range_spec. apply not_true_iff_false in Hx.
      apply Hx, in_range_spec. exists i. simpl. lia. }
    rewrite lookup_insert_ne; [by apply H3|]. intros <-. apply not_true_iff_false in Hx.
    apply Hx, in_range_spec. exists (length ns). simpl. lia.
Qed.

Lemma uvmcopy_loop_ok fuel sz ns th s l rootN ownN AN0 AN :
  parent s l -> uspace s l rootN ownN AN ns -> copied s AN0 AN ns -> LkKmem ∉ th_held th ->
  NoDup ((l ++ pages ownN ++ ns) ++ pages ownO ++ fsO) ->
  (forall x, in_range 0 (length fsO) x = true -> AN0 !! x = None) ->
  0 <= sz <= MAXVA -> Z.of_nat (length fsO) = pgcount sz ->
  (length ns <= length fsO <= length ns + fuel)%nat ->
  exists r s' l' ownN' AN' ns',
    uvmcopy_loop kend fuel rootO rootN (Z.of_nat (length ns) * PGSIZE) sz th s = Ok r th s' /\
    parent s' l' /\ uspace s' l' rootN ownN' AN' ns' /\
    l' ++ pages ownN' ++ ns' ≡ₚ l ++ pages ownN ++ ns /\
    (forall a, outside (l ++ pages ownN ++ ns) a -> mget (km_mem s') a = mget (km_mem s) a) /\
    ((r = 0 /\ copied s' AN0 AN' ns' /\ length ns' = length fsO) \/ (r = -1 /\ ns' = [] /\ AN' = AN0)).
Proof.
  intros Hpa Hus Hcp Hlk Hnd Hgap Hsz Hlen. revert ns s l ownN AN Hpa Hus Hcp Hnd.
  destruct (pgcount_eq sz Hsz) as (_ & Hc1 & Hc2). rewrite <- Hlen in *.
  induction fuel as [|fuel IH]; intros ns s l ownN AN Hpa Hus Hcp Hnd Hfuel; cbn [uvmcopy_loop];
    (destruct (Z.ltb_spec (Z.of_nat (length ns) * PGSIZE) sz) as [Hlt|Hge];
      [|exists 0, s, l, ownN, AN, ns; split_and!; try done; left; split_and!; try done; unfold PGSIZE in *; lia]).
  { exfalso. unfold PGSIZE in *. lia. }
  destruct (lookup_lt_is_Some_2 fsO (length ns)) as [f Hf]; [unfold PGSIZE in *; lia|].
  destruct (parent_entry s l th _ f Hpa Hf) as (pte & w & E & Hpte & Hw & HV & Hpf & Hfl & HAO).
  rewrite (bind_ok _ _ _ _ _ _ _ E), Hpte. unfold bind at 1, load64 at 1, gets at 1. rewrite Hw, HV.
  cbn [negb]. rewrite Hpf. clear E pte Hpte Hw.
  pose proof (vi_km _ _ _ _ _ _ (us_vm Hus)) as Hkm.
  assert (Hallok : Forall (page_ok kend) (l ++ pages ownN ++ ns)).
  { apply Forall_app. split; [apply Hkm|]. apply Forall_app.
    split; [apply (vi_pages _ _ _ _ _ _ (us_vm Hus))|apply (us_frames Hus)]. }
  destruct l as [|p l].
  { erewrite bind_ok by (by apply (kalloc_empty kend)). cbn [Z.eqb].
    destruct (uvmcopy_err_ok th s s [] [] rootN ownN ownN AN0 AN ns)
      as (s' & l' & E & Hpa' & Hus' & Hpm & Hout); try done; [apply (cp_other _ _ _ _ Hcp)|lia|].
    exists (-1), s', l', ownN, AN0, []. split_and!; try done. by right. }
  destruct (flags_perm w HV Hfl) as [Hperm Hx].
  destruct (grow_one kend kend_ok (fun m => memmove m p f PGSIZE) p (PTE_FLAGS w) th s l rootN ownN AN ns Hus Hlk)
    as (s1 & r & s3 & l3 & own3 & E1 & Hp & Hout1 & E3 & Hr); try done.
  { intros m a Ha. rewrite memmove_get by done. unfold in_page in Ha. zbool. }
  { pose proof (pa_size _ _ Hpa). unfold PGSIZE in *. lia. }
  rewrite (bind_ok _ _ _ _ _ _ _ E1), Hp. unfold bind at 1, mem_move at 1, modify at 1.
  rewrite (bind_ok _ _ _ _ _ _ _ E3). destruct Hr as
    [(-> & Hus3 & Hpm & Hin & Hout)|(-> & s4 & E4 & Hus4 & Hpm & Hout)]; cbn [negb Z.eqb].
  2: { rewrite (bind_ok _ _ _ _ _ _ _ E4).
       destruct (uvmcopy_err_ok th s s4 (p :: l) [p] rootN ownN own3 AN0 AN ns)
         as (s' & l' & E & Hpa' & Hus' & Hpm' & Hout'); try done; [apply (cp_other _ _ _ _ Hcp)|lia|].
       exists (-1), s', l', own3, AN0, []. split_and!; try done. by right. }
  assert (Hpm3 : l3 ++ pages own3 ++ ns ++ [p] ≡ₚ (p :: l) ++ pages ownN ++ ns).
  { rewrite (app_assoc (p :: l)), <- Hpm. rewrite <- Permutation_cons_append. simpl.
    by rewrite <- !Permutation_middle, <- app_assoc. }
  assert (Hout3 : forall a, outside ((p :: l) ++ pages ownN ++ ns) a -> mget (km_mem s3) a = mget (km_mem s) a).
  { intros a Ha. apply Hout. rewrite app_assoc in Ha. by apply outside_app in Ha as [? _]. }
  assert (Hpa3 : parent s3 l3).
  { eapply parent_frame; [exact Hpa|apply (vi_km _ _ _ _ _ _ (us_vm Hus3))|exact Hallok|exact Hnd| |exact Hout3].
    intros x Hx'. rewrite <- Hpm3. apply elem_of_app. by left. }
  assert (Hcp3 : copied s3 AN0 (<[Z.of_nat (length ns) * PGSIZE := leaf_pte p (PTE_FLAGS w)]> AN) (ns ++ [p])).
  { eapply copied_snoc; [exact Hcp|exact Hf|exact HAO| |].
    - intros n a Hn' Ha. apply Hout. by eapply (us_disjoint kend s).
    - intros a Ha. assert (Hap : in_page p (p + a)) by (unfold in_page; lia).
      rewrite Hin by done. rewrite memmove_get by done. replace (f + (p + a - p)) with (f + a) by lia.
      assert (Hfin : f ∈ pages ownO ++ fsO) by (apply elem_of_app; right; by eapply list_elem_of_lookup_2).
      assert (in_page f (f + a)) by (unfold in_page; lia).
      rewrite Hout1, (pa_bytes _ _ Hpa f); [zbool|done|done|].
      intros Hfa. apply NoDup_app in Hnd as (_ & Hd & _). apply (Hd f); [|done].
      pose proof (pa_ok _ _ Hpa) as HFO. rewrite Forall_lookup in HFO. simpl in Hallok.
      apply Forall_cons in Hallok as [Hpok _]. rewrite (pages_disjoint kend f p (f + a)) by eauto. by left. }
  replace (u64 (Z.of_nat (length ns) * PGSIZE + PGSIZE)) with (Z.of_nat (length (ns ++ [p])) * PGSIZE)
    by (rewrite u64_id, length_app; rewrite ?MAXVA_eq in *; simpl length; unfold PGSIZE in *; lia).
  destruct (IH (ns ++ [p]) s3 l3 own3 _ Hpa3 Hus3 Hcp3) as (r & s' & l' & ownN' & AN' & ns' & E' & Hpa' & Hus' & Hpm' & Hout' & Hr).
  { by rewrite Hpm3. }
  { rewrite length_app. simpl length. unfold PGSIZE in *. lia. }
  exists r, s', l', ownN', AN', ns'. split_and!; try done.
  - by rewrite Hpm'.
  - intros a Ha. rewrite Hout' by (by rewrite Hpm3). by apply Hout3.
Qed.


Lemma uvmcopy_ok sz th s l rootN ownN AN :
  parent s l -> uspace s l rootN ownN AN [] -> NoDup ((l ++ pages ownN) ++ pages ownO ++ fsO) ->
  LkKmem ∉ th_held th -> 0 <= sz <= MAXVA -> Z.of_nat (length fsO) = pgcount sz ->
  exists r s' l' ownN' AN' ns,
    uvmcopy kend rootO rootN sz th s = Ok r th s' /\
    parent s' l' /\ uspace s' l' rootN ownN' AN' ns /\
    l' ++ pages ownN' ++ ns ≡ₚ l ++ pages ownN /\
    (forall a, outside (l ++ pages ownN) a -> mget (km_mem s') a = mget (km_mem s) a) /\
    ((r = 0 /\ copied s' AN AN' ns /\ length ns = length fsO) \/ (r = -1 /\ ns = [] /\ AN' = AN)).
Proof.
  intros Hpa Hus Hnd Hlk Hsz Hlen. unfold uvmcopy.
  destruct (pgcount_eq sz Hsz) as (_ & Hc1 & Hc2).
  destruct (uvmcopy_loop_ok (Z.to_nat (sz / PGSIZE + 1)) sz [] th s l rootN ownN AN AN)
    as (r & s' & l' & ownN' & AN' & ns & E & Hpa' & Hus' & Hpm & Hout & Hr); rewrite ?app_nil_r; try done.
  - intros x Hx. apply (us_gap Hus). cbn [length]. apply in_range_spec in Hx as (i & Hi & ->).
    pose proof (pa_size _ _ Hpa). unfold PGSIZE in *. lia.
  - cbn [length]. pose proof (Z.div_mod sz PGSIZE ltac:(done)). pose proof (Z.mod_pos_bound sz PGSIZE ltac:(done)).
    unfold PGSIZE in *. lia.
  - rewrite app_nil_r in Hpm, Hout. exists r, s', l', ownN', AN', ns. by split_and!.
Qed.

(** C11: [uvmcopy] is all or nothing.  It returns 0 with every user page of the parent
    copied byte for byte into a page of the child at the same address and with the same
    permissions, or -1 with the child's address space as it was and every page given
    back; the parent's table and memory are untouched in both cases, and pages are
    conserved. *)
Theorem uvmcopy_copies_or_undoes sz th s l rootN ownN AN :
  parent s l -> uspace s l rootN ownN AN [] -> NoDup ((l ++ pages ownN) ++ pages ownO ++ fsO) ->
  LkKmem ∉ th_held th -> 0 <= sz <= MAXVA -> Z.of_nat (length fsO) = pgcount sz ->
  exists r s' l' ownN' AN' ns,
    uvmcopy kend rootO rootN sz th s = Ok r th s' /\
    parent s' l' /\ uspace s' l' rootN ownN' AN' ns /\
    l' ++ pages ownN' ++ ns ≡ₚ l ++ pages ownN /\
    ((r = 0 /\ copied s' AN AN' ns /\ length ns = length fsO) \/ (r = -1 /\ ns = [] /\ AN' = AN)).
Proof.
  intros Hpa Hus Hnd Hlk Hsz Hlen.
  destruct (uvmcopy_ok sz th s l rootN ownN AN) as (r & s' & l' & ownN' & AN' & ns & E & Hpa' & Hus' & Hpm & _ & Hr);
    try done.
  exists r, s', l', ownN', AN', ns. by split_and!.
Qed.

End VmFork.

(** A process and an empty page table beside it. *)
Lemma small_fork : exists s l rootO ownO AO f rootN ownN,
  parent KERNBASE (km_mem s) rootO ownO AO [f] s l /\ uspace KERNBASE s l rootN ownN ∅ [] /\
  NoDup ((l ++ pages ownN) ++ pages ownO ++ [f]).
Proof.
  destruct small_process as (s & l & root & own & A & f & [[Hus _ _] _ _] & Hl & _).
  destruct l as [|p l]; [done|]. clear Hl. pose proof (us_nodup Hus) as Hnd.
  destruct (uvmcreate_ok KERNBASE kernbase_ok p l idle_thread s (vi_km _ _ _ _ _ _ (us_vm Hus)) idle_free)
    as (s' & _ & Hvm & _ & Hout).
  assert (Hpg : pages {[ [] := p ]} = [p]) by (unfold pages; by rewrite map_to_list_singleton).
  exists s', l, root, own, A, f, p, {[ [] := p ]}. rewrite Hpg. split_and!.
  - split; try done.
    + simpl in Hnd. apply NoDup_cons in Hnd as [Hni Hnd].
      eapply vm_inv_frame; [apply (us_vm Hus)|apply (vi_km _ _ _ _ _ _ Hvm)| |].
      * rewrite app_assoc in Hnd. by apply NoDup_app in Hnd as (? & _).
      * intros q a Hq Ha. apply Hout. intros Ha'. apply Hni. rewrite !elem_of_app. right. left.
        pose proof (vi_pages _ _ _ _ _ _ (us_vm Hus)) as HP. rewrite Forall_forall in HP.
        destruct (vi_km _ _ _ _ _ _ (us_vm Hus)) as (_ & _ & HF). apply Forall_cons in HF as [Hp _].
        by rewrite <- (pages_disjoint KERNBASE q p a) by auto.
    + apply (us_mapped Hus).
    + apply (us_frames Hus).
  - by apply empty_uspace.
  - simpl in Hnd. rewrite <- (app_assoc l). simpl. by rewrite <- Permutation_middle.
Qed.

Lemma uvmcopy_copies_or_undoes_witness :
  exists s rootO rootN r s', uvmcopy KERNBASE rootO rootN PGSIZE idle_thread s = Ok r idle_thread s' /\ (r = 0 \/ r = -1).
Proof.
  destruct small_fork as (s & l & rootO & ownO & AO & f & rootN & ownN & Hpa & Hus & Hnd).
  destruct (uvmcopy_copies_or_undoes KERNBASE kernbase_ok (km_mem s) rootO ownO AO [f] PGSIZE idle_thread s l rootN ownN ∅)
    as (r & s' & l' & own' & A' & ns & E & _ & _ & _ & Hr).
  - exact Hpa.
  - exact Hus.
  - exact Hnd.
  - exact idle_free.
  - vm_compute. split; discriminate.
  - reflexivity.
  - exists s, rootO, rootN, r, s'. split; [exact E|]. destruct Hr as [(-> & _)|(-> & _)]; [left|right]; reflexivity.
Defined.
