(* ===== verification/VmCopy.v ===== *)
(** * Copying between kernel and user memory (kernel/vm.c)

    [copyin], [copyout] and [copyinstr] go through the page table by hand.  Seen from
    the user's addresses they are plain byte copies that stop at the first address the
    user could not have used. *)

From S2P Require Import Prelude Layout Memory Kalloc Vm VmMap VmUser VmFree VmLife.

(** The physical address behind a user address whose entry has all the flags [f]. *)
Definition uaddr (A : gmap Z Z) (f : Z -> bool) (va : Z) : option Z :=
  match A !! PGROUNDDOWN va with
  | Some w => if f w then Some (PTE2PA w + va mod PGSIZE) else None
  | None => None
  end.

Definition can_read (w : Z) : bool := flag w PTE_U.
Definition can_write (w : Z) : bool := flag w PTE_U && flag w PTE_W.

Lemma PGROUNDDOWN_range va : 0 <= va -> PGROUNDDOWN va <= va < PGROUNDDOWN va + PGSIZE /\
  PGROUNDDOWN va mod PGSIZE = 0 /\ 0 <= PGROUNDDOWN va /\ va - PGROUNDDOWN va = va mod PGSIZE.
Proof.
  intros Hva. rewrite PGROUNDDOWN_eq. unfold PGSIZE.
  pose proof (Z.mod_pos_bound va 4096). pose proof (Z.div_mod va 4096).
  split; [lia|]. split; [|lia]. replace (va - va mod 4096) with (va / 4096 * 4096) by lia.
  apply Z.mod_mul. lia.
Qed.

(** Addresses of one page share their entry. *)
Lemma same_page va i :
  0 <= va -> 0 <= i -> va + i < PGROUNDDOWN va + PGSIZE ->
  PGROUNDDOWN (va + i) = PGROUNDDOWN va /\ (va + i) mod PGSIZE = va mod PGSIZE + i.
Proof.
  intros Hva Hi H. rewrite !PGROUNDDOWN_eq in *. unfold PGSIZE in *.
  pose proof (Z.mod_pos_bound va 4096). pose proof (Z.div_mod va 4096).
  assert ((va + i) mod 4096 = va mod 4096 + i); [|lia].
  rewrite <- Zplus_mod_idemp_l. apply Z.mod_small. lia.
Qed.

Lemma uaddr_chunk A f va i :
  0 <= va -> 0 <= i -> va + i < PGROUNDDOWN va + PGSIZE ->
  uaddr A f (va + i) = (fun pa => pa + i) <$> uaddr A f va.
Proof.
  intros Hva Hi H. unfold uaddr. destruct (same_page va i Hva Hi H) as [-> ->].
  destruct (A !! PGROUNDDOWN va) as [w|]; [|done]. destruct (f w); [|done]. simpl. f_equal. lia.
Qed.

Section VmCopy.
Variable kend : Z.
Hypothesis kend_ok : KERNBASE <= kend <= PHYSTOP.

Notation vm_inv := (vm_inv kend).

(** A table whose user-accessible pages are frames of their own. *)
Record umem (s : kmem) (l : list Z) (root : Z) (own : gmap path Z) (A : gmap Z Z) : Prop := mkUmem {
  um_vm : vm_inv s l root own A;
  um_frame : forall x w, A !! x = Some w -> flag w PTE_U = true ->
    page_ok kend (PTE2PA w) /\ PTE2PA w ∉ l ++ pages own;
  um_inj : forall x y w w', A !! x = Some w -> A !! y = Some w' -> flag w PTE_U = true -> flag w' PTE_U = true ->
    PTE2PA w = PTE2PA w' -> x = y;
}.

(** Kernel memory that is neither free, nor part of the table, nor user memory. *)
Definition kbuf (l : list Z) (own : gmap path Z) (A : gmap Z Z) (base len : Z) : Prop :=
  forall a, base <= a < base + len -> outside (l ++ pages own) a /\
    forall x w, A !! x = Some w -> flag w PTE_U = true -> ~ in_page (PTE2PA w) a.

Lemma kbuf_suffix l own A base len n : 0 <= n -> kbuf l own A base len -> kbuf l own A (base + n) (len - n).
Proof. intros Hn H a Ha. apply H. lia. Qed.

Lemma vm_inv_outside s l root own A m' :
  vm_inv s l root own A -> (forall a, ~ outside (l ++ pages own) a -> mget m' a = mget (km_mem s) a) ->
  vm_inv (set_mem m' s) l root own A.
Proof.
  intros [H1 H2 H3 H4 H5] H.
  assert (Hext : forall p a, p ∈ l ++ pages own -> in_page p a -> mget m' a = mget (km_mem s) a).
  { intros p a Hp Ha. apply H. intros Ho. by apply (Ho p). }
  split; [|eapply ptree_ext; [|done]|eapply leafs_ext; [|done]|done|done].
  - apply (km_inv_set_mem kend kend_ok); [done|]. intros x a Hx. apply Hext. apply elem_of_app. by left.
  - intros p a Hp. apply Hext, elem_of_app. by right.
  - intros p a Hp. apply Hext, elem_of_app. by right.
Qed.

Lemma umem_outside s l root own A m' :
  umem s l root own A -> (forall a, ~ outside (l ++ pages own) a -> mget m' a = mget (km_mem s) a) ->
  umem (set_mem m' s) l root own A.
Proof. intros [H1 H2 H3] H. split; [by apply vm_inv_outside|done|done]. Qed.

Lemma leaf_V s l root own A va w : vm_inv s l root own A -> A !! va = Some w -> flag w PTE_V = true.
Proof. intros H Hw. by destruct (leaf_some _ _ _ _ _ _ _ _ H Hw) as (_ & _ & _ & ? & _). Qed.

Lemma leaf_range s l root own A va w : vm_inv s l root own A -> A !! va = Some w -> 0 <= va < MAXVA.
Proof. intros H Hw. by destruct (leaf_some _ _ _ _ _ _ _ _ H Hw) as (_ & _ & _ & _ & ? & _). Qed.

(** Looking an entry up and reading it. *)
Lemma walk_entry va th s l root own A :
  vm_inv s l root own A -> 0 <= va < MAXVA -> va mod PGSIZE = 0 ->
  exists pte, walk root va 0 th s = Ok pte th s /\
    match A !! va with
    | Some w => (pte =? 0) = false /\ ld64 (km_mem s) pte = w
    | None => (pte =? 0) = true \/ (pte =? 0) = false /\ flag (ld64 (km_mem s) pte) PTE_V = false
    end.
Proof.
  intros H Hva Hal. eexists. split; [apply (walk_read kend kend_ok _ _ _ _ _ _ _ H); lia|].
  destruct (A !! va) as [w|] eqn:Hw.
  - destruct (leaf_some _ _ _ _ _ _ _ _ H Hw) as (t & Ht & He & _). rewrite Ht.
    split; [by eapply (pte_addr_pos kend kend_ok)|done].
  - destruct (own !! rest 2 va) as [t|] eqn:Ht; [right|by left].
    split; [by eapply (pte_addr_pos kend kend_ok)|by eapply leaf_none].
Qed.

Lemma walkaddr_ok va th s l root own A :
  umem s l root own A -> 0 <= va -> va mod PGSIZE = 0 ->
  walkaddr root va th s =
  Ok (match A !! va with Some w => if flag w PTE_U then PTE2PA w else 0 | None => 0 end) th s.
Proof.
  intros Hum Hva Hal. unfold walkaddr. rewrite Z.geb_leb. destruct (Z.leb_spec MAXVA va) as [Hge|Hlt].
  - destruct (A !! va) as [w|] eqn:Hw; [|done]. apply (leaf_range _ _ _ _ _ _ _ (um_vm _ _ _ _ _ Hum)) in Hw. lia.
  - destruct (walk_entry va th s l root own A (um_vm _ _ _ _ _ Hum)) as (pte & E & Hr); [lia|done|].
    rewrite (bind_ok _ _ _ _ _ _ _ E). destruct (A !! va) as [w|] eqn:Hw.
    + destruct Hr as [-> Hld]. unfold bind, load64, gets. rewrite Hld, (leaf_V _ _ _ _ _ _ _ (um_vm _ _ _ _ _ Hum) Hw).
      cbn [negb]. by destruct (flag w PTE_U).
    + destruct Hr as [->|[-> Hf]]; [done|]. unfold bind, load64, gets. by rewrite Hf.
Qed.

(** ** [copyin] *)

(** The first [k] bytes from [va] have been brought to [dst], and nothing else has
    changed. *)
Record fetched (A : gmap Z Z) (m m' : mem) (dst va k : Z) : Prop := mkFetched {
  fe_bytes : forall i, 0 <= i < k -> exists pa, uaddr A can_read (va + i) = Some pa /\ mget m' (dst + i) = mget m pa;
  fe_other : forall a, ~ (dst <= a < dst + k) -> mget m' a = mget m a;
}.

Lemma uaddr_in_frame A f va pa : uaddr A f va = Some pa ->
  exists w, A !! PGROUNDDOWN va = Some w /\ f w = true /\ in_page (PTE2PA w) pa.
Proof.
  unfold uaddr. destruct (A !! PGROUNDDOWN va) as [w|]; [|done]. destruct (f w) eqn:Hf; [|done].
  intros [= <-]. exists w. split_and!; [done|done|].
  pose proof (Z.mod_pos_bound va PGSIZE ltac:(done)). unfold in_page. lia.
Qed.

Lemma kbuf_not_user l own A base len f va pa :
  kbuf l own A base len -> (forall w, f w = true -> flag w PTE_U = true) ->
  uaddr A f va = Some pa -> ~ (base <= pa < base + len).
Proof.
  intros H Hf (w & Hw & Hfw & Hin)%uaddr_in_frame Hpa. destruct (H pa Hpa) as [_ Hn].
  by apply (Hn _ _ Hw (Hf _ Hfw)).
Qed.

Lemma fetched_app A m m1 m2 l own len dst va n k :
  kbuf l own A dst len -> 0 <= n -> 0 <= k -> n + k <= len ->
  fetched A m m1 dst va n -> fetched A m1 m2 (dst + n) (va + n) k -> fetched A m m2 dst va (n + k).
Proof.
  intros Hb Hn Hk Hle [B1 O1] [B2 O2]. split.
  - intros i Hi. destruct (Z.lt_ge_cases i n).
    + destruct (B1 i) as (pa & Hpa & Hm); [lia|]. exists pa. split; [done|]. rewrite O2 by lia. done.
    + destruct (B2 (i - n)) as (pa & Hpa & Hm); [lia|]. exists pa.
      replace (va + n + (i - n)) with (va + i) in Hpa by lia.
      replace (dst + n + (i - n)) with (dst + i) in Hm by lia. split; [done|]. rewrite Hm. apply O1.
      intros Hin. eapply kbuf_not_user; [exact Hb| |exact Hpa|lia]. done.
  - intros a Ha. rewrite O2 by lia. apply O1. lia.
Qed.

(** One page's worth. *)
Lemma fetch_chunk l own A m dst va n pa :
  kbuf l own A dst n -> 0 <= va -> 0 <= n <= PGSIZE - (va - PGROUNDDOWN va) -> uaddr A can_read va = Some pa ->
  fetched A m (memmove m dst pa n) dst va n.
Proof.
  intros Hb Hva Hn Hpa. split.
  - intros i Hi. rewrite uaddr_chunk, Hpa by lia. exists (pa + i). split; [done|].
    rewrite memmove_get by lia. replace (pa + (dst + i - dst)) with (pa + i) by lia. zbool.
  - intros a Ha. rewrite memmove_get by lia. zbool.
Qed.

Lemma copyin_loop_ok fuel dst srcva len th s l root own A :
  umem s l root own A -> kbuf l own A dst len -> is_u64 srcva -> 0 <= len <= Z.of_nat fuel ->
  exists r k s', copyin_loop fuel root dst srcva len th s = Ok r th s' /\ umem s' l root own A /\
    0 <= k <= len /\ fetched A (km_mem s) (km_mem s') dst srcva k /\
    ((r = 0 /\ k = len) \/ (r = -1 /\ k < len /\ uaddr A can_read (srcva + k) = None)).
Proof.
  revert dst srcva len s. induction fuel as [|fuel IH]; intros dst srcva len s Hum Hb Hva Hlen;
    cbn [copyin_loop]; rewrite Z.gtb_ltb;
    (destruct (Z.ltb_spec 0 len) as [Hpos|];
      [|exists 0, 0, s; split_and!; [done|done|lia|lia|split; [lia|done]|left; split; [done|lia]]]).
  { lia. }
  destruct (PGROUNDDOWN_range srcva) as (Hr & Hal & H0 & Hoff); [lia|].
  rewrite (bind_ok _ _ _ _ _ _ _ (walkaddr_ok (PGROUNDDOWN srcva) th s l root own A Hum H0 Hal)).
  assert (Hfail : uaddr A can_read srcva = None -> exists r k s', ret (-1) th s = Ok r th s' /\ umem s' l root own A /\
    0 <= k <= len /\ fetched A (km_mem s) (km_mem s') dst srcva k /\
    ((r = 0 /\ k = len) \/ (r = -1 /\ k < len /\ uaddr A can_read (srcva + k) = None))).
  { intros Hn. exists (-1), 0, s. split_and!; [done|done|lia|lia|split; [lia|done]|].
    right. rewrite Z.add_0_r. split_and!; [done|lia|done]. }
  destruct (A !! PGROUNDDOWN srcva) as [w|] eqn:Hw; [|apply Hfail; unfold uaddr; by rewrite Hw].
  destruct (flag w PTE_U) eqn:HU; [|apply Hfail; unfold uaddr, can_read; by rewrite Hw, HU].
  destruct (um_frame _ _ _ _ _ Hum _ _ Hw HU) as [Hpok Hni].
  pose proof (page_ok_pos _ kend_ok _ Hpok). destruct (Z.eqb_spec (PTE2PA w) 0) as [|_]; [lia|].
  pose proof (leaf_range _ _ _ _ _ _ _ (um_vm _ _ _ _ _ Hum) Hw) as Hmax.
  set (n := if PGSIZE - (srcva - PGROUNDDOWN srcva) >? len then len else PGSIZE - (srcva - PGROUNDDOWN srcva)).
  assert (Hn : 0 < n <= len /\ n <= PGSIZE - (srcva - PGROUNDDOWN srcva) /\
    (n = len \/ n = PGSIZE - (srcva - PGROUNDDOWN srcva))).
  { unfold n. rewrite Z.gtb_ltb. destruct (Z.ltb_spec len (PGSIZE - (srcva - PGROUNDDOWN srcva))); lia. }
  rewrite Hoff. unfold bind at 1, mem_move at 1, modify at 1.
  assert (Hua : uaddr A can_read srcva = Some (PTE2PA w + srcva mod PGSIZE)).
  { unfold uaddr, can_read. by rewrite Hw, HU. }
  set (m1 := memmove (km_mem s) dst _ n).
  assert (Hbn : kbuf l own A dst n) by (intros a Ha; apply Hb; lia).
  assert (F1 : fetched A (km_mem s) m1 dst srcva n) by (apply (fetch_chunk l own); [done|lia|lia|done]).
  assert (Hum1 : umem (set_mem m1 s) l root own A).
  { apply umem_outside; [done|]. intros a Ha. apply (fe_other _ _ _ _ _ _ F1). intros Hin. apply Ha, Hbn. lia. }
  assert (Hnext : 0 <= PGROUNDDOWN srcva + PGSIZE < 2 ^ 64) by (rewrite MAXVA_eq in *; unfold PGSIZE in *; lia).
  rewrite u64_id by done.
  destruct (IH (dst + n) (PGROUNDDOWN srcva + PGSIZE) (len - n) (set_mem m1 s) Hum1)
    as (r & k & s' & E & Hum' & Hk & F2 & Hres); [apply kbuf_suffix; [lia|done]|done|lia|].
  destruct (Z.eq_dec n len) as [Hnl|Hnl].
  - exists r, n, s'. assert (k = 0) as -> by lia. split_and!; try done; try lia.
    rewrite <- (Z.add_0_r n). eapply (fetched_app A _ m1 _ l own len); try done; try lia.
    split; [lia|]. apply (fe_other _ _ _ _ _ _ F2).
  - assert (Hsn : srcva + n = PGROUNDDOWN srcva + PGSIZE) by lia. rewrite <- Hsn in F2, Hres.
    exists r, (n + k), s'. split_and!; try done; try lia.
    + by eapply (fetched_app A _ m1 _ l own len); try done; try lia.
    + rewrite Z.add_assoc. destruct Hres as [[-> ->]|(-> & ? & ?)]; [left; split; [done|lia]|right].
      split_and!; [done|lia|done].
Qed.

(** ** [copyout] *)

(** The first [k] bytes from [va] are those of the kernel buffer [src], and nothing
    else has changed. *)
Record stored (A : gmap Z Z) (m m' : mem) (src va k : Z) : Prop := mkStored {
  sd_bytes : forall i, 0 <= i < k -> exists pa, uaddr A can_write (va + i) = Some pa /\ mget m' pa = mget m (src + i);
  sd_other : forall a, (forall i, 0 <= i < k -> uaddr A can_write (va + i) <> Some a) -> mget m' a = mget m a;
}.

Lemma can_write_U w : can_write w = true -> flag w PTE_U = true.
Proof. by intros [? _]%andb_true_iff. Qed.

Lemma uaddr_inj s l root own A va va' pa :
  umem s l root own A -> 0 <= va -> 0 <= va' -> uaddr A can_write va = Some pa -> uaddr A can_write va' = Some pa ->
  va = va'.
Proof.
  intros Hum Hva Hva' H1 H2.
  pose proof (uaddr_in_frame _ _ _ _ H1) as (w & Hw & Hc & Hin).
  pose proof (uaddr_in_frame _ _ _ _ H2) as (w' & Hw' & Hc' & Hin').
  apply can_write_U in Hc as Hu. apply can_write_U in Hc' as Hu'.
  destruct (um_frame _ _ _ _ _ Hum _ _ Hw Hu) as [Hp _]. destruct (um_frame _ _ _ _ _ Hum _ _ Hw' Hu') as [Hp' _].
  pose proof (pages_disjoint kend _ _ _ Hp Hp' Hin Hin') as E.
  pose proof (um_inj _ _ _ _ _ Hum _ _ _ _ Hw Hw' Hu Hu' E) as E'.
  unfold uaddr in H1, H2. rewrite Hw, Hc in H1. rewrite Hw', Hc' in H2.
  destruct (PGROUNDDOWN_range va Hva) as (_ & _ & _ & Ho). destruct (PGROUNDDOWN_range va' Hva') as (_ & _ & _ & Ho').
  simplify_eq. lia.
Qed.

Lemma stored_app s l root own A m m1 m2 len src va n k :
  umem s l root own A -> kbuf l own A src len -> 0 <= va -> 0 <= n -> 0 <= k -> n + k <= len ->
  stored A m m1 src va n -> stored A m1 m2 (src + n) (va + n) k -> stored A m m2 src va (n + k).
Proof.
  intros Hum Hb Hva Hn Hk Hle [B1 O1] [B2 O2]. split.
  - intros i Hi. destruct (Z.lt_ge_cases i n).
    + destruct (B1 i) as (pa & Hpa & Hm); [lia|]. exists pa. split; [done|]. rewrite O2; [done|].
      intros j Hj E. assert (va + i = va + n + j); [|lia].
      eapply uaddr_inj; [exact Hum|lia|lia|exact Hpa|exact E].
    + destruct (B2 (i - n)) as (pa & Hpa & Hm); [lia|]. exists pa.
      replace (va + n + (i - n)) with (va + i) in Hpa by lia.
      replace (src + n + (i - n)) with (src + i) in Hm by lia. split; [done|]. rewrite Hm. apply O1.
      intros j Hj E. eapply kbuf_not_user; [exact Hb|exact can_write_U|exact E|lia].
  - intros a Ha. transitivity (mget m1 a); [apply O2|apply O1]; intros i Hi.
    + replace (va + n + i) with (va + (n + i)) by lia. apply Ha. lia.
    + apply Ha. lia.
Qed.

Lemma store_chunk A m src va n pa :
  0 <= va -> 0 <= n <= PGSIZE - (va - PGROUNDDOWN va) -> uaddr A can_write va = Some pa ->
  stored A m (memmove m pa src n) src va n.
Proof.
  intros Hva Hn Hpa. split.
  - intros i Hi. rewrite uaddr_chunk, Hpa by lia. exists (pa + i). split; [done|].
    rewrite memmove_get by lia. replace (src + (pa + i - pa)) with (src + i) by lia. zbool.
  - intros a Ha. rewrite memmove_get by lia.
    destruct (Z.leb_spec pa a), (Z.ltb_spec a (pa + n)); try done. exfalso.
    apply (Ha (a - pa)); [lia|]. rewrite uaddr_chunk, Hpa by lia. simpl. f_equal. lia.
Qed.

Lemma umem_user_write s l root own A m' w x :
  umem s l root own A -> A !! x = Some w -> flag w PTE_U = true ->
  (forall a, ~ in_page (PTE2PA w) a -> mget m' a = mget (km_mem s) a) -> umem (set_mem m' s) l root own A.
Proof.
  intros Hum Hw HU Hout. destruct (um_frame _ _ _ _ _ Hum _ _ Hw HU) as [Hp Hni].
  destruct Hum as [H1 H2 H3]. split; [|done|done]. by eapply (vm_inv_write kend kend_ok).
Qed.

Lemma copyout_loop_ok fuel dstva src len th s l root own A :
  umem s l root own A -> kbuf l own A src len -> is_u64 dstva -> 0 <= len <= Z.of_nat fuel ->
  exists r k s', copyout_loop fuel root dstva src len th s = Ok r th s' /\ umem s' l root own A /\
    0 <= k <= len /\ stored A (km_mem s) (km_mem s') src dstva k /\
    ((r = 0 /\ k = len) \/ (r = -1 /\ k < len /\ uaddr A can_write (dstva + k) = None)).
Proof.
  revert dstva src len s. induction fuel as [|fuel IH]; intros dstva src len s Hum Hb Hva Hlen;
    cbn [copyout_loop]; rewrite Z.gtb_ltb;
    (destruct (Z.ltb_spec 0 len) as [Hpos|];
      [|exists 0, 0, s; split_and!; [done|done|lia|lia|split; [lia|done]|left; split; [done|lia]]]).
  { lia. }
  destruct (PGROUNDDOWN_range dstva) as (Hr & Hal & H0 & Hoff); [lia|].
  assert (Hfail : uaddr A can_write dstva = None -> exists r k s', ret (-1) th s = Ok r th s' /\ umem s' l root own A /\
    0 <= k <= len /\ stored A (km_mem s) (km_mem s') src dstva k /\
    ((r = 0 /\ k = len) \/ (r = -1 /\ k < len /\ uaddr A can_write (dstva + k) = None))).
  { intros Hn. exists (-1), 0, s. split_and!; [done|done|lia|lia|split; [lia|done]|].
    right. rewrite Z.add_0_r. split_and!; [done|lia|done]. }
  rewrite Z.geb_leb. destruct (Z.leb_spec MAXVA (PGROUNDDOWN dstva)) as [Hge|Hmax].
  { apply Hfail. unfold uaddr. destruct (A !! PGROUNDDOWN dstva) as [w|] eqn:Hw; [|done].
    apply (leaf_range _ _ _ _ _ _ _ (um_vm _ _ _ _ _ Hum)) in Hw. lia. }
  destruct (walk_entry (PGROUNDDOWN dstva) th s l root own A (um_vm _ _ _ _ _ Hum)) as (pte & E & Hpte); [lia|done|].
  rewrite (bind_ok _ _ _ _ _ _ _ E).
  destruct (A !! PGROUNDDOWN dstva) as [w|] eqn:Hw.
  2: { destruct Hpte as [->|[-> Hf]]; [|unfold bind at 1, load64 at 1, gets at 1; rewrite Hf];
         apply Hfail; unfold uaddr; by rewrite Hw. }
  destruct Hpte as [-> Hld]. unfold bind at 1, load64 at 1, gets at 1. rewrite Hld.
  rewrite (leaf_V _ _ _ _ _ _ _ (um_vm _ _ _ _ _ Hum) Hw). cbn [negb orb].
  assert (Hua : uaddr A can_write dstva = if can_write w then Some (PTE2PA w + dstva mod PGSIZE) else None).
  { unfold uaddr. by rewrite Hw. }
  replace (negb (flag w PTE_U) || negb (flag w PTE_W)) with (negb (can_write w))
    by (unfold can_write; by destruct (flag w PTE_U), (flag w PTE_W)).
  destruct (can_write w) eqn:HC; cbn [negb]; [|by apply Hfail].
  apply can_write_U in HC as HU.
  set (n := if PGSIZE - (dstva - PGROUNDDOWN dstva) >? len then len else PGSIZE - (dstva - PGROUNDDOWN dstva)).
  assert (Hn : 0 < n <= len /\ n <= PGSIZE - (dstva - PGROUNDDOWN dstva) /\
    (n = len \/ n = PGSIZE - (dstva - PGROUNDDOWN dstva))).
  { unfold n. rewrite Z.gtb_ltb. destruct (Z.ltb_spec len (PGSIZE - (dstva - PGROUNDDOWN dstva))); lia. }
  rewrite Hoff. unfold bind at 1, mem_move at 1, modify at 1. set (m1 := memmove (km_mem s) _ src n).
  assert (F1 : stored A (km_mem s) m1 src dstva n) by (apply store_chunk; [lia|lia|done]).
  assert (Hum1 : umem (set_mem m1 s) l root own A).
  { eapply umem_user_write; [done|exact Hw|done|]. intros a Ha. unfold m1. rewrite memmove_get by lia.
    unfold in_page in Ha. pose proof (Z.mod_pos_bound dstva PGSIZE ltac:(done)). rewrite Hoff in Hn. zbool. }
  assert (Hnext : 0 <= PGROUNDDOWN dstva + PGSIZE < 2 ^ 64) by (rewrite MAXVA_eq in *; unfold PGSIZE in *; lia).
  rewrite u64_id by done.
  destruct (IH (PGROUNDDOWN dstva + PGSIZE) (src + n) (len - n) (set_mem m1 s) Hum1)
    as (r & k & s' & E' & Hum' & Hk & F2 & Hres); [apply kbuf_suffix; [lia|done]|done|lia|].
  destruct (Z.eq_dec n len) as [Hnl|Hnl].
  - exists r, n, s'. assert (k = 0) as -> by lia. split_and!; try done; try lia.
    rewrite <- (Z.add_0_r n). eapply (stored_app s l root own A _ m1 _ len); try done; try lia.
    split; [lia|]. intros a Ha. apply (sd_other _ _ _ _ _ _ F2). lia.
  - assert (Hsn : dstva + n = PGROUNDDOWN dstva + PGSIZE) by lia. rewrite <- Hsn in F2, Hres.
    exists r, (n + k), s'. split_and!; try done; try lia.
    + by eapply (stored_app s l root own A _ m1 _ len); try done; try lia.
    + rewrite Z.add_assoc. destruct Hres as [[-> ->]|(-> & ? & ?)]; [left; split; [done|lia]|right].
      split_and!; [done|lia|done].
Qed.

(** ** [copyinstr] *)

(** [copy_until_nul] copies [j] bytes that are not NUL, and the NUL if it met one. *)
Lemma copy_until_nul_ok n p dst max th s :
  (forall a, p <= a < p + Z.of_nat n -> ~ (dst <= a < dst + Z.of_nat n)) ->
  exists b j s', copy_until_nul n p dst max th s = Ok (b, max - j, dst + j) th s' /\
    0 <= j /\ j + Z.b2z b <= Z.of_nat n /\ (b = false -> j = Z.of_nat n) /\
    (forall i, 0 <= i < j -> mget (km_mem s) (p + i) <> 0) /\ (b = true -> mget (km_mem s) (p + j) = 0) /\
    (forall i, 0 <= i < j + Z.b2z b -> mget (km_mem s') (dst + i) = mget (km_mem s) (p + i)) /\
    (forall a, ~ (dst <= a < dst + (j + Z.b2z b)) -> mget (km_mem s') a = mget (km_mem s) a) /\
    km_freelist s' = km_freelist s.
Proof.
  revert p dst max s. induction n as [|n IH]; intros p dst max s Hd; cbn [copy_until_nul].
  { exists false, 0, s. rewrite Z.sub_0_r, Z.add_0_r. split_and!; try done; try lia. intros i Hi. simpl in Hi. lia. }
  unfold bind at 1, gets at 1. destruct (Z.eqb_spec (mget (km_mem s) p) 0) as [Hc|Hc].
  - unfold bind, modify, ret. exists true, 0. eexists. rewrite Z.sub_0_r, !Z.add_0_r.
    split_and!; [done|done|simpl; lia|done|intros i Hi; lia|done| | |done]; cbn [km_mem set_mem Z.b2z].
    + intros i Hi. assert (i = 0) as -> by lia. rewrite !Z.add_0_r, mget_mset, Z.eqb_refl, Hc. done.
    + intros a Ha. rewrite mget_mset. zbool.
  - unfold bind at 1, modify at 1. set (s1 := set_mem _ s).
    destruct (IH (p + 1) (dst + 1) (max - 1) s1) as (b & j & s' & E & Hj & Hjb & Hf & Hnz & Hz & Hb & Ho & Hfl).
    { intros a Ha. specialize (Hd a). lia. }
    assert (Hb2z : 0 <= Z.b2z b <= 1) by (destruct b; simpl; lia).
    assert (Hs1 : forall i, 0 <= i < Z.of_nat n -> mget (km_mem s1) (p + 1 + i) = mget (km_mem s) (p + (i + 1))).
    { intros i Hi. unfold s1. cbn [km_mem set_mem]. rewrite mget_mset.
      replace (p + 1 + i) with (p + (i + 1)) by lia. specialize (Hd (p + (i + 1))). zbool. }
    exists b, (j + 1), s'. rewrite E. split_and!; try lia.
    + f_equal. f_equal; [f_equal|]; lia.
    + intros H. apply Hf in H. lia.
    + intros i Hi. destruct (Z.eq_dec i 0) as [->|]; [by rewrite Z.add_0_r|].
      replace i with (i - 1 + 1) by lia. rewrite <- Hs1 by lia. apply Hnz. lia.
    + intros ->. simpl in Hjb. rewrite <- Hs1 by lia. by apply Hz.
    + intros i Hi. destruct (Z.eq_dec i 0) as [->|].
      * rewrite !Z.add_0_r, Ho by lia. unfold s1. cbn [km_mem set_mem].
        rewrite mget_mset, Z.eqb_refl. apply u8_id, mget_range.
      * replace (dst + i) with (dst + 1 + (i - 1)) by lia. rewrite Hb by lia. rewrite Hs1 by lia. f_equal. lia.
    + intros a Ha. rewrite Ho by lia. unfold s1. cbn [km_mem set_mem]. rewrite mget_mset.
      destruct (Z.eqb_spec a dst) as [->|]; [|done]. lia.
    + done.
Qed.

(** No NUL among the first [k] bytes at [va]. *)
Definition no_nul (A : gmap Z Z) (m : mem) (va k : Z) : Prop :=
  forall i pa, 0 <= i < k -> uaddr A can_read (va + i) = Some pa -> mget m pa <> 0.

Lemma copyinstr_loop_ok fuel dst srcva max th s l root own A :
  umem s l root own A -> kbuf l own A dst max -> is_u64 srcva -> 0 <= max <= Z.of_nat fuel ->
  exists r k s', copyinstr_loop fuel root dst srcva max false th s = Ok r th s' /\ umem s' l root own A /\
    0 <= k /\ no_nul A (km_mem s) srcva k /\
    ((r = 0 /\ k < max /\ fetched A (km_mem s) (km_mem s') dst srcva (k + 1) /\ mget (km_mem s') (dst + k) = 0) \/
     (r = -1 /\ k <= max /\ fetched A (km_mem s) (km_mem s') dst srcva k /\
        (k = max \/ uaddr A can_read (srcva + k) = None))).
Proof.
  revert dst srcva max s. induction fuel as [|fuel IH]; intros dst srcva max s Hum Hb Hva Hlen;
    cbn [copyinstr_loop negb andb]; rewrite Z.gtb_ltb;
    (destruct (Z.ltb_spec 0 max) as [Hpos|];
      [|exists (-1), 0, s; split_and!; [done|done|lia|intros ? ? ?; lia|right; split_and!; [done|lia|split; [lia|done]|left; lia]]]).
  { lia. }
  destruct (PGROUNDDOWN_range srcva) as (Hr & Hal & H0 & Hoff); [lia|].
  rewrite (bind_ok _ _ _ _ _ _ _ (walkaddr_ok (PGROUNDDOWN srcva) th s l root own A Hum H0 Hal)).
  destruct (uaddr A can_read srcva) as [pa|] eqn:Hua.
  2: { exists (-1), 0, s. unfold uaddr, can_read in Hua. destruct (A !! PGROUNDDOWN srcva) as [w|] eqn:Hw;
         [destruct (flag w PTE_U) eqn:HU; [done|]|]; cbn [Z.eqb];
       (split_and!; [done|done|lia|intros ? ? ?; lia|right; split_and!; [done|lia|split; [lia|done]|right]]);
       unfold uaddr, can_read; rewrite Z.add_0_r, Hw; try done; by rewrite HU. }
  destruct (uaddr_in_frame _ _ _ _ Hua) as (w & Hw & HU & _). unfold can_read in HU. rewrite Hw, HU.
  destruct (um_frame _ _ _ _ _ Hum _ _ Hw HU) as [Hpok Hni].
  pose proof (page_ok_pos _ kend_ok _ Hpok). destruct (Z.eqb_spec (PTE2PA w) 0) as [|_]; [lia|].
  pose proof (leaf_range _ _ _ _ _ _ _ (um_vm _ _ _ _ _ Hum) Hw) as Hmax.
  assert (Hpa : PTE2PA w + (srcva - PGROUNDDOWN srcva) = pa).
  { unfold uaddr, can_read in Hua. rewrite Hw, HU in Hua. rewrite Hoff. by injection Hua. }
  set (n := if PGSIZE - (srcva - PGROUNDDOWN srcva) >? max then max else PGSIZE - (srcva - PGROUNDDOWN srcva)).
  assert (Hn : 0 < n <= max /\ n <= PGSIZE - (srcva - PGROUNDDOWN srcva) /\
    (n = max \/ n = PGSIZE - (srcva - PGROUNDDOWN srcva))).
  { unfold n. rewrite Z.gtb_ltb. destruct (Z.ltb_spec max (PGSIZE - (srcva - PGROUNDDOWN srcva))); lia. }
  rewrite Hpa. assert (Hch : forall i, 0 <= i < n -> uaddr A can_read (srcva + i) = Some (pa + i)).
  { intros i Hi. by rewrite uaddr_chunk, Hua by lia. }
  destruct (copy_until_nul_ok (Z.to_nat n) pa dst max th s)
    as (b & j & s1 & E & Hj & Hjb & Hf & Hnz & Hz & Hbytes & Ho & Hfl).
  { intros a Ha Hin. eapply (kbuf_not_user l own A dst max can_read); [done|done|apply (Hch (a - pa)); lia|lia]. }
  rewrite Z2Nat.id in * by lia. rewrite (bind_ok _ _ _ _ _ _ _ E).
  assert (F1 : fetched A (km_mem s) (km_mem s1) dst srcva (j + Z.b2z b)).
  { split; [|done]. intros i Hi. exists (pa + i). split; [apply Hch; lia|by apply Hbytes]. }
  assert (Hn1 : no_nul A (km_mem s) srcva j).
  { intros i pa' Hi Hpa'. rewrite Hch in Hpa' by (destruct b; simpl in Hjb; lia). injection Hpa' as <-. by apply Hnz. }
  assert (Hum1 : umem s1 l root own A).
  { replace s1 with (set_mem (km_mem s1) s) by (unfold set_mem; rewrite <- Hfl; by destruct s1).
    apply umem_outside; [done|]. intros a Ha. apply Ho. intros Hin. apply Ha, Hb. destruct b; simpl in *; lia. }
  clear E. destruct b; cbn [Z.b2z] in *.
  - exists 0, j, s1. split_and!; try done.
    + by destruct fuel.
    + left. split_and!; [done|lia|done|]. rewrite Hbytes by lia. by apply Hz.
  - rewrite Z.add_0_r in F1. assert (Hjn : j = n) by (by apply Hf). subst j.
    assert (Hnext : 0 <= PGROUNDDOWN srcva + PGSIZE < 2 ^ 64) by (rewrite MAXVA_eq in *; unfold PGSIZE in *; lia).
    rewrite u64_id by done.
    destruct (IH (dst + n) (PGROUNDDOWN srcva + PGSIZE) (max - n) s1 Hum1)
      as (r & k & s' & E' & Hum' & Hk & Hn2 & Hres); [apply kbuf_suffix; [lia|done]|done|lia|].
    exists r. destruct (Z.eq_dec n max) as [Hnm|Hnm].
    + exists n, s'. assert (k = 0) as -> by (destruct Hres as [(_ & ? & _)|(_ & ? & _)]; lia).
      split_and!; [done|done|lia|done|]. right.
      destruct Hres as [(_ & ? & _)|(-> & _ & F2 & _)]; [lia|]. split_and!; [done|lia| |by left].
      rewrite <- (Z.add_0_r n). eapply (fetched_app A _ (km_mem s1) _ l own max); try done; try lia.
      split; [lia|]. apply (fe_other _ _ _ _ _ _ F2).
    + assert (Hsn : srcva + n = PGROUNDDOWN srcva + PGSIZE) by lia. rewrite <- Hsn in *.
      assert (Hno : no_nul A (km_mem s) srcva (n + k)).
      { intros i pa' Hi Hpa'. destruct (Z.lt_ge_cases i n); [apply (Hn1 i); [lia|done]|].
        replace (srcva + i) with (srcva + n + (i - n)) in Hpa' by lia.
        rewrite <- (fe_other _ _ _ _ _ _ F1); [apply (Hn2 (i - n)); [lia|done]|].
        intros Hin. eapply (kbuf_not_user l own A dst max can_read); [done|done|exact Hpa'|lia]. }
      exists (n + k), s'. split_and!; [done|done|lia|done|].
      destruct Hres as [(-> & ? & F2 & Hz')|(-> & ? & F2 & Hz')]; [left|right].
      * split_and!; [done|lia| |by rewrite Z.add_assoc].
        rewrite <- Z.add_assoc. by eapply (fetched_app A _ (km_mem s1) _ l own max); try done; try lia.
      * split_and!; [done|lia| |destruct Hz' as [Hk'|Hk']; [left; lia|right; by rewrite Z.add_assoc]].
        by eapply (fetched_app A _ (km_mem s1) _ l own max); try done; try lia.
Qed.


(** ** Round trip *)

(** C31: what [copyout] puts into user memory, [copyin] brings back.  [copyout] returns
    0 exactly when every byte of the range is mapped, writable and accessible to the
    user, and -1 otherwise; after a return of 0, [copyin] of the same range into any
    kernel buffer returns 0 and delivers the bytes that were at [src]. *)
Theorem copyout_copyin_roundtrip dstva src dst len th s l root own A :
  umem s l root own A -> kbuf l own A src len -> kbuf l own A dst len -> is_u64 dstva -> 0 <= len ->
  exists r s1, copyout root dstva src len th s = Ok r th s1 /\ umem s1 l root own A /\
    ((r = 0 /\ (forall i, 0 <= i < len -> uaddr A can_write (dstva + i) <> None) /\
      exists s2, copyin root dst dstva len th s1 = Ok 0 th s2 /\ umem s2 l root own A /\
        (forall i, 0 <= i < len -> mget (km_mem s2) (dst + i) = mget (km_mem s) (src + i)) /\
        (forall a, ~ (dst <= a < dst + len) -> mget (km_mem s2) a = mget (km_mem s1) a)) \/
     (r = -1 /\ exists i, 0 <= i < len /\ uaddr A can_write (dstva + i) = None)).
Proof.
  intros Hum Hsrc Hdst Hva Hlen. unfold copyout, copyin.
  destruct (copyout_loop_ok (Z.to_nat len) dstva src len th s l root own A Hum Hsrc Hva)
    as (r & k & s1 & E1 & Hum1 & Hk & [B1 O1] & Hr); [lia|].
  exists r, s1. split_and!; [done|done|].
  destruct Hr as [[-> ->]|(-> & Hlt & Hn)]; [left|right; split; [done|exists k; split; [lia|done]]].
  assert (Hall : forall i, 0 <= i < len -> exists pa, uaddr A can_read (dstva + i) = Some pa /\
            mget (km_mem s1) pa = mget (km_mem s) (src + i)).
  { intros i Hi. destruct (B1 i Hi) as (pa & Hpa & Hm). exists pa. split; [|done].
    unfold uaddr in *. destruct (A !! PGROUNDDOWN (dstva + i)) as [w|]; [|done].
    destruct (can_write w) eqn:HC; [|done]. apply can_write_U in HC. unfold can_read. by rewrite HC. }
  split; [done|]. split; [intros i Hi; destruct (B1 i Hi) as (pa & -> & _); done|].
  destruct (copyin_loop_ok (Z.to_nat len) dst dstva len th s1 l root own A Hum1 Hdst Hva)
    as (r2 & k2 & s2 & E2 & Hum2 & Hk2 & [B2 O2] & Hr2); [lia|].
  destruct Hr2 as [[-> ->]|(_ & Hlt & Hn)].
  - exists s2. split_and!; try done. intros i Hi. destruct (B2 i Hi) as (pa & Hpa & ->).
    destruct (Hall i Hi) as (pa' & Hpa' & Hm). congruence.
  - destruct (Hall k2) as (pa & Hpa & _); [lia|congruence].
Qed.

(** [copyinstr] returns 0 exactly when a NUL is found within [max] bytes of
    readable user memory, and then the kernel buffer holds the string up to and
    including that NUL; otherwise it returns -1, having stopped at [max] bytes without
    a NUL or at an unreadable address.  No kernel memory outside the first [max] bytes
    of the buffer changes. *)
Theorem copyinstr_fetches_string dst srcva max th s l root own A :
  umem s l root own A -> kbuf l own A dst max -> is_u64 srcva -> 0 <= max ->
  exists r k s', copyinstr root dst srcva max th s = Ok r th s' /\ umem s' l root own A /\ 0 <= k /\
    no_nul A (km_mem s) srcva k /\
    (forall a, ~ (dst <= a < dst + max) -> mget (km_mem s') a = mget (km_mem s) a) /\
    ((r = 0 /\ k < max /\ mget (km_mem s') (dst + k) = 0 /\
      forall i, 0 <= i <= k -> exists pa, uaddr A can_read (srcva + i) = Some pa /\
        mget (km_mem s') (dst + i) = mget (km_mem s) pa) \/
     (r = -1 /\ (k = max \/ uaddr A can_read (srcva + k) = None))).
Proof.
  intros Hum Hb Hva Hmax. unfold copyinstr.
  destruct (copyinstr_loop_ok (Z.to_nat max) dst srcva max th s l root own A Hum Hb Hva)
    as (r & k & s' & E & Hum' & Hk & Hno & Hr); [lia|].
  exists r, k, s'. split_and!; try done.
  - intros a Ha. destruct Hr as [(_ & ? & F & _)|(_ & ? & F & _)]; apply (fe_other _ _ _ _ _ _ F); lia.
  - destruct Hr as [(-> & ? & F & Hz)|(-> & ? & F & Hz)]; [left|by right].
    split_and!; try done. intros i Hi. apply (fe_bytes _ _ _ _ _ _ F). lia.
Qed.

(** ** The address space of a process *)

Lemma leaf_pte_U p perm : frame_addr p -> 0 <= perm < 1024 ->
  flag (leaf_pte p perm) PTE_U = flag (Z.lor perm PTE_V) PTE_U.
Proof.
  intros (H1 & H2 & H3) Hperm. unfold flag. f_equal.
  destruct (leaf_pte_eq p perm) as (_ & _ & _ & HF); [unfold PGSIZE in *; lia|done|done|].
  rewrite <- HF. unfold PTE_FLAGS. by rewrite <- Z.land_assoc.
Qed.

(** The entries the user can use are those of the user frames. *)
Lemma proc_space_user tramp tf s l root own A fs x w :
  proc_space kend tramp tf s l root own A fs -> frame_addr tramp -> frame_addr tf ->
  A !! x = Some w -> flag w PTE_U = true ->
  exists i f, x = Z.of_nat i * PGSIZE /\ fs !! i = Some f /\ PTE2PA w = f.
Proof.
  intros [Hus H1 H2] Htr Htf Hw HU.
  destruct (leaf_some _ _ _ _ _ _ _ _ (us_vm Hus) Hw) as (_ & _ & _ & _ & Hx & Hal).
  assert (x < TRAPFRAME).
  { apply Z.nle_gt. intros Hge. assert (x = TRAPFRAME \/ x = TRAMPOLINE) as [-> | ->].
    - unfold TRAPFRAME, TRAMPOLINE in *. rewrite MAXVA_eq in *. unfold PGSIZE in *. pose proof (Z.div_mod x 4096). lia.
    - rewrite H2 in Hw. injection Hw as <-. by rewrite leaf_pte_U in HU.
    - rewrite H1 in Hw. injection Hw as <-. by rewrite leaf_pte_U in HU. }
  assert (x < Z.of_nat (length fs) * PGSIZE).
  { apply Z.nle_gt. intros Hge. rewrite (us_gap Hus) in Hw; [done|lia]. }
  destruct (lookup_lt_is_Some_2 fs (Z.to_nat (x / PGSIZE))) as [f Hf].
  { unfold PGSIZE in *. pose proof (Z.div_mod x 4096). pose proof (Z.div_pos x 4096). lia. }
  assert (Hxi : x = Z.of_nat (Z.to_nat (x / PGSIZE)) * PGSIZE).
  { unfold PGSIZE in *. pose proof (Z.div_mod x 4096). pose proof (Z.div_pos x 4096). lia. }
  exists (Z.to_nat (x / PGSIZE)), f. split_and!; [done|done|].
  destruct (us_mapped Hus _ _ Hf) as (w' & Hw' & Hp & _). rewrite Z.add_0_l, <- Hxi, Hw in Hw'. by injection Hw' as <-.
Qed.

Lemma proc_space_umem tramp tf s l root own A fs :
  proc_space kend tramp tf s l root own A fs -> frame_addr tramp -> frame_addr tf -> umem s l root own A.
Proof.
  intros Hps Htr Htf. pose proof Hps as [Hus H1 H2]. pose proof (us_nodup Hus) as Hnd. rewrite app_assoc in Hnd.
  apply NoDup_app in Hnd as (_ & Hd & Hnd).
  pose proof (fun x w => proc_space_user tramp tf s l root own A fs x w Hps Htr Htf) as Huser.
  split.
  - apply (us_vm Hus).
  - intros x w Hw HU. destruct (Huser x w Hw HU) as (i & f & _ & Hf & ->).
    pose proof (us_frames Hus) as HF. rewrite Forall_lookup in HF. split; [by eapply HF|].
    intros Hin. apply (Hd f Hin). by eapply list_elem_of_lookup_2.
  - intros x y w w' Hw Hw' HU HU' E. destruct (Huser x w Hw HU) as (i & f & -> & Hf & Ef).
    destruct (Huser y w' Hw' HU') as (j & g & -> & Hg & Eg).
    assert (f = g) as -> by congruence. do 2 f_equal. by eapply NoDup_lookup.
Qed.

(** Kernel memory below the allocator's pages. *)
Lemma low_kbuf s l root own A base len : umem s l root own A -> base + len <= kend -> kbuf l own A base len.
Proof.
  intros Hum Hle a Ha. split.
  - intros p Hp Hin. assert (Hok : page_ok kend p).
    { apply elem_of_app in Hp as [Hp|Hp].
      - destruct (vi_km _ _ _ _ _ _ (um_vm _ _ _ _ _ Hum)) as (_ & _ & HF). by eapply Forall_forall in HF.
      - pose proof (vi_pages _ _ _ _ _ _ (um_vm _ _ _ _ _ Hum)) as HF. by eapply Forall_forall in HF. }
    destruct Hok as [_ ?]. unfold in_page in Hin. lia.
  - intros x w Hw HU Hin. destruct (um_frame _ _ _ _ _ Hum x w Hw HU) as [[_ ?] _]. unfold in_page in Hin. lia.
Qed.

End VmCopy.

Lemma small_umem : exists s l root own A, umem KERNBASE s l root own A.
Proof.
  destruct small_process as (s & l & root & own & A & f & [Hps _ _] & _).
  exists s, l, root, own, A. by apply (proc_space_umem KERNBASE KERNBASE KERNBASE _ _ _ _ _ [f]).
Qed.

Lemma copyout_copyin_roundtrip_witness :
  exists s root r s1, copyout root 100 2000 8 idle_thread s = Ok r idle_thread s1 /\ (r = 0 \/ r = -1).
Proof.
  destruct small_umem as (s & l & root & own & A & Hum).
  destruct (copyout_copyin_roundtrip KERNBASE kernbase_ok 100 2000 3000 8 idle_thread s l root own A)
    as (r & s1 & E & _ & Hr).
  - exact Hum.
  - apply (low_kbuf KERNBASE s l root own A); [exact Hum|vm_compute; discriminate].
  - apply (low_kbuf KERNBASE s l root own A); [exact Hum|vm_compute; discriminate].
  - lia.
  - lia.
  - exists s, root, r, s1. split; [exact E|]. destruct Hr as [(-> & _)|(-> & _)]; [left|right]; reflexivity.
Defined.

Lemma copyinstr_fetches_string_witness :
  exists s root r s1, copyinstr root 2000 100 8 idle_thread s = Ok r idle_thread s1 /\ (r = 0 \/ r = -1).
Proof.
  destruct small_umem as (s & l & root & own & A & Hum).
  destruct (copyinstr_fetches_string KERNBASE kernbase_ok 2000 100 8 idle_thread s l root own A)
    as (r & k & s1 & E & _ & _ & _ & _ & Hr).
  - exact Hum.
  - apply (low_kbuf KERNBASE s l root own A); [exact Hum|vm_compute; discriminate].
  - lia.
  - lia.
  - exists s, root, r, s1. split; [exact E|]. destruct Hr as [(-> & _)|(-> & _)]; [left|right]; reflexivity.
Defined.
