(* ===== verification/VmKernel.v ===== *)
(** * The kernel page table (kernel/vm.c: kvmmake; kernel/proc.c: proc_mapstacks)

    Booting builds a direct map of the devices and of RAM, with the text read-only and
    executable and the data not executable, the trampoline at the top, and one stack
    per process below it, each above an unmapped guard page. *)

From S2P Require Import Prelude Layout Memory Kalloc Vm VmMap VmUser VmFree VmLife.

(** The entry the kernel's table should have for a page, when process [i]'s stack is
    the page [stacks !! i]. *)
Definition stack_index (va : Z) : Z := (TRAMPOLINE - va) / (2 * PGSIZE) - 1.

Definition kernel_pte (etext trampoline : Z) (stacks : list Z) (va : Z) : option Z :=
  if (va =? UART0) || (va =? VIRTIO0) || ((PLIC <=? va) && (va <? PLIC + 0x4000000)) then Some (leaf_pte va RW)
  else if (KERNBASE <=? va) && (va <? etext) then Some (leaf_pte va RX)
  else if (etext <=? va) && (va <? PHYSTOP) then Some (leaf_pte va RW)
  else if va =? TRAMPOLINE then Some (leaf_pte trampoline RX)
  else if (0 <=? stack_index va) && (va =? KSTACK (stack_index va))
  then (fun p => leaf_pte p RW) <$> stacks !! Z.to_nat (stack_index va)
  else None.

(** The pages of the table: every page of the kernel's mappings lies under one of
    these paths. *)
Definition kernel_paths : list path :=
  [[]; [0]; [2]; [255]; [255; 511]] ++ ((fun i => [0; i]) <$> seqZ 96 33) ++ ((fun i => [2; i]) <$> seqZ 0 64).

Lemma rest_div x i j :
  0 <= x -> 0 <= i < 512 -> 0 <= j < 512 ->
  (i * 512 + j) * 2 ^ 21 <= x < (i * 512 + j + 1) * 2 ^ 21 -> rest 2 x = [i; j].
Proof.
  intros Hx Hi Hj Hb. unfold rest. rewrite !PX_eq by lia.
  change (PXSHIFT (Z.of_nat 2)) with 30. change (PXSHIFT (Z.of_nat 1)) with 21.
  assert (x / 2 ^ 21 = i * 512 + j) as E by (symmetry; apply (Z.div_unique x (2 ^ 21) _ (x - (i * 512 + j) * 2 ^ 21)); lia).
  change (2 ^ 30) with (2 ^ 21 * 512). rewrite <- Z.div_div, E by lia.
  rewrite Z.div_add_l, (Z.div_small j) by lia. rewrite Z.add_0_r, Z.mod_small by lia.
  rewrite Z.add_comm, Z.mod_add, Z.mod_small by lia. done.
Qed.

Lemma kernel_paths_low i : 96 <= i < 129 -> [0] ∈ kernel_paths /\ [0; i] ∈ kernel_paths.
Proof.
  intros Hi. unfold kernel_paths. rewrite !elem_of_app, !list_elem_of_fmap. split; [left; set_solver|].
  right. left. exists i. rewrite elem_of_seqZ. split; [done|lia].
Qed.
Lemma kernel_paths_ram i : 0 <= i < 64 -> [2] ∈ kernel_paths /\ [2; i] ∈ kernel_paths.
Proof.
  intros Hi. unfold kernel_paths. rewrite !elem_of_app, !list_elem_of_fmap. split; [left; set_solver|].
  right. right. exists i. rewrite elem_of_seqZ. split; [done|lia].
Qed.
Lemma kernel_paths_top : [] ∈ kernel_paths /\ [255] ∈ kernel_paths /\ [255; 511] ∈ kernel_paths.
Proof. unfold kernel_paths. rewrite !elem_of_app. split_and!; left; set_solver. Qed.

(** The regions the kernel maps. *)
Definition kernel_va (x : Z) : Prop :=
  PLIC <= x < VIRTIO0 + PGSIZE \/ KERNBASE <= x < PHYSTOP \/ MAXVA - 2 ^ 21 <= x < MAXVA.

Lemma kernel_va_path x q : kernel_va x -> on_path x q -> q ∈ kernel_paths.
Proof.
  intros Hx Hq.
  assert (exists i j, rest 2 x = [i; j] /\ [i] ∈ kernel_paths /\ [i; j] ∈ kernel_paths) as (i & j & E & H1 & H2).
  { pose proof (Z.div_mod x (2 ^ 21)). pose proof (Z.mod_pos_bound x (2 ^ 21)).
    destruct Hx as [Hx|[Hx|Hx]]; unfold PLIC, VIRTIO0, PGSIZE, KERNBASE, PHYSTOP in *; rewrite ?MAXVA_eq in *.
    - exists 0, (x / 2 ^ 21). split; [apply rest_div; lia|]. apply kernel_paths_low. lia.
    - exists 2, (x / 2 ^ 21 - 1024). split; [apply rest_div; unfold KERNBASE in *; lia|]. apply kernel_paths_ram. unfold KERNBASE in *. lia.
    - exists 255, 511. split; [apply rest_div; lia|]. apply kernel_paths_top. }
  destruct Hq as [-> | ->]; rewrite E; done.
Qed.

Fixpoint map_stacks (A : gmap Z Z) (p : Z) (ps : list Z) : gmap Z Z :=
  match ps with
  | [] => A
  | q :: ps' => map_stacks (<[KSTACK p := leaf_pte q RW]> A) (p + 1) ps'
  end.

Lemma KSTACK_eq p : KSTACK p = 2 ^ 38 - 4096 - (p + 1) * 8192.
Proof. unfold KSTACK, TRAMPOLINE. rewrite MAXVA_eq. unfold PGSIZE. lia. Qed.

Lemma map_stacks_lookup_ne A p ps x :
  (forall i, p <= i < p + Z.of_nat (length ps) -> x <> KSTACK i) -> map_stacks A p ps !! x = A !! x.
Proof.
  revert A p. induction ps as [|q ps IH]; intros A p H; [done|]. cbn [map_stacks length] in *.
  rewrite IH by (intros i Hi; apply H; lia). apply lookup_insert_ne. intros <-. by apply (H p); [lia|].
Qed.

Lemma map_stacks_lookup A p ps i q :
  0 <= p -> ps !! i = Some q -> map_stacks A p ps !! KSTACK (p + Z.of_nat i) = Some (leaf_pte q RW).
Proof.
  revert A p i. induction ps as [|q' ps IH]; intros A p i Hp Hi; [done|]. destruct i as [|i].
  - injection Hi as ->. rewrite Z.add_0_r. cbn [map_stacks]. rewrite map_stacks_lookup_ne.
    + apply lookup_insert_eq.
    + intros j Hj. rewrite !KSTACK_eq. lia.
  - cbn [map_stacks]. replace (p + Z.of_nat (S i)) with (p + 1 + Z.of_nat i) by lia. apply IH; [lia|done].
Qed.

Lemma in_range_bounds va n x : in_range va n x = true -> va <= x < va + Z.of_nat n * PGSIZE.
Proof. intros (i & Hi & ->)%in_range_spec. unfold PGSIZE. lia. Qed.
Lemma in_range_out va n x : x < va \/ va + Z.of_nat n * PGSIZE <= x -> in_range va n x = false.
Proof. intros H. apply not_true_is_false. intros Hx%in_range_bounds. lia. Qed.
Lemma in_range_in va n x :
  va <= x < va + Z.of_nat n * PGSIZE -> va mod PGSIZE = 0 -> x mod PGSIZE = 0 -> in_range va n x = true.
Proof.
  intros Hx Hva Hal. unfold in_range. rewrite Zminus_mod, Hva, Hal, !andb_true_iff, Z.leb_le, Z.ltb_lt.
  split_and!; [lia|lia|done].
Qed.

Section VmKernel.
Variable kend : Z.
Hypothesis kend_ok : KERNBASE <= kend <= PHYSTOP.

Notation vm_inv := (vm_inv kend).

(** A table under construction whose pages stay under [kernel_paths], with at least
    [need] pages to spare when it is complete. *)
Record building (need : nat) (s : kmem) (l : list Z) (root : Z) (own : gmap path Z) (A : gmap Z Z) : Prop :=
  mkBuilding {
  bu_vm : vm_inv s l root own A;
  bu_paths : forall q, is_Some (own !! q) -> q ∈ kernel_paths;
  bu_room : (length kernel_paths + need <= length l + length (pages own))%nat;
}.

Lemma length_pages own : length (pages own) = length (map_to_list own).*1.
Proof. unfold pages. by rewrite !length_fmap. Qed.

Lemma paths_length own P :
  (forall q, is_Some (own !! q) -> q ∈ P) -> (length (pages own) <= length P)%nat /\
  forall q, own !! q = None -> q ∈ P -> (length (pages own) < length P)%nat.
Proof.
  intros H. rewrite length_pages. assert (Hk : NoDup (map_to_list own).*1) by apply NoDup_fst_map_to_list.
  assert (Hin : forall q, q ∈ (map_to_list own).*1 -> is_Some (own !! q)).
  { intros q (kv & -> & Hkv)%list_elem_of_fmap. destruct kv as [q' p]. apply elem_of_map_to_list in Hkv. by exists p. }
  split.
  - apply submseteq_length, NoDup_submseteq; [done|]. intros q Hq. by apply H, Hin.
  - intros q Hn HP. apply (submseteq_length (q :: _)), NoDup_submseteq.
    + constructor; [|done]. intros Hq. apply Hin in Hq as [p Hp]. congruence.
    + intros q' [->|Hq']%elem_of_cons; [done|]. by apply H, Hin.
Qed.

Lemma grows_length s s' l l' own own' :
  grows s s' l l' own own' -> (length l' + length (pages own') = length l + length (pages own))%nat.
Proof. intros H. rewrite <- !length_app. apply Permutation_length, (gr_perm _ _ _ _ _ _ H). Qed.

Lemma kvmmap_ok n va pa perm need th s l root own A :
  building need s l root own A -> LkKmem ∉ th_held th -> (0 < n)%nat -> 0 <= perm < 1024 ->
  0 <= va -> va mod PGSIZE = 0 -> va + Z.of_nat n * PGSIZE <= MAXVA ->
  0 <= pa -> pa mod PGSIZE = 0 -> pa + Z.of_nat n * PGSIZE <= 2 ^ 56 ->
  (forall x, in_range va n x = true -> A !! x = None) ->
  (forall x q, in_range va n x = true -> on_path x q -> q ∈ kernel_paths) ->
  exists s' l' own', kvmmap root va pa (Z.of_nat n * PGSIZE) perm th s = Ok tt th s' /\
    building need s' l' root own' (map_range A va pa perm n) /\ grows s s' l l' own own'.
Proof.
  intros Hb Hlk Hn Hperm Hva Hal Hmax Hpa Hpal Hpmax Hfree HP.
  destruct (mappages_ok kend kend_ok n va pa perm th s l root own A (bu_vm _ _ _ _ _ _ Hb))
    as (r & j & s' & l' & own' & E & Hvm & Hgr & Hdom & Hr); try done.
  assert (Hpaths : forall q : path, is_Some (own' !! q) -> q ∈ kernel_paths).
  { intros q Hq. destruct (Hdom q Hq) as [Hq'|(x & Hx & Hon)]; [by apply (bu_paths _ _ _ _ _ _ Hb)|by eapply HP]. }
  pose proof (grows_length _ _ _ _ _ _ Hgr) as Hlen. pose proof (bu_room _ _ _ _ _ _ Hb) as Hroom.
  destruct (paths_length own' _ Hpaths) as [_ Hlt].
  unfold kvmmap. rewrite (bind_ok _ _ _ _ _ _ _ E).
  destruct Hr as [[-> ->]|(-> & Hj & -> & Hnone)].
  - exists s', l', own'. split_and!; [done| |done]. split; [done|done|lia].
  - exfalso. assert (rest 2 (va + Z.of_nat j * PGSIZE) ∈ kernel_paths) as Hin.
    { eapply (HP (va + Z.of_nat j * PGSIZE)); [|by right]. apply in_range_spec. eauto. }
    specialize (Hlt _ Hnone Hin). cbn [length] in Hlen. lia.
Qed.

(** Taking a page for a stack. *)
Lemma take_page need th s l root own A :
  building (S need) s l root own A -> LkKmem ∉ th_held th ->
  exists p l' s', l = p :: l' /\ kalloc th s = Ok p th s' /\ building need s' l' root own A /\ page_ok kend p /\
    p ∉ l' ++ pages own /\ (p =? 0) = false /\
    forall a, ~ in_page p a -> mget (km_mem s') a = mget (km_mem s) a.
Proof.
  intros [H1 H2 H3] Hlk. destruct (paths_length own _ H2) as [Hle _]. destruct l as [|p l]; [cbn [length] in H3; lia|].
  destruct (kalloc_vm kend kend_ok p l th s root own A H1 Hlk) as (s' & E & Hvm & Hp & Hni & Hout).
  pose proof (page_ok_pos _ kend_ok _ Hp).
  exists p, l, s'. split_and!; try done; [|zbool]. split; [done|done|]. cbn [length] in H3. lia.
Qed.

Lemma mapstacks_ok k p th s l root own A :
  building k s l root own A -> LkKmem ∉ th_held th -> 0 <= p -> p + Z.of_nat k = 64 ->
  (forall i, p <= i < 64 -> A !! KSTACK i = None) ->
  exists ps s' l' own', proc_mapstacks_loop k p root th s = Ok tt th s' /\ length ps = k /\
    building 0 s' l' root own' (map_stacks A p ps) /\ Forall (page_ok kend) ps /\
    l' ++ pages own' ++ ps ≡ₚ l ++ pages own /\
    forall a, outside (l ++ pages own) a -> mget (km_mem s') a = mget (km_mem s) a.
Proof.
  revert p s l own A. induction k as [|k IH]; intros p s l own A Hb Hlk Hp Hk Hfree.
  { exists [], s, l, own. by rewrite app_nil_r. }
  cbn [proc_mapstacks_loop].
  destruct (take_page k th s l root own A Hb Hlk) as (q & l1 & s1 & -> & E1 & Hb1 & Hq & Hni & Hq0 & Hout1).
  rewrite (bind_ok _ _ _ _ _ _ _ E1), Hq0. destruct (page_ok_frame kend kend_ok q Hq) as (F1 & F2 & F3).
  assert (HK : 0 <= KSTACK p /\ KSTACK p mod PGSIZE = 0 /\ MAXVA - 2 ^ 21 <= KSTACK p /\ KSTACK p + PGSIZE <= MAXVA).
  { rewrite KSTACK_eq, MAXVA_eq. unfold PGSIZE. split_and!; try lia.
    replace (2 ^ 38 - 4096 - (p + 1) * 8192) with ((2 ^ 26 - 1 - (p + 1) * 2) * 4096) by lia. apply Z.mod_mul. lia. }
  destruct HK as (K1 & K2 & K3 & K4).
  destruct (kvmmap_ok 1 (KSTACK p) q RW k th s1 l1 root own A Hb1) as (s2 & l2 & own2 & E2 & Hb2 & Hgr2); try done.
  { lia. }
  { intros x (i & Hi & ->)%in_range_spec. assert (i = 0%nat) as -> by lia. rewrite Z.mul_0_l, Z.add_0_r. apply Hfree. lia. }
  { intros x q' Hx%in_range_bounds. apply kernel_va_path. right. right. unfold PGSIZE in *. lia. }
  change (Z.of_nat 1 * PGSIZE) with PGSIZE in E2. rewrite (bind_ok _ _ _ _ _ _ _ E2).
  destruct (IH (p + 1) s2 l2 own2 _ Hb2) as (ps & s' & l' & own' & E & Hlen & Hb' & HF & Hpm & Hout); [done|lia|lia| |].
  { intros i Hi. cbn [map_range]. rewrite lookup_insert_ne; [apply Hfree; lia|]. rewrite !KSTACK_eq. lia. }
  exists (q :: ps), s', l', own'. split_and!; [done|by rewrite <- Hlen|done|by constructor| |].
  - rewrite !app_assoc, <- Permutation_middle, <- !app_assoc, Hpm, (gr_perm _ _ _ _ _ _ Hgr2). done.
  - intros a Ha. simpl in Ha. apply outside_cons in Ha as [Ha1 Ha2].
    rewrite Hout by (by rewrite (gr_perm _ _ _ _ _ _ Hgr2)).
    rewrite (gr_out _ _ _ _ _ _ Hgr2) by done. by apply Hout1.
Qed.

Lemma new_root_ok l th s :
  km_inv kend s l -> LkKmem ∉ th_held th -> (length kernel_paths + 64 <= length l)%nat ->
  exists p l' s1 s2, l = p :: l' /\ kalloc th s = Ok p th s1 /\ mem_set p 0 PGSIZE th s1 = Ok tt th s2 /\
    building 64 s2 l' p {[ [] := p ]} ∅ /\ forall a, ~ in_page p a -> mget (km_mem s2) a = mget (km_mem s) a.
Proof.
  intros Hkm Hlk Hlen. destruct l as [|p l]; [cbn [length] in Hlen; lia|].
  destruct (uvmcreate_ok kend kend_ok p l th s Hkm Hlk) as (s2 & E & Hvm & Hp & Hout).
  destruct (kalloc_ok kend kend_ok p l th s Hkm Hlk) as (s1 & E1 & _).
  unfold uvmcreate in E. rewrite (bind_ok _ _ _ _ _ _ _ E1) in E. destruct (Z.eqb_spec p 0); [done|].
  exists p, l, s1, s2. split_and!; try done.
  - unfold bind, mem_set, modify, ret in *. by injection E as <-.
  - split; [done| |].
    + intros q [x [<- _]%lookup_singleton_Some]. apply kernel_paths_top.
    + unfold pages. rewrite map_to_list_singleton. cbn [length fmap list_fmap] in *. lia.
Qed.

Variables etext trampoline : Z.
Hypothesis etext_ok : etext mod PGSIZE = 0 /\ KERNBASE < etext < PHYSTOP.
Hypothesis trampoline_ok : frame_addr trampoline.

Definition plic_pages : nat := Z.to_nat (0x4000000 / PGSIZE).
Definition text_pages : nat := Z.to_nat ((etext - KERNBASE) / PGSIZE).
Definition data_pages : nat := Z.to_nat ((PHYSTOP - etext) / PGSIZE).

Lemma region_sizes : Z.of_nat plic_pages * PGSIZE = 0x4000000 /\
  Z.of_nat text_pages * PGSIZE = etext - KERNBASE /\ Z.of_nat data_pages * PGSIZE = PHYSTOP - etext.
Proof.
  destruct etext_ok as [H1 H2]. unfold plic_pages, text_pages, data_pages. split; [done|].
  unfold KERNBASE, PHYSTOP, PGSIZE in *.
  pose proof (Z.div_mod etext 4096). pose proof (Z.div_mod (etext - 2147483648) 4096).
  pose proof (Z.div_mod (2147483648 + 128 * 1024 * 1024 - etext) 4096).
  pose proof (Z.mod_pos_bound (etext - 2147483648) 4096).
  pose proof (Z.mod_pos_bound (2147483648 + 128 * 1024 * 1024 - etext) 4096).
  pose proof (Z.div_pos (etext - 2147483648) 4096). pose proof (Z.div_pos (2147483648 + 128 * 1024 * 1024 - etext) 4096).
  unfold KERNBASE in *. lia.
Qed.

#[local] Opaque plic_pages text_pages data_pages.

(** The mappings [kvmmake] makes, in its order. *)
Definition kernel_map (stacks : list Z) : gmap Z Z :=
  let A := map_range ∅ UART0 UART0 RW 1 in
  let A := map_range A VIRTIO0 VIRTIO0 RW 1 in
  let A := map_range A PLIC PLIC RW plic_pages in
  let A := map_range A KERNBASE KERNBASE RX text_pages in
  let A := map_range A etext etext RW data_pages in
  let A := map_range A TRAMPOLINE trampoline RX 1 in
  map_stacks A 0 stacks.

Lemma in_range_aligned va n x : va mod PGSIZE = 0 -> x mod PGSIZE = 0 ->
  in_range va n x = (va <=? x) && (x <? va + Z.of_nat n * PGSIZE).
Proof.
  intros H1 H2. destruct (in_range va n x) eqn:E.
  - apply in_range_bounds in E. symmetry. rewrite andb_true_iff, Z.leb_le, Z.ltb_lt. lia.
  - symmetry. apply not_true_is_false. rewrite andb_true_iff, Z.leb_le, Z.ltb_lt. intros H.
    by rewrite in_range_in in E.
Qed.

Lemma one_in_range va x : in_range va 1 x = (x =? va).
Proof. by rewrite in_range_S, in_range_0, orb_false_r. Qed.

Lemma stack_index_KSTACK i : stack_index (KSTACK i) = i.
Proof.
  unfold stack_index, KSTACK. replace (TRAMPOLINE - (TRAMPOLINE - (i + 1) * 2 * PGSIZE)) with ((i + 1) * (2 * PGSIZE)) by lia.
  rewrite Z.div_mul by done. lia.
Qed.

(** Everything but the stacks. *)
Lemma fixed_map_lookup va :
  va mod PGSIZE = 0 -> kernel_map [] !! va = kernel_pte etext trampoline [] va.
Proof.
  intros Hal. destruct region_sizes as (S1 & S2 & S3). destruct etext_ok as [He1 He2].
  unfold kernel_map, kernel_pte. cbn [map_stacks]. rewrite lookup_nil. cbn [fmap option_fmap option_map].
  rewrite !map_range_lookup, !one_in_range, !in_range_aligned, S1, S2, S3 by done.
  replace (KERNBASE + (etext - KERNBASE)) with etext by lia. replace (etext + (PHYSTOP - etext)) with PHYSTOP by lia.
  unfold TRAMPOLINE. rewrite MAXVA_eq. unfold PLIC, UART0, VIRTIO0, KERNBASE, PHYSTOP, PGSIZE in *.
  assert (Hid : forall x, x + (va - x) = va) by (intros; lia). rewrite !Hid.
  destruct (Z.eqb_spec va (2 ^ 38 - 4096)) as [->|].
  { rewrite Z.sub_diag, Z.add_0_r. by destruct (Z.leb_spec etext (2 ^ 38 - 4096)), (Z.ltb_spec (2 ^ 38 - 4096) etext); try (unfold KERNBASE in *; lia). }
  destruct (Z.leb_spec etext va), (Z.ltb_spec va (2147483648 + 128 * 1024 * 1024));
    destruct (Z.leb_spec 2147483648 va), (Z.ltb_spec va etext); cbn [andb]; try (unfold KERNBASE in *; lia);
    destruct (Z.leb_spec 201326592 va), (Z.ltb_spec va (201326592 + 67108864)); cbn [andb]; try (unfold KERNBASE in *; lia);
    destruct (Z.eqb_spec va 268435456), (Z.eqb_spec va 268439552); cbn [andb orb]; try (unfold KERNBASE in *; lia);
    rewrite ?lookup_empty; by try destruct (_ && _).
Qed.

Lemma kernel_map_lookup stacks va :
  length stacks = NPROC -> va mod PGSIZE = 0 ->
  kernel_map stacks !! va = kernel_pte etext trampoline stacks va.
Proof.
  intros Hlen Hal. change NPROC with 64%nat in Hlen. destruct etext_ok as [_ He].
  destruct (decide (0 <= stack_index va < 64 /\ va = KSTACK (stack_index va))) as [[Hi Hv]|Hn].
  - destruct (lookup_lt_is_Some_2 stacks (Z.to_nat (stack_index va))) as [q Hq]; [lia|].
    set (i := stack_index va) in *. unfold kernel_pte. fold i.
    assert (Hk : kernel_map stacks !! va = Some (leaf_pte q RW)).
    { rewrite Hv. replace i with (0 + Z.of_nat (Z.to_nat i)) by lia. by apply map_stacks_lookup. }
    rewrite Hk, Hq. assert (Hb : va = 2 ^ 38 - 4096 - (i + 1) * 8192) by (by rewrite <- KSTACK_eq).
    unfold UART0, VIRTIO0, PLIC, TRAMPOLINE, PHYSTOP, KERNBASE, PGSIZE in *. rewrite MAXVA_eq in *.
    destruct (Z.eqb_spec va 268435456), (Z.eqb_spec va 268439552), (Z.ltb_spec va (201326592 + 67108864)),
      (Z.ltb_spec va etext), (Z.ltb_spec va (2147483648 + 128 * 1024 * 1024)), (Z.eqb_spec va (2 ^ 38 - 4096)),
      (Z.leb_spec 0 i), (Z.eqb_spec va (KSTACK i)); try lia; try done. by rewrite !andb_false_r.
  - transitivity (kernel_map [] !! va).
    { apply map_stacks_lookup_ne. intros i Hi ->. rewrite stack_index_KSTACK in Hn. apply Hn. split; [lia|done]. }
    rewrite fixed_map_lookup by done. unfold kernel_pte.
    destruct ((0 <=? stack_index va) && (va =? KSTACK (stack_index va))) eqn:E; [|done].
    apply andb_true_iff in E as [E1%Z.leb_le E2%Z.eqb_eq]. rewrite (lookup_ge_None_2 stacks); [done|].
    destruct (Z.lt_ge_cases (stack_index va) 64); [exfalso; apply Hn; split; [lia|done]|lia].
Qed.

Lemma RW_perm : 0 <= RW < 1024.
Proof. done. Qed.
Lemma RX_perm : 0 <= RX < 1024.
Proof. done. Qed.

(** One region, identified by its bounds. *)
Lemma region_ok n va pa perm th s l root own A sz :
  building 64 s l root own A -> LkKmem ∉ th_held th -> 0 <= perm < 1024 -> Z.of_nat n * PGSIZE = sz -> 0 < sz ->
  va mod PGSIZE = 0 ->
  (PLIC <= va /\ va + sz <= VIRTIO0 + PGSIZE \/ KERNBASE <= va /\ va + sz <= PHYSTOP \/
   MAXVA - 2 ^ 21 <= va /\ va + sz <= MAXVA) ->
  0 <= pa -> pa mod PGSIZE = 0 -> pa + sz <= 2 ^ 56 ->
  (forall x, va <= x < va + sz -> A !! x = None) ->
  exists s' l' own', kvmmap root va pa sz perm th s = Ok tt th s' /\
    building 64 s' l' root own' (map_range A va pa perm n) /\ grows s s' l l' own own'.
Proof.
  intros Hb Hlk Hperm <- Hsz Hal Hr Hpa Hpal Hpm Hfree.
  apply kvmmap_ok; try done.
  - unfold PGSIZE in *. lia.
  - unfold PLIC, KERNBASE in *. rewrite MAXVA_eq in *. lia.
  - unfold VIRTIO0, PHYSTOP, KERNBASE, PGSIZE in *. rewrite MAXVA_eq in *. lia.
  - intros x Hx%in_range_bounds. by apply Hfree.
  - intros x q Hx%in_range_bounds. apply kernel_va_path. unfold kernel_va. lia.
Qed.

Lemma map_range_free A va pa perm n sz x :
  Z.of_nat n * PGSIZE = sz -> x < va \/ va + sz <= x -> A !! x = None -> map_range A va pa perm n !! x = None.
Proof. intros <- Hx HA. by rewrite map_range_lookup, in_range_out. Qed.

Ltac region :=
  unfold UART0, VIRTIO0, PLIC, TRAMPOLINE, PHYSTOP, KERNBASE, PGSIZE in *; lia.
Ltac map_region :=
  match goal with
  | |- forall x, _ -> _ !! _ = None =>
      intros x Hx; rewrite ?KSTACK_eq in *;
      repeat (lazymatch goal with
      | |- map_range ?A ?va ?pa ?perm 1 !! ?y = None =>
          apply (map_range_free A va pa perm 1 PGSIZE y eq_refl); [region|]
      | H : Z.of_nat ?n * PGSIZE = ?sz |- map_range ?A ?va ?pa ?perm ?n !! ?y = None =>
          apply (map_range_free A va pa perm n sz y H); [region|]
      end);
      apply lookup_empty
  | |- _ mod _ = 0 => first [assumption|reflexivity]
  | |- Z.of_nat 1 * _ = _ => reflexivity
  | |- _ => try region
  end.

Lemma guard_unmapped stacks i : 0 <= i < 64 -> kernel_pte etext trampoline stacks (KSTACK i - PGSIZE) = None.
Proof.
  intros Hi. destruct etext_ok as [_ He]. unfold kernel_pte.
  assert (Hs : stack_index (KSTACK i - PGSIZE) = i).
  { unfold stack_index, KSTACK.
    replace (TRAMPOLINE - (TRAMPOLINE - (i + 1) * 2 * PGSIZE - PGSIZE)) with ((i + 1) * (2 * PGSIZE) + PGSIZE) by lia.
    rewrite Z.div_add_l by done. change (PGSIZE / (2 * PGSIZE)) with 0. lia. }
  rewrite Hs. pose proof (KSTACK_eq i) as HK. set (va := KSTACK i - PGSIZE) in *.
  assert (Hva : va = 2 ^ 38 - 8192 - (i + 1) * 8192) by (unfold va, PGSIZE in *; lia).
  unfold UART0, VIRTIO0, PLIC, TRAMPOLINE, PHYSTOP, KERNBASE, PGSIZE in *. rewrite MAXVA_eq in *.
  destruct (Z.eqb_spec va 268435456), (Z.eqb_spec va 268439552), (Z.ltb_spec va (201326592 + 67108864)),
    (Z.ltb_spec va etext), (Z.ltb_spec va (2147483648 + 128 * 1024 * 1024)), (Z.eqb_spec va (2 ^ 38 - 4096)),
    (Z.eqb_spec va (KSTACK i)); try lia. by rewrite !andb_false_r.
Qed.

(** C30: given 166 free pages, [kvmmake] returns a page table that maps exactly what
    the kernel needs: for every page of the address space the entry is the one
    [kernel_pte] prescribes, so that devices and RAM are mapped to themselves, text is
    not writable and data not executable, and the page below each kernel stack is not
    mapped.  Every page it takes is either part of the table or one of the 64 stacks. *)
Theorem kvmmake_maps_kernel th s l :
  km_inv kend s l -> LkKmem ∉ th_held th -> (166 <= length l)%nat ->
  exists root s' l' own A stacks, kvmmake etext trampoline th s = Ok root th s' /\
    vm_inv s' l' root own A /\ length stacks = NPROC /\ l' ++ pages own ++ stacks ≡ₚ l /\
    (forall va, va mod PGSIZE = 0 -> A !! va = kernel_pte etext trampoline stacks va) /\
    (forall i, 0 <= i < 64 -> A !! (KSTACK i - PGSIZE) = None) /\
    forall a, outside l a -> mget (km_mem s') a = mget (km_mem s) a.
Proof.
  intros Hkm Hlk Hlen. destruct region_sizes as (S1 & S2 & S3). destruct etext_ok as [He1 He2].
  destruct (new_root_ok l th s Hkm Hlk Hlen) as (root & l1 & s0 & s1 & -> & E0 & E1 & Hb1 & Hout1).
  unfold kvmmake. rewrite (bind_ok _ _ _ _ _ _ _ E0), (bind_ok _ _ _ _ _ _ _ E1).
  assert (HM : MAXVA = 2 ^ 38) by done.
  destruct (region_ok 1 UART0 UART0 RW th s1 l1 root _ _ PGSIZE Hb1 Hlk RW_perm)
    as (s2 & l2 & o2 & E2 & Hb2 & G2); map_region.
  rewrite (bind_ok _ _ _ _ _ _ _ E2).
  destruct (region_ok 1 VIRTIO0 VIRTIO0 RW th s2 l2 root _ _ PGSIZE Hb2 Hlk RW_perm)
    as (s3 & l3 & o3 & E3 & Hb3 & G3); map_region.
  rewrite (bind_ok _ _ _ _ _ _ _ E3).
  destruct (region_ok plic_pages PLIC PLIC RW th s3 l3 root _ _ 0x4000000 Hb3 Hlk RW_perm S1)
    as (s4 & l4 & o4 & E4 & Hb4 & G4); map_region.
  rewrite (bind_ok _ _ _ _ _ _ _ E4).
  destruct (region_ok text_pages KERNBASE KERNBASE RX th s4 l4 root _ _ _ Hb4 Hlk RX_perm S2)
    as (s5 & l5 & o5 & E5 & Hb5 & G5); map_region.
  rewrite (bind_ok _ _ _ _ _ _ _ E5).
  destruct (region_ok data_pages etext etext RW th s5 l5 root _ _ _ Hb5 Hlk RW_perm S3)
    as (s6 & l6 & o6 & E6 & Hb6 & G6); map_region.
  rewrite (bind_ok _ _ _ _ _ _ _ E6).
  destruct trampoline_ok as (T1 & T2 & T3).
  destruct (region_ok 1 TRAMPOLINE trampoline RX th s6 l6 root _ _ PGSIZE Hb6 Hlk RX_perm)
    as (s7 & l7 & o7 & E7 & Hb7 & G7); map_region.
  rewrite (bind_ok _ _ _ _ _ _ _ E7).
  destruct (mapstacks_ok 64 0 th s7 l7 root _ _ Hb7 Hlk) as (stacks & s8 & l8 & o8 & E8 & Hst & Hb8 & _ & Hpm & Hout); map_region.
  change (proc_mapstacks root) with (proc_mapstacks_loop 64 0 root). rewrite (bind_ok _ _ _ _ _ _ _ E8).
  assert (G : grows s1 s7 l1 l7 {[ [] := root ]} o7) by (repeat (eapply grows_trans; [eassumption|]); apply grows_refl).
  assert (Hroot : l1 ++ pages {[ [] := root ]} ≡ₚ root :: l1).
  { unfold pages. rewrite map_to_list_singleton. symmetry. apply Permutation_cons_append. }
  exists root, s8, l8, o8, (kernel_map stacks), stacks. split_and!; [done|apply (bu_vm _ _ _ _ _ _ Hb8)|done| | | |].
  - by rewrite Hpm, (gr_perm _ _ _ _ _ _ G).
  - intros va Hal. by apply kernel_map_lookup.
  - intros i Hi. rewrite kernel_map_lookup; [by apply guard_unmapped|done|].
    rewrite KSTACK_eq. unfold PGSIZE. replace (2 ^ 38 - 4096 - (i + 1) * 8192 - 4096) with ((2 ^ 26 - 2 - (i + 1) * 2) * 4096) by lia.
    apply Z.mod_mul. lia.
  - intros a Ha. rewrite Hout by (by rewrite (gr_perm _ _ _ _ _ _ G), Hroot).
    rewrite (gr_out _ _ _ _ _ _ G) by (by rewrite Hroot). apply Hout1, Ha. by left.
Qed.


End VmKernel.

(** The free list at boot is long enough. *)
Lemma boot_memory : exists s l, km_inv KERNBASE s l /\ (166 <= length l)%nat.
Proof.
  destruct (freerange_loop_ok KERNBASE kernbase_ok (Z.to_nat 32769) KERNBASE [] idle_thread (mkKmem ∅ 0))
    as (s & l & _ & Hkm & Hl).
  - by split_and!; [|constructor|constructor].
  - done.
  - done.
  - by intros x ?%elem_of_nil.
  - rewrite Z2Nat.id by lia. done.
  - exact idle_free.
  - exists s, l. split; [done|]. transitivity (length ((fun i => KERNBASE + i * PGSIZE) <$> seqZ 0 166)).
    { by rewrite length_fmap, length_seqZ. }
    apply submseteq_length, NoDup_submseteq.
    + apply NoDup_fmap_2_strong; [|apply NoDup_seqZ]. intros x y _ _ E. unfold PGSIZE in E. lia.
    + intros x (i & -> & Hi%elem_of_seqZ)%list_elem_of_fmap. apply Hl. right. split; [split|].
      * replace (KERNBASE + i * PGSIZE) with ((524288 + i) * PGSIZE) by (unfold KERNBASE, PGSIZE; lia). by apply Z.mod_mul.
      * unfold PHYSTOP, PGSIZE. lia.
      * unfold PGSIZE. lia.
Qed.

Lemma kvmmake_maps_kernel_witness :
  exists s root s', kvmmake (KERNBASE + PGSIZE) KERNBASE idle_thread s = Ok root idle_thread s'.
Proof.
  destruct boot_memory as (s & l & Hkm & Hlen).
  destruct (kvmmake_maps_kernel KERNBASE kernbase_ok (KERNBASE + PGSIZE) KERNBASE)
    with (th := idle_thread) (s := s) (l := l) as (root & s' & l' & own & A & stacks & E & _).
  - split; [reflexivity|]. unfold PHYSTOP, PGSIZE. lia.
  - exact kernbase_frame.
  - exact Hkm.
  - exact idle_free.
  - exact Hlen.
  - exists s, root, s'. exact E.
Defined.
