(* ===== verification/Ring.v ===== *)
(** * Ring buffers

    The pipe, the console input and the UART output all keep a power-of-two byte
    array indexed by two free-running unsigned counters.  This file proves, once,
    that such a ring is a queue: [content] is the queue's content, writing at the
    write index appends and advancing the read index drops the head, whatever
    number of times the counters have wrapped. *)

From S2P Require Import Prelude.

Section Ring.
Variable N : Z.
Hypothesis N_pos : 0 < N.

(** [buf[i % N]]. *)
Definition rget (buf : list Z) (i : Z) : Z := default 0 (buf !! Z.to_nat (i mod N)).
(** [buf[i % N] = c], a [char] store. *)
Definition rset (buf : list Z) (i c : Z) : list Z := <[Z.to_nat (i mod N) := u8 c]> buf.

(** The [n] bytes from index [r] on. *)
Definition content (buf : list Z) (r : Z) (n : nat) : list Z :=
  (fun i => rget buf (r + Z.of_nat i)) <$> seq 0 n.

Lemma length_rset buf i c : length (rset buf i c) = length buf.
Proof. apply length_insert. Qed.

Lemma rget_rset buf i j c :
  Z.of_nat (length buf) = N ->
  rget (rset buf i c) j = if j mod N =? i mod N then u8 c else rget buf j.
Proof.
  intros Hlen. pose proof (Z.mod_pos_bound i N N_pos). pose proof (Z.mod_pos_bound j N N_pos).
  unfold rget, rset. destruct (Z.eqb_spec (j mod N) (i mod N)) as [->|Hne].
  - by rewrite list_lookup_insert_eq by lia.
  - by rewrite list_lookup_insert_ne by lia.
Qed.

Lemma length_content buf r n : length (content buf r n) = n.
Proof. unfold content. by rewrite length_fmap, length_seq. Qed.

Lemma content_0 buf r : content buf r 0 = [].
Proof. done. Qed.

Lemma content_ext buf buf' r r' n :
  (forall i, 0 <= i < Z.of_nat n -> rget buf (r + i) = rget buf' (r' + i)) ->
  content buf r n = content buf' r' n.
Proof.
  intros H. unfold content. apply list_fmap_ext. intros i x Hx.
  apply lookup_seq in Hx as [-> ?]. apply H. lia.
Qed.

Lemma content_mod buf r r' n : r mod N = r' mod N -> content buf r n = content buf r' n.
Proof.
  intros H. apply content_ext. intros i _. unfold rget.
  by rewrite <- Zplus_mod_idemp_l, H, Zplus_mod_idemp_l.
Qed.

Lemma content_S buf r n : content buf r (S n) = rget buf r :: content buf (r + 1) n.
Proof.
  unfold content. simpl. f_equal; [f_equal; lia|].
  rewrite <- (fmap_S_seq 0 n), <- list_fmap_compose.
  apply list_fmap_ext. intros i x _. simpl. f_equal. lia.
Qed.

Lemma content_snoc buf r n : content buf r (S n) = content buf r n ++ [rget buf (r + Z.of_nat n)].
Proof. unfold content. rewrite seq_S, fmap_app. done. Qed.

(** Appending to a ring that is not full. *)
Lemma content_push buf r n c :
  Z.of_nat (length buf) = N -> Z.of_nat n < N ->
  content (rset buf (r + Z.of_nat n) c) r (S n) = content buf r n ++ [u8 c].
Proof.
  intros Hlen Hn. rewrite content_snoc. f_equal.
  - apply content_ext. intros i Hi. rewrite rget_rset by done.
    destruct (Z.eqb_spec ((r + i) mod N) ((r + Z.of_nat n) mod N)) as [E|]; [|done].
    exfalso. assert (((r + Z.of_nat n) - (r + i)) mod N = 0) as H0.
    { by rewrite Zminus_mod, E, Z.sub_diag, Zmod_0_l. }
    replace (r + Z.of_nat n - (r + i)) with (Z.of_nat n - i) in H0 by lia.
    rewrite Z.mod_small in H0; lia.
  - by rewrite rget_rset, Z.eqb_refl.
Qed.

(** Counters of width [w]: a ring size that divides the counter range makes the
    wrap of the counter invisible. *)
Lemma mod_wrap x w : 0 <= w -> (N | 2 ^ w) -> (x mod 2 ^ w) mod N = x mod N.
Proof.
  intros Hw [k Hk]. assert (0 < 2 ^ w) by (apply Z.pow_pos_nonneg; lia).
  assert (0 < k) by nia.
  rewrite Hk, Z.mul_comm, Z.rem_mul_r by lia.
  by rewrite Z.mul_comm, Z.mod_add, Z.mod_mod by lia.
Qed.

Lemma rget_mod buf i j : i mod N = j mod N -> rget buf i = rget buf j.
Proof. unfold rget. by intros ->. Qed.
Lemma rset_mod buf i j c : i mod N = j mod N -> rset buf i c = rset buf j c.
Proof. unfold rset. by intros ->. Qed.
End Ring.
