(* ===== verification/Pipe.v ===== *)
(** * Pipes (kernel/pipe.c)

    [pipewrite] and [piperead] run under the pipe's lock and give it up only when
    they return or sleep, so one such stretch is one step of the system.  A
    stretch ends in [Done r] (the call returned [r]) or [Asleep i] (it sleeps with
    its loop counter at [i] and starts again from the loop head when woken).  The
    system at the end of the file interleaves the stretches of any number of
    processes with [pipeclose] and [kill]. *)

From S2P Require Import Prelude Layout Memory Kalloc Ring.

Definition PIPESIZE : Z := 512.

Record pipe := mkPipe {
  pp_data : list Z;
  pp_nread : Z;
  pp_nwrite : Z;
  pp_readopen : Z;
  pp_writeopen : Z;
}.

(** What pipe.c uses of the calling process's address space: one-byte [copyin]
    ([None]: -1) and [copyout] ([false]: -1). *)
Class UserByte := { ucopyin : Z -> option Z; ucopyout : Z -> Z -> bool }.

(** The copies a call makes, as the calling process sees them: a byte fetched from an
    address, and a byte stored at one or refused by [copyout]. *)
Inductive uevent := CopiedIn (a ch : Z) | CopiedOut (a ch : Z) (ok : bool).

(** The pipe, and the copies made so far. *)
Record pio := mkPio { pio_pipe : pipe; pio_ev : list uevent }.

Inductive pres := Done (r : Z) | Asleep (i : Z).

(** The part of [pipealloc] that initialises the pipe, on a page just allocated. *)
Definition pipe_setup (data : list Z) : pipe := mkPipe data 0 0 1 1.

Definition pipe_put (ch : Z) (p : pipe) : pipe :=
  mkPipe (rset PIPESIZE (pp_data p) (pp_nwrite p) ch) (pp_nread p) (u32 (pp_nwrite p + 1))
    (pp_readopen p) (pp_writeopen p).
Definition pipe_take (p : pipe) : pipe :=
  mkPipe (pp_data p) (u32 (pp_nread p + 1)) (pp_nwrite p) (pp_readopen p) (pp_writeopen p).

Definition on_pipe (f : pipe -> pipe) (s : pio) : pio := mkPio (f (pio_pipe s)) (pio_ev s).
Definition saw (e : uevent) (s : pio) : pio := mkPio (pio_pipe s) (pio_ev s ++ [e]).

Section Calls.
Context `{UserByte}.

(** [copyin(pr->pagetable, &ch, a, 1)] and [copyout(pr->pagetable, a, &ch, 1)] *)
Definition copyin1 (a : Z) : M pio (option Z) :=
  match ucopyin a with
  | Some ch => modify (saw (CopiedIn a ch));;; ret (Some ch)
  | None => ret None
  end.
Definition copyout1 (a ch : Z) : M pio bool :=
  modify (saw (CopiedOut a ch (ucopyout a ch)));;; ret (ucopyout a ch).

(** The pipe's address, and what each call of [killed(pr)] returns. *)
Variable pi : Z.
Variable killed : Z -> bool.

Definition pipewrite_end (i : Z) : M pio pres :=
  wakeup (ChPipeRead pi);;; release (LkPipe pi);;; ret (Done i).

Fixpoint pipewrite_loop (fuel : nat) (addr n i : Z) : M pio pres :=
  match fuel with
  | O => diverge
  | S f =>
    if i <? n then
      let! p := gets pio_pipe in
      if (pp_readopen p =? 0) || killed i then
        release (LkPipe pi);;; ret (Done (-1))
      else if pp_nwrite p =? u32 (pp_nread p + PIPESIZE) then
        wakeup (ChPipeRead pi);;; release (LkPipe pi);;; ret (Asleep i)
      else
        let! c := copyin1 (u64 (addr + i)) in
        match c with
        | None => pipewrite_end i
        | Some ch => modify (on_pipe (pipe_put ch));;; pipewrite_loop f addr n (i + 1)
        end
    else pipewrite_end i
  end.

(** The call enters with [i = 0]; a woken sleeper re-enters with its own [i]. *)
Definition pipewrite (addr n i : Z) : M pio pres :=
  acquire (LkPipe pi);;; pipewrite_loop (S (Z.to_nat (n - i))) addr n i.

Definition piperead_end (i : Z) : M pio pres :=
  wakeup (ChPipeWrite pi);;; release (LkPipe pi);;; ret (Done i).

Fixpoint piperead_copy (fuel : nat) (addr n i : Z) : M pio pres :=
  match fuel with
  | O => diverge
  | S f =>
    if i <? n then
      let! p := gets pio_pipe in
      if pp_nread p =? pp_nwrite p then piperead_end i
      else
        let ch := rget PIPESIZE (pp_data p) (pp_nread p) in
        modify (on_pipe pipe_take);;;
        let! ok := copyout1 (u64 (addr + i)) ch in
        if ok then piperead_copy f addr n (i + 1) else piperead_end i
    else piperead_end i
  end.

Definition piperead (addr n : Z) : M pio pres :=
  acquire (LkPipe pi);;;
  let! p := gets pio_pipe in
  if (pp_nread p =? pp_nwrite p) && ctrue (pp_writeopen p) then
    if killed 0 then release (LkPipe pi);;; ret (Done (-1))
    else release (LkPipe pi);;; ret (Asleep 0)
  else piperead_copy (S (Z.to_nat n)) addr n 0.
End Calls.

(** [pipeclose] frees the pipe's page once both ends are closed. *)
Definition pipe_lens : lens (pipe * kmem) pipe := mkLens fst (fun p s => (p, snd s)).
Definition pipe_kmem_lens : lens (pipe * kmem) kmem := mkLens snd (fun k s => (fst s, k)).

Definition set_readopen (v : Z) (p : pipe) : pipe :=
  mkPipe (pp_data p) (pp_nread p) (pp_nwrite p) v (pp_writeopen p).
Definition set_writeopen (v : Z) (p : pipe) : pipe :=
  mkPipe (pp_data p) (pp_nread p) (pp_nwrite p) (pp_readopen p) v.

Definition pipeclose (kend pi writable : Z) : M (pipe * kmem) unit :=
  acquire (LkPipe pi);;;
  (if ctrue writable
   then zoom pipe_lens (modify (set_writeopen 0));;; wakeup (ChPipeRead pi)
   else zoom pipe_lens (modify (set_readopen 0));;; wakeup (ChPipeWrite pi));;;
  let! p := gets fst in
  if (pp_readopen p =? 0) && (pp_writeopen p =? 0)
  then release (LkPipe pi);;; zoom pipe_kmem_lens (kfree kend pi)
  else release (LkPipe pi).

(** ** One stretch *)

Definition count (p : pipe) : nat := Z.to_nat (u32 (pp_nwrite p - pp_nread p)).
Definition queue (p : pipe) : list Z := content PIPESIZE (pp_data p) (pp_nread p) (count p).

Definition pipe_inv (p : pipe) : Prop :=
  Z.of_nat (length (pp_data p)) = PIPESIZE /\ is_u32 (pp_nread p) /\ is_u32 (pp_nwrite p) /\
  Z.of_nat (count p) <= PIPESIZE.

Definition full (p : pipe) : Prop := Z.of_nat (count p) = PIPESIZE.

Lemma u32_sub_add a b k :
  is_u32 a -> is_u32 b -> 0 <= k < 2 ^ 32 -> u32 (a - b) = k <-> a = u32 (b + k).
Proof. unfold u32. intros. split; intros; Z.div_mod_to_equations; lia. Qed.

Lemma full_iff p : pipe_inv p -> full p <-> pp_nwrite p = u32 (pp_nread p + PIPESIZE).
Proof.
  intros (_ & Hr & Hw & Hc). rewrite <- (u32_sub_add (pp_nwrite p) (pp_nread p) PIPESIZE)
    by (done || (unfold PIPESIZE; lia)).
  unfold full, count. pose proof (u32_range (pp_nwrite p - pp_nread p)). lia.
Qed.

Lemma empty_iff p : pipe_inv p -> pp_nread p = pp_nwrite p <-> queue p = [].
Proof.
  intros (_ & Hr & Hw & Hc).
  assert (queue p = [] <-> count p = 0%nat) as ->.
  { unfold queue. split; [|by intros ->].
    intros E%(f_equal length). by rewrite length_content in E. }
  unfold count. pose proof (u32_range (pp_nwrite p - pp_nread p)).
  unfold u32 in *. split; intros; Z.div_mod_to_equations; lia.
Qed.

Lemma pipe_div : (PIPESIZE | 2 ^ 32).
Proof. exists (2 ^ 23). done. Qed.

Lemma pipe_put_ok ch p :
  pipe_inv p -> ~ full p ->
  pipe_inv (pipe_put ch p) /\ queue (pipe_put ch p) = queue p ++ [u8 ch].
Proof.
  intros Hinv Hf. pose proof Hinv as (Hl & Hr & Hw & Hc).
  assert (Hcnt : count (pipe_put ch p) = S (count p)).
  { unfold full, count, pipe_put, PIPESIZE in *; cbn [pp_nwrite pp_nread].
    pose proof (u32_range (pp_nwrite p - pp_nread p)).
    assert (u32 (u32 (pp_nwrite p + 1) - pp_nread p) = u32 (pp_nwrite p - pp_nread p) + 1); [|lia].
    unfold u32 in *. Z.div_mod_to_equations. lia. }
  assert (Hb : Z.of_nat (count p) < PIPESIZE) by (unfold full in Hf; lia). split.
  - split; [cbn; by rewrite length_rset|]. split; [done|]. split; [apply u32_range|].
    rewrite Hcnt. lia.
  - unfold queue. rewrite Hcnt. unfold pipe_put; cbn [pp_data pp_nread].
    rewrite (rset_mod _ _ _ (pp_nread p + Z.of_nat (count p))).
    + apply content_push; [done|done|done].
    + unfold count. rewrite Z2Nat.id by apply u32_range. unfold u32.
      rewrite <- Zplus_mod_idemp_r, (mod_wrap PIPESIZE ltac:(done) _ 32 ltac:(lia) pipe_div).
      rewrite Zplus_mod_idemp_r. f_equal. lia.
Qed.

Lemma pipe_take_ok p :
  pipe_inv p -> pp_nread p <> pp_nwrite p ->
  pipe_inv (pipe_take p) /\ queue p = rget PIPESIZE (pp_data p) (pp_nread p) :: queue (pipe_take p).
Proof.
  intros (Hl & Hr & Hw & Hc) Hne.
  assert (Hcnt : count p = S (count (pipe_take p))).
  { unfold count, pipe_take in *; cbn [pp_nwrite pp_nread].
    pose proof (u32_range (pp_nwrite p - pp_nread p)).
    assert (u32 (pp_nwrite p - u32 (pp_nread p + 1)) = u32 (pp_nwrite p - pp_nread p) - 1
            /\ u32 (pp_nwrite p - pp_nread p) <> 0) by
      (unfold u32 in *; Z.div_mod_to_equations; lia). lia. }
  split.
  - split; [done|]. split; [apply u32_range|]. split; [done|lia].
  - unfold queue. rewrite Hcnt, content_S. f_equal. unfold pipe_take; cbn [pp_data pp_nread].
    apply content_mod. symmetry. apply (mod_wrap PIPESIZE ltac:(done) _ 32); [lia|apply pipe_div].
Qed.

(** The copies of the bytes [cs] from, and of [bs] to, a buffer, from its [i]-th byte on. *)
Fixpoint ins (addr i : Z) (cs : list Z) : list uevent :=
  match cs with [] => [] | c :: cs => CopiedIn (u64 (addr + i)) c :: ins addr (i + 1) cs end.
Fixpoint outs (addr i : Z) (bs : list Z) : list uevent :=
  match bs with [] => [] | b :: bs => CopiedOut (u64 (addr + i)) b true :: outs addr (i + 1) bs end.

(** The bytes that entered the kernel, and that left the queue for a reader. *)
Definition in_bytes (es : list uevent) : list Z :=
  omap (fun e => match e with CopiedIn _ c => Some (u8 c) | _ => None end) es.
Definition out_bytes (es : list uevent) : list Z :=
  omap (fun e => match e with CopiedOut _ b _ => Some b | _ => None end) es.

Lemma in_bytes_ins addr cs : forall i, in_bytes (ins addr i cs) = u8 <$> cs /\ out_bytes (ins addr i cs) = [].
Proof. induction cs as [|c cs IH]; intros i; [done|]. destruct (IH (i + 1)) as [E1 E2]. cbn. split; [by f_equal|done]. Qed.

Lemma out_bytes_outs addr bs : forall i, out_bytes (outs addr i bs) = bs /\ in_bytes (outs addr i bs) = [].
Proof. induction bs as [|b bs IH]; intros i; [done|]. destruct (IH (i + 1)) as [E1 E2]. cbn. split; [by f_equal|done]. Qed.

Definition same_ends (p p' : pipe) : Prop :=
  pp_readopen p' = pp_readopen p /\ pp_writeopen p' = pp_writeopen p.

(** What a stretch of [pipewrite] that fetched the bytes [cs] does to the queue, and what it
    reports: it ends after the last byte asked for or at one that cannot be fetched, sleeps
    on a full pipe, or fails. *)
Record wrote `{UserByte} (pi : Z) (killed : Z -> bool) (addr n i : Z) (p : pipe) (r : pres)
    (th : thread) (p' : pipe) (cs : list Z) : Prop := mkWrote {
  wr_inv : pipe_inv p';
  wr_ends : same_ends p p';
  wr_nread : pp_nread p' = pp_nread p;
  wr_queue : queue p' = queue p ++ (u8 <$> cs);
  wr_result : let j := i + Z.of_nat (length cs) in match r with
    | Done r => r = j /\ (n <= j \/ ucopyin (u64 (addr + j)) = None) \/
                r = -1 /\ (pp_readopen p = 0 \/ killed j = true)
    | Asleep j' => j' = j /\ j < n /\ full p' /\ pp_readopen p' <> 0
    end;
  wr_woken : r = Done (-1) \/ ChPipeRead pi ∈ th_woken th;
  wr_alive : forall k, (k < length cs)%nat -> pp_readopen p <> 0 /\ killed (i + Z.of_nat k) = false;
}.

Lemma pipewrite_loop_ok `{UserByte} pi killed fuel addr n th held :
  th_held th = LkPipe pi :: held -> LkPipe pi ∉ held -> forall i p ev, pipe_inv p -> 0 <= i ->
  Z.max 0 (n - i) < Z.of_nat fuel ->
  exists r th' p' cs, pipewrite_loop pi killed fuel addr n i th (mkPio p ev) = Ok r th' (mkPio p' (ev ++ ins addr i cs)) /\
    th_held th' = held /\ wrote pi killed addr n i p r th' p' cs.
Proof.
  intros Hh Hni. induction fuel as [|f IH]; intros i p ev Hinv Hi Hf; [lia|].
  cbn [pipewrite_loop].
  assert (Hend : n <= i \/ ucopyin (u64 (addr + i)) = None ->
            exists r th' p' cs, pipewrite_end pi i th (mkPio p ev) = Ok r th' (mkPio p' (ev ++ ins addr i cs)) /\
            th_held th' = held /\ wrote pi killed addr n i p r th' p' cs).
  { intros Hstop. unfold pipewrite_end, wakeup, bind. erewrite release_ok by done.
    exists (Done i). eexists _, p, []. cbn [ins]. rewrite app_nil_r. split; [done|]. split; [done|].
    split; try done; cbn; rewrite ?Z.add_0_r; [by rewrite app_nil_r|by left|right; left|lia]. }
  destruct (Z.ltb_spec i n); [|by apply Hend; left]. unfold bind at 1, gets.
  destruct ((pp_readopen p =? 0) || killed i) eqn:Ek; cbn [pio_pipe]; rewrite ?Ek.
  { unfold bind. erewrite release_ok by done. eexists _, _, p, []. cbn [ins]. rewrite app_nil_r. split; [done|]. split; [done|].
    split; try done; cbn; rewrite ?Z.add_0_r; [by rewrite app_nil_r| |by left|lia].
    right. split; [done|]. destruct (Z.eqb_spec (pp_readopen p) 0); auto. }
  apply orb_false_iff in Ek as [Er Ek].
  destruct (Z.eqb_spec (pp_nwrite p) (u32 (pp_nread p + PIPESIZE))) as [Efull|Efull].
  { unfold wakeup, bind. erewrite release_ok by done. eexists _, _, p, []. cbn [ins]. rewrite app_nil_r. split; [done|].
    split; [done|]. split; try done; cbn; rewrite ?Z.add_0_r; [by rewrite app_nil_r| |right; left|lia].
    split_and!; [lia|done|by apply full_iff|]. by apply Z.eqb_neq. }
  unfold copyin1. destruct (ucopyin (u64 (addr + i))) as [ch|] eqn:Ec; [|by apply Hend; right].
  destruct (pipe_put_ok ch p) as [Hinv' Hq]; [done|by rewrite full_iff|].
  destruct (IH (i + 1) (pipe_put ch p) (ev ++ [CopiedIn (u64 (addr + i)) ch])) as
    (r & th' & p' & cs & E & Hh' & [H1 H2 H3 H4 H6 H7 H8]); [done|lia|lia|].
  exists r, th', p', (ch :: cs). rewrite <- app_assoc in E. split; [exact E|]. split; [done|].
  assert (Hj : i + Z.of_nat (length (ch :: cs)) = i + 1 + Z.of_nat (length cs)) by (cbn [length]; lia).
  split; try done.
  - rewrite H4, Hq, <- app_assoc. done.
  - rewrite Hj. cbn zeta in *. destruct r as [r|j]; [|done]. destruct H6 as [?|[-> H6]]; [by left|right].
    split; [done|]. by cbn [pp_readopen pipe_put] in H6.
  - intros [|k] Hk.
    + rewrite Z.add_0_r. split; [by apply Z.eqb_neq|done].
    + destruct (H8 k) as [? ?]; [simpl in Hk; lia|].
      replace (i + Z.of_nat (S k)) with (i + 1 + Z.of_nat k) by lia. done.
Qed.

(** What the copying loop of [piperead] does: it delivers the bytes [bs], and stops for want
    of bytes or of room, or at a byte [lost] that it has taken and cannot deliver. *)
Definition lost_event (a : Z) (lost : option Z) : list uevent :=
  match lost with Some b => [CopiedOut a b false] | None => [] end.

Record did_read (p p' : pipe) (bs : list Z) (lost : option Z) : Prop := mkDidRead {
  rd_inv : pipe_inv p';
  rd_ends : same_ends p p';
  rd_nwrite : pp_nwrite p' = pp_nwrite p;
  rd_queue : queue p = bs ++ option_list lost ++ queue p';
}.

Definition read_stop `{UserByte} (addr n r : Z) (p' : pipe) (lost : option Z) : Prop :=
  match lost with
  | None => queue p' = [] \/ n <= r
  | Some b => ucopyout (u64 (addr + r)) b = false
  end.

Lemma piperead_copy_ok `{UserByte} pi fuel addr n th held :
  th_held th = LkPipe pi :: held -> LkPipe pi ∉ held -> forall i p ev, pipe_inv p -> 0 <= i ->
  Z.max 0 (n - i) < Z.of_nat fuel ->
  exists r p' bs lost, piperead_copy pi fuel addr n i th (mkPio p ev) =
      Ok (Done r) (set_held held (woke (ChPipeWrite pi) th)) (mkPio p' (ev ++ outs addr i bs ++ lost_event (u64 (addr + r)) lost)) /\
    did_read p p' bs lost /\ r = i + Z.of_nat (length bs) /\ read_stop addr n r p' lost.
Proof.
  intros Hh Hni. induction fuel as [|f IH]; intros i p ev Hinv Hi Hf; [lia|].
  cbn [piperead_copy].
  assert (Hend : forall s0, piperead_end pi i th s0 =
            Ok (Done i) (set_held held (woke (ChPipeWrite pi) th)) s0).
  { intros s0. unfold piperead_end, wakeup, bind. by erewrite release_ok. }
  assert (Hstay : did_read p p [] None) by done.
  assert (Hstop : queue p = [] \/ n <= i -> exists r p' bs lost, piperead_end pi i th (mkPio p ev) =
      Ok (Done r) (set_held held (woke (ChPipeWrite pi) th)) (mkPio p' (ev ++ outs addr i bs ++ lost_event (u64 (addr + r)) lost)) /\
    did_read p p' bs lost /\ r = i + Z.of_nat (length bs) /\ read_stop addr n r p' lost).
  { intros Hs. exists i, p, [], None. cbn [outs lost_event app length]. rewrite app_nil_r. split_and!; [done|done|lia|done]. }
  destruct (Z.ltb_spec i n); [|apply Hstop; by right].
  unfold bind at 1, gets. cbn [pio_pipe]. destruct (Z.eqb_spec (pp_nread p) (pp_nwrite p)) as [Ee|Ee].
  { apply Hstop. left. by apply empty_iff. }
  destruct (pipe_take_ok p) as [Hinv' Hq]; [done|done|]. set (b := rget PIPESIZE (pp_data p) (pp_nread p)) in *.
  unfold bind, modify, copyout1, ret, on_pipe, saw. cbn [pio_pipe pio_ev].
  destruct (ucopyout (u64 (addr + i)) b) eqn:Eo.
  - destruct (IH (i + 1) (pipe_take p) (ev ++ [CopiedOut (u64 (addr + i)) b true])) as (r & p' & bs & lost & E & [H1 H2 H3 H4] & Hr & Hs); [done|lia|lia|].
    exists r, p', (b :: bs), lost. rewrite <- app_assoc in E. split; [unfold bind, modify, ret in E; exact E|].
    split; [split; try done; by rewrite Hq, H4|]. split; [cbn [length]; lia|done].
  - exists i, (pipe_take p), [], (Some b). split; [exact (Hend _)|]. split; [by split|]. split; [cbn; lia|done].
Qed.

Lemma piperead_ok `{UserByte} pi killed addr n th p ev :
  LkPipe pi ∉ th_held th -> pipe_inv p ->
  exists r th' p' bs lost, piperead pi killed addr n th (mkPio p ev) =
      Ok r th' (mkPio p' (ev ++ outs addr 0 bs ++ lost_event (u64 (addr + Z.of_nat (length bs))) lost)) /\
    th_held th' = th_held th /\ did_read p p' bs lost /\
    match r with
    | Done r => (r = -1 /\ bs = [] /\ lost = None /\ killed 0 = true) \/
        ChPipeWrite pi ∈ th_woken th' /\ r = Z.of_nat (length bs) /\ read_stop addr n r p' lost
    | Asleep j => j = 0 /\ bs = [] /\ lost = None /\ queue p = [] /\ pp_writeopen p <> 0
    end.
Proof.
  intros Hni Hinv. unfold piperead, bind, gets. rewrite acquire_ok by done. cbn [pio_pipe].
  assert (Hstay : did_read p p [] None) by done.
  destruct ((pp_nread p =? pp_nwrite p) && ctrue (pp_writeopen p)) eqn:E.
  - apply andb_prop in E as [Ee%Z.eqb_eq Ew]. unfold ctrue in Ew.
    destruct (killed 0) eqn:Ek; rewrite release_acquired by done.
    + exists (Done (-1)), th, p, [], None. cbn. rewrite app_nil_r. naive_solver.
    + exists (Asleep 0), th, p, [], None. cbn. rewrite app_nil_r. split_and!; try done; [by apply empty_iff|].
      by destruct (Z.eqb_spec (pp_writeopen p) 0).
  - destruct (piperead_copy_ok pi (S (Z.to_nat n)) addr n
                (set_held (LkPipe pi :: th_held th) th) (th_held th) eq_refl Hni 0 p ev)
      as (r & p' & bs & lost & E' & Hd & Hr & Hs); [done|lia|lia|]. rewrite Z.add_0_l in Hr. subst r.
    exists (Done (Z.of_nat (length bs))). eexists _, p', bs, lost. split; [exact E'|]. split_and!; [done|done|].
    right. split; [left|done].
Qed.

Lemma pipewrite_ok `{UserByte} pi killed addr n i th p ev :
  LkPipe pi ∉ th_held th -> pipe_inv p -> 0 <= i ->
  exists r th' p' cs, pipewrite pi killed addr n i th (mkPio p ev) = Ok r th' (mkPio p' (ev ++ ins addr i cs)) /\
    th_held th' = th_held th /\ wrote pi killed addr n i p r th' p' cs.
Proof.
  intros Hni Hinv Hi. unfold pipewrite, bind. rewrite acquire_ok by done.
  eapply pipewrite_loop_ok; try done. lia.
Qed.

(** ** The system of processes around one pipe *)

(** A process between calls, in [pipewrite] or in [piperead]; [ready] is false
    while it is asleep. *)
Inductive pthread :=
| TIdle
| TWrite (ready : bool) (addr n i : Z)
| TRead (ready : bool) (addr n : Z).

(** The pipe with its page, its processes, and all the copies they have made through it, each
    with the process that made it. *)
Record psys := mkPsys {
  ps_pipe : pipe;
  ps_kmem : kmem;
  ps_thr : list pthread;
  ps_ev : list (nat * uevent);
  ps_freed : bool;
}.

Definition wake_thread (pi : Z) (woken : list chan) (t : pthread) : pthread :=
  match t with
  | TWrite false addr n i => TWrite (bool_decide (ChPipeWrite pi ∈ woken)) addr n i
  | TRead false addr n => TRead (bool_decide (ChPipeRead pi ∈ woken)) addr n
  | _ => t
  end.

Definition after_write (addr n : Z) (r : pres) : pthread :=
  match r with Done _ => TIdle | Asleep i => TWrite false addr n i end.
Definition after_read (addr n : Z) (r : pres) : pthread :=
  match r with Done _ => TIdle | Asleep _ => TRead false addr n end.

Section System.
Variable kend pi : Z.
(** The states each process's memory may be in. *)
Variable umem : nat -> UserByte -> Prop.
(** Which sequences of answers [killed] may give during one stretch. *)
Variable kills : (Z -> bool) -> Prop.

(** The thread that executes a stretch holds no lock and has woken nobody yet. *)
Definition run_thread : thread := mkThread [] 0 1 [].

Definition set_thr (s : psys) (ts : list pthread) : psys :=
  mkPsys (ps_pipe s) (ps_kmem s) ts (ps_ev s) (ps_freed s).

Inductive pstep : psys -> psys -> Prop :=
| ps_start_write s t addr n :
    ps_thr s !! t = Some TIdle -> pstep s (set_thr s (<[t := TWrite true addr n 0]> (ps_thr s)))
| ps_start_read s t addr n :
    ps_thr s !! t = Some TIdle -> pstep s (set_thr s (<[t := TRead true addr n]> (ps_thr s)))
| ps_kill_write s t addr n i :
    ps_thr s !! t = Some (TWrite false addr n i) ->
    pstep s (set_thr s (<[t := TWrite true addr n i]> (ps_thr s)))
| ps_kill_read s t addr n :
    ps_thr s !! t = Some (TRead false addr n) ->
    pstep s (set_thr s (<[t := TRead true addr n]> (ps_thr s)))
| ps_write s t u addr n i killed r th' p' es :
    ps_freed s = false -> ps_thr s !! t = Some (TWrite true addr n i) -> umem t u -> kills killed ->
    pipewrite (H := u) pi killed addr n i run_thread (mkPio (ps_pipe s) []) = Ok r th' (mkPio p' es) ->
    pstep s (mkPsys p' (ps_kmem s)
      (<[t := after_write addr n r]> (wake_thread pi (th_woken th') <$> ps_thr s))
      (ps_ev s ++ (pair t <$> es)) false)
| ps_read s t u addr n killed r th' p' es :
    ps_freed s = false -> ps_thr s !! t = Some (TRead true addr n) -> umem t u -> kills killed ->
    piperead (H := u) pi killed addr n run_thread (mkPio (ps_pipe s) []) = Ok r th' (mkPio p' es) ->
    pstep s (mkPsys p' (ps_kmem s)
      (<[t := after_read addr n r]> (wake_thread pi (th_woken th') <$> ps_thr s))
      (ps_ev s ++ (pair t <$> es)) false)
| ps_close s w th' p' k' :
    ps_freed s = false ->
    pipeclose kend pi w run_thread (ps_pipe s, ps_kmem s) = Ok tt th' (p', k') ->
    pstep s (mkPsys p' k' (wake_thread pi (th_woken th') <$> ps_thr s)
      (ps_ev s) ((pp_readopen p' =? 0) && (pp_writeopen p' =? 0))).

(** What holds of a sleeping process: a writer sleeps only on a full pipe with a
    reader, a reader only on an empty pipe with a writer. *)
Definition thread_ok (readers : bool) (p : pipe) (t : pthread) : Prop :=
  match t with
  | TWrite ready _ _ i => 0 <= i /\ (ready = false -> full p /\ pp_readopen p <> 0)
  | TRead false _ _ => readers = true -> queue p = [] /\ pp_writeopen p <> 0
  | _ => True
  end.

Definition psys_inv (readers : bool) (s : psys) : Prop :=
  pipe_inv (ps_pipe s) /\ in_bytes (ps_ev s).*2 = out_bytes (ps_ev s).*2 ++ queue (ps_pipe s) /\
  Forall (thread_ok readers (ps_pipe s)) (ps_thr s).

Lemma full_length p : full p <-> Z.of_nat (length (queue p)) = PIPESIZE.
Proof. unfold full, queue. by rewrite length_content. Qed.

(** Waking the threads of [woken], then rescheduling thread [t], re-establishes
    the invariant if the new pipe [p'] justifies those that were not woken. *)
Lemma thread_ok_wake readers p p' woken t :
  thread_ok readers p t ->
  (ChPipeWrite pi ∉ woken -> full p -> pp_readopen p <> 0 -> full p' /\ pp_readopen p' <> 0) ->
  (ChPipeRead pi ∉ woken -> readers = true -> queue p = [] -> pp_writeopen p <> 0 ->
     queue p' = [] /\ pp_writeopen p' <> 0) ->
  thread_ok readers p' (wake_thread pi woken t).
Proof.
  intros Ht HW HR. destruct t as [|[] addr n i|[] addr n]; simpl in *; try done.
  - destruct Ht. split; [done|done].
  - destruct Ht as [? Ht]. split; [done|]. case_bool_decide; [done|]. intros _. naive_solver.
  - case_bool_decide; [done|]. naive_solver.
Qed.

Lemma wake_Forall readers p p' woken ts t x :
  Forall (thread_ok readers p) ts ->
  (ChPipeWrite pi ∉ woken -> full p -> pp_readopen p <> 0 -> full p' /\ pp_readopen p' <> 0) ->
  (ChPipeRead pi ∉ woken -> readers = true -> queue p = [] -> pp_writeopen p <> 0 ->
     queue p' = [] /\ pp_writeopen p' <> 0) ->
  thread_ok readers p' x ->
  Forall (thread_ok readers p') (<[t := x]> (wake_thread pi woken <$> ts)).
Proof.
  intros Hts HW HR Hx. apply Forall_insert; [|done]. apply Forall_fmap.
  eapply Forall_impl; [exact Hts|]. intros y Hy. by apply (thread_ok_wake readers p p').
Qed.

Lemma start_inv readers s t x :
  psys_inv readers s -> thread_ok readers (ps_pipe s) x ->
  psys_inv readers (set_thr s (<[t := x]> (ps_thr s))).
Proof. intros (? & ? & ?) ?. split_and!; [done..|]. by apply Forall_insert. Qed.

(** With answers of [killed] that do not change within a stretch, a stretch that
    fails has put nothing. *)
Lemma wrote_fail_nothing `{UserByte} killed addr n i p th p' cs :
  wrote pi killed addr n i p (Done (-1)) th p' cs -> 0 <= i ->
  (forall a b, killed a = killed b) -> cs = [].
Proof.
  intros [] Hi Hk. destruct cs as [|b cs]; [done|].
  destruct (wr_alive0 0%nat) as [Hro Hal]; [simpl; lia|].
  destruct wr_result0 as [[? _]|[_ [?|Hkd]]]; [lia|done|]. rewrite (Hk _ (i + Z.of_nat 0)) in Hkd. congruence.
Qed.

Lemma events_app (t : nat) (ev : list (nat * uevent)) es : (ev ++ (pair t <$> es)).*2 = ev.*2 ++ es.
Proof. rewrite fmap_app, <- list_fmap_compose. f_equal. apply list_fmap_id. Qed.

Lemma write_inv readers s t u addr n i killed r th' p' es :
  (readers = true -> forall a b, killed a = killed b) ->
  psys_inv readers s -> ps_thr s !! t = Some (TWrite true addr n i) ->
  pipewrite (H := u) pi killed addr n i run_thread (mkPio (ps_pipe s) []) = Ok r th' (mkPio p' es) ->
  psys_inv readers (mkPsys p' (ps_kmem s)
      (<[t := after_write addr n r]> (wake_thread pi (th_woken th') <$> ps_thr s))
      (ps_ev s ++ (pair t <$> es)) false).
Proof.
  intros Hk (Hinv & Hput & Hts) Ht E.
  assert (0 <= i) as Hi.
  { eapply Forall_lookup_1 in Hts; [|exact Ht]. by destruct Hts. }
  destruct (pipewrite_ok (H := u) pi killed addr n i run_thread (ps_pipe s) [])
    as (r1 & th1 & p1 & cs & E1 & _ & HW); [apply not_elem_of_nil|done|done|].
  rewrite E in E1. simplify_eq. pose proof HW as [H1 [H2 H2'] H3 H4 H6 H7 H8].
  split; [done|]. split; cbn [ps_pipe ps_ev ps_thr].
  { rewrite events_app. destruct (in_bytes_ins addr cs i) as [Ei Eo]. unfold in_bytes, out_bytes in *.
    by rewrite !omap_app, Ei, Eo, Hput, H4, app_nil_r, app_assoc. }
  apply (wake_Forall readers (ps_pipe s)); [done| | |].
  - intros _ Hf Hro. rewrite H2. split; [|done]. apply full_length. apply full_length in Hf.
    assert (Z.of_nat (length (queue p1)) <= PIPESIZE) as Hle.
    { unfold queue. rewrite length_content. apply H1. }
    rewrite H4, length_app in *. lia.
  - intros Hnw Hrd Hq Hwo. destruct H7 as [->|?]; [|done].
    assert (cs = []) as -> by (eapply wrote_fail_nothing; [exact HW|done|by apply Hk]).
    by rewrite H4, Hq, H2'.
  - destruct r1 as [r1|j]; [done|]. destruct H6 as (-> & ? & ?). simpl. split; [lia|done].
Qed.

Lemma read_inv readers s t u addr n killed r th' p' es :
  psys_inv readers s -> 
  piperead (H := u) pi killed addr n run_thread (mkPio (ps_pipe s) []) = Ok r th' (mkPio p' es) ->
  psys_inv readers (mkPsys p' (ps_kmem s)
      (<[t := after_read addr n r]> (wake_thread pi (th_woken th') <$> ps_thr s))
      (ps_ev s ++ (pair t <$> es)) false).
Proof.
  intros (Hinv & Hput & Hts) E.
  destruct (piperead_ok (H := u) pi killed addr n run_thread (ps_pipe s) [])
    as (r1 & th1 & p1 & bs & lost & E1 & _ & [H1 [H2 H2'] H3 H4] & Hr); [apply not_elem_of_nil|done|].
  rewrite E in E1. simplify_eq.
  split; [done|]. split; cbn [ps_pipe ps_ev ps_thr].
  { rewrite events_app. destruct (out_bytes_outs addr bs 0) as [Eo Ei]. unfold in_bytes, out_bytes in *.
    rewrite !omap_app, Ei, Eo, Hput, H4. destruct lost; cbn; by rewrite ?app_nil_r, <- ?app_assoc. }
  apply (wake_Forall readers (ps_pipe s)); [done| | |].
  - intros Hnw Hf Hro. rewrite H2. split; [|done]. apply full_length. apply full_length in Hf.
    assert (bs = [] /\ lost = None) as [-> ->]; [|by rewrite H4 in Hf].
    destruct r1 as [r1|j]; [|naive_solver]. destruct Hr as [(_ & ? & ? & _)|[? _]]; done.
  - intros _ _ Hq Hwo. rewrite H2'. split; [|done].
    rewrite H4 in Hq. apply app_eq_nil in Hq as [_ Hq]. by apply app_eq_nil in Hq as [_ ?].
  - destruct r1 as [r1|j]; [done|]. destruct Hr as (-> & -> & -> & Hq & Hwo). simpl. intros _.
    rewrite H2'. split; [|done]. by rewrite H4 in Hq.
Qed.

Lemma close_inv readers s w th' p' k' :
  psys_inv readers s ->
  pipeclose kend pi w run_thread (ps_pipe s, ps_kmem s) = Ok tt th' (p', k') ->
  psys_inv readers (mkPsys p' k' (wake_thread pi (th_woken th') <$> ps_thr s)
      (ps_ev s) ((pp_readopen p' =? 0) && (pp_writeopen p' =? 0))).
Proof.
  intros (Hinv & Hput & Hts) E.
  assert (Hshape : (p' = set_writeopen 0 (ps_pipe s) /\ ChPipeRead pi ∈ th_woken th') \/
                   (p' = set_readopen 0 (ps_pipe s) /\ ChPipeWrite pi ∈ th_woken th')).
  { unfold pipeclose, bind, gets in E. rewrite acquire_ok in E by apply not_elem_of_nil.
    destruct (ctrue w); cbn [zoom pipe_lens view over modify wakeup fst snd] in E;
      destruct (_ && _); rewrite release_ok with (held := []) in E by (done || apply not_elem_of_nil).
    1, 3: unfold zoom, kfree in E; destruct (_ || _); [done|];
      unfold bind, modify in E; rewrite acquire_ok in E by apply not_elem_of_nil;
      rewrite release_acquired in E by apply not_elem_of_nil.
    all: simplify_eq; cbn; first [left; split; [done|left] | right; split; [done|left]]. }
  assert (Hq : queue p' = queue (ps_pipe s) /\ pipe_inv p') by
    (destruct Hshape as [[-> _]|[-> _]]; done).
  destruct Hq as [Hq Hinv']. split; [done|]. split; cbn [ps_pipe ps_ev ps_thr]; [congruence|].
  apply Forall_fmap. eapply Forall_impl; [exact Hts|]. intros y Hy.
  apply (thread_ok_wake readers (ps_pipe s)); [done| |]; rewrite ?full_length, ?Hq.
  - destruct Hshape as [[-> _]|[_ ?]]; done.
  - destruct Hshape as [[_ ?]|[-> _]]; done.
Qed.

Lemma pstep_inv readers s s' :
  (readers = true -> forall k, kills k -> forall a b, k a = k b) ->
  psys_inv readers s -> pstep s s' -> psys_inv readers s'.
Proof.
  intros Hk Hinv Hstep. destruct Hstep.
  - by apply start_inv.
  - by apply start_inv.
  - apply start_inv; [done|]. destruct Hinv as (_ & _ & Hts).
    eapply Forall_lookup_1 in Hts; [|done]. by destruct Hts.
  - by apply start_inv.
  - eapply write_inv; try done. intros ->. by apply Hk.
  - by eapply read_inv.
  - by eapply close_inv.
Qed.

End System.

(** A new pipe among [nt] processes. *)
Definition psys_start (data : list Z) (k : kmem) (nt : nat) : psys :=
  mkPsys (pipe_setup data) k (replicate nt TIdle) [] false.

Lemma psys_start_inv readers data k nt :
  length data = 512%nat -> psys_inv readers (psys_start data k nt).
Proof.
  intros Hl. split; [|split].
  - split; [cbn; by rewrite Hl|]. split; [cbn; lia|]. split; [cbn; lia|].
    assert (count (ps_pipe (psys_start data k nt)) = 0%nat) as -> by done. done.
  - done.
  - by apply Forall_replicate.
Qed.

(** What the two calls report.  A stretch of [pipewrite] fetches the bytes [cs] from its
    buffer, one after the other, and returns how far it has come, at the end of the buffer or
    at an address that cannot be read, or -1 when the read end is closed or the process
    killed, or sleeps.  A call of [piperead] stores the bytes [bs] into its buffer and returns
    their number, or -1, or sleeps; it may lose one byte [lost], which [copyout] refused. *)
Definition write_report `{UserByte} (pi : Z) (killed : Z -> bool) (addr n i : Z) (p : pipe) : Prop :=
  exists r th' p' cs, pipewrite pi killed addr n i run_thread (mkPio p []) = Ok r th' (mkPio p' (ins addr i cs)) /\
    let j := i + Z.of_nat (length cs) in
    (r = Done j /\ (n <= j \/ ucopyin (u64 (addr + j)) = None)) \/
    (r = Done (-1) /\ (pp_readopen p = 0 \/ killed j = true)) \/
    (r = Asleep j /\ j < n /\ full p').
Definition read_report `{UserByte} (pi : Z) (killed : Z -> bool) (addr n : Z) (p : pipe) : Prop :=
  exists r th' p' bs lost, piperead pi killed addr n run_thread (mkPio p []) =
      Ok r th' (mkPio p' (outs addr 0 bs ++ lost_event (u64 (addr + Z.of_nat (length bs))) lost)) /\
    ((r = Done (Z.of_nat (length bs)) /\ read_stop addr n (Z.of_nat (length bs)) p' lost) \/
     (bs = [] /\ lost = None /\ (r = Done (-1) /\ killed 0 = true \/ r = Asleep 0 /\ queue p = [] /\ pp_writeopen p <> 0))).

(** C32: a pipe is a bounded FIFO queue between processes.  Whatever the interleaving of
    writers, readers, closes and kills, whatever the processes' memories hold, and however
    often the 32-bit counters wrap: the bytes that [copyin] has fetched from the writers'
    buffers are, in order, those handed to [copyout] for the readers, followed by those still
    queued, of which there are at most [PIPESIZE].  Every call of the two routines returns or
    sleeps: a write takes its buffer byte by byte and returns the number taken, a read stores
    consecutive bytes and returns their number; a byte is lost only when [copyout] refuses
    it, and then the read ends.  A writer that is asleep sleeps on a full pipe whose read end
    is open. *)
Theorem pipe_fifo kend pi umem kills data k nt s :
  length data = 512%nat -> rtc (pstep kend pi umem kills) (psys_start data k nt) s ->
  in_bytes (ps_ev s).*2 = out_bytes (ps_ev s).*2 ++ queue (ps_pipe s) /\
  Z.of_nat (length (queue (ps_pipe s))) <= PIPESIZE /\
  (forall t addr n i, ps_thr s !! t = Some (TWrite false addr n i) ->
    Z.of_nat (length (queue (ps_pipe s))) = PIPESIZE /\ pp_readopen (ps_pipe s) <> 0) /\
  (forall u killed t ready addr n i, ps_thr s !! t = Some (TWrite ready addr n i) ->
    write_report (H := u) pi killed addr n i (ps_pipe s)) /\
  (forall u killed addr n, read_report (H := u) pi killed addr n (ps_pipe s)).
Proof.
  intros Hl Hrun. assert (psys_inv false s) as (Hinv & Hput & Hts).
  { eapply (rtc_invariant _ (psys_inv false)); [|by apply psys_start_inv|exact Hrun].
    intros a b Ha Hab. eapply pstep_inv; [|exact Ha|exact Hab]. done. }
  split; [done|]. split; [|split; [|split]].
  - unfold queue. rewrite length_content. apply Hinv.
  - intros t addr n i Ht. eapply Forall_lookup_1 in Hts; [|exact Ht].
    destruct Hts as [_ Hf]. rewrite <- full_length. by apply Hf.
  - intros u killed t ready addr n i Ht. eapply Forall_lookup_1 in Hts; [|exact Ht]. destruct Hts as [Hi _].
    destruct (pipewrite_ok (H := u) pi killed addr n i run_thread (ps_pipe s) []) as (r & th' & p' & cs & E & _ & [_ _ _ _ H6 _ _]);
      [apply not_elem_of_nil|done|done|].
    exists r, th', p', cs. split; [exact E|]. cbn zeta in *. destruct r; naive_solver.
  - intros u killed addr n.
    destruct (piperead_ok (H := u) pi killed addr n run_thread (ps_pipe s) []) as (r & th' & p' & bs & lost & E & _ & _ & Hr);
      [apply not_elem_of_nil|done|].
    exists r, th', p', bs, lost. split; [exact E|]. destruct r as [r|j]; [|right; naive_solver].
    destruct Hr as [(-> & -> & -> & Hk)|(_ & -> & Hs)]; [right; naive_solver|left; naive_solver].
Qed.

(** No reader misses a wakeup as long as [killed] does not change its answer during
    one stretch of [pipewrite]: a reader that is asleep sleeps on an empty pipe
    whose write end is open. *)
Theorem pipe_no_lost_wakeup kend pi umem kills data k nt s t addr n :
  length data = 512%nat -> (forall f, kills f -> forall a b, f a = f b) ->
  rtc (pstep kend pi umem kills) (psys_start data k nt) s ->
  ps_thr s !! t = Some (TRead false addr n) ->
  queue (ps_pipe s) = [] /\ pp_writeopen (ps_pipe s) <> 0.
Proof.
  intros Hl Hk Hrun Ht. assert (psys_inv true s) as (_ & _ & Hts).
  { eapply (rtc_invariant _ (psys_inv true)); [|by apply psys_start_inv|exact Hrun].
    intros a b Ha Hab. eapply pstep_inv; [|exact Ha|exact Hab]. done. }
  eapply Forall_lookup_1 in Hts; [|exact Ht]. by apply Hts.
Qed.

(** ** Concrete runs *)

Definition demo_user : UserByte := {| ucopyin := fun _ => Some 65; ucopyout := fun _ _ => true |}.
Definition demo_start : psys := psys_start (replicate 512 5) (mkKmem ∅ 0) 2.

(** Process 0 reads from the empty pipe and falls asleep. *)
Definition demo_asleep : psys :=
  mkPsys (ps_pipe demo_start) (mkKmem ∅ 0) [TRead false 0 1; TIdle] [] false.

Definition demo_umem (t : nat) (u : UserByte) : Prop := u = demo_user.

Lemma demo_read_sleeps kills :
  (exists f, kills f /\ f 0 = false) ->
  rtc (pstep KERNBASE 4096 demo_umem kills) demo_start demo_asleep.
Proof.
  intros (f & Hk & Hf).
  eapply rtc_l; [apply (ps_start_read _ _ _ _ _ 0%nat 0 1); done|].
  eapply rtc_l; [|apply rtc_refl].
  pose proof (ps_read KERNBASE 4096 demo_umem kills
    (mkPsys (ps_pipe demo_start) (mkKmem ∅ 0) [TRead true 0 1; TIdle] [] false)
    0%nat demo_user 0 1 f (Asleep 0) run_thread (ps_pipe demo_start) []) as H.
  apply H; [done|done|done|done|]. vm_compute. by rewrite Hf.
Qed.

(** Process 1 then writes [n] bytes, during which [killed] answers [f]. *)
Lemma demo_write kills f n r th' p' es :
  kills f -> (exists g, kills g /\ g 0 = false) ->
  pipewrite (H := demo_user) 4096 f 0 n 0 run_thread (mkPio (ps_pipe demo_start) []) = Ok r th' (mkPio p' es) ->
  rtc (pstep KERNBASE 4096 demo_umem kills) demo_start
    (mkPsys p' (mkKmem ∅ 0)
      (<[1%nat := after_write 0 n r]> (wake_thread 4096 (th_woken th') <$>
         [TRead false 0 1; TWrite true 0 n 0]))
      (pair 1%nat <$> es) false).
Proof.
  intros Hf Hg E. etransitivity; [by apply demo_read_sleeps|].
  eapply rtc_l; [apply (ps_start_write _ _ _ _ _ 1%nat 0 n); done|].
  eapply rtc_l; [|apply rtc_refl].
  exact (ps_write KERNBASE 4096 demo_umem kills
    (mkPsys (ps_pipe demo_start) (mkKmem ∅ 0) [TRead false 0 1; TWrite true 0 n 0] [] false)
    1%nat demo_user 0 n 0 f r th' p' es eq_refl eq_refl eq_refl Hf E).
Qed.

Lemma pipe_fifo_witness :
  exists s, rtc (pstep KERNBASE 4096 demo_umem (fun _ => True)) demo_start s /\
    queue (ps_pipe s) = [65; 65] /\ in_bytes (ps_ev s).*2 = out_bytes (ps_ev s).*2 ++ [65; 65].
Proof.
  eexists. assert (Hrun := demo_write (fun _ => True) (fun _ => false) 2 _ _ _ _ I
    (ex_intro _ (fun _ => false) (conj I eq_refl)) eq_refl).
  split; [exact Hrun|]. split; [vm_compute; reflexivity|].
  destruct (pipe_fifo KERNBASE 4096 demo_umem (fun _ => True) (replicate 512 5)
    (mkKmem ∅ 0) 2 _ eq_refl Hrun) as (E & _).
  rewrite E at 1. vm_compute. reflexivity.
Defined.

Lemma pipe_no_lost_wakeup_witness :
  queue (ps_pipe demo_asleep) = [] /\ pp_writeopen (ps_pipe demo_asleep) <> 0.
Proof.
  apply (pipe_no_lost_wakeup KERNBASE 4096 demo_umem (fun f => f = fun _ => false)
    (replicate 512 5) (mkKmem ∅ 0) 2 demo_asleep 0 0 1).
  - reflexivity.
  - intros f -> a b. reflexivity.
  - apply demo_read_sleeps. exists (fun _ => false). split; reflexivity.
  - reflexivity.
Defined.

(** C37: when a writer is killed in the middle of a stretch, [pipewrite] returns -1
    without the [wakeup(&pi->nread)] of its normal exit: a state is reachable in
    which a reader sleeps although the pipe holds a byte and its write end is open. *)
Theorem pipewrite_killed_loses_wakeup :
  exists s, rtc (pstep KERNBASE 4096 demo_umem (fun _ => True)) demo_start s /\
    ps_thr s !! 0%nat = Some (TRead false 0 1) /\
    queue (ps_pipe s) = [65] /\ pp_writeopen (ps_pipe s) <> 0 /\ ps_freed s = false.
Proof.
  eexists. split; [eapply (demo_write (fun _ => True) (fun i => i =? 1) 2); [done| |]|].
  - by exists (fun _ => false).
  - vm_compute. reflexivity.
  - split_and!; vm_compute; done.
Qed.
