(* ===== verification/Uart.v ===== *)
(** * The UART driver (kernel/uart.c, and [consputc] of kernel/console.c)

    The transmit buffer is a ring indexed by two free-running 64-bit counters.  The chip is
    not part of the sources: its registers are the class [UartDev], and [UartSpec] states
    what the 16550 data sheet says of the registers the driver uses.  [push_off] and
    [pop_off] around a synchronous write change only the interrupt state of the hart, which
    Spinlock.v models. *)

From S2P Require Import Prelude Layout Ring.

Definition RHR : Z := 0.
Definition THR : Z := 0.
Definition IER : Z := 1.
Definition IER_RX_ENABLE : Z := 1.
Definition IER_TX_ENABLE : Z := 2.
Definition FCR : Z := 2.
Definition FCR_FIFO_ENABLE : Z := 1.
Definition FCR_FIFO_CLEAR : Z := 6.
Definition ISR : Z := 2.
Definition LCR : Z := 3.
Definition LCR_EIGHT_BITS : Z := 3.
Definition LCR_BAUD_LATCH : Z := 128.
Definition LSR : Z := 5.
Definition LSR_TX_IDLE : Z := 32.
Definition UART_TX_BUF_SIZE : Z := 32.

Class UartDev (D : Type) := {
  ReadReg : Z -> M D Z;
  WriteReg : Z -> Z -> M D unit;
}.

(** The globals of kernel/uart.c, [panicked] of kernel/printf.c, and the chip. *)
Record uart (D : Type) := mkUart {
  ua_buf : list Z;      (* uart_tx_buf *)
  ua_w : Z;             (* uart_tx_w *)
  ua_r : Z;             (* uart_tx_r *)
  ua_panicked : Z;
  ua_dev : D;
}.
Arguments mkUart {D} _ _ _ _ _.
Arguments ua_buf {D} _.
Arguments ua_w {D} _.
Arguments ua_r {D} _.
Arguments ua_panicked {D} _.
Arguments ua_dev {D} _.

Definition uart_dev_lens {D} : lens (uart D) D :=
  mkLens ua_dev (fun d s => mkUart (ua_buf s) (ua_w s) (ua_r s) (ua_panicked s) d).

(** The end of a stretch of [uartputc]. *)
Inductive putres := PutDone | PutAsleep.

Section Uart.
Context {D : Type} `{UD : UartDev D}.
(** The number of times the driver looks at a busy chip before it gives up; the code does
    not give up, so this is fuel. *)
Context (spin : nat).
Notation U := (uart D).

Definition reg {A} (m : M D A) : M U A := zoom uart_dev_lens m.

Definition uartinit : M U unit :=
  reg (WriteReg IER 0);;;
  reg (WriteReg LCR LCR_BAUD_LATCH);;;
  reg (WriteReg 0 3);;;
  reg (WriteReg 1 0);;;
  reg (WriteReg LCR LCR_EIGHT_BITS);;;
  reg (WriteReg FCR (Z.lor FCR_FIFO_ENABLE FCR_FIFO_CLEAR));;;
  reg (WriteReg IER (Z.lor IER_TX_ENABLE IER_RX_ENABLE)).

Definition tx_put (c : Z) (s : U) : U :=
  mkUart (rset UART_TX_BUF_SIZE (ua_buf s) (ua_w s) c) (u64 (ua_w s + 1)) (ua_r s) (ua_panicked s) (ua_dev s).
Definition tx_take (s : U) : U :=
  mkUart (ua_buf s) (ua_w s) (u64 (ua_r s + 1)) (ua_panicked s) (ua_dev s).

(** One turn of [uartstart]: the tests, whose answer is whether to send a byte, and sending
    it.  Between the two, a hart that writes synchronously may use the chip. *)
Definition uartstart_poll : M U bool :=
  let! s := get in
  if ua_w s =? ua_r s then reg (ReadReg ISR);;; ret false
  else
    let! lsr := reg (ReadReg LSR) in
    ret (negb (Z.land lsr LSR_TX_IDLE =? 0)).
Definition uartstart_send : M U unit :=
  let! s := get in
  let c := rget UART_TX_BUF_SIZE (ua_buf s) (ua_r s) in
  modify tx_take;;;
  wakeup ChUartTxR;;;
  reg (WriteReg THR c).

(** Each turn sends one byte of the buffer, so its length and one turn more are enough. *)
Fixpoint uartstart_loop (fuel : nat) : M U unit :=
  match fuel with
  | O => diverge
  | S f =>
      let! b := uartstart_poll in
      if b then uartstart_send;;; uartstart_loop f else ret tt
  end.

Definition uartstart : M U unit :=
  let! s := get in uartstart_loop (S (Z.to_nat (u64 (ua_w s - ua_r s)))).

(** A stretch of [uartputc]: the call ([first]), or a sleeper that was woken up and goes on at
    the test of the loop.  [putc_enter] goes up to the call of [uartstart]. *)
Definition putc_enter (first : bool) (c : Z) : M U putres :=
  acquire LkUartTx;;;
  let! s := get in
  if first && ctrue (ua_panicked s) then diverge
  else if ua_w s =? u64 (ua_r s + UART_TX_BUF_SIZE) then release LkUartTx;;; ret PutAsleep
  else modify (tx_put c);;; ret PutDone.

Definition putc_stretch (first : bool) (c : Z) : M U putres :=
  let! r := putc_enter first c in
  match r with
  | PutAsleep => ret PutAsleep
  | PutDone => uartstart;;; release LkUartTx;;; ret PutDone
  end.

Definition uartputc (c : Z) : M U putres := putc_stretch true c.
Definition uartputc_resume (c : Z) : M U putres := putc_stretch false c.

Definition tx_idle : M U bool :=
  let! lsr := reg (ReadReg LSR) in ret (negb (Z.land lsr LSR_TX_IDLE =? 0)).

Fixpoint wait_idle (fuel : nat) : M U unit :=
  let! b := tx_idle in
  if b then ret tt else match fuel with O => diverge | S f => wait_idle f end.

Definition uartputc_sync (c : Z) : M U unit :=
  let! s := get in
  if ctrue (ua_panicked s) then diverge
  else
    wait_idle spin;;;
    reg (WriteReg THR c).

Definition uartgetc : M U Z :=
  let! lsr := reg (ReadReg LSR) in
  if ctrue (Z.land lsr 1) then reg (ReadReg RHR) else ret (-1).

Definition BACKSPACE : Z := 256.

Definition consputc (c : Z) : M U unit :=
  if c =? BACKSPACE then uartputc_sync 8;;; uartputc_sync 32;;; uartputc_sync 8
  else uartputc_sync c.

End Uart.

(** ** The chip

    [sent] are the bytes handed to the transmitter, [waiting] the bytes received and not
    read.  The transmitter has a FIFO of 16 bytes, which [uartinit] switches on; [room] is how
    many more it can take, and a byte written while there is room is not lost.  [ready] is the
    bit the driver polls: in this mode it says that the FIFO is empty.  A busy transmitter
    becomes ready in time: [patience] bounds the number of times it is seen busy. *)
Definition TX_FIFO : nat := 16.

Class UartSpec (D : Type) := {
  uart_ops :: UartDev D;
  sent : D -> list Z;
  waiting : D -> list Z;
  ready : D -> bool;
  room : D -> nat;
  patience : D -> nat;
  ready_room : forall d, ready d = true -> (TX_FIFO <= room d)%nat;
  lsr_ok : forall th d, exists v d', ReadReg LSR th d = Ok v th d' /\ sent d' = sent d /\ (room d <= room d')%nat /\
    (exists more, waiting d' = waiting d ++ more) /\
    ctrue (Z.land v LSR_TX_IDLE) = ready d' /\ ctrue (Z.land v 1) = negb (bool_decide (waiting d' = [])) /\
    (ready d' = true \/ (patience d' < patience d)%nat);
  isr_ok : forall th d, exists v d', ReadReg ISR th d = Ok v th d' /\ sent d' = sent d /\ (room d <= room d')%nat /\ waiting d' = waiting d;
  thr_ok : forall c th d, (0 < room d)%nat -> exists d', WriteReg THR c th d = Ok tt th d' /\ sent d' = sent d ++ [u8 c] /\
    (room d <= S (room d'))%nat /\ waiting d' = waiting d;
  rhr_ok : forall c l th d, waiting d = c :: l -> exists d', ReadReg RHR th d = Ok c th d' /\ is_u8 c /\ sent d' = sent d /\
    (room d <= room d')%nat /\ waiting d' = l;
}.

(** ** The transmit buffer is a queue *)

Section Fifo.
Context {D : Type} `{US : UartSpec D}.
Notation U := (uart D).

Definition tx_count (s : U) : nat := Z.to_nat (u64 (ua_w s - ua_r s)).
Definition tx_queue (s : U) : list Z := content UART_TX_BUF_SIZE (ua_buf s) (ua_r s) (tx_count s).

Record uart_inv (s : U) : Prop := mkUartInv {
  ui_len : length (ua_buf s) = 32%nat;
  ui_bytes : Forall (fun x => is_u8 x) (ua_buf s);
  ui_w : is_u64 (ua_w s);
  ui_r : is_u64 (ua_r s);
  ui_count : (tx_count s <= 32)%nat;
  ui_panicked : ua_panicked s = 0;
}.

Lemma tx_divides : (UART_TX_BUF_SIZE | 2 ^ 64).
Proof. by exists (2 ^ 59). Qed.

Lemma tx_w_eq (s : U) : uart_inv s -> ua_w s = u64 (ua_r s + Z.of_nat (tx_count s)).
Proof.
  intros [_ _ Hw Hr _ _]. unfold tx_count. rewrite Z2Nat.id by (apply u64_range). unfold u64. rewrite Zplus_mod_idemp_r.
  replace (ua_r s + (ua_w s - ua_r s)) with (ua_w s) by lia. by rewrite Z.mod_small.
Qed.

Lemma tx_full_iff (s : U) : uart_inv s -> (ua_w s =? u64 (ua_r s + UART_TX_BUF_SIZE)) = (tx_count s =? 32)%nat.
Proof.
  intros Hi. pose proof Hi as [_ _ Hw Hr Hc _]. rewrite (tx_w_eq s Hi) at 1. change UART_TX_BUF_SIZE with 32. unfold u64.
  destruct (Nat.eqb_spec (tx_count s) 32) as [->|Hne]; [apply Z.eqb_refl|]. apply Z.eqb_neq. Z.div_mod_to_equations. lia.
Qed.

Lemma tx_empty_iff (s : U) : uart_inv s -> (ua_w s =? ua_r s) = (tx_count s =? 0)%nat.
Proof.
  intros Hi. pose proof Hi as [_ _ Hw Hr Hc _]. rewrite (tx_w_eq s Hi) at 1. unfold u64.
  destruct (Nat.eqb_spec (tx_count s) 0) as [->|Hne]; [rewrite Z.add_0_r, Z.mod_small by lia; apply Z.eqb_refl|]. apply Z.eqb_neq. Z.div_mod_to_equations. lia.
Qed.

Definition with_uart_dev (d : D) (s : U) : U := mkUart (ua_buf s) (ua_w s) (ua_r s) (ua_panicked s) d.

Lemma uart_inv_dev d s : uart_inv s -> uart_inv (with_uart_dev d s).
Proof. intros [H1 H2 H3 H4 H5 H6]. by split. Qed.

Lemma tx_take_ok s c : uart_inv s -> tx_count s = S c ->
  uart_inv (tx_take s) /\ tx_count (tx_take s) = c /\ is_u8 (rget UART_TX_BUF_SIZE (ua_buf s) (ua_r s)) /\
  tx_queue s = rget UART_TX_BUF_SIZE (ua_buf s) (ua_r s) :: tx_queue (tx_take s).
Proof.
  intros Hi Hn. pose proof Hi as [H1 H2 H3 H4 H5 H6].
  assert (Hc : tx_count (tx_take s) = c).
  { unfold tx_count in *. cbn [tx_take ua_w ua_r]. unfold u64 in *. rewrite Zminus_mod_idemp_r.
    replace (ua_w s - (ua_r s + 1)) with (ua_w s - ua_r s - 1) by lia. rewrite <- Zminus_mod_idemp_l. rewrite Z.mod_small; lia. }
  split; [split; try done; [apply u64_range|lia]|]. split; [done|]. split.
  - unfold rget. change UART_TX_BUF_SIZE with 32. pose proof (Z.mod_pos_bound (ua_r s) 32 ltac:(lia)).
    destruct (lookup_lt_is_Some_2 (ua_buf s) (Z.to_nat (ua_r s mod 32))) as [x Hx]; [lia|]. rewrite Hx. exact (Forall_lookup_1 _ _ _ _ H2 Hx).
  - unfold tx_queue. rewrite Hn, Hc, content_S. cbn [tx_take ua_buf ua_r]. f_equal. apply content_mod. symmetry. apply mod_wrap; [done|lia|apply tx_divides].
Qed.

Lemma tx_put_ok s c : uart_inv s -> (tx_count s < 32)%nat ->
  uart_inv (tx_put c s) /\ tx_count (tx_put c s) = S (tx_count s) /\ tx_queue (tx_put c s) = tx_queue s ++ [u8 c].
Proof.
  intros Hi Hn. pose proof Hi as [H1 H2 H3 H4 H5 H6].
  assert (Hc : tx_count (tx_put c s) = S (tx_count s)).
  { unfold tx_count in *. cbn [tx_put ua_w ua_r]. unfold u64 in *. rewrite Zminus_mod_idemp_l.
    replace (ua_w s + 1 - ua_r s) with (ua_w s - ua_r s + 1) by lia. rewrite <- Zplus_mod_idemp_l.
    pose proof (Z.mod_pos_bound (ua_w s - ua_r s) (2 ^ 64) ltac:(lia)). rewrite Z.mod_small; lia. }
  split_and!; [split; try done|done|].
  - cbn. by rewrite length_rset.
  - cbn. apply Forall_insert; [done|apply u8_range].
  - apply u64_range.
  - lia.
  - unfold tx_queue. rewrite Hc. cbn [tx_put ua_buf ua_r]. rewrite (rset_mod _ _ _ (ua_r s + Z.of_nat (tx_count s))).
    + apply content_push; [done|by rewrite H1|change UART_TX_BUF_SIZE with 32; lia].
    + rewrite (tx_w_eq s Hi) at 1. apply mod_wrap; [done|lia|apply tx_divides].
Qed.

(** What a run of the transmitter does: it sends a prefix of the queue, and wakes the
    writers when it has made room. *)
Record drained (th th' : thread) (s s' : U) (q : list Z) : Prop := mkDrained {
  dr_thread : same_thread th th';
  dr_inv : uart_inv s';
  dr_queue : tx_queue s = q ++ tx_queue s';
  dr_sent : sent (ua_dev s') = sent (ua_dev s) ++ q;
  dr_count : tx_count s = (length q + tx_count s')%nat;
  dr_wake : q = [] \/ ChUartTxR ∈ th_woken th';
  dr_kept : forall ch, ch ∈ th_woken th -> ch ∈ th_woken th';
}.

Lemma uartstart_poll_ok th s : uart_inv s ->
  exists b d', uartstart_poll th s = Ok b th (with_uart_dev d' s) /\ sent d' = sent (ua_dev s) /\ (room (ua_dev s) <= room d')%nat /\
    (b = true -> (0 < tx_count s)%nat /\ (TX_FIFO <= room d')%nat).
Proof.
  intros Hi. unfold uartstart_poll. rewrite (bind_ok get _ th s s th s eq_refl), (tx_empty_iff s Hi).
  destruct (Nat.eqb_spec (tx_count s) 0) as [Hz|Hz].
  - destruct (isr_ok th (ua_dev s)) as (v & d' & E & Hs & Hr & _). rewrite (bind_ok _ _ _ _ _ _ _ (zoom_ok uart_dev_lens _ _ s _ _ _ E)).
    by exists false, d'.
  - destruct (lsr_ok th (ua_dev s)) as (v & d' & E & Hs & Hm & _ & Hr & _). rewrite (bind_ok _ _ _ _ _ _ _ (zoom_ok uart_dev_lens _ _ s _ _ _ E)).
    exists (ready d'), d'. rewrite <- Hr at 1. split; [done|]. split; [done|]. split; [done|]. intros H. split; [lia|by apply ready_room].
Qed.

Lemma uartstart_send_ok th s n : uart_inv s -> tx_count s = S n -> (0 < room (ua_dev s))%nat ->
  exists s' c, uartstart_send th s = Ok tt (woke ChUartTxR th) s' /\ uart_inv s' /\ tx_count s' = n /\ tx_queue s = c :: tx_queue s' /\
    sent (ua_dev s') = sent (ua_dev s) ++ [c] /\ (room (ua_dev s) <= S (room (ua_dev s')))%nat.
Proof.
  intros Hi Hn Hr. destruct (tx_take_ok s n Hi Hn) as (Hi2 & Hn2 & Hb & Hq). set (c := rget UART_TX_BUF_SIZE (ua_buf s) (ua_r s)) in *.
  destruct (thr_ok c (woke ChUartTxR th) (ua_dev s) Hr) as (d2 & E2 & Hs2 & Hr2 & _). exists (with_uart_dev d2 (tx_take s)), c.
  split; [exact (zoom_ok uart_dev_lens _ _ (tx_take s) _ _ _ E2)|]. split; [by apply uart_inv_dev|]. cbn. rewrite Hs2, u8_id by done. done.
Qed.

Lemma uartstart_loop_ok n : forall fuel th s, uart_inv s -> tx_count s = n -> (n < fuel)%nat ->
  exists th' s' q, uartstart_loop fuel th s = Ok tt th' s' /\ drained th th' s s' q.
Proof.
  induction n as [|n IH]; intros fuel th s Hi Hn Hf; (destruct fuel as [|fuel]; [lia|]); cbn [uartstart_loop];
    destruct (uartstart_poll_ok th s Hi) as (b & d' & E & Hs & _ & Hb); rewrite (bind_ok _ _ _ _ _ _ _ E);
    (destruct b; [destruct (Hb eq_refl) as [Hb1 Hb2]|exists th, (with_uart_dev d' s), []; split; [done|]; split; try done; [by apply uart_inv_dev|by cbn; rewrite app_nil_r|by left]]); [lia|].
  destruct (uartstart_send_ok th (with_uart_dev d' s) n) as (s2 & c & E2 & Hi2 & Hn2 & Hq & Hs2 & _); [by apply uart_inv_dev|done|unfold TX_FIFO in Hb2; cbn; lia|].
  rewrite (bind_ok _ _ _ _ _ _ _ E2).
  destruct (IH fuel (woke ChUartTxR th) s2) as (th' & s' & q & E3 & [D1 D2 D3 D4 D5 D6 D7]); [done|done|lia|].
  exists th', s', (c :: q). split; [exact E3|]. split; try done.
  - change (tx_queue s) with (tx_queue (with_uart_dev d' s)). by rewrite Hq, D3.
  - rewrite D4, Hs2, <- app_assoc. cbn. by rewrite Hs.
  - cbn [length]. lia.
  - right. apply D7. cbn. set_solver.
  - intros ch H. apply D7. cbn. set_solver.
Qed.

Lemma uartstart_ok th s : uart_inv s -> exists th' s' q, uartstart th s = Ok tt th' s' /\ drained th th' s s' q.
Proof. intros Hi. unfold uartstart. rewrite (bind_ok get _ th s s th s eq_refl). apply (uartstart_loop_ok (tx_count s)); [done|done|]. fold (tx_count s). lia. Qed.

Lemma putc_enter_ok b c th s : uart_inv s -> LkUartTx ∉ th_held th ->
  putc_enter b c th s = if (tx_count s =? 32)%nat then Ok PutAsleep th s else Ok PutDone (set_held (LkUartTx :: th_held th) th) (tx_put c s).
Proof.
  intros Hi Hlk. unfold putc_enter. rewrite (bind_ok _ _ _ _ _ _ _ (acquire_ok LkUartTx th s Hlk)). set (th1 := set_held _ th).
  rewrite (bind_ok get _ th1 s s th1 s eq_refl), (ui_panicked s Hi), (tx_full_iff s Hi). change (ctrue 0) with false. rewrite andb_false_r.
  destruct (Nat.eqb_spec (tx_count s) 32) as [Hf|Hf]; [|done].
  by rewrite (bind_ok _ _ _ _ _ _ _ (release_acquired LkUartTx th s Hlk)).
Qed.

Lemma putc_stretch_ok b c th s : uart_inv s -> LkUartTx ∉ th_held th ->
  if (tx_count s =? 32)%nat then putc_stretch b c th s = Ok PutAsleep th s
  else exists th' s' q, putc_stretch b c th s = Ok PutDone th' s' /\ drained th th' (tx_put c s) s' q.
Proof.
  intros Hi Hlk. unfold putc_stretch. pose proof (putc_enter_ok b c th s Hi Hlk) as E0.
  destruct (Nat.eqb_spec (tx_count s) 32) as [Hf|Hf]; rewrite (bind_ok _ _ _ _ _ _ _ E0); [done|]. set (th1 := set_held _ th).
  destruct (tx_put_ok s c Hi) as (Hi1 & _); [pose proof (ui_count s Hi); lia|].
  destruct (uartstart_ok th1 (tx_put c s) Hi1) as (th2 & s' & q & E & [D1 D2 D3 D4 D5 D6 D7]). rewrite (bind_ok _ _ _ _ _ _ _ E).
  destruct D1 as (E1 & E2 & E3).
  rewrite (bind_ok _ _ _ _ _ _ _ (release_ok LkUartTx (th_held th) th2 s' E1 Hlk)). eexists _, s', q. split; [done|]. by split.
Qed.

Lemma tx_idle_ok th s : exists d', tx_idle th s = Ok (ready d') th (with_uart_dev d' s) /\ sent d' = sent (ua_dev s) /\ (room (ua_dev s) <= room d')%nat /\
  (exists more, waiting d' = waiting (ua_dev s) ++ more) /\ (ready d' = true \/ (patience d' < patience (ua_dev s))%nat).
Proof.
  destruct (lsr_ok th (ua_dev s)) as (v & d' & E & Hs & Hm & Hw & Hr & _ & Ht). exists d'.
  unfold tx_idle. rewrite (bind_ok _ _ _ _ _ _ _ (zoom_ok uart_dev_lens _ _ s _ _ _ E)). by rewrite <- Hr at 1.
Qed.

Lemma wait_idle_ok fuel : forall th s, (patience (ua_dev s) <= fuel)%nat ->
  exists d', wait_idle fuel th s = Ok tt th (with_uart_dev d' s) /\ sent d' = sent (ua_dev s) /\ ready d' = true /\
    exists more, waiting d' = waiting (ua_dev s) ++ more.
Proof.
  induction fuel as [|fuel IH]; intros th s Hp; cbn [wait_idle];
    destruct (tx_idle_ok th s) as (d' & E & Hs & _ & [more Hm] & Ht); rewrite (bind_ok _ _ _ _ _ _ _ E);
    (destruct (ready d') eqn:Hr; [exists d'; split_and!; try done; by exists more|destruct Ht as [?|Ht]; [done|]]).
  - lia.
  - destruct (IH th (with_uart_dev d' s)) as (d2 & E2 & Hs2 & Hr2 & more2 & Hm2); [cbn; lia|]. exists d2. split; [exact E2|].
    cbn in Hs2, Hm2. split; [congruence|]. split; [done|]. exists (more ++ more2). by rewrite Hm2, Hm, app_assoc.
Qed.

Lemma uartputc_sync_ok spin c th s : ua_panicked s = 0 -> (patience (ua_dev s) <= spin)%nat ->
  exists d', uartputc_sync spin c th s = Ok tt th (with_uart_dev d' s) /\ sent d' = sent (ua_dev s) ++ [u8 c] /\
    exists more, waiting d' = waiting (ua_dev s) ++ more.
Proof.
  intros Hp Hs. unfold uartputc_sync. rewrite (bind_ok get _ th s s th s eq_refl), Hp. change (ctrue 0) with false. cbn iota.
  destruct (wait_idle_ok spin th s Hs) as (d1 & E1 & Hs1 & Hr1 & more & Hm). rewrite (bind_ok _ _ _ _ _ _ _ E1).
  destruct (thr_ok c th d1) as (d2 & E2 & Hs2 & _ & Hw2); [apply ready_room in Hr1; unfold TX_FIFO in Hr1; lia|]. exists d2. unfold reg. rewrite (zoom_ok uart_dev_lens _ th (with_uart_dev d1 s) _ _ _ E2).
  split; [done|]. split; [congruence|]. exists more. congruence.
Qed.

(** ** Harts at the chip

    Any number of harts up to the size of the chip's FIFO, interleaved at every access to a
    register: [uartputc] and the transmit interrupt hold [uart_tx_lock] while they run
    [uartstart]; [uartputc_sync] holds no lock.  A writer is the bytes it still has to write,
    and whether it is asleep in [uartputc].  [us_out] is the sequence of bytes handed to the
    chip, those of the buffer marked with [true]; [us_acc] are the bytes [uartputc] has
    accepted, [us_syn] those [uartputc_sync] has written. *)

(** Where a hart is: at the head of the loop of [uartstart], about to send a byte of the
    buffer, in the loop of [uartputc_sync], or after it. *)
Inductive uhart := UIdle | UStart | USend | USync (c : Z) | USyncOut (c : Z).

Record usys := mkUsys {
  us_u : U; us_lock : option nat; us_harts : list uhart; us_writers : list (list Z * bool);
  us_out : list (bool * Z); us_acc : list Z; us_syn : list Z }.

Definition newly (u u' : U) : list Z := drop (length (sent (ua_dev u))) (sent (ua_dev u')).
Definition rouse (ws : list chan) (x : list Z * bool) : list Z * bool :=
  if bool_decide (ChUartTxR ∈ ws) then (fst x, false) else x.
Definition quiet_hart : thread := mkThread [] 0 0 [].
Definition locked_hart : thread := mkThread [LkUartTx] 0 0 [].

Definition sync_out (c : Z) : M U unit := reg (WriteReg THR c).

Inductive ustep (y : usys) : usys -> Prop :=
| uss_put h k b c l th u :
    us_harts y !! h = Some UIdle -> us_lock y = None -> us_writers y !! k = Some (c :: l, false) ->
    putc_enter b c quiet_hart (us_u y) = Ok PutDone th u ->
    ustep y (mkUsys u (Some h) (<[h := UStart]> (us_harts y)) (<[k := (l, false)]> (us_writers y)) (us_out y) (us_acc y ++ [u8 c]) (us_syn y))
| uss_sleep h k b c l th u :
    us_harts y !! h = Some UIdle -> us_lock y = None -> us_writers y !! k = Some (c :: l, false) ->
    putc_enter b c quiet_hart (us_u y) = Ok PutAsleep th u ->
    ustep y (mkUsys u None (us_harts y) (<[k := (c :: l, true)]> (us_writers y)) (us_out y) (us_acc y) (us_syn y))
| uss_intr h :
    us_harts y !! h = Some UIdle -> us_lock y = None ->
    ustep y (mkUsys (us_u y) (Some h) (<[h := UStart]> (us_harts y)) (us_writers y) (us_out y) (us_acc y) (us_syn y))
| uss_poll h b th u :
    us_harts y !! h = Some UStart -> uartstart_poll locked_hart (us_u y) = Ok b th u ->
    ustep y (mkUsys u (if b then us_lock y else None) (<[h := if b then USend else UIdle]> (us_harts y)) (us_writers y) (us_out y) (us_acc y) (us_syn y))
| uss_send h th u :
    us_harts y !! h = Some USend -> uartstart_send locked_hart (us_u y) = Ok tt th u ->
    ustep y (mkUsys u (us_lock y) (<[h := UStart]> (us_harts y)) (rouse (th_woken th) <$> us_writers y)
      (us_out y ++ (pair true <$> newly (us_u y) u)) (us_acc y) (us_syn y))
| uss_sync h c :
    us_harts y !! h = Some UIdle ->
    ustep y (mkUsys (us_u y) (us_lock y) (<[h := USync c]> (us_harts y)) (us_writers y) (us_out y) (us_acc y) (us_syn y))
| uss_sync_poll h c b th u :
    us_harts y !! h = Some (USync c) -> tx_idle quiet_hart (us_u y) = Ok b th u ->
    ustep y (mkUsys u (us_lock y) (<[h := if b then USyncOut c else USync c]> (us_harts y)) (us_writers y) (us_out y) (us_acc y) (us_syn y))
| uss_sync_out h c th u :
    us_harts y !! h = Some (USyncOut c) -> sync_out c quiet_hart (us_u y) = Ok tt th u ->
    ustep y (mkUsys u (us_lock y) (<[h := UIdle]> (us_harts y)) (us_writers y)
      (us_out y ++ (pair false <$> newly (us_u y) u)) (us_acc y) (us_syn y ++ [u8 c]))
| uss_dev d :
    sent d = sent (ua_dev (us_u y)) -> (room (ua_dev (us_u y)) <= room d)%nat ->
    ustep y (mkUsys (with_uart_dev d (us_u y)) (us_lock y) (us_harts y) (us_writers y) (us_out y) (us_acc y) (us_syn y)).

(** The harts that have seen the FIFO empty and will write one byte each. *)
Definition due (x : uhart) : nat := match x with USend | USyncOut _ => 1 | _ => 0 end.
Definition dues (hs : list uhart) : nat := sum_list_with due hs.

Lemma dues_insert h x o hs : hs !! h = Some o -> (dues (<[h := x]> hs) + due o = dues hs + due x)%nat.
Proof.
  unfold dues. revert h. induction hs as [|y hs IH]; intros [|h] H; [done|done|..].
  - injection H as ->. change (<[0%nat := x]> (o :: hs)) with (x :: hs). cbn [sum_list_with]. lia.
  - change (<[S h := x]> (y :: hs)) with (y :: <[h := x]> hs). specialize (IH h H). cbn [sum_list_with]. lia.
Qed.

Lemma dues_le hs : (dues hs <= length hs)%nat.
Proof. induction hs as [|x hs IH]; [done|]. cbn. unfold dues in IH. destruct x; cbn; lia. Qed.

Definition in_start (x : uhart) : bool := match x with UStart | USend => true | _ => false end.

Record usys_inv (y : usys) : Prop := mkUsysInv {
  uy_inv : uart_inv (us_u y);
  uy_out : sent (ua_dev (us_u y)) = (us_out y).*2;
  uy_acc : (filter (fun x => fst x = true) (us_out y)).*2 ++ tx_queue (us_u y) = us_acc y;
  uy_syn : (filter (fun x => fst x = false) (us_out y)).*2 = us_syn y;
  uy_asleep : forall l, (l, true) ∈ us_writers y -> tx_count (us_u y) = 32%nat;
  uy_few : (length (us_harts y) <= TX_FIFO)%nat;
  uy_room : (dues (us_harts y) <= room (ua_dev (us_u y)))%nat;
  uy_lock : forall h x, us_harts y !! h = Some x -> in_start x = true -> us_lock y = Some h;
  uy_send : forall h, us_harts y !! h = Some USend -> (0 < tx_count (us_u y))%nat;
}.

Lemma tagged_snd (b : bool) (l : list Z) : (pair b <$> l).*2 = l.
Proof. rewrite <- list_fmap_compose. apply list_fmap_id. Qed.

Lemma tagged_own (b c : bool) (l : list Z) : (filter (fun x => fst x = c) (pair b <$> l)).*2 = if bool_decide (b = c) then l else [].
Proof.
  induction l as [|x l IH]; [by destruct (bool_decide _)|]. rewrite fmap_cons, filter_cons. cbn [fst].
  case_bool_decide; [rewrite decide_True by done; by rewrite fmap_cons, IH|by rewrite decide_False].
Qed.

Lemma newly_app u u' q : sent (ua_dev u') = sent (ua_dev u) ++ q -> newly u u' = q.
Proof. intros E. unfold newly. rewrite E. apply drop_app_length. Qed.

Lemma rouse_asleep ws l (wr : list (list Z * bool)) : (l, true) ∈ rouse ws <$> wr -> (l, true) ∈ wr /\ ChUartTxR ∉ ws.
Proof.
  intros ([l' b] & E & Hin)%list_elem_of_fmap. unfold rouse in E. case_bool_decide; [done|]. by injection E as -> ->.
Qed.

Lemma insert_asleep k x l (wr : list (list Z * bool)) : (l, true) ∈ <[k := x]> wr -> snd x = true \/ (l, true) ∈ wr.
Proof.
  intros (j & Hj)%list_elem_of_lookup. apply list_lookup_insert_Some in Hj as [(_ & -> & _)|[_ Hj]]; [by left|right]. by eapply list_elem_of_lookup_2.
Qed.

(** The lock after a hart has moved from [o] to [x]. *)
Lemma lock_insert (hs : list uhart) (lock lock' : option nat) (h : nat) (o x : uhart) :
  (forall h' x', hs !! h' = Some x' -> in_start x' = true -> lock = Some h') -> hs !! h = Some o ->
  (in_start x = true -> lock' = Some h) -> (lock' = lock \/ lock = None \/ lock = Some h) ->
  forall h' x', <[h := x]> hs !! h' = Some x' -> in_start x' = true -> lock' = Some h'.
Proof.
  intros Hl Ho Hx Hc h' x' Hh Hs. apply list_lookup_insert_Some in Hh as [(<- & <- & _)|[Hne Hh]]; [by apply Hx|].
  pose proof (Hl h' x' Hh Hs) as E. destruct Hc as [->|[Hc|Hc]]; congruence.
Qed.

(** A step in which the buffer does not change: the chip is polled, or nothing happens. *)
Lemma quiet_step_inv y d lock' h o x : usys_inv y -> us_harts y !! h = Some o ->
  sent d = sent (ua_dev (us_u y)) -> (room (ua_dev (us_u y)) <= room d)%nat -> ((due x <= due o)%nat \/ (TX_FIFO <= room d)%nat) ->
  (in_start x = true -> lock' = Some h) -> (lock' = us_lock y \/ us_lock y = None \/ us_lock y = Some h) ->
  (x = USend -> (0 < tx_count (us_u y))%nat) ->
  usys_inv (mkUsys (with_uart_dev d (us_u y)) lock' (<[h := x]> (us_harts y)) (us_writers y) (us_out y) (us_acc y) (us_syn y)).
Proof.
  intros [Hi Ho Ha Hy Hs Hf Hr Hl Hn] Hh Hd Hroom Hdue Hx Hc Hsend.
  split; cbn [us_u us_lock us_harts us_writers us_out us_acc us_syn]; try done.
  - by apply uart_inv_dev.
  - cbn. congruence.
  - by rewrite length_insert.
  - pose proof (dues_insert h x o _ Hh). pose proof (dues_le (<[h := x]> (us_harts y))) as Hle. rewrite length_insert in Hle. cbn. destruct Hdue; lia.
  - by eapply lock_insert.
  - intros h' Hh'. cbn. apply list_lookup_insert_Some in Hh' as [(_ & -> & _)|[_ Hh']]; [by apply Hsend|by eapply Hn].
Qed.

Lemma usys_inv_step y y' : usys_inv y -> ustep y y' -> usys_inv y'.
Proof.
  intros Hinv St. pose proof Hinv as [Hi Ho Ha Hy Hs Hf Hr Hl Hn].
  assert (Hlk : LkUartTx ∉ th_held quiet_hart) by apply not_elem_of_nil.
  assert (Hself : us_u y = with_uart_dev (ua_dev (us_u y)) (us_u y)) by (by destruct (us_u y)).
  destruct St as [h k b c l th u Hh Hlock Hk E|h k b c l th u Hh Hlock Hk E|h Hh Hlock|h b th u Hh E|h th u Hh E|h c Hh|h c b th u Hh E|h c th u Hh E|d Hd Hroom].
  - rewrite (putc_enter_ok b c quiet_hart _ Hi Hlk) in E. destruct (Nat.eqb_spec (tx_count (us_u y)) 32) as [Hc|Hc]; [done|]. injection E as _ <-.
    destruct (tx_put_ok (us_u y) c Hi) as (Hi' & Hc' & Hq); [pose proof (ui_count _ Hi); lia|]. split; cbn [us_u us_lock us_harts us_writers us_out us_acc us_syn]; try done.
    + by rewrite Hq, app_assoc, Ha.
    + intros l' [?|Hin]%insert_asleep; [done|]. by destruct Hc; eapply Hs.
    + by rewrite length_insert.
    + pose proof (dues_insert h UStart UIdle _ Hh). cbn in *. lia.
    + eapply lock_insert; eauto.
    + intros h' _. rewrite Hc'. lia.
  - rewrite (putc_enter_ok b c quiet_hart _ Hi Hlk) in E. destruct (Nat.eqb_spec (tx_count (us_u y)) 32) as [Hc|Hc]; [|done]. injection E as _ <-.
    rewrite <- Hlock. by split.
  - rewrite Hself at 1. by eapply quiet_step_inv; eauto.
  - destruct (uartstart_poll_ok locked_hart (us_u y) Hi) as (b' & d & E' & Hd & Hroom & Hb). rewrite E in E'. injection E' as <- _ ->.
    pose proof (Hl h UStart Hh eq_refl) as Hlock. eapply quiet_step_inv; eauto.
    + destruct b; [right; by apply Hb|left; cbn; lia].
    + by destruct b.
    + destruct b; [|done]. intros _. by apply Hb.
  - pose proof (Hl h USend Hh eq_refl) as Hlock. pose proof (Hn h Hh) as Hpos. pose proof (dues_insert h UStart USend _ Hh) as Hdues. cbn [due] in Hdues.
    destruct (uartstart_send_ok locked_hart (us_u y) (pred (tx_count (us_u y)))) as (u' & c & E' & Hi' & Hc & Hq & Hsent & Hroom); [done|lia|lia|].
    rewrite E in E'. injection E' as -> ->. rewrite (newly_app _ _ [c] Hsent). split; cbn [us_u us_lock us_harts us_writers us_out us_acc us_syn]; try done.
    + by rewrite fmap_app, Hsent, Ho.
    + rewrite filter_app, fmap_app, tagged_own. cbn. by rewrite <- app_assoc, <- Ha, Hq.
    + rewrite filter_app, fmap_app, tagged_own. cbn. by rewrite app_nil_r.
    + intros l [_ Hw]%rouse_asleep. destruct Hw. cbn. set_solver.
    + by rewrite length_insert.
    + lia.
    + eapply lock_insert; eauto.
    + intros h' Hh'. apply list_lookup_insert_Some in Hh' as [(_ & ? & _)|[Hne Hh']]; [done|]. pose proof (Hl h' USend Hh' eq_refl). congruence.
  - rewrite Hself at 1. by eapply quiet_step_inv; eauto.
  - destruct (tx_idle_ok quiet_hart (us_u y)) as (d & E' & Hd & Hroom & _). rewrite E in E'. injection E' as -> _ ->.
    eapply quiet_step_inv; eauto; (destruct (ready d) eqn:Hrd; [|try done; by left]); [right; by apply ready_room|done|done].
  - pose proof (dues_insert h UIdle (USyncOut c) _ Hh) as Hdues. cbn [due] in Hdues.
    destruct (thr_ok c quiet_hart (ua_dev (us_u y))) as (d & E' & Hd & Hroom & _); [lia|].
    unfold sync_out, reg in E. rewrite (zoom_ok uart_dev_lens _ _ (us_u y) _ _ _ E') in E. injection E as _ <-.
    fold (with_uart_dev d (us_u y)). rewrite (newly_app _ (with_uart_dev d (us_u y)) [u8 c] Hd). split; cbn [us_u us_lock us_harts us_writers us_out us_acc us_syn]; try done.
    + by apply uart_inv_dev.
    + cbn. by rewrite fmap_app, Hd, Ho.
    + rewrite filter_app, fmap_app, tagged_own. cbn. by rewrite app_nil_r.
    + rewrite filter_app, fmap_app, tagged_own. cbn. by rewrite Hy.
    + by rewrite length_insert.
    + cbn. lia.
    + eapply lock_insert; eauto.
    + intros h' Hh'. apply list_lookup_insert_Some in Hh' as [(_ & ? & _)|[_ Hh']]; [done|]. by eapply Hn.
  - split; cbn [us_u us_lock us_harts us_writers us_out us_acc us_syn]; try done; cbn; [by apply uart_inv_dev|congruence|lia].
Qed.

(** The next access of a hart to the chip succeeds. *)
Definition hart_goes_on (x : uhart) (u : U) : Prop :=
  match x with
  | UIdle => True
  | UStart => exists b th u', uartstart_poll locked_hart u = Ok b th u'
  | USend => exists th u', uartstart_send locked_hart u = Ok tt th u'
  | USync c => exists b th u', tx_idle quiet_hart u = Ok b th u'
  | USyncOut c => exists th u', sync_out c quiet_hart u = Ok tt th u'
  end.

Lemma usys_inv_goes_on y h x : usys_inv y -> us_harts y !! h = Some x -> hart_goes_on x (us_u y).
Proof.
  intros [Hi Ho Ha Hy Hs Hf Hr Hl Hn] Hh. destruct x as [| | |c|c]; cbn; [done|..].
  - destruct (uartstart_poll_ok locked_hart (us_u y) Hi) as (b & d & E & _). eauto.
  - pose proof (Hn h Hh). pose proof (dues_insert h UIdle USend _ Hh) as Hd. cbn in Hd.
    destruct (uartstart_send_ok locked_hart (us_u y) (pred (tx_count (us_u y)))) as (u' & c & E & _); [done|lia|lia|]. eauto.
  - destruct (tx_idle_ok quiet_hart (us_u y)) as (d & E & _). eauto.
  - pose proof (dues_insert h UIdle (USyncOut c) _ Hh) as Hd. cbn in Hd.
    destruct (thr_ok c quiet_hart (ua_dev (us_u y))) as (d & E & _); [lia|]. unfold sync_out, reg.
    rewrite (zoom_ok uart_dev_lens _ _ (us_u y) _ _ _ E). eauto.
Qed.

(** Before any output. *)
Record usys_start (y : usys) : Prop := mkUsysStart {
  st_inv : uart_inv (us_u y);
  st_empty : tx_count (us_u y) = 0%nat;
  st_sent : sent (ua_dev (us_u y)) = [];
  st_lists : us_out y = [] /\ us_acc y = [] /\ us_syn y = [];
  st_lock : us_lock y = None;
  st_harts : (length (us_harts y) <= TX_FIFO)%nat /\ Forall (fun x => x = UIdle) (us_harts y);
  st_writers : forall l, (l, true) ∉ us_writers y;
}.

Lemma usys_start_inv y : usys_start y -> usys_inv y.
Proof.
  intros [Hi Hc Hs (Ho & Ha & Hy) Hl [Hf Hh] Hw]. rewrite Forall_lookup in Hh. split; try done.
  - by rewrite Hs, Ho.
  - rewrite Ho, Ha. unfold tx_queue. by rewrite Hc.
  - by rewrite Ho, Hy.
  - intros l H. by destruct (Hw l).
  - assert (dues (us_harts y) = 0%nat) as ->; [|lia]. clear -Hh. induction (us_harts y) as [|x hs IH]; [done|].
    cbn. rewrite (Hh 0%nat x eq_refl). apply IH. intros i. apply (Hh (S i)).
  - intros h x Hx Hin. by rewrite (Hh h x Hx) in Hin.
  - intros h Hx. by apply Hh in Hx.
Qed.

(** C29: output comes out in order and none is lost.  On a chip with its 16-byte FIFO
    switched on, starting from an empty buffer, with at most 16 harts (the kernel runs on at
    most 8) that interleave at every access to a register, some running [uartputc] or the
    transmit interrupt, others [uartputc_sync] without a lock: the chip has taken every byte
    written to it; those from the buffer, followed by the content of the buffer, are exactly
    the bytes [uartputc] accepted, in order, and the others are those of [uartputc_sync], in
    order.  The buffer never holds more than 32 bytes, and a writer sleeps only while it is
    full.  No access of a hart fails, and [uartputc] accepts its byte unless the buffer is
    full. *)
Theorem uart_output_fifo y0 y :
  usys_start y0 -> rtc ustep y0 y ->
  sent (ua_dev (us_u y)) = (us_out y).*2 /\
  (filter (fun x => fst x = true) (us_out y)).*2 ++ tx_queue (us_u y) = us_acc y /\
  (filter (fun x => fst x = false) (us_out y)).*2 = us_syn y /\
  (length (tx_queue (us_u y)) <= 32)%nat /\
  (forall l, (l, true) ∈ us_writers y -> length (tx_queue (us_u y)) = 32%nat) /\
  (forall b c, exists r th u, putc_enter b c quiet_hart (us_u y) = Ok r th u /\ (r = PutAsleep <-> length (tx_queue (us_u y)) = 32%nat)) /\
  forall h x, us_harts y !! h = Some x -> hart_goes_on x (us_u y).
Proof.
  intros H0 Hr. assert (Hy : usys_inv y).
  { eapply rtc_invariant; [apply usys_inv_step|by apply usys_start_inv|exact Hr]. }
  pose proof Hy as [Hi Ho Ha Hsy Hs Hf Hro Hl Hn]. unfold tx_queue in *. rewrite length_content. split_and!; try done; [apply Hi| |].
  - intros b c. rewrite (putc_enter_ok b c quiet_hart _ Hi) by apply not_elem_of_nil. destruct (Nat.eqb_spec (tx_count (us_u y)) 32); by eexists _, _, _.
  - intros h x. by apply usys_inv_goes_on.
Qed.
End Fifo.

(** ** A chip that sends a byte at once *)

Record chip := mkChip { ch_sent : list Z; ch_in : list Z }.

#[export] Instance chip_ops : UartDev chip := {
  ReadReg := fun r th d =>
    if r =? LSR then Ok (LSR_TX_IDLE + (if bool_decide (ch_in d = []) then 0 else 1)) th d
    else if r =? RHR then match ch_in d with c :: l => Ok (u8 c) th (mkChip (ch_sent d) l) | [] => Ok 0 th d end
    else Ok 0 th d;
  WriteReg := fun r c th d => Ok tt th (if r =? THR then mkChip (ch_sent d ++ [u8 c]) (ch_in d) else d);
}.

#[export] Instance chip_spec : UartSpec chip.
Proof.
  refine {| uart_ops := chip_ops; sent := ch_sent; waiting := fun d => u8 <$> ch_in d; ready := fun _ => true; room := fun _ => TX_FIFO; patience := fun _ => 0%nat |}.
  - intros d _. apply le_n.
  - intros th d. eexists _, d. split; [reflexivity|]. split; [done|]. split; [apply le_n|]. split; [exists []; by rewrite app_nil_r|].
    destruct d as [se [|c l]]; cbn; (split; [done|]); (split; [done|by left]).
  - intros th d. exists 0, d. split; [done|]. split; [done|]. split; [apply le_n|done].
  - intros c th d _. eexists. split; [reflexivity|]. split; [done|]. split; [apply le_S, le_n|done].
  - intros c l th [se [|c0 inp]] H; [done|]. injection H as <- <-. eexists. split; [reflexivity|]. split; [apply u8_range|]. split; [done|]. split; [apply le_n|done].
Defined.

Definition demo_uart : uart chip := mkUart (replicate 32 0) 0 0 0 (mkChip [] []).

(** A hart accepts the byte 65 of a writer and polls the chip; another has polled it too and
    writes 66 first. *)
Lemma uart_output_fifo_witness : exists y, rtc ustep (mkUsys demo_uart None [UIdle; UIdle] [([65], false)] [] [] []) y /\
  sent (ua_dev (us_u y)) = [66; 65] /\ (filter (fun x => fst x = true) (us_out y)).*2 ++ tx_queue (us_u y) = [65].
Proof.
  assert (Hr : rtc ustep (mkUsys demo_uart None [UIdle; UIdle] [([65], false)] [] [] [])
    (mkUsys (mkUart (65 :: replicate 31 0) 1 1 0 (mkChip [66; 65] [])) (Some 0%nat) [UStart; UIdle] [([], false)] [(false, 66); (true, 65)] [65] [66])).
  { eapply rtc_l; [exact (uss_put (mkUsys demo_uart None [UIdle; UIdle] [([65], false)] [] [] []) 0 0 true 65 [] _ _ eq_refl eq_refl eq_refl eq_refl)|].
    eapply rtc_l; [apply (uss_sync _ 1%nat 66); reflexivity|].
    eapply rtc_l; [apply (uss_sync_poll _ 1%nat 66 true quiet_hart); reflexivity|].
    eapply rtc_l; [apply (uss_poll _ 0%nat true locked_hart); reflexivity|].
    eapply rtc_l; [eapply (uss_sync_out _ 1%nat 66 quiet_hart); reflexivity|].
    eapply rtc_l; [apply (uss_send _ 0%nat (woke ChUartTxR locked_hart) (mkUart (65 :: replicate 31 0) 1 1 0 (mkChip [66; 65] []))); reflexivity|].
    apply rtc_refl. }
  eexists. split; [exact Hr|]. eapply uart_output_fifo in Hr as (H1 & H2 & _).
  - split; [exact H1|exact H2].
  - split; [split; try done; [by apply Forall_replicate|vm_compute; lia]|reflexivity|reflexivity|done|reflexivity| |].
    + split; [cbn; unfold TX_FIFO; lia|]. repeat constructor.
    + intros l Hl. apply list_elem_of_singleton in Hl. done.
Defined.
