(* ===== verification/Console.v ===== *)
(** * The console (kernel/console.c, [uartintr] of kernel/uart.c)

    Input is edited a line at a time.  The buffer is a ring with three indices: [r] up to
    [w] are the lines a reader may have, [w] up to [e] the line being typed.  The second
    half of the file shows that the driver is a line editor: typing and reading change two
    lists of characters as [ed_type] and [ed_read] say.

    The calling process enters through the class [ConsEnv]: the one-byte copies of
    [either_copyout] and [either_copyin], [killed(myproc())], and [procdump], which only
    prints. *)

From S2P Require Import Prelude Layout Ring Uart.

Definition INPUT_BUF_SIZE : Z := 128.
(** [C(x)], Control-x, for a letter given by its code. *)
Definition C (x : Z) : Z := x - 64.

Class ConsEnv (K : Type) := {
  put_byte : Z -> Z -> Z -> M K Z;          (* either_copyout(user_dst, dst, &c, 1) *)
  get_byte : Z -> Z -> M K (Z * Z);         (* either_copyin(&c, user_src, src, 1), and c *)
  env_killed : M K Z;
  env_procdump : M K unit;
}.

Record console (D : Type) := mkConsole {
  co_buf : list Z;
  co_r : Z;
  co_w : Z;
  co_e : Z;
  co_uart : uart D;
}.
Arguments mkConsole {D} _ _ _ _ _.
Arguments co_buf {D} _.
Arguments co_r {D} _.
Arguments co_w {D} _.
Arguments co_e {D} _.
Arguments co_uart {D} _.

Definition with_r {D} (x : Z) (s : console D) : console D := mkConsole (co_buf s) x (co_w s) (co_e s) (co_uart s).
Definition with_w {D} (x : Z) (s : console D) : console D := mkConsole (co_buf s) (co_r s) x (co_e s) (co_uart s).
Definition with_e {D} (x : Z) (s : console D) : console D := mkConsole (co_buf s) (co_r s) (co_w s) x (co_uart s).

Definition uart_lens {D} : lens (console D) (uart D) :=
  mkLens co_uart (fun u s => mkConsole (co_buf s) (co_r s) (co_w s) (co_e s) u).
Definition con_lens {D K} : lens (console D * K) (console D) := mkLens fst (fun x s => (x, snd s)).
Definition proc_lens {D K} : lens (console D * K) K := mkLens snd (fun x s => (fst s, x)).

(** The end of a stretch of [consoleread]: it returns, or sleeps having [n] bytes still to
    deliver at [dst]. *)
Inductive cres := CDone (r : Z) | CAsleep (dst n : Z).
(** The end of a stretch of [consolewrite]: it returns, or sleeps in [uartputc(c)] for byte [i]. *)
Inductive cwres := CwDone (r : Z) | CwAsleep (i c : Z).

Section Console.
Context {D : Type} `{UD : UartDev D} {K : Type} `{CE : ConsEnv K}.
Context (spin : nat).
Notation S := (console D * K)%type.

Definition con {A} (m : M (console D) A) : M S A := zoom con_lens m.
Definition in_proc {A} (m : M K A) : M S A := zoom proc_lens m.
Definition echo (c : Z) : M (console D) unit := zoom uart_lens (consputc spin c).

(** [for(i = ...; i < n; i++)]: [k] bytes are still to be written. *)
Fixpoint consolewrite_from (k : nat) (user_src src n i : Z) : M S cwres :=
  match k with
  | O => ret (CwDone i)
  | Datatypes.S k' =>
      let! c := in_proc (get_byte user_src (u64 (src + i))) in
      if fst c =? -1 then ret (CwDone i)
      else
        let! r := con (zoom uart_lens (uartputc (snd c))) in
        match r with
        | PutAsleep => ret (CwAsleep i (snd c))
        | PutDone => consolewrite_from k' user_src src n (i + 1)
        end
  end.
Definition consolewrite (user_src src n : Z) : M S cwres := consolewrite_from (Z.to_nat n) user_src src n 0.
(** A writer woken up in [uartputc(c)] tries again with the byte it has. *)
Definition consolewrite_resume (user_src src n i c : Z) : M S cwres :=
  let! r := con (zoom uart_lens (uartputc_resume c)) in
  match r with
  | PutAsleep => ret (CwAsleep i c)
  | PutDone => consolewrite_from (Z.to_nat (n - (i + 1))) user_src src n (i + 1)
  end.

Definition read_end (target n : Z) : M S cres := release LkCons;;; ret (CDone (i32 (target - n))).

(** The loop of [consoleread] with [n] bytes to go; each turn that goes on delivers one.
    [n] is positive where it is compared with the unsigned [target]. *)
Fixpoint consoleread_loop (fuel : nat) (user_dst target dst n : Z) : M S cres :=
  if 0 <? n then
    match fuel with
    | O => diverge
    | Datatypes.S f =>
        let! s := con get in
        if co_r s =? co_w s then
          let! k := in_proc env_killed in
          if ctrue k then release LkCons;;; ret (CDone (-1))
          else release LkCons;;; ret (CAsleep dst n)
        else
          let c := rget INPUT_BUF_SIZE (co_buf s) (co_r s) in
          con (modify (with_r (u32 (co_r s + 1))));;;
          if c =? C 68 then
            con (when (n <? target) (modify (fun s => with_r (u32 (co_r s - 1)) s)));;;
            read_end target n
          else
            let! x := in_proc (put_byte user_dst dst c) in
            if x =? -1 then read_end target n
            else if c =? 10 then read_end target (n - 1)
            else consoleread_loop f user_dst target (u64 (dst + 1)) (n - 1)
    end
  else read_end target n.

(** The call, from its start with [target = n], and, with what it still has to deliver,
    when it is woken up. *)
Definition consoleread (user_dst target dst n : Z) : M S cres :=
  acquire LkCons;;; consoleread_loop (Z.to_nat n) user_dst target dst n.

(** [while(cons.e != cons.w && cons.buf[(cons.e-1) % INPUT_BUF_SIZE] != '\n')] *)
Fixpoint kill_line (fuel : nat) : M (console D) unit :=
  let! s := get in
  if negb (co_e s =? co_w s) && negb (rget INPUT_BUF_SIZE (co_buf s) (u32 (co_e s - 1)) =? 10) then
    match fuel with
    | O => diverge
    | Datatypes.S f => modify (with_e (u32 (co_e s - 1)));;; echo BACKSPACE;;; kill_line f
    end
  else ret tt.

(** [cons.buf[cons.e++ % INPUT_BUF_SIZE] = c] *)
Definition store_char (c : Z) (s : console D) : console D :=
  mkConsole (rset INPUT_BUF_SIZE (co_buf s) (co_e s) c) (co_r s) (co_w s) (u32 (co_e s + 1)) (co_uart s).

(** The [default] case. *)
Definition insert_char (c : Z) : M (console D) unit :=
  let! s := get in
  when (negb (c =? 0) && (u32 (co_e s - co_r s) <? INPUT_BUF_SIZE))
    (let c := if c =? 13 then 10 else c in
     echo c;;;
     modify (store_char c);;;
     let! s := get in
     when ((c =? 10) || (c =? C 68) || (u32 (co_e s - co_r s) =? INPUT_BUF_SIZE))
       (modify (with_w (co_e s));;; wakeup ChConsR)).

(** The switch, for the cases that edit the line. *)
Definition edit (c : Z) : M (console D) unit :=
  let! s := get in
  if c =? C 85 then kill_line (Z.to_nat (u32 (co_e s - co_w s)))
  else if (c =? C 72) || (c =? 127) then
    when (negb (co_e s =? co_w s)) (modify (with_e (u32 (co_e s - 1)));;; echo BACKSPACE)
  else insert_char c.

Definition consoleintr (c : Z) : M S unit :=
  acquire LkCons;;;
  (if c =? C 80 then in_proc env_procdump else con (edit c));;;
  release LkCons.

(** Characters are read until the chip has none; [fuel] bounds how many arrive. *)
Fixpoint uartintr_loop (fuel : nat) : M S unit :=
  let! c := con (zoom uart_lens uartgetc) in
  if c =? -1 then ret tt
  else match fuel with O => diverge | Datatypes.S f => consoleintr c;;; uartintr_loop f end.

Definition uartintr (fuel : nat) : M S unit :=
  uartintr_loop fuel;;;
  acquire LkUartTx;;;
  con (zoom uart_lens uartstart);;;
  release LkUartTx.

Definition consoleinit : M (console D) unit := zoom uart_lens uartinit.

End Console.

(** ** The line editor

    The abstract console is the characters that may be read and the line being typed. *)

Definition editor : Type := list Z * list Z.

(** A typed character; [^U] empties the line, [^H] and DEL take back a character, and a
    newline, [^D] or a full buffer hand the line over. *)
Definition ed_type (c : Z) (x : editor) : editor :=
  let (rd, ln) := x in
  if c =? C 80 then x
  else if c =? C 85 then (rd, [])
  else if (c =? C 72) || (c =? 127) then (rd, removelast ln)
  else if (c =? 0) || (128 <=? Z.of_nat (length rd + length ln)) then x
  else
    let c := if c =? 13 then 10 else c in
    if (c =? 10) || (c =? C 68) || (Z.of_nat (length rd + length ln) =? 127) then (rd ++ ln ++ [c], [])
    else (rd, ln ++ [c]).

Definition rubout : list Z := [8; 32; 8].

(** What the user sees of it. *)
Definition ed_echo (c : Z) (x : editor) : list Z :=
  let (rd, ln) := x in
  if c =? C 80 then []
  else if c =? C 85 then mjoin (replicate (length ln) rubout)
  else if (c =? C 72) || (c =? 127) then (if bool_decide (ln = []) then [] else rubout)
  else if (c =? 0) || (128 <=? Z.of_nat (length rd + length ln)) then []
  else [if c =? 13 then 10 else c].

(** A read that has [n] of [target] bytes to go: what it delivers, what it leaves, how many
    are then to go, and whether it must wait.  [ok dst] tells whether address [dst] can be
    written. *)
Fixpoint ed_read (ok : Z -> bool) (target dst n : Z) (rd : list Z) : list Z * list Z * Z * bool :=
  if n <=? 0 then ([], rd, n, false)
  else
    match rd with
    | [] => ([], [], n, true)
    | c :: rd' =>
        if c =? C 68 then ([], if n <? target then rd else rd', n, false)
        else if negb (ok dst) then ([], rd', n, false)
        else if c =? 10 then ([c], rd', n - 1, false)
        else
          let '(l, rest, n', w) := ed_read ok target (u64 (dst + 1)) (n - 1) rd' in (c :: l, rest, n', w)
    end.

Lemma ed_read_waits ok target rd : forall dst n,
  let '(_, rest, _, w) := ed_read ok target dst n rd in w = true -> rest = [].
Proof.
  induction rd as [|c rd IH]; intros dst n; cbn [ed_read]; destruct (n <=? 0); try done.
  destruct (c =? C 68), (negb (ok dst)), (c =? 10); try done. specialize (IH (u64 (dst + 1)) (n - 1)).
  by destruct (ed_read ok target (u64 (dst + 1)) (n - 1) rd) as [[[l rest] n'] w].
Qed.

(** Memory after the bytes [l] have been stored from [dst] on. *)
Fixpoint store_bytes (dst : Z) (l : list Z) (m : gmap Z Z) : gmap Z Z :=
  match l with [] => m | c :: l' => store_bytes (u64 (dst + 1)) l' (<[dst := c]> m) end.

(** What the driver relies on in the rest of the kernel: a copy of one byte stores it or
    fails with -1, depending on the address; [killed] is a flag; [procdump] returns. *)
Class ConsSpec (K : Type) := {
  cons_ops :: ConsEnv K;
  umem : K -> gmap Z Z;
  writable : K -> Z -> Z -> bool;
  is_killed : K -> bool;
  put_byte_ok : forall u dst c th k, exists k',
    put_byte u dst c th k = Ok (if writable k u dst then 0 else -1) th k' /\
    umem k' = (if writable k u dst then <[dst := c]> (umem k) else umem k) /\
    writable k' = writable k /\ is_killed k' = is_killed k;
  killed_ok : forall th k, env_killed th k = Ok (if is_killed k then 1 else 0) th k;
  procdump_ok : forall th k, env_procdump th k = Ok tt th k;
}.

(** ** The buffer holds the editor's state *)

Section Editor.
Context {D : Type} `{US : UartSpec D}.

Record crep (s : console D) (rd ln : list Z) : Prop := mkCrep {
  cr_len : length (co_buf s) = 128%nat;
  cr_r : is_u32 (co_r s);
  cr_w : co_w s = u32 (co_r s + Z.of_nat (length rd));
  cr_e : co_e s = u32 (co_r s + Z.of_nat (length rd + length ln));
  cr_content : content INPUT_BUF_SIZE (co_buf s) (co_r s) (length rd + length ln) = rd ++ ln;
  cr_cap : (length rd + length ln <= 128)%nat;
  cr_line : 10 ∉ ln;
  cr_panicked : ua_panicked (co_uart s) = 0;
}.

Lemma cons_divides : (INPUT_BUF_SIZE | 2 ^ 32).
Proof. by exists (2 ^ 25). Qed.

Lemma u32_add_eqb r a b : 0 <= a < 2 ^ 32 -> 0 <= b < 2 ^ 32 -> (u32 (r + a) =? u32 (r + b)) = (a =? b).
Proof.
  intros Ha Hb. unfold u32. destruct (Z.eqb_spec a b) as [->|Hne]; [apply Z.eqb_refl|]. apply Z.eqb_neq. Z.div_mod_to_equations. lia.
Qed.

Lemma u32_add_sub r a b : 0 <= a - b < 2 ^ 32 -> u32 (u32 (r + a) - u32 (r + b)) = a - b.
Proof. intros H. unfold u32. rewrite <- Zminus_mod. replace (r + a - (r + b)) with (a - b) by lia. by apply Z.mod_small. Qed.

Lemma crep_no_input s rd ln : crep s rd ln -> (co_r s =? co_w s) = bool_decide (rd = []).
Proof.
  intros [H1 H2 H3 H4 H5 H6 H7 H8]. rewrite H3. rewrite <- (u32_id (co_r s) H2) at 1. rewrite <- (Z.add_0_r (co_r s)) at 1.
  rewrite u32_add_eqb by lia. destruct rd; [done|]. cbn [length]. by rewrite bool_decide_false.
Qed.

Lemma crep_no_line s rd ln : crep s rd ln -> (co_e s =? co_w s) = bool_decide (ln = []).
Proof.
  intros [H1 H2 H3 H4 H5 H6 H7 H8]. rewrite H3, H4, u32_add_eqb by lia.
  destruct ln; cbn [length]; [rewrite Nat.add_0_r; by rewrite Z.eqb_refl|]. rewrite bool_decide_false by done. apply Z.eqb_neq. lia.
Qed.

Lemma crep_used s rd ln : crep s rd ln -> u32 (co_e s - co_r s) = Z.of_nat (length rd + length ln).
Proof.
  intros [H1 H2 H3 H4 H5 H6 H7 H8]. rewrite H4. rewrite <- (u32_id (co_r s) H2) at 2. rewrite <- (Z.add_0_r (co_r s)) at 2.
  rewrite u32_add_sub; lia.
Qed.

Lemma crep_edit s rd ln : crep s rd ln -> u32 (co_e s - co_w s) = Z.of_nat (length ln).
Proof. intros [H1 H2 H3 H4 H5 H6 H7 H8]. rewrite H3, H4, u32_add_sub; lia. Qed.

(** The last character of the line. *)
Lemma crep_back s rd ln c : crep s rd (ln ++ [c]) ->
  crep (with_e (u32 (co_e s - 1)) s) rd ln /\ rget INPUT_BUF_SIZE (co_buf s) (u32 (co_e s - 1)) = c.
Proof.
  intros [H1 H2 H3 H4 H5 H6 H7 H8]. rewrite length_app in *. cbn [length] in *.
  assert (He : u32 (co_e s - 1) = u32 (co_r s + Z.of_nat (length rd + length ln))).
  { rewrite H4. unfold u32. rewrite Zminus_mod_idemp_l. f_equal. lia. }
  replace (length rd + (length ln + 1))%nat with (S (length rd + length ln)) in H5 by lia.
  rewrite content_snoc, app_assoc in H5. apply app_inj_tail in H5 as [H5 Hc]. split.
  - split; try done; [cbn; lia|]. intros Hin. apply H7. apply elem_of_app. by left.
  - rewrite <- Hc, He. unfold rget, u32. by rewrite mod_wrap by (done || apply cons_divides).
Qed.

(** A character is added at the end. *)
Lemma crep_store s rd ln c : crep s rd ln -> (length rd + length ln < 128)%nat -> is_u8 c ->
  (c <> 10 -> crep (store_char c s) rd (ln ++ [c])) /\
  crep (with_w (co_e (store_char c s)) (store_char c s)) (rd ++ ln ++ [c]) [].
Proof.
  intros [H1 H2 H3 H4 H5 H6 H7 H8] Hlt Hc.
  assert (Hcont : content INPUT_BUF_SIZE (co_buf (store_char c s)) (co_r s) (S (length rd + length ln)) = rd ++ ln ++ [c]).
  { cbn [store_char co_buf]. rewrite (rset_mod _ _ _ (co_r s + Z.of_nat (length rd + length ln))).
    - rewrite content_push, H5, u8_id, <- app_assoc; [done|done|done|by rewrite H1|change INPUT_BUF_SIZE with 128; lia].
    - rewrite H4. apply mod_wrap; [done|lia|apply cons_divides]. }
  assert (He : co_e (store_char c s) = u32 (co_r s + Z.of_nat (S (length rd + length ln)))).
  { cbn [store_char co_e]. rewrite H4. unfold u32. rewrite Zplus_mod_idemp_l. f_equal. lia. }
  split.
  - intros Hnl. split; try done; rewrite ?length_app; cbn [length]; replace (length rd + (length ln + 1))%nat with (S (length rd + length ln)) by lia;
      [by cbn; rewrite length_rset|exact He|done|lia|]. intros [Hin|Hin%list_elem_of_singleton]%elem_of_app; [done|congruence].
  - split; rewrite ?length_app; cbn [length]; rewrite ?length_app; cbn [length];
      try replace (length rd + (length ln + 1))%nat with (S (length rd + length ln)) by lia; rewrite ?Nat.add_0_r;
      [by cbn; rewrite length_rset|done|exact He|exact He|by rewrite app_nil_r|lia|apply not_elem_of_nil|done].
Qed.

(** The first character is taken. *)
Lemma crep_take s rd ln c : crep s (c :: rd) ln ->
  rget INPUT_BUF_SIZE (co_buf s) (co_r s) = c /\ crep (with_r (u32 (co_r s + 1)) s) rd ln.
Proof.
  intros [H1 H2 H3 H4 H5 H6 H7 H8]. cbn [length Nat.add app] in *. rewrite content_S in H5. injection H5 as Hc H5. split; [done|].
  split; cbn [co_buf co_r co_w co_e co_uart with_r]; try done; [apply u32_range| | |rewrite <- H5|lia].
  - rewrite H3. unfold u32. rewrite Zplus_mod_idemp_l. f_equal. lia.
  - rewrite H4. unfold u32. rewrite Zplus_mod_idemp_l. f_equal. lia.
  - apply content_mod. apply mod_wrap; [done|lia|apply cons_divides].
Qed.

(** It is put back. *)
Lemma crep_untake s rd ln c : crep s (c :: rd) ln ->
  with_r (u32 (u32 (co_r s + 1) - 1)) (with_r (u32 (co_r s + 1)) s) = s.
Proof.
  intros [_ H2 _ _ _ _ _ _]. replace (u32 (u32 (co_r s + 1) - 1)) with (co_r s); [by destruct s|].
  unfold u32. rewrite Zminus_mod_idemp_l. rewrite Z.mod_small; lia.
Qed.

(** ** The operations *)

Context {K : Type} `{KS : ConsSpec K} (spin : nat).
(** The chip is never seen busy more than [spin] times in a row. *)
Hypothesis Hspin : forall d : D, (patience d <= spin)%nat.

Definition with_dev (d : D) (s : console D) : console D :=
  mkConsole (co_buf s) (co_r s) (co_w s) (co_e s) (with_uart_dev d (co_uart s)).
Definition out (s : console D) : list Z := sent (ua_dev (co_uart s)).

Lemma crep_dev d s rd ln : crep s rd ln -> crep (with_dev d s) rd ln.
Proof. by intros [H1 H2 H3 H4 H5 H6 H7 H8]. Qed.

Lemma echo_char c th s : c <> BACKSPACE -> ua_panicked (co_uart s) = 0 ->
  exists d, echo spin c th s = Ok tt th (with_dev d s) /\ sent d = out s ++ [u8 c].
Proof.
  intros Hc Hp. unfold echo, consputc. rewrite (proj2 (Z.eqb_neq _ _) Hc).
  destruct (uartputc_sync_ok spin c th (co_uart s) Hp (Hspin _)) as (d & E & Hd & _). exists d. by rewrite (zoom_ok uart_lens _ th s _ _ _ E).
Qed.

Lemma echo_rubout th s : ua_panicked (co_uart s) = 0 ->
  exists d, echo spin BACKSPACE th s = Ok tt th (with_dev d s) /\ sent d = out s ++ rubout.
Proof.
  intros Hp. unfold echo, consputc. rewrite Z.eqb_refl.
  destruct (uartputc_sync_ok spin 8 th (co_uart s) Hp (Hspin _)) as (d1 & E1 & Hd1 & _).
  destruct (uartputc_sync_ok spin 32 th (with_uart_dev d1 (co_uart s)) Hp (Hspin _)) as (d2 & E2 & Hd2 & _).
  destruct (uartputc_sync_ok spin 8 th (with_uart_dev d2 (co_uart s)) Hp (Hspin _)) as (d3 & E3 & Hd3 & _).
  exists d3. erewrite (zoom_ok uart_lens _ th s _ th (with_uart_dev d3 (co_uart s))).
  - split; [done|]. cbn in Hd2, Hd3. by rewrite Hd3, Hd2, Hd1, <- !app_assoc.
  - cbn [view uart_lens]. by rewrite (bind_ok _ _ _ _ _ _ _ E1), (bind_ok _ _ _ _ _ _ _ E2).
Qed.

Lemma kill_line_ok ln : forall th s rd, crep s rd ln ->
  exists s', kill_line spin (length ln) th s = Ok tt th s' /\ crep s' rd [] /\ out s' = out s ++ mjoin (replicate (length ln) rubout).
Proof.
  induction ln as [|c ln IH] using rev_ind; intros th s rd Hr.
  - exists s. cbn [length kill_line]. rewrite (bind_ok get _ th s s th s eq_refl), (crep_no_line _ _ _ Hr). split; [done|]. split; [done|]. by rewrite app_nil_r.
  - destruct (crep_back _ _ _ _ Hr) as [Hr1 Hc]. rewrite length_app, Nat.add_1_r. cbn [kill_line].
    rewrite (bind_ok get _ th s s th s eq_refl), (crep_no_line _ _ _ Hr), Hc, bool_decide_false by (by destruct ln).
    assert (Hnl : (c =? 10) = false) by (apply Z.eqb_neq; intros ->; apply (cr_line _ _ _ Hr); rewrite elem_of_app, list_elem_of_singleton; by right).
    rewrite Hnl. cbn [negb andb]. set (s1 := with_e _ s) in *. rewrite (bind_ok (modify (with_e (u32 (co_e s - 1)))) _ th s tt th s1 eq_refl).
    destruct (echo_rubout th s1 (cr_panicked _ _ _ Hr1)) as (d & E & Hd). rewrite (bind_ok _ _ _ _ _ _ _ E).
    destruct (IH th (with_dev d s1) rd (crep_dev d _ _ _ Hr1)) as (s' & E' & Hr' & Ho). exists s'. split; [exact E'|]. split; [done|].
    change (out (with_dev d s1)) with (sent d) in Ho. rewrite Ho, Hd, <- app_assoc. done.
Qed.

(** The outcome of typing a character, with the lock held. *)
Definition typed (c : Z) (th : thread) (s : console D) (x : editor) (th' : thread) (s' : console D) : Prop :=
  same_thread th th' /\ crep s' (fst (ed_type c x)) (snd (ed_type c x)) /\ out s' = out s ++ ed_echo c x /\
  (fst (ed_type c x) <> fst x -> ChConsR ∈ th_woken th').

Lemma insert_ok c th s rd ln : is_u8 c -> c <> C 80 -> c <> C 85 -> c <> C 72 -> c <> 127 -> crep s rd ln ->
  exists th' s', insert_char spin c th s = Ok tt th' s' /\ typed c th s (rd, ln) th' s'.
Proof.
  intros Hu H1 H2 H3 H4 Hr. unfold insert_char, typed, ed_type, ed_echo.
  rewrite (bind_ok get _ th s s th s eq_refl), (crep_used _ _ _ Hr).
  rewrite (proj2 (Z.eqb_neq c _) H1), (proj2 (Z.eqb_neq c _) H2), (proj2 (Z.eqb_neq c _) H3), (proj2 (Z.eqb_neq c _) H4). cbn [orb].
  change INPUT_BUF_SIZE with 128. replace ((c =? 0) || (128 <=? Z.of_nat (length rd + length ln)))
    with (negb (negb (c =? 0) && (Z.of_nat (length rd + length ln) <? 128))) by (rewrite negb_andb, negb_involutive; f_equal; lia).
  destruct (negb (c =? 0) && (Z.of_nat (length rd + length ln) <? 128)) eqn:Hroom; cbn [negb].
  2: { exists th, s. split; [done|]. split; [done|]. split; [done|]. split; [by rewrite app_nil_r|done]. }
  apply andb_prop in Hroom as [_ Hroom%Z.ltb_lt]. set (c' := if c =? 13 then 10 else c).
  assert (Hu' : is_u8 c') by (unfold c'; destruct (c =? 13); [lia|done]).
  destruct (echo_char c' th s) as (d & E & Hd); [unfold BACKSPACE; lia|apply Hr|]. rewrite u8_id in Hd by done.
  destruct (crep_store (with_dev d s) rd ln c' (crep_dev d _ _ _ Hr)) as [Hst Hcm]; [lia|done|].
  cbn [when]. rewrite (bind_ok _ _ _ _ _ _ _ E). set (s1 := store_char c' (with_dev d s)) in *.
  rewrite (bind_ok (modify (store_char c')) _ th _ tt th s1 eq_refl), (bind_ok get _ th s1 s1 th s1 eq_refl).
  assert (Hn : u32 (co_e s1 - co_r s1) = Z.of_nat (length rd + length ln) + 1).
  { transitivity (u32 (co_e (with_w (co_e s1) s1) - co_r (with_w (co_e s1) s1))); [done|]. rewrite (crep_used _ _ _ Hcm), !length_app. cbn [length]. lia. }
  rewrite Hn. replace (Z.of_nat (length rd + length ln) + 1 =? 128) with (Z.of_nat (length rd + length ln) =? 127) by lia.
  destruct ((c' =? 10) || (c' =? C 68) || (Z.of_nat (length rd + length ln) =? 127)) eqn:Hend.
  - eexists (woke ChConsR th), _. split; [reflexivity|]. split; [done|]. split; [exact Hcm|]. split; [exact Hd|]. intros _. cbn. set_solver.
  - exists th, s1. split; [done|]. split; [done|]. split; [apply Hst; lia|]. split; [exact Hd|done].
Qed.

Lemma removelast_snoc {A} (l : list A) x : removelast (l ++ [x]) = l.
Proof. rewrite removelast_app by done. apply app_nil_r. Qed.

Lemma edit_ok c th s rd ln : is_u8 c -> c <> C 80 -> crep s rd ln ->
  exists th' s', edit spin c th s = Ok tt th' s' /\ typed c th s (rd, ln) th' s'.
Proof.
  intros Hu H1 Hr. unfold edit. rewrite (bind_ok get _ th s s th s eq_refl).
  destruct (Z.eqb_spec c (C 85)) as [->|H2].
  { rewrite (crep_edit _ _ _ Hr), Nat2Z.id. destruct (kill_line_ok ln th s rd Hr) as (s' & E & Hr' & Ho). exists th, s'. split; [exact E|].
    split; [done|]. split; [exact Hr'|]. by split. }
  destruct ((c =? C 72) || (c =? 127)) eqn:Hb; [|apply insert_ok; try done; intros ->; done].
  unfold typed, ed_type, ed_echo. rewrite Hb, (proj2 (Z.eqb_neq c (C 80))), (proj2 (Z.eqb_neq c (C 85))) by done.
  rewrite (crep_no_line _ _ _ Hr). destruct ln as [|x ln _] using rev_ind.
  - exists th, s. split; [done|]. split; [done|]. split; [done|]. split; [by rewrite app_nil_r|done].
  - rewrite bool_decide_false by (by destruct ln). rewrite removelast_snoc. cbn [negb when].
    destruct (crep_back _ _ _ _ Hr) as [Hr1 _]. set (s1 := with_e _ s) in *. rewrite (bind_ok (modify (with_e (u32 (co_e s - 1)))) _ th s tt th s1 eq_refl).
    destruct (echo_rubout th s1 (cr_panicked _ _ _ Hr1)) as (d & E & Hd). exists th, (with_dev d s1). split; [exact E|]. split; [done|].
    split; [by apply crep_dev|]. split; [exact Hd|done].
Qed.

Lemma consoleintr_ok c th s k rd ln : is_u8 c -> LkCons ∉ th_held th -> crep s rd ln ->
  exists th' s', consoleintr spin c th (s, k) = Ok tt th' (s', k) /\ typed c th s (rd, ln) th' s'.
Proof.
  intros Hu Hl Hr. unfold consoleintr. rewrite (bind_ok _ _ _ _ _ _ _ (acquire_ok LkCons th (s, k) Hl)). set (th1 := set_held _ th).
  destruct (Z.eqb_spec c (C 80)) as [->|Hc].
  - unfold in_proc. rewrite (bind_ok _ _ _ _ _ _ _ (zoom_ok proc_lens _ th1 (s, k) _ _ _ (procdump_ok th1 k))). cbn [over proc_lens fst].
    exists th, s. split; [by apply release_acquired|]. split; [done|]. split; [done|]. split; [by rewrite app_nil_r|done].
  - destruct (edit_ok c th1 s rd ln Hu Hc Hr) as (th' & s' & E & (T1 & T2 & T3) & Hr' & Ho & Hw).
    unfold con. rewrite (bind_ok _ _ _ _ _ _ _ (zoom_ok con_lens _ th1 (s, k) _ _ _ E)). cbn [over con_lens snd].
    rewrite (release_ok LkCons (th_held th) th') by done. eexists _, s'. split; [reflexivity|]. split; [by split|]. by split.
Qed.

(** The result of a read that has ended as [ed_read] says. *)
Definition read_result (killed : bool) (target dst : Z) (l : list Z) (n : Z) (wait : bool) : cres :=
  if wait then (if killed then CDone (-1) else CAsleep (u64 (dst + Z.of_nat (length l))) n) else CDone (i32 (target - n)).

Lemma read_result_cons killed target dst (c : Z) l n wait :
  read_result killed target dst (c :: l) n wait = read_result killed target (u64 (dst + 1)) l n wait.
Proof.
  unfold read_result. replace (u64 (u64 (dst + 1) + Z.of_nat (length l))) with (u64 (dst + Z.of_nat (length (c :: l)))); [done|].
  unfold u64. rewrite Zplus_mod_idemp_l. f_equal. cbn [length]. lia.
Qed.

(** What a stretch of [consoleread] does to the console and the caller. *)
Definition has_read (u target dst n : Z) (s : console D) (k : K) (rd ln : list Z) (r : cres) (s' : console D) (k' : K) : Prop :=
  let '(l, rest, n', wait) := ed_read (writable k u) target dst n rd in
  r = read_result (is_killed k) target dst l n' wait /\ crep s' rest ln /\ out s' = out s /\
  umem k' = store_bytes dst l (umem k) /\ writable k' = writable k /\ is_killed k' = is_killed k.

Lemma read_end_ok target n th s : LkCons ∉ th_held th ->
  read_end (D := D) (K := K) target n (set_held (LkCons :: th_held th) th) s = Ok (CDone (i32 (target - n))) th s.
Proof. intros Hl. unfold read_end. by rewrite (bind_ok _ _ _ _ _ _ _ (release_acquired LkCons th s Hl)). Qed.

Lemma consoleread_loop_ok u target th (Hl : LkCons ∉ th_held th) fuel : forall dst n s k rd ln,
  is_u64 dst -> n <= Z.of_nat fuel -> crep s rd ln ->
  exists r s' k', consoleread_loop fuel u target dst n (set_held (LkCons :: th_held th) th) (s, k) = Ok r th (s', k') /\
    has_read u target dst n s k rd ln r s' k'.
Proof.
  induction fuel as [|fuel IH]; intros dst n s k rd ln Hd Hn Hr; cbn [consoleread_loop]; unfold has_read;
    (destruct (Z.ltb_spec 0 n) as [Hpos|Hpos];
      [|rewrite read_end_ok by done; exists (CDone (i32 (target - n))), s, k; split; [done|];
        destruct rd; cbn [ed_read]; rewrite (proj2 (Z.leb_le n 0) Hpos); by split]); [lia|].
  set (th1 := set_held _ th). unfold con at 1. rewrite (bind_ok _ _ _ _ _ _ _ (zoom_ok con_lens get th1 (s, k) _ _ _ eq_refl)).
  cbn [over view con_lens fst snd]. rewrite (crep_no_input _ _ _ Hr). destruct rd as [|c rd]; cbn [ed_read]; rewrite (proj2 (Z.leb_gt n 0)) by lia.
  { rewrite bool_decide_true by done. unfold in_proc. rewrite (bind_ok _ _ _ _ _ _ _ (zoom_ok proc_lens _ th1 (s, k) _ _ _ (killed_ok th1 k))).
    cbn [over view proc_lens fst snd]. unfold read_result. rewrite Z.add_0_r, u64_id by done.
    destruct (is_killed k) eqn:Hk; cbn [ctrue Z.eqb negb]; unfold th1; rewrite (bind_ok _ _ _ _ _ _ _ (release_acquired LkCons th (s, k) Hl)); by eexists _, s, k. }
  rewrite bool_decide_false by done. destruct (crep_take _ _ _ _ Hr) as [Hc Hr1]. rewrite Hc. set (s1 := with_r _ s) in *.
  unfold con at 1. rewrite (bind_ok _ _ _ _ _ _ _ (zoom_ok con_lens (modify (with_r (u32 (co_r s + 1)))) th1 (s, k) tt th1 s1 eq_refl)).
  cbn [over view con_lens fst snd]. destruct (c =? C 68).
  { unfold con. destruct (n <? target); cbn [when].
    - rewrite (bind_ok _ _ _ _ _ _ _ (zoom_ok con_lens (modify _) th1 (s1, k) tt th1 _ eq_refl)). cbn [over view con_lens fst snd].
      unfold s1 at 1. cbn [co_r with_r]. fold s1. unfold s1. rewrite (crep_untake _ _ _ _ Hr). unfold th1. rewrite read_end_ok by done. by eexists _, s, k.
    - rewrite (bind_ok _ _ _ _ _ _ _ (zoom_ok con_lens (ret tt) th1 (s1, k) tt th1 s1 eq_refl)). cbn [over con_lens snd]. unfold th1. rewrite read_end_ok by done. by eexists _, s1, k. }
  destruct (put_byte_ok u dst c th1 k) as (k1 & E & Hm & Hw & Hk). unfold in_proc at 1. rewrite (bind_ok _ _ _ _ _ _ _ (zoom_ok proc_lens _ th1 (s1, k) _ _ _ E)).
  cbn [over view proc_lens fst snd]. destruct (writable k u dst); [change (0 =? -1) with false|change (-1 =? -1) with true]; cbn [negb]; cbn iota.
  2: { unfold th1. rewrite read_end_ok by done. by eexists _, s1, k1. }
  destruct (c =? 10).
  { unfold th1. rewrite read_end_ok by done. by eexists _, s1, k1. }
  destruct (IH (u64 (dst + 1)) (n - 1) s1 k1 rd ln) as (r & s' & k' & E' & H); [apply u64_range|lia|done|].
  exists r, s', k'. split; [exact E'|]. unfold has_read in H. rewrite Hw in H. destruct (ed_read (writable k u) target (u64 (dst + 1)) (n - 1) rd) as [[[l rest] n'] w].
  destruct H as (-> & H1 & H2 & H3 & H4 & H5). rewrite Hk, read_result_cons. split; [done|]. split; [done|]. split; [exact H2|].
  cbn [store_bytes]. rewrite H3, Hm. split; [done|]. split; congruence.
Qed.

(** C28: the console driver is a line editor.  While the buffer holds the ready characters
    [rd] and the line [ln]: a typed character changes them as [ed_type] says and echoes what
    [ed_echo] says, and readers are woken whenever the ready characters change; a read
    delivers, leaves and returns what [ed_read] says, or, when nothing is ready, returns -1 if
    its process was killed and sleeps otherwise.  Neither fails or runs for ever. *)
Theorem console_is_line_editor th s k rd ln : LkCons ∉ th_held th -> crep s rd ln ->
  (forall c, is_u8 c -> exists th' s',
     consoleintr spin c th (s, k) = Ok tt th' (s', k) /\ same_thread th th' /\
     crep s' (fst (ed_type c (rd, ln))) (snd (ed_type c (rd, ln))) /\ out s' = out s ++ ed_echo c (rd, ln) /\
     (fst (ed_type c (rd, ln)) <> rd -> ChConsR ∈ th_woken th')) /\
  (forall u target dst n, is_u64 dst -> exists r s' k',
     consoleread u target dst n th (s, k) = Ok r th (s', k') /\
     let '(l, rest, n', wait) := ed_read (writable k u) target dst n rd in
     r = read_result (is_killed k) target dst l n' wait /\ crep s' rest ln /\ out s' = out s /\
     umem k' = store_bytes dst l (umem k) /\ (wait = true -> rest = [])).
Proof.
  intros Hl Hr. split.
  - intros c Hc. by apply consoleintr_ok.
  - intros u target dst n Hd. unfold consoleread. rewrite (bind_ok _ _ _ _ _ _ _ (acquire_ok LkCons th (s, k) Hl)).
    destruct (consoleread_loop_ok u target th Hl (Z.to_nat n) dst n s k rd ln Hd ltac:(lia) Hr) as (r & s' & k' & E & H). exists r, s', k'.
    split; [exact E|]. unfold has_read in H. pose proof (ed_read_waits (writable k u) target rd dst n) as Hw.
    destruct (ed_read (writable k u) target dst n rd) as [[[l rest] n'] w]. naive_solver.
Qed.
End Editor.

(** ** A console to run *)

#[export] Instance demo_cons_env : ConsEnv (gmap Z Z) := {
  put_byte := fun _ dst c th k => Ok 0 th (<[dst := c]> k);
  get_byte := fun _ src th k => Ok (0, default 0 (k !! src)) th k;
  env_killed := fun th k => Ok 0 th k;
  env_procdump := fun th k => Ok tt th k;
}.

#[export] Instance demo_cons_spec : ConsSpec (gmap Z Z).
Proof.
  refine {| cons_ops := demo_cons_env; umem := fun k => k; writable := fun _ _ _ => true; is_killed := fun _ => false |}; try done.
  intros u dst c th k. by exists (<[dst := c]> k).
Defined.

(** The user has typed [hi], and a newline before it. *)
Definition demo_console : console chip :=
  mkConsole ([10; 104; 105] ++ replicate 125 0) 0 1 3 demo_uart.

Lemma console_is_line_editor_witness :
  (exists th s, consoleintr 0 4 quiet_hart (demo_console, ∅ : gmap Z Z) = Ok tt th (s, ∅) /\ crep s [10; 104; 105; 4] []) /\
  exists s, consoleread 1 10 100 10 quiet_hart (demo_console, ∅ : gmap Z Z) = Ok (CDone 1) quiet_hart (s, {[100 := 10]}).
Proof.
  destruct (console_is_line_editor (US := chip_spec) (KS := demo_cons_spec) 0 (fun _ => le_n 0) quiet_hart demo_console ∅ [10] [104; 105]) as [Ht Hr].
  - apply not_elem_of_nil.
  - split; try done; [vm_compute; lia|]. rewrite list_elem_of_In. cbn. lia.
  - split.
    + destruct (Ht 4 ltac:(lia)) as (th & s & E & _ & Hc & _). by exists th, s.
    + destruct (Hr 1 10 100 10 ltac:(lia)) as (r & s & k & E & H). cbn in H. destruct H as (-> & _ & _ & -> & _). by exists s.
Defined.
