(* ===== verification/Ulib.v ===== *)
(** * The user library (user/ulib.c)

    A user program is its memory and the kernel below it.  The kernel enters through the
    class [UserOS] of system calls; a [read] gives the bytes it stores, so that a program's
    memory is changed only by the program's own definitions.  String loops take fuel, the
    number of bytes they may look at; a string that ends within it is all they need. *)

From S2P Require Import Prelude Layout Memory.

Class UserOS (K : Type) := {
  os_read : Z -> Z -> M K (Z * list Z);
  os_write : Z -> list Z -> M K Z;
  os_open : list Z -> Z -> M K Z;
  os_close : Z -> M K Z;
  os_fstat : Z -> M K (Z * list Z);
}.

Record uproc (K : Type) := mkUproc { u_mem : mem; u_os : K }.
Arguments mkUproc {K} _ _.
Arguments u_mem {K} _.
Arguments u_os {K} _.

Definition os_lens {K} : lens (uproc K) K := mkLens u_os (fun k s => mkUproc (u_mem s) k).

(** ** Strings *)

Fixpoint strcpy_loop (fuel : nat) (m : mem) (s t : Z) : option mem :=
  match fuel with
  | O => None
  | S f => let c := mget m t in
           let m' := mset m s c in
           if negb (c =? 0) then strcpy_loop f m' (s + 1) (t + 1) else Some m'
  end.
Definition strcpy (fuel : nat) (m : mem) (s t : Z) : option mem := strcpy_loop fuel m s t.

Fixpoint strcmp (fuel : nat) (m : mem) (p q : Z) : option Z :=
  match fuel with
  | O => None
  | S f => if ctrue (mget m p) && (mget m p =? mget m q) then strcmp f m (p + 1) (q + 1)
           else Some (mget m p - mget m q)
  end.

Fixpoint ustrlen_loop (fuel : nat) (m : mem) (s n : Z) : option Z :=
  match fuel with
  | O => None
  | S f => if ctrue (mget m (s + n)) then ustrlen_loop f m s (n + 1) else Some n
  end.
Definition ustrlen (fuel : nat) (m : mem) (s : Z) : option Z := ustrlen_loop fuel m s 0.

(** [Some 0] is the null pointer. *)
Fixpoint strchr (fuel : nat) (m : mem) (s c : Z) : option Z :=
  match fuel with
  | O => None
  | S f => if ctrue (mget m s) then (if mget m s =? c then Some s else strchr f m (s + 1) c) else Some 0
  end.

(** The value wraps around as an [int] does on this machine. *)
Fixpoint atoi_loop (fuel : nat) (m : mem) (s n : Z) : option Z :=
  match fuel with
  | O => None
  | S f => if (48 <=? mget m s) && (mget m s <=? 57) then atoi_loop f m (s + 1) (i32 (n * 10 + mget m s - 48)) else Some n
  end.
Definition atoi (fuel : nat) (m : mem) (s : Z) : option Z := atoi_loop fuel m s 0.

(** ** Memory *)

Fixpoint umemset_loop (n : nat) (m : mem) (cdst i c : Z) : mem :=
  match n with O => m | S n' => umemset_loop n' (mset m (cdst + i) c) cdst (i + 1) c end.
Definition umemset (m : mem) (dst c n : Z) : mem := umemset_loop (Z.to_nat n) m dst 0 c.

Definition umemmove (m : mem) (vdst vsrc n : Z) : mem :=
  if vsrc >? vdst then move_up (Z.to_nat n) m vdst vsrc
  else move_down (Z.to_nat n) m (vdst + n) (vsrc + n).

Fixpoint umemcmp (n : nat) (m : mem) (p1 p2 : Z) : Z :=
  match n with
  | O => 0
  | S n' => if negb (mget m p1 =? mget m p2) then mget m p1 - mget m p2 else umemcmp n' m (p1 + 1) (p2 + 1)
  end.

(** ** Input *)

Section Os.
Context {K : Type} `{UserOS K}.
Notation U := (uproc K).

Definition os {A} (m : M K A) : M U A := zoom os_lens m.
Definition load {A} (f : mem -> A) : M U A := gets (fun s => f (u_mem s)).
Definition store (f : mem -> mem) : M U unit := modify (fun s => mkUproc (f (u_mem s)) (u_os s)).
(** A string routine that runs on memory. *)
Definition run {A} (f : mem -> option A) : M U A :=
  let! r := load f in match r with Some a => ret a | None => diverge end.

Lemma run_ok {A} (f : mem -> option A) a th s : f (u_mem s) = Some a -> run f th s = Ok a th s.
Proof. intros E. unfold run. rewrite (bind_ok (load f) _ th s _ th s eq_refl). by rewrite E. Qed.

(** [read(fd, a, n)]: the bytes are stored at [a]. *)
Definition read (fd a n : Z) : M U Z :=
  let! r := os (os_read fd n) in
  store (fun m => mput m a (snd r));;;
  ret (fst r).
(** [write(fd, a, n)] *)
Definition write (fd a n : Z) : M U Z :=
  let! l := load (fun m => bytes m a (Z.to_nat n)) in
  os (os_write fd l).

(** [for(i = ...; i+1 < max; )]: [k] is [max - 1 - i]. *)
Fixpoint gets_loop (k : nat) (buf i : Z) : M U Z :=
  match k with
  | O => ret i
  | S k' =>
      let! cc := os (os_read 0 1) in
      if fst cc <? 1 then ret i
      else
        let c := u8 (default 0 (head (snd cc))) in
        store (fun m => mset m (buf + i) c);;;
        if (c =? 10) || (c =? 13) then ret (i + 1) else gets_loop k' buf (i + 1)
  end.
(** [gets] of the library. *)
Definition ugets (buf max : Z) : M U Z :=
  let! i := gets_loop (Z.to_nat (max - 1)) buf 0 in
  store (fun m => mset m (buf + i) 0);;;
  ret buf.

Definition stat (fuel : nat) (n st : Z) : M U Z :=
  let! len := run (fun m => ustrlen fuel m n) in
  let! path := load (fun m => bytes m n (Z.to_nat len)) in
  let! fd := os (os_open path 0) in
  if fd <? 0 then ret (-1)
  else
    let! r := os (os_fstat fd) in
    store (fun m => mput m st (snd r));;;
    os (os_close fd);;;
    ret (fst r).
End Os.

(** ** What they compute *)

(** The string [l] is stored at [a]. *)
Definition cstring (m : mem) (a : Z) (l : list Z) : Prop :=
  bytes m a (length l) = l /\ mget m (a + Z.of_nat (length l)) = 0 /\ 0 ∉ l.

Lemma cstring_nil m a : cstring m a [] <-> mget m a = 0.
Proof. unfold cstring. cbn. rewrite Z.add_0_r. split; [tauto|]. intros ->. split; [done|]. split; [done|]. apply not_elem_of_nil. Qed.

Lemma cstring_cons m a c l : cstring m a (c :: l) <-> mget m a = c /\ c <> 0 /\ cstring m (a + 1) l.
Proof.
  unfold cstring. cbn [length]. rewrite bytes_S, not_elem_of_cons. replace (a + Z.of_nat (S (length l))) with (a + 1 + Z.of_nat (length l)) by lia. split.
  - intros ([= H1 H2] & H3 & H4 & H5). by split_and!.
  - intros (-> & H2 & H3 & H4 & H5). split_and!; [by rewrite H3|done|done|done].
Qed.

Lemma cstring_ext m m' a l : cstring m a l -> (forall i, 0 <= i <= Z.of_nat (length l) -> mget m' (a + i) = mget m (a + i)) -> cstring m' a l.
Proof.
  intros (H1 & H2 & H3) E. split; [rewrite <- H1 at 2; apply bytes_ext; intros i Hi; apply E; lia|]. split; [rewrite E by lia; done|done].
Qed.

Lemma cstring_app m a l1 l2 : cstring m a (l1 ++ l2) -> cstring m (a + Z.of_nat (length l1)) l2 /\ bytes m a (length l1) = l1 /\ 0 ∉ l1.
Proof.
  intros (H1 & H2 & H3). rewrite length_app, bytes_app in H1. apply app_inj_1 in H1 as [H1 H1']; [|apply length_bytes]. rewrite length_app in H2. apply not_elem_of_app in H3 as [H3 H3'].
  split; [|done]. split; [done|]. split; [|done]. rewrite <- H2. f_equal. lia.
Qed.

Lemma strchr_found f : forall m s c l, c ∉ l -> 0 ∉ l -> c <> 0 -> bytes m s (S (length l)) = l ++ [c] -> (length l < f)%nat ->
  strchr f m s c = Some (s + Z.of_nat (length l)).
Proof.
  induction f as [|f IH]; intros m s c l Hc H0 Hnz Hb Hf; [lia|]. cbn [strchr]. rewrite bytes_S in Hb. destruct l as [|x l]; cbn [app length] in *.
  - injection Hb as ->. unfold ctrue. rewrite (proj2 (Z.eqb_neq c 0) Hnz), Z.eqb_refl. cbn. f_equal. lia.
  - injection Hb as -> Hb. apply not_elem_of_cons in Hc as [Hxc Hc]. apply not_elem_of_cons in H0 as [Hx0 H0].
    unfold ctrue. rewrite (proj2 (Z.eqb_neq x 0)) by congruence. rewrite (proj2 (Z.eqb_neq x c)) by congruence. cbn.
    rewrite (IH m (s + 1) c l) by (done || lia). f_equal. lia.
Qed.

Lemma strchr_none f : forall m s c l, c ∉ l -> cstring m s l -> (length l < f)%nat -> strchr f m s c = Some 0.
Proof.
  induction f as [|f IH]; intros m s c l Hc Hl Hf; [lia|]. cbn [strchr]. destruct l as [|x l]; cbn [length] in *.
  - apply cstring_nil in Hl. by rewrite Hl.
  - apply cstring_cons in Hl as (-> & Hx & Hl). apply not_elem_of_cons in Hc as [Hxc Hc].
    unfold ctrue. rewrite (proj2 (Z.eqb_neq x 0)) by congruence. rewrite (proj2 (Z.eqb_neq x c)) by congruence. cbn. by apply (IH _ _ _ l); [| |lia].
Qed.

Lemma ustrlen_loop_spec f : forall m s n l, cstring m (s + n) l -> (length l < f)%nat -> ustrlen_loop f m s n = Some (n + Z.of_nat (length l)).
Proof.
  induction f as [|f IH]; intros m s n l Hl Hf; [lia|]. cbn [ustrlen_loop]. destruct l as [|x l]; cbn [length] in *.
  - apply cstring_nil in Hl. rewrite Hl. cbn. f_equal. lia.
  - apply cstring_cons in Hl as (-> & Hx & Hl). unfold ctrue. rewrite (proj2 (Z.eqb_neq x 0) Hx). cbn. rewrite <- Z.add_assoc in Hl.
    rewrite (IH _ _ _ l) by (done || lia). f_equal. lia.
Qed.

Lemma ustrlen_spec f m s l : cstring m s l -> (length l < f)%nat -> ustrlen f m s = Some (Z.of_nat (length l)).
Proof. intros Hl Hf. unfold ustrlen. rewrite (ustrlen_loop_spec f m s 0 l); [done|by rewrite Z.add_0_r|done]. Qed.

(** [memmove] moves the bytes as they were before the call, also when the ranges overlap. *)
Lemma umemmove_get m d s n a : 0 <= n ->
  mget (umemmove m d s n) a = if (d <=? a) && (a <? d + n) then mget m (s + (a - d)) else mget m a.
Proof.
  intros Hn. unfold umemmove. destruct (Z.gtb_spec s d).
  - rewrite move_up_get by lia. rewrite Z2Nat.id by done. done.
  - rewrite move_down_get by lia. rewrite Z2Nat.id by done. replace (d + n - n) with d by lia. by replace (s + n + (a - (d + n))) with (s + (a - d)) by lia.
Qed.

Lemma umemmove_bytes m d s n : bytes (umemmove m d s (Z.of_nat n)) d n = bytes m s n.
Proof.
  apply bytes_ext. intros i Hi. rewrite umemmove_get by lia. replace (s + (d + i - d)) with (s + i) by lia. zbool.
Qed.

