(* ===== verification/Printf.v ===== *)
(** * Formatted output (kernel/printf.c, user/printf.c)

    Both printers turn a format and the arguments of the call, 64-bit values, into single
    characters.  [put] is the routine that takes them: [consputc] in the kernel, a [write] of
    one byte in user programs.  A string argument is an address in [m]; [fuel] bounds the
    length of strings.  The conversion buffers have 16 bytes, and storing past their end is
    a fault. *)

From S2P Require Import Prelude Layout Memory Uart Ulib.

Definition digits_lower : list Z := [48; 49; 50; 51; 52; 53; 54; 55; 56; 57; 97; 98; 99; 100; 101; 102].
Definition digits_upper : list Z := [48; 49; 50; 51; 52; 53; 54; 55; 56; 57; 65; 66; 67; 68; 69; 70].

(** [do { buf[i++] = digits[x % base]; } while((x /= base) != 0)]: the characters stored.  A
    64-bit value has at most 64 digits. *)
Fixpoint digit_loop (fuel : nat) (digits : list Z) (x base : Z) : list Z :=
  match fuel with
  | O => []
  | S f => default 0 (digits !! Z.to_nat (x mod base)) :: (if x / base =? 0 then [] else digit_loop f digits (x / base) base)
  end.

Section Printf.
Context {S : Type} (put : Z -> M S unit) (m : mem) (fuel : nat).

Fixpoint put_all (l : list Z) : M S unit := match l with [] => ret tt | c :: l' => put c;;; put_all l' end.

(** The characters of the conversion, last first, are in [buf]; they are printed from the end. *)
Definition put_buf (l : list Z) : M S unit :=
  if 16 <? Z.of_nat (length l) then fault "buf" else put_all (rev l).

(** [for(; *s; s++)] *)
Fixpoint put_string (f : nat) (s : Z) : M S unit :=
  match f with
  | O => diverge
  | Datatypes.S f => if ctrue (mget m s) then put (mget m s);;; put_string f (s + 1) else ret tt
  end.
Definition put_str (s : Z) : M S unit := if s =? 0 then put_all [40; 110; 117; 108; 108; 41] else put_string fuel s.

(** ** The kernel's printf *)

(** [xx] is a [long long]. *)
Definition printint (xx base : Z) (sign : bool) : M S unit :=
  let neg := sign && (xx <? 0) in
  let x := if neg then u64 (- xx) else u64 xx in
  put_buf (digit_loop 64 digits_lower x base ++ (if neg then [45] else [])).

(** Sixteen digits, the most significant first. *)
Fixpoint printptr_loop (digits : list Z) (n : nat) (x : Z) : M S unit :=
  match n with
  | O => ret tt
  | Datatypes.S n' => put (default 0 (digits !! Z.to_nat (Z.shiftr x 60)));;; printptr_loop digits n' (u64 (Z.shiftl x 4))
  end.
Definition printptr (x : Z) : M S unit := put 48;;; put 120;;; printptr_loop digits_lower 16 x.

(** The next argument, and the others. *)
Definition va (ap : list Z) : Z * list Z := match ap with [] => (0, []) | a :: ap' => (a, ap') end.

(** One conversion, at the characters [c0 c1 c2] after the percent sign: the number of
    characters it takes besides [c0], and the arguments left.  [None]: the format ends. *)
Definition conversion (c0 c1 c2 : Z) (ap : list Z) : M S (option (nat * list Z)) :=
  let (a, ap') := va ap in
  if c0 =? 100 then printint (i32 a) 10 true;;; ret (Some (0%nat, ap'))
  else if (c0 =? 108) && (c1 =? 100) then printint (i64 a) 10 true;;; ret (Some (1%nat, ap'))
  else if (c0 =? 108) && (c1 =? 108) && (c2 =? 100) then printint (i64 a) 10 true;;; ret (Some (2%nat, ap'))
  else if c0 =? 117 then printint (i32 a) 10 false;;; ret (Some (0%nat, ap'))
  else if (c0 =? 108) && (c1 =? 117) then printint (i64 a) 10 false;;; ret (Some (1%nat, ap'))
  else if (c0 =? 108) && (c1 =? 108) && (c2 =? 117) then printint (i64 a) 10 false;;; ret (Some (2%nat, ap'))
  else if c0 =? 120 then printint (i32 a) 16 false;;; ret (Some (0%nat, ap'))
  else if (c0 =? 108) && (c1 =? 120) then printint (i64 a) 16 false;;; ret (Some (1%nat, ap'))
  else if (c0 =? 108) && (c1 =? 108) && (c2 =? 120) then printint (i64 a) 16 false;;; ret (Some (2%nat, ap'))
  else if c0 =? 112 then printptr (u64 a);;; ret (Some (0%nat, ap'))
  else if c0 =? 115 then put_str (u64 a);;; ret (Some (0%nat, ap'))
  else if c0 =? 37 then put 37;;; ret (Some (0%nat, ap))
  else if c0 =? 0 then ret None
  else put 37;;; put c0;;; ret (Some (0%nat, ap)).

(** The characters of the format from [i] on are [fmt]; past its end there is the NUL. *)
Definition at_fmt (fmt : list Z) (i : nat) : Z := u8 (default 0 (fmt !! i)).

Fixpoint printf_loop (n : nat) (fmt : list Z) (ap : list Z) : M S unit :=
  match n with
  | O => ret tt
  | Datatypes.S n =>
      let cx := at_fmt fmt 0 in
      if cx =? 0 then ret tt
      else if negb (cx =? 37) then put cx;;; printf_loop n (drop 1 fmt) ap
      else
        let c0 := at_fmt fmt 1 in
        let c1 := if ctrue c0 then at_fmt fmt 2 else 0 in
        let c2 := if ctrue c1 then at_fmt fmt 3 else 0 in
        let! r := conversion c0 c1 c2 ap in
        match r with
        | None => ret tt
        | Some (k, ap) => printf_loop n (drop (2 + k) fmt) ap
        end
  end.

(** ** The user library's printf *)

(** [xx] is an [int]. *)
Definition uprintint (xx base : Z) (sgn : bool) : M S unit :=
  let neg := sgn && (xx <? 0) in
  let x := if neg then u32 (- xx) else u32 xx in
  put_buf (digit_loop 64 digits_upper x base ++ (if neg then [45] else [])).

Definition uprintptr (x : Z) : M S unit := put 48;;; put 120;;; printptr_loop digits_upper 16 x.

(** One conversion; the 64-bit ones hand their argument to an [int] parameter. *)
Definition uconversion (c0 c1 c2 : Z) (ap : list Z) : M S (nat * list Z) :=
  let (a, ap') := va ap in
  if c0 =? 100 then uprintint (i32 a) 10 true;;; ret (0%nat, ap')
  else if (c0 =? 108) && (c1 =? 100) then uprintint (i32 a) 10 true;;; ret (1%nat, ap')
  else if (c0 =? 108) && (c1 =? 108) && (c2 =? 100) then uprintint (i32 a) 10 true;;; ret (2%nat, ap')
  else if c0 =? 117 then uprintint (i32 a) 10 false;;; ret (0%nat, ap')
  else if (c0 =? 108) && (c1 =? 117) then uprintint (i32 a) 10 false;;; ret (1%nat, ap')
  else if (c0 =? 108) && (c1 =? 108) && (c2 =? 117) then uprintint (i32 a) 10 false;;; ret (2%nat, ap')
  else if c0 =? 120 then uprintint (i32 a) 16 false;;; ret (0%nat, ap')
  else if (c0 =? 108) && (c1 =? 120) then uprintint (i32 a) 16 false;;; ret (1%nat, ap')
  else if (c0 =? 108) && (c1 =? 108) && (c2 =? 120) then uprintint (i32 a) 16 false;;; ret (2%nat, ap')
  else if c0 =? 112 then uprintptr (u64 a);;; ret (0%nat, ap')
  else if c0 =? 115 then put_str (u64 a);;; ret (0%nat, ap')
  else if c0 =? 37 then put 37;;; ret (0%nat, ap)
  else put 37;;; put c0;;; ret (0%nat, ap).

(** [percent] is the state after a percent sign. *)
Fixpoint vprintf (n : nat) (percent : bool) (fmt : list Z) (ap : list Z) : M S unit :=
  match n with
  | O => ret tt
  | Datatypes.S n =>
      let c0 := at_fmt fmt 0 in
      if c0 =? 0 then ret tt
      else if negb percent then
        (if c0 =? 37 then vprintf n true (drop 1 fmt) ap else put c0;;; vprintf n false (drop 1 fmt) ap)
      else
        let c1 := at_fmt fmt 1 in
        let c2 := if ctrue c1 then at_fmt fmt 2 else 0 in
        let! r := uconversion c0 c1 c2 ap in
        vprintf n false (drop (1 + fst r) fmt) (snd r)
  end.
End Printf.

(** The lock of printf is taken while [pr.locking] is set. *)
Section Kernel.
Context {D : Type} `{UD : UartDev D} (spin fuel : nat) (m : mem).

Record prstate := mkPr { pr_locking : Z; pr_uart : uart D }.
Definition pr_lens : lens prstate (uart D) := mkLens pr_uart (fun u s => mkPr (pr_locking s) u).

Definition printf (fmt : list Z) (ap : list Z) : M prstate Z :=
  let! s := get in
  let locking := ctrue (pr_locking s) in
  when locking (acquire LkPr);;;
  zoom pr_lens (printf_loop (consputc spin) m fuel (length fmt) fmt ap);;;
  when locking (release LkPr);;;
  ret 0.

Definition set_panicked (u : uart D) : uart D := mkUart (ua_buf u) (ua_w u) (ua_r u) 1 (ua_dev u).

Definition kpanic (s : Z) : M prstate unit :=
  modify (fun x => mkPr 0 (pr_uart x));;;
  printf (removelast (cstr "panic: ")) [];;;
  printf [37; 115; 10] [s];;;
  zoom pr_lens (modify set_panicked);;;
  diverge.

Definition printfinit : M prstate unit := modify (fun x => mkPr 1 (pr_uart x)).
End Kernel.

(** [putc(fd, c)] writes one byte. *)
Section User.
Context {K : Type} `{UserOS K} (fuel : nat).
Definition putc (fd c : Z) : M (uproc K) unit := os (os_write fd [u8 c]);;; ret tt.
Definition fprintf (fd : Z) (fmt ap : list Z) : M (uproc K) unit :=
  let! m := load (fun m => m) in vprintf (putc fd) m fuel (length fmt) false fmt ap.
Definition uprintf (fmt ap : list Z) : M (uproc K) unit := fprintf 1 fmt ap.
End User.

(** ** Numbers *)

(** The value of decimal digits, the most significant first, with a sign before them. *)
Definition read_digits (l : list Z) : Z := foldl (fun acc c => acc * 10 + (c - 48)) 0 l.
Definition read_decimal (l : list Z) : Z := match l with c :: l' => if c =? 45 then - read_digits l' else read_digits l | [] => 0 end.

Definition is_digit (c : Z) : Prop := 48 <= c <= 57.

Lemma digit_char (ds : list Z) x : ds = digits_lower \/ ds = digits_upper -> default 0 (ds !! Z.to_nat (x mod 10)) = 48 + x mod 10.
Proof.
  intros Hd. pose proof (Z.mod_pos_bound x 10 ltac:(lia)) as Hx. set (v := x mod 10) in *. clearbody v.
  assert (H : v = 0 \/ v = 1 \/ v = 2 \/ v = 3 \/ v = 4 \/ v = 5 \/ v = 6 \/ v = 7 \/ v = 8 \/ v = 9) by lia. destruct Hd as [-> | ->]; repeat destruct H as [->|H]; try reflexivity; subst; reflexivity.
Qed.

Lemma rev_read x l : read_digits (rev (x :: l)) = read_digits (rev l) * 10 + (x - 48).
Proof. unfold read_digits. cbn [rev]. by rewrite foldl_app. Qed.

Section Decimal.
Context (ds : list Z) (Hds : ds = digits_lower \/ ds = digits_upper).

(** The loop stores the digits of [x]; there are at most [k] of them exactly if [x] is below
    the [k]-th power of ten. *)
Lemma digit_loop_spec f : forall x, 0 <= x < 10 ^ Z.of_nat f -> (0 < f)%nat ->
  read_digits (rev (digit_loop f ds x 10)) = x /\ Forall is_digit (digit_loop f ds x 10) /\
  (forall k, (0 < k)%nat -> (length (digit_loop f ds x 10) <= k)%nat <-> x < 10 ^ Z.of_nat k).
Proof.
  induction f as [|f IH]; intros x Hx Hf; [lia|]. cbn [digit_loop]. rewrite (digit_char ds x Hds). pose proof (Z.mod_pos_bound x 10 ltac:(lia)) as Hm.
  pose proof (Z.div_mod x 10 ltac:(lia)) as Hdm. rewrite Nat2Z.inj_succ, Z.pow_succ_r in Hx by lia. destruct (Z.eqb_spec (x / 10) 0) as [E|E].
  - rewrite rev_read. cbn. split; [unfold read_digits; cbn; lia|]. split; [constructor; [unfold is_digit; lia|constructor]|]. intros k Hk. split; [|lia]. intros _.
    pose proof (Z.pow_le_mono_r 10 1 (Z.of_nat k) ltac:(lia) ltac:(lia)). lia.
  - assert (Hf' : (0 < f)%nat) by (destruct f; [cbn in Hx; Z.div_mod_to_equations; lia|lia]).
    destruct (IH (x / 10)) as (I1 & I2 & I3); [Z.div_mod_to_equations; lia|done|]. rewrite rev_read, I1. split; [lia|]. split; [constructor; [unfold is_digit; lia|done]|].
    intros [|k] Hk; [lia|]. cbn [length]. rewrite Nat2Z.inj_succ, Z.pow_succ_r by lia. destruct k as [|k].
    + cbn. split; [|Z.div_mod_to_equations; lia]. intros H. destruct f as [|f]; [lia|]. cbn in H. lia.
    + specialize (I3 (Datatypes.S k) ltac:(lia)). rewrite <- Nat.succ_le_mono, I3. Z.div_mod_to_equations. lia.
Qed.

Lemma digit_loop_64 x : is_u64 x ->
  read_digits (rev (digit_loop 64 ds x 10)) = x /\ Forall is_digit (digit_loop 64 ds x 10) /\
  (forall k, (0 < k)%nat -> (length (digit_loop 64 ds x 10) <= k)%nat <-> x < 10 ^ Z.of_nat k).
Proof. intros Hx. apply digit_loop_spec; [|lia]. assert (2 ^ 64 < 10 ^ Z.of_nat 64) by done. lia. Qed.
End Decimal.

Lemma read_decimal_plain l : Forall is_digit l -> read_decimal (rev l) = read_digits (rev l).
Proof.
  intros H. assert (Hr : Forall is_digit (rev l)) by (by apply Forall_rev). destruct (rev l) as [|c l']; [done|]. cbn. apply Forall_cons in Hr as [Hc _]. unfold is_digit in Hc.
  by rewrite (proj2 (Z.eqb_neq c 45)) by lia.
Qed.

(** C40: what the kernel prints for a 64-bit number in base ten, and when it overruns its
    buffer.  If the digits and the sign fit into the 16 bytes, exactly the decimal notation
    of the value is printed, for the signed and the unsigned conversion; from 10^16 on, or
    from -10^15 down, [printint] stores past the end of its buffer. *)
Theorem printint_prints_or_overruns {S} (put : Z -> M S unit) xx (sign : bool) th s : - 2 ^ 63 <= xx < 2 ^ 63 ->
  let v := if sign then xx else u64 xx in
  (- 10 ^ 15 < v < 10 ^ 16 -> exists l, printint put xx 10 sign th s = put_all put l th s /\ read_decimal l = v) /\
  (~ (- 10 ^ 15 < v < 10 ^ 16) -> printint put xx 10 sign th s = Fault "buf").
Proof.
  intros Hx v. unfold printint. set (neg := sign && (xx <? 0)). set (x := if neg then u64 (- xx) else u64 xx).
  assert (Hu : is_u64 x) by (unfold x; destruct neg; apply u64_range).
  destruct (digit_loop_64 digits_lower ltac:(by left) x Hu) as (H1 & H2 & H3). set (ds := digit_loop 64 digits_lower x 10) in *. clearbody ds.
  assert (Hv : v = if neg then - x else x).
  { unfold v, x, neg. destruct sign; cbn [andb]; [|done]. destruct (Z.ltb_spec xx 0).
    - unfold u64. rewrite Z.mod_small; lia.
    - unfold u64. rewrite Z.mod_small; lia. }
  unfold put_buf. rewrite length_app. destruct neg; cbn [length].
  - pose proof (H3 15%nat ltac:(lia)) as Hk. change (Z.of_nat 15) with 15 in Hk. split; intros Hr.
    + rewrite (proj2 (Z.ltb_ge 16 _)) by lia. eexists. split; [done|]. rewrite rev_app_distr. cbn [rev app]. unfold read_decimal. by rewrite Z.eqb_refl, H1, Hv.
    + by rewrite (proj2 (Z.ltb_lt 16 _)) by lia.
  - pose proof (H3 16%nat ltac:(lia)) as Hk. change (Z.of_nat 16) with 16 in Hk. rewrite app_nil_r, Nat.add_0_r. split; intros Hr.
    + rewrite (proj2 (Z.ltb_ge 16 _)) by lia. exists (rev ds). split; [done|]. by rewrite read_decimal_plain, H1, Hv.
    + by rewrite (proj2 (Z.ltb_lt 16 _)) by lia.
Qed.

Lemma printint_prints_or_overruns_witness :
  printint (fun c (_ : thread) (out : list Z) => Ok tt (mkThread [] 0 0 []) (out ++ [c])) (10 ^ 16) 10 true (mkThread [] 0 0 []) [] = Fault "buf".
Proof. apply (printint_prints_or_overruns _ (10 ^ 16) true (mkThread [] 0 0 []) []); lia. Defined.

(** ** Printing and reading back *)

Lemma atoi_loop_spec f : forall m s acc l, cstring m s l -> Forall is_digit l -> (length l < f)%nat -> 0 <= acc ->
  foldl (fun acc c => acc * 10 + (c - 48)) acc l < 2 ^ 31 -> atoi_loop f m s acc = Some (foldl (fun acc c => acc * 10 + (c - 48)) acc l).
Proof.
  assert (Hmono : forall l acc, Forall is_digit l -> 0 <= acc -> acc <= foldl (fun acc c => acc * 10 + (c - 48)) acc l).
  { induction l as [|c l IH]; intros acc Hd Ha; cbn; [lia|]. apply Forall_cons in Hd as [Hc Hd]. unfold is_digit in Hc. specialize (IH (acc * 10 + (c - 48)) Hd ltac:(lia)). lia. }
  induction f as [|f IH]; intros m s acc l Hs Hd Hf Ha Hlt; [lia|]. cbn [atoi_loop]. destruct l as [|c l].
  - apply cstring_nil in Hs. by rewrite Hs.
  - apply cstring_cons in Hs as (-> & _ & Hs). apply Forall_cons in Hd as [Hc Hd]. unfold is_digit in Hc. cbn [foldl] in Hlt.
    rewrite (proj2 (Z.leb_le 48 c)), (proj2 (Z.leb_le c 57)) by lia. cbn [andb]. pose proof (Hmono l (acc * 10 + (c - 48)) Hd ltac:(lia)) as Hm.
    assert (Hi : i32 (acc * 10 + c - 48) = acc * 10 + (c - 48)) by (rewrite i32_id; lia). rewrite Hi. cbn in Hf. cbn [foldl]. apply IH; [done|done|lia|lia|done].
Qed.

(** User programs read back the numbers they print.  [printf] of a number that is not
    negative writes characters, never more than its buffer holds, that [atoi] turns into the
    number again. *)
Theorem printint_atoi_roundtrip n : 0 <= n < 2 ^ 31 ->
  exists l, (forall S (put : Z -> M S unit) th s, uprintint put n 10 true th s = put_all put l th s) /\ (length l <= 10)%nat /\
    forall f m a, cstring m a l -> (length l < f)%nat -> atoi f m a = Some n.
Proof.
  intros Hn. destruct (digit_loop_64 digits_upper ltac:(by right) n ltac:(lia)) as (H1 & H2 & H3). set (ds := digit_loop 64 digits_upper n 10) in *.
  pose proof (proj2 (H3 10%nat ltac:(lia))) as Hlen. specialize (Hlen ltac:(lia)). exists (rev ds). split; [|split; [by rewrite length_rev|]].
  - intros S put th s. unfold uprintint. rewrite (proj2 (Z.ltb_ge n 0)), andb_false_r by lia. rewrite (u32_id n) by lia. fold ds. rewrite app_nil_r. unfold put_buf.
    by rewrite (proj2 (Z.ltb_ge 16 _)) by lia.
  - intros f m a Hs Hf. unfold atoi. change (foldl (fun acc c => acc * 10 + (c - 48)) 0 (rev ds)) with (read_digits (rev ds)) in H1.
    rewrite (atoi_loop_spec f m a 0 (rev ds)); [by fold (read_digits (rev ds)); rewrite H1|done|by apply Forall_rev|done|lia|]. fold (read_digits (rev ds)). rewrite H1. lia.
Qed.

Lemma printint_atoi_roundtrip_witness : exists l,
  (forall S (put : Z -> M S unit) th s, uprintint put 123 10 true th s = put_all put l th s) /\
  forall f m a, cstring m a l -> (length l < f)%nat -> atoi f m a = Some 123.
Proof. destruct (printint_atoi_roundtrip 123 ltac:(lia)) as (l & E & _ & H). exists l. split; [exact E|exact H]. Defined.
