(* ===== verification/Priority.v ===== *)
(** * The process table and its priority lists (kernel/proc.h, kernel/proc.c)

    A [struct proc *] is an index into the process table, the null pointer is
    [None].  This file holds the data of the process component and the operations
    on the per-priority lists that are threaded through [next_p_priority]; the
    life cycle of processes is in Proc.v. *)

From S2P Require Import Prelude Layout.

Inductive procstate : Set := UNUSED | USED | SLEEPING | RUNNABLE | RUNNING | ZOMBIE.

#[export] Instance procstate_eq_dec : EqDecision procstate.
Proof. solve_decision. Defined.

(** Saved registers for kernel context switches; [ctx_s] is [s0] to [s11]. *)
Record context := mkContext { ctx_ra : Z; ctx_sp : Z; ctx_s : list Z }.

Record proc := mkProc {
  p_state : procstate;
  p_chan : option chan;
  p_killed : Z;
  p_xstate : Z;
  p_pid : Z;
  p_parent : option nat;
  p_kstack : Z;
  p_sz : Z;
  p_pagetable : Z;
  p_trapframe : Z;
  p_context : context;
  p_ofile : list (option nat);
  p_cwd : option nat;
  p_name : list Z;
  p_priority : Z;
  p_next : option nat;
}.

Record priorities_control := mkControl {
  present : list Z;
  head_priority : list (option nat);
  current_priority : list (option nat);
}.

Record ptable := mkPtable {
  pt_proc : list proc;
  pt_control : priorities_control;
  pt_nextpid : Z;
  pt_initproc : option nat;
}.

(** ** Field updates *)

Definition set_procs (ps : list proc) (s : ptable) : ptable :=
  mkPtable ps (pt_control s) (pt_nextpid s) (pt_initproc s).
Definition set_control (c : priorities_control) (s : ptable) : ptable :=
  mkPtable (pt_proc s) c (pt_nextpid s) (pt_initproc s).

Definition with_next (n : option nat) (p : proc) : proc :=
  mkProc (p_state p) (p_chan p) (p_killed p) (p_xstate p) (p_pid p) (p_parent p) (p_kstack p)
    (p_sz p) (p_pagetable p) (p_trapframe p) (p_context p) (p_ofile p) (p_cwd p) (p_name p)
    (p_priority p) n.
Definition with_priority (prio : Z) (p : proc) : proc :=
  mkProc (p_state p) (p_chan p) (p_killed p) (p_xstate p) (p_pid p) (p_parent p) (p_kstack p)
    (p_sz p) (p_pagetable p) (p_trapframe p) (p_context p) (p_ofile p) (p_cwd p) (p_name p)
    prio (p_next p).

(** [p->field] and [p->field = v] for a pointer [p]. *)
Definition get_proc (i : nat) : M ptable proc := fun th s =>
  match pt_proc s !! i with Some p => Ok p th s | None => Fault "proc index" end.
Definition upd_proc (i : nat) (f : proc -> proc) : M ptable unit := fun th s =>
  match pt_proc s !! i with
  | Some p => Ok tt th (set_procs (<[i := f p]> (pt_proc s)) s)
  | None => Fault "proc index"
  end.

(** [p_control.head_priority[prio]]; [prio] is an [int] or a [uint32]. *)
Definition get_head (prio : Z) : M ptable (option nat) :=
  let! s := get in deref "head_priority index" (znth (head_priority (pt_control s)) prio).
Definition set_head (prio : Z) (h : option nat) : M ptable unit :=
  let! s := get in
  let c := pt_control s in
  deref "head_priority index" (znth (head_priority c) prio);;;
  put (set_control (mkControl (present c) (zupd (head_priority c) prio h) (current_priority c)) s).
Definition set_present (prio v : Z) : M ptable unit :=
  let! s := get in
  let c := pt_control s in
  deref "present index" (znth (present c) prio);;;
  put (set_control (mkControl (zupd (present c) prio v) (head_priority c) (current_priority c)) s).

(** ** The operations *)

Definition init_priority_control : M ptable unit :=
  modify (set_control (mkControl (replicate MAXPRIORITY 0) (replicate MAXPRIORITY None)
                         (replicate MAXPRIORITY None))).

Definition set_priority (priority : Z) (process : nat) : M ptable unit :=
  if (priority >? Z.of_nat MAXPRIORITY) || (priority <? 0) then panic "Priority nos alowed"
  else upd_proc process (with_priority (u32 priority)).

(** [while(aux_p->next_p_priority != NULL) aux_p = aux_p->next_p_priority;] *)
Fixpoint last_of_list (fuel : nat) (aux_p : nat) : M ptable nat :=
  match fuel with
  | O => diverge
  | S f => let! q := get_proc aux_p in
           match p_next q with
           | None => ret aux_p
           | Some nxt => last_of_list f nxt
           end
  end.

Definition add_process_priority (fuel : nat) (p : nat) (priority : Z) : M ptable unit :=
  let! h := get_head priority in
  match h with
  | None => set_head priority (Some p)
  | Some aux_p => let! last := last_of_list fuel aux_p in upd_proc last (with_next (Some p))
  end.

(** [while(p_aux->next_p_priority != p) p_aux = p_aux->next_p_priority;] *)
Fixpoint find_before (fuel : nat) (p_aux : option nat) (p : nat) : M ptable nat :=
  match fuel with
  | O => diverge
  | S f => let! i := deref "null p_aux" p_aux in
           let! q := get_proc i in
           if bool_decide (p_next q = Some p) then ret i else find_before f (p_next q) p
  end.

Definition free_process_priority (fuel : nat) (p : nat) : M ptable Z :=
  let! pp := get_proc p in
  let! p_aux := get_head (p_priority pp) in
  (if bool_decide (p_aux = Some p) then
     match p_next pp with
     | None => set_present (p_priority pp) 0;;; set_head (p_priority pp) None
     | Some nxt => set_head (p_priority pp) (Some nxt);;; upd_proc p (with_next None)
     end
   else
     let! i := find_before fuel p_aux p in
     upd_proc i (with_next (p_next pp));;;
     upd_proc p (with_next None));;;
  ret 0.

(** The critical section of [allocproc] that puts a new process on its list. *)
Definition enqueue_new (fuel : nat) (p : nat) (priority : Z) : M ptable unit :=
  acquire LkPriority;;;
  set_present priority 1;;;
  add_process_priority fuel p priority;;;
  release LkPriority.

(** The critical section of [exit] that takes the process off its list. *)
Definition dequeue_exiting (fuel : nat) (p : nat) : M ptable unit :=
  acquire LkPriority;;;
  free_process_priority fuel p;;;
  release LkPriority.

(** ** Linked lists in the table *)

Definition next_of (s : ptable) (i : nat) : option (option nat) := p_next <$> pt_proc s !! i.

(** [lseg s h l t]: following [next_p_priority] from [h] visits [l] and ends at [t]. *)
Fixpoint lseg (s : ptable) (h : option nat) (l : list nat) (t : option nat) : Prop :=
  match l with
  | [] => h = t
  | i :: l' => h = Some i /\ exists n, next_of s i = Some n /\ lseg s n l' t
  end.
Notation chain s h l := (lseg s h l None).

(** Some priority's list holds [i]. *)
Definition on_list (ls : list (list nat)) (i : nat) : Prop :=
  exists k l, ls !! k = Some l /\ i ∈ l.

(** The invariant of the priority structure: [ls] lists, for each priority, the
    processes on its list.  The lists are well linked and hold no process twice,
    the list a process is on is the one of its own priority, a process on no list
    has a null [next_p_priority], and [present] tells which lists are occupied. *)
Record prio_inv (s : ptable) (ls : list (list nat)) : Prop := mkPrioInv {
  pi_len : length ls = MAXPRIORITY;
  pi_heads : length (head_priority (pt_control s)) = MAXPRIORITY;
  pi_presents : length (present (pt_control s)) = MAXPRIORITY;
  pi_chain : forall k l, ls !! k = Some l ->
    exists h, head_priority (pt_control s) !! k = Some h /\ chain s h l;
  pi_nodup : forall k l, ls !! k = Some l -> NoDup l;
  pi_prio : forall k l i, ls !! k = Some l -> i ∈ l ->
    exists p, pt_proc s !! i = Some p /\ p_priority p = Z.of_nat k;
  pi_off : forall i p, pt_proc s !! i = Some p -> ~ on_list ls i -> p_next p = None;
  pi_present : forall k l, ls !! k = Some l ->
    exists v, present (pt_control s) !! k = Some v /\ (v = 0 <-> l = []);
}.

Lemma lseg_ext s s' h l t :
  (forall i, i ∈ l -> next_of s' i = next_of s i) -> lseg s h l t -> lseg s' h l t.
Proof.
  revert h. induction l as [|i l IH]; intros h Hx; simpl; [done|].
  intros (-> & n & Hn & Hl). split; [done|]. exists n. rewrite Hx by set_solver.
  split; [done|]. apply IH; [|done]. set_solver.
Qed.

Lemma lseg_app s h l1 l2 t :
  lseg s h (l1 ++ l2) t <-> exists m, lseg s h l1 m /\ lseg s m l2 t.
Proof.
  revert h. induction l1 as [|i l1 IH]; simpl; intros h.
  - split; [eauto|]. by intros (m & -> & ?).
  - split.
    + intros (-> & n & Hn & H). apply IH in H as (m & H1 & H2). exists m. eauto.
    + intros (m & (-> & n & Hn & H1) & H2). split; [done|]. exists n. split; [done|]. apply IH. eauto.
Qed.

Lemma lseg_single s i t : lseg s (Some i) [i] t <-> next_of s i = Some t.
Proof. simpl. split; [by intros (_ & n & H & ->)|eauto]. Qed.

(** Writing one [next_p_priority]. *)
Lemma next_of_upd s i p n j :
  pt_proc s !! i = Some p ->
  next_of (set_procs (<[i := with_next n p]> (pt_proc s)) s) j =
  if decide (i = j) then Some n else next_of s j.
Proof.
  intros Hp. unfold next_of; cbn. destruct (decide (i = j)) as [<-|Hne].
  - by rewrite (lookup_insert_Some_eq _ _ _ _ Hp).
  - by rewrite list_lookup_insert_ne.
Qed.

(** The walk to the end of a well-formed list returns its last element. *)
Lemma last_of_list_ok fuel s i l k th :
  lseg s (Some i) (l ++ [k]) None -> (length l < fuel)%nat ->
  last_of_list fuel i th s = Ok k th s.
Proof.
  revert i l. induction fuel as [|f IH]; intros i l H Hf; [lia|].
  cbn [last_of_list]. destruct l as [|j l]; simpl in H.
  - destruct H as (? & n & Hn & ->). simplify_eq. unfold next_of in Hn.
    unfold bind, get_proc. destruct (pt_proc s !! k); simplify_eq/=. by rewrite Hn.
  - destruct H as (? & n & Hn & H). simplify_eq. unfold next_of in Hn.
    unfold bind, get_proc. destruct (pt_proc s !! j) as [q|]; simplify_eq/=.
    destruct (p_next q) as [nxt|] eqn:E.
    + eapply IH; [done|]. simpl in Hf. lia.
    + destruct l; simpl in H; by destruct H.
Qed.

(** The search of [free_process_priority] stops at the predecessor. *)
Lemma find_before_ok fuel s h l1 k p l2 th :
  lseg s h (l1 ++ k :: p :: l2) None -> p ∉ l1 ++ [k] -> (length l1 < fuel)%nat ->
  find_before fuel h p th s = Ok k th s.
Proof.
  revert h l1. induction fuel as [|f IH]; intros h l1 H Hp Hf; [lia|].
  cbn [find_before]. destruct l1 as [|j l1]; simpl in H.
  - destruct H as (-> & n & Hn & -> & _). unfold next_of in Hn. unfold bind, get_proc; cbn.
    destruct (pt_proc s !! k); simplify_eq/=. by rewrite bool_decide_true.
  - destruct H as (-> & n & Hn & H). unfold next_of in Hn. unfold bind, get_proc; cbn.
    destruct (pt_proc s !! j) as [q|]; simplify_eq/=. rewrite bool_decide_false.
    + eapply IH; [exact H|set_solver|simpl in Hf; lia].
    + intros E. rewrite E in H. destruct l1 as [|j' l1]; simpl in H; destruct H as (? & _);
        simplify_eq; set_solver.
Qed.

Lemma lists_disjoint s ls k k' l l' i :
  prio_inv s ls -> ls !! k = Some l -> ls !! k' = Some l' -> i ∈ l -> i ∈ l' -> k = k'.
Proof.
  intros Hinv Hk Hk' Hi Hi'.
  destruct (pi_prio _ _ Hinv _ _ _ Hk Hi) as (p & Hp & E).
  destruct (pi_prio _ _ Hinv _ _ _ Hk' Hi') as (p' & Hp' & E'). simplify_eq. lia.
Qed.

Lemma list_length_bound s ls k l :
  prio_inv s ls -> ls !! k = Some l -> (length l <= length (pt_proc s))%nat.
Proof.
  intros Hinv Hk. rewrite <- (length_seq (length (pt_proc s)) 0).
  apply NoDup_incl_length; [by apply NoDup_ListNoDup, (pi_nodup _ _ Hinv k)|].
  intros i Hi%list_elem_of_In. destruct (pi_prio _ _ Hinv _ _ _ Hk Hi) as (p & Hp & _).
  apply in_seq. apply lookup_lt_Some in Hp. lia.
Qed.

(** Two tables that differ at most in the links and the control structure. *)
Definition relinked (s s' : ptable) : Prop :=
  with_next None <$> pt_proc s' = with_next None <$> pt_proc s /\
  pt_nextpid s' = pt_nextpid s /\ pt_initproc s' = pt_initproc s.

#[export] Instance relinked_preorder : PreOrder relinked.
Proof.
  split; unfold relinked; [intros x|intros x y z]; intuition congruence.
Qed.

Lemma relinked_upd s i p n :
  pt_proc s !! i = Some p -> relinked s (set_procs (<[i := with_next n p]> (pt_proc s)) s).
Proof.
  intros Hp. split; [|done]. cbn. rewrite list_fmap_insert.
  apply list_insert_id. by rewrite list_lookup_fmap, Hp.
Qed.

Lemma with_next_inv p p' : with_next None p' = with_next None p -> p' = with_next (p_next p') p.
Proof.
  destruct p, p'. unfold with_next; cbn. intros H. injection H as; subst. reflexivity.
Qed.

Lemma relinked_lookup s s' i p :
  relinked s s' -> pt_proc s !! i = Some p ->
  exists n, pt_proc s' !! i = Some (with_next n p) /\ next_of s' i = Some n.
Proof.
  intros [Hr _] Hp. apply (f_equal (.!! i)) in Hr. rewrite !list_lookup_fmap, Hp in Hr.
  destruct (pt_proc s' !! i) as [p'|] eqn:E; [|done]. apply (inj Some) in Hr.
  exists (p_next p'). unfold next_of. rewrite E. split; [|done]. f_equal.
  by apply with_next_inv.
Qed.

Lemma relinked_lookup_inv s s' i p' :
  relinked s s' -> pt_proc s' !! i = Some p' ->
  exists p, pt_proc s !! i = Some p /\ p' = with_next (p_next p') p.
Proof.
  intros [Hr _] Hp. apply (f_equal (.!! i)) in Hr. rewrite !list_lookup_fmap, Hp in Hr.
  destruct (pt_proc s !! i) as [p|] eqn:E; [|done]. apply (inj Some) in Hr. exists p. split; [done|].
  by apply with_next_inv.
Qed.

(** Replacing the list of one priority re-establishes the invariant. *)
Lemma prio_inv_update s s' ls k l l' h' v' :
  prio_inv s ls -> ls !! k = Some l -> relinked s s' ->
  length (head_priority (pt_control s')) = MAXPRIORITY ->
  length (present (pt_control s')) = MAXPRIORITY ->
  head_priority (pt_control s') !! k = Some h' -> chain s' h' l' ->
  (forall k', k' <> k -> head_priority (pt_control s') !! k' = head_priority (pt_control s) !! k') ->
  present (pt_control s') !! k = Some v' -> (v' = 0 <-> l' = []) ->
  (forall k', k' <> k -> present (pt_control s') !! k' = present (pt_control s) !! k') ->
  NoDup l' ->
  (forall i, i ∈ l' -> exists p, pt_proc s !! i = Some p /\ p_priority p = Z.of_nat k) ->
  (forall j, j ∉ l -> j ∉ l' -> next_of s' j = next_of s j) ->
  (forall j, j ∈ l -> j ∉ l' -> next_of s' j = Some None) ->
  prio_inv s' (<[k := l']> ls).
Proof.
  intros Hinv Hk Hre Hlh Hlp Hh Hc Hh' Hv Hv0 Hv' Hnd Hpr Hsame Hgone.
  assert (Hklt : (k < length ls)%nat) by by eapply lookup_lt_Some.
  assert (Hcase : forall k' m, <[k := l']> ls !! k' = Some m ->
            (k' = k /\ m = l') \/ (k' <> k /\ ls !! k' = Some m)).
  { intros k' m Hm. destruct (decide (k' = k)) as [->|Hne].
    - rewrite list_lookup_insert_eq in Hm by done. naive_solver.
    - rewrite list_lookup_insert_ne in Hm by done. naive_solver. }
  split.
  - rewrite length_insert. apply Hinv.
  - done.
  - done.
  - intros k' m [[-> ->]|[Hne Hm]]%Hcase; [eauto|].
    destruct (pi_chain _ _ Hinv _ _ Hm) as (h & Hh0 & Hc0). exists h. rewrite Hh' by done.
    split; [done|]. eapply lseg_ext; [|exact Hc0]. intros i Hi. apply Hsame.
    + intros Hi'. apply Hne. by eapply (lists_disjoint s ls k' k m l i).
    + intros Hi'. destruct (Hpr i Hi') as (p & Hp & E).
      destruct (pi_prio _ _ Hinv _ _ _ Hm Hi) as (p1 & Hp1 & E1). simplify_eq. lia.
  - intros k' m [[-> ->]|[Hne Hm]]%Hcase; [done|]. by apply (pi_nodup _ _ Hinv k').
  - intros k' m i Hm Hi. assert (exists p, pt_proc s !! i = Some p /\ p_priority p = Z.of_nat k')
      as (p & Hp & E).
    { apply Hcase in Hm as [[-> ->]|[Hne Hm]]; [by apply Hpr|]. by eapply (pi_prio _ _ Hinv). }
    destruct (relinked_lookup _ _ _ _ Hre Hp) as (n & Hn & _). eexists. split; [exact Hn|done].
  - intros i p' Hp' Hoff. assert (next_of s' i = Some None) as Hn; [|by unfold next_of in Hn; rewrite Hp' in Hn; simplify_eq/=].
    assert (Hil' : i ∉ l') by (intros Hi; apply Hoff; exists k, l'; by rewrite list_lookup_insert_eq).
    destruct (decide (i ∈ l)) as [Hil|Hil]; [by apply Hgone|]. rewrite Hsame by done.
    destruct (relinked_lookup_inv _ _ _ _ Hre Hp') as (p & Hp & _).
    unfold next_of. rewrite Hp. simpl. f_equal. apply (pi_off _ _ Hinv i p Hp).
    intros (k0 & m & Hm & Him). destruct (decide (k0 = k)) as [->|]; [by simplify_eq|].
    apply Hoff. exists k0, m. by rewrite list_lookup_insert_ne.
  - intros k' m [[-> ->]|[Hne Hm]]%Hcase; [eauto|]. rewrite Hv' by done. by apply (pi_present _ _ Hinv).
Qed.

Lemma set_present_ok k v x th s :
  present (pt_control s) !! k = Some x ->
  set_present (Z.of_nat k) v th s =
  Ok tt th (set_control (mkControl (<[k := v]> (present (pt_control s)))
      (head_priority (pt_control s)) (current_priority (pt_control s))) s).
Proof.
  intros H. unfold set_present, bind, get. rewrite znth_of_nat, H. cbn. by rewrite zupd_of_nat.
Qed.

Lemma get_head_ok k h th s :
  head_priority (pt_control s) !! k = Some h -> get_head (Z.of_nat k) th s = Ok h th s.
Proof. intros H. unfold get_head, bind, get. by rewrite znth_of_nat, H. Qed.

Lemma set_head_ok k h x th s :
  head_priority (pt_control s) !! k = Some x ->
  set_head (Z.of_nat k) h th s =
  Ok tt th (set_control (mkControl (present (pt_control s))
      (<[k := h]> (head_priority (pt_control s))) (current_priority (pt_control s))) s).
Proof.
  intros H. unfold set_head, bind, get. rewrite znth_of_nat, H. cbn. by rewrite zupd_of_nat.
Qed.

Lemma upd_proc_ok i f p th s :
  pt_proc s !! i = Some p ->
  upd_proc i f th s = Ok tt th (set_procs (<[i := f p]> (pt_proc s)) s).
Proof. intros H. unfold upd_proc. by rewrite H. Qed.

Lemma get_proc_ok i p th s : pt_proc s !! i = Some p -> get_proc i th s = Ok p th s.
Proof. intros H. unfold get_proc. by rewrite H. Qed.

(** The list of priority [k] at its place in the invariant. *)
Lemma prio_inv_list s ls k :
  prio_inv s ls -> (k < MAXPRIORITY)%nat ->
  exists l h v, ls !! k = Some l /\ head_priority (pt_control s) !! k = Some h /\
    present (pt_control s) !! k = Some v /\ chain s h l /\ NoDup l.
Proof.
  intros Hinv Hk. destruct (lookup_lt_is_Some_2 ls k) as [l Hl]; [rewrite (pi_len _ _ Hinv); lia|].
  destruct (pi_chain _ _ Hinv _ _ Hl) as (h & Hh & Hc).
  destruct (pi_present _ _ Hinv _ _ Hl) as (v & Hv & _).
  exists l, h, v. split_and!; try done. by apply (pi_nodup _ _ Hinv k).
Qed.

Lemma next_of_off s ls i p :
  prio_inv s ls -> pt_proc s !! i = Some p -> ~ on_list ls i -> next_of s i = Some None.
Proof. intros Hinv Hp Hoff. unfold next_of. rewrite Hp. simpl. by rewrite (pi_off _ _ Hinv i p). Qed.

Lemma chain_snoc s h l z p i :
  chain s h (l ++ [z]) -> pt_proc s !! z = Some p -> z ∉ l -> i ∉ l -> i <> z ->
  next_of s i = Some None ->
  chain (set_procs (<[z := with_next (Some i) p]> (pt_proc s)) s) h ((l ++ [z]) ++ [i]).
Proof.
  intros (m & Hl & Hz)%lseg_app Hp Hzl Hil Hiz Hi.
  destruct Hz as (-> & n & _ & _). apply lseg_app. exists (Some i). split.
  - apply lseg_app. exists (Some z). split.
    + eapply lseg_ext; [|exact Hl]. intros x Hx. rewrite next_of_upd by done.
      by rewrite decide_False by set_solver.
    + apply lseg_single. rewrite next_of_upd by done. by rewrite decide_True.
  - apply lseg_single. rewrite next_of_upd by done. by rewrite decide_False.
Qed.

Lemma enqueue_empty s ls i p k th fuel :
  prio_inv s ls -> pt_proc s !! i = Some p -> p_priority p = Z.of_nat k ->
  ls !! k = Some [] -> ~ on_list ls i -> LkPriority ∉ th_held th ->
  exists s', enqueue_new fuel i (Z.of_nat k) th s = Ok tt th s' /\
    prio_inv s' (<[k := [i]]> ls) /\ relinked s s'.
Proof.
  intros Hinv Hp Hpk Hl Hoff Hlk.
  assert (Hk : (k < MAXPRIORITY)%nat).
  { rewrite <- (pi_len _ _ Hinv). by eapply lookup_lt_Some. }
  destruct (prio_inv_list _ _ k Hinv Hk) as (l' & h & v & Hl' & Hh & Hv & Hc & _). simplify_eq/=.
  unfold enqueue_new, bind at 1. rewrite acquire_ok by done.
  erewrite bind_ok by (by eapply set_present_ok). unfold add_process_priority.
  rewrite bind_assoc. erewrite bind_ok by (by eapply get_head_ok).
  erewrite bind_ok by (by eapply set_head_ok).
  rewrite release_acquired by done. eexists. split; [done|]. split; [|done].
  eapply (prio_inv_update s _ ls k [] [i] (Some i) 1); cbn -[lseg]; try done;
    rewrite ?length_insert; try apply Hinv; try (by intros; rewrite list_lookup_insert_ne).
  - apply list_lookup_insert_eq. by rewrite (pi_heads _ _ Hinv).
  - split; [done|]. exists None. split; [|done]. by eapply (next_of_off s).
  - apply list_lookup_insert_eq. by rewrite (pi_presents _ _ Hinv).
  - apply NoDup_singleton.
  - intros x ->%list_elem_of_singleton. eauto.
  - intros x Hx. by apply elem_of_nil in Hx.
Qed.

Lemma enqueue_nonempty s ls i p k l z th fuel :
  prio_inv s ls -> pt_proc s !! i = Some p -> p_priority p = Z.of_nat k ->
  ls !! k = Some (l ++ [z]) -> ~ on_list ls i -> (length l < fuel)%nat -> LkPriority ∉ th_held th ->
  exists s', enqueue_new fuel i (Z.of_nat k) th s = Ok tt th s' /\
    prio_inv s' (<[k := (l ++ [z]) ++ [i]]> ls) /\ relinked s s'.
Proof.
  intros Hinv Hp Hpk Hl Hoff Hf Hlk.
  assert (Hk : (k < MAXPRIORITY)%nat).
  { rewrite <- (pi_len _ _ Hinv). by eapply lookup_lt_Some. }
  destruct (prio_inv_list _ _ k Hinv Hk) as (l' & h & v & Hl' & Hh & Hv & Hc & Hnd). simplify_eq/=.
  assert (Hil : i ∉ l ++ [z]) by (intros ?; apply Hoff; by exists k, (l ++ [z])).
  destruct (pi_prio _ _ Hinv k _ z Hl) as (pz & Hpz & _); [set_solver|].
  assert (exists j, h = Some j) as [j ->] by (destruct l; simpl in Hc; destruct Hc as [-> _]; eauto).
  unfold enqueue_new, bind at 1. rewrite acquire_ok by done.
  erewrite bind_ok by (by eapply set_present_ok). unfold add_process_priority.
  rewrite bind_assoc. erewrite bind_ok by (by eapply get_head_ok).
  cbv beta iota. rewrite bind_assoc. erewrite bind_ok
    by (eapply last_of_list_ok; [by eapply lseg_ext; [|exact Hc]|done]).
  erewrite bind_ok by (by eapply upd_proc_ok).
  rewrite release_acquired by done. eexists. split; [done|].
  assert (Hre : relinked s (set_procs (<[z := with_next (Some i) pz]> (pt_proc s)) s))
    by (by apply relinked_upd).
  apply NoDup_app in Hnd as (Hnd & Hzl & _).
  split; [|exact Hre].
  eapply (prio_inv_update s _ ls k (l ++ [z]) _ (Some j) 1); cbn -[lseg]; try done;
    rewrite ?length_insert; try apply Hinv; try (by intros; rewrite list_lookup_insert_ne).
  - eapply lseg_ext; [|apply (chain_snoc s _ l z pz i)];
      [done|done|done|set_solver|set_solver|set_solver|by eapply next_of_off].
  - apply list_lookup_insert_eq. by rewrite (pi_presents _ _ Hinv).
  - split; [done|]. intros E. apply app_eq_nil in E as [_ ?]. done.
  - apply NoDup_app. split; [by apply (pi_nodup _ _ Hinv k)|]. split; [set_solver|apply NoDup_singleton].
  - intros x [Hx| ->%list_elem_of_singleton]%elem_of_app; [by eapply (pi_prio _ _ Hinv)|eauto].
  - intros x Hx _. apply (next_of_upd s z pz (Some i) x) in Hpz as E.
    rewrite decide_False in E by set_solver. exact E.
  - set_solver.
Qed.

(** Adding a process refines appending to a list.  For a process on no list whose
    priority is [k], the critical section of [allocproc] returns, appends the
    process to the list of priority [k], leaves the lists of the other priorities as
    they were, keeps the whole structure well formed and releases the lock. *)
Lemma enqueue_ok s ls i p k l th fuel :
  prio_inv s ls -> pt_proc s !! i = Some p -> p_priority p = Z.of_nat k ->
  ls !! k = Some l -> ~ on_list ls i -> (length (pt_proc s) <= fuel)%nat ->
  LkPriority ∉ th_held th ->
  exists s', enqueue_new fuel i (p_priority p) th s = Ok tt th s' /\
    prio_inv s' (<[k := l ++ [i]]> ls) /\ relinked s s'.
Proof.
  intros Hinv Hp Hpk Hl Hoff Hfuel Hlk. rewrite Hpk.
  destruct l as [|z l _] using rev_ind; [by eapply enqueue_empty|].
  eapply enqueue_nonempty; try done.
  pose proof (list_length_bound _ _ _ _ Hinv Hl) as Hb. rewrite length_app in Hb. simpl in Hb. lia.
Qed.

Lemma lseg_next s h l1 i l2 t :
  lseg s h (l1 ++ i :: l2) t -> exists n, next_of s i = Some n /\ lseg s n l2 t /\ lseg s h l1 (Some i).
Proof. intros (m & H1 & -> & n & Hn & H2)%lseg_app. eauto. Qed.

(** Unlinking the head of a list. *)
Lemma dequeue_head s ls i p k l2 th fuel :
  prio_inv s ls -> pt_proc s !! i = Some p -> p_priority p = Z.of_nat k ->
  ls !! k = Some (i :: l2) -> LkPriority ∉ th_held th ->
  exists s', dequeue_exiting fuel i th s = Ok tt th s' /\
    prio_inv s' (<[k := l2]> ls) /\ relinked s s'.
Proof.
  intros Hinv Hp Hpk Hl Hlk.
  assert (Hk : (k < MAXPRIORITY)%nat).
  { rewrite <- (pi_len _ _ Hinv). by eapply lookup_lt_Some. }
  destruct (prio_inv_list _ _ k Hinv Hk) as (l' & h & v & Hl' & Hh & Hv & Hc & Hnd). simplify_eq.
  destruct (pi_present _ _ Hinv _ _ Hl) as (v' & Hv' & Hv0). simplify_eq.
  destruct Hc as (-> & n & Hn & Hc). apply NoDup_cons in Hnd as [Hil Hnd].
  assert (p_next p = n) as <- by (unfold next_of in Hn; rewrite Hp in Hn; by simplify_eq/=).
  unfold dequeue_exiting, bind at 1. rewrite acquire_ok by done.
  unfold free_process_priority. rewrite !bind_assoc. erewrite bind_ok by (by eapply get_proc_ok).
  rewrite Hpk, !bind_assoc. erewrite bind_ok by (by eapply get_head_ok).
  rewrite bool_decide_true by done. rewrite bind_assoc. destruct l2 as [|n l2].
  - simpl in Hc. rewrite Hc, bind_assoc. erewrite bind_ok by (by eapply set_present_ok).
    erewrite bind_ok by (by eapply set_head_ok). unfold ret, bind. rewrite release_acquired by done.
    eexists. split; [done|]. split; [|done].
    eapply (prio_inv_update s _ ls k [i] [] None 0); cbn -[lseg]; try done;
      rewrite ?length_insert; try apply Hinv; try (by intros; rewrite list_lookup_insert_ne).
    + apply list_lookup_insert_eq. by rewrite (pi_heads _ _ Hinv).
    + apply list_lookup_insert_eq. by rewrite (pi_presents _ _ Hinv).
    + intros x Hx. by apply elem_of_nil in Hx.
    + intros x ->%list_elem_of_singleton _. unfold next_of; cbn. by rewrite Hp; simpl; rewrite Hc.
  - pose proof Hc as [Hc0 _]. rewrite Hc0, bind_assoc. erewrite bind_ok by (by eapply set_head_ok).
    erewrite bind_ok by (by eapply upd_proc_ok). unfold ret, bind. rewrite release_acquired by done.
    eexists. split; [done|].
    assert (Hre : relinked s (set_procs (<[i := with_next None p]> (pt_proc s)) s))
      by (by apply relinked_upd).
    split; [|exact Hre].
    eapply (prio_inv_update s _ ls k (i :: n :: l2) _ (Some n) v); cbn -[lseg]; try done;
      rewrite ?length_insert; try apply Hinv; try (by intros; rewrite list_lookup_insert_ne).
    + apply list_lookup_insert_eq. by rewrite (pi_heads _ _ Hinv).
    + rewrite <- Hc0. eapply lseg_ext; [|exact Hc]. intros x Hx.
      pose proof (next_of_upd s i p None x Hp) as E. rewrite decide_False in E by set_solver. exact E.
    + rewrite Hv0. done.
    + intros x Hx. apply (pi_prio _ _ Hinv k _ x Hl). set_solver.
    + intros x Hx _. pose proof (next_of_upd s i p None x Hp) as E.
      rewrite decide_False in E by set_solver. exact E.
    + intros x Hx Hx'. assert (x = i) as -> by set_solver.
      pose proof (next_of_upd s i p None i Hp) as E. rewrite decide_True in E by done. exact E.
Qed.

(** The links after [z.next = i.next; i.next = NULL]. *)
Lemma next_of_unlink s z pz i p n x :
  pt_proc s !! z = Some pz -> pt_proc s !! i = Some p -> z <> i ->
  next_of (set_procs (<[i := with_next None p]> (<[z := with_next n pz]> (pt_proc s))) s) x =
  if decide (i = x) then Some None else if decide (z = x) then Some n else next_of s x.
Proof.
  intros Hz Hi Hne. unfold next_of; cbn. destruct (decide (i = x)) as [<-|Hix].
  - by rewrite list_lookup_insert_eq by (rewrite length_insert; by eapply lookup_lt_Some).
  - rewrite list_lookup_insert_ne by done. destruct (decide (z = x)) as [<-|Hzx].
    + by rewrite (lookup_insert_Some_eq _ _ _ _ Hz).
    + by rewrite list_lookup_insert_ne.
Qed.

(** Unlinking a process that has a predecessor. *)
Lemma dequeue_middle s ls i p k l0 z l2 th fuel :
  prio_inv s ls -> pt_proc s !! i = Some p -> p_priority p = Z.of_nat k ->
  ls !! k = Some (l0 ++ z :: i :: l2) -> (length l0 < fuel)%nat -> LkPriority ∉ th_held th ->
  exists s', dequeue_exiting fuel i th s = Ok tt th s' /\
    prio_inv s' (<[k := l0 ++ z :: l2]> ls) /\ relinked s s'.
Proof.
  intros Hinv Hp Hpk Hl Hf Hlk.
  assert (Hk : (k < MAXPRIORITY)%nat).
  { rewrite <- (pi_len _ _ Hinv). by eapply lookup_lt_Some. }
  destruct (prio_inv_list _ _ k Hinv Hk) as (l' & h & v & Hl' & Hh & Hv & Hc & Hnd). simplify_eq.
  destruct (pi_prio _ _ Hinv k _ z Hl) as (pz & Hpz & _); [set_solver|].
  assert (Hord : i <> z /\ i ∉ l0 /\ i ∉ l2 /\ z ∉ l0 /\ z ∉ l2 /\ NoDup (l0 ++ z :: l2)).
  { rewrite NoDup_app, !NoDup_cons in Hnd. destruct Hnd as (H0 & Hd & Hz & Hi & H2).
    split_and!; [set_solver..|]. apply NoDup_app. split; [done|]. split; [set_solver|].
    apply NoDup_cons. split; [set_solver|done]. }
  destruct Hord as (Hiz & Hi0 & Hi2 & Hz0 & Hz2 & Hnd').
  assert (Hh0 : h <> Some i).
  { intros ->. destruct l0 as [|y l0]; simpl in Hc; destruct Hc as [? _]; simplify_eq. set_solver. }
  destruct (lseg_next s h l0 z (i :: l2) None Hc) as (nz & Hnz & (-> & n & Hn & Hc2) & Hc0).
  assert (p_next p = n) as <- by (unfold next_of in Hn; rewrite Hp in Hn; by simplify_eq/=).
  unfold dequeue_exiting, bind at 1. rewrite acquire_ok by done.
  unfold free_process_priority. rewrite !bind_assoc. erewrite bind_ok by (by eapply get_proc_ok).
  rewrite Hpk, !bind_assoc. erewrite bind_ok by (by eapply get_head_ok).
  rewrite bool_decide_false by done. rewrite !bind_assoc.
  erewrite bind_ok by (eapply find_before_ok; [exact Hc|set_solver|done]).
  rewrite !bind_assoc. erewrite bind_ok by (by eapply upd_proc_ok).
  erewrite bind_ok by (eapply upd_proc_ok; cbn; by rewrite list_lookup_insert_ne).
  unfold ret, bind. rewrite release_acquired by done. eexists. split; [done|].
  set (s' := set_procs _ _).
  assert (Hre : relinked s s').
  { etransitivity; [apply (relinked_upd s z pz (p_next p) Hpz)|].
    apply relinked_upd. cbn. by rewrite list_lookup_insert_ne. }
  assert (Hnx : forall x, next_of s' x = if decide (i = x) then Some None
            else if decide (z = x) then Some (p_next p) else next_of s x).
  { intros x. by apply (next_of_unlink s z pz i p). }
  split; [|exact Hre].
  eapply (prio_inv_update s _ ls k _ _ h v); cbn -[lseg]; try done; try apply Hinv.
  - apply lseg_app. exists (Some z). split.
    + eapply lseg_ext; [|exact Hc0]. intros x Hx. rewrite Hnx, !decide_False by set_solver. done.
    + split; [done|]. exists (p_next p). rewrite Hnx, decide_False, decide_True by done.
      split; [done|]. eapply lseg_ext; [|exact Hc2]. intros x Hx.
      rewrite Hnx, !decide_False by set_solver. done.
  - destruct (pi_present _ _ Hinv _ _ Hl) as (v' & Hv' & Hv0). simplify_eq. rewrite Hv0.
    split; intros E; apply app_eq_nil in E as [_ ?]; done.
  - intros x Hx. apply (pi_prio _ _ Hinv k _ x Hl). set_solver.
  - intros x Hx _. rewrite Hnx, !decide_False by set_solver. done.
  - intros x Hx Hx'. assert (x = i) as -> by set_solver. by rewrite Hnx, decide_True.
Qed.

(** Removing a process refines removal from a list.  For a process on the list of its
    priority, the critical section of [exit] returns, removes exactly that process
    from the list and keeps the order of the others, leaves the lists of the other
    priorities as they were, keeps the whole structure well formed and releases the
    lock. *)
Lemma dequeue_ok s ls i k l1 l2 th fuel :
  prio_inv s ls -> ls !! k = Some (l1 ++ i :: l2) -> (length (pt_proc s) <= fuel)%nat ->
  LkPriority ∉ th_held th ->
  exists s', dequeue_exiting fuel i th s = Ok tt th s' /\
    prio_inv s' (<[k := l1 ++ l2]> ls) /\ relinked s s'.
Proof.
  intros Hinv Hl Hf Hlk.
  destruct (pi_prio _ _ Hinv k _ i Hl) as (p & Hp & Hpk); [set_solver|].
  destruct l1 as [|z l0 _] using rev_ind; [by eapply dequeue_head|].
  rewrite <- !app_assoc in *. eapply dequeue_middle; try done.
  pose proof (list_length_bound _ _ _ _ Hinv Hl) as Hb. rewrite length_app in Hb. simpl in Hb. lia.
Qed.

(** ** A fresh table *)

Lemma init_priority_control_ok s th :
  (forall i p, pt_proc s !! i = Some p -> p_next p = None) ->
  exists c, init_priority_control th s = Ok tt th (set_control c s) /\
    prio_inv (set_control c s) (replicate MAXPRIORITY []).
Proof.
  intros Hn. eexists. split; [reflexivity|]. split; cbn; try done.
  - intros k l Hl. apply (proj1 (lookup_replicate 5 _ _ _)) in Hl as [-> Hk]. exists None.
    split; [|done]. by apply (lookup_replicate_2 5).
  - intros k l Hl. apply (proj1 (lookup_replicate 5 _ _ _)) in Hl as [-> Hk]. constructor.
  - intros k l i Hl Hi. apply (proj1 (lookup_replicate 5 _ _ _)) in Hl as [-> Hk]. by apply elem_of_nil in Hi.
  - intros i p Hp _. by apply (Hn i).
  - intros k l Hl. apply (proj1 (lookup_replicate 5 _ _ _)) in Hl as [-> Hk]. exists 0.
    split; [|done]. by apply (lookup_replicate_2 5).
Qed.

(** ** Where the lists go wrong *)

(** Walking a list that ends in a self-loop never stops. *)
Lemma last_of_list_loops s i l th :
  next_of s i = Some (Some i) ->
  forall fuel h, lseg s (Some h) l (Some i) -> last_of_list fuel h th s = OutOfFuel.
Proof.
  intros Hi fuel. revert l. induction fuel as [|f IH]; intros l h Hl; [done|].
  cbn [last_of_list]. unfold bind, get_proc.
  destruct l as [|j l]; simpl in Hl.
  - simplify_eq. unfold next_of in Hi. destruct (pt_proc s !! i) as [p|] eqn:E; simplify_eq/=.
    rewrite Hi. apply (IH []). done.
  - destruct Hl as (? & n & Hn & Hl). simplify_eq. unfold next_of in Hn.
    destruct (pt_proc s !! j) as [p|]; simplify_eq/=. destruct (p_next p) as [h|] eqn:E.
    + by apply (IH l).
    + destruct l; simpl in Hl; [done|by destruct Hl].
Qed.

(** Adding the process that is already last on the list of priority [k] a second
    time closes a cycle, and then no process can be added at that priority: the walk
    does not stop for any amount of fuel. *)
Lemma reenqueue_hangs s ls k l i th :
  prio_inv s ls -> ls !! k = Some (l ++ [i]) -> LkPriority ∉ th_held th ->
  exists s', (forall fuel, (length l < fuel)%nat -> enqueue_new fuel i (Z.of_nat k) th s = Ok tt th s') /\
    relinked s s' /\ length (head_priority (pt_control s')) = MAXPRIORITY /\
    forall fuel j th', LkPriority ∉ th_held th' ->
      enqueue_new fuel j (Z.of_nat k) th' s' = OutOfFuel.
Proof.
  intros Hinv Hl Hlk.
  assert (Hk : (k < MAXPRIORITY)%nat).
  { rewrite <- (pi_len _ _ Hinv). by eapply lookup_lt_Some. }
  destruct (prio_inv_list _ _ k Hinv Hk) as (l' & h & v & Hl' & Hh & Hv & Hc & Hnd). simplify_eq/=.
  destruct (pi_prio _ _ Hinv k _ i Hl) as (p & Hp & _); [set_solver|].
  assert (exists j, h = Some j) as [j ->] by (destruct l; simpl in Hc; destruct Hc as [-> _]; eauto).
  apply NoDup_app in Hnd as (_ & Hil & _).
  set (s1 := set_control (mkControl (<[k := 1]> (present (pt_control s)))
      (head_priority (pt_control s)) (current_priority (pt_control s))) s).
  exists (set_procs (<[i := with_next (Some i) p]> (pt_proc s1)) s1). split; [|split; [|split]].
  - intros fuel Hf. unfold enqueue_new, bind at 1. rewrite acquire_ok by done.
    erewrite bind_ok by (by eapply set_present_ok). unfold add_process_priority.
    rewrite bind_assoc. erewrite bind_ok by (by eapply get_head_ok).
    cbv beta iota. rewrite bind_assoc.
    erewrite bind_ok by (eapply last_of_list_ok; [by eapply lseg_ext; [|exact Hc]|done]).
    erewrite bind_ok by (by eapply upd_proc_ok). by rewrite release_acquired by done.
  - exact (relinked_upd s i p (Some i) Hp).
  - apply Hinv.
  - intros fuel j' th' Hlk'. unfold enqueue_new, bind at 1. rewrite acquire_ok by done.
    erewrite bind_ok by (eapply set_present_ok; cbn; apply list_lookup_insert_eq;
                         by rewrite (pi_presents _ _ Hinv)).
    unfold add_process_priority. rewrite bind_assoc. erewrite bind_ok by (by eapply get_head_ok).
    cbv beta iota. rewrite bind_assoc. unfold bind at 1.
    apply lseg_app in Hc as (m & Hc & -> & _).
    erewrite (last_of_list_loops _ i l); [done| |].
    + pose proof (next_of_upd s i p (Some i) i Hp) as E. rewrite decide_True in E by done. exact E.
    + eapply lseg_ext; [|exact Hc]. intros x Hx.
      pose proof (next_of_upd s i p (Some i) x Hp) as E. rewrite decide_False in E by set_solver. exact E.
Qed.

(** The guard of [set_priority] admits [MAXPRIORITY] itself, one past the last
    index of the priority arrays: it accepts priority 5, and taking the process off
    its list afterwards reads [head_priority[5]], outside the array. *)
Theorem set_priority_admits_out_of_bounds s i p th fuel :
  pt_proc s !! i = Some p -> length (head_priority (pt_control s)) = MAXPRIORITY ->
  exists s', set_priority (Z.of_nat MAXPRIORITY) i th s = Ok tt th s' /\
    free_process_priority fuel i th s' = Fault "head_priority index".
Proof.
  intros Hp Hlen. exists (set_procs (<[i := with_priority 5 p]> (pt_proc s)) s). split.
  - unfold set_priority. change (u32 (Z.of_nat MAXPRIORITY)) with 5.
    exact (upd_proc_ok i (with_priority 5) p th s Hp).
  - unfold free_process_priority. erewrite bind_ok
      by (eapply get_proc_ok; cbn; by apply (lookup_insert_Some_eq _ _ _ p)).
    unfold bind, get_head, get. cbn [p_priority with_priority pt_control set_procs].
    change 5 with (Z.of_nat 5). cbn -[znth Z.of_nat].
    rewrite znth_of_nat, lookup_ge_None_2 by (rewrite Hlen; done). done.
Qed.

(** ** Refinement to queues

    The abstract state is one queue of processes per priority.  [prio_op] is what
    [allocproc] and [exit] ask of the lists; [queue_op] says what it does to the
    queues and when it may be asked: a process is added only when it is on no list
    and removed only when it is on the list of its priority. *)
Inductive prio_op : Set := OpAdd (i : nat) | OpDel (i : nat).

Definition run_op (fuel : nat) (o : prio_op) : M ptable unit :=
  match o with
  | OpAdd i => let! p := get_proc i in enqueue_new fuel i (p_priority p)
  | OpDel i => dequeue_exiting fuel i
  end.

Fixpoint run_ops (fuel : nat) (os : list prio_op) : M ptable unit :=
  match os with
  | [] => ret tt
  | o :: os => run_op fuel o;;; run_ops fuel os
  end.

Definition queue_op (prio : nat -> option nat) (ls : list (list nat)) (o : prio_op) :
    option (list (list nat)) :=
  match o with
  | OpAdd i => k ← prio i; l ← ls !! k;
      if existsb (fun l' : list nat => bool_decide (i ∈ l')) ls then None else Some (<[k := l ++ [i]]> ls)
  | OpDel i => k ← prio i; l ← ls !! k;
      if bool_decide (i ∈ (l : list nat)) then Some (<[k := filter (fun j => j <> i) l]> ls) else None
  end.

Fixpoint queue_ops (prio : nat -> option nat) (ls : list (list nat)) (os : list prio_op) :
    option (list (list nat)) :=
  match os with
  | [] => Some ls
  | o :: os => ls' ← queue_op prio ls o; queue_ops prio ls' os
  end.

(** The priority of each process, as an index of the priority arrays. *)
Definition prio_of (s : ptable) (i : nat) : option nat :=
  p ← pt_proc s !! i; Some (Z.to_nat (p_priority p)).

Definition prio_ok (s : ptable) : Prop :=
  forall i p, pt_proc s !! i = Some p -> 0 <= p_priority p.

Lemma existsb_on_list ls i :
  existsb (fun l' : list nat => bool_decide (i ∈ l')) ls = false -> ~ on_list ls i.
Proof.
  intros H (k & l & Hl & Hi). apply not_true_iff_false in H. apply H, existsb_exists.
  exists l. split; [|by apply bool_decide_true]. apply list_elem_of_In. by eapply list_elem_of_lookup_2.
Qed.

Lemma filter_remove (l1 l2 : list nat) i :
  NoDup (l1 ++ i :: l2) -> filter (fun j => j <> i) (l1 ++ i :: l2) = l1 ++ l2.
Proof.
  intros (_ & Hd & Hn)%NoDup_app. apply NoDup_cons in Hn as [Hn _].
  rewrite filter_app, filter_cons, decide_False by tauto.
  rewrite !filter_notin by set_solver. done.
Qed.

Lemma relinked_prio_of s s' : relinked s s' -> prio_ok s ->
  prio_ok s' /\ (forall i, prio_of s' i = prio_of s i) /\ length (pt_proc s') = length (pt_proc s).
Proof.
  intros Hr Hok. split; [|split].
  - intros i p' Hp'. destruct (relinked_lookup_inv _ _ _ _ Hr Hp') as (p & Hp & Hpp).
    rewrite Hpp. exact (Hok i p Hp).
  - intros i. unfold prio_of. destruct (pt_proc s !! i) as [p|] eqn:E.
    + by destruct (relinked_lookup _ _ _ _ Hr E) as (n & -> & _).
    + destruct (pt_proc s' !! i) as [p'|] eqn:E'; [|done].
      destruct (relinked_lookup_inv _ _ _ _ Hr E') as (p & Hp & _). congruence.
  - destruct Hr as [Hr _]. apply (f_equal length) in Hr. by rewrite !length_fmap in Hr.
Qed.

Lemma queue_op_ok fuel s ls o ls' th :
  prio_inv s ls -> prio_ok s -> (length (pt_proc s) <= fuel)%nat -> LkPriority ∉ th_held th ->
  queue_op (prio_of s) ls o = Some ls' ->
  exists s', run_op fuel o th s = Ok tt th s' /\ prio_inv s' ls' /\ relinked s s'.
Proof.
  intros Hinv Hok Hf Hlk. destruct o as [i|i]; cbn [queue_op run_op]; intros Hq;
    destruct (prio_of s i) as [k|] eqn:Ek; try discriminate;
    unfold prio_of in Ek; destruct (pt_proc s !! i) as [p|] eqn:Ep; try discriminate;
    apply (inj Some) in Ek; cbn in Hq; destruct (ls !! k) as [l|] eqn:El; try discriminate; cbn in Hq.
  - destruct (existsb _ _) eqn:Ee; [discriminate|]. apply (inj Some) in Hq as <-.
    rewrite (bind_ok _ _ _ _ _ _ _ (get_proc_ok i p th s Ep)).
    eapply enqueue_ok; try done; [|by apply existsb_on_list]. specialize (Hok i p Ep). lia.
  - case_bool_decide as Hi; [|discriminate]. apply (inj Some) in Hq as <-.
    apply list_elem_of_split in Hi as (l1 & l2 & ->). rewrite filter_remove by by eapply Hinv.
    by eapply dequeue_ok.
Qed.

(** C34: the priority lists refine one queue per priority.  Whatever legal sequence of
    additions (by [allocproc]) and removals (by [exit]) is asked for, every operation
    returns, the lists stay well linked and hold exactly the queues the sequence
    describes, nothing else of the processes changes and the lock is free again. *)
Theorem priority_lists_refine_queues fuel os s ls ls' th :
  prio_inv s ls -> prio_ok s -> (length (pt_proc s) <= fuel)%nat -> LkPriority ∉ th_held th ->
  queue_ops (prio_of s) ls os = Some ls' ->
  exists s', run_ops fuel os th s = Ok tt th s' /\ prio_inv s' ls' /\ relinked s s'.
Proof.
  revert s ls. induction os as [|o os IH]; intros s ls Hinv Hok Hf Hlk; cbn [queue_ops run_ops].
  - intros [= <-]. by exists s.
  - intros Hq. apply bind_Some in Hq as (ls1 & Ho & Hq).
    destruct (queue_op_ok fuel s ls o ls1 th) as (s1 & E1 & Hinv1 & Hr1); try done.
    rewrite (bind_ok _ _ _ _ _ _ _ E1). destruct (relinked_prio_of _ _ Hr1 Hok) as (Hok1 & Hp1 & Hl1).
    destruct (IH s1 ls1) as (s' & E & Hinv' & Hr'); try done; [by rewrite Hl1| |].
    + replace (queue_ops (prio_of s1) ls1 os) with (queue_ops (prio_of s) ls1 os); [done|].
      clear -Hp1. revert ls1. induction os as [|o os IH]; intros ls1; [done|]. cbn [queue_ops].
      replace (queue_op (prio_of s1) ls1 o) with (queue_op (prio_of s) ls1 o)
        by (by destruct o; cbn; rewrite Hp1).
      destruct (queue_op _ _ _); cbn; [apply IH|done].
    + exists s'. split; [done|]. split; [done|]. by transitivity s1.
Qed.

(** ** Witnesses *)

Definition idle (me : nat) : thread := mkThread [] me 1 [].

Definition blank_proc : proc :=
  mkProc UNUSED None 0 0 0 None 0 0 0 0 (mkContext 0 0 []) [] None [] 1 None.

(** Three free slots and empty lists. *)
Definition small_table : ptable :=
  mkPtable (replicate 3 blank_proc)
    (mkControl (replicate MAXPRIORITY 0) (replicate MAXPRIORITY None) (replicate MAXPRIORITY None))
    1 None.

Lemma small_table_blank i p : pt_proc small_table !! i = Some p -> p = blank_proc.
Proof. intros H. by apply (proj1 (lookup_replicate 3 _ _ _)) in H as [-> _]. Qed.

Lemma small_table_inv : prio_inv small_table (replicate MAXPRIORITY []).
Proof.
  destruct (init_priority_control_ok small_table (idle 0)) as (c & E & H).
  - intros i p ->%small_table_blank. done.
  - injection E as <-. exact H.
Qed.

Lemma priority_lists_refine_queues_witness :
  exists s', run_ops 3 [OpAdd 0; OpAdd 1; OpAdd 2; OpDel 1; OpDel 0]%nat (idle 0) small_table
               = Ok tt (idle 0) s' /\
    prio_inv s' [[]; [2%nat]; []; []; []] /\ relinked small_table s'.
Proof.
  apply (priority_lists_refine_queues 3 _ small_table (replicate MAXPRIORITY [])).
  - exact small_table_inv.
  - intros i p ->%small_table_blank. done.
  - apply Nat.le_refl.
  - apply not_elem_of_nil.
  - vm_compute. reflexivity.
Defined.

Lemma set_priority_admits_out_of_bounds_witness :
  exists s', set_priority 5 0 (idle 0) small_table = Ok tt (idle 0) s' /\
    free_process_priority 3 0 (idle 0) s' = Fault "head_priority index".
Proof. exact (set_priority_admits_out_of_bounds small_table 0 blank_proc (idle 0) 3 eq_refl eq_refl). Defined.
