(* ===== verification/Proc.v ===== *)
(** * Processes (kernel/proc.c)

    The life cycle of processes: the whole of kernel/proc.c except the page-table
    routines (Vm.v) and the priority lists (Priority.v).  The state is the process
    table, physical memory with its allocator, and the part of the kernel that holds
    files and inodes, which proc.c reaches only through the eight calls of the class
    [ProcFiles].

    A thread runs until it gives the processor up.  [sched] checks what the code
    checks and stands for the switch to the scheduler; the code after it runs when the
    scheduler has picked the process again, and is a definition of its own
    ([yield_back], [sleep_back]). *)

From S2P Require Import Prelude Layout Memory Kalloc Vm Priority.

(** What proc.c asks of the file layer: files and inodes are named by their index. *)
Class ProcFiles (F : Type) := {
  filedup : nat -> M F nat;
  fileclose : nat -> M F unit;
  idup : nat -> M F nat;
  iput : nat -> M F unit;
  fs_begin_op : M F unit;
  fs_end_op : M F unit;
  namei_root : M F (option nat);
  fsinit : Z -> M F unit;
}.

(** ** State *)

Record kernel (F : Type) := mkKernel { k_pt : ptable; k_mem : kmem; k_fs : F }.
Arguments mkKernel {F} _ _ _.
Arguments k_pt {F} _.
Arguments k_mem {F} _.
Arguments k_fs {F} _.

Definition pt_lens {F} : lens (kernel F) ptable :=
  mkLens k_pt (fun t k => mkKernel t (k_mem k) (k_fs k)).
Definition mem_lens {F} : lens (kernel F) kmem :=
  mkLens k_mem (fun m k => mkKernel (k_pt k) m (k_fs k)).
Definition fs_lens {F} : lens (kernel F) F :=
  mkLens k_fs (fun f k => mkKernel (k_pt k) (k_mem k) f).

(** Assignments to one field of a [struct proc]. *)
Definition with_state (x : procstate) (p : proc) : proc :=
  let 'mkProc _ a b c d e f g h i j k l m n o := p in mkProc x a b c d e f g h i j k l m n o.
Definition with_chan (x : option chan) (p : proc) : proc :=
  let 'mkProc a _ b c d e f g h i j k l m n o := p in mkProc a x b c d e f g h i j k l m n o.
Definition with_killed (x : Z) (p : proc) : proc :=
  let 'mkProc a b _ c d e f g h i j k l m n o := p in mkProc a b x c d e f g h i j k l m n o.
Definition with_xstate (x : Z) (p : proc) : proc :=
  let 'mkProc a b c _ d e f g h i j k l m n o := p in mkProc a b c x d e f g h i j k l m n o.
Definition with_pid (x : Z) (p : proc) : proc :=
  let 'mkProc a b c d _ e f g h i j k l m n o := p in mkProc a b c d x e f g h i j k l m n o.
Definition with_parent (x : option nat) (p : proc) : proc :=
  let 'mkProc a b c d e _ f g h i j k l m n o := p in mkProc a b c d e x f g h i j k l m n o.
Definition with_kstack (x : Z) (p : proc) : proc :=
  let 'mkProc a b c d e f _ g h i j k l m n o := p in mkProc a b c d e f x g h i j k l m n o.
Definition with_sz (x : Z) (p : proc) : proc :=
  let 'mkProc a b c d e f g _ h i j k l m n o := p in mkProc a b c d e f g x h i j k l m n o.
Definition with_pagetable (x : Z) (p : proc) : proc :=
  let 'mkProc a b c d e f g h _ i j k l m n o := p in mkProc a b c d e f g h x i j k l m n o.
Definition with_trapframe (x : Z) (p : proc) : proc :=
  let 'mkProc a b c d e f g h i _ j k l m n o := p in mkProc a b c d e f g h i x j k l m n o.
Definition with_context (x : context) (p : proc) : proc :=
  let 'mkProc a b c d e f g h i j _ k l m n o := p in mkProc a b c d e f g h i j x k l m n o.
Definition with_ofile (x : list (option nat)) (p : proc) : proc :=
  let 'mkProc a b c d e f g h i j k _ l m n o := p in mkProc a b c d e f g h i j k x l m n o.
Definition with_cwd (x : option nat) (p : proc) : proc :=
  let 'mkProc a b c d e f g h i j k l _ m n o := p in mkProc a b c d e f g h i j k l x m n o.
Definition with_name (x : list Z) (p : proc) : proc :=
  let 'mkProc a b c d e f g h i j k l m _ n o := p in mkProc a b c d e f g h i j k l m x n o.

(** Byte offsets of the fields of [struct trapframe] (kernel/proc.h). *)
Definition tf_kernel_satp : Z := 0.
Definition tf_kernel_sp : Z := 8.
Definition tf_kernel_trap : Z := 16.
Definition tf_epc : Z := 24.
Definition tf_kernel_hartid : Z := 32.
Definition tf_sp : Z := 48.
(** [a0] to [a7]. *)
Definition tf_a (n : Z) : Z := 112 + 8 * n.
Definition TRAPFRAME_SIZE : Z := 288.

(** [char name[16]]. *)
Definition NAMESIZE : Z := 16.

(** [safestrcpy(dst, src, sizeof(dst))] between two arrays that are not in the modelled
    physical memory: the arrays are laid out side by side and the routine of
    kernel/string.c is run on them. *)
Definition array_safestrcpy (dst src : list Z) : list Z :=
  let m := mput (mput ∅ 0 src) (Z.of_nat (length src)) dst in
  bytes (safestrcpy m (Z.of_nat (length src)) 0 (Z.of_nat (length dst)))
        (Z.of_nat (length src)) (length dst).

Section Proc.
Context {F : Type} `{ProcFiles F}.
(** The linker's symbols [end] and [trampoline], the entry point of [forkret], and the
    addresses of [initcode] and of [proc[i].xstate], from which user memory is written. *)
Variables kend trampoline forkret_addr initcode_addr : Z.
Variable xstate_addr : nat -> Z.
(** Rounds granted to a walk along a priority list. *)
Variable fuel : nat.

Notation K := (M (kernel F)).

Definition gproc (i : nat) : K proc := zoom pt_lens (get_proc i).
Definition uproc (i : nat) (f : proc -> proc) : K unit := zoom pt_lens (upd_proc i f).
Definition tget (f : ptable -> Z) : K Z := gets (fun k => f (k_pt k)).
Definition myproc : K nat := let! th := self in ret (th_proc th).
Definition mem_op {A} (m : M kmem A) : K A := zoom mem_lens m.
Definition fs_op {A} (m : M F A) : K A := zoom fs_lens m.

(** [for(p = from; p < &proc[NPROC]; p++)], [n] slots. *)
Fixpoint for_procs (n : nat) (p : nat) (body : nat -> K unit) : K unit :=
  match n with
  | O => ret tt
  | S n' => body p;;; for_procs n' (S p) body
  end.

Definition procinit : K unit :=
  for_procs NPROC 0 (fun p =>
    uproc p (with_state UNUSED);;;
    uproc p (with_kstack (KSTACK (Z.of_nat p)));;;
    uproc p (with_priority 1);;;
    uproc p (with_next None)).

Definition set_nextpid (n : Z) (s : ptable) : ptable :=
  mkPtable (pt_proc s) (pt_control s) n (pt_initproc s).
Definition set_initproc (p : option nat) (s : ptable) : ptable :=
  mkPtable (pt_proc s) (pt_control s) (pt_nextpid s) p.

Definition allocpid : K Z :=
  acquire LkPid;;;
  let! pid := tget pt_nextpid in
  zoom pt_lens (modify (set_nextpid (i32 (pid + 1))));;;
  release LkPid;;;
  ret pid.

Definition freeproc (p : nat) : K unit :=
  let! pp := gproc p in
  when (ctrue (p_trapframe pp)) (mem_op (kfree kend (p_trapframe pp)));;;
  uproc p (with_trapframe 0);;;
  let! pp := gproc p in
  when (ctrue (p_pagetable pp)) (mem_op (proc_freepagetable kend (p_pagetable pp) (p_sz pp)));;;
  uproc p (with_pagetable 0);;;
  uproc p (with_sz 0);;;
  uproc p (with_pid 0);;;
  uproc p (with_parent None);;;
  uproc p (fun q => with_name (<[0%nat := 0]> (p_name q)) q);;;
  uproc p (with_chan None);;;
  uproc p (with_killed 0);;;
  uproc p (with_xstate 0);;;
  uproc p (with_state UNUSED).

(** The search of [allocproc]: the slot found, its lock held. *)
Fixpoint find_unused (n : nat) (p : nat) : K (option nat) :=
  match n with
  | O => ret None
  | S n' =>
      acquire (LkProc p);;;
      let! pp := gproc p in
      if bool_decide (p_state pp = UNUSED) then ret (Some p)
      else release (LkProc p);;; find_unused n' (S p)
  end.

Definition forkret_context (kstack : Z) : context :=
  mkContext forkret_addr (u64 (kstack + PGSIZE)) (replicate 12 0).

Definition allocproc (priority : Z) : K (option nat) :=
  let! found := find_unused NPROC 0 in
  match found with
  | None => ret None
  | Some p =>
      let! pid := allocpid in
      uproc p (with_pid pid);;;
      uproc p (with_state USED);;;
      let! tf := mem_op kalloc in
      uproc p (with_trapframe tf);;;
      if tf =? 0 then freeproc p;;; release (LkProc p);;; ret None
      else
        let! pt := mem_op (proc_pagetable kend trampoline tf) in
        uproc p (with_pagetable pt);;;
        if pt =? 0 then freeproc p;;; release (LkProc p);;; ret None
        else
          uproc p (with_priority (u32 priority));;;
          zoom pt_lens (enqueue_new fuel p priority);;;
          uproc p (fun q => with_context (forkret_context (p_kstack q)) q);;;
          ret (Some p)
  end.

(** The instructions of [initcode], 52 bytes; they lie at [initcode_addr]. *)
Definition initcode : list Z := [
  0x17; 0x05; 0x00; 0x00; 0x13; 0x05; 0x45; 0x02;
  0x97; 0x05; 0x00; 0x00; 0x93; 0x85; 0x35; 0x02;
  0x93; 0x08; 0x70; 0x00; 0x73; 0x00; 0x00; 0x00;
  0x93; 0x08; 0x20; 0x00; 0x73; 0x00; 0x00; 0x00;
  0xef; 0xf0; 0x9f; 0xff; 0x2f; 0x69; 0x6e; 0x69;
  0x74; 0x00; 0x00; 0x24; 0x00; 0x00; 0x00; 0x00;
  0x00; 0x00; 0x00; 0x00].

Definition userinit : K unit :=
  let! np := allocproc 2 in
  zoom pt_lens (modify (set_initproc np));;;
  let! p := deref "null p" np in
  let! pp := gproc p in
  mem_op (uvmfirst (p_pagetable pp) initcode_addr (Z.of_nat (length initcode)));;;
  uproc p (with_sz PGSIZE);;;
  mem_op (store64 (p_trapframe pp + tf_epc) 0);;;
  mem_op (store64 (p_trapframe pp + tf_sp) PGSIZE);;;
  uproc p (fun q => with_name (array_safestrcpy (p_name q) (cstr "initcode")) q);;;
  let! ip := fs_op namei_root in
  uproc p (with_cwd ip);;;
  uproc p (with_state RUNNABLE);;;
  release (LkProc p).

Definition growproc (n : Z) : K Z :=
  let! p := myproc in
  let! pp := gproc p in
  let! r := mem_op (growproc_mem kend (p_pagetable pp) (p_sz pp) n) in
  uproc p (with_sz (snd r));;;
  ret (fst r).

(** [np->ofile[i] = filedup(p->ofile[i])] for the open descriptors from [i]. *)
Fixpoint dup_files (n : nat) (i : nat) (p np : nat) : K unit :=
  match n with
  | O => ret tt
  | S n' =>
      let! pp := gproc p in
      let! o := deref "ofile index" (p_ofile pp !! i) in
      (match o with
       | None => ret tt
       | Some f => let! f' := fs_op (filedup f) in
                   uproc np (fun q => with_ofile (<[i := Some f']> (p_ofile q)) q)
       end);;;
      dup_files n' (S i) p np
  end.

(** [fork] from the point where memory has been copied. *)
Definition fork_tail (p np : nat) (pp nq : proc) : K Z :=
  uproc np (with_sz (p_sz pp));;;
  mem_op (mem_move (p_trapframe nq) (p_trapframe pp) TRAPFRAME_SIZE);;;
  mem_op (store64 (p_trapframe nq + tf_a 0) 0);;;
  dup_files NOFILE 0 p np;;;
  let! cwd := deref "null cwd" (p_cwd pp) in
  let! ip := fs_op (idup cwd) in
  uproc np (with_cwd (Some ip));;;
  uproc np (fun q => with_name (array_safestrcpy (p_name q) (p_name pp)) q);;;
  let! nq := gproc np in
  let pid := p_pid nq in
  release (LkProc np);;;
  acquire LkWait;;;
  uproc np (with_parent (Some p));;;
  release LkWait;;;
  acquire (LkProc np);;;
  uproc np (with_state RUNNABLE);;;
  release (LkProc np);;;
  ret pid.

Definition fork : K Z :=
  let! p := myproc in
  let! pp := gproc p in
  let! r := allocproc (i32 (p_priority pp)) in
  match r with
  | None => ret (-1)
  | Some np =>
      let! nq := gproc np in
      let! c := mem_op (uvmcopy kend (p_pagetable pp) (p_pagetable nq) (p_sz pp)) in
      if c <? 0 then freeproc np;;; release (LkProc np);;; ret (-1)
      else
        fork_tail p np pp nq
  end.

(** ** Sleeping and waking *)

(** Control leaves for the scheduler.  Interrupts are off because a lock is held. *)
Definition sched : K unit :=
  let! p := myproc in
  let! th := self in
  if negb (bool_decide (LkProc p ∈ th_held th)) then panic "sched p->lock"
  else if negb (length (th_held th) =? 1)%nat then panic "sched locks"
  else
    let! pp := gproc p in
    if bool_decide (p_state pp = RUNNING) then panic "sched running" else ret tt.

(** [yield] before and after its call of [sched]. *)
Definition yield : K unit :=
  let! p := myproc in
  acquire (LkProc p);;;
  uproc p (with_state RUNNABLE);;;
  sched.
Definition yield_back : K unit := let! p := myproc in release (LkProc p).

(** [sleep] before and after its call of [sched]. *)
Definition sleep (ch : chan) (lk : lock_id) : K unit :=
  let! p := myproc in
  acquire (LkProc p);;;
  release lk;;;
  uproc p (with_chan (Some ch));;;
  uproc p (with_state SLEEPING);;;
  sched.
Definition sleep_back (lk : lock_id) : K unit :=
  let! p := myproc in
  uproc p (with_chan None);;;
  release (LkProc p);;;
  acquire lk.

(** [None] is the null channel. *)
Definition wakeup_one (ch : option chan) (p : nat) : K unit :=
  let! me := myproc in
  if bool_decide (p = me) then ret tt
  else
    acquire (LkProc p);;;
    let! pp := gproc p in
    when (bool_decide (p_state pp = SLEEPING) && bool_decide (p_chan pp = ch))
      (uproc p (with_state RUNNABLE));;;
    release (LkProc p).
Definition wakeup (ch : option chan) : K unit := for_procs NPROC 0 (wakeup_one ch).

Fixpoint kill_loop (n : nat) (p : nat) (pid : Z) : K Z :=
  match n with
  | O => ret (-1)
  | S n' =>
      acquire (LkProc p);;;
      let! pp := gproc p in
      if p_pid pp =? pid then
        uproc p (with_killed 1);;;
        when (bool_decide (p_state pp = SLEEPING)) (uproc p (with_state RUNNABLE));;;
        release (LkProc p);;;
        ret 0
      else release (LkProc p);;; kill_loop n' (S p) pid
  end.
Definition kill (pid : Z) : K Z := kill_loop NPROC 0 pid.

Definition setkilled (p : nat) : K unit :=
  acquire (LkProc p);;; uproc p (with_killed 1);;; release (LkProc p).
Definition killed (p : nat) : K Z :=
  acquire (LkProc p);;;
  let! pp := gproc p in
  let k := p_killed pp in
  release (LkProc p);;;
  ret k.

(** ** Exit and wait *)

(** [wakeup(p)] for a [struct proc *p]. *)
Definition wakeup_proc (p : option nat) : K unit := wakeup (ChProc <$> p).

Definition reparent (p : nat) : K unit :=
  for_procs NPROC 0 (fun pp =>
    let! q := gproc pp in
    if bool_decide (p_parent q = Some p) then
      let! k := get in
      uproc pp (with_parent (pt_initproc (k_pt k)));;;
      wakeup_proc (pt_initproc (k_pt k))
    else ret tt).

Fixpoint close_files (n : nat) (fd : nat) (p : nat) : K unit :=
  match n with
  | O => ret tt
  | S n' =>
      let! pp := gproc p in
      let! o := deref "ofile index" (p_ofile pp !! fd) in
      (match o with
       | None => ret tt
       | Some f => fs_op (fileclose f);;;
                   uproc p (fun q => with_ofile (<[fd := None]> (p_ofile q)) q)
       end);;;
      close_files n' (S fd) p
  end.

(** [exit] from taking [wait_lock] to the call of [sched], which does not return. *)
Definition exit_zombie (p : nat) (status : Z) : K unit :=
  acquire LkWait;;;
  reparent p;;;
  let! pp := gproc p in
  wakeup_proc (p_parent pp);;;
  acquire (LkProc p);;;
  uproc p (with_xstate status);;;
  uproc p (with_state ZOMBIE);;;
  zoom pt_lens (dequeue_exiting fuel p);;;
  release LkWait;;;
  sched.

Definition exit (status : Z) : K unit :=
  let! p := myproc in
  let! k := get in
  if bool_decide (pt_initproc (k_pt k) = Some p) then panic "init exiting"
  else
    close_files NOFILE 0 p;;;
    fs_op fs_begin_op;;;
    let! pp := gproc p in
    let! cwd := deref "null cwd" (p_cwd pp) in
    fs_op (iput cwd);;;
    fs_op fs_end_op;;;
    uproc p (with_cwd None);;;
    exit_zombie p status.

(** [wait] has found the zombie child [pp], whose lock it holds. *)
Definition wait_reap (pp p : nat) (q : proc) (addr : Z) : K Z :=
  let pid := p_pid q in
  let! me := gproc p in
  let! c := (if ctrue addr then
               mem_op (modify (fun s => set_mem (st32 (km_mem s) (xstate_addr pp) (p_xstate q)) s));;;
               mem_op (copyout (p_pagetable me) addr (xstate_addr pp) 4)
             else ret 0) in
  if ctrue addr && (c <? 0) then
    release (LkProc pp);;;
    release LkWait;;;
    ret (-1)
  else
    freeproc pp;;;
    release (LkProc pp);;;
    release LkWait;;;
    ret pid.

(** The scan of [wait]: the value to return, or whether there are children. *)
Fixpoint wait_scan (n : nat) (pp : nat) (p : nat) (addr : Z) (havekids : bool) : K (Z + bool) :=
  match n with
  | O => ret (inr havekids)
  | S n' =>
      let! q := gproc pp in
      if bool_decide (p_parent q = Some p) then
        acquire (LkProc pp);;;
        let! q := gproc pp in
        if bool_decide (p_state q = ZOMBIE) then let! v := wait_reap pp p q addr in ret (inl v)
        else release (LkProc pp);;; wait_scan n' (S pp) p addr true
      else wait_scan n' (S pp) p addr havekids
  end.

(** One round of the loop of [wait], entered with [wait_lock] held: its value, or
    [None] after going to sleep. *)
Definition wait_round (addr : Z) : K (option Z) :=
  let! p := myproc in
  let! r := wait_scan NPROC 0 p addr false in
  match r with
  | inl v => ret (Some v)
  | inr havekids =>
      let! k := (if havekids then killed p else ret 1) in
      if negb havekids || ctrue k then release LkWait;;; ret (Some (-1))
      else sleep (ChProc p) LkWait;;; ret None
  end.
Definition wait (addr : Z) : K (option Z) := acquire LkWait;;; wait_round addr.
(** The rounds after the first, when the scheduler has resumed the process. *)
Definition wait_again (addr : Z) : K (option Z) := sleep_back LkWait;;; wait_round addr.

(** ** The scheduler *)

(** One slot of the scheduler's loop: whether [p] was made the running process; the
    switch then leaves its lock to the process. *)
Definition scheduler_pick (p : nat) : K bool :=
  acquire (LkProc p);;;
  let! pp := gproc p in
  if bool_decide (p_state pp = RUNNABLE) then uproc p (with_state RUNNING);;; ret true
  else release (LkProc p);;; ret false.
(** The end of the slot, after the process has switched back. *)
Definition scheduler_return (p : nat) : K unit := release (LkProc p).

(** [forkret], up to [usertrapret]; [first] is its static variable. *)
Definition forkret (first : bool) : K bool :=
  let! p := myproc in
  release (LkProc p);;;
  (if first then fs_op (fsinit ROOTDEV) else ret tt);;;
  ret false.

(** ** Copying to and from a user or a kernel address *)

Definition either_copyout (user_dst dst src len : Z) : K Z :=
  let! p := myproc in
  let! pp := gproc p in
  if ctrue user_dst then mem_op (copyout (p_pagetable pp) dst src len)
  else mem_op (mem_move dst src len);;; ret 0.

Definition either_copyin (dst user_src src len : Z) : K Z :=
  let! p := myproc in
  let! pp := gproc p in
  if ctrue user_src then mem_op (copyin (p_pagetable pp) dst src len)
  else mem_op (mem_move dst src len);;; ret 0.

(** The lines [procdump] prints: pid, state and name of every slot in use. *)
Definition state_name (s : procstate) : string :=
  match s with
  | UNUSED => "unused" | USED => "used" | SLEEPING => "sleep "
  | RUNNABLE => "runble" | RUNNING => "run   " | ZOMBIE => "zombie"
  end.
Definition procdump (s : ptable) : list (Z * string * list Z) :=
  (fun p => (p_pid p, state_name (p_state p), p_name p)) <$>
    filter (fun p => p_state p <> UNUSED) (pt_proc s).

End Proc.
