(* ===== verification/ProcOps.v ===== *)
(** * Executing the operations on the process table

    Equations that run the field accesses and the loops of kernel/proc.c on a table
    given by its slots, and from them what [wakeup], [kill], [sleep], [yield] and the
    scheduler do. *)

From S2P Require Import Prelude Layout Memory Kalloc Vm Priority Proc.

(** The table with slot [i] set to [q]. *)
Definition setp (t : ptable) (i : nat) (q : proc) : ptable := set_procs (<[i := q]> (pt_proc t)) t.

Lemma setp_id t i p : pt_proc t !! i = Some p -> setp t i p = t.
Proof. intros Hp. unfold setp, set_procs. rewrite list_insert_id by done. by destruct t. Qed.
Lemma setp_setp t i p q : setp (setp t i p) i q = setp t i q.
Proof. unfold setp, set_procs; cbn. by rewrite list_insert_insert_eq. Qed.
Lemma length_setp t i q : length (pt_proc (setp t i q)) = length (pt_proc t).
Proof. apply length_insert. Qed.
Lemma lookup_setp_ne t i j q : i <> j -> pt_proc (setp t i q) !! j = pt_proc t !! j.
Proof. intros. by apply list_lookup_insert_ne. Qed.
Lemma lookup_setp t i q p : pt_proc t !! i = Some p -> pt_proc (setp t i q) !! i = Some q.
Proof. intros. by eapply lookup_insert_Some_eq. Qed.
Lemma lookup_setp_lt t i q : (i < length (pt_proc t))%nat -> pt_proc (setp t i q) !! i = Some q.
Proof. intros. by apply list_lookup_insert_eq. Qed.

Section ProcOps.
Context {F : Type} `{ProcFiles F}.
Implicit Types (t : ptable) (m : kmem) (fs : F) (th : thread).

Lemma gproc_ok i p th t m fs :
  pt_proc t !! i = Some p -> gproc i th (mkKernel t m fs) = Ok p th (mkKernel t m fs).
Proof. intros Hp. unfold gproc, zoom, get_proc. cbn. by rewrite Hp. Qed.

Lemma uproc_ok i f p th t m fs :
  pt_proc t !! i = Some p ->
  uproc i f th (mkKernel t m fs) = Ok tt th (mkKernel (setp t i (f p)) m fs).
Proof. intros Hp. unfold uproc, zoom, upd_proc. cbn. by rewrite Hp. Qed.

Lemma gproc_setp i q th t m fs :
  (i < length (pt_proc t))%nat ->
  gproc i th (mkKernel (setp t i q) m fs) = Ok q th (mkKernel (setp t i q) m fs).
Proof. intros Hi. by apply gproc_ok, lookup_setp_lt. Qed.

Lemma uproc_setp i f q th t m fs :
  (i < length (pt_proc t))%nat ->
  uproc i f th (mkKernel (setp t i q) m fs) = Ok tt th (mkKernel (setp t i (f q)) m fs).
Proof. intros Hi. erewrite uproc_ok by (by apply lookup_setp_lt). by rewrite setp_setp. Qed.

Lemma mem_op_ok {A} (op : M kmem A) th th' t m m' fs a :
  op th m = Ok a th' m' -> mem_op op th (mkKernel t m fs) = Ok a th' (mkKernel t m' fs).
Proof. intros E. unfold mem_op, zoom. cbn. by rewrite E. Qed.

Lemma fs_op_ok {A} (op : M F A) th th' t m fs fs' a :
  op th fs = Ok a th' fs' -> fs_op op th (mkKernel t m fs) = Ok a th' (mkKernel t m fs').
Proof. intros E. unfold fs_op, zoom. cbn. by rewrite E. Qed.

Lemma pt_op_ok {A} (op : M ptable A) th th' t t' m fs a :
  op th t = Ok a th' t' -> zoom pt_lens op th (mkKernel t m fs) = Ok a th' (mkKernel t' m fs).
Proof. intros E. unfold zoom. cbn. by rewrite E. Qed.

(** ** Loops over the table *)

(** A loop whose body changes only the slot it visits. *)
Definition map_slots (g : nat -> proc -> proc) (t : ptable) : ptable :=
  set_procs (imap g (pt_proc t)) t.

Lemma lookup_map_slots g t i : pt_proc (map_slots g t) !! i = g i <$> pt_proc t !! i.
Proof. apply list_lookup_imap. Qed.
Lemma length_map_slots g t : length (pt_proc (map_slots g t)) = length (pt_proc t).
Proof. apply length_imap. Qed.

Lemma for_procs_map n i body g th t m fs :
  (length (pt_proc t) = i + n)%nat ->
  (forall j p t', (j < length (pt_proc t'))%nat -> length (pt_proc t') = length (pt_proc t) ->
     pt_proc t' !! j = Some p ->
     body j th (mkKernel t' m fs) = Ok tt th (mkKernel (setp t' j (g j p)) m fs)) ->
  for_procs n i body th (mkKernel t m fs) =
    Ok tt th (mkKernel (map_slots (fun j p => if (i <=? j)%nat then g j p else p) t) m fs).
Proof.
  revert i t. induction n as [|n IH]; intros i t Hlen Hb; cbn [for_procs].
  - unfold ret. do 2 f_equal. unfold map_slots, set_procs. destruct t as [ps c np ip]; cbn in *. f_equal.
    apply list_eq. intros j. rewrite list_lookup_imap. destruct (ps !! j) eqn:E; [|done]; cbn.
    apply lookup_lt_Some in E. by rewrite (proj2 (Nat.leb_gt i j)) by lia.
  - destruct (lookup_lt_is_Some_2 (pt_proc t) i) as [p Hp]; [lia|].
    rewrite (bind_ok _ _ _ _ _ _ _ (Hb i p t ltac:(lia) eq_refl Hp)).
    rewrite IH; [|rewrite length_setp; lia|intros j p' t' Hj Hl; rewrite length_setp in Hl; by apply Hb].
    do 2 f_equal. unfold map_slots, setp, set_procs; cbn [pt_proc pt_control pt_nextpid pt_initproc]. f_equal. apply list_eq. intros j.
    rewrite !list_lookup_imap. destruct (decide (i = j)) as [<-|Hne].
    + rewrite (lookup_insert_Some_eq _ _ _ _ Hp), Hp; cbn [fmap option_fmap option_map]. by rewrite (proj2 (Nat.leb_gt (S i) i)), Nat.leb_refl by lia.
    + rewrite list_lookup_insert_ne by done. destruct (pt_proc t !! j); [|done]; cbn [fmap option_fmap option_map]. f_equal.
      destruct (Nat.leb_spec (S i) j), (Nat.leb_spec i j); try done; lia.
Qed.

Lemma for_procs_all body g th t m fs :
  length (pt_proc t) = NPROC ->
  (forall j p t', (j < length (pt_proc t'))%nat -> length (pt_proc t') = length (pt_proc t) ->
     pt_proc t' !! j = Some p ->
     body j th (mkKernel t' m fs) = Ok tt th (mkKernel (setp t' j (g j p)) m fs)) ->
  for_procs NPROC 0 body th (mkKernel t m fs) = Ok tt th (mkKernel (map_slots g t) m fs).
Proof. intros Hlen Hb. rewrite (for_procs_map _ _ _ g); [done|done|done]. Qed.

(** No lock of another process is held. *)
Definition only_own (th : thread) : Prop := forall i, LkProc i ∈ th_held th -> i = th_proc th.

(** ** [wakeup] *)

Definition woken (me : nat) (ch : option chan) (i : nat) (p : proc) : proc :=
  if negb (bool_decide (i = me)) && bool_decide (p_state p = SLEEPING) && bool_decide (p_chan p = ch)
  then with_state RUNNABLE p else p.

Lemma wakeup_ok ch th t m fs :
  length (pt_proc t) = NPROC -> only_own th ->
  Proc.wakeup ch th (mkKernel t m fs) = Ok tt th (mkKernel (map_slots (woken (th_proc th) ch) t) m fs).
Proof.
  intros Hlen Hown. apply for_procs_all; [done|]. intros j p t' Hj _ Hp.
  unfold wakeup_one. rewrite (bind_ok _ _ _ _ _ _ _ (eq_refl : myproc th _ = Ok _ th _)).
  unfold woken. case_bool_decide as Hme; cbn [negb andb]; [by rewrite setp_id|].
  assert (Hlk : LkProc j ∉ th_held th) by (intros Hin; by apply Hme, Hown).
  rewrite (bind_ok _ _ _ _ _ _ _ (acquire_ok _ _ _ Hlk)), (bind_ok _ _ _ _ _ _ _ (gproc_ok _ _ _ _ _ _ Hp)).
  destruct (bool_decide (p_state p = SLEEPING) && bool_decide (p_chan p = ch)); cbn [when].
  - rewrite (bind_ok _ _ _ _ _ _ _ (uproc_ok _ _ _ _ _ _ _ Hp)). by apply release_acquired.
  - rewrite (bind_ok _ _ _ _ _ _ _ (eq_refl : ret tt _ _ = _)), setp_id by done. by apply release_acquired.
Qed.

(** ** [kill] *)

Lemma kill_loop_ok n i pid th t m fs :
  (length (pt_proc t) = i + n)%nat -> (forall j, LkProc j ∉ th_held th) ->
  (exists j p, kill_loop n i pid th (mkKernel t m fs) = Ok 0 th (mkKernel (setp t j
        (if bool_decide (p_state p = SLEEPING) then with_state RUNNABLE (with_killed 1 p) else with_killed 1 p)) m fs) /\
     pt_proc t !! j = Some p /\ p_pid p = pid /\ (i <= j)%nat /\
     forall j' p', (i <= j' < j)%nat -> pt_proc t !! j' = Some p' -> p_pid p' <> pid) \/
  (kill_loop n i pid th (mkKernel t m fs) = Ok (-1) th (mkKernel t m fs) /\
     forall j p, (i <= j)%nat -> pt_proc t !! j = Some p -> p_pid p <> pid).
Proof.
  revert i. induction n as [|n IH]; intros i Hlen Hlk; cbn [kill_loop].
  - right. split; [done|]. intros j p Hj Hp. apply lookup_lt_Some in Hp. lia.
  - destruct (lookup_lt_is_Some_2 (pt_proc t) i) as [p Hp]; [lia|].
    rewrite (bind_ok _ _ _ _ _ _ _ (acquire_ok _ _ _ (Hlk i))), (bind_ok _ _ _ _ _ _ _ (gproc_ok _ _ _ _ _ _ Hp)).
    destruct (Z.eqb_spec (p_pid p) pid) as [E|E].
    + left. exists i, p. split_and!; try done; [|intros; lia].
      rewrite (bind_ok _ _ _ _ _ _ _ (uproc_ok _ _ _ _ _ _ _ Hp)).
      case_bool_decide; cbn [when].
      * rewrite (bind_ok _ _ _ _ _ _ _ (uproc_setp _ _ _ _ _ _ _ (lookup_lt_Some _ _ _ Hp))).
        by rewrite (bind_ok _ _ _ _ _ _ _ (release_acquired _ _ _ (Hlk i))).
      * rewrite (bind_ok _ _ _ _ _ _ _ (eq_refl : ret tt _ _ = _)).
        by rewrite (bind_ok _ _ _ _ _ _ _ (release_acquired _ _ _ (Hlk i))).
    + rewrite (bind_ok _ _ _ _ _ _ _ (release_acquired _ _ _ (Hlk i))).
      destruct (IH (S i)) as [(j & q & HE & Hq & Hpid & Hj & Hfirst)|[HE Hno]]; [lia|done| |].
      * left. exists j, q. split_and!; try done; [lia|]. intros j' p' Hj' Hp'.
        destruct (decide (j' = i)) as [->|]; [congruence|]. apply (Hfirst j'); [lia|done].
      * right. split; [done|]. intros j q Hj Hq. destruct (decide (j = i)) as [->|]; [congruence|].
        apply (Hno j); [lia|done].
Qed.

(** ** [sched], [sleep], [yield], [killed] *)

Lemma sched_ok th t m fs p :
  th_held th = [LkProc (th_proc th)] -> pt_proc t !! th_proc th = Some p -> p_state p <> RUNNING ->
  sched th (mkKernel t m fs) = Ok tt th (mkKernel t m fs).
Proof.
  intros Hh Hp Hs. unfold sched. rewrite (bind_ok _ _ _ _ _ _ _ (eq_refl : myproc th _ = Ok _ th _)).
  rewrite (bind_ok _ _ _ _ _ _ _ (eq_refl : self th _ = Ok _ th _)), Hh.
  rewrite bool_decide_true by set_solver. cbn [negb length Nat.eqb].
  rewrite (bind_ok _ _ _ _ _ _ _ (gproc_ok _ _ _ _ _ _ Hp)). by rewrite bool_decide_false.
Qed.

Lemma sleep_ok ch lk th t m fs p :
  th_held th = [lk] -> (forall i, lk <> LkProc i) -> pt_proc t !! th_proc th = Some p ->
  sleep ch lk th (mkKernel t m fs) =
    Ok tt (set_held [LkProc (th_proc th)] th)
       (mkKernel (setp t (th_proc th) (with_state SLEEPING (with_chan (Some ch) p))) m fs).
Proof.
  intros Hh Hlk Hp. pose proof (lookup_lt_Some _ _ _ Hp) as Hlt. unfold sleep.
  rewrite (bind_ok _ _ _ _ _ _ _ (eq_refl : myproc th _ = Ok _ th _)).
  rewrite (bind_ok _ _ _ _ _ _ _ (acquire_ok (LkProc (th_proc th)) th _ ltac:(rewrite Hh; set_solver))).
  assert (Hr : forall k : kernel F, release lk (set_held (LkProc (th_proc th) :: th_held th) th) k =
      Ok tt (set_held [LkProc (th_proc th)] th) k).
  { intros k. unfold release. cbn [th_held set_held]. rewrite Hh, bool_decide_true by set_solver.
    rewrite set_held_twice. do 2 f_equal. unfold drop_lock. rewrite filter_cons_True by (intros E; by apply (Hlk (th_proc th))).
    by rewrite filter_cons_False, filter_nil by tauto. }
  rewrite (bind_ok _ _ _ _ _ _ _ (Hr _)), (bind_ok _ _ _ _ _ _ _ (uproc_ok _ _ _ _ _ _ _ Hp)).
  rewrite (bind_ok _ _ _ _ _ _ _ (uproc_setp _ _ _ _ _ _ _ Hlt)).
  eapply sched_ok; [done|by apply lookup_setp_lt|by destruct p].
Qed.

Lemma killed_ok i th t m fs p :
  LkProc i ∉ th_held th -> pt_proc t !! i = Some p ->
  killed i th (mkKernel t m fs) = Ok (p_killed p) th (mkKernel t m fs).
Proof.
  intros Hlk Hp. unfold killed. rewrite (bind_ok _ _ _ _ _ _ _ (acquire_ok _ _ _ Hlk)).
  rewrite (bind_ok _ _ _ _ _ _ _ (gproc_ok _ _ _ _ _ _ Hp)).
  by rewrite (bind_ok _ _ _ _ _ _ _ (release_acquired _ _ _ Hlk)).
Qed.

End ProcOps.
