(* ===== verification/ProcMem.v ===== *)
(** * Who owns which page (kernel/proc.c with kernel/vm.c and kernel/kalloc.c)

    Every page of RAM that the kernel hands out is on the free list or belongs to
    exactly one process: as its trapframe, as a page of its page table or as user
    memory.  [mem_inv] says so for the whole process table; the lemmas show how the
    operations that allocate and free keep it. *)

From S2P Require Import Prelude Layout Memory Kalloc Vm VmMap VmUser VmFree VmLife VmFork.
From S2P Require Import Priority Proc ProcOps.

(** What a slot of the table owns: nothing, only a trapframe page (inside [allocproc]),
    or a whole address space. *)
Inductive slot : Type :=
| Empty
| TfOnly
| Full (own : gmap path Z) (A : gmap Z Z) (fs : list Z).

Definition claimed (p : proc) (o : slot) : list Z :=
  match o with
  | Empty => []
  | TfOnly => [p_trapframe p]
  | Full own _ fs => p_trapframe p :: pages own ++ fs
  end.

Section ProcMem.
Context {F : Type} `{ProcFiles F}.
Variable kend : Z.
Hypothesis kend_ok : KERNBASE <= kend <= PHYSTOP.
Variable tramp : Z.
Hypothesis tramp_ok : frame_addr tramp.

Definition slot_ok (s : kmem) (l : list Z) (p : proc) (o : slot) : Prop :=
  match o with
  | Empty => p_pagetable p = 0 /\ p_trapframe p = 0 /\ p_sz p = 0
  | TfOnly => p_pagetable p = 0 /\ page_ok kend (p_trapframe p) /\ p_sz p = 0
  | Full own A fs =>
      page_ok kend (p_trapframe p) /\ p_sz p <= MAXVA /\
      process kend tramp (p_trapframe p) (p_sz p) s l (p_pagetable p) own A fs
  end.

Record mem_inv (s : kmem) (l : list Z) (ps : list proc) (os : list slot) : Prop := mkMemInv {
  mi_km : km_inv kend s l;
  mi_slots : Forall2 (slot_ok s l) ps os;
  mi_nodup : NoDup (l ++ concat (zip_with claimed ps os));
}.

Lemma slot_claimed_ok s l p o : slot_ok s l p o -> Forall (page_ok kend) (claimed p o).
Proof.
  destruct o as [| |own A fs]; cbn.
  - constructor.
  - intros (_ & ? & _). by apply Forall_singleton.
  - intros (? & _ & [[Hus _ _] _ _]). constructor; [done|]. apply Forall_app. split.
    + apply (vi_pages _ _ _ _ _ _ (us_vm Hus)).
    + apply (us_frames Hus).
Qed.

(** An address space keeps its meaning while pages outside it change. *)
Lemma process_frame tf sz root s l s' l' own A fs qs :
  process kend tramp tf sz s l root own A fs -> km_inv kend s' l' ->
  Forall (page_ok kend) qs -> NoDup (qs ++ pages own ++ fs) -> (forall x, x ∈ l' -> x ∈ qs) ->
  (forall a, outside qs a -> mget (km_mem s') a = mget (km_mem s) a) ->
  process kend tramp tf sz s' l' root own A fs.
Proof.
  intros [[Hus Ht1 Ht2] Hs0 Hlen] Hkm Hqs Hnd Hsub Hout.
  apply NoDup_app in Hnd as (Hndq & Hd & Hndc).
  assert (Hnd' : NoDup (l' ++ pages own ++ fs)).
  { apply NoDup_app. split_and!; [apply Hkm| |done]. intros x Hx Hx'. apply (Hd x); [by apply Hsub|done]. }
  destruct Hus as [Hvm H2 H3 H4 H5 H6].
  assert (Hb : forall p' a, p' ∈ pages own -> in_page p' a -> mget (km_mem s') a = mget (km_mem s) a).
  { intros p' a Hp' Ha. apply Hout. intros q Hq Ha'. pose proof (vi_pages _ _ _ _ _ _ Hvm) as Hcl.
    rewrite Forall_forall in Hcl, Hqs. apply (Hd q Hq), elem_of_app. left.
    by rewrite (pages_disjoint kend q p' a) by auto. }
  split; [|done|done]. split; [|done|done]. split; try done.
  eapply vm_inv_frame; [done|done| |done].
  rewrite app_assoc in Hnd'. by apply NoDup_app in Hnd' as (? & _).
Qed.

(** A slot keeps its meaning while the pages of the others change. *)
Lemma slot_frame s l s' l' p o qs :
  slot_ok s l p o -> km_inv kend s' l' ->
  Forall (page_ok kend) qs -> NoDup (qs ++ claimed p o) -> (forall x, x ∈ l' -> x ∈ qs) ->
  (forall a, outside qs a -> mget (km_mem s') a = mget (km_mem s) a) ->
  slot_ok s' l' p o.
Proof.
  intros Hok Hkm Hqs Hnd Hsub Hout. destruct o as [| |own A fs]; cbn [slot_ok claimed] in *; try done.
  destruct Hok as (Htf & Hsz & Hpr). split_and!; try done.
  eapply process_frame; try done. rewrite <- Permutation_middle in Hnd. by apply NoDup_cons in Hnd as [_ ?].
Qed.

(** The claims of all slots, with one of them in front. *)
Lemma claims_split ps os i p o :
  ps !! i = Some p -> os !! i = Some o ->
  exists rest, concat (zip_with claimed ps os) ≡ₚ claimed p o ++ rest /\
    (forall p' o', concat (zip_with claimed (<[i := p']> ps) (<[i := o']> os)) ≡ₚ claimed p' o' ++ rest) /\
    (forall j q x, j <> i -> ps !! j = Some q -> os !! j = Some x -> claimed q x ⊆+ rest).
Proof.
  intros Hp Ho. exists (concat (zip_with claimed (take i ps ++ drop (S i) ps) (take i os ++ drop (S i) os))).
  assert (Hlp : length (take i ps) = length (take i os)).
  { apply lookup_lt_Some in Hp, Ho. rewrite !length_take. lia. }
  assert (Hg : forall p' o', concat (zip_with claimed (<[i := p']> ps) (<[i := o']> os)) ≡ₚ
      claimed p' o' ++ concat (zip_with claimed (take i ps ++ drop (S i) ps) (take i os ++ drop (S i) os))).
  { intros p' o'. rewrite !insert_take_drop by (by eapply lookup_lt_Some).
    rewrite !zip_with_app by done. cbn [zip_with]. rewrite !concat_app. cbn [concat].
    rewrite !app_assoc. by rewrite (Permutation_app_comm (concat _) (claimed p' o')). }
  split_and!; [|exact Hg|].
  - rewrite <- (Hg p o), !list_insert_id by done. done.
  - intros j q x Hne Hq Hx.
    assert (exists j', (take i ps ++ drop (S i) ps) !! j' = Some q /\ (take i os ++ drop (S i) os) !! j' = Some x)
      as (j' & Hq' & Hx').
    { destruct (decide (j < i)%nat).
      - exists j. split; apply lookup_app_l_Some; by rewrite lookup_take_lt by lia.
      - exists (j - 1)%nat. apply lookup_lt_Some in Hp as Hp', Ho as Ho'.
        rewrite !lookup_app_r by (rewrite length_take; lia).
        rewrite !length_take, !Nat.min_l, !lookup_drop by lia.
        by replace (S i + (j - 1 - i))%nat with j by lia. }
    assert (Hz : zip_with claimed (take i ps ++ drop (S i) ps) (take i os ++ drop (S i) os) !! j' = Some (claimed q x)).
    { apply lookup_zip_with_Some. eauto. }
    apply list_elem_of_lookup_2, list_elem_of_split in Hz as (l1 & l2 & ->).
    rewrite concat_app. cbn [concat]. by apply submseteq_inserts_l, submseteq_inserts_r.
Qed.

Lemma mi_slot s l ps os i p :
  mem_inv s l ps os -> ps !! i = Some p -> exists o, os !! i = Some o /\ slot_ok s l p o.
Proof. intros Hinv Hp. by eapply Forall2_lookup_l in Hp; [|apply Hinv]. Qed.

Lemma mi_pages_ok s l ps os : mem_inv s l ps os -> Forall (page_ok kend) (l ++ concat (zip_with claimed ps os)).
Proof.
  intros [Hkm Hs _]. apply Forall_app. split; [apply Hkm|]. apply Forall_concat.
  induction Hs as [|p o ps os Hpo Hs IH]; cbn; constructor; [by eapply slot_claimed_ok|done].
Qed.

(** The frame rule of the process table: an operation that moves pages between the free
    list and slot [i], and changes no byte outside them, keeps the invariant. *)
Lemma mem_inv_update s l ps os i p o s' l' p' o' :
  mem_inv s l ps os -> ps !! i = Some p -> os !! i = Some o ->
  km_inv kend s' l' -> slot_ok s' l' p' o' ->
  l' ++ claimed p' o' ≡ₚ l ++ claimed p o ->
  (forall a, outside (l ++ claimed p o) a -> mget (km_mem s') a = mget (km_mem s) a) ->
  mem_inv s' l' (<[i := p']> ps) (<[i := o']> os).
Proof.
  intros Hinv Hp Ho Hkm' Hok' Hpm Hout.
  destruct (claims_split ps os i p o Hp Ho) as (rest & Hc & Hc' & Hj).
  pose proof (mi_nodup _ _ _ _ Hinv) as Hnd. rewrite Hc, app_assoc in Hnd.
  pose proof (mi_pages_ok _ _ _ _ Hinv) as Hall. rewrite Hc, app_assoc in Hall.
  apply Forall_app in Hall as [Hall _].
  split; [done| |].
  - apply Forall2_same_length_lookup. pose proof (Forall2_length _ _ _ (mi_slots _ _ _ _ Hinv)) as Hlen.
    split; [by rewrite !length_insert|]. intros j q x Hq Hx.
    destruct (decide (i = j)) as [<-|Hne].
    + rewrite (lookup_insert_Some_eq _ _ _ _ Hp) in Hq. rewrite (lookup_insert_Some_eq _ _ _ _ Ho) in Hx.
      by simplify_eq.
    + rewrite list_lookup_insert_ne in Hq by done. rewrite list_lookup_insert_ne in Hx by done.
      pose proof (mi_slots _ _ _ _ Hinv) as HF. rewrite Forall2_same_length_lookup in HF. destruct HF as [_ HF].
      eapply (slot_frame s l s' l' q x (l ++ claimed p o)); [by eapply HF|done|done| | |done].
      * apply NoDup_app in Hnd as (Hn1 & Hd & Hn2). destruct (submseteq_Permutation _ _ (Hj j q x ltac:(done) Hq Hx)) as [k Hk].
        rewrite Hk in Hn2. apply NoDup_app in Hn2 as (Hn2 & _). apply NoDup_app. split_and!; [done| |done].
        intros y Hy Hy'. apply (Hd y Hy). rewrite Hk. apply elem_of_app. by left.
      * intros y Hy. rewrite <- Hpm. apply elem_of_app. by left.
  - rewrite Hc', app_assoc. rewrite Hpm. done.
Qed.

(** Fields that do not concern memory may change. *)
Definition same_space (p p' : proc) : Prop :=
  p_pagetable p' = p_pagetable p /\ p_trapframe p' = p_trapframe p /\ p_sz p' = p_sz p.

Lemma slot_same s l p p' o : same_space p p' -> slot_ok s l p o -> slot_ok s l p' o /\ claimed p' o = claimed p o.
Proof. intros (E1 & E2 & E3). destruct o; cbn; by rewrite ?E1, ?E2, ?E3. Qed.

Lemma mem_inv_same s l ps ps' os :
  mem_inv s l ps os -> Forall2 same_space ps ps' -> mem_inv s l ps' os.
Proof.
  intros [H1 H2 H3] HF.
  assert (Forall2 (slot_ok s l) ps' os /\ zip_with claimed ps' os = zip_with claimed ps os) as [H2' E].
  { clear H3. revert os H2. induction HF as [|p p' ps ps' Hpp HF IH]; intros os H2; inversion H2; subst; [done|].
    destruct (IH _ ltac:(eassumption)) as [IH1 IH2].
    destruct (slot_same s l p p' y Hpp ltac:(assumption)) as [? Ec]. split; [by constructor|]. cbn. by rewrite Ec, IH2. }
  split; [done|done|by rewrite E].
Qed.

Lemma mem_inv_set s l ps os i p p' :
  mem_inv s l ps os -> ps !! i = Some p -> same_space p p' -> mem_inv s l (<[i := p']> ps) os.
Proof.
  intros Hinv Hp Hs. eapply mem_inv_same; [exact Hinv|]. apply Forall2_same_length_lookup.
  split; [by rewrite length_insert|]. intros j q q' Hq Hq'. destruct (decide (i = j)) as [<-|Hne].
  - rewrite (lookup_insert_Some_eq _ _ _ _ Hp) in Hq'. by simplify_eq.
  - rewrite list_lookup_insert_ne in Hq' by done. by simplify_eq.
Qed.

(** All pages of the system: free or claimed. *)
Definition all_pages (l : list Z) (ps : list proc) (os : list slot) : list Z :=
  l ++ concat (zip_with claimed ps os).

Lemma all_pages_update l ps os i p o l' p' o' :
  ps !! i = Some p -> os !! i = Some o -> l' ++ claimed p' o' ≡ₚ l ++ claimed p o ->
  all_pages l' (<[i := p']> ps) (<[i := o']> os) ≡ₚ all_pages l ps os.
Proof.
  intros Hp Ho Hpm. destruct (claims_split ps os i p o Hp Ho) as (rest & Hc & Hc' & _).
  unfold all_pages. by rewrite Hc', Hc, !app_assoc, Hpm.
Qed.

Lemma all_pages_same s l ps ps' os :
  mem_inv s l ps os -> Forall2 same_space ps ps' -> all_pages l ps' os = all_pages l ps os.
Proof.
  intros [_ Hs _] HF. unfold all_pages. do 2 f_equal. revert os Hs.
  induction HF as [|p p' ps ps' Hpp HF IH]; intros os Hs; inversion Hs; subst; [done|]. cbn. f_equal; [|by apply IH].
  by destruct (slot_same s l p p' y Hpp).
Qed.

(** The pages of two processes are disjoint. *)
Lemma mi_two_nodup s l ps os i j p q o x :
  mem_inv s l ps os -> i <> j -> ps !! i = Some p -> os !! i = Some o -> ps !! j = Some q -> os !! j = Some x ->
  NoDup (l ++ claimed p o ++ claimed q x).
Proof.
  intros Hinv Hne Hp Ho Hq Hx. destruct (claims_split ps os i p o Hp Ho) as (rest & Hc & _ & Hj).
  pose proof (mi_nodup _ _ _ _ Hinv) as Hnd. rewrite Hc in Hnd.
  destruct (submseteq_Permutation _ _ (Hj j q x ltac:(done) Hq Hx)) as [k Hk].
  rewrite Hk, (app_assoc _ _ k), app_assoc in Hnd. by apply NoDup_app in Hnd as (? & _).
Qed.

(** The pages of one process are outside the free list and the pages of another. *)
Lemma claimed_outside s l ps os i j p q o x pg a :
  mem_inv s l ps os -> i <> j -> ps !! i = Some p -> os !! i = Some o -> ps !! j = Some q -> os !! j = Some x ->
  pg ∈ claimed p o -> in_page pg a -> outside (l ++ claimed q x) a.
Proof.
  intros Hinv Hne Hp Ho Hq Hx Hpg Ha r Hr Ha'.
  pose proof (mi_two_nodup _ _ _ _ _ _ _ _ _ _ Hinv (not_eq_sym Hne) Hq Hx Hp Ho) as Hnd.
  pose proof (mi_pages_ok _ _ _ _ Hinv) as Hall. rewrite Forall_forall in Hall.
  assert (Hin : forall i' p' o' y, ps !! i' = Some p' -> os !! i' = Some o' -> y ∈ claimed p' o' -> page_ok kend y).
  { intros i' p' o' y Hp' Ho' Hy. destruct (mi_slot _ _ _ _ _ _ Hinv Hp') as (o'' & Ho'' & Hok). simplify_eq.
    pose proof (slot_claimed_ok _ _ _ _ Hok) as HF. rewrite Forall_forall in HF. by apply HF. }
  assert (Hrok : page_ok kend r).
  { apply elem_of_app in Hr as [Hr|Hr]; [|by eapply (Hin j)]. destruct (mi_km _ _ _ _ Hinv) as (_ & _ & HF).
    rewrite Forall_forall in HF. by apply HF. }
  assert (r = pg) as -> by (eapply (pages_disjoint kend); [exact Hrok|by eapply (Hin i)|done|done]).
  rewrite app_assoc in Hnd. apply NoDup_app in Hnd as (_ & Hd & _). by apply (Hd pg).
Qed.

(** ** Writes that disturb nothing

    The invariant reads only the free pages and the pages of page tables. *)
Definition table_pages (o : slot) : list Z := match o with Full own _ _ => pages own | _ => [] end.

Lemma mem_inv_data s l ps os mm :
  mem_inv s l ps os ->
  (forall x a, x ∈ l \/ (exists o, o ∈ os /\ x ∈ table_pages o) -> in_page x a -> mget mm a = mget (km_mem s) a) ->
  mem_inv (set_mem mm s) l ps os.
Proof.
  intros [Hkm Hs Hnd] Hsame.
  assert (Hkm' : km_inv kend (set_mem mm s) l).
  { apply (km_inv_set_mem kend kend_ok); [done|]. intros x a Hx. apply Hsame. by left. }
  split; [done| |done]. apply Forall2_same_length_lookup. rewrite Forall2_same_length_lookup in Hs.
  destruct Hs as [Hlen Hs]. split; [done|]. intros i p o Hp Ho. specialize (Hs i p o Hp Ho).
  destruct o as [| |own A fs]; [done|done|]. destruct Hs as (Htf & Hsz & [[Hus Ht1 Ht2] Hs0 Hl]).
  split_and!; try done. split; [|done|done]. split; [|done|done]. destruct Hus as [Hvm H2 H3 H4 H5 H6].
  split; try done. eapply vm_inv_frame; [done|done|apply Hvm|]. intros x a Hx. apply Hsame. right.
  exists (Full own A fs). split; [by eapply list_elem_of_lookup_2|done].
Qed.

(** A trapframe or user page of a process is none of those. *)
Lemma data_page_apart s l ps os i p own A fs y x a :
  mem_inv s l ps os -> ps !! i = Some p -> os !! i = Some (Full own A fs) -> y ∈ p_trapframe p :: fs ->
  x ∈ l \/ (exists o, o ∈ os /\ x ∈ table_pages o) -> in_page x a -> ~ in_page y a.
Proof.
  intros Hinv Hp Ho Hy Hx Ha Ha'.
  assert (Hyc : y ∈ claimed p (Full own A fs)).
  { cbn. apply elem_of_cons in Hy as [->|Hy]; [by left|]. right. apply elem_of_app. by right. }
  destruct (claims_split ps os i p _ Hp Ho) as (rest & Hc & _ & Hj).
  pose proof (mi_nodup _ _ _ _ Hinv) as Hnd. rewrite Hc in Hnd.
  pose proof (mi_pages_ok _ _ _ _ Hinv) as Hall. rewrite Hc, Forall_forall in Hall.
  assert (Hyok : page_ok kend y) by (apply Hall; set_solver).
  enough (Hd : page_ok kend x /\ x <> y) by (destruct Hd as [Hxok Hne]; apply Hne; by eapply (pages_disjoint kend)).
  destruct Hx as [Hx|(o & Hoin & Hx)].
  - split; [apply Hall; set_solver|]. intros ->. apply NoDup_app in Hnd as (_ & Hd & _). apply (Hd y Hx). set_solver.
  - apply list_elem_of_lookup in Hoin as [j Hoj]. destruct o as [| |own' A' fs']; [by apply elem_of_nil in Hx..|].
    cbn [table_pages] in Hx.
    assert (exists q, ps !! j = Some q) as [q Hq].
    { apply lookup_lt_is_Some_2. rewrite (Forall2_length _ _ _ (mi_slots _ _ _ _ Hinv)). by eapply lookup_lt_Some. }
    destruct (decide (j = i)) as [->|Hne].
    + simplify_eq. split; [apply Hall; set_solver|]. intros ->. apply NoDup_app in Hnd as (_ & _ & Hnd).
      apply NoDup_app in Hnd as (Hnd & _). apply NoDup_cons in Hnd as [Hni Hnd]. apply elem_of_cons in Hy as [->|Hy].
      * apply Hni, elem_of_app. by left.
      * apply NoDup_app in Hnd as (_ & Hd & _). by apply (Hd y).
    + specialize (Hj j q _ Hne Hq Hoj). assert (Hxr : x ∈ rest).
      { eapply elem_of_submseteq; [|exact Hj]. cbn. right. apply elem_of_app. by left. }
      split; [apply Hall; set_solver|]. intros ->. apply NoDup_app in Hnd as (_ & _ & Hnd).
      apply NoDup_app in Hnd as (_ & Hd & _). by apply (Hd y).
Qed.

(** Writing a trapframe or user memory. *)
Lemma mem_inv_page_write s l ps os i p own A fs y mm :
  mem_inv s l ps os -> ps !! i = Some p -> os !! i = Some (Full own A fs) -> y ∈ p_trapframe p :: fs ->
  (forall a, ~ in_page y a -> mget mm a = mget (km_mem s) a) -> mem_inv (set_mem mm s) l ps os.
Proof.
  intros Hinv Hp Ho Hy Hout. apply mem_inv_data; [done|]. intros x a Hx Ha. apply Hout.
  by eapply data_page_apart.
Qed.

(** Below the allocator's memory nothing is owned. *)
Lemma mem_inv_low_write s l ps os mm :
  mem_inv s l ps os -> (forall a, kend <= a -> mget mm a = mget (km_mem s) a) -> mem_inv (set_mem mm s) l ps os.
Proof.
  intros Hinv Hlow. apply mem_inv_data; [done|]. intros x a Hx Ha. apply Hlow.
  enough (page_ok kend x) as [_ ?] by (unfold in_page in Ha; lia).
  pose proof (mi_pages_ok _ _ _ _ Hinv) as Hall. apply Forall_app in Hall as [Hl _]. rewrite Forall_forall in Hl.
  destruct Hx as [Hx|(o & Hoin & Hx)]; [by apply Hl|]. destruct o as [| |own A fs]; [by apply elem_of_nil in Hx..|].
  apply list_elem_of_lookup in Hoin as [j Hoj].
  assert (exists q, ps !! j = Some q) as [q Hq].
  { apply lookup_lt_is_Some_2. rewrite (Forall2_length _ _ _ (mi_slots _ _ _ _ Hinv)). by eapply lookup_lt_Some. }
  destruct (mi_slot _ _ _ _ _ _ Hinv Hq) as (o & Ho & Hok). simplify_eq.
  pose proof (slot_claimed_ok _ _ _ _ Hok) as HF. rewrite Forall_forall in HF. apply HF. cbn. right.
  apply elem_of_app. by left.
Qed.

End ProcMem.
