(* ===== verification/ProcLife.v ===== *)
(** * Creating and reaping processes (kernel/proc.c)

    What [freeproc], [allocproc], [fork], [exit] and [wait] do to the process table, to
    the priority lists and to the ownership of pages. *)

From S2P Require Import Prelude Layout Memory Kalloc Vm VmMap VmUser VmFree VmLife VmFork.
From S2P Require Import Priority Proc ProcOps ProcMem.

(** A process's state is one in which it is on the list of its priority. *)
Definition live (p : proc) : Prop := p_state p <> UNUSED /\ p_state p <> ZOMBIE.

(** The slot after [freeproc]: its kernel stack, context, open files, directory,
    priority and list link are left as they were. *)
Definition freed (p : proc) : proc :=
  mkProc UNUSED None 0 0 0 None (p_kstack p) 0 0 0 (p_context p) (p_ofile p) (p_cwd p)
    (<[0%nat := 0]> (p_name p)) (p_priority p) (p_next p).

(** ** The table *)

(** The table after [allocpid]. *)
Definition bump (t : ptable) : ptable := set_nextpid (i32 (pt_nextpid t + 1)) t.

(** The priority structure does not see the other fields of a slot. *)
Lemma prio_inv_ext t t' ls :
  prio_inv t ls -> pt_control t' = pt_control t ->
  (forall i p, on_list ls i -> pt_proc t !! i = Some p ->
     exists p', pt_proc t' !! i = Some p' /\ p_next p' = p_next p /\ p_priority p' = p_priority p) ->
  (forall i p', ~ on_list ls i -> pt_proc t' !! i = Some p' -> p_next p' = None) ->
  prio_inv t' ls.
Proof.
  intros Hinv Hc Hon Hoff. destruct Hinv as [H1 H2 H3 H4 H5 H6 H7 H8].
  split; rewrite ?Hc; try done.
  - intros k l Hl. destruct (H4 k l Hl) as (h & Hh & Hch). exists h. split; [done|].
    eapply lseg_ext; [|exact Hch]. intros i Hi. destruct (H6 k l i Hl Hi) as (p & Hp & _).
    destruct (Hon i p) as (p' & Hp' & Hn & _); [by exists k, l|done|]. unfold next_of. rewrite Hp, Hp'. cbn. by rewrite Hn.
  - intros k l i Hl Hi. destruct (H6 k l i Hl Hi) as (p & Hp & Hpr).
    destruct (Hon i p) as (p' & Hp' & _ & Hpr'); [by exists k, l|done|]. exists p'. split; [done|congruence].
  - intros i p' Hp' Hn. by eapply Hoff.
Qed.

Lemma prio_inv_setp t ls i p q :
  prio_inv t ls -> pt_proc t !! i = Some p -> p_next q = p_next p ->
  (on_list ls i -> p_priority q = p_priority p) -> prio_inv (setp t i q) ls.
Proof.
  intros Hinv Hp Hn Hpr. eapply prio_inv_ext; [exact Hinv|done| |].
  - intros j p' Hj Hp'. destruct (decide (i = j)) as [<-|Hne].
    + exists q. rewrite (lookup_setp _ _ _ _ Hp). simplify_eq. auto.
    + exists p'. by rewrite lookup_setp_ne.
  - intros j p' Hj Hp'. destruct (decide (i = j)) as [<-|Hne].
    + rewrite (lookup_setp _ _ _ _ Hp) in Hp'. simplify_eq. rewrite Hn. by eapply (pi_off _ _ Hinv).
    + rewrite lookup_setp_ne in Hp' by done. by eapply (pi_off _ _ Hinv).
Qed.

Lemma relinked_same_space t t' : relinked t t' -> Forall2 same_space (pt_proc t) (pt_proc t').
Proof.
  intros Hr. apply Forall2_same_length_lookup. split.
  - destruct Hr as [Hr _]. apply (f_equal length) in Hr. by rewrite !length_fmap in Hr.
  - intros i p p' Hp Hp'. destruct (relinked_lookup _ _ _ _ Hr Hp) as (n & Hn & _). simplify_eq.
    by destruct p.
Qed.

Lemma relinked_sym t t' : relinked t t' -> relinked t' t.
Proof. by intros (H1 & H2 & H3). Qed.

Lemma relinked_slot t t' i q n : relinked t t' -> relinked (setp t i q) (setp t' i (with_next n q)).
Proof. intros (H1 & H2 & H3). split; [|done]. cbn. rewrite !list_fmap_insert, H1. done. Qed.

Lemma prio_inv_bump t ls : prio_inv t ls -> prio_inv (bump t) ls.
Proof.
  intros Hp. eapply prio_inv_ext; [exact Hp|done|by eauto|]. intros i q Hi Hq. by eapply (pi_off _ _ Hp).
Qed.

Lemma on_list_insert ls k lk j i :
  ls !! k = Some lk -> on_list (<[k := lk ++ [j]]> ls) i <-> on_list ls i \/ i = j.
Proof.
  intros Hk. split.
  - intros (k' & l' & Hl & Hi). destruct (decide (k = k')) as [<-|Hne].
    + rewrite (lookup_insert_Some_eq _ _ _ _ Hk) in Hl. simplify_eq. apply elem_of_app in Hi as [Hi|Hi].
      * left. by exists k, lk.
      * right. by apply list_elem_of_singleton in Hi.
    + rewrite list_lookup_insert_ne in Hl by done. left. by exists k', l'.
  - intros [(k' & l' & Hl & Hi)| ->].
    + destruct (decide (k = k')) as [<-|Hne].
      * simplify_eq. exists k, (lk ++ [j]). rewrite (lookup_insert_Some_eq _ _ _ _ Hk). split; [done|]. set_solver.
      * exists k', l'. by rewrite list_lookup_insert_ne.
    + exists k, (lk ++ [j]). rewrite (lookup_insert_Some_eq _ _ _ _ Hk). split; [done|]. set_solver.
Qed.

(** The table: the priority lists hold exactly the live processes, pids in use are
    distinct, positive and below [nextpid], a free slot has no pid and no parent, and a
    slot that is not live has no open files. *)
Record table_inv (t : ptable) (ls : list (list nat)) : Prop := mkTableInv {
  ti_len : length (pt_proc t) = NPROC;
  ti_prio : prio_inv t ls;
  ti_next : 1 <= pt_nextpid t;
  ti_on : forall i p, pt_proc t !! i = Some p -> on_list ls i <-> live p;
  ti_pid : forall i p, pt_proc t !! i = Some p -> p_state p <> UNUSED -> 0 < p_pid p < pt_nextpid t;
  ti_uniq : forall i j p q, pt_proc t !! i = Some p -> pt_proc t !! j = Some q ->
    p_state p <> UNUSED -> p_state q <> UNUSED -> p_pid p = p_pid q -> i = j;
  ti_unused : forall i p, pt_proc t !! i = Some p -> p_state p = UNUSED ->
    p_pid p = 0 /\ p_parent p = None;
  ti_closed : forall i p, pt_proc t !! i = Some p -> ~ live p -> p_ofile p = replicate NOFILE None;
  ti_files : forall i p, pt_proc t !! i = Some p -> length (p_ofile p) = NOFILE /\ length (p_name p) = Z.to_nat NAMESIZE;
}.

Lemma table_inv_setp t ls ls' i p q t' n' :
  table_inv t ls -> pt_proc t !! i = Some p ->
  prio_inv t' ls' -> relinked (setp (set_nextpid n' t) i q) t' ->
  (forall j, j <> i -> on_list ls' j <-> on_list ls j) -> (on_list ls' i <-> live q) ->
  pt_nextpid t <= n' ->
  (p_state q <> UNUSED -> 0 < p_pid q < n' /\
     forall j r, j <> i -> pt_proc t !! j = Some r -> p_state r <> UNUSED -> p_pid r <> p_pid q) ->
  (p_state q = UNUSED -> p_pid q = 0 /\ p_parent q = None) ->
  (~ live q -> p_ofile q = replicate NOFILE None) ->
  length (p_ofile q) = NOFILE -> length (p_name q) = Z.to_nat NAMESIZE ->
  table_inv t' ls'.
Proof.
  intros [H1 H2 Hn H3 H4 H5 H6 Hcl H7] Hp Hpr Hrel Hon Hi Hn' Hpid Hun Hclq Hof Hnm.
  assert (Hlk : forall j r, pt_proc t' !! j = Some r -> exists r0, r = with_next (p_next r) r0 /\
      if decide (j = i) then r0 = q else pt_proc t !! j = Some r0).
  { intros j r Hr. destruct (relinked_lookup_inv _ _ _ _ Hrel Hr) as (r0 & Hr0 & E). exists r0. split; [done|].
    destruct (decide (j = i)) as [->|Hne].
    - rewrite (lookup_setp _ _ _ p) in Hr0; [by simplify_eq|done].
    - by rewrite lookup_setp_ne in Hr0. }
  assert (Hnp : pt_nextpid t' = n') by apply Hrel.
  split.
  - destruct Hrel as [Hr _]. apply (f_equal length) in Hr. rewrite !length_fmap, length_setp in Hr. by rewrite Hr.
  - done.
  - lia.
  - intros j r Hr. destruct (Hlk j r Hr) as (r0 & -> & Hr0). destruct (decide (j = i)) as [->|Hne].
    + by subst.
    + rewrite Hon by done. exact (H3 j r0 Hr0).
  - intros j r Hr. destruct (Hlk j r Hr) as (r0 & -> & Hr0). rewrite Hnp. destruct (decide (j = i)) as [->|Hne].
    + subst. intros Hs. by apply Hpid.
    + intros Hs. pose proof (H4 j r0 Hr0 Hs). cbn. lia.
  - intros j j' r r' Hr Hr'. destruct (Hlk j r Hr) as (r0 & -> & Hr0), (Hlk j' r' Hr') as (r0' & -> & Hr0').
    cbn. destruct (decide (j = i)) as [->|Hne], (decide (j' = i)) as [->|Hne']; subst; intros Hs Hs' E; try done.
    + exfalso. by apply (proj2 (Hpid Hs) j' r0').
    + exfalso. by apply (proj2 (Hpid Hs') j r0).
    + by eapply H5.
  - intros j r Hr. destruct (Hlk j r Hr) as (r0 & -> & Hr0). destruct (decide (j = i)) as [->|Hne].
    + by subst.
    + exact (H6 j r0 Hr0).
  - intros j r Hr. destruct (Hlk j r Hr) as (r0 & -> & Hr0). destruct (decide (j = i)) as [->|Hne].
    + by subst.
    + exact (Hcl j r0 Hr0).
  - intros j r Hr. destruct (Hlk j r Hr) as (r0 & -> & Hr0). destruct (decide (j = i)) as [->|Hne].
    + by subst.
    + exact (H7 j r0 Hr0).
Qed.

Section ProcLife.
Context {F : Type} `{ProcFiles F}.
Variable kend : Z.
Hypothesis kend_ok : KERNBASE <= kend <= PHYSTOP.
Variable tramp : Z.
Hypothesis tramp_ok : frame_addr tramp.

Notation freeproc := (freeproc (F := F) kend).
Notation mem_inv := (mem_inv kend tramp).
Notation slot_ok := (slot_ok kend tramp).

Implicit Types (t : ptable) (m : kmem) (z : F) (th : thread).

(** ** [freeproc] *)

Lemma ctrue_page p : page_ok kend p -> ctrue p = true.
Proof. intros Hp. unfold ctrue. pose proof (page_ok_pos kend kend_ok p Hp). destruct (Z.eqb_spec p 0); [lia|done]. Qed.

Lemma process_root tf sz s l root own A fs : process kend tramp tf sz s l root own A fs -> page_ok kend root.
Proof.
  intros [[Hus _ _] _ _]. eapply vi_page_ok; [apply (us_vm Hus)|].
  apply (pt_root _ _ _ (vi_tree _ _ _ _ _ _ (us_vm Hus))).
Qed.

(** The memory half: the trapframe page and the address space go to the free list. *)
Lemma free_space_ok p o th m l :
  slot_ok m l p o -> km_inv kend m l -> NoDup (l ++ claimed p o) -> LkKmem ∉ th_held th ->
  exists m1 m' l', when (ctrue (p_trapframe p)) (kfree kend (p_trapframe p)) th m = Ok tt th m1 /\
    when (ctrue (p_pagetable p)) (proc_freepagetable kend (p_pagetable p) (p_sz p)) th m1 = Ok tt th m' /\
    km_inv kend m' l' /\ l' ≡ₚ l ++ claimed p o /\
    forall a, outside (l ++ claimed p o) a -> mget (km_mem m') a = mget (km_mem m) a.
Proof.
  intros Hok Hkm Hnd Hlk. destruct o as [| |own A fs]; cbn [ProcMem.slot_ok claimed] in *.
  - destruct Hok as (-> & -> & _). exists m, m, l. rewrite app_nil_r. by split_and!.
  - destruct Hok as (-> & Htf & _). rewrite (ctrue_page _ Htf). cbn [when].
    rewrite <- Permutation_cons_append in Hnd. apply NoDup_cons in Hnd as [Hni _].
    destruct (kfree_ok kend kend_ok _ th m l Hkm Htf Hni Hlk) as (m1 & E1 & Hkm1 & Hout1).
    exists m1, m1, (p_trapframe p :: l). rewrite <- Permutation_cons_append. split_and!; try done.
    intros a Ha. apply Hout1. rewrite <- Permutation_cons_append in Ha. by apply outside_cons in Ha as [? _].
  - destruct Hok as (Htf & Hsz & Hpr). rewrite (ctrue_page _ Htf), (ctrue_page _ (process_root _ _ _ _ _ _ _ _ Hpr)).
    cbn [when]. rewrite <- Permutation_middle in Hnd. apply NoDup_cons in Hnd as [Hni Hnd].
    destruct (kfree_ok kend kend_ok _ th m l Hkm Htf) as (m1 & E1 & Hkm1 & Hout1); [set_solver|done|].
    assert (Hpr1 : process kend tramp (p_trapframe p) (p_sz p) m1 (p_trapframe p :: l) (p_pagetable p) own A fs).
    { eapply (process_frame kend tramp _ _ _ m l m1 _ _ _ _ (p_trapframe p :: l)); [done|done|apply Hkm1| |done|].
      - by apply NoDup_cons.
      - intros a Ha. apply Hout1. by apply outside_cons in Ha as [? _]. }
    destruct Hpr1 as [Hps Hs0 Hlen].
    destruct (proc_freepagetable_ok kend kend_ok tramp (p_trapframe p) (p_sz p) th m1 _ _ own A fs Hps Hlk tramp_ok
      (page_ok_frame kend kend_ok _ Htf)) as (m2 & l2 & E2 & Hkm2 & Hpm2 & Hout2); [lia|done|].
    exists m1, m2, l2. split_and!; try done.
    + rewrite Hpm2. by rewrite <- Permutation_middle.
    + intros a Ha. rewrite <- Permutation_middle in Ha. apply outside_cons in Ha as [Ha1 Ha2].
      apply outside_app in Ha2 as [_ Ha2]. by rewrite Hout2, Hout1.
Qed.

(** One slot's share of the invariant. *)
Lemma mi_slot_nodup m l ps os i p o :
  mem_inv m l ps os -> ps !! i = Some p -> os !! i = Some o -> NoDup (l ++ claimed p o).
Proof.
  intros Hinv Hp Ho. destruct (claims_split ps os i p o Hp Ho) as (rest & Hc & _).
  pose proof (mi_nodup _ _ _ _ _ _ Hinv) as Hnd. rewrite Hc, app_assoc in Hnd. by apply NoDup_app in Hnd as (? & _).
Qed.

Lemma freeproc_ok i p o os th t m z l :
  mem_inv m l (pt_proc t) os -> pt_proc t !! i = Some p -> os !! i = Some o -> LkKmem ∉ th_held th ->
  exists m' l', freeproc i th (mkKernel t m z) = Ok tt th (mkKernel (setp t i (freed p)) m' z) /\
    mem_inv m' l' (pt_proc (setp t i (freed p))) (<[i := Empty]> os) /\ l' ≡ₚ l ++ claimed p o /\
    forall a, outside (l ++ claimed p o) a -> mget (km_mem m') a = mget (km_mem m) a.
Proof.
  intros Hinv Hp Ho Hlk. destruct (mi_slot _ _ _ _ _ _ _ _ Hinv Hp) as (o' & Ho' & Hok). simplify_eq.
  destruct (free_space_ok p o th m l Hok (mi_km _ _ _ _ _ _ Hinv) (mi_slot_nodup _ _ _ _ _ _ _ Hinv Hp Ho) Hlk)
    as (m1 & m' & l' & E1 & E2 & Hkm & Hpm & Hout).
  pose proof (lookup_lt_Some _ _ _ Hp) as Hi.
  exists m', l'. split_and!; try done.
  - unfold Proc.freeproc. rewrite (bind_ok _ _ _ _ _ _ _ (gproc_ok _ _ _ _ _ _ Hp)).
    assert (E1' : when (ctrue (p_trapframe p)) (mem_op (kfree kend (p_trapframe p))) th (mkKernel t m z) =
      Ok tt th (mkKernel t m1 z)).
    { unfold when in *. destruct (ctrue (p_trapframe p)); [by apply mem_op_ok|]. by injection E1 as ->. }
    rewrite (bind_ok _ _ _ _ _ _ _ E1'), (bind_ok _ _ _ _ _ _ _ (uproc_ok _ _ _ _ _ _ _ Hp)).
    rewrite (bind_ok _ _ _ _ _ _ _ (gproc_setp _ _ _ _ _ _ Hi)).
    assert (E2' : when (ctrue (p_pagetable (with_trapframe 0 p)))
        (mem_op (proc_freepagetable kend (p_pagetable (with_trapframe 0 p)) (p_sz (with_trapframe 0 p)))) th
        (mkKernel (setp t i (with_trapframe 0 p)) m1 z) = Ok tt th (mkKernel (setp t i (with_trapframe 0 p)) m' z)).
    { replace (p_pagetable (with_trapframe 0 p)) with (p_pagetable p) by (by destruct p).
      replace (p_sz (with_trapframe 0 p)) with (p_sz p) by (by destruct p).
      unfold when in *. destruct (ctrue (p_pagetable p)); [by apply mem_op_ok|]. by injection E2 as ->. }
    rewrite (bind_ok _ _ _ _ _ _ _ E2').
    do 8 rewrite (bind_ok _ _ _ _ _ _ _ (uproc_setp _ _ _ _ _ _ _ Hi)).
    rewrite (uproc_setp _ _ _ _ _ _ _ Hi). by destruct p.
  - eapply mem_inv_update; try done. cbn [claimed]. by rewrite app_nil_r.
Qed.

(** ** [allocproc] *)

Lemma find_unused_slot_ok n i th t m z :
  (length (pt_proc t) = i + n)%nat -> (forall j, LkProc j ∉ th_held th) ->
  (exists j p, find_unused n i th (mkKernel t m z) = Ok (Some j) (set_held (LkProc j :: th_held th) th) (mkKernel t m z) /\
     pt_proc t !! j = Some p /\ p_state p = UNUSED /\ (i <= j)%nat /\
     forall j' p', (i <= j' < j)%nat -> pt_proc t !! j' = Some p' -> p_state p' <> UNUSED) \/
  (find_unused n i th (mkKernel t m z) = Ok None th (mkKernel t m z) /\
     forall j p, (i <= j)%nat -> pt_proc t !! j = Some p -> p_state p <> UNUSED).
Proof.
  revert i. induction n as [|n IH]; intros i Hlen Hlk; cbn [find_unused].
  - right. split; [done|]. intros j p Hj Hp. apply lookup_lt_Some in Hp. lia.
  - destruct (lookup_lt_is_Some_2 (pt_proc t) i) as [p Hp]; [lia|].
    rewrite (bind_ok _ _ _ _ _ _ _ (acquire_ok _ _ _ (Hlk i))), (bind_ok _ _ _ _ _ _ _ (gproc_ok _ _ _ _ _ _ Hp)).
    case_bool_decide as E.
    + left. exists i, p. split_and!; try done. intros; lia.
    + rewrite (bind_ok _ _ _ _ _ _ _ (release_acquired _ _ _ (Hlk i))).
      destruct (IH (S i)) as [(j & q & HE & Hq & Hst & Hj & Hfirst)|[HE Hno]]; [lia|done| |].
      * left. exists j, q. split_and!; try done; [lia|]. intros j' p' Hj' Hp'.
        destruct (decide (j' = i)) as [->|]; [congruence|]. apply (Hfirst j'); [lia|done].
      * right. split; [done|]. intros j q Hj Hq. destruct (decide (j = i)) as [->|]; [congruence|].
        apply (Hno j); [lia|done].
Qed.

Lemma allocpid_ok th t m z :
  LkPid ∉ th_held th ->
  allocpid th (mkKernel t m z) = Ok (pt_nextpid t) th (mkKernel (bump t) m z).
Proof.
  intros Hlk. unfold allocpid. rewrite (bind_ok _ _ _ _ _ _ _ (acquire_ok _ _ _ Hlk)).
  rewrite (bind_ok _ _ _ _ _ _ _ (eq_refl : tget pt_nextpid _ (mkKernel t m z) = _)).
  rewrite (bind_ok _ _ _ _ _ _ _ (eq_refl : zoom pt_lens (modify (set_nextpid (i32 (pt_nextpid t + 1)))) _ (mkKernel t m z) = _)).
  by rewrite (bind_ok _ _ _ _ _ _ _ (release_acquired _ _ _ Hlk)).
Qed.

(** ** Invariants *)

(** Table and memory agree on which slots are in use. *)
Record kinv (t : ptable) (m : kmem) (l : list Z) (os : list slot) (ls : list (list nat)) : Prop := mkKinv {
  ki_table : table_inv t ls;
  ki_mem : mem_inv m l (pt_proc t) os;
  ki_slot : forall i p o, pt_proc t !! i = Some p -> os !! i = Some o ->
    if bool_decide (p_state p = UNUSED) then o = Empty else exists own A fs, o = Full own A fs;
}.

(** Slot [j] is given an empty address space, given back when a page is missing. *)
Lemma fresh_space_ok j p os th t m z l :
  mem_inv m l (pt_proc t) os -> pt_proc t !! j = Some p -> os !! j = Some Empty ->
  LkKmem ∉ th_held th -> 
  exists tf m1, kalloc th m = Ok tf th m1 /\
  ((tf = 0 /\ m1 = m) \/
   (tf <> 0 /\ exists pt m2, proc_pagetable kend tramp tf th m1 = Ok pt th m2 /\
    ((pt = 0 /\ forall q, same_space (with_pagetable 0 (with_trapframe tf p)) q ->
        exists m3 l3, freeproc j th (mkKernel (setp t j q) m2 z) = Ok tt th (mkKernel (setp t j (freed q)) m3 z) /\
          mem_inv m3 l3 (pt_proc (setp t j (freed q))) os /\ l3 ≡ₚ l /\
          forall a, outside l a -> mget (km_mem m3) a = mget (km_mem m) a) \/
     (pt <> 0 /\ exists l2 own, l2 ++ tf :: pages own ≡ₚ l /\
        (forall a, outside l a -> mget (km_mem m2) a = mget (km_mem m) a) /\
        forall q, same_space (with_pagetable pt (with_trapframe tf p)) q ->
          mem_inv m2 l2 (<[j := q]> (pt_proc t))
            (<[j := Full own {[ TRAPFRAME := leaf_pte tf RW; TRAMPOLINE := leaf_pte tramp RX ]} []]> os))))).
Proof.
  intros Hinv Hp Ho Hlk.
  destruct (mi_slot _ _ _ _ _ _ _ _ Hinv Hp) as (o & Ho' & Hok). simplify_eq. destruct Hok as (Hpt & Htf & Hsz).
  destruct l as [|tf l].
  { exists 0, m. rewrite (kalloc_empty kend th m); [|apply Hinv|done]. split; [done|by left]. }
  destruct (kalloc_ok kend kend_ok tf l th m (mi_km _ _ _ _ _ _ Hinv) Hlk) as (m1 & E1 & Hkm1 & Htf' & _ & Hout1).
  exists tf, m1. split; [done|]. right. pose proof (page_ok_pos kend kend_ok tf Htf').
  split; [lia|].
  destruct (proc_pagetable_ok kend kend_ok tramp tf th m1 l Hkm1 Hlk tramp_ok (page_ok_frame kend kend_ok _ Htf'))
    as (pt & m2 & l2 & E2 & Hout2 & Hpt2). exists pt, m2. split; [done|].
  assert (Hout : forall a, outside (tf :: l) a -> mget (km_mem m2) a = mget (km_mem m) a).
  { intros a [Ha1 Ha2]%outside_cons. by rewrite Hout2, Hout1. }
  destruct Hpt2 as [(-> & Hkm2 & Hpm2)|(Hpt0 & own & Hpm2 & Hps)].
  - left. split; [done|]. intros q Hq. assert (p_pagetable q = 0 /\ p_trapframe q = tf /\ p_sz q = 0) as (Q1 & Q2 & Q3).
    { destruct p; cbv [same_space] in Hq; cbn in *. intuition congruence. }
    assert (Hinv2 : mem_inv m2 l2 (pt_proc (setp t j q)) (<[j := TfOnly]> os)).
    { eapply mem_inv_update; try done; cbn [claimed app]; rewrite ?Q1, ?Q2, ?app_nil_r; try done.
      - cbn [ProcMem.slot_ok]. by rewrite Q2.
      - by rewrite Hpm2, <- Permutation_cons_append. }
    destruct (freeproc_ok j q TfOnly _ th (setp t j q) m2 z l2 Hinv2) as (m3 & l3 & E3 & Hinv3 & Hpm3 & Hout3); try done.
    + by eapply lookup_setp.
    + by eapply lookup_insert_Some_eq.
    + exists m3, l3. rewrite setp_setp in *. rewrite list_insert_insert_eq, list_insert_id in Hinv3 by done.
      cbn [claimed] in *. rewrite Q2 in *.
      split_and!; try done; [by rewrite Hpm3, Hpm2, <- Permutation_cons_append|].
      intros a Ha. rewrite Hout3; [by apply Hout|]. by rewrite Hpm2, <- Permutation_cons_append.
  - right. split; [done|]. exists l2, own.
    assert (Hpm : l2 ++ tf :: pages own ≡ₚ tf :: l) by (by rewrite <- Permutation_middle, Hpm2).
    split_and!; try done. intros q Hq. assert (p_pagetable q = pt /\ p_trapframe q = tf /\ p_sz q = 0) as (Q1 & Q2 & Q3).
    { destruct p; cbv [same_space] in Hq; cbn in *. intuition congruence. }
    eapply mem_inv_update; try done; cbn [claimed app]; rewrite ?Q1, ?Q2, ?app_nil_r; try done.
    + apply (vi_km _ _ _ _ _ _ (us_vm (ps_us _ _ _ _ _ _ _ _ _ Hps))).
    + cbn [ProcMem.slot_ok]. rewrite Q1, Q2, Q3. split_and!; [done|done|]. by split.
Qed.

Lemma release_only {S} lk th (s : S) :
  th_held th = [] -> release lk (set_held [lk] th) s = Ok tt th s.
Proof. intros Hh. rewrite <- Hh at 1. apply release_acquired. rewrite Hh. apply not_elem_of_nil. Qed.

Lemma acquire_only {S} lk th (s : S) : th_held th = [] -> acquire lk th s = Ok tt (set_held [lk] th) s.
Proof. intros Hh. rewrite acquire_ok, Hh; [done|]. rewrite Hh. apply not_elem_of_nil. Qed.

(** A free slot that is cleared again stays free. *)
Lemma kinv_refree t m l os ls j p m' l' :
  kinv t m l os ls -> pt_nextpid t < 2 ^ 31 - 1 -> pt_proc t !! j = Some p -> p_state p = UNUSED ->
  mem_inv m' l' (pt_proc (setp (bump t) j (freed p))) os -> kinv (setp (bump t) j (freed p)) m' l' os ls.
Proof.
  intros [Ht Hm Hs] Hn Hp Hst Hm'.
  assert (Hof : p_ofile p = replicate NOFILE None) by (apply (ti_closed _ _ Ht j p Hp); by intros [? _]).
  pose proof (ti_next _ _ Ht). pose proof (ti_files _ _ Ht j p Hp) as [Hf1 Hf2].
  assert (Hoff : ~ on_list ls j) by (rewrite (ti_on _ _ Ht j p Hp); by intros [? _]).
  split; [|done|].
  - eapply (table_inv_setp t ls ls j p (freed p)); try done.
    + eapply (prio_inv_setp _ _ j p); [apply prio_inv_bump, Ht|done|by destruct p|by intros].
    + split; [tauto|]. by intros [? _].
    + rewrite i32_id; lia.
    + cbn. by rewrite length_insert.
  - intros i q o Hq Ho. destruct (decide (j = i)) as [<-|Hne].
    + rewrite (lookup_setp _ _ _ p) in Hq by done. simplify_eq. rewrite bool_decide_true by done.
      specialize (Hs j p o Hp Ho). by rewrite bool_decide_true in Hs.
    + rewrite lookup_setp_ne in Hq by done. by apply (Hs i).
Qed.


(** A free slot [j] that has been given a process. *)
Lemma kinv_born t m l os ls k lk j p q0 q t' m' l' own A ns :
  kinv t m l os ls -> pt_nextpid t < 2 ^ 31 - 1 -> ls !! k = Some lk ->
  pt_proc t !! j = Some p -> p_state p = UNUSED ->
  relinked (setp (bump t) j q0) t' -> prio_inv t' (<[k := lk ++ [j]]> ls) ->
  next_of t' j = Some (p_next q) -> p_priority q = p_priority q0 ->
  p_pid q = pt_nextpid t -> live q -> length (p_ofile q) = NOFILE -> length (p_name q) = Z.to_nat NAMESIZE ->
  mem_inv m' l' (pt_proc (setp t' j q)) (<[j := Full own A ns]> os) ->
  kinv (setp t' j q) m' l' (<[j := Full own A ns]> os) (<[k := lk ++ [j]]> ls).
Proof.
  intros [Ht Hm Hs] Hn Hk Hp Hst Hrel Hpr Hnx Hpri Hpid Hlive Hlo Hln Hm'. pose proof (ti_next _ _ Ht).
  destruct (relinked_lookup _ _ j q0 Hrel) as (n & Hq' & _); [by eapply lookup_setp|].
  unfold next_of in Hnx. rewrite Hq' in Hnx. cbn in Hnx. injection Hnx as ->.
  split; [|done|].
  - eapply (table_inv_setp t ls _ j p (with_next None q) (setp t' j q) (i32 (pt_nextpid t + 1))); try done.
    + eapply prio_inv_setp; [exact Hpr|exact Hq'|done|done].
    + pose proof (relinked_slot _ _ j (with_next None q) (p_next q) Hrel) as Hr. rewrite setp_setp in Hr.
      by replace (with_next (p_next q) (with_next None q)) with q in Hr by (by destruct q).
    + intros i Hi. rewrite on_list_insert by done. tauto.
    + rewrite on_list_insert by done. split; [by intros _; destruct q|by right].
    + rewrite i32_id; lia.
    + intros _. change (p_pid (with_next None q)) with (p_pid q). rewrite Hpid, i32_id by lia. split; [lia|].
      intros i r Hi Hr Hrs. pose proof (ti_pid _ _ Ht i r Hr Hrs). lia.
    + intros Hu. by destruct Hlive.
  - intros i r o Hr Ho. destruct (decide (j = i)) as [<-|Hne].
    + rewrite (lookup_setp _ _ _ _ Hq') in Hr.
      destruct (mi_slot _ _ _ _ _ _ _ _ Hm Hp) as (o0 & Ho0 & _). rewrite (lookup_insert_Some_eq _ _ _ _ Ho0) in Ho.
      simplify_eq. rewrite bool_decide_false by apply Hlive. eauto.
    + rewrite lookup_setp_ne in Hr by done. rewrite list_lookup_insert_ne in Ho by done.
      destruct (relinked_lookup_inv _ _ _ _ Hrel Hr) as (r0 & Hr0 & ->). rewrite lookup_setp_ne in Hr0 by done.
      exact (Hs i r0 o Hr0 Ho).
Qed.

Variable forkret_addr : Z.
Variable fuel : nat.
Hypothesis fuel_ok : (NPROC <= fuel)%nat.
Notation allocproc := (allocproc (F := F) kend tramp forkret_addr fuel).

Definition new_proc (p : proc) (pid tf pt prio : Z) : proc :=
  mkProc USED (p_chan p) (p_killed p) (p_xstate p) pid (p_parent p) (p_kstack p) (p_sz p) pt tf
    (forkret_context forkret_addr (p_kstack p)) (p_ofile p) (p_cwd p) (p_name p) prio (p_next p).

(** The end of [allocproc]: the process joins the list of its priority and is given a
    context that starts in [forkret]. *)
Lemma join_list_ok k lk th t m z ls j p q :
  prio_inv t ls -> length (pt_proc t) = NPROC -> ls !! k = Some lk -> pt_proc t !! j = Some p ->
  ~ on_list ls j -> p_next q = p_next p -> LkPriority ∉ th_held th ->
  let fin := with_context (forkret_context forkret_addr (p_kstack q)) (with_priority (Z.of_nat k) q) in
  exists t', (uproc j (with_priority (u32 (Z.of_nat k)));;;
     zoom pt_lens (enqueue_new fuel j (Z.of_nat k));;;
     uproc j (fun q => with_context (forkret_context forkret_addr (p_kstack q)) q);;;
     ret (Some j)) th (mkKernel (setp t j q) m z) = Ok (Some j) th (mkKernel t' m z) /\
    relinked (setp t j fin) t' /\ prio_inv t' (<[k := lk ++ [j]]> ls).
Proof.
  intros Hpr Hlen Hlk Hp Hoff Hnx Hpk fin. pose proof (lookup_lt_Some _ _ _ Hp) as Hj.
  assert (Hk5 : (k < 5)%nat) by (pose proof (pi_len _ _ Hpr) as Hl5; apply lookup_lt_Some in Hlk; unfold MAXPRIORITY in Hl5; lia).
  rewrite (u32_id (Z.of_nat k)) by lia.
  rewrite (bind_ok _ _ _ _ _ _ _ (uproc_setp _ _ _ _ _ _ _ Hj)). set (q' := with_priority (Z.of_nat k) q) in *.
  assert (Hpr' : prio_inv (setp t j q') ls) by (by eapply prio_inv_setp).
  destruct (enqueue_ok (setp t j q') ls j q' k lk th fuel Hpr') as (t2 & E2 & Hpr2 & Hrel2); try done.
  { by eapply lookup_setp. }
  { rewrite length_setp. lia. }
  rewrite (bind_ok _ _ _ _ _ _ _ (pt_op_ok _ _ _ _ _ _ _ _ E2)).
  destruct (relinked_lookup _ _ j q' Hrel2) as (n & Hq2 & _); [by eapply lookup_setp|].
  rewrite (bind_ok _ _ _ _ _ _ _ (uproc_ok _ _ _ _ _ _ _ Hq2)). eexists. split; [done|]. split.
  - replace (with_context _ (with_next n q')) with (with_next n fin) by (unfold fin, q'; by destruct q).
    rewrite <- (setp_setp t j q'). by apply relinked_slot.
  - eapply prio_inv_setp; [exact Hpr2|exact Hq2|done|done].
Qed.

Lemma allocproc_ok k lk th t m z l os ls :
  kinv t m l os ls -> th_held th = [] -> ls !! k = Some lk -> pt_nextpid t < 2 ^ 31 - 1 ->
  (allocproc (Z.of_nat k) th (mkKernel t m z) = Ok None th (mkKernel t m z) /\
   forall i p, pt_proc t !! i = Some p -> p_state p <> UNUSED) \/
  exists j p, pt_proc t !! j = Some p /\ p_state p = UNUSED /\
  (forall i q, (i < j)%nat -> pt_proc t !! i = Some q -> p_state q <> UNUSED) /\
  ((exists m' l', allocproc (Z.of_nat k) th (mkKernel t m z) = Ok None th (mkKernel (setp (bump t) j (freed p)) m' z) /\
      kinv (setp (bump t) j (freed p)) m' l' os ls /\ l' ≡ₚ l /\
      forall a, outside l a -> mget (km_mem m') a = mget (km_mem m) a) \/
   (exists tf pt t' m' l' own,
      allocproc (Z.of_nat k) th (mkKernel t m z) = Ok (Some j) (set_held [LkProc j] th) (mkKernel t' m' z) /\
      relinked (setp (bump t) j (new_proc p (pt_nextpid t) tf pt (Z.of_nat k))) t' /\
      prio_inv t' (<[k := lk ++ [j]]> ls) /\
      mem_inv m' l' (pt_proc t') (<[j := Full own {[ TRAPFRAME := leaf_pte tf RW; TRAMPOLINE := leaf_pte tramp RX ]} []]> os) /\
      l' ++ tf :: pages own ≡ₚ l /\
      forall a, outside l a -> mget (km_mem m') a = mget (km_mem m) a)).
Proof.
  intros Hinv Hh Hlk Hn. pose proof Hinv as [Ht Hm Hs]. unfold Proc.allocproc.
  assert (Hno : forall lk', lk' ∉ th_held th) by (intros lk'; rewrite Hh; apply not_elem_of_nil).
  destruct (find_unused_slot_ok NPROC 0 th t m z (ti_len _ _ Ht) (fun j => Hno (LkProc j)))
    as [(j & p & E & Hp & Hst & _ & Hlow)|[E Hall]]; rewrite (bind_ok _ _ _ _ _ _ _ E).
  2:{ left. split; [done|]. intros i p. apply (Hall i p). lia. }
  right. exists j, p. split; [done|]. split; [done|]. split; [intros i q Hi; apply Hlow; lia|]. cbv beta iota. rewrite Hh.
  set (th1 := set_held [LkProc j] th). pose proof (lookup_lt_Some _ _ _ Hp) as Hj.
  assert (Hr1 : forall s : kernel F, release (LkProc j) th1 s = Ok tt th s) by (intros s; by apply release_only).
  assert (Hk1 : forall lk', (forall i, lk' <> LkProc i) -> lk' ∉ th_held th1) by (intros lk' H1 ->%list_elem_of_singleton; by apply (H1 j)).
  rewrite (bind_ok _ _ _ _ _ _ _ (allocpid_ok th1 t m z ltac:(by apply Hk1))).
  rewrite (bind_ok _ _ _ _ _ _ _ (uproc_ok _ _ _ _ (bump t) _ _ Hp)).
  rewrite (bind_ok _ _ _ _ _ _ _ (uproc_setp _ _ _ _ (bump t) _ _ Hj)).
  set (q1 := with_state USED (with_pid (pt_nextpid t) p)).
  assert (Ho : os !! j = Some Empty).
  { destruct (mi_slot _ _ _ _ _ _ _ _ Hm Hp) as (o & Ho & _). specialize (Hs j p o Hp Ho).
    rewrite bool_decide_true in Hs by done. by subst. }
  assert (Hm1 : mem_inv m l (pt_proc (setp (bump t) j q1)) os).
  { eapply (mem_inv_set kend tramp m l _ os j p); [done|done|by destruct p]. }
  destruct (fresh_space_ok j q1 os th1 (setp (bump t) j q1) m z l Hm1) as (tf & m1 & E1 & Hcase); try done.
  { by eapply lookup_setp. }
  { by apply Hk1. }
  rewrite (bind_ok _ _ _ _ _ _ _ (mem_op_ok _ _ _ _ _ _ _ _ E1)).
  rewrite (bind_ok _ _ _ _ _ _ _ (uproc_setp _ _ _ _ (bump t) _ _ Hj)).
  destruct Hcase as [[-> ->]|(Htf & pt & m2 & E2 & Hcase)].
  - rewrite Z.eqb_refl. left.
    assert (Hq : with_trapframe 0 q1 = q1).
    { destruct (mi_slot _ _ _ _ _ _ _ _ Hm Hp) as (o & Ho' & Hok). simplify_eq. destruct Hok as (_ & Htf & _).
      unfold q1. destruct p; cbn in *. by rewrite Htf. }
    rewrite Hq. destruct (freeproc_ok j q1 Empty os th1 (setp (bump t) j q1) m z l Hm1)
      as (m' & l' & E3 & Hm' & Hpm' & Hout'); [by eapply lookup_setp|done|by apply Hk1|].
    rewrite setp_setp in *. rewrite list_insert_id in Hm' by done.
    assert (Hfr : freed q1 = freed p) by (by destruct p). rewrite Hfr in *.
    rewrite (bind_ok _ _ _ _ _ _ _ E3), (bind_ok _ _ _ _ _ _ _ (Hr1 _)).
    cbn [claimed] in *. rewrite app_nil_r in *. exists m', l'. split_and!; try done. by eapply kinv_refree.
  - destruct (Z.eqb_spec tf 0); [done|]. rewrite (bind_ok _ _ _ _ _ _ _ (mem_op_ok _ _ _ _ _ _ _ _ E2)).
    rewrite (bind_ok _ _ _ _ _ _ _ (uproc_setp _ _ _ _ (bump t) _ _ Hj)).
    destruct Hcase as [(-> & Hcase)|(Hpt & l2 & own & Hpm & Hout & Hm2)].
    + rewrite Z.eqb_refl. left. destruct (Hcase (with_pagetable 0 (with_trapframe tf q1))) as (m3 & l3 & E3 & Hm3 & Hpm3 & Hout3); [done|].
      rewrite !setp_setp in *.
      assert (Hfr : freed (with_pagetable 0 (with_trapframe tf q1)) = freed p) by (by destruct p). rewrite Hfr in *.
      rewrite (bind_ok _ _ _ _ _ _ _ E3), (bind_ok _ _ _ _ _ _ _ (Hr1 _)).
      exists m3, l3. split_and!; try done. by eapply kinv_refree.
    + right. destruct (Z.eqb_spec pt 0); [done|].
      destruct (join_list_ok k lk th1 (bump t) m2 z ls j p (with_pagetable pt (with_trapframe tf q1)))
        as (t' & E3 & Hrel & Hpr); try done; [by apply prio_inv_bump, Ht|apply Ht| |by destruct p|by apply Hk1|].
      { rewrite (ti_on _ _ Ht j p Hp). by intros [? _]. }
      exists tf, pt, t', m2, l2, own. split; [exact E3|].
      assert (Hrel' : relinked (setp (bump t) j (new_proc p (pt_nextpid t) tf pt (Z.of_nat k))) t').
      { unfold q1 in Hrel. by destruct p. }
      split_and!; try done.
      eapply mem_inv_same; [|apply relinked_same_space; exact Hrel'].
      specialize (Hm2 (new_proc p (pt_nextpid t) tf pt (Z.of_nat k))). cbn in Hm2.
      rewrite list_insert_insert_eq in Hm2. apply Hm2. by destruct p.
Qed.

End ProcLife.

(** ** A machine to run the code on *)

(** A kernel without files: the calls of proc.c into the file layer return at once. *)
Definition no_files : ProcFiles unit := {|
  filedup := ret;
  fileclose _ := ret tt;
  idup := ret;
  iput _ := ret tt;
  fs_begin_op := ret tt;
  fs_end_op := ret tt;
  namei_root := ret (Some 0%nat);
  fsinit _ := ret tt;
|}.

(** Static data is zero when the kernel starts; [nextpid] is 1. *)
Definition slot0 : proc :=
  mkProc UNUSED None 0 0 0 None 0 0 0 0 (mkContext 0 0 (replicate 12 0)) (replicate NOFILE None)
    None (replicate (Z.to_nat NAMESIZE) 0) 0 None.
Definition table0 : ptable :=
  mkPtable (replicate NPROC slot0) (mkControl (replicate MAXPRIORITY 0) (replicate MAXPRIORITY None)
    (replicate MAXPRIORITY None)) 1 None.
(** A machine with [n] free pages. *)
Definition machine (n : nat) : kernel unit :=
  mkKernel table0 (mkKmem (free_chain n KERNBASE) KERNBASE) tt.

#[local] Existing Instance no_files.

Lemma idle_machine : kinv KERNBASE KERNBASE table0 small_memory small_pages (replicate NPROC Empty) (replicate MAXPRIORITY []).
Proof.
  assert (Hs0 : forall i p, pt_proc table0 !! i = Some p -> p = slot0).
  { intros i p Hp. by apply (proj1 (lookup_replicate NPROC _ _ _)) in Hp as [-> _]. }
  assert (Hoff : forall i, ~ on_list (replicate MAXPRIORITY []) i).
  { intros i (k & l & Hl & Hi). apply (proj1 (lookup_replicate MAXPRIORITY _ _ _)) in Hl as [-> _]. by apply elem_of_nil in Hi. }
  split.
  - split; try done.
    + destruct (init_priority_control_ok table0 (idle 0)) as (c & E & Hc).
      * intros i p ->%Hs0. done.
      * injection E as <-. exact Hc.
    + intros i p ->%Hs0. split; [by intros ?%Hoff|]. by intros [? _].
    + intros i p ->%Hs0. done.
    + intros i j p q ->%Hs0. done.
    + intros i p ->%Hs0. done.
    + intros i p ->%Hs0. done.
    + intros i p ->%Hs0. done.
  - split; [exact small_memory_ok| |].
    + apply Forall2_replicate. done.
    + replace (concat _) with (@nil Z) by reflexivity. rewrite app_nil_r. apply small_memory_ok.
  - intros i p o ->%Hs0 Ho. apply (proj1 (lookup_replicate NPROC _ _ _)) in Ho as [-> _]. done.
Qed.

Definition alloc_code {S} (o : outcome S (option nat)) : bool :=
  match o with Ok (Some _) _ _ => true | _ => false end.

(** A process in the first free slot of that machine. *)
Lemma one_process : exists t m l os ls j p, kinv KERNBASE KERNBASE t m l os ls /\
  pt_proc t !! j = Some p /\ live p /\ pt_nextpid t = 2 /\ p_cwd p = Some 0%nat /\ p_parent p = None /\ p_ofile p = replicate NOFILE None /\ pt_initproc t = None.
Proof.
  assert (Hcode : alloc_code (allocproc KERNBASE KERNBASE 0 NPROC (Z.of_nat 2) (idle 0) (mkKernel table0 small_memory tt)) = true)
    by (vm_compute; reflexivity).
  pose proof idle_machine as Hinv. revert Hcode Hinv. generalize small_memory small_pages. intros m l Hcode Hinv.
  destruct (allocproc_ok KERNBASE kernbase_ok KERNBASE kernbase_frame 0 NPROC (Nat.le_refl _) 2 [] (idle 0) table0 m tt l _ _ Hinv eq_refl eq_refl ltac:(done))
    as [[E _]|(j & p & Hp & Hst & _ & [(m' & l' & E & _)|(tf & pt & t' & m' & l' & own & E & Hrel & Hpr & Hm' & _)])];
    rewrite E in Hcode; [discriminate Hcode|discriminate Hcode|].
  clear E Hcode. destruct (relinked_lookup _ _ j (new_proc 0 p (pt_nextpid table0) tf pt (Z.of_nat 2)) Hrel) as (n & Hq' & Hn); [by eapply lookup_setp|].
  set (q := with_next n (new_proc 0 p (pt_nextpid table0) tf pt (Z.of_nat 2))) in *.
  exists (setp t' j (with_cwd (Some 0%nat) q)), m', l'. eexists _, _, j, (with_cwd (Some 0%nat) q). split_and!.
  - eapply (kinv_born KERNBASE kernbase_ok KERNBASE table0 m l _ _ 2 [] j p (new_proc 0 p (pt_nextpid table0) tf pt (Z.of_nat 2)) (with_cwd (Some 0%nat) q) t'); try done.
    + apply (ti_files _ _ (ki_table _ _ _ _ _ _ _ Hinv) j p Hp).
    + apply (ti_files _ _ (ki_table _ _ _ _ _ _ _ Hinv) j p Hp).
    + by eapply mem_inv_set.
  - by eapply lookup_setp.
  - done.
  - apply Hrel.
  - done.
  - exact (proj2 (ti_unused _ _ (ki_table _ _ _ _ _ _ _ Hinv) j p Hp Hst)).
  - apply (ti_closed _ _ (ki_table _ _ _ _ _ _ _ Hinv) j p Hp). by intros [? _].
  - apply Hrel.
Qed.
