(* ===== verification/ProcFork.v ===== *)
(** * [fork] (kernel/proc.c)

    The child is a copy of the parent: memory, registers, open files, directory and
    name; when a page is missing all pages go back.  The file layer enters through the
    interface [ProcFilesSpec]. *)

From S2P Require Import Prelude Layout Memory Kalloc Vm VmMap VmUser VmFree VmLife VmFork.
From S2P Require Import Priority Proc ProcOps ProcMem ProcLife.

(** What [fork] relies on: duplicating a reference to an open file or to an inode in use
    returns that file or inode and keeps every reference usable. *)
Class ProcFilesSpec (F : Type) `{ProcFiles F} := {
  fs_inv : F -> Prop;
  fs_open : F -> nat -> Prop;
  fs_inode : F -> nat -> Prop;
  filedup_ok : forall f th s, fs_inv s -> fs_open s f -> LkFtable ∉ th_held th ->
    exists s', filedup f th s = Ok f th s' /\ fs_inv s' /\
      (forall g, fs_open s g -> fs_open s' g) /\ (forall i, fs_inode s i -> fs_inode s' i);
  idup_ok : forall i th s, fs_inv s -> fs_inode s i -> LkItable ∉ th_held th ->
    exists s', idup i th s = Ok i th s' /\ fs_inv s' /\
      (forall g, fs_open s g -> fs_open s' g) /\ (forall j, fs_inode s j -> fs_inode s' j);
}.

Section ProcFork.
Context {F : Type} `{ProcFilesSpec F}.
Variable kend : Z.
Hypothesis kend_ok : KERNBASE <= kend <= PHYSTOP.
Variables tramp forkret_addr : Z.
Hypothesis tramp_ok : frame_addr tramp.
Variable fuel : nat.
Hypothesis fuel_ok : (NPROC <= fuel)%nat.

Notation freeproc := (freeproc (F := F) kend).
Notation allocproc := (allocproc (F := F) kend tramp forkret_addr fuel).
Notation fork := (fork (F := F) kend tramp forkret_addr fuel).
Notation mem_inv := (mem_inv kend tramp).
Notation slot_ok := (slot_ok kend tramp).
Notation kinv := (kinv kend tramp).

Implicit Types (t : ptable) (m : kmem) (z : F) (th : thread).

(** ** Open files *)

Lemma dup_files_ok n i me np pp ofs q th t m z :
  (i + n = NOFILE)%nat -> me <> np -> pt_proc t !! me = Some pp -> p_ofile pp = ofs -> length ofs = NOFILE ->
  (np < length (pt_proc t))%nat -> p_ofile q = take i ofs ++ replicate n None ->
  fs_inv z -> (forall fd f, ofs !! fd = Some (Some f) -> fs_open z f) -> LkFtable ∉ th_held th ->
  exists z', dup_files n i me np th (mkKernel (setp t np q) m z) =
      Ok tt th (mkKernel (setp t np (with_ofile ofs q)) m z') /\ fs_inv z' /\
    (forall g, fs_open z g -> fs_open z' g) /\ (forall ip, fs_inode z ip -> fs_inode z' ip).
Proof.
  revert i q z. induction n as [|n IH]; intros i q z Hin Hne Hpp Hof Hlen Hnp Hq Hz Hopen Hlk; cbn [dup_files].
  - exists z. rewrite take_ge, app_nil_r in Hq by lia. split_and!; try done.
    unfold ret. do 3 f_equal. destruct q; cbn in *. by rewrite Hq.
  - rewrite (bind_ok _ _ _ _ _ _ _ (gproc_ok me pp th (setp t np q) m z ltac:(by rewrite lookup_setp_ne))).
    destruct (lookup_lt_is_Some_2 ofs i) as [o Ho]; [lia|]. rewrite Hof, Ho. cbn [deref].
    rewrite (bind_ok _ _ _ _ _ _ _ (eq_refl : ret o _ _ = _)).
    assert (Hstep : take (S i) ofs ++ replicate n None = <[i := o]> (p_ofile q)).
    { rewrite Hq, (take_S_r _ _ _ Ho), insert_app_r_alt by (rewrite length_take; lia).
      rewrite length_take, Nat.min_l, Nat.sub_diag, <- app_assoc by lia. done. }
    destruct o as [f|].
    + destruct (filedup_ok f th z Hz (Hopen i f Ho) Hlk) as (z1 & E1 & Hz1 & Hf1 & Hi1).
      rewrite bind_assoc, (bind_ok _ _ _ _ _ _ _ (fs_op_ok _ _ _ _ _ _ _ _ E1)).
      rewrite (bind_ok _ _ _ _ _ _ _ (uproc_setp _ _ _ _ _ _ _ Hnp)).
      destruct (IH (S i) (with_ofile (<[i := Some f]> (p_ofile q)) q) z1) as (z' & E & Hz' & Hf' & Hi'); try done; eauto; [lia|by destruct q|].
      exists z'. split_and!; eauto. rewrite E. by destruct q.
    + rewrite (bind_ok _ _ _ _ _ _ _ (eq_refl : ret tt _ _ = _)).
      destruct (IH (S i) q z) as (z' & E & Hz' & Hf' & Hi'); try done; eauto; [lia|].
      rewrite Hstep. symmetry. apply list_insert_id. rewrite Hq, lookup_app_r by (rewrite length_take; lia).
      rewrite length_take, Nat.min_l, Nat.sub_diag by lia. done.
Qed.

(** ** Memory *)

(** The user pages of the child hold what those of the parent hold. *)
Definition same_pages (m m' : kmem) (fsO ns : list Z) : Prop :=
  length ns = length fsO /\
  forall i f n a, fsO !! i = Some f -> ns !! i = Some n -> 0 <= a < PGSIZE ->
    mget (km_mem m') (n + a) = mget (km_mem m) (f + a).

Lemma full_parent m l ps os i p own A fs :
  mem_inv m l ps os -> ps !! i = Some p -> os !! i = Some (Full own A fs) ->
  parent kend (km_mem m) (p_pagetable p) own A fs m l /\ 0 <= p_sz p <= MAXVA /\ Z.of_nat (length fs) = pgcount (p_sz p).
Proof.
  intros Hinv Hp Ho. destruct (mi_slot _ _ _ _ _ _ _ _ Hinv Hp) as (o & Ho' & Hok). simplify_eq.
  destruct Hok as (_ & Hsz & [[Hus _ _] Hs0 Hlen]). split_and!; try done.
  split; [apply (us_vm Hus)|apply (us_mapped Hus)|apply (us_frames Hus)|apply (us_size Hus)|done].
Qed.

Lemma copy_space_ok me pp ownO AO fsO j q ownN AN th m l ps os :
  mem_inv m l ps os -> ps !! me = Some pp -> os !! me = Some (Full ownO AO fsO) ->
  ps !! j = Some q -> os !! j = Some (Full ownN AN []) -> me <> j -> LkKmem ∉ th_held th ->
  exists r m' l' own' AN' ns,
    uvmcopy kend (p_pagetable pp) (p_pagetable q) (p_sz pp) th m = Ok r th m' /\
    l' ++ pages own' ++ ns ≡ₚ l ++ pages ownN /\
    (forall a, outside (l ++ pages ownN) a -> mget (km_mem m') a = mget (km_mem m) a) /\
    ((r = 0 /\ same_pages m m' fsO ns /\
      forall q', p_pagetable q' = p_pagetable q -> p_trapframe q' = p_trapframe q -> p_sz q' = p_sz pp ->
        mem_inv m' l' (<[j := q']> ps) (<[j := Full own' AN' ns]> os)) \/
     (r = -1 /\ ns = [] /\ mem_inv m' l' ps (<[j := Full own' AN []]> os))).
Proof.
  intros Hinv Hpp Hme Hq Hj Hne Hlk.
  destruct (full_parent m l ps os me pp ownO AO fsO Hinv Hpp Hme) as (Hpa & Hsz & Hlen).
  destruct (mi_slot _ _ _ _ _ _ _ _ Hinv Hq) as (o & Ho' & Hok). simplify_eq.
  destruct Hok as (Htf & Hszq & [[Hus Ht1 Ht2] Hs0 Hlq]).
  pose proof (mi_two_nodup _ _ _ _ _ _ _ _ _ _ _ _ Hinv (not_eq_sym Hne) Hq Hj Hpp Hme) as Hnd. cbn [claimed] in Hnd.
  rewrite app_nil_r in Hnd. cbn [app] in Hnd. rewrite <- Permutation_middle in Hnd. apply NoDup_cons in Hnd as [_ Hnd].
  rewrite app_assoc, <- Permutation_middle in Hnd. apply NoDup_cons in Hnd as [_ Hnd].
  destruct (uvmcopy_ok kend kend_ok (km_mem m) (p_pagetable pp) ownO AO fsO (p_sz pp) th m l (p_pagetable q) ownN AN
    Hpa Hus Hnd Hlk Hsz Hlen) as (r & m' & l' & own' & AN' & ns & E & Hpa' & Hus' & Hpm & Hout & Hr).
  assert (Hkm' : km_inv kend m' l') by apply (vi_km _ _ _ _ _ _ (us_vm Hus')).
  assert (Hpm' : l' ++ p_trapframe q :: pages own' ++ ns ≡ₚ l ++ p_trapframe q :: pages ownN ++ []).
  { by rewrite app_nil_r, <- !Permutation_middle, Hpm. }
  assert (Hout' : forall a, outside (l ++ claimed q (Full ownN AN [])) a -> mget (km_mem m') a = mget (km_mem m) a).
  { intros a Ha. apply Hout. cbn [claimed] in Ha. rewrite app_nil_r, <- Permutation_middle in Ha.
    by apply outside_cons in Ha as [_ ?]. }
  exists r, m', l', own', AN', ns. split_and!; try done. destruct Hr as [(-> & Hcp & Hl)|(-> & -> & ->)].
  - left. split; [done|]. split; [split; [done|apply Hcp]|]. intros q' Q1 Q2 Q3.
    eapply mem_inv_update; [exact Hinv|exact Hq|exact Hj|done| |by cbn [claimed]; rewrite Q2|done].
    cbn [ProcMem.slot_ok]. rewrite Q1, Q2, Q3. split_and!; [done|lia|]. split; [|lia|by rewrite Hl].
    assert (Htop : forall x, TRAPFRAME <= x -> AN' !! x = AN !! x).
    { intros x Hx. apply (cp_other _ _ _ _ _ _ _ Hcp). apply not_true_is_false. intros (i & Hi & ->)%in_range_spec.
      pose proof (us_size Hus'). unfold PGSIZE in *. lia. }
    split; [done|by rewrite Htop|by rewrite Htop].
  - right. split; [done|]. split; [done|]. rewrite <- (list_insert_id ps j q) by done.
    eapply mem_inv_update; [exact Hinv|exact Hq|exact Hj|done| |done|done].
    split_and!; [done|done|]. by split; [split|..].
Qed.

(** ** The child *)

Definition child (me : nat) (pp q : proc) : proc :=
  mkProc RUNNABLE (p_chan q) (p_killed q) (p_xstate q) (p_pid q) (Some me) (p_kstack q) (p_sz pp)
    (p_pagetable q) (p_trapframe q) (p_context q) (p_ofile pp) (p_cwd pp)
    (array_safestrcpy (p_name q) (p_name pp)) (p_priority q) (p_next q).

(** The registers of the parent, with 0 for [a0]. *)
Definition child_regs (m : kmem) (tfN tfO : Z) : mem :=
  st64 (memmove (km_mem m) tfN tfO TRAPFRAME_SIZE) (tfN + tf_a 0) 0.

Lemma fork_tail_ok me np pp pp' nq cwd th t m z :
  th_held th = [] -> me <> np -> pt_proc t !! me = Some pp' -> p_ofile pp' = p_ofile pp ->
  pt_proc t !! np = Some nq -> length (p_ofile pp) = NOFILE -> p_ofile nq = replicate NOFILE None ->
  p_cwd pp = Some cwd -> fs_inv z -> fs_inode z cwd ->
  (forall fd f, p_ofile pp !! fd = Some (Some f) -> fs_open z f) ->
  exists z', fork_tail me np pp nq (set_held [LkProc np] th) (mkKernel t m z) =
      Ok (p_pid nq) th (mkKernel (setp t np (child me pp nq))
        (set_mem (child_regs m (p_trapframe nq) (p_trapframe pp)) m) z') /\ fs_inv z'.
Proof.
  intros Hh Hne Hpp Hpof Hnq Hlen Hof Hcwd Hz Hip Hopen. pose proof (lookup_lt_Some _ _ _ Hnq) as Hnp.
  set (th1 := set_held [LkProc np] th). unfold fork_tail.
  assert (Hlk : forall lk, (forall i, lk <> LkProc i) -> lk ∉ th_held th1) by (intros lk Hl ->%list_elem_of_singleton; by apply (Hl np)).
  rewrite (bind_ok _ _ _ _ _ _ _ (uproc_ok _ _ _ _ _ _ _ Hnq)).
  rewrite (bind_ok _ _ _ _ _ _ _ (mem_op_ok _ _ _ _ _ _ _ _ (eq_refl : mem_move _ _ _ th1 m = _))).
  rewrite (bind_ok _ _ _ _ _ _ _ (mem_op_ok _ _ _ _ _ _ _ _ (eq_refl : store64 _ _ th1 _ = _))).
  destruct (dup_files_ok NOFILE 0 me np pp' (p_ofile pp) (with_sz (p_sz pp) nq) th1 t
    (set_mem (child_regs m (p_trapframe nq) (p_trapframe pp)) m) z) as (z1 & E1 & Hz1 & Ho1 & Hi1); try done.
  { by destruct nq. }
  { by apply Hlk. }
  rewrite (bind_ok _ _ _ _ _ _ _ E1), Hcwd. cbn [deref]. rewrite (bind_ok _ _ _ _ _ _ _ (eq_refl : ret cwd _ _ = _)).
  destruct (idup_ok cwd th1 z1 Hz1 (Hi1 _ Hip)) as (z2 & E2 & Hz2 & _); [by apply Hlk|].
  rewrite (bind_ok _ _ _ _ _ _ _ (fs_op_ok _ _ _ _ _ _ _ _ E2)).
  do 2 rewrite (bind_ok _ _ _ _ _ _ _ (uproc_setp _ _ _ _ _ _ _ Hnp)).
  rewrite (bind_ok _ _ _ _ _ _ _ (gproc_setp _ _ _ _ _ _ Hnp)). cbv zeta.
  unfold th1. rewrite (bind_ok _ _ _ _ _ _ _ (release_only _ th _ Hh)), (bind_ok _ _ _ _ _ _ _ (acquire_only _ th _ Hh)).
  rewrite (bind_ok _ _ _ _ _ _ _ (uproc_setp _ _ _ _ _ _ _ Hnp)).
  rewrite (bind_ok _ _ _ _ _ _ _ (release_only _ th _ Hh)), (bind_ok _ _ _ _ _ _ _ (acquire_only _ th _ Hh)).
  rewrite (bind_ok _ _ _ _ _ _ _ (uproc_setp _ _ _ _ _ _ _ Hnp)), (bind_ok _ _ _ _ _ _ _ (release_only _ th _ Hh)).
  exists z2. split; [|done]. unfold ret, child. rewrite Hcwd. by destruct nq.
Qed.

(** What [fork] promises of the child [q] of process [me]: same size, files, directory
    and priority, user pages [ns] with the parent's contents, the parent's registers
    except that [a0] is 0. *)
Record forked (m m' : kmem) (me : nat) (pp q : proc) (fsO ns : list Z) : Prop := mkForked {
  fk_state : p_state q = RUNNABLE;
  fk_parent : p_parent q = Some me;
  fk_sz : p_sz q = p_sz pp;
  fk_ofile : p_ofile q = p_ofile pp;
  fk_cwd : p_cwd q = p_cwd pp;
  fk_priority : p_priority q = p_priority pp;
  fk_pages : same_pages m m' fsO ns;
  fk_regs : forall off, 0 <= off < TRAPFRAME_SIZE -> off < tf_a 0 \/ tf_a 1 <= off ->
    mget (km_mem m') (p_trapframe q + off) = mget (km_mem m) (p_trapframe pp + off);
  fk_a0 : ld64 (km_mem m') (p_trapframe q + tf_a 0) = 0;
}.

Lemma child_regs_get m tfN tfO off :
  0 <= off < TRAPFRAME_SIZE -> off < tf_a 0 \/ tf_a 1 <= off ->
  mget (child_regs m tfN tfO) (tfN + off) = mget (km_mem m) (tfO + off).
Proof.
  unfold child_regs, TRAPFRAME_SIZE, tf_a. intros Hoff Hne. rewrite mget_stn_out by lia.
  rewrite memmove_get by lia. replace (tfO + (tfN + off - tfN)) with (tfO + off) by lia. zbool.
Qed.

Lemma child_regs_out m tfN tfO a : ~ in_page tfN a -> mget (child_regs m tfN tfO) a = mget (km_mem m) a.
Proof.
  unfold in_page, child_regs, TRAPFRAME_SIZE, tf_a, PGSIZE. intros Ha. rewrite mget_stn_out by lia.
  rewrite memmove_get by lia. zbool.
Qed.

(** The invariants once the child is complete. *)
Lemma kinv_child t m l os ls k lk me pp j p tf pt n t' m' l' own A ns :
  kinv t m l os ls -> pt_nextpid t < 2 ^ 31 - 1 -> ls !! k = Some lk ->
  length (p_ofile pp) = NOFILE ->
  pt_proc t !! j = Some p -> p_state p = UNUSED ->
  relinked (setp (bump t) j (new_proc forkret_addr p (pt_nextpid t) tf pt (Z.of_nat k))) t' ->
  pt_proc t' !! j = Some (with_next n (new_proc forkret_addr p (pt_nextpid t) tf pt (Z.of_nat k))) ->
  prio_inv t' (<[k := lk ++ [j]]> ls) ->
  let q := child me pp (with_next n (new_proc forkret_addr p (pt_nextpid t) tf pt (Z.of_nat k))) in
  mem_inv m' l' (pt_proc (setp t' j q)) (<[j := Full own A ns]> os) ->
  kinv (setp t' j q) m' l' (<[j := Full own A ns]> os) (<[k := lk ++ [j]]> ls).
Proof.
  intros Hinv Hn Hk Hlen Hp Hst Hrel Hq' Hpr q Hm'. eapply kinv_born; try done.
  - unfold next_of. by rewrite Hq'.
  - change (length (array_safestrcpy (p_name p) (p_name pp)) = Z.to_nat NAMESIZE).
    unfold array_safestrcpy. rewrite length_bytes. by eapply (ti_files _ _ (ki_table _ _ _ _ _ _ _ Hinv)).
Qed.

(** Contents that survive: the child's pages against the parent's, across the writes
    before and after [uvmcopy]. *)
Lemma same_pages_trans m0 m1 m2 m3 fsO ns :
  same_pages m1 m2 fsO ns ->
  (forall f a, f ∈ fsO -> in_page f a -> mget (km_mem m1) a = mget (km_mem m0) a) ->
  (forall n a, n ∈ ns -> in_page n a -> mget (km_mem m3) a = mget (km_mem m2) a) ->
  same_pages m0 m3 fsO ns.
Proof.
  intros [Hl Hs] Hb0 Hb3. split; [done|]. intros i f n a Hf Hn Ha.
  rewrite (Hb3 n), (Hs i f n), (Hb0 f); try done; try (unfold in_page; lia); by eapply list_elem_of_lookup_2.
Qed.

(** A slot's trapframe is not one of its other pages. *)
Lemma tf_apart m l ps os i p own A fs n a :
  mem_inv m l ps os -> ps !! i = Some p -> os !! i = Some (Full own A fs) -> n ∈ fs -> in_page n a ->
  ~ in_page (p_trapframe p) a.
Proof.
  intros Hinv Hp Ho Hn Ha Ha'. pose proof (mi_slot_nodup kend tramp _ _ _ _ _ _ _ Hinv Hp Ho) as Hnd.
  destruct (mi_slot _ _ _ _ _ _ _ _ Hinv Hp) as (o & Ho' & Hok). simplify_eq.
  pose proof (slot_claimed_ok _ _ _ _ _ _ Hok) as HF. cbn [claimed] in *.
  apply NoDup_app in Hnd as (_ & _ & Hnd). apply NoDup_cons in Hnd as [Hni _]. apply Hni, elem_of_app. right.
  apply Forall_cons in HF as [Htf HF]. rewrite Forall_forall in HF.
  rewrite (pages_disjoint kend (p_trapframe p) n a); try done. apply HF, elem_of_app. by right.
Qed.

(** [fork] from the point where [allocproc] has returned the slot [j]. *)
Definition fork_copy (p j : nat) (pp : proc) : M (kernel F) Z :=
  let! nq := gproc j in
  let! c := mem_op (uvmcopy kend (p_pagetable pp) (p_pagetable nq) (p_sz pp)) in
  if c <? 0 then freeproc j;;; release (LkProc j);;; ret (-1) else fork_tail p j pp nq.

Lemma fork_copy_ok th t m z l os me pp pp' cwd j nq ownO AO fsO own A m0 :
  mem_inv m l (pt_proc t) os -> th_held th = [] -> me <> j ->
  pt_proc t !! me = Some pp' -> pp' = with_next (p_next pp') pp -> os !! me = Some (Full ownO AO fsO) ->
  pt_proc t !! j = Some nq -> os !! j = Some (Full own A []) ->
  length (p_ofile pp) = NOFILE -> p_ofile nq = replicate NOFILE None ->
  p_cwd pp = Some cwd -> fs_inv z -> fs_inode z cwd ->
  (forall fd f, p_ofile pp !! fd = Some (Some f) -> fs_open z f) -> p_priority nq = p_priority pp ->
  (forall x a, x ∈ p_trapframe pp :: fsO -> in_page x a -> mget (km_mem m) a = mget (km_mem m0) a) ->
  exists r q o' m' z' l', fork_copy me j pp (set_held [LkProc j] th) (mkKernel t m z) =
      Ok r th (mkKernel (setp t j q) m' z') /\ fs_inv z' /\
    mem_inv m' l' (pt_proc (setp t j q)) (<[j := o']> os) /\
    all_pages l' (pt_proc (setp t j q)) (<[j := o']> os) ≡ₚ all_pages l (pt_proc t) os /\
    ((r = p_pid nq /\ q = child me pp nq /\ exists own' A' ns, o' = Full own' A' ns /\ forked m0 m' me pp q fsO ns) \/
     (r = -1 /\ q = freed nq /\ o' = Empty)).
Proof.
  intros Hm Hh Hne Hpp Heq Hme Hnq Hj Hlen Hof Hcwd Hz Hip Hopen Hprio Hb. set (th1 := set_held [LkProc j] th).
  assert (Hlk : LkKmem ∉ th_held th1) by (by intros ?%list_elem_of_singleton).
  assert (Hr1 : forall s : kernel F, release (LkProc j) th1 s = Ok tt th s) by (intros s; by apply release_only).
  unfold fork_copy. rewrite (bind_ok _ _ _ _ _ _ _ (gproc_ok _ _ _ _ _ _ Hnq)).
  assert (Ep : p_pagetable pp' = p_pagetable pp /\ p_sz pp' = p_sz pp /\ p_trapframe pp' = p_trapframe pp) by (by rewrite Heq).
  destruct Ep as (Ep1 & Ep2 & Ep3).
  destruct (copy_space_ok me pp' ownO AO fsO j nq own A th1 m l (pt_proc t) os Hm Hpp Hme Hnq Hj Hne Hlk)
    as (r & m1 & l1 & own1 & A1 & ns & E1 & Hpm1 & Hout1 & Hcase). rewrite Ep1, Ep2 in *.
  rewrite (bind_ok _ _ _ _ _ _ _ (mem_op_ok _ _ _ _ _ _ _ _ E1)).
  assert (Hpm1' : l1 ++ claimed nq (Full own1 A1 ns) ≡ₚ l ++ claimed nq (Full own A [])).
  { cbn [claimed]. by rewrite app_nil_r, <- !Permutation_middle, Hpm1. }
  destruct Hcase as [(-> & Hsp & Hm1)|(-> & -> & Hm1)].
  - cbv beta. change (0 <? 0) with false. cbv iota. specialize (Hm1 (child me pp nq) eq_refl eq_refl eq_refl).
    set (o' := Full own1 A1 ns) in *.
    assert (Hq' : <[j := child me pp nq]> (pt_proc t) !! j = Some (child me pp nq)) by (by eapply lookup_insert_Some_eq).
    assert (Ho' : <[j := o']> os !! j = Some o') by (by eapply lookup_insert_Some_eq).
    destruct (fork_tail_ok me j pp pp' nq cwd th t m1 z) as (z' & E2 & Hz'); try done; [by rewrite Heq|].
    fold th1 in E2. set (m2 := set_mem (child_regs m1 (p_trapframe nq) (p_trapframe pp)) m1) in *.
    assert (Hm2 : mem_inv m2 l1 (<[j := child me pp nq]> (pt_proc t)) (<[j := o']> os)).
    { eapply mem_inv_page_write; [exact kend_ok|exact tramp_ok|exact Hm1|exact Hq'|exact Ho'|by left|]. intros a Ha. by apply child_regs_out. }
    exists (p_pid nq), (child me pp nq), o', m2, z', l1. split_and!; try done.
    { by eapply all_pages_update. }
    left. split_and!; try done. exists own1, A1, ns. split; [done|].
    assert (Hkeep : forall x a, x ∈ claimed pp' (Full ownO AO fsO) -> in_page x a -> mget (km_mem m1) a = mget (km_mem m) a).
    { intros x a Hx Ha. apply Hout1. pose proof (claimed_outside _ _ _ _ _ _ _ _ _ _ _ _ _ _ Hm Hne Hpp Hme Hnq Hj Hx Ha) as Ho.
      cbn [claimed] in Ho. rewrite app_nil_r, <- Permutation_middle in Ho. by apply outside_cons in Ho as [_ ?]. }
    split; try done.
    + eapply same_pages_trans; [exact Hsp| |].
      * intros f a Hf Ha. apply (Hb f); [by right|done].
      * intros n a Hn Ha. cbn. apply child_regs_out. exact (tf_apart _ _ _ _ _ _ _ _ _ _ _ Hm1 Hq' Ho' Hn Ha).
    + intros off Hoff Hne'. cbn. rewrite child_regs_get by done.
      assert (Hin : in_page (p_trapframe pp) (p_trapframe pp + off)) by (unfold in_page, TRAPFRAME_SIZE, PGSIZE in *; lia).
      rewrite (Hkeep (p_trapframe pp)), (Hb (p_trapframe pp)); [done|by left|done|cbn [claimed]; rewrite Ep3; by left|done].
    + cbn. unfold child_regs. by rewrite ld64_st64_eq.
  - cbv beta. change (-1 <? 0) with true. cbv iota.
    destruct (freeproc_ok kend kend_ok tramp tramp_ok j nq (Full own1 A []) (<[j := Full own1 A []]> os) th1 t m1 z l1 Hm1 Hnq)
      as (m2 & l2 & E2 & Hm2 & Hpm2 & _); [by eapply lookup_insert_Some_eq|done|].
    rewrite (bind_ok _ _ _ _ _ _ _ E2), (bind_ok _ _ _ _ _ _ _ (Hr1 _)). rewrite list_insert_insert_eq in Hm2.
    exists (-1), (freed nq), Empty, m2, z, l2. split_and!; try done; [|by right].
    eapply all_pages_update; try done. cbn [claimed] in *. by rewrite app_nil_r, Hpm2, Hpm1'.
Qed.

(** C4: [fork] copies the parent or gives everything back.  Run by a live process on a
    consistent kernel it returns; no page is lost or doubled; and either it returns the
    next pid and there is a new RUNNABLE child with the parent's memory, files, directory
    and registers ([a0] = 0), on the list of the parent's priority, nothing else changed;
    or it returns -1 before the child joined a list and all invariants hold as before; or
    it returns -1 because user memory could not be copied, and the free slot stays on the
    priority list. *)
Theorem fork_copies_or_undoes th t m z l os ls pp cwd :
  kinv t m l os ls -> fs_inv z -> th_held th = [] -> pt_proc t !! th_proc th = Some pp -> live pp ->
  pt_nextpid t < 2 ^ 31 - 1 -> p_cwd pp = Some cwd -> fs_inode z cwd ->
  (forall fd f, p_ofile pp !! fd = Some (Some f) -> fs_open z f) ->
  exists r t' m' z' l' os', fork th (mkKernel t m z) = Ok r th (mkKernel t' m' z') /\ fs_inv z' /\
    mem_inv m' l' (pt_proc t') os' /\ all_pages l' (pt_proc t') os' ≡ₚ all_pages l (pt_proc t) os /\
    ((r = pt_nextpid t /\ exists j q ownO AO fsO own A ns ls', kinv t' m' l' os' ls' /\
        os !! th_proc th = Some (Full ownO AO fsO) /\ os' !! j = Some (Full own A ns) /\
        pt_proc t' !! j = Some q /\ p_pid q = r /\ forked m m' (th_proc th) pp q fsO ns /\
        relinked (setp (bump t) j q) t' /\
        exists p, pt_proc t !! j = Some p /\ p_state p = UNUSED) \/
     (r = -1 /\ kinv t' m' l' os' ls /\
        (t' = t \/ exists j p, pt_proc t !! j = Some p /\ p_state p = UNUSED /\ t' = setp (bump t) j (freed p))) \/
     (r = -1 /\ exists j p q k lk, pt_proc t !! j = Some p /\ p_state p = UNUSED /\
        p_priority pp = Z.of_nat k /\ ls !! k = Some lk /\ prio_inv t' (<[k := lk ++ [j]]> ls) /\
        pt_proc t' !! j = Some q /\ p_state q = UNUSED /\ relinked (setp (bump t) j q) t')).
Proof.
  intros Hinv Hz Hh Hpp Hlive Hn Hcwd Hip Hopen. pose proof Hinv as [Ht Hm Hs].
  pose proof (proj2 (ti_on _ _ Ht _ _ Hpp) Hlive) as (k & lk & Hk & Hin).
  destruct (pi_prio _ _ (ti_prio _ _ Ht) k lk _ Hk Hin) as (pp' & Hpp' & Hprio). simplify_eq.
  assert (Hk5 : (k < 5)%nat) by (pose proof (pi_len _ _ (ti_prio _ _ Ht)) as Hl5; apply lookup_lt_Some in Hk; unfold MAXPRIORITY in Hl5; lia).
  unfold Proc.fork. rewrite (bind_ok _ _ _ _ _ _ _ (eq_refl : myproc th _ = Ok _ th _)).
  rewrite (bind_ok _ _ _ _ _ _ _ (gproc_ok _ _ _ _ _ _ Hpp)), Hprio, (i32_id (Z.of_nat k)) by lia.
  destruct (allocproc_ok kend kend_ok tramp tramp_ok forkret_addr fuel fuel_ok k lk th t m z l os ls Hinv Hh Hk Hn)
    as [[E Hall]|(j & p & Hp & Hst & _ & [(m' & l' & E & Hinv' & Hpm & Hout)|
        (tf & pt & t1 & m1 & l1 & own & E & Hrel & Hpr & Hm1 & Hpm & Hout)])];
    rewrite (bind_ok _ _ _ _ _ _ _ E).
  - exists (-1), t, m, z, l, os. split_and!; try done. right; left. split_and!; try done. by left.
  - exists (-1), (setp (bump t) j (freed p)), m', z, l', os. split_and!; try done; [apply Hinv'| |].
    + destruct (mi_slot _ _ _ _ _ _ _ _ Hm Hp) as (o & Ho & _). rewrite <- (list_insert_id os j o) at 1 by done.
      eapply all_pages_update; try done. specialize (Hs j p o Hp Ho). rewrite bool_decide_true in Hs by done. subst. cbn.
      by rewrite !app_nil_r.
    + right; left. split_and!; try done. right. by exists j, p.
  - set (nq0 := new_proc forkret_addr p (pt_nextpid t) tf pt (Z.of_nat k)) in *.
    assert (Hne : th_proc th <> j) by (intros Hej; rewrite Hej in Hpp; simplify_eq; by destruct Hlive).
    destruct (relinked_lookup _ _ (th_proc th) pp Hrel) as (n1 & Hpp1 & _); [by rewrite lookup_setp_ne|].
    destruct (relinked_lookup _ _ j nq0 Hrel) as (n2 & Hq1 & _); [by eapply lookup_setp|].
    destruct (mi_slot _ _ _ _ _ _ _ _ Hm Hpp) as (oO & HoO & _). pose proof (Hs _ pp oO Hpp HoO) as HsO.
    rewrite bool_decide_false in HsO by apply Hlive. destruct HsO as (ownO & AO & fsO & ->).
    destruct (mi_slot _ _ _ _ _ _ _ _ Hm Hp) as (oj & Hoj & _). pose proof (Hs _ p oj Hp Hoj) as Hsj.
    rewrite bool_decide_true in Hsj by done. subst oj.
    assert (Hof : p_ofile p = replicate NOFILE None) by (apply (ti_closed _ _ Ht j p Hp); by intros [? _]).
    destruct (fork_copy_ok th t1 m1 z l1 _ (th_proc th) pp (with_next n1 pp) cwd j (with_next n2 nq0) ownO AO fsO own
      {[ TRAPFRAME := leaf_pte tf RW; TRAMPOLINE := leaf_pte tramp RX ]} m Hm1 Hh Hne Hpp1) as (r & q & o' & m' & z' & l' & E2 & Hz' & Hm' & Hall & Hcase); try done.
    { by rewrite list_lookup_insert_ne. }
    { by eapply lookup_insert_Some_eq. }
    { apply (ti_files _ _ Ht _ _ Hpp). }
    { intros x a Hx Ha. apply Hout.
      assert (Ho : outside (l ++ claimed p Empty) a); [|cbn in Ho; by rewrite app_nil_r in Ho].
      eapply (claimed_outside _ _ _ _ _ _ _ _ _ _ _ _ _ _ Hm Hne Hpp HoO Hp Hoj); [|exact Ha].
      cbn [claimed]. apply elem_of_cons in Hx as [->|Hx]; [by left|]. right. apply elem_of_app. by right. }
    rewrite list_insert_insert_eq in *.
    exists r, (setp t1 j q), m', z', l', (<[j := o']> os). split_and!; try done.
    { rewrite Hall, <- (all_pages_same _ _ _ _ _ (pt_proc (setp (bump t) j nq0)) _ Hm1
        (relinked_same_space _ _ (relinked_sym _ _ Hrel))).
      eapply all_pages_update; [exact Hp|exact Hoj|]. cbn [claimed]. by rewrite !app_nil_r. }
    destruct Hcase as [(-> & -> & own' & A' & ns & -> & Hfk)|(-> & -> & ->)].
    + left. split; [done|]. exists j, (child (th_proc th) pp (with_next n2 nq0)), ownO, AO, fsO, own', A', ns, (<[k := lk ++ [j]]> ls).
      split_and!; try done.
      * eapply (kinv_child t m l os ls k lk (th_proc th) pp j p tf pt n2 t1); try done. apply (ti_files _ _ Ht _ _ Hpp).
      * by eapply lookup_insert_Some_eq.
      * by eapply lookup_setp.
      * pose proof (relinked_slot _ _ j (child (th_proc th) pp (with_next n2 nq0)) n2 Hrel) as Hr. by rewrite setp_setp in Hr.
      * by exists p.
    + right; right. split; [done|]. exists j, p, (freed (with_next n2 nq0)), k, lk. split_and!; try done.
      * eapply prio_inv_setp; [exact Hpr|exact Hq1|done|done].
      * by eapply lookup_setp.
      * pose proof (relinked_slot _ _ j (freed (with_next n2 nq0)) n2 Hrel) as Hr. by rewrite setp_setp in Hr.
Qed.

End ProcFork.

(** ** A kernel with one process *)

#[local] Existing Instance no_files.
#[local] Instance no_files_spec : ProcFilesSpec unit.
Proof.
  refine {| fs_inv _ := True; fs_open _ _ := True; fs_inode _ _ := True |}; intros x th [] _ _ _; by exists tt.
Defined.

Lemma fork_copies_or_undoes_witness :
  exists t m me r t' m', fork KERNBASE KERNBASE 0 NPROC (idle me) (mkKernel t m tt) = Ok r (idle me) (mkKernel t' m' tt).
Proof.
  destruct one_process as (t & m & l & os & ls & me & pp & Hinv & Hpp & Hlive & Hn & Hcwd & _).
  destruct (fork_copies_or_undoes KERNBASE kernbase_ok KERNBASE 0 kernbase_frame NPROC (Nat.le_refl _)
    (idle me) t m tt l os ls pp 0%nat) as (r & t' & m' & [] & l' & os' & E & _).
  - exact Hinv.
  - exact I.
  - reflexivity.
  - exact Hpp.
  - exact Hlive.
  - rewrite Hn. lia.
  - exact Hcwd.
  - exact I.
  - intros. exact I.
  - exists t, m, me, r, t', m'. exact E.
Defined.
