(* ===== verification/ProcExit.v ===== *)
(** * [exit], [wait] and the other transitions of a process (kernel/proc.c)

    The invariant of the process table through [wakeup], [sleep], [kill], the scheduler,
    [exit] and [wait]. *)

From S2P Require Import Prelude Layout Memory Kalloc Vm VmMap VmUser VmFree VmLife VmFork VmCopy.
From S2P Require Import Priority Proc ProcOps ProcMem ProcLife.

(** A change of a slot that the invariants do not see: the state stays on the same side
    of UNUSED and of ZOMBIE. *)
Record soft (p p' : proc) : Prop := mkSoft {
  so_space : same_space p p';
  so_next : p_next p' = p_next p;
  so_prio : p_priority p' = p_priority p;
  so_pid : p_pid p' = p_pid p;
  so_files : length (p_ofile p') = length (p_ofile p);
  so_closed : ~ live p -> p_ofile p' = p_ofile p;
  so_name : length (p_name p') = length (p_name p);
  so_unused : p_state p' = UNUSED <-> p_state p = UNUSED;
  so_live : live p' <-> live p;
  so_parent : p_parent p = None -> p_parent p' = None;
}.

#[export] Instance soft_refl : Reflexive soft.
Proof. intros p. by split. Qed.
#[export] Instance soft_trans : Transitive soft.
Proof.
  intros p q r [(A1 & A2 & A3) A4 A5 A6 A7 Ac A8 A9 A10 A11] [(B1 & B2 & B3) B4 B5 B6 B7 Bc B8 B9 B10 B11].
  split; [split_and!|..]; try congruence; [|by rewrite B9|by rewrite B10|auto].
  intros Hl. rewrite Bc by (by rewrite A10). by apply Ac.
Qed.

(** Moving between live states, marking as killed, sleeping and waking are soft. *)
Lemma soft_state p st : live p -> st <> UNUSED -> st <> ZOMBIE -> soft p (with_state st p).
Proof. intros [H1 H2] H3 H4. destruct p; cbn in *. by split; unfold live; cbn; try done; tauto. Qed.
Lemma soft_chan p c : soft p (with_chan c p).
Proof. by destruct p. Qed.
Lemma soft_killed p x : soft p (with_killed x p).
Proof. by destruct p. Qed.
Lemma soft_files p ofs c : live p -> length ofs = length (p_ofile p) -> soft p (with_cwd c (with_ofile ofs p)).
Proof. intros Hl Hlen. destruct p; cbn in *. by split. Qed.
Lemma soft_sz p : soft p (with_sz (p_sz p) p).
Proof. by destruct p. Qed.

Lemma soft_woken me ch i p : soft p (woken me ch i p).
Proof.
  unfold woken. destruct (negb _ && bool_decide (p_state p = SLEEPING)) eqn:E; cbn; [|done].
  apply andb_true_iff in E as [_ E%bool_decide_eq_true]. case_bool_decide; [|done].
  apply soft_state; [|done|done]. unfold live. by rewrite E.
Qed.

#[export] Hint Resolve soft_chan soft_killed soft_woken : xv6.

Section Soft.
Variables kend tramp : Z.

Lemma kinv_soft t t' m l os ls :
  kinv kend tramp t m l os ls -> Forall2 soft (pt_proc t) (pt_proc t') ->
  pt_control t' = pt_control t -> pt_nextpid t' = pt_nextpid t ->
  kinv kend tramp t' m l os ls.
Proof.
  intros [[H1 H2 Hn H3 H4 H5 H6 Hcl H7] Hm Hs] HF Hc Hnp. pose proof (Forall2_length _ _ _ HF) as Hlen.
  assert (Hlk : forall i p', pt_proc t' !! i = Some p' -> exists p, pt_proc t !! i = Some p /\ soft p p').
  { intros i p' Hp'. exact (Forall2_lookup_r _ _ _ _ _ HF Hp'). }
  split.
  - split; rewrite ?Hnp; try done; [by rewrite <- Hlen|..].
    + eapply prio_inv_ext; [exact H2|done| |].
      * intros i p _ Hp. destruct (Forall2_lookup_l _ _ _ _ _ HF Hp) as (p' & Hp' & Hso). exists p'.
        split_and!; [done|apply Hso|apply Hso].
      * intros i p' Hoff Hp'. destruct (Hlk i p' Hp') as (p & Hp & Hso). rewrite (so_next _ _ Hso).
        by eapply (pi_off _ _ H2).
    + intros i p' Hp'. destruct (Hlk i p' Hp') as (p & Hp & Hso). rewrite (so_live _ _ Hso). by apply H3.
    + intros i p' Hp'. destruct (Hlk i p' Hp') as (p & Hp & Hso). rewrite (so_pid _ _ Hso), (so_unused _ _ Hso). by apply (H4 i).
    + intros i j p' q' Hp' Hq'. destruct (Hlk i p' Hp') as (p & Hp & Hso), (Hlk j q' Hq') as (q & Hq & Hso').
      rewrite (so_pid _ _ Hso), (so_pid _ _ Hso'), (so_unused _ _ Hso), (so_unused _ _ Hso'). by apply (H5 i j).
    + intros i p' Hp'. destruct (Hlk i p' Hp') as (p & Hp & Hso).
      rewrite (so_pid _ _ Hso), (so_unused _ _ Hso). intros Hu.
      destruct (H6 i p Hp Hu) as [? Hpar]. split; [done|by apply (so_parent _ _ Hso)].
    + intros i p' Hp'. destruct (Hlk i p' Hp') as (p & Hp & Hso). rewrite (so_live _ _ Hso). intros Hl. rewrite (so_closed _ _ Hso Hl). by apply (Hcl i).
    + intros i p' Hp'. destruct (Hlk i p' Hp') as (p & Hp & Hso). rewrite (so_files _ _ Hso), (so_name _ _ Hso). by apply (H7 i).
  - eapply mem_inv_same; [exact Hm|]. eapply Forall2_impl; [exact HF|]. apply so_space.
  - intros i p' o Hp' Ho. destruct (Hlk i p' Hp') as (p & Hp & Hso). specialize (Hs i p o Hp Ho).
    case_bool_decide as Hu; case_bool_decide as Hu'; try done.
    + by apply (so_unused _ _ Hso) in Hu.
    + by apply (so_unused _ _ Hso) in Hu'.
Qed.

Lemma kinv_setp_soft t m l os ls i p q :
  kinv kend tramp t m l os ls -> pt_proc t !! i = Some p -> soft p q -> kinv kend tramp (setp t i q) m l os ls.
Proof.
  intros Hinv Hp Hso. eapply kinv_soft; [exact Hinv| |done|done].
  apply Forall2_same_length_lookup. split; [by rewrite length_setp|]. intros j r r' Hr Hr'.
  destruct (decide (i = j)) as [<-|Hne].
  - rewrite (lookup_setp _ _ _ _ Hp) in Hr'. by simplify_eq.
  - rewrite lookup_setp_ne in Hr' by done. by simplify_eq.
Qed.

Lemma kinv_map_soft t m l os ls g :
  kinv kend tramp t m l os ls -> (forall i p, soft p (g i p)) -> kinv kend tramp (map_slots g t) m l os ls.
Proof.
  intros Hinv Hg. eapply kinv_soft; [exact Hinv| |done|done].
  apply Forall2_same_length_lookup. split; [by rewrite length_map_slots|]. intros j r r' Hr Hr'.
  rewrite lookup_map_slots, Hr in Hr'. cbn in Hr'. by simplify_eq.
Qed.

End Soft.

(** ** [reparent] *)

Definition adopt (me : nat) (ini : option nat) (p : proc) : proc :=
  if bool_decide (p_parent p = Some me) then with_parent ini p else p.
Definition kid (me : nat) (p : proc) : bool := bool_decide (p_parent p = Some me).

(** A slot after the loop has passed [n] slots; [w] tells whether a child was met. *)
Definition reparented (me : nat) (ini : option nat) (n : nat) (w : bool) (i : nat) (p : proc) : proc :=
  let p' := if (i <? n)%nat then adopt me ini p else p in
  if w then woken me (ChProc <$> ini) i p' else p'.

Lemma soft_adopt me ini p : soft p (adopt me ini p).
Proof.
  unfold adopt. case_bool_decide as E; [|done]. destruct p; cbn in *. split; try done; cbn. by rewrite E.
Qed.
Lemma soft_reparented me ini n w i p : soft p (reparented me ini n w i p).
Proof.
  unfold reparented. transitivity (if (i <? n)%nat then adopt me ini p else p).
  - destruct (i <? n)%nat; [apply soft_adopt|done].
  - destruct w; [apply soft_woken|done].
Qed.

Lemma woken_idem me ch i p : woken me ch i (woken me ch i p) = woken me ch i p.
Proof.
  destruct (negb (bool_decide (i = me)) && bool_decide (p_state p = SLEEPING) && bool_decide (p_chan p = ch)) eqn:E;
    unfold woken; rewrite E; [|by rewrite E].
  rewrite (bool_decide_false (p_state (with_state RUNNABLE p) = SLEEPING)) by (by destruct p).
  by rewrite andb_false_r.
Qed.
Lemma woken_parent me ch i x p : woken me ch i (with_parent x p) = with_parent x (woken me ch i p).
Proof. unfold woken. destruct p; cbn. by destruct (negb _ && _ && _). Qed.
Lemma woken_keeps_files me ch i p : p_ofile (woken me ch i p) = p_ofile p /\ p_cwd (woken me ch i p) = p_cwd p.
Proof. unfold woken. destruct (negb _ && _ && _); by destruct p. Qed.
Lemma reparented_keeps_files me ini n w i p :
  p_ofile (reparented me ini n w i p) = p_ofile p /\ p_cwd (reparented me ini n w i p) = p_cwd p.
Proof.
  unfold reparented. destruct w; rewrite ?(proj1 (woken_keeps_files _ _ _ _)), ?(proj2 (woken_keeps_files _ _ _ _));
    (destruct (i <? n)%nat; [unfold adopt; case_bool_decide|]); by destruct p.
Qed.
Lemma woken_keeps_parent me ch i p : p_parent (woken me ch i p) = p_parent p.
Proof. unfold woken. destruct (negb _ && _ && _); by destruct p. Qed.

Lemma map_slots_ext g g' t :
  (forall i p, pt_proc t !! i = Some p -> g i p = g' i p) -> map_slots g t = map_slots g' t.
Proof.
  intros Hg. unfold map_slots. f_equal. apply list_eq. intros i. rewrite !list_lookup_imap.
  destruct (pt_proc t !! i) eqn:E; [|done]; cbn. f_equal. by apply Hg.
Qed.
Lemma map_slots_map g h t : map_slots h (map_slots g t) = map_slots (fun i p => h i (g i p)) t.
Proof.
  unfold map_slots, set_procs; cbn. f_equal. apply list_eq. intros i. rewrite !list_lookup_imap.
  by destruct (pt_proc t !! i).
Qed.
Lemma setp_map g t j q p :
  pt_proc t !! j = Some p -> setp (map_slots g t) j q = map_slots (fun i p => if decide (i = j) then q else g i p) t.
Proof.
  intros Hp. unfold setp, map_slots, set_procs; cbn. f_equal. apply list_eq. intros i. rewrite list_lookup_imap.
  destruct (decide (i = j)) as [->|Hne].
  - rewrite Hp. cbn. apply list_lookup_insert_eq. rewrite length_imap. by eapply lookup_lt_Some.
  - rewrite list_lookup_insert_ne, list_lookup_imap by done. by destruct (pt_proc t !! i).
Qed.

Section Reparent.
Context {F : Type} `{ProcFiles F}.
Implicit Types (t : ptable) (m : kmem) (z : F) (th : thread).

Lemma reparent_loop n j me th t m z :
  (j + n = NPROC)%nat -> length (pt_proc t) = NPROC -> only_own th -> me = th_proc th ->
  for_procs n j (fun pp =>
      let! q := gproc pp in
      if bool_decide (p_parent q = Some me) then
        let! k := get in
        uproc pp (with_parent (pt_initproc (k_pt k)));;;
        wakeup_proc (pt_initproc (k_pt k))
      else ret tt) th
    (mkKernel (map_slots (reparented me (pt_initproc t) j (existsb (kid me) (take j (pt_proc t)))) t) m z) =
  Ok tt th (mkKernel (map_slots (reparented me (pt_initproc t) NPROC (existsb (kid me) (pt_proc t))) t) m z).
Proof.
  revert j. induction n as [|n IH]; intros j Hn Hlen Hown Hme; cbn [for_procs].
  - assert (j = NPROC) as -> by lia. rewrite take_ge by lia. done.
  - destruct (lookup_lt_is_Some_2 (pt_proc t) j) as [p Hp]; [lia|].
    set (ini := pt_initproc t) in *. set (w := existsb (kid me) (take j (pt_proc t))) in *.
    assert (Hw : existsb (kid me) (take (S j) (pt_proc t)) = w || kid me p).
    { rewrite (take_S_r _ _ _ Hp), existsb_app. cbn. by rewrite orb_false_r. }
    set (q := reparented me ini j w j p).
    assert (Hq : pt_proc (map_slots (reparented me ini j w) t) !! j = Some q) by (by rewrite lookup_map_slots, Hp).
    assert (Eq : q = if w then woken me (ChProc <$> ini) j p else p).
    { unfold q, reparented. by rewrite (proj2 (Nat.ltb_ge j j)) by lia. }
    assert (Hpar : p_parent q = p_parent p) by (rewrite Eq; destruct w; [apply woken_keeps_parent|done]).
    rewrite bind_assoc, (bind_ok _ _ _ _ _ _ _ (gproc_ok _ _ _ _ _ _ Hq)), Hpar.
    specialize (IH (S j) ltac:(lia) Hlen Hown Hme). rewrite Hw in IH. case_bool_decide as Hkid.
    + rewrite bind_assoc, (bind_ok _ _ _ _ _ _ _ (eq_refl : get th _ = _)). cbn [k_pt].
      change (pt_initproc (map_slots (reparented me ini j w) t)) with ini.
      rewrite bind_assoc, (bind_ok _ _ _ _ _ _ _ (uproc_ok _ _ _ _ _ _ _ Hq)). unfold wakeup_proc.
      erewrite bind_ok by (apply wakeup_ok; [by rewrite length_setp, length_map_slots|done]).
      rewrite <- IH. do 2 f_equal. rewrite (setp_map _ _ _ _ _ Hp), map_slots_map. apply map_slots_ext.
      intros i r Hr. unfold kid. rewrite (bool_decide_true (p_parent p = Some me)), orb_true_r by done.
      unfold reparented. rewrite <- Hme. destruct (decide (i = j)) as [->|Hne].
      * rewrite (proj2 (Nat.ltb_lt j (S j))) by lia. simplify_eq. unfold adopt. rewrite bool_decide_true by done.
        rewrite Eq. destruct w; rewrite woken_parent, ?woken_idem, <- woken_parent; done.
      * replace (i <? S j)%nat with (i <? j)%nat by (destruct (Nat.ltb_spec i j), (Nat.ltb_spec i (S j)); lia || done).
        destruct w; [by rewrite woken_idem|done].
    + rewrite (bind_ok _ _ _ _ _ _ _ (eq_refl : ret tt th _ = _)). rewrite <- IH. do 2 f_equal.
      apply map_slots_ext. intros i r Hr. unfold kid. rewrite bool_decide_false, orb_false_r by done.
      unfold reparented. destruct (decide (i = j)) as [->|Hne].
      * simplify_eq. unfold adopt. rewrite bool_decide_false by done. by destruct (j <? j)%nat, (j <? S j)%nat.
      * by replace (i <? S j)%nat with (i <? j)%nat by (destruct (Nat.ltb_spec i j), (Nat.ltb_spec i (S j)); lia || done).
Qed.

End Reparent.

(** ** [exit] *)

(** ** Closing everything *)

(** What [exit] asks of the file layer: a reference that is held can be given back, and the
    count of references falls by one.  [file_refs] counts the references to an open file,
    [inode_refs] those to an inode that processes hold as their current directory. *)
Class ProcFilesClose (F : Type) `{ProcFiles F} := {
  fc_inv : F -> Prop;
  file_refs : F -> nat -> nat;
  inode_refs : F -> nat -> nat;
  fileclose_ok : forall f th s, fc_inv s -> (0 < file_refs s f)%nat -> th_held th = [] ->
    exists th' s', fileclose f th s = Ok tt th' s' /\ same_thread th th' /\ fc_inv s' /\
      (forall g, (file_refs s' g + (if decide (g = f) then 1 else 0) = file_refs s g)%nat) /\ (forall i, inode_refs s' i = inode_refs s i);
  drop_cwd_ok : forall i th s, fc_inv s -> (0 < inode_refs s i)%nat -> th_held th = [] ->
    exists th' s', (fs_begin_op;;; iput i;;; fs_end_op) th s = Ok tt th' s' /\ same_thread th th' /\ fc_inv s' /\
      (forall g, file_refs s' g = file_refs s g) /\ (forall j, (inode_refs s' j + (if decide (j = i) then 1 else 0) = inode_refs s j)%nat);
}.

(** The references to [f] in a table of descriptors. *)
Definition opens (ofs : list (option nat)) (f : nat) : nat := length (filter (fun o => o = Some f) ofs).

Lemma opens_cons o ofs f : opens (o :: ofs) f = ((if decide (o = Some f) then 1 else 0) + opens ofs f)%nat.
Proof. unfold opens. rewrite filter_cons. by destruct (decide _). Qed.

Section Close.
Context {F : Type} `{ProcFilesClose F}.
Implicit Types (t : ptable) (m : kmem) (z : F) (th : thread).

Lemma close_files_ok n : forall fd me q ofs th t m z,
  (fd + n = NOFILE)%nat -> (me < length (pt_proc t))%nat -> length ofs = n -> p_ofile q = replicate fd None ++ ofs ->
  fc_inv z -> (forall f, (opens ofs f <= file_refs z f)%nat) -> th_held th = [] ->
  exists th' z', close_files n fd me th (mkKernel (setp t me q) m z) =
      Ok tt th' (mkKernel (setp t me (with_ofile (replicate NOFILE None) q)) m z') /\ same_thread th th' /\ fc_inv z' /\
    (forall f, (file_refs z' f + opens ofs f = file_refs z f)%nat) /\ (forall i, inode_refs z' i = inode_refs z i).
Proof.
  induction n as [|n IH]; intros fd me q ofs th t m z Hn Hme Hlen Hq Hz Hrefs Hh; cbn [close_files].
  - destruct ofs; [|done]. rewrite app_nil_r in Hq. replace NOFILE with fd by lia. rewrite <- Hq.
    exists th, z. split; [destruct q; done|]. split_and!; try done.
  - destruct ofs as [|o ofs]; [done|]. rewrite (bind_ok _ _ _ _ _ _ _ (gproc_ok me q th (setp t me q) m z (lookup_setp_lt _ _ _ Hme))).
    assert (Ho : p_ofile q !! fd = Some o) by (rewrite Hq, lookup_app_r, length_replicate, Nat.sub_diag by (rewrite length_replicate; lia); done).
    rewrite Ho, (bind_ok _ _ _ _ _ _ _ (eq_refl : deref _ (Some o) th _ = Ok o th _)).
    assert (Hne : forall q', p_ofile q' = replicate fd None ++ None :: ofs -> p_ofile q' = replicate (S fd) None ++ ofs).
    { intros q' ->. change (None :: ofs) with ([None] ++ ofs). rewrite app_assoc, <- replicate_cons_app. done. }
    destruct o as [f|].
    + destruct (fileclose_ok f th z Hz) as (th1 & z1 & E1 & Hs1 & Hz1 & Hr1 & Hi1); [specialize (Hrefs f); rewrite opens_cons, decide_True in Hrefs by done; lia|done|].
      rewrite bind_assoc, (bind_ok _ _ _ _ _ _ _ (fs_op_ok _ _ _ _ _ _ _ _ E1)), (bind_ok _ _ _ _ _ _ _ (uproc_setp _ _ _ _ _ _ _ Hme)).
      set (q1 := with_ofile (<[fd := None]> (p_ofile q)) q).
      destruct (IH (S fd) me q1 ofs th1 t m z1) as (th' & z' & E & Hs & Hz' & Hr & Hi); [lia|done|by injection Hlen| |done| |by rewrite (proj1 Hs1)|].
      * apply Hne. unfold q1. transitivity (<[fd := None]> (p_ofile q)); [by destruct q|]. rewrite Hq.
        rewrite insert_app_r_alt by (rewrite length_replicate; lia). by rewrite length_replicate, Nat.sub_diag.
      * intros g. specialize (Hrefs g). specialize (Hr1 g). rewrite opens_cons in Hrefs. destruct (decide (g = f)), (decide (Some f = Some g)); simplify_eq; lia.
      * exists th', z'. split; [rewrite E; by destruct q|]. split_and!; [by transitivity th1|done| |intros i; by rewrite Hi].
        intros g. specialize (Hr g). specialize (Hr1 g). rewrite opens_cons. destruct (decide (g = f)), (decide (Some f = Some g)); simplify_eq; lia.
    + rewrite (bind_ok _ _ _ _ _ _ _ (eq_refl : ret tt th _ = Ok tt th _)).
      destruct (IH (S fd) me q ofs th t m z) as (th' & z' & E & Hs & Hz' & Hr & Hi); [lia|done|by injection Hlen|by apply Hne|done| |done|].
      * intros g. specialize (Hrefs g). rewrite opens_cons, decide_False in Hrefs by done. lia.
      * exists th', z'. by split_and!.
Qed.

Lemma drop_cwd_run i th (t : ptable) m z me q (k : unit -> M (kernel F) unit) :
  (me < length (pt_proc t))%nat -> p_cwd q = Some i -> fc_inv z -> (0 < inode_refs z i)%nat -> th_held th = [] ->
  exists th' z', (fs_op fs_begin_op;;; (let! pp := gproc me in let! cwd := deref "null cwd" (p_cwd pp) in fs_op (iput cwd);;; fs_op fs_end_op;;; k tt))
      th (mkKernel (setp t me q) m z) = k tt th' (mkKernel (setp t me q) m z') /\ same_thread th th' /\ fc_inv z' /\
    (forall g, file_refs z' g = file_refs z g) /\ (forall j, (inode_refs z' j + (if decide (j = i) then 1 else 0) = inode_refs z j)%nat).
Proof.
  intros Hme Hq Hz Hr Hh. destruct (drop_cwd_ok i th z Hz Hr Hh) as (th' & z' & E & Hrest). exists th', z'. split; [|exact Hrest].
  apply bind_inv in E as ([] & th1 & z1 & E1 & E). apply bind_inv in E as ([] & th2 & z2 & E2 & E3).
  rewrite (bind_ok _ _ _ _ _ _ _ (fs_op_ok _ _ _ _ _ _ _ _ E1)), (bind_ok _ _ _ _ _ _ _ (gproc_ok me q th1 _ m z1 (lookup_setp_lt _ _ _ Hme))), Hq.
  rewrite (bind_ok _ _ _ _ _ _ _ (eq_refl : deref _ (Some i) th1 _ = Ok i th1 _)).
  by rewrite (bind_ok _ _ _ _ _ _ _ (fs_op_ok _ _ _ _ _ _ _ _ E2)), (bind_ok _ _ _ _ _ _ _ (fs_op_ok _ _ _ _ _ _ _ _ E3)).
Qed.
End Close.

Section Exit.
Context {F : Type} `{ProcFiles F}.
Variables kend tramp : Z.
Variable fuel : nat.
Hypothesis fuel_ok : (NPROC <= fuel)%nat.
Notation kinv := (kinv kend tramp).
Implicit Types (t : ptable) (m : kmem) (z : F) (th : thread).

Lemma reparent_ok th t m z :
  length (pt_proc t) = NPROC -> only_own th ->
  reparent (th_proc th) th (mkKernel t m z) =
  Ok tt th (mkKernel (map_slots (reparented (th_proc th) (pt_initproc t) NPROC
                       (existsb (kid (th_proc th)) (pt_proc t))) t) m z).
Proof.
  intros Hlen Hown. rewrite <- (reparent_loop NPROC 0) by done. unfold reparent. f_equal.
  assert (E : map_slots (reparented (th_proc th) (pt_initproc t) 0 (existsb (kid (th_proc th)) (take 0 (pt_proc t)))) t = t).
  { transitivity (map_slots (fun _ p => p) t); [by apply map_slots_ext|].
    unfold map_slots, set_procs. destruct t as [ps c n i]; cbn. f_equal. apply list_eq. intros j.
    rewrite list_lookup_imap. by destruct (ps !! j). }
  by rewrite E.
Qed.

Lemma on_list_remove t ls k l1 i l2 j :
  prio_inv t ls -> ls !! k = Some (l1 ++ i :: l2) ->
  on_list (<[k := l1 ++ l2]> ls) j <-> on_list ls j /\ j <> i.
Proof.
  intros Hpr Hk. pose proof (pi_nodup _ _ Hpr k _ Hk) as Hnd. apply NoDup_app in Hnd as (_ & Hd & Hnd).
  apply NoDup_cons in Hnd as [Hni _]. split.
  - intros (k' & l & Hl & Hj). destruct (decide (k = k')) as [<-|Hne].
    + rewrite (lookup_insert_Some_eq _ _ _ _ Hk) in Hl. simplify_eq. split.
      * exists k, (l1 ++ i :: l2). split; [done|]. set_solver.
      * intros ->. apply elem_of_app in Hj as [Hj|Hj]; [|done]. by apply (Hd i Hj); left.
    + rewrite list_lookup_insert_ne in Hl by done. split; [by exists k', l|]. intros ->.
      apply Hne. eapply (lists_disjoint _ _ _ _ _ _ i Hpr Hk Hl); [set_solver|done].
  - intros [(k' & l & Hl & Hj) Hne]. destruct (decide (k = k')) as [<-|Hne'].
    + simplify_eq. exists k, (l1 ++ l2). rewrite (lookup_insert_Some_eq _ _ _ _ Hk). split; [done|]. set_solver.
    + exists k', l. by rewrite list_lookup_insert_ne.
Qed.

(** A live process leaves its list and becomes a zombie. *)
Lemma kinv_zombie t m l os ls i q th status :
  kinv t m l os ls -> pt_proc t !! i = Some q -> live q -> p_ofile q = replicate NOFILE None ->
  LkPriority ∉ th_held th ->
  exists t' ls' n, dequeue_exiting fuel i th (setp t i (with_state ZOMBIE (with_xstate status q))) = Ok tt th t' /\
    kinv t' m l os ls' /\ pt_proc t' !! i = Some (with_next n (with_state ZOMBIE (with_xstate status q))) /\
    relinked (setp t i (with_state ZOMBIE (with_xstate status q))) t'.
Proof.
  intros [Ht Hm Hs] Hq Hlive Hof Hlk. set (q' := with_state ZOMBIE (with_xstate status q)).
  pose proof (proj2 (ti_on _ _ Ht _ _ Hq) Hlive) as (k & lk & Hk & Hin). apply list_elem_of_split in Hin as (l1 & l2 & ->).
  assert (Hpr : prio_inv (setp t i q') ls) by (eapply prio_inv_setp; [apply Ht|exact Hq|by destruct q|by destruct q]).
  destruct (dequeue_ok (setp t i q') ls i k l1 l2 th fuel Hpr Hk) as (t' & E & Hpr' & Hrel); [|done|].
  { rewrite length_setp, (ti_len _ _ Ht). done. }
  destruct (relinked_lookup _ _ i q' Hrel) as (n & Hq' & _); [by eapply lookup_setp|].
  exists t', (<[k := l1 ++ l2]> ls), n. split_and!; try done. pose proof (ti_files _ _ Ht i q Hq) as [Hf1 Hf2].
  split.
  - eapply (table_inv_setp t ls _ i q q' t' (pt_nextpid t)); try done.
    + intros j Hj. rewrite (on_list_remove t ls k l1 i l2 j (ti_prio _ _ Ht) Hk). tauto.
    + rewrite (on_list_remove t ls k l1 i l2 i (ti_prio _ _ Ht) Hk). unfold live, q'. destruct q; cbn. tauto.
    + intros _. destruct Hlive as [Hl1 Hl2]. pose proof (ti_pid _ _ Ht i q Hq Hl1).
      replace (p_pid q') with (p_pid q) by (by destruct q). split; [lia|]. intros j r Hj Hr Hrs E'. apply Hj.
      by eapply (ti_uniq _ _ Ht).
    + unfold q'. by destruct q.
    + by destruct q.
    + by destruct q.
    + by destruct q.
  - eapply mem_inv_same; [|apply relinked_same_space; exact Hrel]. eapply mem_inv_set; [exact Hm|exact Hq|by destruct q].
  - intros j r o Hr Ho. destruct (relinked_lookup_inv _ _ _ _ Hrel Hr) as (r0 & Hr0 & ->).
    destruct (decide (i = j)) as [<-|Hne].
    + rewrite (lookup_setp _ _ _ _ Hq) in Hr0. injection Hr0 as <-. specialize (Hs i q o Hq Ho).
      rewrite bool_decide_false in Hs by apply Hlive. by rewrite bool_decide_false by (by destruct q).
    + rewrite lookup_setp_ne in Hr0 by done. exact (Hs j r0 o Hr0 Ho).
Qed.

(** What [exit] does to the slot [i] of another process: a child goes to the init
    process, and a sleeper may be woken. *)
Record bystander (me : nat) (ini : option nat) (p p' : proc) : Prop := mkBystander {
  by_parent : p_parent p' = if bool_decide (p_parent p = Some me) then ini else p_parent p;
  by_pid : p_pid p' = p_pid p;
  by_state : p_state p' = p_state p \/ (p_state p = SLEEPING /\ p_state p' = RUNNABLE);
}.

Lemma bystander_woken me ch ini n w i p x :
  let p1 := woken me ch i (reparented me ini n w i p) in
  (i < n)%nat -> bystander me ini p (with_next x p1).
Proof.
  intros p1 Hi. unfold p1, reparented. rewrite (proj2 (Nat.ltb_lt i n) Hi).
  assert (Ha : forall q, bystander me ini q (adopt me ini q)).
  { intros q. unfold adopt. split; [|by case_bool_decide; destruct q|left; by case_bool_decide; destruct q].
    case_bool_decide; [by destruct q|done]. }
  assert (Hw : forall c q q', bystander me ini q q' -> bystander me ini q (woken me c i q')).
  { intros c q q' [B1 B2 B3]. unfold woken. destruct (negb _ && bool_decide (p_state q' = SLEEPING) && _) eqn:E; [|done].
    apply andb_true_iff in E as [[_ E%bool_decide_eq_true]%andb_true_iff _].
    split; [by destruct q'|by destruct q'|]. right. split; [|by destruct q']. destruct B3 as [<-|[? B]]; [done|congruence]. }
  assert (Hn : forall q q', bystander me ini q q' -> bystander me ini q (with_next x q')) by (by intros q q' [B1 B2 B3]; split).
  apply Hn, Hw. destruct w; [by apply Hw, Ha|apply Ha].
Qed.

(** A process asleep on its own slot, in [wait], is runnable after the two wakeups. *)
Lemma sleeper_woken me ini n w i p x :
  i <> me -> p_state p = SLEEPING -> p_chan p = Some (ChProc i) ->
  p_state (with_next x (woken me (ChProc <$> Some i) i (reparented me ini n w i p))) = RUNNABLE.
Proof.
  intros Hi Hs Hc.
  assert (Hw : forall q, p_state q = RUNNABLE \/ (p_state q = SLEEPING /\ p_chan q = Some (ChProc i)) ->
     p_state (woken me (Some (ChProc i)) i q) = RUNNABLE).
  { intros q Hq. unfold woken. rewrite (bool_decide_false (i = me)) by done. cbn.
    destruct Hq as [Hq|[Hq1 Hq2]].
    - by rewrite (bool_decide_false (p_state q = SLEEPING)) by congruence.
    - rewrite !bool_decide_true by done. by destruct q. }
  cbn. apply Hw. unfold reparented.
  assert (Ha : p_state (if (i <? n)%nat then adopt me ini p else p) = SLEEPING /\
      p_chan (if (i <? n)%nat then adopt me ini p else p) = Some (ChProc i)).
  { unfold adopt. destruct (i <? n)%nat; [|done]. case_bool_decide; [by destruct p|done]. }
  destruct Ha as [Ha1 Ha2]. destruct w; [|by right]. unfold woken.
  destruct (negb _ && _ && _); [left; by destruct (if (i <? n)%nat then _ else _)|by right].
Qed.

Lemma exit_zombie_ok th t m z l os ls pp status :
  kinv t m l os ls -> th_held th = [] -> pt_proc t !! th_proc th = Some pp -> live pp ->
  p_parent pp <> Some (th_proc th) -> p_ofile pp = replicate NOFILE None ->
  exists t' ls' q, exit_zombie fuel (th_proc th) status th (mkKernel t m z) =
      Ok tt (set_held [LkProc (th_proc th)] th) (mkKernel t' m z) /\
    kinv t' m l os ls' /\ pt_proc t' !! th_proc th = Some q /\
    p_state q = ZOMBIE /\ p_xstate q = status /\ p_pid q = p_pid pp /\
    p_ofile q = p_ofile pp /\ p_cwd q = p_cwd pp /\ ~ on_list ls' (th_proc th) /\
    (forall i p, i <> th_proc th -> pt_proc t !! i = Some p -> exists p', pt_proc t' !! i = Some p' /\
       bystander (th_proc th) (pt_initproc t) p p' /\
       (p_parent pp = Some i -> p_state p = SLEEPING -> p_chan p = Some (ChProc i) -> p_state p' = RUNNABLE)).
Proof.
  intros Hinv Hh Hpp Hlive Hself Hof. set (me := th_proc th) in *. pose proof (ti_len _ _ (ki_table _ _ _ _ _ _ _ Hinv)) as Hlen.
  unfold exit_zombie. rewrite (bind_ok _ _ _ _ _ _ _ (acquire_only _ th _ Hh)). set (th1 := set_held [LkWait] th).
  assert (Hown : only_own th1) by (by intros i ?%list_elem_of_singleton).
  rewrite (bind_ok _ _ _ _ _ _ _ (reparent_ok th1 t m z Hlen Hown)). change (th_proc th1) with me.
  set (w := existsb (kid me) (pt_proc t)). set (t1 := map_slots (reparented me (pt_initproc t) NPROC w) t).
  set (q1 := reparented me (pt_initproc t) NPROC w me pp).
  assert (Hq1 : pt_proc t1 !! me = Some q1) by (unfold t1; by rewrite lookup_map_slots, Hpp).
  assert (Hpar : p_parent q1 = p_parent pp).
  { unfold q1, reparented. destruct (me <? NPROC)%nat; unfold adopt; rewrite ?bool_decide_false by done;
      destruct w; rewrite ?woken_keeps_parent; done. }
  rewrite (bind_ok _ _ _ _ _ _ _ (gproc_ok _ _ _ _ _ _ Hq1)), Hpar. unfold wakeup_proc.
  assert (Hlen1 : length (pt_proc t1) = NPROC) by (unfold t1; by rewrite length_map_slots).
  rewrite (bind_ok _ _ _ _ _ _ _ (wakeup_ok (ChProc <$> p_parent pp) th1 t1 m z Hlen1 Hown)). change (th_proc th1) with me.
  set (t2 := map_slots (woken me (ChProc <$> p_parent pp)) t1).
  set (q2 := woken me (ChProc <$> p_parent pp) me q1).
  assert (Hq2 : pt_proc t2 !! me = Some q2) by (unfold t2; by rewrite lookup_map_slots, Hq1).
  assert (Hinv2 : kinv t2 m l os ls).
  { apply kinv_map_soft; [|intros; apply soft_woken]. apply kinv_map_soft; [done|intros; apply soft_reparented]. }
  assert (Hofc : p_ofile q2 = p_ofile pp /\ p_cwd q2 = p_cwd pp).
  { unfold q2, q1. rewrite !(proj1 (woken_keeps_files _ _ _ _)), !(proj2 (woken_keeps_files _ _ _ _)). apply reparented_keeps_files. }
  destruct Hofc as [Hofc Hcwc].
  assert (Hso : soft pp q2) by (transitivity q1; [apply soft_reparented|apply soft_woken]).
  rewrite (bind_ok _ _ _ _ _ _ _ (acquire_ok (LkProc me) th1 _ ltac:(by intros ?%list_elem_of_singleton))).
  set (th2 := set_held (LkProc me :: th_held th1) th1). pose proof (lookup_lt_Some _ _ _ Hq2) as Hlt.
  rewrite (bind_ok _ _ _ _ _ _ _ (uproc_ok _ _ _ _ _ _ _ Hq2)), (bind_ok _ _ _ _ _ _ _ (uproc_setp _ _ _ _ _ _ _ Hlt)).
  destruct (kinv_zombie t2 m l os ls me q2 th2 status Hinv2 Hq2) as (t' & ls' & n & E & Hinv' & Hq' & Hrel).
  { by apply (so_live _ _ Hso). }
  { by rewrite Hofc. }
  { cbn. set_solver. }
  rewrite (bind_ok _ _ _ _ _ _ _ (pt_op_ok _ _ _ _ _ _ _ _ E)).
  assert (Hr : forall s : kernel F, release LkWait th2 s = Ok tt (set_held [LkProc me] th) s).
  { intros s. unfold release. rewrite bool_decide_true by (cbn; set_solver). done. }
  rewrite (bind_ok _ _ _ _ _ _ _ (Hr _)).
  exists t', ls', (with_next n (with_state ZOMBIE (with_xstate status q2))). split_and!; try done.
  - by apply (sched_ok (set_held [LkProc me] th) t' m z _ eq_refl Hq'); destruct q2.
  - by destruct q2.
  - by destruct q2.
  - rewrite <- (so_pid _ _ Hso). by destruct q2.
  - rewrite <- Hofc. by destruct q2.
  - rewrite <- Hcwc. by destruct q2.
  - rewrite (ti_on _ _ (ki_table _ _ _ _ _ _ _ Hinv') me _ Hq'). intros [_ Hz]. apply Hz. by destruct q2.
  - intros i p Hi Hp. pose proof (lookup_lt_Some _ _ _ Hp) as Hil.
    assert (Hp2 : pt_proc (setp t2 me (with_state ZOMBIE (with_xstate status q2))) !! i =
        Some (woken me (ChProc <$> p_parent pp) i (reparented me (pt_initproc t) NPROC w i p))).
    { rewrite lookup_setp_ne by done. unfold t2, t1. by rewrite !lookup_map_slots, Hp. }
    destruct (relinked_lookup _ _ i _ Hrel Hp2) as (n' & Hp' & _). eexists. split; [exact Hp'|]. split.
    + apply bystander_woken. lia.
    + intros Epar Esl Ech. rewrite Epar. by apply sleeper_woken.
Qed.

End Exit.

Section ExitAll.
Context {F : Type} `{ProcFilesClose F}.
Variables kend tramp : Z.
Variable fuel : nat.
Hypothesis fuel_ok : (NPROC <= fuel)%nat.
Notation kinv := (kinv kend tramp).
Implicit Types (t : ptable) (m : kmem) (z : F) (th : thread).

(** The references a process holds. *)
Definition holds_refs (z : F) (pp : proc) (cwd : nat) : Prop :=
  (forall f, (opens (p_ofile pp) f <= file_refs z f)%nat) /\ p_cwd pp = Some cwd /\ (0 < inode_refs z cwd)%nat.

End ExitAll.

(** ** [kill] *)

Section Kill.
Context {F : Type} `{ProcFiles F}.
Variables kend tramp : Z.

(** [kill(pid)] marks exactly the process with that pid.  For a pid other than 0 it
    returns 0 when a process in use has the pid: that process, and no other, is marked
    killed and, if it was asleep, is runnable; it returns -1 and changes nothing when no
    process has the pid.  No lock is left held and the invariants hold. *)
Theorem kill_marks_one pid th t m (z : F) l os ls :
  kinv kend tramp t m l os ls -> th_held th = [] -> pid <> 0 ->
  (exists j p, let p' := if bool_decide (p_state p = SLEEPING) then with_state RUNNABLE (with_killed 1 p) else with_killed 1 p in
     kill pid th (mkKernel t m z) = Ok 0 th (mkKernel (setp t j p') m z) /\
     kinv kend tramp (setp t j p') m l os ls /\
     pt_proc t !! j = Some p /\ p_pid p = pid /\ p_state p <> UNUSED /\
     (forall i q, pt_proc t !! i = Some q -> p_pid q = pid -> i = j)) \/
  (kill pid th (mkKernel t m z) = Ok (-1) th (mkKernel t m z) /\
     forall i q, pt_proc t !! i = Some q -> p_pid q <> pid).
Proof.
  intros Hinv Hh Hpid. pose proof (ki_table _ _ _ _ _ _ _ Hinv) as Ht.
  assert (Hused : forall i q, pt_proc t !! i = Some q -> p_pid q = pid -> p_state q <> UNUSED).
  { intros i q Hq Hp Hu. destruct (ti_unused _ _ Ht i q Hq Hu) as [Hp0 _]. congruence. }
  destruct (kill_loop_ok NPROC 0 pid th t m z (ti_len _ _ Ht)) as [(j & p & E & Hp & Hpp & _)|[E Hno]].
  { intros j. rewrite Hh. apply not_elem_of_nil. }
  - left. exists j, p. split_and!; try done; [|by eapply Hused|].
    + eapply kinv_setp_soft; [exact Hinv|exact Hp|]. case_bool_decide as Hs; [|apply soft_killed].
      transitivity (with_killed 1 p); [apply soft_killed|]. apply soft_state; [|done|done].
      split; destruct p; cbn in *; by rewrite Hs.
    + intros i q Hq Hqp. eapply (ti_uniq _ _ Ht i j); try done; [by eapply Hused|by eapply Hused|congruence].
  - right. split; [done|]. intros i q Hq. apply (Hno i q); [lia|done].
Qed.

End Kill.

#[local] Existing Instance no_files.

(** ** A file layer that only counts *)

Record refcounts := mkRefs { rc_file : nat -> nat; rc_inode : nat -> nat }.

Definition counting_files : ProcFiles refcounts := {|
  filedup f := modify (fun s => mkRefs (fun g => if decide (g = f) then S (rc_file s g) else rc_file s g) (rc_inode s));;; ret f;
  fileclose f := let! s := get in
    if (rc_file s f =? 0)%nat then panic "fileclose"
    else put (mkRefs (fun g => if decide (g = f) then pred (rc_file s g) else rc_file s g) (rc_inode s));
  idup i := modify (fun s => mkRefs (rc_file s) (fun j => if decide (j = i) then S (rc_inode s j) else rc_inode s j));;; ret i;
  iput i := modify (fun s => mkRefs (rc_file s) (fun j => if decide (j = i) then pred (rc_inode s j) else rc_inode s j));
  fs_begin_op := ret tt;
  fs_end_op := ret tt;
  namei_root := ret (Some 0%nat);
  fsinit _ := ret tt;
|}.

Definition counting_close : @ProcFilesClose refcounts counting_files.
Proof.
  refine {| fc_inv := fun _ => True; file_refs := rc_file; inode_refs := rc_inode |}.
  - intros f th s _ Hpos _. unfold fileclose, counting_files, bind, get, put. destruct (Nat.eqb_spec (rc_file s f) 0); [lia|].
    eexists _, _. split; [reflexivity|]. split; [done|]. split; [done|]. split; [|done]. intros g. cbn. destruct (decide (g = f)) as [->|]; lia.
  - intros i th s _ Hpos _. eexists _, _. split; [reflexivity|]. split; [done|]. split; [done|]. split; [done|].
    intros j. cbn. destruct (decide (j = i)) as [->|]; lia.
Defined.


Lemma kill_marks_one_witness :
  exists t m me r t', kill 1 (idle me) (mkKernel t m tt) = Ok r (idle me) (mkKernel t' m tt).
Proof.
  destruct one_process as (t & m & l & os & ls & me & pp & Hinv & _).
  destruct (kill_marks_one KERNBASE KERNBASE 1 (idle me) t m tt l os ls) as [(j & p & E & _)|[E _]].
  - exact Hinv.
  - reflexivity.
  - discriminate.
  - eexists t, m, me, 0, _. exact E.
  - exists t, m, me, (-1), t. exact E.
Defined.
