(* ===== verification/ProcWait.v ===== *)
(** * [wait] (kernel/proc.c)

    The scan for a zombie child, the delivery of its exit status into user memory, the
    reclaiming of everything the child owned, and going to sleep when there is nothing
    to reap. *)

From S2P Require Import Prelude Layout Memory Kalloc Vm VmMap VmUser VmFree VmLife VmFork VmCopy.
From S2P Require Import Priority Proc ProcOps ProcMem ProcLife ProcExit.

Lemma mget_stn_in n m a v i : 0 <= i < Z.of_nat n -> mget (stn n m a v) (a + i) = (v / 256 ^ i) mod 256.
Proof.
  revert m a v i. induction n as [|n IH]; intros m a v i Hi; [lia|].
  change (stn (S n) m a v) with (stn n (mset m a v) (a + 1) (v / 256)).
  destruct (Z.eq_dec i 0) as [->|Hne].
  - rewrite Z.add_0_r, mget_stn_out by lia. rewrite mget_mset, Z.eqb_refl, Z.div_1_r. done.
  - replace (a + i) with (a + 1 + (i - 1)) by lia. rewrite IH by lia.
    rewrite Z.div_div by (try apply Z.pow_pos_nonneg; lia). do 2 f_equal.
    replace i with (1 + (i - 1)) at 2 by lia. rewrite Z.pow_add_r by lia. done.
Qed.

Section ProcWait.
Context {F : Type} `{ProcFiles F}.
Variable kend : Z.
Hypothesis kend_ok : KERNBASE <= kend <= PHYSTOP.
Variable tramp : Z.
Hypothesis tramp_ok : frame_addr tramp.
(** The process table lies in the kernel's data, below the allocator's memory. *)
Variable xstate_addr : nat -> Z.
Hypothesis xstate_low : forall i, xstate_addr i + 4 <= kend.

Notation kinv := (kinv kend tramp).
Notation mem_inv := (mem_inv kend tramp).
Implicit Types (t : ptable) (m : kmem) (z : F) (th : thread).

(** [copyout] of a kernel word by a process keeps everybody's memory in order. *)
Lemma deliver_ok th m l ps os me pp own A fs src v addr :
  mem_inv m l ps os -> ps !! me = Some pp -> os !! me = Some (Full own A fs) -> src + 4 <= kend -> is_u64 addr ->
  exists r m', copyout (p_pagetable pp) addr src 4 th (set_mem (st32 (km_mem m) src v) m) = Ok r th m' /\
    mem_inv m' l ps os /\ (r = 0 \/ r = -1) /\
    (r = 0 -> forall i, 0 <= i < 4 -> exists pa f, uaddr A can_write (addr + i) = Some pa /\
       f ∈ fs /\ in_page f pa /\ mget (km_mem m') pa = (v / 256 ^ i) mod 256).
Proof.
  intros Hinv Hpp Ho Hlow Haddr. set (m1 := set_mem (st32 (km_mem m) src v) m).
  assert (Hinv1 : mem_inv m1 l ps os).
  { apply mem_inv_low_write; try done. intros a Ha. rewrite mget_stn_out by lia. done. }
  destruct (mi_slot _ _ _ _ _ _ _ _ Hinv1 Hpp) as (o & Ho' & Hok). simplify_eq.
  destruct Hok as (Htf & Hsz & [Hps Hs0 Hlen]).
  assert (Hum : umem kend m1 l (p_pagetable pp) own A)
    by (eapply (proc_space_umem kend); [exact Hps|done|by apply (page_ok_frame kend kend_ok)]).
  destruct (copyout_loop_ok kend kend_ok (Z.to_nat 4) addr src 4 th m1 l (p_pagetable pp) own A Hum)
    as (r & k & m' & E & Hum' & Hk & Hst & Hr).
  { eapply (low_kbuf kend); [exact Hum|done]. }
  { done. }
  { done. }
  exists r, m'. split; [done|].
  assert (Hfr : forall va pa, uaddr A can_write va = Some pa -> exists f, f ∈ fs /\ in_page f pa).
  { intros va pa (w & Hw & Hc & Hin)%uaddr_in_frame. apply can_write_U in Hc.
    destruct (proc_space_user kend tramp _ _ _ _ _ _ _ _ _ Hps tramp_ok (page_ok_frame kend kend_ok _ Htf) Hw Hc)
      as (i & f & _ & Hf & <-). exists (PTE2PA w). split; [by eapply list_elem_of_lookup_2|done]. }
  split_and!; [|by destruct Hr as [[-> _]|(-> & _)]; auto|].
  - assert (Em : m' = set_mem (km_mem m') m1).
    { pose proof (vi_km _ _ _ _ _ _ (um_vm _ _ _ _ _ _ Hum')) as (Hf' & _).
      pose proof (mi_km _ _ _ _ _ _ Hinv1) as (Hf1 & _). destruct m' as [mm fl]. unfold set_mem; cbn in *. f_equal.
      destruct l; [by rewrite Hf', Hf1|]. destruct Hf' as [-> _], Hf1 as [-> _]. done. }
    rewrite Em. apply mem_inv_data; try done. intros x a Hx Ha. apply (sd_other _ _ _ _ _ _ Hst). intros i Hi Hua.
    destruct (Hfr _ _ Hua) as (f & Hf & Hin).
    by eapply (data_page_apart kend kend_ok tramp tramp_ok m1) with (y := f); [exact Hinv1|exact Hpp|exact Ho|right|exact Hx|exact Ha|].
  - intros -> i Hi. destruct Hr as [[_ ->]|[? _]]; [|done].
    destruct (sd_bytes _ _ _ _ _ _ Hst i Hi) as (pa & Hpa & Hb). destruct (Hfr _ _ Hpa) as (f & Hf & Hin).
    exists pa, f. split_and!; try done. rewrite Hb. by apply mget_stn_in.
Qed.

(** The exit status [v], as the four bytes at the user address [addr]. *)
Definition status_at (m : kmem) (A : gmap Z Z) (addr v : Z) : Prop :=
  forall i, 0 <= i < 4 -> exists pa, uaddr A can_write (addr + i) = Some pa /\ mget (km_mem m) pa = (v / 256 ^ i) mod 256.

(** A zombie's slot becomes free. *)
Lemma kinv_reaped t m l os ls j q m' l' :
  kinv t m l os ls -> pt_proc t !! j = Some q -> p_state q = ZOMBIE ->
  mem_inv m' l' (pt_proc (setp t j (freed q))) (<[j := Empty]> os) ->
  kinv (setp t j (freed q)) m' l' (<[j := Empty]> os) ls.
Proof.
  intros [Ht Hm Hs] Hq Hz Hm'. pose proof (ti_files _ _ Ht j q Hq) as [Hf1 Hf2].
  assert (Hnl : ~ live q) by (by intros [_ ?]). pose proof (ti_closed _ _ Ht j q Hq Hnl) as Hof.
  assert (Hoff : ~ on_list ls j) by (by rewrite (ti_on _ _ Ht j q Hq)).
  split; [|done|].
  - eapply (table_inv_setp t ls ls j q (freed q) _ (pt_nextpid t)); try done.
    + eapply (prio_inv_setp _ _ j q); [apply Ht|done|done|done].
    + split; [tauto|]. by intros [? _].
    + cbn. by rewrite length_insert.
  - intros i p o Hp Ho. destruct (mi_slot _ _ _ _ _ _ _ _ Hm Hq) as (o0 & Ho0 & _).
    destruct (decide (j = i)) as [<-|Hne].
    + rewrite (lookup_setp _ _ _ _ Hq) in Hp. rewrite (lookup_insert_Some_eq _ _ _ _ Ho0) in Ho. by simplify_eq.
    + rewrite lookup_setp_ne in Hp by done. rewrite list_lookup_insert_ne in Ho by done. by apply (Hs i).
Qed.

Lemma kinv_mem t m l os ls m' : kinv t m l os ls -> mem_inv m' l (pt_proc t) os -> kinv t m' l os ls.
Proof. intros [Ht _ Hs] Hm. by split. Qed.

Lemma wait_reap_ok th t m z l os ls me pp own A fs j q addr :
  kinv t m l os ls -> th_held th = [] -> pt_proc t !! me = Some pp -> live pp -> os !! me = Some (Full own A fs) ->
  pt_proc t !! j = Some q -> p_state q = ZOMBIE -> is_u64 addr ->
  exists r t' m' l' os', wait_reap kend xstate_addr j me q addr (set_held [LkProc j; LkWait] th) (mkKernel t m z) =
      Ok r th (mkKernel t' m' z) /\ kinv t' m' l' os' ls /\
    all_pages l' (pt_proc t') os' ≡ₚ all_pages l (pt_proc t) os /\
    ((r = p_pid q /\ t' = setp t j (freed q) /\ os' = <[j := Empty]> os /\ (addr <> 0 -> status_at m' A addr (p_xstate q))) \/
     (r = -1 /\ t' = t /\ os' = os /\ addr <> 0)).
Proof.
  intros Hinv Hh Hpp Hlive Hme Hq Hz Haddr. pose proof (ki_mem _ _ _ _ _ _ _ Hinv) as Hm.
  assert (Hne : me <> j) by (intros ->; simplify_eq; by destruct Hlive).
  set (th2 := set_held [LkProc j; LkWait] th). unfold wait_reap.
  rewrite (bind_ok _ _ _ _ _ _ _ (gproc_ok _ _ _ _ _ _ Hpp)). cbv zeta.
  assert (Hr2 : forall (s : kernel F) v, (release (LkProc j);;; release LkWait;;; ret v) th2 s = Ok (v : Z) th s).
  { intros s v. assert (E1 : release (LkProc j) th2 s = Ok tt (set_held [LkWait] th) s).
    { refine (release_ok (LkProc j) [LkWait] th2 s eq_refl _). by intros ?%list_elem_of_singleton. }
    rewrite (bind_ok _ _ _ _ _ _ _ E1). by rewrite (bind_ok _ _ _ _ _ _ _ (release_only _ th _ Hh)). }
  assert (Hcopy : exists c m1, (if ctrue addr then
       mem_op (modify (fun s => set_mem (st32 (km_mem s) (xstate_addr j) (p_xstate q)) s));;;
       mem_op (copyout (p_pagetable pp) addr (xstate_addr j) 4) else ret 0) th2 (mkKernel t m z) = Ok c th2 (mkKernel t m1 z) /\
     mem_inv m1 l (pt_proc t) os /\ (c = 0 \/ (c = -1 /\ ctrue addr = true)) /\
     (c = 0 -> ctrue addr = true -> forall i, 0 <= i < 4 -> exists pa f, uaddr A can_write (addr + i) = Some pa /\
       f ∈ fs /\ in_page f pa /\ mget (km_mem m1) pa = (p_xstate q / 256 ^ i) mod 256)).
  { destruct (ctrue addr) eqn:Ea; [|exists 0, m; split_and!; try done; by left].
    destruct (deliver_ok th2 m l (pt_proc t) os me pp own A fs (xstate_addr j) (p_xstate q) addr Hm Hpp Hme (xstate_low j) Haddr)
      as (c & m1 & E & Hm1 & Hc & Hb).
    exists c, m1. split_and!; try done; [|destruct Hc; auto|intros Hc0 _; by apply Hb].
    rewrite (bind_ok _ _ _ _ _ _ _ (mem_op_ok _ _ _ _ _ _ _ _ (eq_refl : modify _ th2 m = _))). by apply mem_op_ok. }
  destruct Hcopy as (c & m1 & E & Hm1 & Hc & Hb). rewrite (bind_ok _ _ _ _ _ _ _ E).
  destruct Hc as [->|[-> Ea]].
  - rewrite andb_false_r. destruct (mi_slot _ _ _ _ _ _ _ _ Hm1 Hq) as (oj & Hoj & _).
    destruct (freeproc_ok kend kend_ok tramp tramp_ok j q oj os th2 t m1 z l Hm1 Hq Hoj) as (m' & l' & E2 & Hm' & Hpm & Hout).
    { cbn. set_solver. }
    rewrite (bind_ok _ _ _ _ _ _ _ E2). exists (p_pid q), (setp t j (freed q)), m', l', (<[j := Empty]> os).
    split_and!; [by apply Hr2|by eapply kinv_reaped|eapply all_pages_update; try done; cbn; by rewrite app_nil_r|].
    left. split_and!; try done. intros Hne0 i Hi. assert (Ea : ctrue addr = true) by (unfold ctrue; by destruct (Z.eqb_spec addr 0)).
    destruct (Hb eq_refl Ea i Hi) as (pa & f & Hpa & Hf & Hin & Hbyte). exists pa. split; [done|]. rewrite Hout; [done|].
    eapply (claimed_outside _ _ _ _ _ _ _ _ _ _ _ _ f _ Hm1 Hne Hpp Hme Hq Hoj); [|done].
    cbn. right. apply elem_of_app. by right.
  - rewrite Ea. change (true && (-1 <? 0)) with true. cbv iota. exists (-1), t, m1, l, os.
    split_and!; [by apply Hr2|by eapply kinv_mem|done|]. right. split_and!; try done.
    intros ->. discriminate Ea.
Qed.

(** A child of [me] that has exited. *)
Definition zombie_child (me : nat) (q : proc) : Prop := p_parent q = Some me /\ p_state q = ZOMBIE.

Lemma wait_scan_ok n j hk me addr th t m z :
  (j + n = NPROC)%nat -> length (pt_proc t) = NPROC -> th_held th = [] ->
  let th1 := set_held [LkWait] th in
  (exists i q, pt_proc t !! i = Some q /\ zombie_child me q /\
     wait_scan kend xstate_addr n j me addr hk th1 (mkKernel t m z) =
     (let! v := wait_reap kend xstate_addr i me q addr in ret (inl v)) (set_held [LkProc i; LkWait] th) (mkKernel t m z)) \/
  ((forall i q, (j <= i)%nat -> pt_proc t !! i = Some q -> ~ zombie_child me q) /\
   wait_scan kend xstate_addr n j me addr hk th1 (mkKernel t m z) =
   Ok (inr (hk || existsb (kid me) (drop j (pt_proc t)))) th1 (mkKernel t m z)).
Proof.
  intros Hn Hlen Hh th1. revert j hk Hn. induction n as [|n IH]; intros j hk Hn; cbn [wait_scan].
  - right. rewrite drop_ge by lia. cbn. rewrite orb_false_r. split; [|done].
    intros i q Hi Hq. apply lookup_lt_Some in Hq. lia.
  - destruct (lookup_lt_is_Some_2 (pt_proc t) j) as [q Hq]; [lia|].
    rewrite (drop_S _ _ _ Hq). cbn [existsb].
    rewrite (bind_ok _ _ _ _ _ _ _ (gproc_ok _ _ _ _ _ _ Hq)). unfold kid at 1.
    case_bool_decide as Hk; cbn [orb].
    + assert (Hlk : LkProc j ∉ th_held th1) by (by intros ?%list_elem_of_singleton).
      rewrite (bind_ok _ _ _ _ _ _ _ (acquire_ok _ _ _ Hlk)), (bind_ok _ _ _ _ _ _ _ (gproc_ok _ _ _ _ _ _ Hq)).
      case_bool_decide as Hz; [left; by exists j, q|].
      rewrite (bind_ok _ _ _ _ _ _ _ (release_acquired _ _ _ Hlk)).
      destruct (IH (S j) true ltac:(lia)) as [Hl|[Hno E]]; [by left|]. right. split.
      * intros i r Hi Hr. destruct (decide (i = j)) as [->|Hne]; [simplify_eq; by intros [_ ?]|]. apply (Hno i); [lia|done].
      * by rewrite E, orb_true_r.
    + destruct (IH (S j) hk ltac:(lia)) as [Hl|[Hno E]]; [by left|]. right. split; [|by rewrite E].
      intros i r Hi Hr. destruct (decide (i = j)) as [->|Hne]; [simplify_eq; by intros [? _]|]. apply (Hno i); [lia|done].
Qed.

(** C7: [wait] reaps a zombie child or waits for one.  Called by a live process on a
    consistent kernel it has three outcomes, and all invariants hold after each.  There is
    a zombie child: its pid is returned, its slot is free, every page it owned is back on
    the free list and the exit status is at the user's address, or -1 is returned and the
    child kept because that address is not writable.  There is no child, or the caller has
    been killed: -1.  Otherwise the caller sleeps on its own slot, [wait_lock] released. *)
Theorem wait_reaps_or_sleeps th t m z l os ls pp own A fs addr :
  kinv t m l os ls -> th_held th = [] -> pt_proc t !! th_proc th = Some pp -> live pp ->
  os !! th_proc th = Some (Full own A fs) -> is_u64 addr ->
  exists r th' t' m' l' os', wait kend xstate_addr addr th (mkKernel t m z) = Ok r th' (mkKernel t' m' z) /\
    kinv t' m' l' os' ls /\ all_pages l' (pt_proc t') os' ≡ₚ all_pages l (pt_proc t) os /\
    ((exists j q, pt_proc t !! j = Some q /\ zombie_child (th_proc th) q /\ th' = th /\
        ((r = Some (p_pid q) /\ t' = setp t j (freed q) /\ os' = <[j := Empty]> os /\
           (addr <> 0 -> status_at m' A addr (p_xstate q))) \/
         (r = Some (-1) /\ t' = t /\ addr <> 0))) \/
     ((forall i q, pt_proc t !! i = Some q -> ~ zombie_child (th_proc th) q) /\ m' = m /\
        ((r = Some (-1) /\ th' = th /\ t' = t /\ (existsb (kid (th_proc th)) (pt_proc t) = false \/ p_killed pp <> 0)) \/
         (r = None /\ existsb (kid (th_proc th)) (pt_proc t) = true /\ p_killed pp = 0 /\
            th' = set_held [LkProc (th_proc th)] th /\
            t' = setp t (th_proc th) (with_state SLEEPING (with_chan (Some (ChProc (th_proc th))) pp)))))).
Proof.
  intros Hinv Hh Hpp Hlive Hme Haddr. pose proof (ti_len _ _ (ki_table _ _ _ _ _ _ _ Hinv)) as Hlen.
  unfold wait. rewrite (bind_ok _ _ _ _ _ _ _ (acquire_only _ th _ Hh)). unfold wait_round.
  rewrite (bind_ok _ _ _ _ _ _ _ (eq_refl : myproc (set_held [LkWait] th) _ = Ok _ _ _)).
  change (th_proc (set_held [LkWait] th)) with (th_proc th). set (me := th_proc th) in *.
  destruct (wait_scan_ok NPROC 0 false me addr th t m z eq_refl Hlen Hh) as [(j & q & Hq & [Hk Hz] & E)|[Hno E]].
  - destruct (wait_reap_ok th t m z l os ls me pp own A fs j q addr Hinv Hh Hpp Hlive Hme Hq Hz Haddr)
      as (r & t' & m' & l' & os' & E2 & Hinv' & Hall & Hr).
    rewrite (bind_ok _ _ _ _ _ _ _ E2) in E. rewrite (bind_ok _ _ _ _ _ _ _ E).
    exists (Some r), th, t', m', l', os'. split_and!; try done. left. exists j, q. split_and!; try done.
    destruct Hr as [(-> & -> & -> & Hs)|(-> & -> & -> & Hs)]; [left|right]; by split_and!.
  - cbn [orb] in E. rewrite (bind_ok _ _ _ _ _ _ _ E). cbv beta iota. rewrite drop_0.
    assert (Hno' : forall i q, pt_proc t !! i = Some q -> ~ zombie_child me q) by (intros i q; apply (Hno i); lia).
    set (hk := existsb (kid me) (pt_proc t)) in *. destruct hk eqn:Ehk.
    + rewrite (bind_ok _ _ _ _ _ _ _ (killed_ok me (set_held [LkWait] th) t m z pp ltac:(by intros ?%list_elem_of_singleton) Hpp)).
      cbn [negb orb]. unfold ctrue. destruct (Z.eqb_spec (p_killed pp) 0) as [Hk0|Hk0]; cbn [negb].
      * rewrite (bind_ok _ _ _ _ _ _ _ (sleep_ok (ChProc me) LkWait (set_held [LkWait] th) t m z pp eq_refl ltac:(done) Hpp)).
        eexists None, _, _, m, l, os. split_and!; [done| | |right; split_and!; try done; by right].
        -- eapply kinv_setp_soft; [exact Hinv|exact Hpp|]. transitivity (with_chan (Some (ChProc me)) pp); [apply soft_chan|].
           apply soft_state; [by destruct pp|done|done].
        -- eapply reflexive_eq. eapply all_pages_same; [apply Hinv|]. apply Forall2_same_length_lookup.
           split; [by rewrite length_setp|]. intros i p p' Hp Hp'. destruct (decide (me = i)) as [<-|Hne].
           ++ rewrite (lookup_setp _ _ _ _ Hpp) in Hp'. simplify_eq. by destruct pp.
           ++ rewrite lookup_setp_ne in Hp' by done. by simplify_eq.
      * rewrite (bind_ok _ _ _ _ _ _ _ (release_only _ th _ Hh)). exists (Some (-1)), th, t, m, l, os.
        split_and!; try done. right. split_and!; try done. left. split_and!; try done. by right.
    + rewrite (bind_ok _ _ _ _ _ _ _ (eq_refl : ret 1 _ _ = _)). cbn [negb orb].
      rewrite (bind_ok _ _ _ _ _ _ _ (release_only _ th _ Hh)). exists (Some (-1)), th, t, m, l, os.
      split_and!; try done. right. split_and!; try done. left. split_and!; try done. by left.
Qed.

End ProcWait.

#[local] Existing Instance no_files.

Lemma wait_reaps_or_sleeps_witness :
  exists t m me r th' t' m', wait KERNBASE (fun _ => 0) 0 (idle me) (mkKernel t m tt) = Ok r th' (mkKernel t' m' tt).
Proof.
  destruct one_process as (t & m & l & os & ls & me & pp & Hinv & Hpp & Hlive & _).
  destruct (mi_slot _ _ _ _ _ _ _ _ (ki_mem _ _ _ _ _ _ _ Hinv) Hpp) as (o & Ho & _).
  pose proof (ki_slot _ _ _ _ _ _ _ Hinv me pp o Hpp Ho) as Hs. rewrite bool_decide_false in Hs by apply Hlive.
  destruct Hs as (own & A & fs & Hs). subst o.
  destruct (wait_reaps_or_sleeps KERNBASE kernbase_ok KERNBASE kernbase_frame (fun _ => 0) ltac:(intros; discriminate)
    (idle me) t m tt l os ls pp own A fs 0) as (r & th' & t' & m' & l' & os' & E & _).
  - exact Hinv.
  - reflexivity.
  - exact Hpp.
  - exact Hlive.
  - exact Ho.
  - lia.
  - exists t, m, me, r, th', t', m'. exact E.
Defined.
