(* ===== verification/ProcBoot.v ===== *)
(** * From boot to the first processes

    Runs of the kernel's own code from an empty process table: [procinit],
    [init_priority_control], [userinit], the scheduler's choice of the first process,
    and system calls of that process.  Two theorems show what the code does wrong: a failed
    [fork] leaves its slot on a priority list, and [kill(0)] marks a free slot. *)

From S2P Require Import Prelude Layout Memory Kalloc Vm VmMap VmUser VmFree VmLife VmFork Priority Proc ProcOps ProcMem ProcLife ProcExit.

#[local] Existing Instance no_files.

(** The process part of [main()], and the first process running. *)
Definition boot : M (kernel unit) unit :=
  procinit;;;
  zoom pt_lens init_priority_control;;;
  userinit KERNBASE KERNBASE 0 0 NPROC;;;
  let! _ := scheduler_pick 0 in
  let! _ := forkret true in
  ret tt.

Notation fork_with fuel := (fork (F := unit) KERNBASE KERNBASE 0 fuel).

(** ** A failed [fork] *)

(** The first process calls [fork] twice. *)
Definition story : M (kernel unit) (list Z) :=
  boot;;;
  let! a := fork_with NPROC in
  let! b := fork_with NPROC in
  ret [a; b].

(** The list of priority [k] starts at [h], whose successor [i] points to itself. *)
Definition looped (k h i : nat) (s : kernel unit) : Prop :=
  head_priority (pt_control (k_pt s)) !! k = Some (Some h) /\
  is_Some (present (pt_control (k_pt s)) !! k) /\
  next_of (k_pt s) h = Some (Some i) /\ next_of (k_pt s) i = Some (Some i).

Definition keeps {A} (P : kernel unit -> Prop) (m : M (kernel unit) A) : Prop :=
  forall th s a th' s', m th s = Ok a th' s' -> P s -> P s'.

Lemma bind_congr {S A B} (m : M S A) (f g : A -> M S B) th s :
  (forall a th' s', m th s = Ok a th' s' -> f a th' s' = g a th' s') ->
  bind m f th s = bind m g th s.
Proof. unfold bind. intros Hfg. destruct (m th s) eqn:E; try done. by apply Hfg. Qed.

Section Looped.
Variables k h i : nat.
Notation P := (looped k h i).

Lemma keeps_uproc j f : (forall p, p_next (f p) = p_next p) -> keeps P (uproc j f).
Proof.
  intros Hf th [t m z] a th' s'. unfold uproc, zoom, upd_proc; cbn.
  destruct (pt_proc t !! j) as [p|] eqn:Hp; [|done]. intros [= <- <- <-] (H1 & H2 & H3 & H4).
  assert (Hn : forall x, next_of (setp t j (f p)) x = next_of t x).
  { intros x. unfold next_of. destruct (decide (j = x)) as [<-|Hne].
    - rewrite (lookup_setp _ _ _ _ Hp), Hp. cbn. by rewrite Hf.
    - by rewrite lookup_setp_ne. }
  split_and!; try done; cbn; rewrite (Hn _ : next_of (set_procs _ t) _ = _); done.
Qed.

Lemma keeps_mem {A} (op : M kmem A) : keeps P (mem_op op).
Proof. intros th [t m z] a th' s'. unfold mem_op, zoom; cbn. destruct (op th m); [|done..]. by intros [= <- <- <-]. Qed.

Lemma keeps_lock l : keeps P (acquire l) /\ keeps P (release l).
Proof.
  split; intros th s a th' s'; [unfold acquire|unfold release]; case_bool_decide; try done; by intros [= <- <- <-].
Qed.

Lemma keeps_find n j : keeps P (find_unused n j).
Proof.
  revert j. induction n as [|n IH]; intros j th s a th' s'; cbn [find_unused].
  { by intros [= <- <- <-]. }
  unfold bind. destruct (acquire (LkProc j) th s) eqn:E1; try done.
  destruct (gproc j th0 s0) as [p th1 s1| | | |] eqn:E2; try done. intros E HP.
  assert (HP1 : P s1).
  { pose proof (proj1 (keeps_lock _) _ _ _ _ _ E1 HP) as HP0. revert E2. unfold gproc, zoom, get_proc.
    destruct s0 as [t0 m0 z0]; cbn. destruct (pt_proc t0 !! j); [|done]. by intros [= <- <- <-]. }
  case_bool_decide; [by injection E as <- <- <-|].
  destruct (release (LkProc j) th1 s1) as [b th2 s2| | | |] eqn:E3; try done.
  exact (IH _ _ _ _ _ _ E (proj2 (keeps_lock _) _ _ _ _ _ E3 HP1)).
Qed.

Lemma keeps_allocpid : keeps P allocpid.
Proof.
  intros th s a th' s'. unfold allocpid, bind. destruct (acquire LkPid th s) as [? ? [t m z]| | | |] eqn:E1; try done.
  cbn. destruct (release LkPid _ _) eqn:E2; try done. intros [= <- <- <-] HP.
  exact (proj2 (keeps_lock _) _ _ _ _ _ E2 (proj1 (keeps_lock _) _ _ _ _ _ E1 HP)).
Qed.

(** A list that loops cannot be walked to its end, whatever the fuel. *)
Lemma enqueue_looped fuel j th s : P s -> zoom pt_lens (enqueue_new fuel j (Z.of_nat k)) th s =
  if bool_decide (LkPriority ∈ th_held th) then Panic "acquire" else OutOfFuel.
Proof.
  destruct s as [t m z]. intros (H1 & [v H2] & H3 & H4). unfold zoom, enqueue_new. cbn [view pt_lens k_pt].
  unfold bind at 1. unfold acquire. case_bool_decide; [done|].
  rewrite (bind_ok _ _ _ _ _ _ _ (set_present_ok k 1 v _ t H2)).
  unfold add_process_priority. rewrite bind_assoc.
  erewrite bind_ok by (eapply get_head_ok; exact H1). cbv beta iota. rewrite bind_assoc. unfold bind at 1.
  erewrite (last_of_list_loops _ i [h]).
  - done.
  - exact H4.
  - split; [done|]. by exists (Some i).
Qed.

Ltac keep_slot E HP :=
  match type of E with
  | uproc ?j ?f _ _ = _ => apply (keeps_uproc j f ltac:(intros []; reflexivity) _ _ _ _ _ E) in HP
  end.

Lemma allocproc_looped fuel fuel' th s : P s ->
  allocproc KERNBASE KERNBASE 0 fuel (Z.of_nat k) th s = allocproc KERNBASE KERNBASE 0 fuel' (Z.of_nat k) th s.
Proof.
  intros HP. unfold allocproc. apply bind_congr. intros [j|] th1 s1 E1; [|done].
  apply (keeps_find _ _ _ _ _ _ _ E1) in HP. apply bind_congr. intros pid th2 s2 E2.
  apply (keeps_allocpid _ _ _ _ _ E2) in HP.
  apply bind_congr. intros [] th3 s3 E3. keep_slot E3 HP.
  apply bind_congr. intros [] th4 s4 E4. keep_slot E4 HP.
  apply bind_congr. intros tf th5 s5 E5. apply (keeps_mem _ _ _ _ _ _ E5) in HP.
  apply bind_congr. intros [] th6 s6 E6. keep_slot E6 HP.
  destruct (tf =? 0); [done|].
  apply bind_congr. intros pt th7 s7 E7. apply (keeps_mem _ _ _ _ _ _ E7) in HP.
  apply bind_congr. intros [] th8 s8 E8. keep_slot E8 HP.
  destruct (pt =? 0); [done|].
  apply bind_congr. intros [] th9 s9 E9. keep_slot E9 HP.
  unfold bind. by rewrite !enqueue_looped.
Qed.

End Looped.

Lemma fork_looped k h i fuel fuel' th s p :
  looped k h i s -> pt_proc (k_pt s) !! th_proc th = Some p -> p_priority p = Z.of_nat k -> (k < MAXPRIORITY)%nat ->
  fork_with fuel th s = fork_with fuel' th s.
Proof.
  destruct s as [t m z]. intros HP Hp Hk Hlt. unfold fork.
  rewrite !(bind_ok _ _ _ _ _ _ _ (eq_refl : myproc th _ = Ok _ th _)).
  rewrite !(bind_ok _ _ _ _ _ _ _ (gproc_ok _ _ _ _ _ _ Hp)), Hk, (i32_id (Z.of_nat k)) by (unfold MAXPRIORITY in Hlt; lia).
  unfold bind at 1 4. by rewrite (allocproc_looped k h i fuel fuel').
Qed.

Definition out_of_fuel {S A} (o : outcome S A) : Prop := match o with OutOfFuel => True | _ => False end.

(** What the run is checked for: the values the two calls return, the looping list, the
    first process still running at priority 2 without locks, and the third call. *)
Definition stuck_after (o : outcome (kernel unit) (list Z)) : Prop :=
  match o with
  | Ok r th s => r = [-1; -1] /\ th = idle 0 /\ looped 2 0 1 s /\
      (p_priority <$> pt_proc (k_pt s) !! 0%nat) = Some 2 /\ out_of_fuel (fork_with NPROC th s)
  | _ => False
  end.

Lemma story_stuck : stuck_after (story (idle 0) (machine 11)).
Proof. vm_compute. repeat split. by eexists. Qed.

(** C19: a failed [fork] breaks the priority lists.  On a machine with 11 free pages the
    kernel boots and starts the first process, which calls [fork] twice; each call finds
    a slot but not enough memory for the child and returns -1.  A third call does not
    return: the walk along the priority list runs for ever, whatever fuel it is given,
    while [priority_lock] is held. *)
Theorem failed_fork_hangs_next :
  exists s, story (idle 0) (machine 11) = Ok [-1; -1] (idle 0) s /\
    forall fuel, fork_with fuel (idle 0) s = OutOfFuel.
Proof.
  pose proof story_stuck as H1. destruct (story (idle 0) (machine 11)) as [r th s| | | |]; try contradiction.
  destruct H1 as (-> & -> & HP & Hpr & H2). exists s. split; [done|]. intros fuel.
  destruct (pt_proc (k_pt s) !! 0%nat) as [p|] eqn:Hp; [|discriminate].
  injection Hpr as Hpr. rewrite (fork_looped 2 0 1 fuel NPROC (idle 0) s p HP Hp Hpr); [|unfold MAXPRIORITY; lia].
  destruct (fork_with NPROC (idle 0) s); try contradiction. done.
Qed.

(** ** [kill(0)] *)

Section KillZero.
Context {F : Type} `{ProcFiles F}.
Variables (kend : Z) (kend_ok : KERNBASE <= kend <= PHYSTOP).
Variables (tramp : Z) (tramp_ok : frame_addr tramp).
Variables (forkret_addr : Z) (fuel : nat) (fuel_ok : (NPROC <= fuel)%nat).

(** C39: [kill(0)] finds a process.  A free slot has pid 0, so when there is one [kill(0)]
    returns 0 and marks the first of them as killed.  The next call of [allocproc] looks
    for a slot in the same order and does not clear the mark: the process it creates, if
    there is memory for one, is born killed. *)
Theorem kill_zero_kills_next_child th t m (z : F) l os ls k lk i0 p0 :
  kinv kend tramp t m l os ls -> th_held th = [] -> ls !! k = Some lk -> pt_nextpid t < 2 ^ 31 - 1 ->
  pt_proc t !! i0 = Some p0 -> p_state p0 = UNUSED ->
  exists j p t1, pt_proc t !! j = Some p /\ p_state p = UNUSED /\ t1 = setp t j (with_killed 1 p) /\
    kill 0 th (mkKernel t m z) = Ok 0 th (mkKernel t1 m z) /\
    ((exists t' m', allocproc kend tramp forkret_addr fuel (Z.of_nat k) th (mkKernel t1 m z) = Ok None th (mkKernel t' m' z)) \/
     (exists t' m' q, allocproc kend tramp forkret_addr fuel (Z.of_nat k) th (mkKernel t1 m z) =
          Ok (Some j) (set_held [LkProc j] th) (mkKernel t' m' z) /\
        pt_proc t' !! j = Some q /\ p_state q = USED /\ p_killed q = 1)).
Proof.
  intros Hinv Hh Hk Hn Hp0 Hu0. pose proof (ki_table _ _ _ _ _ _ _ Hinv) as Ht.
  destruct (kill_loop_ok NPROC 0 0 th t m z (ti_len _ _ Ht)) as [(j & p & E & Hp & Hpp & _ & Hlow)|[E Hno]].
  { intros j. rewrite Hh. apply not_elem_of_nil. }
  2:{ destruct (Hno i0 p0); [lia|done|]. by apply (ti_unused _ _ Ht i0). }
  assert (Hu : p_state p = UNUSED).
  { destruct (decide (p_state p = UNUSED)) as [|Hne]; [done|]. pose proof (ti_pid _ _ Ht j p Hp Hne). lia. }
  rewrite bool_decide_false in E by (by rewrite Hu).
  exists j, p, (setp t j (with_killed 1 p)). do 3 (split; [done|]). split; [exact E|].
  assert (Hinv1 : kinv kend tramp (setp t j (with_killed 1 p)) m l os ls) by (eapply kinv_setp_soft; [done|done|apply soft_killed]).
  assert (Hj : pt_proc (setp t j (with_killed 1 p)) !! j = Some (with_killed 1 p)) by (by eapply lookup_setp).
  destruct (allocproc_ok kend kend_ok tramp tramp_ok forkret_addr fuel fuel_ok k lk th _ m z l os ls Hinv1 Hh Hk Hn)
    as [[E2 _]|(j' & p' & Hp' & Hu' & Hlow' & [(m' & l' & E2 & _)|(tf & pt & t' & m' & l' & own & E2 & Hrel & _)])].
  - left. by eexists _, _.
  - left. by eexists _, _.
  - assert (j' = j) as ->.
    { destruct (Nat.lt_trichotomy j' j) as [Hlt|[?|Hlt]]; [|done|].
      - rewrite lookup_setp_ne in Hp' by lia. exfalso. apply (Hlow j' p'); [lia|done|]. by apply (ti_unused _ _ Ht j').
      - exfalso. apply (Hlow' j _ Hlt Hj). by destruct p. }
    rewrite Hj in Hp'. injection Hp' as <-. right.
    pose proof (lookup_setp (bump (setp t j (with_killed 1 p))) j
      (new_proc forkret_addr (with_killed 1 p) (pt_nextpid t) tf pt (Z.of_nat k)) _ Hj) as Hq.
    destruct (relinked_lookup _ _ j _ Hrel Hq) as (n & Hq' & _).
    eexists t', m', _. split; [exact E2|]. by split; [exact Hq'|destruct p].
Qed.

End KillZero.

Lemma kill_zero_kills_next_child_witness :
  exists j p t1, kill 0 (idle 0) (mkKernel table0 small_memory tt) = Ok 0 (idle 0) (mkKernel t1 small_memory tt) /\
    pt_proc table0 !! j = Some p /\ t1 = setp table0 j (with_killed 1 p).
Proof.
  destruct (kill_zero_kills_next_child KERNBASE kernbase_ok KERNBASE kernbase_frame 0 NPROC (Nat.le_refl _)
    (idle 0) table0 small_memory tt small_pages (replicate NPROC Empty) (replicate MAXPRIORITY []) 2 [] 0 slot0)
    as (j & p & t1 & Hp & _ & Ht & E & _).
  - exact idle_machine.
  - reflexivity.
  - reflexivity.
  - reflexivity.
  - reflexivity.
  - reflexivity.
  - exists j, p, t1. split; [exact E|split; [exact Hp|exact Ht]].
Defined.
