(* ===== verification/SleepWakeup.v ===== *)
(** * [sleep] and [wakeup] between processes (kernel/proc.c)

    Proc.v runs [sleep] and [wakeup] as one process sees them.  Here all processes run
    at once, one lock operation or one assignment at a time, on the pattern every user
    of the two calls follows: under a lock [lk], wait in a loop for a condition with
    [sleep(ch, lk)]; under the same lock, make the condition true and call [wakeup(ch)].
    The theorem is the comment in [sleep]: a wakeup is not missed. *)

From S2P Require Import Prelude Layout Priority.

(** Where a process is.  [Sl] are the lines of [sleep], [Wk] those of [wakeup], the
    number being the slot the loop looks at. *)
Inductive pc : Set :=
| Out                 (* elsewhere *)
| WantWait            (* acquire(lk) of a waiter, also the one that ends sleep() *)
| Cond                (* holds lk, tests the condition *)
| SlAcquire           (* sleep: acquire(&p->lock) *)
| SlRelease           (* sleep: release(lk) *)
| SlState             (* sleep: p->chan = chan; p->state = SLEEPING *)
| SlSched             (* sched; the scheduler will release p->lock *)
| SlAway              (* switched out *)
| SlBack              (* picked by the scheduler: p->chan = 0; release(&p->lock) *)
| WantSignal          (* acquire(lk) of a signaller *)
| Signal              (* holds lk, makes the condition true *)
| WkNext (p : nat)    (* wakeup: next slot *)
| WkTest (p : nat).   (* wakeup: holds the lock of slot p *)

Record sys := mkSys {
  s_cond : bool;
  s_lk : option nat;            (* owner of lk *)
  s_plk : nat -> option nat;    (* owner of each p->lock *)
  s_state : nat -> procstate;
  s_chan : nat -> bool;         (* p->chan == ch *)
  s_pc : nat -> pc;
}.

Definition upd {A} (f : nat -> A) (i : nat) (x : A) : nat -> A := fun j => if decide (j = i) then x else f j.

Definition goto (i : nat) (l : pc) (s : sys) : sys :=
  mkSys (s_cond s) (s_lk s) (s_plk s) (s_state s) (s_chan s) (upd (s_pc s) i l).
Definition set_lk (o : option nat) (s : sys) : sys :=
  mkSys (s_cond s) o (s_plk s) (s_state s) (s_chan s) (s_pc s).
Definition set_plk (p : nat) (o : option nat) (s : sys) : sys :=
  mkSys (s_cond s) (s_lk s) (upd (s_plk s) p o) (s_state s) (s_chan s) (s_pc s).
Definition set_cond (b : bool) (s : sys) : sys :=
  mkSys b (s_lk s) (s_plk s) (s_state s) (s_chan s) (s_pc s).
Definition set_state (p : nat) (x : procstate) (s : sys) : sys :=
  mkSys (s_cond s) (s_lk s) (s_plk s) (upd (s_state s) p x) (s_chan s) (s_pc s).
Definition set_chan (p : nat) (b : bool) (s : sys) : sys :=
  mkSys (s_cond s) (s_lk s) (s_plk s) (s_state s) (upd (s_chan s) p b) (s_pc s).

Inductive step (s : sys) : sys -> Prop :=
| st_wait i : (i < NPROC)%nat -> s_pc s i = Out -> step s (goto i WantWait s)
| st_signal i : (i < NPROC)%nat -> s_pc s i = Out -> step s (goto i WantSignal s)
| st_acquire_wait i : s_pc s i = WantWait -> s_lk s = None -> step s (goto i Cond (set_lk (Some i) s))
| st_true i : s_pc s i = Cond -> s_cond s = true -> step s (goto i Out (set_lk None (set_cond false s)))
| st_false i : s_pc s i = Cond -> s_cond s = false -> step s (goto i SlAcquire s)
| st_sl_acquire i : s_pc s i = SlAcquire -> s_plk s i = None -> step s (goto i SlRelease (set_plk i (Some i) s))
| st_sl_release i : s_pc s i = SlRelease -> step s (goto i SlState (set_lk None s))
| st_sl_state i : s_pc s i = SlState -> step s (goto i SlSched (set_state i SLEEPING (set_chan i true s)))
| st_sl_sched i : s_pc s i = SlSched -> step s (goto i SlAway (set_plk i None s))
| st_scheduler i : s_pc s i = SlAway -> s_state s i = RUNNABLE -> s_plk s i = None ->
    step s (goto i SlBack (set_state i RUNNING (set_plk i (Some i) s)))
| st_sl_back i : s_pc s i = SlBack -> step s (goto i WantWait (set_plk i None (set_chan i false s)))
| st_acquire_signal i : s_pc s i = WantSignal -> s_lk s = None -> step s (goto i Signal (set_lk (Some i) s))
| st_make_true i : s_pc s i = Signal -> step s (goto i (WkNext 0) (set_cond true s))
| st_wk_self i : s_pc s i = WkNext i -> step s (goto i (WkNext (S i)) s)
| st_wk_acquire i p : s_pc s i = WkNext p -> (p < NPROC)%nat -> p <> i -> s_plk s p = None ->
    step s (goto i (WkTest p) (set_plk p (Some i) s))
| st_wk_wake i p : s_pc s i = WkTest p -> s_state s p = SLEEPING -> s_chan s p = true ->
    step s (goto i (WkNext (S p)) (set_plk p None (set_state p RUNNABLE s)))
| st_wk_skip i p : s_pc s i = WkTest p -> ~ (s_state s p = SLEEPING /\ s_chan s p = true) ->
    step s (goto i (WkNext (S p)) (set_plk p None s))
| st_wk_done i p : s_pc s i = WkNext p -> (NPROC <= p)%nat -> step s (goto i Out (set_lk None s)).

(** Every process elsewhere and running, every lock free. *)
Definition start : sys := mkSys false None (fun _ => None) (fun _ => RUNNING) (fun _ => false) (fun _ => Out).

(** ** The invariant *)

Definition holds_lk (l : pc) : bool :=
  match l with Cond | SlAcquire | SlRelease | Signal | WkNext _ | WkTest _ => true | _ => false end.

(** Process [i] at [l] owns the lock of slot [p]. *)
Definition holds_plk (i : nat) (l : pc) (p : nat) : Prop :=
  match l with
  | SlRelease | SlState | SlSched | SlBack => p = i
  | WkTest q => p = q
  | _ => False
  end.

(** The loop of [wakeup] has not passed slot [i]. *)
Definition still_to_visit (l : pc) (i : nat) : Prop :=
  match l with WkNext p | WkTest p => (p <= i)%nat | _ => False end.

(** [i] is on its way to sleep or asleep. *)
Definition going (s : sys) (i : nat) : Prop :=
  s_pc s i = SlState \/ s_pc s i = SlSched \/ (s_pc s i = SlAway /\ s_state s i = SLEEPING).

Record sinv (s : sys) : Prop := mkSinv {
  sv_lk : forall i, s_lk s = Some i <-> holds_lk (s_pc s i) = true;
  sv_plk : forall i p, s_plk s p = Some i <-> holds_plk i (s_pc s i) p;
  sv_state : forall i, match s_pc s i with
    | SlSched => s_state s i = SLEEPING /\ s_chan s i = true
    | SlAway => (s_state s i = SLEEPING \/ s_state s i = RUNNABLE) /\ s_chan s i = true
    | _ => s_state s i = RUNNING end;
  sv_bound : forall i, s_pc s i <> Out -> (i < NPROC)%nat;
  sv_cond : forall i, s_pc s i = SlAcquire \/ s_pc s i = SlRelease -> s_cond s = false;
  sv_wake : forall i, s_cond s = true -> going s i -> exists j, still_to_visit (s_pc s j) i;
}.

(** Look at one process: the one that moved or another. *)
Ltac at_proc j :=
  cbn in *; unfold upd in *;
  repeat match goal with
  | |- context [decide (j = ?i)] => destruct (decide (j = i)); [subst|]
  | H : context [decide (j = ?i)] |- _ => destruct (decide (j = i)); [subst|]
  end; cbn in *.

Lemma step_lk s s' : step s s' -> (forall i, s_lk s = Some i <-> holds_lk (s_pc s i) = true) ->
  forall i, s_lk s' = Some i <-> holds_lk (s_pc s' i) = true.
Proof.
  intros Hst H j. pose proof (H j) as Hj.
  destruct Hst as [i|i|i|i|i|i|i|i|i|i|i|i|i|i|i p|i p|i p|i p]; pose proof (H i) as Hi;
    repeat match goal with E : s_pc s i = _ |- _ => rewrite E in Hi; clear E end;
    cbn in Hi; at_proc j; intuition congruence.
Qed.

Lemma step_plk s s' : step s s' -> (forall i p, s_plk s p = Some i <-> holds_plk i (s_pc s i) p) ->
  forall i p, s_plk s' p = Some i <-> holds_plk i (s_pc s' i) p.
Proof.
  intros Hst H j q. pose proof (H j q) as Hj.
  destruct Hst as [i|i|i|i|i|i|i|i|i|i|i|i|i|i|i p|i p|i p|i p];
    try (pose proof (H i q) as Hi); try (pose proof (H i i) as Hii); try (pose proof (H j i) as Hji);
    try (pose proof (H i p) as Hip); try (pose proof (H j p) as Hjp);
    repeat match goal with E : s_pc s i = _ |- _ => rewrite E in *; clear E end;
    cbn in *; unfold upd; destruct (decide (j = i)); subst; cbn;
    repeat match goal with
    | |- context [decide (?a = ?b)] => destruct (decide (a = b)); subst
    end; try tauto; try (intuition congruence).
Qed.

Lemma step_bound s s' : step s s' -> (forall i, s_pc s i <> Out -> (i < NPROC)%nat) ->
  forall i, s_pc s' i <> Out -> (i < NPROC)%nat.
Proof.
  intros Hst H j. pose proof (H j) as Hj.
  destruct Hst as [i|i|i|i|i|i|i|i|i|i|i|i|i|i|i p|i p|i p|i p]; at_proc j; intros Hne;
    try done; try (by apply Hj); apply Hj; congruence.
Qed.

(** The lock of a slot keeps [wakeup] away from a process that is on its way out. *)
Lemma test_excludes s i p : sinv s -> s_pc s i = WkTest p -> s_state s p = SLEEPING -> s_pc s p = SlAway.
Proof.
  intros H E Es. pose proof (sv_state _ H p) as Hp. destruct (s_pc s p) eqn:Ep; try congruence.
  exfalso. assert (H1 : s_plk s p = Some i) by (apply (sv_plk _ H); by rewrite E).
  assert (H2 : s_plk s p = Some p) by (apply (sv_plk _ H); by rewrite Ep). congruence.
Qed.

Lemma step_state s s' : step s s' -> sinv s ->
  forall i, match s_pc s' i with
    | SlSched => s_state s' i = SLEEPING /\ s_chan s' i = true
    | SlAway => (s_state s' i = SLEEPING \/ s_state s' i = RUNNABLE) /\ s_chan s' i = true
    | _ => s_state s' i = RUNNING end.
Proof.
  intros Hst H j. pose proof (sv_state _ H j) as Hj.
  destruct Hst as [i|i|i|i|i|i|i|i|i|i|i|i|i|i|i p|i p E Es Ec|i p|i p];
    cbn in *; unfold upd in *;
    try (destruct (decide (j = i)) as [->|]; cbn in *;
      repeat match goal with E : s_pc s i = _ |- _ => rewrite E in Hj; clear E end; cbn in *; tauto).
  pose proof (test_excludes s i p H E Es) as Ep.
  destruct (decide (j = i)) as [->|]; [rewrite E in Hj; by destruct (decide (i = p)) as [->|]; [congruence|]|].
  destruct (decide (j = p)) as [->|]; [|done]. rewrite Ep in *. tauto.
Qed.

(** Who holds [lk] is alone in holding it. *)
Lemma lk_unique s i j : sinv s -> holds_lk (s_pc s i) = true -> holds_lk (s_pc s j) = true -> i = j.
Proof. intros H Hi%(sv_lk _ H) Hj%(sv_lk _ H). congruence. Qed.

Lemma step_cond s s' : step s s' -> sinv s ->
  forall i, s_pc s' i = SlAcquire \/ s_pc s' i = SlRelease -> s_cond s' = false.
Proof.
  intros Hst H j. pose proof (sv_cond _ H j) as Hj.
  destruct Hst as [i|i|i|i|i|i|i|i|i|i|i|i|i|i|i p|i p|i p|i p];
    cbn in *; unfold upd in *; destruct (decide (j = i)) as [->|]; cbn in *; intros Hpc; try tauto;
    try (destruct Hpc; congruence).
  exfalso. assert (Hh : holds_lk (s_pc s j) = true) by (by destruct Hpc as [-> | ->]).
  assert (Hi : holds_lk (s_pc s i) = true) by (by match goal with E : s_pc s i = Signal |- _ => rewrite E end).
  pose proof (lk_unique s i j H Hi Hh). congruence.
Qed.

(** Whether [k] is going to sleep depends on its own place and state. *)
Lemma going_ext s s' k : s_pc s' k = s_pc s k -> s_state s' k = s_state s k -> going s' k -> going s k.
Proof. unfold going. by intros -> ->. Qed.

(** A sleeper that is not yet woken stays ahead of the signaller's loop: moves of a
    process that is not in the loop. *)
Lemma wake_kept s i l k :
  sinv s -> ~ still_to_visit (s_pc s i) k -> s_cond s = true -> going s k ->
  exists j, still_to_visit (upd (s_pc s) i l j) k.
Proof.
  intros H Hi Hc Hg. destruct (sv_wake _ H k Hc Hg) as [j Hj]. exists j. unfold upd.
  destruct (decide (j = i)) as [->|]; [by destruct Hi|done].
Qed.

(** Moves of the signaller along its loop. *)
Lemma wake_advance s i l k :
  sinv s -> s_cond s = true -> going s k -> (still_to_visit (s_pc s i) k -> still_to_visit l k) ->
  exists j, still_to_visit (upd (s_pc s) i l j) k.
Proof.
  intros H Hc Hg Hi. destruct (sv_wake _ H k Hc Hg) as [j Hj]. exists j. unfold upd.
  destruct (decide (j = i)) as [->|]; [by apply Hi|done].
Qed.

Lemma going_not s k l : going s k -> s_pc s k = l -> holds_lk l = true -> False.
Proof. intros [E|[E|[E _]]] <-; by rewrite E. Qed.

(** A process going to sleep whose lock another process holds is asleep on the channel. *)
Lemma going_tested s i p : sinv s -> s_pc s i = WkTest p -> going s p -> s_state s p = SLEEPING /\ s_chan s p = true.
Proof.
  intros H E Hg. assert (H1 : s_plk s p = Some i) by (apply (sv_plk _ H); by rewrite E).
  assert (Hx : holds_plk p (s_pc s p) p -> False).
  { intros H2%(sv_plk _ H). assert (i = p) as -> by congruence. eapply going_not; [exact Hg|exact E|done]. }
  pose proof (sv_state _ H p) as Hp.
  destruct Hg as [Eg|[Eg|[Eg Es]]]; rewrite Eg in Hx, Hp; [by destruct Hx|by destruct Hx|tauto].
Qed.

Lemma step_wake s s' : step s s' -> sinv s ->
  forall k, s_cond s' = true -> going s' k -> exists j, still_to_visit (s_pc s' j) k.
Proof.
  intros Hst H k.
  destruct Hst as [i Hb E|i Hb E|i E E1|i E E1|i E E1|i E E1|i E|i E|i E|i E E1 E2|i E|i E E1|i E|i E|i p E Hp Hne E1|i p E Es Ec|i p E Hn|i p E Hp];
    cbn [s_cond s_pc goto set_lk set_plk set_cond set_state set_chan]; intros Hc Hg; try discriminate Hc;
    try (apply wake_kept; [done|rewrite E; cbn; tauto|done|]; unfold going in *; cbn in *; unfold upd in *;
      destruct (decide (k = i)) as [->|Hk]; naive_solver).
  - (* release(lk): the condition is false *)
    unfold going in *; cbn in *; unfold upd in *. rewrite (sv_cond _ H i (or_intror E)) in Hc. discriminate.
  - (* the condition becomes true: all slots are ahead *)
    exists i. unfold upd. rewrite decide_True by done. cbn. lia.
  - assert (Hg' : going s k /\ k <> i).
    { unfold going in *; cbn in *; unfold upd in *. destruct (decide (k = i)) as [->|]; [naive_solver|done]. }
    destruct Hg' as [Hg' Hk]. apply wake_advance; [done|done|done|]. rewrite E. cbn. lia.
  - assert (Hg' : going s k).
    { unfold going in *; cbn in *; unfold upd in *. destruct (decide (k = i)) as [->|]; [naive_solver|done]. }
    apply wake_advance; [done|done|done|]. by rewrite E.
  - pose proof (test_excludes s i p H E Es) as Ep.
    assert (Hg' : going s k /\ k <> p).
    { unfold going in *; cbn in *; unfold upd in *. destruct (decide (k = i)) as [->|]; [naive_solver|].
      destruct (decide (k = p)) as [->|]; [|done]. rewrite Ep in Hg. naive_solver. }
    destruct Hg' as [Hg' Hk]. apply wake_advance; [done|done|done|]. rewrite E. cbn. lia.
  - assert (Hg' : going s k).
    { unfold going in *; cbn in *; unfold upd in *. destruct (decide (k = i)) as [->|]; [naive_solver|done]. }
    assert (Hk : k <> p) by (intros ->; by apply Hn, (going_tested s i p)).
    apply wake_advance; [done|done|done|]. rewrite E. cbn. lia.
  - assert (Hg' : going s k).
    { unfold going in *; cbn in *; unfold upd in *. destruct (decide (k = i)) as [->|]; [naive_solver|done]. }
    apply wake_advance; [done|done|done|]. rewrite E. cbn.
    assert (k < NPROC)%nat; [|lia]. apply (sv_bound _ H). destruct Hg' as [Eg|[Eg|[Eg _]]]; by rewrite Eg.
Qed.

Lemma step_sinv s s' : sinv s -> step s s' -> sinv s'.
Proof.
  intros H Hst. split.
  - apply (step_lk _ _ Hst), H.
  - apply (step_plk _ _ Hst), H.
  - by apply (step_state _ _ Hst).
  - apply (step_bound _ _ Hst), H.
  - by apply (step_cond _ _ Hst).
  - by apply (step_wake _ _ Hst).
Qed.

Lemma start_sinv : sinv start.
Proof. split; cbn; try done; naive_solver. Qed.

(** C9: no wakeup is lost.  Any number of processes wait for a condition with [sleep] and
    signal it with [wakeup] under one lock, interleaved one lock operation or assignment
    at a time.  In every state they reach, if the condition holds and no process is
    inside [wakeup], then no process is asleep or about to sleep. *)
Theorem no_lost_wakeup s :
  rtc step start s -> s_cond s = true ->
  (forall j p, s_pc s j <> WkNext p /\ s_pc s j <> WkTest p) ->
  forall i, s_state s i <> SLEEPING /\ s_pc s i <> SlState.
Proof.
  intros Hr Hc Hno i. assert (H : sinv s) by (eapply rtc_invariant; [exact step_sinv|exact start_sinv|exact Hr]).
  assert (Hng : ~ going s i).
  { intros Hg. destruct (sv_wake _ H i Hc Hg) as [j Hj]. destruct (s_pc s j) eqn:E; try contradiction.
    - by apply (proj1 (Hno j p)).
    - by apply (proj2 (Hno j p)). }
  split; [|intros E; apply Hng; by left]. intros Es. apply Hng. pose proof (sv_state _ H i) as Hi.
  destruct (s_pc s i) eqn:E; try congruence; unfold going; rewrite E; auto.
Qed.

(** A signal while nobody sleeps: the loop of [wakeup] runs to its end. *)
Definition quiet (s : sys) (i p : nat) : Prop :=
  s_cond s = true /\ s_pc s i = WkNext p /\ (forall j, j <> i -> s_pc s j = Out) /\
  (forall q, s_plk s q = None) /\ (forall q, s_state s q = RUNNING).

Lemma loop_runs n s i p : (p + n = NPROC)%nat -> quiet s i p -> exists s', rtc step s s' /\ quiet s' i NPROC.
Proof.
  revert s p. induction n as [|n IH]; intros s p Hn Hq.
  { exists s. rewrite Nat.add_0_r in Hn. subst p. split; [apply rtc_refl|done]. }
  pose proof Hq as (Hc & E & Ho & Hl & Hs). destruct (decide (p = i)) as [->|Hne].
  - destruct (IH (goto i (WkNext (S i)) s) (S i)) as (s' & Hr & Hq'); [lia| |].
    + split_and!; try done; cbn; unfold upd; [by rewrite decide_True|].
      intros j Hj. rewrite decide_False by done. by apply Ho.
    + exists s'. split; [|done]. eapply rtc_l; [by apply st_wk_self|done].
  - set (s1 := goto i (WkTest p) (set_plk p (Some i) s)).
    set (s2 := goto i (WkNext (S p)) (set_plk p None s1)).
    destruct (IH s2 (S p)) as (s' & Hr & Hq'); [lia| |].
    + split_and!; try done; cbn; unfold upd; [by rewrite decide_True| |].
      * intros j Hj. rewrite !decide_False by done. by apply Ho.
      * intros q. by destruct (decide (q = p)).
    + exists s'. split; [|done]. eapply rtc_l; [by apply (st_wk_acquire s i p); [|lia| |]|].
      eapply rtc_l; [|exact Hr]. apply (st_wk_skip s1 i p); [cbn; unfold upd; by rewrite decide_True|].
      intros [Hx _]. cbn in Hx. by rewrite Hs in Hx.
Qed.

Lemma signalled : exists s, rtc step start s /\ s_cond s = true /\ forall j, s_pc s j = Out.
Proof.
  set (s1 := goto 0 WantSignal start). set (s2 := goto 0 Signal (set_lk (Some 0%nat) s1)).
  set (s3 := goto 0 (WkNext 0) (set_cond true s2)).
  destruct (loop_runs NPROC s3 0 0 eq_refl) as (s & Hr & Hc & E & Ho & _).
  { split_and!; try done. intros j Hj. cbn. unfold upd. by rewrite !decide_False. }
  exists (goto 0 Out (set_lk None s)). split_and!.
  - eapply rtc_l; [apply (st_signal start 0); [unfold NPROC; lia|done]|].
    eapply rtc_l; [by apply (st_acquire_signal s1 0)|]. eapply rtc_l; [by apply (st_make_true s2 0)|].
    eapply rtc_r; [exact Hr|]. by apply (st_wk_done s 0 NPROC).
  - done.
  - intros j. cbn. unfold upd. destruct (decide (j = 0%nat)); [done|by apply Ho].
Qed.

Lemma no_lost_wakeup_witness : exists s, rtc step start s /\ s_cond s = true /\ forall i, s_state s i <> SLEEPING.
Proof.
  destruct signalled as (s & Hr & Hc & Ho). exists s. split; [exact Hr|]. split; [exact Hc|].
  intros i. apply (no_lost_wakeup s Hr Hc).
  intros j p. rewrite Ho. split; discriminate.
Defined.
