(* ===== verification/Syscall.v ===== *)
(** * System calls (kernel/syscall.c, kernel/sysproc.c)

    The arguments of a system call are the registers saved in the process's trapframe;
    [syscall] looks the handler up and stores its result.  A handler returns [Some v], or
    [None] when the process has given the processor up inside it: it sleeps, or has
    exited, and the value is stored when it runs again. *)

From S2P Require Import Prelude Layout Memory Bytes Kalloc Vm VmMap VmUser VmFree VmLife VmCopy Priority Proc ProcOps ProcLife.

(** The kernel with the tick counter of kernel/trap.c. *)
Definition ksys (F : Type) : Type := kernel F * Z.
Definition ker_lens {F} : lens (ksys F) (kernel F) := mkLens fst (fun k s => (k, snd s)).
Notation ker m := (zoom ker_lens m).

(** The handlers of kernel/sysfile.c. *)
Inductive filecall : Set :=
| FcPipe | FcRead | FcExec | FcFstat | FcChdir | FcDup | FcOpen | FcWrite | FcMknod
| FcUnlink | FcLink | FcMkdir | FcClose.
Class FileCalls (F : Type) := { sys_file : filecall -> M (ksys F) (option Z) }.

Section Syscall.
Context {F : Type} `{ProcFiles F} `{FileCalls F}.
Variables kend trampoline forkret_addr : Z.
Variable xstate_addr : nat -> Z.
Variable fuel : nat.
(** The address of the local variable that [fetchaddr]'s callers pass. *)
Variable local_addr : Z.

(** ** kernel/syscall.c *)

Definition fetchaddr (addr : Z) : M (kernel F) (option Z) :=
  let! p := myproc in
  let! pp := gproc p in
  if (addr >=? p_sz pp) || (u64 (addr + 8) >? p_sz pp) then ret None
  else
    let! r := mem_op (copyin (p_pagetable pp) local_addr addr 8) in
    if negb (r =? 0) then ret None
    else let! v := mem_op (load64 local_addr) in ret (Some v).

Definition fetchstr (addr buf max : Z) : M (kernel F) Z :=
  let! p := myproc in
  let! pp := gproc p in
  let! r := mem_op (copyinstr (p_pagetable pp) buf addr (u64 max)) in
  if r <? 0 then ret (-1)
  else
    let! k := get in
    deref "strlen" (strlen (Z.to_nat max) (km_mem (k_mem k)) buf).

Definition argraw (n : Z) : M (kernel F) Z :=
  let! p := myproc in
  let! pp := gproc p in
  if (0 <=? n) && (n <=? 5) then mem_op (load64 (p_trapframe pp + tf_a n))
  else panic "argraw".

Definition argint (n : Z) : M (kernel F) Z := let! v := argraw n in ret (i32 v).
Definition argaddr (n : Z) : M (kernel F) Z := argraw n.
Definition argstr (n buf max : Z) : M (kernel F) Z :=
  let! addr := argaddr n in fetchstr addr buf max.

(** ** kernel/sysproc.c *)

Notation Sys := (M (ksys F)).

Definition sys_exit : Sys (option Z) :=
  let! n := ker (argint 0) in
  ker (exit fuel n);;;
  ret None.

Definition sys_getpid : Sys (option Z) :=
  let! p := ker myproc in
  let! pp := ker (gproc p) in
  ret (Some (p_pid pp)).

Definition sys_fork : Sys (option Z) :=
  let! r := ker (fork kend trampoline forkret_addr fuel) in
  ret (Some r).

Definition sys_wait : Sys (option Z) :=
  let! p := ker (argaddr 0) in
  ker (wait kend xstate_addr p).

Definition sys_sbrk : Sys (option Z) :=
  let! n := ker (argint 0) in
  let! p := ker myproc in
  let! pp := ker (gproc p) in
  let addr := p_sz pp in
  let! r := ker (growproc kend n) in
  ret (Some (if r <? 0 then -1 else addr)).

(** The loop of [sys_sleep], with [tickslock] held: it returns, or it sleeps on [ticks]. *)
Definition sleep_round (ticks0 n : Z) : Sys (option Z) :=
  let! ticks := gets snd in
  if u32 (ticks - ticks0) <? u32 n then
    let! p := ker myproc in
    let! k := ker (killed p) in
    if ctrue k then release LkTicks;;; ret (Some (-1))
    else ker (sleep ChTicks LkTicks);;; ret None
  else release LkTicks;;; ret (Some 0).

Definition sys_sleep : Sys (option Z) :=
  let! n := ker (argint 0) in
  let n := if n <? 0 then 0 else n in
  acquire LkTicks;;;
  let! ticks0 := gets snd in
  sleep_round ticks0 n.
(** The turns after the first, when the scheduler has resumed the process. *)
Definition sys_sleep_again (ticks0 n : Z) : Sys (option Z) :=
  ker (sleep_back LkTicks);;; sleep_round ticks0 n.

Definition sys_kill : Sys (option Z) :=
  let! pid := ker (argint 0) in
  let! r := ker (kill pid) in
  ret (Some r).

Definition sys_uptime : Sys (option Z) :=
  acquire LkTicks;;;
  let! xticks := gets snd in
  release LkTicks;;;
  ret (Some xticks).

(** ** The table and the dispatcher *)

Definition syscalls : list (option (Sys (option Z))) := [
  None;
  Some sys_fork;
  Some sys_exit;
  Some sys_wait;
  Some (sys_file FcPipe);
  Some (sys_file FcRead);
  Some sys_kill;
  Some (sys_file FcExec);
  Some (sys_file FcFstat);
  Some (sys_file FcChdir);
  Some (sys_file FcDup);
  Some sys_getpid;
  Some sys_sbrk;
  Some sys_sleep;
  Some sys_uptime;
  Some (sys_file FcOpen);
  Some (sys_file FcWrite);
  Some (sys_file FcMknod);
  Some (sys_file FcUnlink);
  Some (sys_file FcLink);
  Some (sys_file FcMkdir);
  Some (sys_file FcClose)].

(** [p->trapframe->a0 = v]. *)
Definition set_a0 (v : Z) : Sys unit :=
  let! p := ker myproc in
  let! pp := ker (gproc p) in
  ker (mem_op (store64 (p_trapframe pp + tf_a 0) (u64 v))).

(** [false]: the handler gave the processor up; it ends with [set_a0] later. *)
Definition syscall : Sys bool :=
  let! p := ker myproc in
  let! pp := ker (gproc p) in
  let! a7 := ker (mem_op (load64 (p_trapframe pp + tf_a 7))) in
  let num := i32 a7 in
  match (if 0 <? num then mjoin (znth syscalls num) else None) with
  | Some h =>
      let! r := h in
      match r with
      | Some v => set_a0 v;;; ret true
      | None => ret false
      end
  | None => set_a0 (-1);;; ret true
  end.

End Syscall.

(** ** Arguments fetched from user memory *)

Lemma ldn_le_val n m a : ldn n m a = le_val (bytes m a n).
Proof.
  revert a. induction n as [|n IH]; intros a; [done|]. rewrite bytes_S.
  change (mget m a + 256 * ldn n m (a + 1) = mget m a + 256 * le_val (bytes m (a + 1) n)). by rewrite IH.
Qed.

(** The bytes of user memory at [addr] are [bs]. *)
Definition user_bytes (A : gmap Z Z) (m : mem) (addr : Z) (bs : list Z) : Prop :=
  forall i b, bs !! i = Some b ->
    exists pa, uaddr A can_read (addr + Z.of_nat i) = Some pa /\ mget m pa = b.

Lemma fetched_user_bytes A m m' dst va n :
  fetched A m m' dst va (Z.of_nat n) -> user_bytes A m va (bytes m' dst n).
Proof.
  intros [Hb _] i b Hi. pose proof (lookup_lt_Some _ _ _ Hi) as Hlt. rewrite length_bytes in Hlt.
  rewrite bytes_lookup in Hi by done. injection Hi as <-.
  destruct (Hb (Z.of_nat i)) as (pa & Hpa & E); [lia|]. by exists pa.
Qed.

Section Fetch.
Context {F : Type}.
Variables (kend : Z) (kend_ok : KERNBASE <= kend <= PHYSTOP).
Variable local_addr : Z.

(** [fetchaddr] reads a word of the process and nothing else.  It returns the word at
    [addr] only when all eight bytes lie below [p->sz], also where [addr + 8] wraps around
    2^64; it returns -1 exactly when they do not, or when one of them is not mapped for
    the user; and besides the result variable it changes no memory. *)
Theorem fetchaddr_in_bounds addr th t m (z : F) l own A pp :
  pt_proc t !! th_proc th = Some pp -> is_u64 addr -> 0 <= p_sz pp <= MAXVA ->
  umem kend m l (p_pagetable pp) own A -> kbuf l own A local_addr 8 ->
  exists r m', fetchaddr local_addr addr th (mkKernel t m z) = Ok r th (mkKernel t m' z) /\
    (forall a, ~ (local_addr <= a < local_addr + 8) -> mget (km_mem m') a = mget (km_mem m) a) /\
    match r with
    | Some v => addr + 8 <= p_sz pp /\ exists bs, length bs = 8%nat /\ user_bytes A (km_mem m) addr bs /\ v = le_val bs
    | None => p_sz pp < addr + 8 \/ exists i, 0 <= i < 8 /\ uaddr A can_read (addr + i) = None
    end.
Proof.
  intros Hpp Ha Hsz Hum Hb. unfold fetchaddr.
  rewrite (bind_ok _ _ _ _ _ _ _ (eq_refl : myproc th _ = Ok _ th _)).
  rewrite (bind_ok _ _ _ _ _ _ _ (gproc_ok _ _ _ _ _ _ Hpp)).
  assert (Hg : (addr >=? p_sz pp) || (u64 (addr + 8) >? p_sz pp) = (p_sz pp <? addr + 8)).
  { rewrite Z.geb_leb, Z.gtb_ltb. assert (MAXVA = 274877906944) as HM by reflexivity. unfold u64.
    destruct (Z.leb_spec (p_sz pp) addr), (Z.ltb_spec (p_sz pp) (addr + 8)); try lia; cbn [orb].
    - rewrite Z.mod_small by lia. by apply Z.ltb_lt.
    - rewrite Z.mod_small by lia. apply Z.ltb_ge. lia. }
  rewrite Hg. destruct (Z.ltb_spec (p_sz pp) (addr + 8)) as [Hlt|Hle].
  { exists None, m. split; [done|]. split; [done|]. by left. }
  destruct (copyin_loop_ok kend kend_ok 8 local_addr addr 8 th m l (p_pagetable pp) own A Hum Hb Ha)
    as (r & k & m' & E & _ & Hk & Hf & Hr); [lia|].
  rewrite (bind_ok _ _ _ _ _ _ _ (mem_op_ok _ _ _ _ _ _ _ _ E)).
  assert (Hout : forall a, ~ (local_addr <= a < local_addr + 8) -> mget (km_mem m') a = mget (km_mem m) a).
  { intros a Hna. apply (fe_other _ _ _ _ _ _ Hf). lia. }
  destruct Hr as [[-> ->]|(-> & Hk' & Hn)]; cbn [Z.eqb negb].
  - rewrite (bind_ok _ _ _ _ _ _ _ (eq_refl : mem_op (load64 local_addr) th (mkKernel t m' z) = Ok _ th _)).
    exists (Some (ld64 (km_mem m') local_addr)), m'. split; [done|]. split; [done|]. split; [lia|].
    exists (bytes (km_mem m') local_addr 8). split; [apply length_bytes|].
    split; [by apply fetched_user_bytes|apply ldn_le_val].
  - exists None, m'. split; [done|]. split; [done|]. right. exists k. split; [lia|done].
Qed.

End Fetch.

(** ** Dispatch *)

Section Dispatch.
Context {F : Type} `{ProcFiles F} `{FileCalls F}.
Variables kend trampoline forkret_addr : Z.
Variable xstate_addr : nat -> Z.
Variable fuel : nat.
Notation table := (syscalls kend trampoline forkret_addr xstate_addr fuel).

Lemma ker_myproc th (k : kernel F) tk : zoom ker_lens myproc th (k, tk) = Ok (th_proc th) th (k, tk).
Proof. done. Qed.
Lemma ker_gproc th t m (z : F) tk pp :
  pt_proc t !! th_proc th = Some pp ->
  zoom ker_lens (gproc (th_proc th)) th (mkKernel t m z, tk) = Ok pp th (mkKernel t m z, tk).
Proof. intros Hpp. apply (zoom_ok ker_lens _ th (mkKernel t m z, tk) pp th (mkKernel t m z)). by apply gproc_ok. Qed.

Lemma set_a0_ok v th t m (z : F) tk pp :
  pt_proc t !! th_proc th = Some pp ->
  set_a0 v th (mkKernel t m z, tk) =
    Ok tt th (mkKernel t (set_mem (st64 (km_mem m) (p_trapframe pp + tf_a 0) (u64 v)) m) z, tk).
Proof.
  intros Hpp. unfold set_a0. rewrite (bind_ok _ _ _ _ _ _ _ (ker_myproc th _ _)).
  by rewrite (bind_ok _ _ _ _ _ _ _ (ker_gproc _ _ _ _ _ _ Hpp)).
Qed.

(** Every system call number is answered.  The number is the low 32 bits of [a7], as
    a signed integer.  From 1 to 21 the handler of the table runs and its result, when it
    returns one to the process that called, is stored in [a0]; any other number changes
    nothing but [a0], which becomes -1. *)
Theorem syscall_dispatches th t m (z : F) tk pp :
  pt_proc t !! th_proc th = Some pp ->
  let num := i32 (ld64 (km_mem m) (p_trapframe pp + tf_a 7)) in
  let run := syscall kend trampoline forkret_addr xstate_addr fuel th (mkKernel t m z, tk) in
  (~ 1 <= num <= 21 ->
     exists m', run = Ok true th (mkKernel t m' z, tk) /\ km_freelist m' = km_freelist m /\
       ld64 (km_mem m') (p_trapframe pp + tf_a 0) = 2 ^ 64 - 1 /\
       forall a, ~ (p_trapframe pp + tf_a 0 <= a < p_trapframe pp + tf_a 0 + 8) -> mget (km_mem m') a = mget (km_mem m) a) /\
  (1 <= num <= 21 ->
     exists h, table !! Z.to_nat num = Some (Some h) /\
       forall v th' t' m' z' tk' pp', h th (mkKernel t m z, tk) = Ok (Some v) th' (mkKernel t' m' z', tk') ->
         pt_proc t' !! th_proc th' = Some pp' ->
         exists m2, run = Ok true th' (mkKernel t' m2 z', tk') /\
           ld64 (km_mem m2) (p_trapframe pp' + tf_a 0) = u64 v).
Proof.
  intros Hpp num run. unfold run, syscall.
  rewrite (bind_ok _ _ _ _ _ _ _ (ker_myproc th _ _)).
  rewrite (bind_ok _ _ _ _ _ _ _ (ker_gproc _ _ _ _ _ _ Hpp)).
  rewrite (bind_ok _ _ _ _ _ _ _ (eq_refl : zoom ker_lens (mem_op (load64 (p_trapframe pp + tf_a 7))) th
    (mkKernel t m z, tk) = Ok (ld64 (km_mem m) (p_trapframe pp + tf_a 7)) th (mkKernel t m z, tk))).
  fold num. split.
  - intros Hnum.
    assert ((if 0 <? num then mjoin (znth table num) else None) = None) as ->.
    { destruct (Z.ltb_spec 0 num); [|done]. unfold znth. rewrite (proj2 (Z.leb_le 0 num)) by lia.
      rewrite lookup_ge_None_2; [done|]. change (length table) with 22%nat. lia. }
    rewrite (bind_ok _ _ _ _ _ _ _ (set_a0_ok (-1) th t m z tk pp Hpp)). eexists. split; [done|].
    split; [done|]. cbn [km_mem set_mem]. split; [by rewrite ld64_st64_eq|].
    intros a Ha. apply mget_stn_out. lia.
  - intros Hnum. destruct (lookup_lt_is_Some_2 table (Z.to_nat num)) as [oh Hoh]; [change (length table) with 22%nat; lia|].
    assert (exists h, oh = Some h) as [h ->].
    { destruct oh as [h|]; [by exists h|]. exfalso.
      assert (Hall : Forall is_Some (tail table)) by (unfold syscalls; cbn [tail]; repeat constructor; done).
      destruct (Z.to_nat num) as [|k] eqn:Ek; [lia|].
      rewrite <- lookup_tail in Hoh. by destruct (Forall_lookup_1 _ _ _ _ Hall Hoh). }
    exists h. split; [done|]. intros v th' t' m' z' tk' pp' Eh Hpp'.
    rewrite (proj2 (Z.ltb_lt 0 num)) by lia. unfold znth. rewrite (proj2 (Z.leb_le 0 num)) by lia. rewrite Hoh.
    cbn [mjoin option_join]. rewrite (bind_ok _ _ _ _ _ _ _ Eh). cbv beta iota.
    rewrite (bind_ok _ _ _ _ _ _ _ (set_a0_ok v th' t' m' z' tk' pp' Hpp')). eexists. split; [done|].
    cbn [km_mem set_mem]. rewrite ld64_st64_eq; [done|apply u64_range].
Qed.

End Dispatch.

Section Ticks.
Context {F : Type}.

(** [sys_sleep(n)] sleeps for [n] ticks, whatever the tick counter.  With [e] ticks gone
    since the call, of which the 32-bit counter may have wrapped around, the loop gives
    the processor up while [e < n], sleeping on the counter with no lock but its own, and
    otherwise returns 0; a killed process gets -1 instead of sleeping.  [tickslock] is
    released in every case. *)
Theorem sys_sleep_counts_ticks th t m (z : F) pp ticks0 n e :
  th_held th = [LkTicks] -> pt_proc t !! th_proc th = Some pp ->
  is_u32 ticks0 -> 0 <= n < 2 ^ 31 -> 0 <= e < 2 ^ 32 ->
  sleep_round ticks0 n th (mkKernel t m z, u32 (ticks0 + e)) =
    if e <? n then
      if p_killed pp =? 0 then
        Ok None (set_held [LkProc (th_proc th)] th)
          (mkKernel (setp t (th_proc th) (with_state SLEEPING (with_chan (Some ChTicks) pp))) m z, u32 (ticks0 + e))
      else Ok (Some (-1)) (set_held [] th) (mkKernel t m z, u32 (ticks0 + e))
    else Ok (Some 0) (set_held [] th) (mkKernel t m z, u32 (ticks0 + e)).
Proof.
  intros Hh Hpp Ht0 Hn He. unfold sleep_round.
  rewrite (bind_ok _ _ _ _ _ _ _ (eq_refl : gets snd th _ = Ok _ th _)). cbn [snd].
  assert (u32 (u32 (ticks0 + e) - ticks0) = e) as -> by (unfold u32; Z.div_mod_to_equations; lia).
  rewrite (u32_id n) by lia.
  assert (Hrel : forall s : ksys F, release LkTicks th s = Ok tt (set_held [] th) s) by (intros s; by apply release_ok; [|set_solver]).
  destruct (e <? n).
  2:{ by rewrite (bind_ok _ _ _ _ _ _ _ (Hrel _)). }
  rewrite (bind_ok _ _ _ _ _ _ _ (ker_myproc th _ _)).
  assert (Hlk : LkProc (th_proc th) ∉ th_held th) by (rewrite Hh; set_solver).
  rewrite (bind_ok _ _ _ _ _ _ _ (zoom_ok ker_lens _ th (mkKernel t m z, u32 (ticks0 + e)) _ _ _ (killed_ok _ _ _ _ _ _ Hlk Hpp))).
  unfold ctrue. cbn [over ker_lens snd]. destruct (Z.eqb_spec (p_killed pp) 0); cbn [negb].
  - erewrite bind_ok; [reflexivity|]. apply (zoom_ok ker_lens _ th (mkKernel t m z, u32 (ticks0 + e))).
    by apply sleep_ok.
  - by rewrite (bind_ok _ _ _ _ _ _ _ (Hrel _)).
Qed.

End Ticks.

(** ** Concrete calls *)

#[local] Existing Instance no_files.
(** Handlers for a kernel without files. *)
Definition no_calls : FileCalls unit := {| sys_file := fun _ => ret (Some (-1)) |}.
#[local] Existing Instance no_calls.

Lemma fetchaddr_in_bounds_witness :
  exists t m r m', fetchaddr 2000 (2 ^ 64 - 4) (idle 0) (mkKernel t m tt) = Ok r (idle 0) (mkKernel t m' tt).
Proof.
  destruct small_umem as (m & l & root & own & A & Hum).
  destruct (fetchaddr_in_bounds KERNBASE kernbase_ok 2000 (2 ^ 64 - 4) (idle 0)
      (setp table0 0 (with_sz 4096 (with_pagetable root slot0))) m tt l own A
      (with_sz 4096 (with_pagetable root slot0))) as (r & m' & E & _).
  - reflexivity.
  - lia.
  - vm_compute. split; discriminate.
  - exact Hum.
  - apply (low_kbuf KERNBASE m l root own A); [exact Hum|vm_compute; discriminate].
  - eexists _, m, r, m'. exact E.
Defined.

Lemma syscall_dispatches_witness :
  exists m', syscall KERNBASE KERNBASE 0 (fun _ => 0) NPROC (idle 0) (mkKernel table0 (mkKmem ∅ 0) tt, 0) =
    Ok true (idle 0) (mkKernel table0 m' tt, 0).
Proof.
  destruct (syscall_dispatches KERNBASE KERNBASE 0 (fun _ => 0) NPROC (idle 0) table0 (mkKmem ∅ 0) tt 0 slot0)
    as [Hbad _].
  - reflexivity.
  - destruct Hbad as (m' & E & _).
    + intros [Hlow _]. revert Hlow. vm_compute. intros Hlow. apply Hlow. reflexivity.
    + exists m'. exact E.
Defined.

Lemma sys_sleep_counts_ticks_witness :
  sleep_round (2 ^ 32 - 1) 3 (set_held [LkTicks] (idle 0)) (mkKernel table0 (mkKmem ∅ 0) tt, u32 (2 ^ 32 - 1 + 3)) =
    Ok (Some 0) (idle 0) (mkKernel table0 (mkKmem ∅ 0) tt, 2).
Proof.
  rewrite (sys_sleep_counts_ticks (set_held [LkTicks] (idle 0)) table0 (mkKmem ∅ 0) tt slot0 (2 ^ 32 - 1) 3 3).
  - reflexivity.
  - reflexivity.
  - reflexivity.
  - lia.
  - lia.
  - lia.
Defined.
