(* ===== verification/Trap.v ===== *)
(** * Traps (kernel/trap.c)

    A trap enters with the hart's control registers set by the hardware and leaves by
    [sret].  The control registers are a record beside the kernel; the interrupt
    controller and the two devices are the class [Devices].  Messages on the console are
    not part of the state. *)

From S2P Require Import Prelude Layout Memory Kalloc Vm Priority Proc ProcOps ProcLife Syscall.

Definition SSTATUS_SPP : Z := Z.shiftl 1 8.
Definition SSTATUS_SPIE : Z := Z.shiftl 1 5.
Definition SSTATUS_SIE : Z := Z.shiftl 1 1.
Definition SATP_SV39 : Z := Z.shiftl 8 60.
Definition MAKE_SATP (pagetable : Z) : Z := Z.lor SATP_SV39 (Z.shiftr pagetable 12).

(** The supervisor registers trap.c reads and writes. *)
Record hart := mkHart {
  h_sstatus : Z;
  h_stvec : Z;
  h_sepc : Z;
  h_scause : Z;
  h_satp : Z;
  h_tp : Z;
  h_time : Z;
  h_stimecmp : Z;
}.

Definition w_sstatus (x : Z) (h : hart) : hart :=
  mkHart x (h_stvec h) (h_sepc h) (h_scause h) (h_satp h) (h_tp h) (h_time h) (h_stimecmp h).
Definition w_stvec (x : Z) (h : hart) : hart :=
  mkHart (h_sstatus h) x (h_sepc h) (h_scause h) (h_satp h) (h_tp h) (h_time h) (h_stimecmp h).
Definition w_sepc (x : Z) (h : hart) : hart :=
  mkHart (h_sstatus h) (h_stvec h) x (h_scause h) (h_satp h) (h_tp h) (h_time h) (h_stimecmp h).
Definition w_stimecmp (x : Z) (h : hart) : hart :=
  mkHart (h_sstatus h) (h_stvec h) (h_sepc h) (h_scause h) (h_satp h) (h_tp h) (h_time h) x.

Definition intr_on (h : hart) : hart := w_sstatus (Z.lor (h_sstatus h) SSTATUS_SIE) h.
Definition intr_off (h : hart) : hart := w_sstatus (Z.land (h_sstatus h) (Z.lnot SSTATUS_SIE)) h.
Definition intr_get (h : hart) : bool := ctrue (Z.land (h_sstatus h) SSTATUS_SIE).

Definition mach (F : Type) : Type := ksys F * hart.
Definition sys_lens {F} : lens (mach F) (ksys F) := mkLens fst (fun x s => (x, snd s)).
Definition hart_lens {F} : lens (mach F) hart := mkLens snd (fun h s => (fst s, h)).

Class Devices (F : Type) := {
  plic_claim : M (ksys F) Z;
  plic_complete : Z -> M (ksys F) unit;
  uartintr : M (ksys F) unit;
  virtio_disk_intr : M (ksys F) unit;
}.

Section Trap.
Context {F : Type} `{ProcFiles F} `{FileCalls F} `{Devices F}.
Variables kend trampoline forkret_addr : Z.
Variable xstate_addr : nat -> Z.
Variable fuel : nat.
(** Addresses of code in kernelvec.S, trampoline.S and of [usertrap]. *)
Variables kernelvec uservec userret usertrap_addr : Z.

Notation T := (M (mach F)).
Notation sys m := (zoom sys_lens m).
Notation kern m := (zoom sys_lens (zoom ker_lens m)).
Notation csr f := (zoom hart_lens (modify f)).
Notation r_csr f := (zoom hart_lens (gets f)).

Definition trapinithart : T unit := csr (w_stvec kernelvec).

(** The timer interrupt; [cpuid()] is the [tp] register. *)
Definition clockintr : T unit :=
  let! cpu := r_csr h_tp in
  when (cpu =? 0)
    (sys (acquire LkTicks);;;
     sys (modify (fun s => (fst s, u32 (snd s + 1))));;;
     kern (wakeup (Some ChTicks));;;
     sys (release LkTicks));;;
  let! time := r_csr h_time in
  csr (w_stimecmp (u64 (time + 1000000))).

Definition devintr : T Z :=
  let! scause := r_csr h_scause in
  if scause =? 0x8000000000000009 then
    let! irq := sys plic_claim in
    (if irq =? UART0_IRQ then sys uartintr
     else if irq =? VIRTIO0_IRQ then sys virtio_disk_intr
     else ret tt);;;
    when (ctrue irq) (sys (plic_complete irq));;;
    ret 1
  else if scause =? 0x8000000000000005 then clockintr;;; ret 2
  else ret 0.

(** [p->trapframe->x = v]. *)
Definition set_tf (off v : Z) : T unit :=
  let! p := kern myproc in
  let! pp := kern (gproc p) in
  kern (mem_op (store64 (p_trapframe pp + off) (u64 v))).
Definition get_tf (off : Z) : T Z :=
  let! p := kern myproc in
  let! pp := kern (gproc p) in
  kern (mem_op (load64 (p_trapframe pp + off))).

(** It ends with the jump to [userret] with the user page table; the value is the
    argument of that call. *)
Definition usertrapret : T Z :=
  let! p := kern myproc in
  let! pp := kern (gproc p) in
  csr intr_off;;;
  csr (w_stvec (u64 (TRAMPOLINE + (uservec - trampoline))));;;
  let! satp := r_csr h_satp in
  set_tf tf_kernel_satp satp;;;
  set_tf tf_kernel_sp (p_kstack pp + PGSIZE);;;
  set_tf tf_kernel_trap usertrap_addr;;;
  let! tp := r_csr h_tp in
  set_tf tf_kernel_hartid tp;;;
  let! x := r_csr h_sstatus in
  let x := Z.land x (Z.lnot SSTATUS_SPP) in
  let x := Z.lor x SSTATUS_SPIE in
  csr (w_sstatus x);;;
  let! epc := get_tf tf_epc in
  csr (w_sepc epc);;;
  ret (MAKE_SATP (p_pagetable pp)).

(** [if (killed(p)) exit(-1);]: the call does not return when the process is killed. *)
Definition exit_if_killed : T bool :=
  let! p := kern myproc in
  let! k := kern (killed p) in
  if ctrue k then kern (exit fuel (-1));;; ret true else ret false.

(** [usertrap] after the trap has been handled.  [None]: the process has exited or given
    the processor up. *)
Definition usertrap_tail (which_dev : Z) : T (option Z) :=
  let! dead := exit_if_killed in
  if (dead : bool) then ret None
  else if which_dev =? 2 then kern yield;;; ret None
  else let! satp := usertrapret in ret (Some satp).
(** A process that yielded runs on here. *)
Definition usertrap_resume : T (option Z) :=
  kern yield_back;;;
  let! satp := usertrapret in
  ret (Some satp).

Definition usertrap : T (option Z) :=
  let! st := r_csr h_sstatus in
  when (ctrue (Z.land st SSTATUS_SPP)) (panic "usertrap: not from user mode");;;
  csr (w_stvec kernelvec);;;
  let! p := kern myproc in
  let! sepc := r_csr h_sepc in
  set_tf tf_epc sepc;;;
  let! scause := r_csr h_scause in
  if scause =? 8 then
    let! dead := exit_if_killed in
    if (dead : bool) then ret None
    else
      let! epc := get_tf tf_epc in
      set_tf tf_epc (epc + 4);;;
      csr intr_on;;;
      let! returned := sys (syscall kend trampoline forkret_addr xstate_addr fuel) in
      if (returned : bool) then usertrap_tail 0 else ret None
  else
    let! which_dev := devintr in
    when (which_dev =? 0) (kern (setkilled p));;;
    usertrap_tail which_dev.

(** [true]: the interrupted thread yielded; [kerneltrap_resume] runs when it is resumed,
    with the registers saved on its stack. *)
Definition kerneltrap (running : bool) : T bool :=
  let! sepc := r_csr h_sepc in
  let! sstatus := r_csr h_sstatus in
  when (Z.land sstatus SSTATUS_SPP =? 0) (panic "kerneltrap: not from supervisor mode");;;
  let! h := r_csr id in
  when (intr_get h) (panic "kerneltrap: interrupts enabled");;;
  let! which_dev := devintr in
  when (which_dev =? 0) (panic "kerneltrap");;;
  if (which_dev =? 2) && running then kern yield;;; ret true
  else csr (w_sepc sepc);;; csr (w_sstatus sstatus);;; ret false.
Definition kerneltrap_resume (sepc sstatus : Z) : T unit :=
  kern yield_back;;;
  csr (w_sepc sepc);;;
  csr (w_sstatus sstatus).

(** ** Going back to user space *)

Lemma kern_myproc th (k : kernel F) tk h : kern myproc th ((k, tk), h) = Ok (th_proc th) th ((k, tk), h).
Proof. done. Qed.

Lemma kern_ok {A} (op : M (kernel F) A) th a th' k k' tk h :
  op th k = Ok a th' k' -> kern op th ((k, tk), h) = Ok a th' ((k', tk), h).
Proof. intros E. unfold zoom. cbn. by rewrite E. Qed.

Lemma kern_inv {A} (op : M (kernel F) A) th a th' k tk h s' :
  kern op th ((k, tk), h) = Ok a th' s' -> exists k', op th k = Ok a th' k' /\ s' = ((k', tk), h).
Proof.
  intros (t & (k' & E & ->)%zoom_inv & ->)%zoom_inv. by exists k'.
Qed.

Lemma set_tf_ok off v th t m (z : F) tk h pp :
  pt_proc t !! th_proc th = Some pp ->
  set_tf off v th ((mkKernel t m z, tk), h) =
    Ok tt th ((mkKernel t (set_mem (st64 (km_mem m) (p_trapframe pp + off) (u64 v)) m) z, tk), h).
Proof.
  intros Hpp. unfold set_tf. rewrite (bind_ok _ _ _ _ _ _ _ (kern_myproc th _ _ _)).
  by rewrite (bind_ok _ _ _ _ _ _ _ (kern_ok _ _ _ _ _ _ _ _ (gproc_ok _ _ _ _ _ _ Hpp))).
Qed.

Lemma get_tf_ok off th t m (z : F) tk h pp :
  pt_proc t !! th_proc th = Some pp ->
  get_tf off th ((mkKernel t m z, tk), h) =
    Ok (ld64 (km_mem m) (p_trapframe pp + off)) th ((mkKernel t m z, tk), h).
Proof.
  intros Hpp. unfold get_tf. rewrite (bind_ok _ _ _ _ _ _ _ (kern_myproc th _ _ _)).
  by rewrite (bind_ok _ _ _ _ _ _ _ (kern_ok _ _ _ _ _ _ _ _ (gproc_ok _ _ _ _ _ _ Hpp))).
Qed.

(** The registers and the trapframe with which [userret] runs for the process [pp]. *)
Record user_ready (pp : proc) (m : kmem) (h : hart) (satp : Z) : Prop := mkUserReady {
  ur_satp : satp = MAKE_SATP (p_pagetable pp);
  ur_spp : Z.testbit (h_sstatus h) 8 = false;
  ur_spie : Z.testbit (h_sstatus h) 5 = true;
  ur_sie : Z.testbit (h_sstatus h) 1 = false;
  ur_stvec : h_stvec h = u64 (TRAMPOLINE + (uservec - trampoline));
  ur_sepc : h_sepc h = ld64 (km_mem m) (p_trapframe pp + tf_epc);
  ur_kstack : ld64 (km_mem m) (p_trapframe pp + tf_kernel_sp) = u64 (p_kstack pp + PGSIZE);
  ur_ktrap : ld64 (km_mem m) (p_trapframe pp + tf_kernel_trap) = u64 usertrap_addr;
}.

Lemma usertrapret_ok th t m (z : F) tk h pp :
  pt_proc t !! th_proc th = Some pp ->
  exists satp m' h', usertrapret th ((mkKernel t m z, tk), h) = Ok satp th ((mkKernel t m' z, tk), h') /\
    user_ready pp m' h' satp.
Proof.
  intros Hpp. unfold usertrapret. rewrite (bind_ok _ _ _ _ _ _ _ (kern_myproc th _ _ _)).
  rewrite (bind_ok _ _ _ _ _ _ _ (kern_ok _ _ _ _ _ _ _ _ (gproc_ok _ _ _ _ _ _ Hpp))).
  unfold bind at 1 2 3. cbn [zoom modify gets view over hart_lens snd fst].
  rewrite !(bind_ok _ _ _ _ _ _ _ (set_tf_ok _ _ _ _ _ _ _ _ _ Hpp)).
  unfold bind at 1. cbn [zoom modify gets view over hart_lens snd fst].
  rewrite (bind_ok _ _ _ _ _ _ _ (set_tf_ok _ _ _ _ _ _ _ _ _ Hpp)).
  unfold bind at 1 2. cbn [zoom modify gets view over hart_lens snd fst].
  rewrite (bind_ok _ _ _ _ _ _ _ (get_tf_ok _ _ _ _ _ _ _ _ Hpp)).
  eexists _, _, _. split; [reflexivity|].
  split; cbn -[Z.testbit Z.land Z.lor Z.lnot ldn stn Z.add Z.sub SSTATUS_SPP SSTATUS_SPIE SSTATUS_SIE].
  - done.
  - by rewrite Z.lor_spec, !Z.land_spec, andb_false_r.
  - by rewrite Z.lor_spec, orb_true_r.
  - by rewrite Z.lor_spec, !Z.land_spec, andb_false_r.
  - done.
  - done.
  - unfold tf_kernel_sp, tf_kernel_trap, tf_kernel_hartid. rewrite !ldn_stn_ne by lia. apply ld64_st64_eq, u64_range.
  - unfold tf_kernel_sp, tf_kernel_trap, tf_kernel_hartid. rewrite !ldn_stn_ne by lia. apply ld64_st64_eq, u64_range.
Qed.

Lemma killed_inv p th (k : kernel F) v th' k' :
  killed p th k = Ok v th' k' -> k' = k /\ exists pp, pt_proc (k_pt k) !! p = Some pp /\ v = p_killed pp /\ th_proc th' = th_proc th.
Proof.
  destruct k as [t m z]. unfold killed. intros ([] & th1 & k1 & E1 & Hr)%bind_inv.
  unfold acquire in E1. case_bool_decide as Hheld; [done|]. injection E1 as <- <-.
  apply bind_inv in Hr as (pp & th2 & k2 & E2 & Hr). revert E2. unfold gproc, zoom, get_proc. cbn.
  destruct (pt_proc t !! p) as [q|] eqn:Hq; [|done]. intros [= <- <- <-].
  apply bind_inv in Hr as ([] & th3 & k3 & E3 & E4). unfold release in E3. case_bool_decide as Hheld'; [|done].
  injection E3 as <- <-. injection E4 as <- <- <-. split; [done|]. by exists q.
Qed.

Lemma tail_returns_alive d th s satp th' s' :
  usertrap_tail d th s = Ok (Some satp) th' s' ->
  exists pp, pt_proc (k_pt (fst (fst s'))) !! th_proc th' = Some pp /\ p_killed pp = 0 /\
    user_ready pp (k_mem (fst (fst s'))) (snd s') satp.
Proof.
  destruct s as [[k tk] h]. unfold usertrap_tail. intros (dead & th1 & s1 & E1 & E2)%bind_inv.
  apply bind_inv in E1 as (p & tha & sa & Ea & Eb). rewrite kern_myproc in Ea. injection Ea as <- <- <-.
  apply bind_inv in Eb as (v & thb & sb & Eb & Ec).
  apply kern_inv in Eb as (k' & Ek & ->). apply killed_inv in Ek as (-> & pp & Hpp & -> & Hth).
  unfold ctrue in Ec. destruct (Z.eqb_spec (p_killed pp) 0) as [Hk|Hk]; cbn [negb] in Ec.
  2:{ apply bind_inv in Ec as (? & ? & ? & _ & [= <- <- <-]). done. }
  injection Ec as <- <- <-. destruct (d =? 2).
  { apply bind_inv in E2 as (? & ? & ? & _ & E). done. }
  apply bind_inv in E2 as (v & thc & sc & Ec & [= <- <- <-]). destruct k as [t m z]. cbn [k_pt] in Hpp.
  rewrite <- Hth in Hpp. destruct (usertrapret_ok thb t m z tk h pp Hpp) as (satp' & m' & h' & E & Hr).
  rewrite E in Ec. injection Ec as <- <- <-. exists pp. by cbn.
Qed.

(** The test of [killed] of a live process goes on. *)
Lemma exit_if_killed_alive th t m (z : F) tk h pp :
  pt_proc t !! th_proc th = Some pp -> LkProc (th_proc th) ∉ th_held th -> p_killed pp = 0 ->
  exit_if_killed th ((mkKernel t m z, tk), h) = Ok false th ((mkKernel t m z, tk), h).
Proof.
  intros Hpp Hlk Hk. unfold exit_if_killed. rewrite (bind_ok _ _ _ _ _ _ _ (kern_myproc th _ _ _)).
  by rewrite (bind_ok _ _ _ _ _ _ _ (kern_ok _ _ _ _ _ _ _ _ (killed_ok _ _ _ _ _ _ Hlk Hpp))), Hk.
Qed.

Lemma yield_ok th t m (z : F) pp :
  th_held th = [] -> pt_proc t !! th_proc th = Some pp ->
  yield th (mkKernel t m z) = Ok tt (set_held [LkProc (th_proc th)] th) (mkKernel (setp t (th_proc th) (with_state RUNNABLE pp)) m z).
Proof.
  intros Hh Hpp. unfold yield. rewrite (bind_ok _ _ _ _ _ _ _ (eq_refl : myproc th _ = Ok _ th _)).
  rewrite (bind_ok _ _ _ _ _ _ _ (acquire_only _ th _ Hh)), (bind_ok _ _ _ _ _ _ _ (uproc_ok _ _ _ _ _ _ _ Hpp)).
  eapply sched_ok; [done|apply lookup_setp_lt; by eapply lookup_lt_Some|by destruct pp].
Qed.


End Trap.

(** ** A trap *)

#[local] Existing Instance no_files.
#[local] Existing Instance no_calls.
(** A machine whose interrupt controller has nothing to report. *)
Definition no_devices : Devices unit :=
  {| plic_claim := ret 0; plic_complete := fun _ => ret tt; uartintr := ret tt; virtio_disk_intr := ret tt |}.
#[local] Existing Instance no_devices.

Definition trapped : mach unit :=
  ((mkKernel table0 (mkKmem ∅ 0) tt, 0), mkHart 0 0 0x1000 0x8000000000000009 0 0 0 0).

