(* ===== verification/Boot.v ===== *)
(** * From reset to the scheduler (kernel/start.c, kernel/main.c, kernel/plic.c)

    [start] runs in machine mode on every hart and leaves with [mret] for [main] in
    supervisor mode; the control registers are those of the privileged architecture, in
    which [sie] is the part of [mie] that [mideleg] delegates.  In [main] hart 0
    initialises the kernel while the others wait for the flag [started]: the calls of all
    harts interleave as a step relation.  The interrupt controller is memory-mapped. *)

From S2P Require Import Prelude Layout.

(** ** Control registers (kernel/riscv.h) *)

Inductive creg :=
| Mhartid | Mstatus | Mepc | Mie | Medeleg | Mideleg | Menvcfg | Mcounteren | Pmpcfg0 | Pmpaddr0
| Satp | Stvec | Sepc | Scause | Stval | Stimecmp | Time | Tp.

#[export] Instance creg_eq_dec : EqDecision creg.
Proof. solve_decision. Defined.

(** A hart: its registers, its privilege mode (0 user, 1 supervisor, 3 machine) and where it
    executes. *)
Record cpu := mkCpu { c_reg : creg -> Z; c_mode : Z; c_pc : Z }.

Definition set_reg (r : creg) (x : Z) (c : cpu) : cpu :=
  mkCpu (fun r' => if decide (r' = r) then u64 x else c_reg c r') (c_mode c) (c_pc c).

(** [r_mhartid], [r_mstatus], ..., [r_tp] and [w_mstatus], ..., [w_tp]. *)
Definition r_reg (r : creg) : M cpu Z := gets (fun c => c_reg c r).
Definition w_reg (r : creg) (x : Z) : M cpu unit := modify (set_reg r x).

(** The interrupts delegated to supervisor mode, through [sie]. *)
Definition r_sie : M cpu Z :=
  let! mie := r_reg Mie in let! d := r_reg Mideleg in ret (Z.land mie d).
Definition w_sie (x : Z) : M cpu unit :=
  let! mie := r_reg Mie in let! d := r_reg Mideleg in w_reg Mie (Z.lor (Z.ldiff mie d) (Z.land x d)).

Definition MSTATUS_MPP_MASK : Z := Z.shiftl 3 11.
Definition MSTATUS_MPP_S : Z := Z.shiftl 1 11.
Definition SIE_SEIE : Z := Z.shiftl 1 9.
Definition SIE_STIE : Z := Z.shiftl 1 5.
Definition SIE_SSIE : Z := Z.shiftl 1 1.
Definition MIE_STIE : Z := Z.shiftl 1 5.

(** The interrupts that can be delegated are those the hart implements for supervisor mode;
    the other bits of [mideleg] read as zero. *)
Definition w_mideleg (s_ints x : Z) : M cpu unit := w_reg Mideleg (Z.land x s_ints).

(** [mret] goes to [mepc] in the mode of the field MPP; the field then holds user mode, and
    MIE takes the value of MPIE, which is set. *)
Definition mret : M cpu unit := modify (fun c =>
  let m := c_reg c Mstatus in
  let m' := Z.lor (Z.lor (Z.ldiff m (Z.lor MSTATUS_MPP_MASK (Z.shiftl 1 3))) (if Z.testbit m 7 then Z.shiftl 1 3 else 0)) (Z.shiftl 1 7) in
  mkCpu (c_reg (set_reg Mstatus m' c)) (Z.land (Z.shiftr m 11) 3) (c_reg c Mepc)).

(** ** kernel/start.c *)

Definition timerinit : M cpu unit :=
  let! mie := r_reg Mie in
  w_reg Mie (Z.lor mie MIE_STIE);;;
  let! e := r_reg Menvcfg in
  w_reg Menvcfg (Z.lor e (Z.shiftl 1 63));;;
  let! m := r_reg Mcounteren in
  w_reg Mcounteren (Z.lor m 2);;;
  let! t := r_reg Time in
  w_reg Stimecmp (t + 1000000).

Definition start (s_ints main_addr : Z) : M cpu unit :=
  let! x := r_reg Mstatus in
  let x := Z.land x (Z.lnot MSTATUS_MPP_MASK) in
  let x := Z.lor x MSTATUS_MPP_S in
  w_reg Mstatus x;;;
  w_reg Mepc main_addr;;;
  w_reg Satp 0;;;
  w_reg Medeleg 0xffff;;;
  w_mideleg s_ints 0xffff;;;
  let! s := r_sie in
  w_sie (Z.lor (Z.lor (Z.lor s SIE_SEIE) SIE_STIE) SIE_SSIE);;;
  w_reg Pmpaddr0 0x3fffffffffffff;;;
  w_reg Pmpcfg0 0xf;;;
  timerinit;;;
  let! id := r_reg Mhartid in
  w_reg Tp (i32 id);;;
  mret.

(** ** kernel/plic.c *)

(** A 32-bit register of the controller at an address; reading may change its state. *)
Class Plic (D : Type) := {
  plic_read : Z -> M D Z;
  plic_write : Z -> Z -> M D unit;
}.

Section Plic.
Context {D : Type} `{Plic D}.

Definition plicinit : M D unit :=
  plic_write (PLIC + UART0_IRQ * 4) 1;;;
  plic_write (PLIC + VIRTIO0_IRQ * 4) 1.

(** [cpuid()] is an argument. *)
Definition plicinithart (hart : Z) : M D unit :=
  plic_write (PLIC_SENABLE hart) (Z.lor (Z.shiftl 1 UART0_IRQ) (Z.shiftl 1 VIRTIO0_IRQ));;;
  plic_write (PLIC_SPRIORITY hart) 0.

Definition plic_claim (hart : Z) : M D Z :=
  let! irq := plic_read (PLIC_SCLAIM hart) in
  ret (i32 irq).

Definition plic_complete (hart irq : Z) : M D unit := plic_write (PLIC_SCLAIM hart) (u32 irq).

End Plic.

(** ** kernel/main.c *)

Inductive call :=
| Consoleinit | Printfinit | Newline | Banner | Kinit | Kvminit | Kvminithart | Procinit | Trapinit | Trapinithart
| Plicinit | Plicinithart | Binit | Iinit | Fileinit | Virtio_disk_init | Init_priority_control | Userinit
| Set_started | Wait_started | Hart_starting | Scheduler.

Definition main0 : list call :=
  [Consoleinit; Printfinit; Newline; Banner; Newline; Kinit; Kvminit; Kvminithart; Procinit; Trapinit; Trapinithart; Plicinit; Plicinithart;
   Binit; Iinit; Fileinit; Virtio_disk_init; Init_priority_control; Userinit; Set_started].
Definition main1 : list call := [Wait_started; Hart_starting; Kvminithart; Trapinithart; Plicinithart].

Definition main (cpuid : nat) : list call := (if (cpuid =? 0)%nat then main0 else main1) ++ [Scheduler].

(** All harts: the flag, what each hart still has to do, and what has been done. *)
Record harts := mkHarts { started : bool; todo : nat -> list call; done_calls : list (nat * call) }.

Definition harts0 : harts := mkHarts false main [].

(** One call of a hart; waiting ends only when the flag is set. *)
Inductive bstep : harts -> harts -> Prop :=
| bs_call s h c r : todo s h = c :: r -> (c = Wait_started -> started s = true) ->
    bstep s (mkHarts (started s || match c with Set_started => true | _ => false end)
               (fun h' => if (h' =? h)%nat then r else todo s h') (done_calls s ++ [(h, c)])).

Definition calls_of (h : nat) (l : list (nat * call)) : list call := snd <$> filter (fun e => fst e = h) l.

(** ** Entering the kernel *)

Lemma testbit_u64 x i : 0 <= i < 64 -> Z.testbit (u64 x) i = Z.testbit x i.
Proof. intros Hi. unfold u64. apply Z.mod_pow2_bits_low. lia. Qed.

(** The mode field that [start] leaves in [mstatus] is supervisor mode. *)
Lemma mpp_supervisor x :
  Z.land (Z.shiftr (u64 (Z.lor (Z.land x (Z.lnot MSTATUS_MPP_MASK)) MSTATUS_MPP_S)) 11) 3 = 1.
Proof.
  apply Z.bits_inj'. intros i Hi. change 3 with (Z.ones 2). rewrite Z.land_spec.
  destruct (Z.ltb_spec i 2).
  - rewrite Z.shiftr_spec, testbit_u64, Z.lor_spec, Z.land_spec, Z.lnot_spec by lia.
    assert (i = 0 \/ i = 1) as [-> | ->] by lia; [generalize (Z.testbit x (0 + 11)) | generalize (Z.testbit x (1 + 11))]; intros []; reflexivity.
  - rewrite Z.ones_spec_high, andb_false_r by lia. symmetry. apply Z.bits_above_log2; [lia |]. change (Z.log2 1) with 0. lia.
Qed.

(** What [start] promises to [main]: supervisor mode, no paging, the three supervisor
    interrupts enabled, the timer set and allowed, and the hart number in [tp]. *)
Record entered (main_addr : Z) (c c' : cpu) : Prop := {
  en_mode : c_mode c' = 1;
  en_pc : c_pc c' = main_addr;
  en_satp : c_reg c' Satp = 0;
  en_tp : c_reg c' Tp = u64 (i32 (c_reg c Mhartid));
  en_ints : Forall (fun i => Z.testbit (Z.land (c_reg c' Mie) (c_reg c' Mideleg)) i = true) [1; 5; 9];
  en_timer : c_reg c' Stimecmp = u64 (c_reg c Time + 1000000);
  en_sstc : Z.testbit (c_reg c' Menvcfg) 63 = true /\ Z.testbit (c_reg c' Mcounteren) 1 = true;
}.

(** An interrupt that is delegated and that [start] asks for stays enabled. *)
Lemma start_interrupt mie s_ints i :
  let d := u64 (Z.land 0xffff s_ints) in
  let want := Z.lor (Z.lor (Z.lor (Z.land mie d) SIE_SEIE) SIE_STIE) SIE_SSIE in
  i ∈ [1; 5; 9] -> Z.testbit s_ints i = true ->
  Z.testbit (Z.land (u64 (Z.lor (u64 (Z.lor (Z.ldiff mie d) (Z.land want d))) MIE_STIE)) d) i = true.
Proof.
  intros d want Hi Hs.
  assert (Hr : 0 <= i < 64 /\ Z.testbit 0xffff i = true /\ Z.testbit want i = true).
  { unfold want. rewrite !Z.lor_spec. rewrite !elem_of_cons in Hi.
    destruct Hi as [-> | [-> | [-> | Hi]]]; [..| set_solver]; (split; [lia | split; [reflexivity |]]); cbn; rewrite ?orb_true_r; reflexivity. }
  destruct Hr as (Hr & Hf & Hw).
  assert (Hd : Z.testbit d i = true) by (unfold d; rewrite testbit_u64, Z.land_spec, Hf, Hs by lia; reflexivity).
  rewrite Z.land_spec, testbit_u64, Z.lor_spec, testbit_u64, Z.lor_spec, Z.land_spec, Hw, Hd by lia.
  rewrite orb_true_r. reflexivity.
Qed.

(** From any state of the registers [start] ends in [main], as [main] expects to be entered,
    on a hart that implements the software, timer and external interrupts of supervisor mode. *)
Theorem start_enters_main s_ints main_addr thr c :
  is_u64 main_addr ->
  Forall (fun i => Z.testbit s_ints i = true) [1; 5; 9] ->
  exists c', start s_ints main_addr thr c = Ok tt thr c' /\ entered main_addr c c'.
Proof.
  intros Hm Hs. exists (match start s_ints main_addr thr c with Ok _ _ c' => c' | _ => c end). split; [reflexivity |]. split.
  - apply mpp_supervisor.
  - apply u64_id, Hm.
  - reflexivity.
  - reflexivity.
  - rewrite Forall_forall in Hs |- *. intros i Hi. apply (start_interrupt (c_reg c Mie) s_ints i Hi (Hs i Hi)).
  - reflexivity.
  - split.
    + change (Z.testbit (u64 (Z.lor (c_reg c Menvcfg) (Z.shiftl 1 63))) 63 = true). rewrite testbit_u64, Z.lor_spec by lia. apply orb_true_r.
    + change (Z.testbit (u64 (Z.lor (c_reg c Mcounteren) 2)) 1 = true). rewrite testbit_u64, Z.lor_spec by lia. apply orb_true_r.
Qed.

(** ** The registers of the interrupt controller *)

(** The addresses the driver uses, as a trace. *)
#[export] Instance plic_trace : Plic (list Z) := {
  plic_read a := modify (fun l => l ++ [a]);;; ret 0;
  plic_write a _ := modify (fun l => l ++ [a]);
}.

(** Every access of the driver is to a word of the range that [kvmmake] maps for the
    controller, on each of the harts. *)
Theorem plic_accesses_mapped thr hart irq :
  0 <= hart < Z.of_nat NCPU ->
  exists l, (plicinit;;; plicinithart hart;;; plic_claim hart;;; plic_complete hart irq) thr [] = Ok tt thr l /\
    Forall (fun a => a mod 4 = 0 /\ PLIC <= a /\ a + 4 <= PLIC + 0x4000000) l.
Proof.
  intros Hh. eexists. split; [reflexivity |].
  unfold PLIC_SENABLE, PLIC_SPRIORITY, PLIC_SCLAIM, PLIC, UART0_IRQ, VIRTIO0_IRQ, NCPU in *.
  repeat apply Forall_cons_2; [.. | apply Forall_nil_2]; split; try lia; Z.div_mod_to_equations; lia.
Qed.

(** ** The order of the boot *)

Lemma calls_of_snoc h l h' c : calls_of h (l ++ [(h', c)]) = calls_of h l ++ (if (h' =? h)%nat then [c] else []).
Proof.
  unfold calls_of. rewrite filter_app, fmap_app. f_equal.
  destruct (Nat.eqb_spec h' h) as [-> | Hne].
  - rewrite filter_cons_True by reflexivity. reflexivity.
  - rewrite filter_cons_False by exact Hne. reflexivity.
Qed.

(** The invariant: what is done and what is left make up [main]; the flag is set exactly when
    hart 0 has set it; no other hart has done anything before. *)
Definition boot_inv (s : harts) : Prop :=
  (forall h, calls_of h (done_calls s) ++ todo s h = main h) /\
  (started s = true <-> Set_started ∈ calls_of 0 (done_calls s)) /\
  (forall l1 h c l2, done_calls s = l1 ++ (h, c) :: l2 -> h <> 0%nat -> Set_started ∈ calls_of 0 l1).

(** Setting the flag is the last call of hart 0's initialisation. *)
Lemma set_started_last l r : l ++ r = main 0 -> Set_started ∈ l -> main0 `prefix_of` l.
Proof.
  set (before := take 19 main0). intros Heq Hin.
  assert (Hno : Set_started ∉ before) by (intros H; unfold before in H; cbn in H; rewrite !elem_of_cons in H; set_solver).
  change (main 0) with (before ++ [Set_started; Scheduler]) in Heq.
  apply app_eq_inv in Heq as [(k & -> & Hk) | (k & Hk & _)].
  - destruct k as [|x k]; [rewrite app_nil_r in Hin; contradiction |].
    injection Hk as <- _. exists k. reflexivity.
  - exfalso. apply Hno. rewrite Hk. set_solver.
Qed.

Lemma calls_of_nonnil h l : calls_of h l <> [] -> exists l1 c l2, l = l1 ++ (h, c) :: l2.
Proof.
  unfold calls_of. intros H. destruct (filter _ l) as [|[h' c] k] eqn:E; [contradiction |].
  assert (Hin : (h', c) ∈ filter (fun e => fst e = h) l) by (rewrite E; left).
  apply list_elem_of_filter in Hin as [<- Hin]. apply list_elem_of_split in Hin as (l1 & l2 & ->). eauto.
Qed.

Lemma calls_of_app_elem h x l1 l2 : x ∈ calls_of h l1 -> x ∈ calls_of h (l1 ++ l2).
Proof. unfold calls_of. rewrite filter_app, fmap_app. set_solver. Qed.

(** A hart other than 0 that can go on runs after the flag was set. *)
Lemma other_hart_waits s h c r :
  boot_inv s -> todo s h = c :: r -> (c = Wait_started -> started s = true) -> h <> 0%nat ->
  Set_started ∈ calls_of 0 (done_calls s) /\ c <> Set_started.
Proof.
  intros (Hmain & Hflag & Hord) Ht Hw Hh. pose proof (Hmain h) as Hm. rewrite Ht in Hm.
  unfold main in Hm. destruct (Nat.eqb_spec h 0) as [| _]; [contradiction |]. split.
  - destruct (calls_of h (done_calls s)) as [|x l] eqn:E.
    + injection Hm as -> _. apply Hflag, Hw. reflexivity.
    + destruct (calls_of_nonnil h (done_calls s)) as (l1 & c' & l2 & Hl); [congruence |].
      rewrite Hl. apply calls_of_app_elem. exact (Hord _ _ _ _ Hl Hh).
  - intros ->. assert (Hin : Set_started ∈ main1 ++ [Scheduler]) by (rewrite <- Hm; set_solver).
    cbn in Hin. rewrite !elem_of_cons in Hin. set_solver.
Qed.

Lemma boot_inv_init : boot_inv harts0.
Proof.
  split; [reflexivity | split].
  - cbn. split; [discriminate | intros H; set_solver].
  - intros [|] h c l2 H; discriminate.
Qed.

Lemma bstep_inv s s' : boot_inv s -> bstep s s' -> boot_inv s'.
Proof.
  intros Hinv Hstep. destruct Hstep as [s h c r Ht Hw]. pose proof Hinv as (Hmain & Hflag & Hord).
  assert (Hother : h <> 0%nat -> Set_started ∈ calls_of 0 (done_calls s) /\ c <> Set_started)
    by (eapply other_hart_waits; eauto).
  split; [| split]; cbn -[calls_of].
  - intros h'. rewrite calls_of_snoc, (Nat.eqb_sym h h').
    destruct (Nat.eqb_spec h' h) as [-> |]; [| rewrite app_nil_r; apply Hmain].
    rewrite <- app_assoc. cbn. rewrite <- Ht. apply Hmain.
  - rewrite calls_of_snoc, elem_of_app, orb_true_iff, Hflag.
    destruct (Nat.eqb_spec h 0) as [-> | Hh].
    + rewrite list_elem_of_singleton. destruct c; naive_solver.
    + destruct (Hother Hh) as [H1 H2]. split; left; [exact H1 | exact H1].
  - intros l1 h' c' l2 Heq Hh'. destruct l2 as [|e l2 _] using rev_ind.
    + apply app_inj_tail in Heq as [<- [= <- <-]]. apply Hother, Hh'.
    + rewrite app_comm_cons, app_assoc in Heq. apply app_inj_tail in Heq as [Heq _]. eapply Hord; eauto.
Qed.

(** The order of the boot: in every interleaving each hart makes the calls of [main] in order;
    a hart other than 0 makes its first call only after hart 0 has finished its
    initialisation; and while any hart has calls left, some hart can go on. *)
Theorem boot_order s :
  rtc bstep harts0 s ->
  (forall h, calls_of h (done_calls s) `prefix_of` main h) /\
  (forall l1 h c l2, done_calls s = l1 ++ (h, c) :: l2 -> h <> 0%nat -> main0 `prefix_of` calls_of 0 l1) /\
  (forall h, todo s h <> [] -> exists s', bstep s s').
Proof.
  intros Hr. assert (Hinv : boot_inv s).
  { exact (rtc_invariant bstep boot_inv harts0 s bstep_inv boot_inv_init Hr). }
  pose proof Hinv as (Hmain & Hflag & Hord).
  split; [intros h; exists (todo s h); symmetry; apply Hmain | split].
  - intros l1 h c l2 Heq Hh. pose proof (Hmain 0%nat) as H0. rewrite Heq in H0. unfold calls_of in H0 at 1.
    rewrite filter_app, fmap_app, <- app_assoc in H0. eapply set_started_last; [exact H0 | eapply Hord; eauto].
  - intros h Hh. destruct (todo s 0) as [|c r] eqn:E.
    + destruct (todo s h) as [|c r] eqn:Eh; [contradiction |]. eexists. eapply bs_call; [exact Eh |]. intros _.
      apply Hflag. specialize (Hmain 0%nat). rewrite E, app_nil_r in Hmain. rewrite Hmain. cbn. rewrite !elem_of_cons. tauto.
    + eexists. eapply bs_call; [exact E |]. intros ->. specialize (Hmain 0%nat). rewrite E in Hmain.
      assert (Hin : Wait_started ∈ main 0) by (rewrite <- Hmain; set_solver).
      cbn in Hin. rewrite !elem_of_cons in Hin. set_solver.
Qed.

(** A hart that implements the three interrupts of supervisor mode. *)
Lemma start_enters_main_witness thr : exists c',
  start 0x222 0x80000000 thr (mkCpu (fun _ => 0) 3 0) = Ok tt thr c' /\ entered 0x80000000 (mkCpu (fun _ => 0) 3 0) c'.
Proof. apply start_enters_main; [lia | repeat constructor]. Defined.
