(* ===== verification/Spinlock.v ===== *)
(** * Spin locks between harts (kernel/spinlock.c)

    [acquire] and [release] are run by several harts at once, so they are modelled
    in small steps: one step per access to the shared lock, with everything that
    only touches the hart's own [struct cpu] folded into the step it belongs to.  A
    hart between two calls may start another one or switch its interrupts, and the
    steps of different harts interleave freely.  [h_held] and [h_base] are ghost
    state: the locks the hart has won with its atomic swap and not given back, and
    the state its interrupts were in outside every [push_off]. *)

From S2P Require Import Prelude Layout.

Record spinlock := mkSpinlock { lk_locked : Z; lk_cpu : option nat }.

Definition initlock : spinlock := mkSpinlock 0 None.

(** Where a hart is inside [acquire] or [release]. *)
Inductive spin_pc : Type :=
| PcRun
| PcAcqHolding (l : nat)    (* after push_off, before if(holding(lk)) *)
| PcAcqSwap (l : nat)       (* before __sync_lock_test_and_set *)
| PcAcqCpu (l : nat)        (* before lk->cpu = mycpu() *)
| PcRelHolding (l : nat)    (* before if(!holding(lk)) *)
| PcRelCpu (l : nat)        (* before lk->cpu = 0 *)
| PcRelUnlock (l : nat)     (* before __sync_lock_release *)
| PcRelPop                  (* before pop_off() *)
| PcPanic (msg : string).

Record hart := mkHart {
  h_pc : spin_pc;
  h_intr : bool;            (* SSTATUS_SIE, what intr_get() reads *)
  h_noff : Z;
  h_intena : bool;
  h_held : list nat;
  h_base : bool;
}.

Definition set_pc (pc : spin_pc) (h : hart) : hart :=
  mkHart pc (h_intr h) (h_noff h) (h_intena h) (h_held h) (h_base h).
Definition set_hheld (ls : list nat) (h : hart) : hart :=
  mkHart (h_pc h) (h_intr h) (h_noff h) (h_intena h) ls (h_base h).

Definition push_off (h : hart) : hart :=
  mkHart (h_pc h) false (i32 (h_noff h + 1))
    (if h_noff h =? 0 then h_intr h else h_intena h) (h_held h) (h_base h).

Definition pop_off (h : hart) : hart :=
  if h_intr h then set_pc (PcPanic "pop_off - interruptible") h
  else if h_noff h <? 1 then set_pc (PcPanic "pop_off") h
  else let noff := i32 (h_noff h - 1) in
       mkHart PcRun (if (noff =? 0) && h_intena h then true else h_intr h) noff
         (h_intena h) (h_held h) (h_base h).

Definition holding (lk : spinlock) (me : nat) : bool :=
  ctrue (lk_locked lk) && bool_decide (lk_cpu lk = Some me).

(** One step of hart [me] inside a call; [lk] is the lock the call is about. *)
Definition acquire_step (me : nat) (h : hart) (lk : spinlock) : hart * spinlock :=
  match h_pc h with
  | PcAcqHolding l =>
      (set_pc (if holding lk me then PcPanic "acquire" else PcAcqSwap l) h, lk)
  | PcAcqSwap l =>
      let old := lk_locked lk in
      let lk' := mkSpinlock 1 (lk_cpu lk) in
      if ctrue old then (h, lk') else (set_hheld (l :: h_held h) (set_pc (PcAcqCpu l) h), lk')
  | PcAcqCpu l => (set_pc PcRun h, mkSpinlock (lk_locked lk) (Some me))
  | _ => (h, lk)
  end.

Definition release_step (me : nat) (h : hart) (lk : spinlock) : hart * spinlock :=
  match h_pc h with
  | PcRelHolding l =>
      (set_pc (if holding lk me then PcRelCpu l else PcPanic "release") h, lk)
  | PcRelCpu l => (set_pc (PcRelUnlock l) h, mkSpinlock (lk_locked lk) None)
  | PcRelUnlock l =>
      (set_hheld (filter (fun x => x <> l) (h_held h)) (set_pc PcRelPop h), mkSpinlock 0 (lk_cpu lk))
  | _ => (h, lk)
  end.

Definition call_acquire (l : nat) (h : hart) : hart := set_pc (PcAcqHolding l) (push_off h).
Definition call_release (l : nat) (h : hart) : hart := set_pc (PcRelHolding l) h.

Definition acq_lock (pc : spin_pc) : option nat :=
  match pc with PcAcqHolding l | PcAcqSwap l | PcAcqCpu l => Some l | _ => None end.
Definition rel_lock (pc : spin_pc) : option nat :=
  match pc with PcRelHolding l | PcRelCpu l | PcRelUnlock l => Some l | _ => None end.

Record spin_sys := mkSpinSys { ss_harts : list hart; ss_locks : list spinlock }.

(** Replace the state of hart [me] and of lock [l]. *)
Definition upd_sys (me l : nat) (x : hart * spinlock) (s : spin_sys) : spin_sys :=
  mkSpinSys (<[me := fst x]> (ss_harts s)) (<[l := snd x]> (ss_locks s)).
Definition upd_hart (me : nat) (h : hart) (s : spin_sys) : spin_sys :=
  mkSpinSys (<[me := h]> (ss_harts s)) (ss_locks s).

Inductive spin_step : spin_sys -> spin_sys -> Prop :=
| st_intr s me h b :                        (* intr_on() or intr_off() outside push_off *)
    ss_harts s !! me = Some h -> h_pc h = PcRun -> h_noff h = 0 ->
    spin_step s (upd_hart me (mkHart PcRun b (h_noff h) (h_intena h) (h_held h) b) s)
| st_call_acquire s me h l :
    ss_harts s !! me = Some h -> h_pc h = PcRun -> (l < length (ss_locks s))%nat ->
    spin_step s (upd_hart me (call_acquire l h) s)
| st_call_release s me h l :
    ss_harts s !! me = Some h -> h_pc h = PcRun -> (l < length (ss_locks s))%nat ->
    spin_step s (upd_hart me (call_release l h) s)
| st_acquire s me h l lk :
    ss_harts s !! me = Some h -> acq_lock (h_pc h) = Some l -> ss_locks s !! l = Some lk ->
    spin_step s (upd_sys me l (acquire_step me h lk) s)
| st_release s me h l lk :
    ss_harts s !! me = Some h -> rel_lock (h_pc h) = Some l -> ss_locks s !! l = Some lk ->
    spin_step s (upd_sys me l (release_step me h lk) s)
| st_pop_off s me h :
    ss_harts s !! me = Some h -> h_pc h = PcRelPop ->
    spin_step s (upd_hart me (pop_off h) s).

(** All locks initialised, every hart between calls with its interrupts as they are. *)
Definition spin_start (intrs : list bool) (nlocks : nat) : spin_sys :=
  mkSpinSys ((fun b => mkHart PcRun b 0 false [] b) <$> intrs) (replicate nlocks initlock).

(** ** The invariant *)

(** [push_off]s of the hart that no lock it holds accounts for. *)
Definition pending (pc : spin_pc) : Z :=
  match pc with PcAcqHolding _ | PcAcqSwap _ | PcRelPop | PcPanic _ => 1 | _ => 0 end.

Record hart_ok (n : nat) (h : hart) : Prop := mkHartOk {
  ho_nodup : NoDup (h_held h);
  ho_bound : forall l, l ∈ h_held h -> (l < n)%nat;
  ho_noff : match h_pc h with
            | PcPanic _ => Z.of_nat (length (h_held h)) <= h_noff h <= Z.of_nat (length (h_held h)) + 1
            | pc => h_noff h = Z.of_nat (length (h_held h)) + pending pc
            end;
  ho_intr : h_intr h = (h_noff h =? 0) && h_base h;
  ho_intena : 0 < h_noff h -> h_intena h = h_base h;
  ho_acq : forall l, h_pc h = PcAcqSwap l -> l ∉ h_held h;
  ho_pc : forall l, h_pc h = PcAcqCpu l \/ h_pc h = PcRelCpu l \/ h_pc h = PcRelUnlock l ->
    l ∈ h_held h;
  ho_lock : forall l, acq_lock (h_pc h) = Some l \/ rel_lock (h_pc h) = Some l -> (l < n)%nat;
}.

(** Hart [h] is in the window where it owns [l] and [l->cpu] does not say so. *)
Definition hidden (l : nat) (h : hart) : Prop := h_pc h = PcAcqCpu l \/ h_pc h = PcRelUnlock l.

Record lock_ok (hs : list hart) (l : nat) (lk : spinlock) : Prop := mkLockOk {
  lo_unique : forall i j h h', hs !! i = Some h -> hs !! j = Some h' ->
    l ∈ h_held h -> l ∈ h_held h' -> i = j;
  lo_free : lk_locked lk = 0 -> forall i h, hs !! i = Some h -> l ∉ h_held h;
  lo_held : lk_locked lk <> 0 -> exists i h, hs !! i = Some h /\ l ∈ h_held h;
  lo_owner : forall i h, hs !! i = Some h -> l ∈ h_held h -> ~ hidden l h -> lk_cpu lk = Some i;
  lo_cpu : forall i, lk_cpu lk = Some i -> exists h, hs !! i = Some h /\ l ∈ h_held h /\ ~ hidden l h;
}.

Record spin_inv (s : spin_sys) : Prop := mkSpinInv {
  si_hart : forall i h, ss_harts s !! i = Some h -> hart_ok (length (ss_locks s)) h;
  si_lock : forall l lk, ss_locks s !! l = Some lk -> lock_ok (ss_harts s) l lk;
}.

Lemma lookup_upd {A} (l : list A) i x j y :
  <[i := x]> l !! j = Some y -> (j = i /\ y = x /\ is_Some (l !! i)) \/ (j <> i /\ l !! j = Some y).
Proof.
  intros [(-> & -> & H)|[Hne H]]%list_lookup_insert_Some; [left|right]; [|done].
  split; [done|]. split; [done|]. by apply lookup_lt_is_Some.
Qed.

Lemma holder_upd (hs : list hart) me h h' i x :
  hs !! me = Some h -> hs !! i = Some x ->
  <[me := h']> hs !! i = Some (if decide (i = me) then h' else x).
Proof.
  intros Hme Hi. destruct (decide (i = me)) as [->|Hne].
  - by apply (lookup_insert_Some_eq _ _ _ h).
  - by rewrite list_lookup_insert_ne.
Qed.

(** A step of one hart that changes neither whether it holds [l] nor whether
    [l->cpu] shows it keeps the invariant of [l]. *)
Lemma lock_ok_frame hs l lk me h h' :
  hs !! me = Some h -> (l ∈ h_held h' <-> l ∈ h_held h) -> (hidden l h' <-> hidden l h) ->
  lock_ok hs l lk -> lock_ok (<[me := h']> hs) l lk.
Proof.
  intros Hme Hh Hd [Hu Hf He Ho Hc]. split.
  - intros i j x y [(-> & -> & _)|[? Hi]]%lookup_upd [(-> & -> & _)|[? Hj]]%lookup_upd; try done;
      rewrite ?Hh; eauto.
  - intros E i x [(-> & -> & _)|[? Hi]]%lookup_upd; rewrite ?Hh; eauto.
  - intros (i & x & Hi & Hx)%He. exists i, (if decide (i = me) then h' else x).
    split; [by eapply holder_upd|]. destruct (decide (i = me)) as [->|]; [|done].
    simplify_eq. by apply Hh.
  - intros i x [(-> & -> & _)|[? Hi]]%lookup_upd; rewrite ?Hh, ?Hd; eauto.
  - intros i (x & Hi & Hx & Hn)%Hc. exists (if decide (i = me) then h' else x).
    split; [by eapply holder_upd|]. destruct (decide (i = me)) as [->|]; [|done].
    simplify_eq. by rewrite Hh, Hd.
Qed.

(** A step that ends with hart [me] as the one holder of [l]. *)
Lemma lock_ok_mine hs l lk me h' :
  is_Some (hs !! me) -> l ∈ h_held h' -> lk_locked lk <> 0 ->
  (forall i x, hs !! i = Some x -> i <> me -> l ∉ h_held x) ->
  (hidden l h' /\ lk_cpu lk = None \/ ~ hidden l h' /\ lk_cpu lk = Some me) ->
  lock_ok (<[me := h']> hs) l lk.
Proof.
  intros [h Hme] Hl Hlk Hoth Hcpu. pose proof (holder_upd hs me h h' me h Hme Hme) as Hme'.
  rewrite decide_True in Hme' by done. split.
  - intros i j x y [(-> & -> & _)|[? Hi]]%lookup_upd [(-> & -> & _)|[? Hj]]%lookup_upd; naive_solver.
  - done.
  - eauto.
  - intros i x [(-> & -> & _)|[? Hi]]%lookup_upd; naive_solver.
  - intros i Hi. destruct Hcpu as [[_ E]|[Hn E]]; [congruence|].
    assert (i = me) as -> by congruence. eauto.
Qed.

(** When no hart shows [l] in [l->cpu], [l->cpu] is null. *)
Lemma lock_ok_cpu_none hs l lk :
  lock_ok hs l lk -> (forall i h, hs !! i = Some h -> l ∈ h_held h -> hidden l h) -> lk_cpu lk = None.
Proof.
  intros Hok Hd. destruct (lk_cpu lk) as [i|] eqn:E; [|done].
  destruct (lo_cpu _ _ _ Hok i E) as (h & Hi & Hl & Hn). exfalso. eauto.
Qed.

Lemma holding_exact s me h l lk :
  spin_inv s -> ss_harts s !! me = Some h -> ss_locks s !! l = Some lk -> ~ hidden l h ->
  holding lk me = bool_decide (l ∈ h_held h).
Proof.
  intros Hinv Hme Hl Hn. pose proof (si_lock _ Hinv _ _ Hl) as Hok. unfold holding, ctrue.
  case_bool_decide as Hc; case_bool_decide as Hh.
  - destruct (Z.eqb_spec (lk_locked lk) 0) as [E|]; [|done].
    by destruct (lo_free _ _ _ Hok E me h).
  - destruct (lo_cpu _ _ _ Hok _ Hc) as (h' & ? & ? & _). by simplify_eq.
  - destruct Hc. by eapply lo_owner.
  - by rewrite andb_false_r.
Qed.

Lemma held_bound n h : hart_ok n h -> (length (h_held h) <= n)%nat.
Proof.
  intros Hok. rewrite <- (length_seq n 0). apply NoDup_incl_length; [apply NoDup_ListNoDup, Hok|].
  intros l Hl%list_elem_of_In. apply in_seq. pose proof (ho_bound _ _ Hok l Hl). lia.
Qed.

Lemma length_filter_remove (l : nat) ls :
  NoDup ls -> l ∈ ls -> S (length (filter (fun x => x <> l) ls)) = length ls.
Proof.
  intros Hn Hl. apply list_elem_of_split in Hl as (l1 & l2 & ->).
  apply NoDup_app in Hn as (_ & Hd & Hn). apply NoDup_cons in Hn as [Hn _].
  rewrite filter_app, filter_cons, decide_False by tauto.
  rewrite !filter_notin by set_solver. rewrite !length_app. simpl. lia.
Qed.

Ltac pc_cases :=
  try (intros; repeat match goal with H : _ \/ _ |- _ => destruct H end; simplify_eq/=; eauto 2; fail).

Section Preservation.
Context (n : nat) (n_small : Z.of_nat n + 1 < 2 ^ 31).

Lemma hart_ok_intr h b :
  hart_ok n h -> h_pc h = PcRun -> h_noff h = 0 ->
  hart_ok n (mkHart PcRun b (h_noff h) (h_intena h) (h_held h) b).
Proof.
  intros [? ? Hn ? ? ? ? ?] Hpc H0. rewrite Hpc in *. split; cbn in *; try done.
  - by rewrite H0.
  - rewrite H0. lia.
Qed.

Lemma hart_ok_call_acquire h l :
  hart_ok n h -> h_pc h = PcRun -> (l < n)%nat -> hart_ok n (call_acquire l h).
Proof.
  intros Hok Hpc Hl. pose proof (held_bound _ _ Hok) as Hb.
  destruct Hok as [? ? Hn Hi Ha ? ? ?]. rewrite Hpc in *. cbn in Hn.
  split; cbn; rewrite ?i32_id by lia; try done; pc_cases.
  - lia.
  - rewrite Hn. by destruct (Z.eqb_spec (Z.of_nat (length (h_held h)) + 0 + 1) 0); [lia|].
  - intros _. destruct (Z.eqb_spec (h_noff h) 0) as [E|E]; [by rewrite Hi|apply Ha; lia].
Qed.

Lemma hart_ok_pc pc h :
  hart_ok n h -> (pending pc = pending (h_pc h)) ->
  (forall msg, h_pc h <> PcPanic msg) -> (forall msg, pc <> PcPanic msg) ->
  (forall l, pc = PcAcqSwap l -> l ∉ h_held h) ->
  (forall l, pc = PcAcqCpu l \/ pc = PcRelCpu l \/ pc = PcRelUnlock l -> l ∈ h_held h) ->
  (forall l, acq_lock pc = Some l \/ rel_lock pc = Some l -> (l < n)%nat) ->
  hart_ok n (set_pc pc h).
Proof.
  intros [? ? Hn ? ? ? ? ?] Hp Hnp Hnp' ? ? ?. split; cbn; try done.
  destruct (h_pc h), pc; cbn in Hn, Hp |- *;
    first [lia | by exfalso; eapply Hnp | by exfalso; eapply Hnp'].
Qed.

Lemma hart_ok_panic msg h :
  hart_ok n h -> (forall msg, h_pc h <> PcPanic msg) -> hart_ok n (set_pc (PcPanic msg) h).
Proof.
  intros [? ? Hn ? ? ? ? ?] Hnp. split; cbn; try done; pc_cases.
  destruct (h_pc h); cbn in Hn; try lia.
Qed.

Lemma hart_ok_won h l :
  hart_ok n h -> h_pc h = PcAcqSwap l -> hart_ok n (set_hheld (l :: h_held h) (set_pc (PcAcqCpu l) h)).
Proof.
  intros [? ? Hn ? ? Hq ? Hk] Hpc. rewrite Hpc in *. split; cbn in *; try done.
  - constructor; [|done]. by apply Hq.
  - intros l' [->|]%elem_of_cons; [apply Hk; by left|eauto].
  - lia.
  - intros l' [E|[E|E]]; simplify_eq. set_solver.
Qed.

Lemma hart_ok_unlocked h l :
  hart_ok n h -> h_pc h = PcRelUnlock l ->
  hart_ok n (set_hheld (filter (fun x => x <> l) (h_held h)) (set_pc PcRelPop h)).
Proof.
  intros [Hd ? Hn ? ? ? Hh Hk] Hpc. rewrite Hpc in *. split; cbn in *; try done; pc_cases.
  - by apply NoDup_filter.
  - intros l' [_ ?]%list_elem_of_filter. eauto.
  - assert (l ∈ h_held h) as Hl by (apply Hh; auto).
    pose proof (length_filter_remove l (h_held h) Hd Hl). lia.
Qed.

Lemma hart_ok_pop_off h :
  hart_ok n h -> h_pc h = PcRelPop -> h_pc (pop_off h) = PcRun /\ hart_ok n (pop_off h).
Proof.
  intros Hok Hpc. pose proof (held_bound _ _ Hok) as Hb.
  destruct Hok as [? ? Hn Hi Ha ? ? ?]. rewrite Hpc in *. cbn in Hn. unfold pop_off.
  assert (h_noff h =? 0 = false) as E0 by lia. rewrite E0 in Hi. cbn in Hi. rewrite Hi.
  destruct (Z.ltb_spec (h_noff h) 1); [lia|]. split; [done|].
  split; cbn; rewrite ?i32_id by lia; try done; pc_cases.
  - lia.
  - rewrite Ha by lia. by destruct (h_noff h - 1 =? 0), (h_base h).
  - intros. apply Ha. lia.
Qed.


(** A hart's state changes, the locks do not. *)
Lemma spin_inv_hart s me h h' :
  length (ss_locks s) = n -> spin_inv s -> ss_harts s !! me = Some h -> hart_ok n h' ->
  h_held h' = h_held h -> (forall l, ~ hidden l h) -> (forall l, ~ hidden l h') ->
  spin_inv (upd_hart me h' s).
Proof.
  intros Hn [Hh Hl] Hme Hok Hheld Hn1 Hn2. split; cbn.
  - intros i x [(-> & -> & _)|[_ Hi]]%lookup_upd; [by rewrite Hn|eauto].
  - intros l lk Hlk. eapply lock_ok_frame; [done|by rewrite Hheld| |by apply Hl].
    split; intros H; exfalso; [by eapply Hn2|by eapply Hn1].
Qed.

(** A hart and the lock it works on change: the other locks do not notice. *)
Lemma spin_inv_sys s me h l x :
  length (ss_locks s) = n -> spin_inv s -> ss_harts s !! me = Some h -> hart_ok n (fst x) ->
  (forall l', l' <> l -> l' ∈ h_held (fst x) <-> l' ∈ h_held h) ->
  (forall l', l' <> l -> ~ hidden l' h /\ ~ hidden l' (fst x)) ->
  lock_ok (<[me := fst x]> (ss_harts s)) l (snd x) ->
  spin_inv (upd_sys me l x s).
Proof.
  intros Hn [Hh Hl] Hme Hok Hheld Hhid Hmine. split; cbn.
  - intros i y [(-> & -> & _)|[_ Hi]]%lookup_upd; rewrite length_insert, Hn; [done|].
    rewrite <- Hn. eauto.
  - intros l' lk [(-> & -> & _)|[Hne Hlk]]%lookup_upd; [done|].
    destruct (Hhid l' Hne). eapply lock_ok_frame; [done|by apply Hheld|tauto|by apply Hl].
Qed.

Lemma spin_inv_acquire s me h l lk :
  length (ss_locks s) = n -> spin_inv s -> ss_harts s !! me = Some h ->
  acq_lock (h_pc h) = Some l -> ss_locks s !! l = Some lk ->
  spin_inv (upd_sys me l (acquire_step me h lk) s).
Proof.
  intros Hn Hinv Hme Ha Hlk. pose proof (si_hart _ Hinv _ _ Hme) as Hok.
  pose proof (si_lock _ Hinv _ _ Hlk) as Hlo. rewrite Hn in Hok. unfold acquire_step.
  destruct (h_pc h) as [|l'|l'|l'|l'|l'|l'| |] eqn:Hpc; cbn in Ha; try discriminate;
    apply (inj Some) in Ha; subst l'.
  - eapply spin_inv_sys; try done; cbn.
    + destruct (holding lk me) eqn:E; [by apply hart_ok_panic; rewrite ?Hpc|].
      rewrite (holding_exact s me h l lk) in E by (try done; unfold hidden; rewrite Hpc; naive_solver).
      apply hart_ok_pc; rewrite ?Hpc; try done.
      * intros ? [= <-]. by apply bool_decide_eq_false in E.
      * naive_solver.
      * intros ? [[= <-]|?]; [|done]. apply (ho_lock _ _ Hok). rewrite Hpc. by left.
    + intros l' _. unfold hidden; cbn. rewrite Hpc. destruct (holding lk me); naive_solver.
    + eapply lock_ok_frame; [done|done| |done]. unfold hidden; cbn. rewrite Hpc.
      destruct (holding lk me); naive_solver.
  - destruct (ctrue (lk_locked lk)) eqn:Hc.
    + eapply spin_inv_sys; try done; cbn; [unfold hidden; rewrite Hpc; naive_solver|].
      rewrite list_insert_id by done. unfold ctrue in Hc.
      destruct Hlo as [? ? He ? ?]. split; cbn; try done. intros _. apply He. lia.
    + assert (lk_locked lk = 0) as H0 by (unfold ctrue in Hc; lia).
      eapply spin_inv_sys; try done; cbn; [by apply hart_ok_won|set_solver| |].
      * unfold hidden; cbn. rewrite Hpc. naive_solver.
      * apply lock_ok_mine; cbn; [by eexists|set_solver|done| |].
        -- intros i x Hi _. by eapply lo_free.
        -- left. split; [by left|]. eapply lock_ok_cpu_none; [done|]. intros i x Hi Hx.
           by destruct (lo_free _ _ _ Hlo H0 i x).
  - assert (l ∈ h_held h) as Hl by (apply (ho_pc _ _ Hok); auto).
    eapply spin_inv_sys; try done; cbn.
    + apply hart_ok_pc; rewrite ?Hpc; try done; naive_solver.
    + intros l' Hne. unfold hidden; cbn. rewrite Hpc. naive_solver.
    + apply lock_ok_mine; cbn; [by eexists|done| | |].
      * intros H0. by destruct (lo_free _ _ _ Hlo H0 me h).
      * intros i x Hi Hne Hx. destruct Hne. by eapply lo_unique.
      * right. split; [|done]. unfold hidden; cbn. naive_solver.
Qed.

Lemma spin_inv_release s me h l lk :
  length (ss_locks s) = n -> spin_inv s -> ss_harts s !! me = Some h ->
  rel_lock (h_pc h) = Some l -> ss_locks s !! l = Some lk ->
  spin_inv (upd_sys me l (release_step me h lk) s).
Proof.
  intros Hn Hinv Hme Ha Hlk. pose proof (si_hart _ Hinv _ _ Hme) as Hok.
  pose proof (si_lock _ Hinv _ _ Hlk) as Hlo. rewrite Hn in Hok. unfold release_step.
  assert (l < n)%nat as Hln by (apply (ho_lock _ _ Hok); auto).
  destruct (h_pc h) as [|l'|l'|l'|l'|l'|l'| |] eqn:Hpc; cbn in Ha; try discriminate;
    apply (inj Some) in Ha; subst l'.
  - eapply spin_inv_sys; try done; cbn.
    + destruct (holding lk me) eqn:E; [|by apply hart_ok_panic; rewrite ?Hpc].
      rewrite (holding_exact s me h l lk) in E by (try done; unfold hidden; rewrite Hpc; naive_solver).
      apply hart_ok_pc; rewrite ?Hpc; try done; [|naive_solver].
      intros ? [?|[[= <-]|?]]; try done. by apply bool_decide_eq_true in E.
    + intros l' _. unfold hidden; cbn. rewrite Hpc. destruct (holding lk me); naive_solver.
    + eapply lock_ok_frame; [done|done| |done]. unfold hidden; cbn. rewrite Hpc.
      destruct (holding lk me); naive_solver.
  - assert (l ∈ h_held h) as Hl by (apply (ho_pc _ _ Hok); auto).
    eapply spin_inv_sys; try done; cbn.
    + apply hart_ok_pc; rewrite ?Hpc; try done; naive_solver.
    + intros l' Hne. unfold hidden; cbn. rewrite Hpc. naive_solver.
    + apply lock_ok_mine; cbn; [by eexists|done| | |].
      * intros H0. by destruct (lo_free _ _ _ Hlo H0 me h).
      * intros i x Hi Hne Hx. destruct Hne. by eapply lo_unique.
      * left. split; [by right|done].
  - assert (l ∈ h_held h) as Hl by (apply (ho_pc _ _ Hok); auto).
    eapply spin_inv_sys; try done; cbn.
    + by apply hart_ok_unlocked.
    + intros l' Hne. rewrite list_elem_of_filter. tauto.
    + intros l' Hne. unfold hidden; cbn. rewrite Hpc. naive_solver.
    + assert (forall i x, <[me := set_hheld (filter (fun y => y <> l) (h_held h)) (set_pc PcRelPop h)]>
                (ss_harts s) !! i = Some x -> l ∉ h_held x) as Hfree.
      { intros i x [(-> & -> & _)|[Hne Hi]]%lookup_upd; cbn; [by rewrite list_elem_of_filter; tauto|].
        intros Hx. destruct Hne. by eapply lo_unique. }
      assert (lk_cpu lk = None) as Hnone.
      { eapply lock_ok_cpu_none; [done|]. intros i x Hi Hx.
        assert (i = me) as -> by by eapply lo_unique. simplify_eq. by right. }
      split; cbn; try done; [| |by rewrite Hnone].
      * intros i j x y Hi _ Hx. by destruct (Hfree i x Hi).
      * intros i x Hi Hx. by destruct (Hfree i x Hi).
Qed.

Lemma spin_inv_step s s' :
  length (ss_locks s) = n -> spin_inv s -> spin_step s s' ->
  length (ss_locks s') = n /\ spin_inv s'.
Proof.
  intros Hn Hinv Hst.
  split; [by destruct Hst; cbn; rewrite ?length_insert|].
  destruct Hst as [s me h b Hme Hpc H0|s me h l Hme Hpc Hl|s me h l Hme Hpc Hl|s me h l lk Hme Ha Hl
    |s me h l lk Hme Ha Hl|s me h Hme Hpc];
    [..|by eapply spin_inv_acquire|by eapply spin_inv_release|];
    pose proof (si_hart _ Hinv _ _ Hme) as Hok; rewrite Hn in Hok;
    (eapply spin_inv_hart; [done|done|done|..]).
  all: try (unfold hidden; cbn; rewrite ?Hpc; naive_solver).
  - by apply hart_ok_intr.
  - apply hart_ok_call_acquire; try done. lia.
  - apply hart_ok_pc; rewrite ?Hpc; try done; [naive_solver|]. cbn. intros ? [?|[= <-]]; [done|lia].
  - by apply hart_ok_pop_off.
  - unfold pop_off. destruct (h_intr h), (h_noff h <? 1); done.
  - unfold hidden. rewrite (proj1 (hart_ok_pop_off h Hok Hpc)). naive_solver.
Qed.
End Preservation.

Lemma spin_start_inv intrs nlocks : spin_inv (spin_start intrs nlocks).
Proof.
  split; cbn.
  - intros i h Hi. apply list_lookup_fmap_Some in Hi as (b & -> & _).
    split; cbn; try done; [constructor|set_solver|naive_solver|naive_solver].
  - intros l lk Hlk. apply (proj1 (lookup_replicate _ _ _ _)) in Hlk as [-> _].
    assert (forall i h, ((fun b => mkHart PcRun b 0 false [] b) <$> intrs) !! i = Some h -> l ∉ h_held h)
      as Hf by (intros i h (b & -> & _)%list_lookup_fmap_Some; cbn; set_solver).
    split; cbn; try done.
    + intros i j h h' Hi _ Hl. by destruct (Hf i h Hi).
    + intros i h Hi Hl. by destruct (Hf i h Hi).
Qed.

Lemma spin_reachable intrs nlocks s :
  Z.of_nat nlocks + 1 < 2 ^ 31 -> rtc spin_step (spin_start intrs nlocks) s ->
  length (ss_locks s) = nlocks /\ spin_inv s.
Proof.
  intros Hn Hs. eapply (rtc_invariant spin_step
    (fun s => length (ss_locks s) = nlocks /\ spin_inv s)); [|split|exact Hs].
  - intros a b [Ha Hb] Hst. by eapply spin_inv_step.
  - by cbn; rewrite length_replicate.
  - apply spin_start_inv.
Qed.

(** ** What the locks guarantee *)

(** C2: mutual exclusion.  However the harts' calls interleave, at most one hart is
    between a successful [acquire] of a lock and the matching [release]; the lock
    word is zero exactly when there is none, so a hart that spins is waiting for a
    hart that owns the lock. *)
Theorem spinlock_mutual_exclusion intrs nlocks s l lk :
  Z.of_nat nlocks + 1 < 2 ^ 31 -> rtc spin_step (spin_start intrs nlocks) s ->
  ss_locks s !! l = Some lk ->
  (forall i j h h', ss_harts s !! i = Some h -> ss_harts s !! j = Some h' ->
    l ∈ h_held h -> l ∈ h_held h' -> i = j) /\
  (lk_locked lk = 0 <-> ~ exists i h, ss_harts s !! i = Some h /\ l ∈ h_held h).
Proof.
  intros Hn Hs Hlk. destruct (spin_reachable _ _ _ Hn Hs) as [_ Hinv].
  destruct (si_lock _ Hinv _ _ Hlk) as [Hu Hf He _ _]. split; [exact Hu|]. split.
  - intros H0 (i & h & Hi & Hl). by eapply Hf.
  - intros Hno. destruct (decide (lk_locked lk = 0)); [done|]. by destruct Hno; apply He.
Qed.

(** C35: the tests inside the lock are exact and interrupts are off in critical
    sections.  In every reachable state, whenever [acquire] or [release] tests
    [holding] the answer is whether this hart owns the lock (so [acquire] panics only
    on a lock the hart already owns and [release] only on one it does not); a hart
    has interrupts enabled only outside every [push_off], where they are as they
    were before, and the checks of [pop_off] never fire. *)
Theorem spinlock_holding_and_interrupts intrs nlocks s me h :
  Z.of_nat nlocks + 1 < 2 ^ 31 -> rtc spin_step (spin_start intrs nlocks) s ->
  ss_harts s !! me = Some h ->
  (forall l lk, ss_locks s !! l = Some lk ->
    h_pc h = PcRun \/ h_pc h = PcAcqHolding l \/ h_pc h = PcRelHolding l ->
    holding lk me = bool_decide (l ∈ h_held h)) /\
  (h_held h <> [] -> h_intr h = false) /\
  h_intr h = (h_noff h =? 0) && h_base h /\
  (h_pc h = PcRelPop -> h_pc (pop_off h) = PcRun).
Proof.
  intros Hn Hs Hme. destruct (spin_reachable _ _ _ Hn Hs) as [Hlen Hinv].
  pose proof (si_hart _ Hinv _ _ Hme) as Hok. rewrite Hlen in Hok.
  split; [|split; [|split]].
  - intros l lk Hl Hpc. eapply holding_exact; try done.
    intros [E|E]; destruct Hpc as [H|[H|H]]; congruence.
  - intros Hh. rewrite (ho_intr _ _ Hok). pose proof (ho_noff _ _ Hok) as Hoff.
    destruct (Z.eqb_spec (h_noff h) 0) as [H0|]; [|done]. exfalso.
    destruct (h_held h) as [|l0 ls] eqn:E; [done|]. destruct (h_pc h) eqn:Hpc; cbn in Hoff; lia.
  - apply Hok.
  - intros Hpc. by eapply hart_ok_pop_off.
Qed.

(** ** Witnesses *)

(** Two harts with interrupts on; hart 0 has taken lock 0, hart 1 spins on it. *)
Definition contended : spin_sys :=
  mkSpinSys [mkHart PcRun false 1 true [0%nat] true; mkHart (PcAcqSwap 0) false 1 true [] true]
    [mkSpinlock 1 (Some 0%nat)].

Lemma contended_reachable : rtc spin_step (spin_start [true; true] 1) contended.
Proof.
  eapply rtc_l; [eapply (st_call_acquire _ 0 _ 0); [reflexivity|reflexivity|cbn; lia]|].
  eapply rtc_l; [eapply (st_acquire _ 0 _ 0); reflexivity|].
  eapply rtc_l; [eapply (st_acquire _ 0 _ 0); reflexivity|].
  eapply rtc_l; [eapply (st_acquire _ 0 _ 0); reflexivity|].
  eapply rtc_l; [eapply (st_call_acquire _ 1 _ 0); [reflexivity|reflexivity|cbn; lia]|].
  eapply rtc_l; [eapply (st_acquire _ 1 _ 0); reflexivity|].
  eapply rtc_l; [eapply (st_acquire _ 1 _ 0); reflexivity|].
  vm_compute. apply rtc_refl.
Qed.

Lemma spinlock_mutual_exclusion_witness :
  (1 = 0 <-> ~ exists i h, ss_harts contended !! i = Some h /\ 0%nat ∈ h_held h).
Proof.
  apply (spinlock_mutual_exclusion [true; true] 1 contended 0 (mkSpinlock 1 (Some 0%nat))).
  - lia.
  - exact contended_reachable.
  - reflexivity.
Defined.

Lemma spinlock_holding_and_interrupts_witness :
  holding (mkSpinlock 1 (Some 0%nat)) 0 = true /\ h_intr (mkHart PcRun false 1 true [0%nat] true) = false.
Proof.
  destruct (spinlock_holding_and_interrupts [true; true] 1 contended 0
    (mkHart PcRun false 1 true [0%nat] true) ltac:(lia) contended_reachable eq_refl) as (H1 & H2 & _).
  split; [apply (H1 0%nat _ eq_refl); by left|by apply H2].
Defined.
