(* ===== verification/Sleeplock.v ===== *)
(** * Sleep locks (kernel/sleeplock.c)

    A sleep lock is a flag and the pid of its owner, guarded by a spin lock [lk] and
    with the lock's own address as the sleep channel [ch].  The operations run under
    [lk], so a call is one atomic stretch, or a sequence of stretches separated by
    [sleep]; a process that is woken up runs the stretch of [acquiresleep] from its
    start again, since [sleep] returns with [lk] held to the test of the loop. *)

From S2P Require Import Prelude.

Record sleeplock := mkSleeplock { sl_locked : Z; sl_pid : Z }.

Definition initsleeplock : sleeplock := mkSleeplock 0 0.

Section Sleeplock.
Context (lk : lock_id) (ch : chan).

Definition acquiresleep : M sleeplock unit :=
  acquire lk;;;
  let! s := get in
  if ctrue (sl_locked s) then sleep_on ch lk
  else let! th := self in
       put (mkSleeplock 1 (th_pid th));;;
       release lk.

Definition releasesleep : M sleeplock unit :=
  acquire lk;;;
  put (mkSleeplock 0 0);;;
  wakeup ch;;;
  release lk.

Definition holdingsleep : M sleeplock bool :=
  acquire lk;;;
  let! s := get in
  let! th := self in
  let r := ctrue (sl_locked s) && (sl_pid s =? th_pid th) in
  release lk;;;
  ret r.

(** Each operation as a function of the lock, for a caller that does not hold [lk]. *)
Lemma acquiresleep_free th s :
  lk ∉ th_held th -> sl_locked s = 0 -> acquiresleep th s = Ok tt th (mkSleeplock 1 (th_pid th)).
Proof.
  intros Hlk H0. unfold acquiresleep, bind at 1. rewrite acquire_ok by done.
  unfold bind, get, self, put. cbn. rewrite H0. cbn. by rewrite release_acquired.
Qed.

Lemma acquiresleep_taken th s :
  lk ∉ th_held th -> sl_locked s <> 0 -> acquiresleep th s = Sleep ch th s.
Proof.
  intros Hlk H0. unfold acquiresleep, bind at 1. rewrite acquire_ok by done.
  unfold bind, get. cbn. unfold ctrue. destruct (Z.eqb_spec (sl_locked s) 0); [done|]. cbn.
  by apply sleep_on_acquired.
Qed.

Lemma releasesleep_ok th s :
  lk ∉ th_held th -> releasesleep th s = Ok tt (woke ch th) (mkSleeplock 0 0).
Proof.
  intros Hlk. unfold releasesleep, bind at 1. rewrite acquire_ok by done.
  unfold bind, put, wakeup. cbn. by apply (release_acquired lk (woke ch th)).
Qed.

Lemma holdingsleep_ok th s :
  lk ∉ th_held th ->
  holdingsleep th s = Ok (ctrue (sl_locked s) && (sl_pid s =? th_pid th)) th s.
Proof.
  intros Hlk. unfold holdingsleep, bind at 1. rewrite acquire_ok by done.
  unfold bind, get, self. cbn. by rewrite release_acquired.
Qed.

(** ** Processes sharing a sleep lock *)

Inductive sl_thread := SlOut | SlWant | SlAsleep | SlOwner.

(** The processes, by index, with their pids; each uses the lock in the order
    acquire, release. *)
Record sl_sys := mkSlSys { sy_lock : sleeplock; sy_thr : list sl_thread }.

Definition sl_wake (woken : list chan) (t : sl_thread) : sl_thread :=
  match t with SlAsleep => if bool_decide (ch ∈ woken) then SlWant else SlAsleep | t => t end.

Definition proc_thread (i : nat) (pid : nat -> Z) : thread := mkThread [] i (pid i) [].

Inductive sl_step (pid : nat -> Z) : sl_sys -> sl_sys -> Prop :=
| sl_call s i :
    sy_thr s !! i = Some SlOut ->
    sl_step pid s (mkSlSys (sy_lock s) (<[i := SlWant]> (sy_thr s)))
| sl_got s i th' l' :
    sy_thr s !! i = Some SlWant -> acquiresleep (proc_thread i pid) (sy_lock s) = Ok tt th' l' ->
    sl_step pid s (mkSlSys l' (<[i := SlOwner]> (sl_wake (th_woken th') <$> sy_thr s)))
| sl_slept s i th' l' :
    sy_thr s !! i = Some SlWant -> acquiresleep (proc_thread i pid) (sy_lock s) = Sleep ch th' l' ->
    sl_step pid s (mkSlSys l' (<[i := SlAsleep]> (sl_wake (th_woken th') <$> sy_thr s)))
| sl_released s i th' l' :
    sy_thr s !! i = Some SlOwner -> releasesleep (proc_thread i pid) (sy_lock s) = Ok tt th' l' ->
    sl_step pid s (mkSlSys l' (<[i := SlOut]> (sl_wake (th_woken th') <$> sy_thr s))).

Definition sl_start (n : nat) : sl_sys := mkSlSys initsleeplock (replicate n SlOut).

Record sl_inv (pid : nat -> Z) (s : sl_sys) : Prop := mkSlInv {
  sv_one : forall i j, sy_thr s !! i = Some SlOwner -> sy_thr s !! j = Some SlOwner -> i = j;
  sv_free : sl_locked (sy_lock s) = 0 -> forall i t, sy_thr s !! i = Some t -> t <> SlOwner /\ t <> SlAsleep;
  sv_held : sl_locked (sy_lock s) <> 0 -> exists i, sy_thr s !! i = Some SlOwner;
  sv_pid : forall i, sy_thr s !! i = Some SlOwner -> sl_pid (sy_lock s) = pid i;
}.

Lemma sl_wake_nil (ts : list sl_thread) : sl_wake [] <$> ts = ts.
Proof. induction ts as [|[] ts IH]; cbn; by rewrite ?IH. Qed.

Lemma sl_inv_step pid s s' : sl_inv pid s -> sl_step pid s s' -> sl_inv pid s'.
Proof.
  intros [Ho Hf Hh Hp] Hst.
  destruct Hst as [s i Hi|s i th' l' Hi E|s i th' l' Hi E|s i th' l' Hi E].
  - split; cbn.
    + intros x y Hx Hy. apply list_lookup_insert_Some in Hx, Hy. naive_solver.
    + intros H0 x t Hx. apply list_lookup_insert_Some in Hx. naive_solver.
    + intros (j & Hj)%Hh. exists j. rewrite list_lookup_insert_ne; [done|]. naive_solver.
    + intros x Hx. apply list_lookup_insert_Some in Hx. naive_solver.
  - destruct (decide (sl_locked (sy_lock s) = 0)) as [H0|H0];
      [|rewrite acquiresleep_taken in E by (cbn; set_solver); discriminate].
    rewrite acquiresleep_free in E by (cbn; set_solver). injection E as <- <-.
    cbn [th_woken proc_thread]. rewrite sl_wake_nil. split; cbn; try done.
    + intros x y Hx Hy. apply list_lookup_insert_Some in Hx, Hy. naive_solver.
    + intros _. exists i. by apply (lookup_insert_Some_eq _ _ _ SlWant).
    + intros x Hx. apply list_lookup_insert_Some in Hx. naive_solver.
  - destruct (decide (sl_locked (sy_lock s) = 0)) as [H0|H0];
      [rewrite acquiresleep_free in E by (cbn; set_solver); discriminate|].
    rewrite acquiresleep_taken in E by (cbn; set_solver). injection E as <- <-.
    cbn [th_woken proc_thread]. rewrite sl_wake_nil. split; cbn; try done.
    + intros x y Hx Hy. apply list_lookup_insert_Some in Hx, Hy. naive_solver.
    + intros (j & Hj)%Hh. exists j. rewrite list_lookup_insert_ne; [done|]. naive_solver.
    + intros x Hx. apply list_lookup_insert_Some in Hx. naive_solver.
  - rewrite releasesleep_ok in E by (cbn; set_solver). injection E as <- <-.
    assert (forall x t, <[i := SlOut]> (sl_wake [ch] <$> sy_thr s) !! x = Some t ->
              t <> SlOwner /\ t <> SlAsleep) as Hno.
    { intros x t Hx. apply list_lookup_insert_Some in Hx as [(_ & <- & _)|[Hne Hx]]; [done|].
      apply list_lookup_fmap_Some in Hx as (t0 & -> & Hx).
      destruct t0; cbn; try done; [rewrite bool_decide_true by set_solver; done|naive_solver]. }
    split; cbn; try done.
    + intros x y Hx. by destruct (Hno x _ Hx).
    + intros x Hx. by destruct (Hno x _ Hx).
Qed.
End Sleeplock.

(** Sleep locks exclude each other's owners and lose no wakeup.  However processes
    call [acquiresleep] and [releasesleep], at most one owns the lock, [holdingsleep]
    is true for the owner alone (pids being distinct), and no process is asleep on a
    lock that is free. *)
Theorem sleeplock_exclusion lk ch pid n s :
  (forall i j, pid i = pid j -> i = j) -> rtc (sl_step lk ch pid) (sl_start n) s ->
  (forall i j, sy_thr s !! i = Some SlOwner -> sy_thr s !! j = Some SlOwner -> i = j) /\
  (forall i t, sy_thr s !! i = Some t ->
    exists b, holdingsleep lk (proc_thread i pid) (sy_lock s) = Ok b (proc_thread i pid) (sy_lock s) /\
      (b = true <-> t = SlOwner)) /\
  (forall i, sy_thr s !! i = Some SlAsleep -> exists j, sy_thr s !! j = Some SlOwner).
Proof.
  intros Hinj Hs.
  assert (sl_inv pid s) as [Ho Hf Hh Hp].
  { eapply (rtc_invariant (sl_step lk ch pid)); [intros; by eapply sl_inv_step| |exact Hs].
    assert (forall i t, replicate n SlOut !! i = Some t -> t = SlOut) as Hr
      by (intros i t [-> _]%lookup_replicate; done).
    split; cbn; try done; [|intros _ i t ->%Hr; done|]; intros i; [intros j|]; by intros [=]%Hr. }
  split; [exact Ho|]. split.
  - intros i t Hi. rewrite holdingsleep_ok by (cbn; set_solver). eexists. split; [reflexivity|].
    unfold ctrue. destruct (Z.eqb_spec (sl_locked (sy_lock s)) 0) as [H0|H0]; cbn.
    + split; [done|]. intros ->. by destruct (Hf H0 i _ Hi).
    + destruct (Hh H0) as (j & Hj). rewrite (Hp j Hj). split.
      * intros E%Z.eqb_eq%Hinj. subst j. congruence.
      * intros ->. rewrite (Ho i j Hi Hj). apply Z.eqb_refl.
  - intros i Hi. apply Hh. intros H0. by destruct (Hf H0 i _ Hi).
Qed.

Definition demo_pid (i : nat) : Z := Z.of_nat i + 1.

(** Process 0 owns the lock of buffer 0 and process 1 sleeps on it. *)
Lemma sleeplock_exclusion_witness :
  exists j, sy_thr (mkSlSys (mkSleeplock 1 1) [SlOwner; SlAsleep]) !! j = Some SlOwner.
Proof.
  eapply (sleeplock_exclusion (LkBuf 0) (ChBufLock 0) demo_pid 2
            (mkSlSys (mkSleeplock 1 1) [SlOwner; SlAsleep])).
  - intros i j. unfold demo_pid. lia.
  - eapply rtc_l; [apply (sl_call _ _ _ _ 0); reflexivity|].
    eapply rtc_l; [eapply (sl_got _ _ _ _ 0); reflexivity|].
    eapply rtc_l; [apply (sl_call _ _ _ _ 1); reflexivity|].
    eapply rtc_l; [eapply (sl_slept _ _ _ _ 1); reflexivity|].
    vm_compute. apply rtc_refl.
  - exact (eq_refl : [SlOwner; SlAsleep] !! 1%nat = Some SlAsleep).
Defined.
