(* ===== verification/BlockCache.v ===== *)
(** * The interface of the buffer cache

    What the log and the file system ask of kernel/bio.c.  [BlockCache] names the
    operations on buffers; [BlockCacheSpec] states their contract against an abstract
    state: the contents [v] of the blocks as the kernel sees them, the sequence [w] of
    block writes that have reached the disk, the blocks [P] pinned by the log, and the
    blocks [H] whose buffers the calling thread holds.  Log.v is proved against this
    interface; Bio.v implements it. *)

From S2P Require Import Prelude Layout.

Definition block : Type := list Z.
Definition blocks : Type := Z -> block.

Definition upd (v : blocks) (n : Z) (b : block) : blocks := fun m => if m =? n then b else v m.

Lemma upd_eq v n b : upd v n b n = b.
Proof. unfold upd. by rewrite Z.eqb_refl. Qed.
Lemma upd_ne v n b m : m <> n -> upd v n b m = v m.
Proof. intros. unfold upd. by destruct (Z.eqb_spec m n). Qed.

(** The contents of the disk after the writes [w] on top of [base]. *)
Definition disk_of (base : blocks) (w : list (Z * block)) : blocks :=
  fold_left (fun d e => upd d (fst e) (snd e)) w base.

Lemma disk_of_app base w w' : disk_of base (w ++ w') = disk_of (disk_of base w) w'.
Proof. apply fold_left_app. Qed.

Lemma disk_of_snoc base w n b : disk_of base (w ++ [(n, b)]) = upd (disk_of base w) n b.
Proof. apply disk_of_app. Qed.

Lemma disk_of_notin base w n : n ∉ w.*1 -> disk_of base w n = base n.
Proof.
  revert base. induction w as [|[m b] w IH]; intros base Hn; [done|].
  change (disk_of (upd base m b) w n = base n).
  rewrite IH by set_solver. apply upd_ne. set_solver.
Qed.

Definition blocks_ok (v : blocks) : Prop := forall n, length (v n) = Z.to_nat BSIZE.

Lemma upd_blocks_ok v n b : blocks_ok v -> length b = Z.to_nat BSIZE -> blocks_ok (upd v n b).
Proof. intros Hv Hb m. unfold upd. by destruct (m =? n). Qed.

Definition full_blocks (w : list (Z * block)) : Prop :=
  Forall (fun e => length (snd e) = Z.to_nat BSIZE) w.

Lemma disk_of_blocks_ok d w : blocks_ok d -> full_blocks w -> blocks_ok (disk_of d w).
Proof.
  intros Hd Hw. revert d Hd. induction Hw as [|[n b] w Hn _ IH]; intros d Hd; [done|].
  apply (IH (upd d n b)). by apply upd_blocks_ok.
Qed.

Lemma full_blocks_prefix p w : p `prefix_of` w -> full_blocks w -> full_blocks p.
Proof. intros [q ->] H. by apply Forall_app in H as [H _]. Qed.

Class BlockCache (S : Type) := {
  bread : Z -> Z -> M S nat;
  bwrite : nat -> M S unit;
  brelse : nat -> M S unit;
  bpin : nat -> M S unit;
  bunpin : nat -> M S unit;
  bdata : nat -> M S block;              (* b->data *)
  set_bdata : nat -> block -> M S unit;  (* stores into b->data *)
  bblockno : nat -> M S Z;               (* b->blockno *)
}.

(** The calling thread, of the process with pid [me], holds none of the cache's own
    spin locks. *)
Definition io_free (me : Z) (th : thread) : Prop :=
  LkBcache ∉ th_held th /\ (forall i, LkBuf i ∉ th_held th) /\ th_pid th = me.

Lemma io_free_same me th th' : same_thread th th' -> io_free me th -> io_free me th'.
Proof. intros (E & _ & E'). unfold io_free. by rewrite E, E'. Qed.

(** Blocks that need a buffer of their own. *)
Definition in_use (P : gset Z) (H : list (Z * nat)) : gset Z := P ∪ list_to_set H.*1.

Lemma in_use_cons P H n b : (size (in_use P ((n, b) :: H)) <= S (size (in_use P H)))%nat.
Proof.
  unfold in_use. cbn. rewrite (union_comm_L {[n]}), union_assoc_L.
  rewrite size_union_alt. assert (size ({[n]} ∖ (P ∪ list_to_set H.*1)) <= size ({[n]} : gset Z))%nat
    as Hle by (apply subseteq_size; set_solver). rewrite size_singleton in Hle. lia.
Qed.

Class BlockCacheSpec (S : Type) `{BlockCache S} := {
  (** [crepr me dev base s v w P H] *)
  crepr : Z -> Z -> blocks -> S -> blocks -> list (Z * block) -> gset Z -> list (Z * nat) -> Prop;
  cboot : blocks -> S;                     (* the cache of a kernel that has just booted *)
  chist : S -> list (Z * block);           (* the writes that have reached the disk *)

  crepr_boot : forall me dev base, dev <> 0 -> blocks_ok base -> crepr me dev base (cboot base) base [] ∅ [];
  crepr_ext : forall me dev base s v v' w P H,
    (forall n, v' n = v n) -> crepr me dev base s v w P H -> crepr me dev base s v' w P H;
  crepr_hist : forall me dev base s v w P H, crepr me dev base s v w P H -> chist s = w;
  crepr_len : forall me dev base s v w P H, crepr me dev base s v w P H -> blocks_ok v;
  crepr_clean : forall me dev base s v w P H n,
    crepr me dev base s v w P H -> n ∉ P -> n ∉ H.*1 -> v n = disk_of base w n;

  bread_spec : forall me dev base s v w P H n th,
    io_free me th -> is_u32 n -> crepr me dev base s v w P H -> n ∉ H.*1 ->
    (size (in_use P H) < NBUF)%nat \/ n ∈ P ->
    wp (bread dev n) (fun b th' s' =>
      same_thread th th' /\ crepr me dev base s' v w P ((n, b) :: H)) th s;
  bdata_spec : forall me dev base s v w P H n b th,
    crepr me dev base s v w P H -> (n, b) ∈ H -> bdata b th s = Ok (v n) th s;
  bblockno_spec : forall me dev base s v w P H n b th,
    crepr me dev base s v w P H -> (n, b) ∈ H -> bblockno b th s = Ok n th s;
  set_bdata_spec : forall me dev base s v w P H n b d th,
    crepr me dev base s v w P H -> (n, b) ∈ H -> length d = Z.to_nat BSIZE ->
    wp (set_bdata b d) (fun _ th' s' => th' = th /\ crepr me dev base s' (upd v n d) w P H) th s;
  bwrite_spec : forall me dev base s v w P H n b th,
    io_free me th -> crepr me dev base s v w P H -> (n, b) ∈ H ->
    wp (bwrite b) (fun _ th' s' =>
      same_thread th th' /\ crepr me dev base s' v (w ++ [(n, v n)]) P H) th s;
  brelse_spec : forall me dev base s v w P H1 H2 n b th,
    io_free me th -> crepr me dev base s v w P (H1 ++ (n, b) :: H2) -> n ∈ P \/ v n = disk_of base w n ->
    wp (brelse b) (fun _ th' s' =>
      same_thread th th' /\ crepr me dev base s' v w P (H1 ++ H2)) th s;
  bpin_spec : forall me dev base s v w P H n b th,
    io_free me th -> crepr me dev base s v w P H -> (n, b) ∈ H -> n ∉ P ->
    wp (bpin b) (fun _ th' s' =>
      same_thread th th' /\ crepr me dev base s' v w ({[n]} ∪ P) H) th s;
  bunpin_spec : forall me dev base s v w P H n b th,
    io_free me th -> crepr me dev base s v w P H -> (n, b) ∈ H -> n ∈ P ->
    wp (bunpin b) (fun _ th' s' =>
      same_thread th th' /\ crepr me dev base s' v w (P ∖ {[n]}) H) th s;
}.

(** Membership in an explicit list, threads that differ only in their wakeups, and
    [io_free] along such threads. *)
Ltac in_list := first [apply list_elem_of_here | apply list_elem_of_further; in_list].
Ltac keep_thread := repeat first [eassumption | reflexivity | etransitivity; [eassumption|]].
Ltac iof := first [eassumption | eapply io_free_same; [|eassumption]; keep_thread].
