(* ===== verification/Bio.v ===== *)
(** * The buffer cache (kernel/bio.c)

    Buffers are the elements of [bcache.buf]; a [struct buf *] is [BBuf i] or the
    list head [BHead].  The LRU list is the doubly linked ring of the source, through
    [prev] and [next].  The disk enters through [disk_rw], the contract of
    [virtio_disk_rw]: the transfer of one whole block, after which the caller goes on;
    the state keeps the contents the disk was booted with and the block writes since.

    The refinement to a list of buffers in order of use is in this file; that the cache
    implements the interface of BlockCache.v is proved in BioSpec.v. *)

From S2P Require Import Prelude Layout Sleeplock BlockCache.

Inductive bptr : Set := BHead | BBuf (i : nat).
#[export] Instance bptr_eq_dec : EqDecision bptr.
Proof. solve_decision. Defined.

Record buf := mkBuf {
  b_valid : Z;
  b_disk : Z;
  b_dev : Z;
  b_blockno : Z;
  b_lock : sleeplock;
  b_refcnt : Z;
  b_prev : bptr;
  b_next : bptr;
  b_data : block;
}.

Definition with_valid (x : Z) (b : buf) : buf :=
  mkBuf x (b_disk b) (b_dev b) (b_blockno b) (b_lock b) (b_refcnt b) (b_prev b) (b_next b) (b_data b).
Definition with_lock (x : sleeplock) (b : buf) : buf :=
  mkBuf (b_valid b) (b_disk b) (b_dev b) (b_blockno b) x (b_refcnt b) (b_prev b) (b_next b) (b_data b).
Definition with_refcnt (x : Z) (b : buf) : buf :=
  mkBuf (b_valid b) (b_disk b) (b_dev b) (b_blockno b) (b_lock b) x (b_prev b) (b_next b) (b_data b).
Definition with_prev (x : bptr) (b : buf) : buf :=
  mkBuf (b_valid b) (b_disk b) (b_dev b) (b_blockno b) (b_lock b) (b_refcnt b) x (b_next b) (b_data b).
Definition with_bnext (x : bptr) (b : buf) : buf :=
  mkBuf (b_valid b) (b_disk b) (b_dev b) (b_blockno b) (b_lock b) (b_refcnt b) (b_prev b) x (b_data b).
Definition with_data (x : block) (b : buf) : buf :=
  mkBuf (b_valid b) (b_disk b) (b_dev b) (b_blockno b) (b_lock b) (b_refcnt b) (b_prev b) (b_next b) x.
(** [b->dev = dev; b->blockno = blockno; b->valid = 0; b->refcnt = 1;] *)
Definition recycled (dev blockno : Z) (b : buf) : buf :=
  mkBuf 0 (b_disk b) dev blockno (b_lock b) 1 (b_prev b) (b_next b) (b_data b).

Record bio := mkBio {
  bi_buf : list buf;          (* bcache.buf *)
  bi_hprev : bptr;            (* bcache.head.prev *)
  bi_hnext : bptr;            (* bcache.head.next *)
  bi_base : blocks;
  bi_hist : list (Z * block);
}.

Definition set_bufs (bs : list buf) (s : bio) : bio :=
  mkBio bs (bi_hprev s) (bi_hnext s) (bi_base s) (bi_hist s).

(** ** Pointers *)

Definition get_buf (i : nat) : M bio buf := fun th s =>
  match bi_buf s !! i with Some b => Ok b th s | None => Fault "buf index" end.
Definition upd_buf (i : nat) (f : buf -> buf) : M bio unit := fun th s =>
  match bi_buf s !! i with
  | Some b => Ok tt th (set_bufs (<[i := f b]> (bi_buf s)) s)
  | None => Fault "buf index"
  end.

(** [p->next], [p->prev] and the stores into them. *)
Definition bnext (s : bio) (p : bptr) : option bptr :=
  match p with BHead => Some (bi_hnext s) | BBuf i => b_next <$> bi_buf s !! i end.
Definition bprev (s : bio) (p : bptr) : option bptr :=
  match p with BHead => Some (bi_hprev s) | BBuf i => b_prev <$> bi_buf s !! i end.
Definition get_next (p : bptr) : M bio bptr := let! s := get in deref "buf pointer" (bnext s p).
Definition get_prev (p : bptr) : M bio bptr := let! s := get in deref "buf pointer" (bprev s p).
Definition set_next (p q : bptr) : M bio unit :=
  match p with
  | BHead => modify (fun s => mkBio (bi_buf s) (bi_hprev s) q (bi_base s) (bi_hist s))
  | BBuf i => upd_buf i (with_bnext q)
  end.
Definition set_prev (p q : bptr) : M bio unit :=
  match p with
  | BHead => modify (fun s => mkBio (bi_buf s) q (bi_hnext s) (bi_base s) (bi_hist s))
  | BBuf i => upd_buf i (with_prev q)
  end.

(** An operation on the sleep lock of buffer [i]. *)
Definition buf_lock {A} (i : nat) (m : M sleeplock A) : M bio A := fun th s =>
  match bi_buf s !! i with
  | None => Fault "buf index"
  | Some b =>
      let put l := set_bufs (<[i := with_lock l b]> (bi_buf s)) s in
      match m th (b_lock b) with
      | Ok a th' l => Ok a th' (put l)
      | Panic msg => Panic msg
      | Fault why => Fault why
      | Sleep ch th' l => Sleep ch th' (put l)
      | OutOfFuel => OutOfFuel
      end
  end.

(** ** The operations *)

(** One turn of the loop of [binit]; the static buffers start zeroed. *)
Definition binit_body (i : nat) : M bio unit :=
  let! h := get_next BHead in
  set_next (BBuf i) h;;;
  set_prev (BBuf i) BHead;;;
  upd_buf i (with_lock initsleeplock);;;
  let! h := get_next BHead in
  set_prev h (BBuf i);;;
  set_next BHead (BBuf i).

Fixpoint binit_loop (k : nat) (i : nat) : M bio unit :=
  match k with O => ret tt | S k' => binit_body i;;; binit_loop k' (S i) end.

Definition binit : M bio unit :=
  set_prev BHead BHead;;;
  set_next BHead BHead;;;
  binit_loop NBUF 0.

(** [for(b = ...next; b != &bcache.head; b = b->next)] looking for a cached block. *)
Fixpoint find_cached (fuel : nat) (b : bptr) (dev blockno : Z) : M bio (option nat) :=
  match fuel with
  | O => diverge
  | S f =>
      match b with
      | BHead => ret None
      | BBuf i =>
          let! x := get_buf i in
          if (b_dev x =? dev) && (b_blockno x =? blockno) then ret (Some i)
          else let! n := get_next b in find_cached f n dev blockno
      end
  end.

(** [for(b = ...prev; b != &bcache.head; b = b->prev)] looking for an unused buffer. *)
Fixpoint find_unused (fuel : nat) (b : bptr) : M bio (option nat) :=
  match fuel with
  | O => diverge
  | S f =>
      match b with
      | BHead => ret None
      | BBuf i =>
          let! x := get_buf i in
          if b_refcnt x =? 0 then ret (Some i)
          else let! n := get_prev b in find_unused f n
      end
  end.

(** The loops visit the list head and at most [NBUF] buffers. *)
Definition scan_fuel : nat := S NBUF.

Definition bget (dev blockno : Z) : M bio nat :=
  acquire LkBcache;;;
  let! h := get_next BHead in
  let! r := find_cached scan_fuel h dev blockno in
  match r with
  | Some i =>
      upd_buf i (fun b => with_refcnt (u32 (b_refcnt b + 1)) b);;;
      release LkBcache;;;
      buf_lock i (acquiresleep (LkBuf i) (ChBufLock i));;;
      ret i
  | None =>
      let! t := get_prev BHead in
      let! r := find_unused scan_fuel t in
      match r with
      | Some i =>
          upd_buf i (recycled dev blockno);;;
          release LkBcache;;;
          buf_lock i (acquiresleep (LkBuf i) (ChBufLock i));;;
          ret i
      | None => panic "bget: no buffers"
      end
  end.

(** The contract of [virtio_disk_rw(b, write)]. *)
Definition disk_rw (i : nat) (write : bool) : M bio unit :=
  let! b := get_buf i in
  if write
  then modify (fun s => mkBio (bi_buf s) (bi_hprev s) (bi_hnext s) (bi_base s)
                          (bi_hist s ++ [(b_blockno b, b_data b)]))
  else let! s := get in
       upd_buf i (with_data (disk_of (bi_base s) (bi_hist s) (b_blockno b))).

Definition bio_bread (dev blockno : Z) : M bio nat :=
  let! i := bget dev blockno in
  let! b := get_buf i in
  when (negb (ctrue (b_valid b))) (disk_rw i false;;; upd_buf i (with_valid 1));;;
  ret i.

Definition bio_bwrite (i : nat) : M bio unit :=
  let! h := buf_lock i (holdingsleep (LkBuf i)) in
  when (negb h) (panic "bwrite");;;
  disk_rw i true.

(** Unlink the buffer and link it in behind the head. *)
Definition move_to_front (i : nat) : M bio unit :=
  let! n := get_next (BBuf i) in
  let! p := get_prev (BBuf i) in
  set_prev n p;;;
  let! p := get_prev (BBuf i) in
  let! n := get_next (BBuf i) in
  set_next p n;;;
  let! h := get_next BHead in
  set_next (BBuf i) h;;;
  set_prev (BBuf i) BHead;;;
  let! h := get_next BHead in
  set_prev h (BBuf i);;;
  set_next BHead (BBuf i).

Definition bio_brelse (i : nat) : M bio unit :=
  let! h := buf_lock i (holdingsleep (LkBuf i)) in
  when (negb h) (panic "brelse");;;
  buf_lock i (releasesleep (LkBuf i) (ChBufLock i));;;
  acquire LkBcache;;;
  upd_buf i (fun b => with_refcnt (u32 (b_refcnt b - 1)) b);;;
  let! b := get_buf i in
  when (b_refcnt b =? 0) (move_to_front i);;;
  release LkBcache.

Definition bio_bpin (i : nat) : M bio unit :=
  acquire LkBcache;;;
  upd_buf i (fun b => with_refcnt (u32 (b_refcnt b + 1)) b);;;
  release LkBcache.

Definition bio_bunpin (i : nat) : M bio unit :=
  acquire LkBcache;;;
  upd_buf i (fun b => with_refcnt (u32 (b_refcnt b - 1)) b);;;
  release LkBcache.

#[export] Instance bio_cache : BlockCache bio := {|
  bread := bio_bread;
  bwrite := bio_bwrite;
  brelse := bio_brelse;
  bpin := bio_bpin;
  bunpin := bio_bunpin;
  bdata := fun i => let! b := get_buf i in ret (b_data b);
  set_bdata := fun i d => upd_buf i (with_data d);
  bblockno := fun i => let! b := get_buf i in ret (b_blockno b);
|}.

(** ** The LRU ring *)

(** Neighbours in the ring, and lists of neighbours. *)
Definition linked (s : bio) (a b : bptr) : Prop := bnext s a = Some b /\ bprev s b = Some a.

Fixpoint chainp (s : bio) (l : list bptr) : Prop :=
  match l with
  | a :: ((b :: _) as t) => linked s a b /\ chainp s t
  | _ => True
  end.

(** The ring holds the buffers [l], the most recently used first. *)
Definition ring (s : bio) (l : list nat) : Prop := chainp s (BHead :: (BBuf <$> l) ++ [BHead]).

Lemma chainp_app s l1 a l2 : chainp s (l1 ++ a :: l2) <-> chainp s (l1 ++ [a]) /\ chainp s (a :: l2).
Proof.
  induction l1 as [|x l1 IH]; [cbn; tauto|]. destruct l1 as [|y l1]; [cbn; tauto|].
  change (linked s x y /\ chainp s ((y :: l1) ++ a :: l2) <->
    (linked s x y /\ chainp s ((y :: l1) ++ [a])) /\ chainp s (a :: l2)). rewrite IH. tauto.
Qed.

Lemma chainp_ext s s' l :
  (forall q, q ∈ removelast l -> bnext s' q = bnext s q) ->
  (forall q, q ∈ tail l -> bprev s' q = bprev s q) -> chainp s l -> chainp s' l.
Proof.
  induction l as [|a [|b l] IH]; cbn [chainp]; [done..|]. intros Hn Hp [[H1 H2] Hc]. split.
  - unfold linked. rewrite Hn by (cbn; left). rewrite Hp by (cbn; left). done.
  - apply IH; [| |done]; intros q Hq.
    + apply Hn. cbn in *. by right.
    + apply Hp. cbn in *. by right.
Qed.

(** Pure versions of the stores, total on well-formed pointers. *)
Definition setn (p q : bptr) (s : bio) : bio :=
  match p with
  | BHead => mkBio (bi_buf s) (bi_hprev s) q (bi_base s) (bi_hist s)
  | BBuf i => set_bufs (alter (with_bnext q) i (bi_buf s)) s
  end.
Definition setp (p q : bptr) (s : bio) : bio :=
  match p with
  | BHead => mkBio (bi_buf s) q (bi_hnext s) (bi_base s) (bi_hist s)
  | BBuf i => set_bufs (alter (with_prev q) i (bi_buf s)) s
  end.

Lemma upd_buf_ok i f b th s :
  bi_buf s !! i = Some b -> upd_buf i f th s = Ok tt th (set_bufs (alter f i (bi_buf s)) s).
Proof.
  intros Hb. unfold upd_buf. rewrite Hb. do 2 f_equal. apply list_eq. intros j.
  destruct (decide (i = j)) as [<-|Hne].
  - rewrite list_lookup_alter_eq, Hb. cbn. apply list_lookup_insert_eq. by eapply lookup_lt_Some.
  - by rewrite list_lookup_alter_ne, list_lookup_insert_ne.
Qed.

Lemma set_next_ok p q th s : is_Some (bnext s p) -> set_next p q th s = Ok tt th (setn p q s).
Proof.
  destruct p as [|i]; [done|]. cbn. intros [x Hx]. apply fmap_Some in Hx as (b & Hb & _).
  by apply (upd_buf_ok i _ b).
Qed.
Lemma set_prev_ok p q th s : is_Some (bprev s p) -> set_prev p q th s = Ok tt th (setp p q s).
Proof.
  destruct p as [|i]; [done|]. cbn. intros [x Hx]. apply fmap_Some in Hx as (b & Hb & _).
  by apply (upd_buf_ok i _ b).
Qed.
Lemma get_next_ok p q th s : bnext s p = Some q -> get_next p th s = Ok q th s.
Proof. unfold get_next, bind, get, deref. by intros ->. Qed.
Lemma get_prev_ok p q th s : bprev s p = Some q -> get_prev p th s = Ok q th s.
Proof. unfold get_prev, bind, get, deref. by intros ->. Qed.

Lemma alter_lookup (f : buf -> buf) i (l : list buf) j :
  alter f i l !! j = if decide (i = j) then f <$> l !! j else l !! j.
Proof. case_decide as E; [subst; apply list_lookup_alter_eq|by apply list_lookup_alter_ne]. Qed.

Lemma bnext_setn p q s r :
  is_Some (bnext s p) -> bnext (setn p q s) r = if decide (r = p) then Some q else bnext s r.
Proof.
  intros Hp. destruct p as [|i], r as [|j]; cbn; try done.
  rewrite alter_lookup. destruct (decide (i = j)) as [->|]; case_decide; simplify_eq; try done.
  cbn in Hp. destruct (bi_buf s !! j); [done|]. by destruct Hp.
Qed.
Lemma bprev_setn p q s r : bprev (setn p q s) r = bprev s r.
Proof.
  destruct p as [|i], r as [|j]; cbn; try done. rewrite alter_lookup.
  destruct (decide (i = j)) as [->|]; [|done]. by destruct (bi_buf s !! j).
Qed.
Lemma bprev_setp p q s r :
  is_Some (bprev s p) -> bprev (setp p q s) r = if decide (r = p) then Some q else bprev s r.
Proof.
  intros Hp. destruct p as [|i], r as [|j]; cbn; try done.
  rewrite alter_lookup. destruct (decide (i = j)) as [->|]; case_decide; simplify_eq; try done.
  cbn in Hp. destruct (bi_buf s !! j); [done|]. by destruct Hp.
Qed.
Lemma bnext_setp p q s r : bnext (setp p q s) r = bnext s r.
Proof.
  destruct p as [|i], r as [|j]; cbn; try done. rewrite alter_lookup.
  destruct (decide (i = j)) as [->|]; [|done]. by destruct (bi_buf s !! j).
Qed.

(** *** Taking a buffer out of the ring and putting it first *)

Lemma unlink_chain s A p i n B :
  chainp s (A ++ [p; i; n] ++ B) -> p ∉ A -> p ∉ removelast (n :: B) ->
  n ∉ tail (A ++ [p]) -> n ∉ B ->
  chainp (setn p n (setp n p s)) (A ++ [p; n] ++ B).
Proof.
  intros Hc HpA HpB HnA HnB. cbn [app] in *.
  apply chainp_app in Hc as [Hc1 Hc2]. cbn [chainp] in Hc2. destruct Hc2 as [[Hpi1 Hpi2] [[Hin1 Hin2] Hc3]].
  assert (forall r, bnext (setn p n (setp n p s)) r = if decide (r = p) then Some n else bnext s r) as En.
  { intros r. rewrite bnext_setn, bnext_setp; [done|]. rewrite bnext_setp. by eexists. }
  assert (forall r, bprev (setn p n (setp n p s)) r = if decide (r = n) then Some p else bprev s r) as Ep.
  { intros r. rewrite bprev_setn, bprev_setp; [done|]. by eexists. }
  apply chainp_app. split; [|split].
  - eapply chainp_ext; [| |exact Hc1]; intros q Hq.
    + rewrite removelast_last in Hq. rewrite En, decide_False; [done|congruence].
    + rewrite Ep, decide_False; [done|congruence].
  - unfold linked. by rewrite En, Ep, !decide_True.
  - eapply chainp_ext; [| |exact Hc3]; intros q Hq.
    + rewrite En, decide_False; [done|congruence].
    + cbn in Hq. rewrite Ep, decide_False; [done|congruence].
Qed.

(** Putting [i] first: [s'] differs from [s] in the links of [i], of the head and of
    the buffer that was first. *)
Lemma push_chain s s' i n B :
  chainp s (BHead :: n :: B) -> BBuf i ∉ n :: B -> BHead ∉ removelast (n :: B) -> n ∉ B ->
  (forall r, bnext s' r = if decide (r = BHead) then Some (BBuf i)
                          else if decide (r = BBuf i) then Some n else bnext s r) ->
  (forall r, bprev s' r = if decide (r = n) then Some (BBuf i)
                          else if decide (r = BBuf i) then Some BHead else bprev s r) ->
  chainp s' (BHead :: BBuf i :: n :: B).
Proof.
  intros Hc Hi Hh Hn En Ep. cbn [chainp] in Hc. destruct Hc as [[H1 H2] Hc].
  split; [|split].
  - split; [rewrite En; done|]. rewrite Ep. rewrite decide_False, decide_True by set_solver. done.
  - split; [rewrite En, decide_False, decide_True by done; done|]. by rewrite Ep, decide_True.
  - eapply chainp_ext; [| |exact Hc]; intros q Hq.
    + rewrite En, !decide_False; [done| |congruence]. intros ->. apply Hi.
      destruct (exists_last (l := n :: B)) as (l' & z & E); [done|]. rewrite E in Hq |- *.
      rewrite removelast_last in Hq. set_solver.
    + cbn in Hq. rewrite Ep, !decide_False; [done| |congruence]. intros ->. set_solver.
Qed.

(** The links after the stores of the source. *)
Lemma push_links s i n :
  is_Some (bnext s (BBuf i)) -> is_Some (bprev s (BBuf i)) -> is_Some (bprev s n) ->
  let s' := setn BHead (BBuf i) (setp n (BBuf i) (setp (BBuf i) BHead (setn (BBuf i) n s))) in
  (forall r, bnext s' r = if decide (r = BHead) then Some (BBuf i)
                          else if decide (r = BBuf i) then Some n else bnext s r) /\
  (forall r, bprev s' r = if decide (r = n) then Some (BBuf i)
                          else if decide (r = BBuf i) then Some BHead else bprev s r).
Proof.
  intros Hbn Hbp Hpn s'. split; intros r; unfold s'.
  - rewrite bnext_setn by by eexists. destruct (decide (r = BHead)); [done|].
    rewrite !bnext_setp, bnext_setn by done. done.
  - rewrite bprev_setn, bprev_setp.
    + destruct (decide (r = n)); [done|]. rewrite bprev_setp; [|by rewrite bprev_setn].
      destruct (decide (r = BBuf i)); [done|]. by rewrite bprev_setn.
    + rewrite bprev_setp; [|by rewrite bprev_setn]. case_decide; [by eexists|]. by rewrite bprev_setn.
Qed.

(** What the ring does not show: the buffers without their links. *)
Definition strip (b : buf) : buf := with_prev BHead (with_bnext BHead b).
Definition content (s : bio) : list buf := strip <$> bi_buf s.

Lemma content_alter f i s :
  (forall b, strip (f b) = strip b) -> strip <$> alter f i (bi_buf s) = strip <$> bi_buf s.
Proof.
  intros Hf. apply list_eq. intros j. rewrite !list_lookup_fmap, alter_lookup.
  case_decide; [|done]. destruct (bi_buf s !! j); cbn; by rewrite ?Hf.
Qed.

Definition relinked_bio (s s' : bio) : Prop :=
  content s' = content s /\ bi_base s' = bi_base s /\ bi_hist s' = bi_hist s.
#[export] Instance relinked_bio_preorder : PreOrder relinked_bio.
Proof. split; unfold relinked_bio; [intros x|intros x y z]; intuition congruence. Qed.

Lemma relinked_setn p q s : relinked_bio s (setn p q s).
Proof. destruct p; split; try done. by apply content_alter. Qed.
Lemma relinked_setp p q s : relinked_bio s (setp p q s).
Proof. destruct p; split; try done. by apply content_alter. Qed.

Lemma in_BBuf i (l : list nat) : BBuf i ∈ BBuf <$> l <-> i ∈ l.
Proof. rewrite list_elem_of_fmap. naive_solver. Qed.
Lemma head_notin_BBuf (l : list nat) : BHead ∉ BBuf <$> l.
Proof. rewrite list_elem_of_fmap. naive_solver. Qed.

Lemma nodup_ring l : NoDup l -> NoDup (BHead :: (BBuf <$> l)) /\ NoDup ((BBuf <$> l) ++ [BHead]).
Proof.
  intros Hn. assert (NoDup (BBuf <$> l)) by (apply NoDup_fmap; [by intros ?? [=]|done]).
  split; [constructor; [apply head_notin_BBuf|done]|].
  apply NoDup_app. split; [done|]. split; [|apply NoDup_singleton].
  intros x Hx ->%list_elem_of_singleton. by apply head_notin_BBuf in Hx.
Qed.

(** The stores of [move_to_front], when the neighbours of [i] are [p] and [n] and
    the ring without [i] starts with [h]. *)
Lemma move_to_front_run s i p n h th :
  bnext s (BBuf i) = Some n -> bprev s (BBuf i) = Some p -> is_Some (bprev s n) -> is_Some (bnext s p) ->
  BBuf i <> n -> BBuf i <> p ->
  let s1 := setn p n (setp n p s) in
  bnext s1 BHead = Some h -> is_Some (bprev s1 h) -> h <> BBuf i ->
  move_to_front i th s =
    Ok tt th (setn BHead (BBuf i) (setp h (BBuf i) (setp (BBuf i) BHead (setn (BBuf i) h s1)))).
Proof.
  intros Hn Hp Hpn Hnp Hin Hip s1 Hh Hph Hhi. unfold move_to_front.
  rewrite (bind_ok _ _ _ _ _ _ _ (get_next_ok _ _ th s Hn)).
  rewrite (bind_ok _ _ _ _ _ _ _ (get_prev_ok _ _ th s Hp)).
  rewrite (bind_ok _ _ _ _ _ _ _ (set_prev_ok n p th s Hpn)).
  erewrite bind_ok by (apply get_prev_ok; by rewrite bprev_setp, decide_False).
  erewrite bind_ok by (apply get_next_ok; by rewrite bnext_setp).
  erewrite bind_ok by (apply set_next_ok; by rewrite bnext_setp). fold s1.
  rewrite (bind_ok _ _ _ _ _ _ _ (get_next_ok _ _ th s1 Hh)).
  assert (is_Some (bnext s1 (BBuf i))) as Hn1.
  { unfold s1. rewrite bnext_setn, bnext_setp; [|by rewrite bnext_setp]. rewrite decide_False by done. by eexists. }
  assert (is_Some (bprev s1 (BBuf i))) as Hp1.
  { unfold s1. rewrite bprev_setn, bprev_setp by done. rewrite decide_False by done. by eexists. }
  rewrite (bind_ok _ _ _ _ _ _ _ (set_next_ok (BBuf i) h th s1 Hn1)).
  erewrite bind_ok by (apply set_prev_ok; by rewrite bprev_setn).
  erewrite bind_ok by (apply get_next_ok; by rewrite bnext_setp, bnext_setn, decide_False).
  erewrite bind_ok.
  { apply set_next_ok. by eexists. }
  apply set_prev_ok. rewrite bprev_setp by by rewrite bprev_setn. rewrite decide_False by done.
  by rewrite bprev_setn.
Qed.

Lemma unlink_ok s l1 i l2 :
  ring s (l1 ++ i :: l2) -> NoDup (l1 ++ i :: l2) ->
  exists p n, linked s p (BBuf i) /\ linked s (BBuf i) n /\ BBuf i <> p /\ BBuf i <> n /\
    ring (setn p n (setp n p s)) (l1 ++ l2).
Proof.
  intros Hr Hnd. unfold ring in Hr. rewrite fmap_app, fmap_cons in Hr.
  apply NoDup_app in Hnd as (Hn1 & Hd & Hn2). apply NoDup_cons in Hn2 as [Hi2 Hn2].
  destruct (exists_last (l := BHead :: (BBuf <$> l1))) as (A & p & EA); [done|].
  destruct ((BBuf <$> l2) ++ [BHead]) as [|n B] eqn:EB; [by destruct (BBuf <$> l2)|].
  rewrite <- app_assoc in Hr. cbn [app] in Hr. rewrite app_comm_cons, EA, EB in Hr.
  rewrite <- app_assoc in Hr. cbn [app] in Hr.
  pose proof (proj1 (nodup_ring l1 Hn1)) as HnA. rewrite EA in HnA.
  pose proof (proj2 (nodup_ring l2 Hn2)) as HnB. rewrite EB in HnB.
  assert (p ∈ BHead :: (BBuf <$> l1)) as Hpin by (rewrite EA; set_solver).
  assert (n ∈ (BBuf <$> l2) ++ [BHead]) as Hnin by (rewrite EB; left).
  assert (BBuf i <> p) as Hip.
  { intros <-. apply elem_of_cons in Hpin as [|Hpin%in_BBuf]; [done|]. by destruct (Hd i Hpin); left. }
  assert (BBuf i <> n) as Hin.
  { intros <-. apply elem_of_app in Hnin as [Hnin%in_BBuf|Hnin%list_elem_of_singleton]; done. }
  destruct (proj1 (chainp_app _ _ _ _) Hr) as [_ [[Hpi1 Hpi2] [[Hin1 Hin2] _]]].
  assert (chainp (setn p n (setp n p s)) (A ++ [p; n] ++ B)) as Hc1.
  { apply (unlink_chain s A p (BBuf i) n B Hr).
    - by apply NoDup_app in HnA as (_ & HnA & _); intros HpA; apply (HnA p HpA); left.
    - rewrite <- EB, removelast_last. intros Hp2. apply elem_of_cons in Hpin as [->|Hpin].
      + by apply head_notin_BBuf in Hp2.
      + apply list_elem_of_fmap in Hpin as (j & -> & Hj). apply in_BBuf in Hp2.
        by destruct (Hd j Hj); right.
    - rewrite <- EA. cbn. intros Hn'. apply list_elem_of_fmap in Hn' as (j & -> & Hj).
      apply elem_of_app in Hnin as [Hnin%in_BBuf|Hnin%list_elem_of_singleton]; [|done].
      by destruct (Hd j Hj); right.
    - by apply NoDup_cons in HnB as [HnB _]. }
  exists p, n. do 4 (split; [done|]). unfold ring.
  assert (A ++ [p; n] ++ B = BHead :: (BBuf <$> (l1 ++ l2)) ++ [BHead]) as <-; [|done].
  rewrite fmap_app, <- app_assoc, EB. by rewrite app_comm_cons, EA, <- app_assoc.
Qed.

Lemma move_to_front_ok s l1 i l2 th :
  ring s (l1 ++ i :: l2) -> NoDup (l1 ++ i :: l2) ->
  exists s', move_to_front i th s = Ok tt th s' /\ ring s' (i :: l1 ++ l2) /\ relinked_bio s s'.
Proof.
  intros Hr Hnd. destruct (unlink_ok s l1 i l2 Hr Hnd) as (p & n & [Hp1 Hp2] & [Hn1 Hn2] & Hip & Hin & Hc).
  assert (i ∉ l1 ++ l2 /\ NoDup (l1 ++ l2)) as [Hi Hnd'].
  { rewrite <- (Permutation_middle l1 l2 i) in Hnd. by apply NoDup_cons in Hnd. }
  set (s1 := setn p n (setp n p s)) in *. unfold ring in Hc.
  pose proof (proj2 (nodup_ring _ Hnd')) as HnB.
  pose proof (in_BBuf i (l1 ++ l2)) as Hin'. pose proof (head_notin_BBuf (l1 ++ l2)) as Hhd.
  assert (BBuf i ∉ (BBuf <$> l1 ++ l2) ++ [BHead]) as HiB by set_solver.
  assert (BHead ∉ removelast ((BBuf <$> l1 ++ l2) ++ [BHead])) as HhB by by rewrite removelast_last.
  assert (BHead :: (BBuf <$> i :: l1 ++ l2) ++ [BHead] = BHead :: BBuf i :: (BBuf <$> l1 ++ l2) ++ [BHead])
    as EL by done. unfold ring at 1. rewrite EL.
  destruct ((BBuf <$> l1 ++ l2) ++ [BHead]) as [|h B] eqn:EB; [by destruct (BBuf <$> l1 ++ l2)|].
  destruct Hc as [[Hh1 Hh2] Hc]. eexists. split; [|split].
  - apply (move_to_front_run s i p n h th); try done. set_solver.
  - assert (is_Some (bnext s1 (BBuf i))) as Hs1.
    { unfold s1. rewrite bnext_setn, bnext_setp by (rewrite bnext_setp; by eexists).
      rewrite decide_False by done. by eexists. }
    assert (is_Some (bprev s1 (BBuf i))) as Hs2.
    { unfold s1. rewrite bprev_setn, bprev_setp by by eexists. rewrite decide_False by done. by eexists. }
    destruct (push_links s1 i h Hs1 Hs2 ltac:(by eexists)) as [En Ep].
    apply (push_chain s1); try done. by apply NoDup_cons in HnB as [HnB _].
  - repeat (etransitivity; [|first [apply relinked_setn | apply relinked_setp]]). done.
Qed.

(** *** The loops of [bget] *)

Definition is_cached (dev blockno : Z) (cs : list buf) (i : nat) : bool :=
  match cs !! i with Some b => (b_dev b =? dev) && (b_blockno b =? blockno) | None => false end.
Definition is_unused (cs : list buf) (i : nat) : bool :=
  match cs !! i with Some b => b_refcnt b =? 0 | None => false end.

Lemma content_lookup s i b : bi_buf s !! i = Some b -> content s !! i = Some (strip b).
Proof. intros H. unfold content. by rewrite list_lookup_fmap, H. Qed.

Lemma find_cached_ok s dev blockno th l fuel a h :
  chainp s (a :: (BBuf <$> l) ++ [BHead]) -> bnext s a = Some h -> (length l < fuel)%nat ->
  find_cached fuel h dev blockno th s = Ok (find (is_cached dev blockno (content s)) l) th s.
Proof.
  revert fuel a h. induction l as [|i l IH]; intros fuel a h Hc Hh Hf; destruct fuel as [|f]; cbn in Hf; try lia;
    destruct Hc as [[Hn Hp] Hc]; rewrite Hn in Hh; apply (inj Some) in Hh as <-; [done|].
  cbn [find_cached find].
  assert (exists b, bi_buf s !! i = Some b) as [b Hb]
    by (cbn in Hp; destruct (bi_buf s !! i); [by eexists|done]).
  unfold bind at 1, get_buf at 1. rewrite Hb. unfold is_cached at 1. rewrite (content_lookup _ _ _ Hb). cbn.
  destruct ((b_dev b =? dev) && (b_blockno b =? blockno)); [done|].
  assert (exists h', bnext s (BBuf i) = Some h') as [h' Hh'] by (cbn; rewrite Hb; by eexists).
  rewrite (bind_ok _ _ _ _ _ _ _ (get_next_ok _ _ th s Hh')). apply (IH f (BBuf i)); [done..|lia].
Qed.

Lemma find_unused_ok s th l fuel z h :
  chainp s ((BHead :: (BBuf <$> l)) ++ [z]) -> bprev s z = Some h -> (length l < fuel)%nat ->
  find_unused fuel h th s = Ok (find (is_unused (content s)) (rev l)) th s.
Proof.
  revert fuel z h. induction l as [|i l IH] using rev_ind; intros fuel z h Hc Hh Hf;
    (destruct fuel as [|f]; [cbn in Hf; lia|]).
  - destruct Hc as [[Hn Hp] _]. rewrite Hp in Hh. by apply (inj Some) in Hh as <-.
  - rewrite fmap_app in Hc. rewrite length_app in Hf. cbn [length] in Hf.
    replace ((BHead :: (BBuf <$> l) ++ (BBuf <$> [i])) ++ [z])
      with ((BHead :: (BBuf <$> l)) ++ BBuf i :: [z]) in Hc by (cbn; by rewrite <- app_assoc).
    apply chainp_app in Hc as [Hc1 [[Hn Hp] _]]. rewrite Hp in Hh. apply (inj Some) in Hh as <-.
    rewrite rev_unit. cbn [find_unused find].
    assert (exists b, bi_buf s !! i = Some b) as [b Hb]
      by (cbn in Hn; destruct (bi_buf s !! i); [by eexists|done]).
    unfold bind at 1, get_buf at 1. rewrite Hb. unfold is_unused at 1. rewrite (content_lookup _ _ _ Hb). cbn.
    destruct (b_refcnt b =? 0); [done|].
    assert (exists h', bprev s (BBuf i) = Some h') as [h' Hh'] by (cbn; rewrite Hb; by eexists).
    rewrite (bind_ok _ _ _ _ _ _ _ (get_prev_ok _ _ th s Hh')). apply (IH f (BBuf i)); [done..|lia].
Qed.

(** ** The cache as a list

    [bio_at s l cs base w]: the ring holds [l], the buffers are [cs] (without their
    links), and the disk was booted with [base] and has seen the writes [w]. *)
Record bio_at (s : bio) (l : list nat) (cs : list buf) (base : blocks) (w : list (Z * block)) : Prop :=
  mkBioAt {
    at_ring : ring s l;
    at_content : content s = cs;
    at_base : bi_base s = base;
    at_hist : bi_hist s = w;
  }.

Definition keeps_links (f : buf -> buf) : Prop :=
  forall b, b_prev (f b) = b_prev b /\ b_next (f b) = b_next b /\ strip (f b) = f (strip b).

Lemma links_alter s f i :
  keeps_links f -> (forall p, bnext (set_bufs (alter f i (bi_buf s)) s) p = bnext s p) /\
    (forall p, bprev (set_bufs (alter f i (bi_buf s)) s) p = bprev s p).
Proof.
  intros Hf. split; intros [|j]; try done; cbn; rewrite alter_lookup; (case_decide; [|done]);
    destruct (bi_buf s !! j) as [b|]; cbn; try done; f_equal; apply Hf.
Qed.

Lemma content_alter_keep s f i :
  keeps_links f -> content (set_bufs (alter f i (bi_buf s)) s) = alter f i (content s).
Proof.
  intros Hf. unfold content. cbn. apply list_eq. intros j.
  rewrite list_lookup_fmap, !alter_lookup, list_lookup_fmap.
  case_decide; [|done]. destruct (bi_buf s !! j) as [b|]; cbn; [|done]. f_equal. apply Hf.
Qed.

Lemma bio_at_alter s l cs base w f i :
  bio_at s l cs base w -> keeps_links f ->
  bio_at (set_bufs (alter f i (bi_buf s)) s) l (alter f i cs) base w.
Proof.
  intros [Hr <- Hb Hw] Hf. destruct (links_alter s f i Hf) as [Hn Hp]. split; try done.
  - eapply chainp_ext; [..|exact Hr]; intros; [apply Hn|apply Hp].
  - by apply content_alter_keep.
Qed.

Lemma bio_at_lookup s l cs base w i c :
  bio_at s l cs base w -> cs !! i = Some c -> exists b, bi_buf s !! i = Some b /\ strip b = c.
Proof.
  intros [_ <- _ _] Hc. unfold content in Hc. rewrite list_lookup_fmap in Hc.
  apply fmap_Some in Hc as (b & ? & ->). by exists b.
Qed.

Lemma at_upd s l cs base w i c f th :
  bio_at s l cs base w -> cs !! i = Some c -> keeps_links f ->
  exists s', upd_buf i f th s = Ok tt th s' /\ bio_at s' l (alter f i cs) base w.
Proof.
  intros Hat Hc Hf. destruct (bio_at_lookup _ _ _ _ _ _ _ Hat Hc) as (b & Hb & _).
  eexists. split; [by eapply upd_buf_ok|]. by apply bio_at_alter.
Qed.

Lemma at_get s l cs base w i c th :
  bio_at s l cs base w -> cs !! i = Some c ->
  exists b, get_buf i th s = Ok b th s /\ strip b = c.
Proof.
  intros Hat Hc. destruct (bio_at_lookup _ _ _ _ _ _ _ Hat Hc) as (b & Hb & Hs).
  exists b. split; [|done]. unfold get_buf. by rewrite Hb.
Qed.

Lemma at_lock {A} s l cs base w i c (m : M sleeplock A) th a th' lk :
  bio_at s l cs base w -> cs !! i = Some c -> m th (b_lock c) = Ok a th' lk ->
  exists s', buf_lock i m th s = Ok a th' s' /\ bio_at s' l (alter (with_lock lk) i cs) base w.
Proof.
  intros Hat Hc Hm. destruct (bio_at_lookup _ _ _ _ _ _ _ Hat Hc) as (b & Hb & Hs).
  exists (set_bufs (alter (with_lock lk) i (bi_buf s)) s). split; [|by apply bio_at_alter].
  unfold buf_lock. rewrite Hb. rewrite <- Hs in Hm. change (b_lock (strip b)) with (b_lock b) in Hm.
  rewrite Hm. pose proof (upd_buf_ok i (with_lock lk) b th s Hb) as E. unfold upd_buf in E.
  rewrite Hb in E. by injection E as ->.
Qed.

(** *** Getting a buffer *)

Definition taken (pid : Z) (b : buf) : buf :=
  with_lock (mkSleeplock 1 pid) (with_refcnt (u32 (b_refcnt b + 1)) b).
Definition retaken (pid dev blockno : Z) (b : buf) : buf :=
  with_lock (mkSleeplock 1 pid) (recycled dev blockno b).

Lemma alter_compose_buf (f g : buf -> buf) i (cs : list buf) :
  alter f i (alter g i cs) = alter (fun b => f (g b)) i cs.
Proof.
  apply list_eq. intros j. rewrite !alter_lookup. case_decide; [|done]. by destruct (cs !! j).
Qed.

(** The end of [bget]: reserve the buffer, give the cache up, lock the buffer. *)
Lemma bget_finish s l cs base w i c f th :
  bio_at s l cs base w -> cs !! i = Some c -> keeps_links f -> sl_locked (b_lock (f c)) = 0 ->
  LkBcache ∉ th_held th -> LkBuf i ∉ th_held th ->
  exists s', (upd_buf i f;;; release LkBcache;;;
              buf_lock i (acquiresleep (LkBuf i) (ChBufLock i));;; ret i)
               (set_held (LkBcache :: th_held th) th) s = Ok i th s' /\
    bio_at s' l (alter (fun b => with_lock (mkSleeplock 1 (th_pid th)) (f b)) i cs) base w.
Proof.
  intros Hat Hc Hf Hlk Hb Hi.
  destruct (at_upd _ _ _ _ _ _ _ f (set_held (LkBcache :: th_held th) th) Hat Hc Hf) as (s1 & E1 & Hat1).
  rewrite (bind_ok _ _ _ _ _ _ _ E1). rewrite (bind_ok _ _ _ _ _ _ _ (release_acquired LkBcache th s1 Hb)).
  assert (alter f i cs !! i = Some (f c)) as Hc1 by by rewrite list_lookup_alter_eq, Hc.
  destruct (at_lock s1 l _ _ _ i _ (acquiresleep (LkBuf i) (ChBufLock i)) th tt th
    (mkSleeplock 1 (th_pid th)) Hat1 Hc1) as (s2 & E2 & Hat2); [by apply acquiresleep_free|].
  rewrite (bind_ok _ _ _ _ _ _ _ E2). exists s2. split; [done|].
  rewrite alter_compose_buf in Hat2. exact Hat2.
Qed.

(** What [bget] does, by what the cache holds: a cached block is found wherever it is
    in the ring, otherwise the least recently used buffer without users is taken, and
    without one the kernel stops. *)
Lemma bget_ok s l cs base w dev blockno th :
  bio_at s l cs base w -> (length l <= NBUF)%nat ->
  LkBcache ∉ th_held th -> (forall i, LkBuf i ∉ th_held th) ->
  match find (is_cached dev blockno cs) l with
  | Some i => forall c, cs !! i = Some c -> sl_locked (b_lock c) = 0 ->
      exists s', bget dev blockno th s = Ok i th s' /\
        bio_at s' l (alter (taken (th_pid th)) i cs) base w
  | None =>
      match find (is_unused cs) (rev l) with
      | Some i => forall c, cs !! i = Some c -> sl_locked (b_lock c) = 0 ->
          exists s', bget dev blockno th s = Ok i th s' /\
            bio_at s' l (alter (retaken (th_pid th) dev blockno) i cs) base w
      | None => bget dev blockno th s = Panic "bget: no buffers"
      end
  end.
Proof.
  intros Hat Hlen Hb Hi. pose proof (at_ring _ _ _ _ _ Hat) as Hr. pose proof (at_content _ _ _ _ _ Hat) as Hcs.
  set (th1 := set_held (LkBcache :: th_held th) th).
  assert (forall A (k : unit -> M bio A), bind (acquire LkBcache) k th s = k tt th1 s) as Hacq
    by (intros; unfold bind; by rewrite acquire_ok).
  assert (exists h, bnext s BHead = Some h) as [h Hh] by by eexists.
  assert (exists t, bprev s BHead = Some t) as [t Ht] by by eexists.
  unfold bget. rewrite Hacq. rewrite (bind_ok _ _ _ _ _ _ _ (get_next_ok _ _ th1 s Hh)).
  erewrite bind_ok by (eapply (find_cached_ok s dev blockno th1 l); [exact Hr|done|unfold scan_fuel; lia]).
  rewrite Hcs. destruct (find (is_cached dev blockno cs) l) as [i|].
  - intros c Hc Hlk. by apply bget_finish with (f := fun b => with_refcnt (u32 (b_refcnt b + 1)) b) (c := c).
  - rewrite (bind_ok _ _ _ _ _ _ _ (get_prev_ok _ _ th1 s Ht)).
    erewrite bind_ok by (eapply (find_unused_ok s th1 l); [exact Hr|done|unfold scan_fuel; lia]).
    rewrite Hcs. destruct (find (is_unused cs) (rev l)) as [i|]; [|done].
    intros c Hc Hlk. by apply bget_finish with (f := recycled dev blockno) (c := c).
Qed.

(** *** Releasing a buffer *)

Definition released (b : buf) : buf :=
  with_refcnt (u32 (b_refcnt b - 1)) (with_lock (mkSleeplock 0 0) b).

(** Releasing a buffer the caller has locked: the last user moves it to the front. *)
Lemma brelse_ok s l1 i l2 cs base w c th :
  bio_at s (l1 ++ i :: l2) cs base w -> NoDup (l1 ++ i :: l2) -> cs !! i = Some c ->
  b_lock c = mkSleeplock 1 (th_pid th) -> LkBcache ∉ th_held th -> LkBuf i ∉ th_held th ->
  exists s', bio_brelse i th s = Ok tt (woke (ChBufLock i) th) s' /\
    bio_at s' (if u32 (b_refcnt c - 1) =? 0 then i :: l1 ++ l2 else l1 ++ i :: l2)
      (alter released i cs) base w.
Proof.
  intros Hat Hnd Hc Hlk Hb Hi. unfold bio_brelse. set (th1 := woke (ChBufLock i) th).
  destruct (at_lock s _ cs _ _ i c (holdingsleep (LkBuf i)) th true th (mkSleeplock 1 (th_pid th)) Hat Hc)
    as (s1 & E1 & Hat1).
  { rewrite holdingsleep_ok by done. rewrite Hlk. cbn. by rewrite Z.eqb_refl. }
  rewrite (bind_ok _ _ _ _ _ _ _ E1). cbn [negb when]. unfold bind at 1, ret.
  assert (alter (with_lock (mkSleeplock 1 (th_pid th))) i cs = cs) as Eid.
  { apply list_eq. intros j. rewrite alter_lookup. case_decide as Ej; [|done]. subst j. rewrite Hc. cbn.
    f_equal. rewrite <- Hlk. by destruct c. }
  rewrite Eid in Hat1.
  destruct (at_lock s1 _ cs _ _ i c (releasesleep (LkBuf i) (ChBufLock i)) th tt th1 (mkSleeplock 0 0) Hat1 Hc)
    as (s2 & E2 & Hat2); [by apply releasesleep_ok|].
  rewrite (bind_ok _ _ _ _ _ _ _ E2). rewrite (bind_ok _ _ _ _ _ _ _ (acquire_ok LkBcache th1 s2 Hb)).
  set (th2 := set_held _ th1).
  assert (alter (with_lock (mkSleeplock 0 0)) i cs !! i = Some (with_lock (mkSleeplock 0 0) c)) as Hc2
    by by rewrite list_lookup_alter_eq, Hc.
  destruct (at_upd s2 _ _ _ _ i _ (fun b => with_refcnt (u32 (b_refcnt b - 1)) b) th2 Hat2 Hc2)
    as (s3 & E3 & Hat3); [done|]. rewrite alter_compose_buf in Hat3.
  change (bio_at s3 (l1 ++ i :: l2) (alter released i cs) base w) in Hat3.
  rewrite (bind_ok _ _ _ _ _ _ _ E3).
  assert (alter released i cs !! i = Some (released c)) as Hc3 by by rewrite list_lookup_alter_eq, Hc.
  destruct (at_get s3 _ _ _ _ i _ th2 Hat3 Hc3) as (b3 & E4 & Hb3).
  rewrite (bind_ok _ _ _ _ _ _ _ E4).
  assert (b_refcnt b3 = u32 (b_refcnt c - 1)) as -> by (by apply (f_equal b_refcnt) in Hb3).
  destruct (u32 (b_refcnt c - 1) =? 0); cbn [when].
  - destruct (move_to_front_ok s3 l1 i l2 th2 (at_ring _ _ _ _ _ Hat3) Hnd) as (s4 & E5 & Hr4 & Hc4 & Hb4 & Hh4).
    rewrite (bind_ok _ _ _ _ _ _ _ E5). exists s4. split; [by apply (release_acquired LkBcache th1)|].
    destruct Hat3 as [_ Hc5 Hb5 Hh5]. split; [done|congruence..].
  - unfold bind, ret. exists s3. split; [by apply (release_acquired LkBcache th1)|done].
Qed.
