(* ===== verification/BioSpec.v ===== *)
(** * The buffer cache implements its interface

    The abstraction from the buffers of Bio.v to the blocks of BlockCache.v: which
    block each buffer caches, who uses it, and how its data relates to the disk.  The
    instance at the end discharges the contract the log is proved against. *)

From S2P Require Import Prelude Layout Sleeplock BlockCache Bio.

(** Users of a buffer: the log's pin of its block and the thread that holds it. *)
Definition pinned (dev : Z) (P : gset Z) (b : buf) : bool :=
  bool_decide (b_dev b = dev /\ b_blockno b ∈ P).
Definition heldb (H : list (Z * nat)) (i : nat) : bool := bool_decide (i ∈ H.*2).

Definition caches (dev n : Z) (b : buf) : Prop := b_dev b = dev /\ b_blockno b = n.

Record cache_ok (me dev : Z) (base : blocks) (v : blocks) (w : list (Z * block)) (P : gset Z)
    (H : list (Z * nat)) (l : list nat) (cs : list buf) : Prop := mkCacheOk {
  ck_dev : dev <> 0;
  ck_perm : l ≡ₚ seq 0 NBUF;
  ck_size : length cs = NBUF;
  ck_uniq : forall i j b b' n, cs !! i = Some b -> cs !! j = Some b' ->
    caches dev n b -> caches dev n b' -> i = j;
  ck_ref : forall i b, cs !! i = Some b -> b_refcnt b = cbool (pinned dev P b) + cbool (heldb H i);
  ck_lock : forall i b, cs !! i = Some b ->
    b_lock b = if heldb H i then mkSleeplock 1 me else mkSleeplock 0 0;
  ck_data : forall i b n, cs !! i = Some b -> caches dev n b -> b_valid b <> 0 -> b_data b = v n;
  ck_held : forall n i, (n, i) ∈ H -> exists b, cs !! i = Some b /\ caches dev n b /\ b_valid b <> 0;
  ck_nodup : NoDup H.*1;
  ck_pin : forall n, n ∈ P -> exists i b, cs !! i = Some b /\ caches dev n b /\ b_valid b <> 0;
  ck_clean : forall n, n ∉ P -> n ∉ H.*1 -> v n = disk_of base w n;
  ck_blocks : blocks_ok v;
}.

Definition bio_repr (me dev : Z) (base : blocks) (s : bio) (v : blocks) (w : list (Z * block))
    (P : gset Z) (H : list (Z * nat)) : Prop :=
  exists l cs, bio_at s l cs base w /\ cache_ok me dev base v w P H l cs.

Section Cache.
Context (me dev : Z) (base : blocks).
Notation cache_ok' := (cache_ok me dev base).

Lemma held_in (H : list (Z * nat)) i : i ∈ H.*2 -> exists n, (n, i) ∈ H.
Proof. intros ([n j] & -> & Hin)%list_elem_of_fmap. by exists n. Qed.
Lemma in_held (H : list (Z * nat)) n i : (n, i) ∈ H -> i ∈ H.*2 /\ n ∈ H.*1.
Proof. intros Hin. split; apply list_elem_of_fmap; by exists (n, i). Qed.

(** The buffer of a block nobody holds is not locked. *)
Lemma not_held v w P H l cs i b n :
  cache_ok' v w P H l cs -> cs !! i = Some b -> caches dev n b -> n ∉ H.*1 -> heldb H i = false.
Proof.
  intros Hok Hi [_ Hb] Hn. apply bool_decide_eq_false. intros (m & Hm)%held_in.
  destruct (ck_held _ _ _ _ _ _ _ _ _ Hok m i Hm) as (b' & Hb' & [_ Hm'] & _).
  assert (m = n) as -> by congruence. by apply Hn, (in_held H n i).
Qed.

Lemma held_once v w P H1 H2 l cs n i :
  cache_ok' v w P (H1 ++ (n, i) :: H2) l cs -> n ∉ (H1 ++ H2).*1 /\ i ∉ (H1 ++ H2).*2.
Proof.
  intros Hok. pose proof (ck_nodup _ _ _ _ _ _ _ _ _ Hok) as Hnd. rewrite fmap_app, fmap_cons in Hnd.
  rewrite <- Permutation_middle in Hnd. apply NoDup_cons in Hnd as [Hn _]. rewrite <- fmap_app in Hn.
  split; [exact Hn|]. intros (m & Hm)%held_in.
  assert ((m, i) ∈ H1 ++ (n, i) :: H2) as Hm' by set_solver.
  assert ((n, i) ∈ H1 ++ (n, i) :: H2) as Hn' by set_solver.
  destruct (ck_held _ _ _ _ _ _ _ _ _ Hok _ _ Hm') as (b & Hb & [_ Hbm] & _).
  destruct (ck_held _ _ _ _ _ _ _ _ _ Hok _ _ Hn') as (b' & Hb' & [_ Hbn] & _).
  assert (m = n) as -> by congruence. by apply Hn, (in_held (H1 ++ H2) n i).
Qed.

(** With a buffer to spare, some buffer has no users. *)
Lemma unused_exists v w P H l cs :
  cache_ok' v w P H l cs -> (size (in_use P H) < NBUF)%nat ->
  exists i b, cs !! i = Some b /\ b_refcnt b = 0.
Proof.
  intros Hok Hsz. destruct (decide (Exists (fun b => b_refcnt b = 0) cs)) as [He|Hn].
  { apply Exists_exists in He as (b & Hb & H0). apply list_elem_of_lookup_1 in Hb as (i & Hi). eauto. }
  apply not_Exists_Forall in Hn; [|apply _]. exfalso.
  assert (forall i b, cs !! i = Some b -> b_dev b = dev /\ b_blockno b ∈ in_use P H) as Hu.
  { intros i b Hi. pose proof (Forall_lookup_1 _ _ _ _ Hn Hi) as H0. cbn in H0.
    rewrite (ck_ref _ _ _ _ _ _ _ _ _ Hok i b Hi) in H0. unfold in_use.
    destruct (pinned dev P b) eqn:Ep; [apply bool_decide_eq_true in Ep as [? ?]; set_solver|].
    destruct (heldb H i) eqn:Eh; [|done]. apply bool_decide_eq_true in Eh as (n & Hin)%held_in.
    destruct (ck_held _ _ _ _ _ _ _ _ _ Hok _ _ Hin) as (b' & Hb' & [Hd' Hn'] & _). simplify_eq.
    split; [done|]. apply elem_of_union_r, elem_of_list_to_set. by apply (in_held H _ i). }
  assert (NoDup (b_blockno <$> cs)) as Hnd.
  { apply NoDup_alt. intros i j n Hi Hj. apply list_lookup_fmap_Some in Hi as (b & -> & Hi).
    apply list_lookup_fmap_Some in Hj as (b' & Hbb & Hj).
    eapply (ck_uniq _ _ _ _ _ _ _ _ _ Hok i j b b' (b_blockno b)); try done.
    - split; [by eapply Hu|done].
    - split; [by eapply Hu|done]. }
  assert ((list_to_set (b_blockno <$> cs) : gset Z) ⊆ in_use P H) as Hsub.
  { intros n Hin%elem_of_list_to_set. apply list_elem_of_fmap in Hin as (b & -> & Hb).
    apply list_elem_of_lookup_1 in Hb as (i & Hi). by eapply Hu. }
  apply subseteq_size in Hsub. rewrite size_list_to_set, length_fmap, (ck_size _ _ _ _ _ _ _ _ _ Hok) in Hsub by done.
  lia.
Qed.

(** A buffer is brought in for block [n] and locked for the caller. *)
Lemma cache_ok_take v w P H l cs i c n b :
  cache_ok' v w P H l cs -> n ∉ H.*1 -> cs !! i = Some c -> heldb H i = false ->
  (forall j x, cs !! j = Some x -> caches dev n x -> j = i) ->
  caches dev n c \/ pinned dev P c = false ->
  caches dev n b -> b_refcnt b = cbool (bool_decide (n ∈ P)) + 1 -> b_lock b = mkSleeplock 1 me ->
  b_valid b <> 0 -> b_data b = v n ->
  cache_ok' v w P ((n, i) :: H) l (<[i := b]> cs).
Proof.
  intros Hok Hn Hi Hh Huniq Hold Hb Hr Hl Hv Hd. destruct Hok as [D Pm Sz Uq Rf Lk Dt Hl' Nd Pn Cl Bk].
  apply bool_decide_eq_false in Hh.
  assert (forall j, heldb ((n, i) :: H) j = bool_decide (j = i) || heldb H j) as Eh.
  { intros j. unfold heldb. rewrite <- bool_decide_or. apply bool_decide_ext. cbn. set_solver. }
  split; try done.
  - by rewrite length_insert.
  - intros x y b1 b2 m Hx Hy H1 H2.
    apply list_lookup_insert_Some in Hx as [(<- & <- & _)|[? Hx]], Hy as [(<- & <- & _)|[? Hy]]; try done.
    + symmetry. apply (Huniq y b2 Hy). destruct Hb, H1, H2. split; congruence.
    + apply (Huniq x b1 Hx). destruct Hb, H1, H2. split; congruence.
    + by apply (Uq x y b1 b2 m).
  - intros x b1 Hx. rewrite Eh. apply list_lookup_insert_Some in Hx as [(<- & <- & _)|[Hne Hx]].
    + rewrite bool_decide_true by done. rewrite Hr. unfold pinned. destruct Hb as [Hb1 Hb2].
      f_equal. f_equal. apply bool_decide_ext. naive_solver.
    + rewrite bool_decide_false by congruence. by apply Rf.
  - intros x b1 Hx. rewrite Eh. apply list_lookup_insert_Some in Hx as [(<- & <- & _)|[Hne Hx]].
    + by rewrite bool_decide_true.
    + rewrite bool_decide_false by congruence. by apply Lk.
  - intros x b1 m Hx Hm Hv1. apply list_lookup_insert_Some in Hx as [(<- & <- & _)|[Hne Hx]]; [|by eapply Dt].
    destruct Hb, Hm. congruence.
  - intros m j [[= -> ->]|Hin]%elem_of_cons; [exists b; split; [|done]; by apply (lookup_insert_Some_eq _ _ _ c)|].
    destruct (Hl' m j Hin) as (b1 & Hb1 & ?). exists b1. split; [|done].
    rewrite list_lookup_insert_ne; [done|]. intros ->. by apply Hh, (in_held H m j).
  - cbn. by constructor.
  - intros m Hm. destruct (Pn m Hm) as (j & b1 & Hb1 & Hc1 & Hv1).
    destruct (decide (j = i)) as [->|Hne].
    + exists i, b. split; [by apply (lookup_insert_Some_eq _ _ _ c)|]. split; [|done]. simplify_eq.
      destruct Hold as [Hold|Hold]; [destruct Hold, Hc1, Hb; split; congruence|].
      apply bool_decide_eq_false in Hold. destruct Hold, Hc1. naive_solver.
    + exists j, b1. by rewrite list_lookup_insert_ne.
  - intros m Hm1 Hm2. apply Cl; [done|]. cbn in Hm2. set_solver.
Qed.

Lemma alter_insert_buf (f : buf -> buf) i (cs : list buf) c :
  cs !! i = Some c -> alter f i cs = <[i := f c]> cs.
Proof.
  intros Hc. apply list_eq. intros j. rewrite alter_lookup. case_decide as E.
  - subst. rewrite Hc. symmetry. by apply (lookup_insert_Some_eq _ _ _ c).
  - by rewrite list_lookup_insert_ne.
Qed.

(** [bread] after [bget]: read the block unless its buffer is valid. *)
Definition filled (w : list (Z * block)) (c : buf) : buf :=
  if ctrue (b_valid c) then c else with_valid 1 (with_data (disk_of base w (b_blockno c)) c).

Lemma bread_fill s l cs w i c th :
  bio_at s l cs base w -> cs !! i = Some c ->
  exists s', (let! b := get_buf i in
              when (negb (ctrue (b_valid b))) (disk_rw i false;;; upd_buf i (with_valid 1));;;
              ret i) th s = Ok i th s' /\ bio_at s' l (<[i := filled w c]> cs) base w.
Proof.
  intros Hat Hc. destruct (at_get s l cs base w i c th Hat Hc) as (b & E & Hb).
  rewrite (bind_ok _ _ _ _ _ _ _ E). unfold filled.
  assert (b_valid b = b_valid c) as -> by by rewrite <- Hb.
  destruct (ctrue (b_valid c)); cbn [negb when].
  - exists s. split; [done|]. by rewrite list_insert_id.
  - unfold disk_rw. rewrite bind_assoc, bind_assoc, (bind_ok _ _ _ _ _ _ _ E).
    unfold bind at 1. unfold bind at 1. unfold bind at 1. unfold get at 1.
    destruct (at_upd s l cs base w i c (with_data (disk_of (bi_base s) (bi_hist s) (b_blockno b))) th Hat Hc)
      as (s1 & E1 & Hat1); [done|]. rewrite E1.
    assert (alter (with_data (disk_of (bi_base s) (bi_hist s) (b_blockno b))) i cs !! i
      = Some (with_data (disk_of base w (b_blockno c)) c)) as Hc1.
    { rewrite list_lookup_alter_eq, Hc. cbn. rewrite (at_base _ _ _ _ _ Hat), (at_hist _ _ _ _ _ Hat).
      by rewrite <- Hb. }
    destruct (at_upd s1 l _ base w i _ (with_valid 1) th Hat1 Hc1) as (s2 & E2 & Hat2); [done|].
    rewrite E2. exists s2. split; [done|].
    rewrite alter_compose_buf, (alter_insert_buf _ _ _ c Hc) in Hat2.
    rewrite (at_base _ _ _ _ _ Hat), (at_hist _ _ _ _ _ Hat) in Hat2. by rewrite <- Hb in Hat2 |- *.
Qed.

Lemma is_cached_true n cs i :
  is_cached dev n cs i = true <-> exists c, cs !! i = Some c /\ caches dev n c.
Proof.
  unfold is_cached, caches. destruct (cs !! i) as [c|]; [|naive_solver].
  rewrite andb_true_iff, !Z.eqb_eq. naive_solver.
Qed.

Lemma in_ring v w P H l cs i b : cache_ok' v w P H l cs -> cs !! i = Some b -> In i l.
Proof.
  intros Hok Hi. apply list_elem_of_In. rewrite (ck_perm _ _ _ _ _ _ _ _ _ Hok).
  apply elem_of_seq. apply lookup_lt_Some in Hi. rewrite (ck_size _ _ _ _ _ _ _ _ _ Hok) in Hi. lia.
Qed.

(** A buffer without users is neither pinned nor held. *)
Lemma unused_free v w P H l cs i c :
  cache_ok' v w P H l cs -> cs !! i = Some c -> b_refcnt c = 0 ->
  pinned dev P c = false /\ heldb H i = false.
Proof.
  intros Hok Hi H0. rewrite (ck_ref _ _ _ _ _ _ _ _ _ Hok i c Hi) in H0.
  by destruct (pinned dev P c), (heldb H i).
Qed.

(** The two ways [bget] finds a buffer lead to the same kind of buffer. *)
Lemma bread_take s v w P H l cs i c c1 n th :
  bio_at s l (<[i := c1]> cs) base w -> cache_ok' v w P H l cs -> n ∉ H.*1 -> cs !! i = Some c ->
  heldb H i = false -> (forall j x, cs !! j = Some x -> caches dev n x -> j = i) ->
  caches dev n c \/ pinned dev P c = false ->
  caches dev n c1 -> b_refcnt c1 = cbool (bool_decide (n ∈ P)) + 1 -> b_lock c1 = mkSleeplock 1 me ->
  (b_valid c1 <> 0 -> b_data c1 = v n) -> (b_valid c1 = 0 -> n ∉ P) ->
  exists s', (let! b := get_buf i in
              when (negb (ctrue (b_valid b))) (disk_rw i false;;; upd_buf i (with_valid 1));;;
              ret i) th s = Ok i th s' /\ bio_repr me dev base s' v w P ((n, i) :: H).
Proof.
  intros Hat Hok Hn Hi Hh Huniq Hold Hc1 Hr Hl Hd Hnp.
  assert (<[i := c1]> cs !! i = Some c1) as Hi1 by by apply (lookup_insert_Some_eq _ _ _ c).
  destruct (bread_fill s l _ w i c1 th Hat Hi1) as (s' & E & Hat').
  rewrite list_insert_insert_eq in Hat'. exists s'. split; [exact E|]. exists l, (<[i := filled w c1]> cs).
  split; [done|]. unfold filled, ctrue in *. destruct (Z.eqb_spec (b_valid c1) 0) as [H0|H0]; cbn [negb].
  - eapply (cache_ok_take v w P H l cs i c); try done. cbn. destruct Hc1 as [_ ->]. symmetry.
    apply (ck_clean _ _ _ _ _ _ _ _ _ Hok); auto.
  - eapply (cache_ok_take v w P H l cs i c); try done. by apply Hd.
Qed.

Lemma bio_bread_ok s v w P H n th :
  io_free me th -> bio_repr me dev base s v w P H -> n ∉ H.*1 ->
  (size (in_use P H) < NBUF)%nat \/ n ∈ P ->
  wp (bio_bread dev n) (fun b th' s' =>
    same_thread th th' /\ bio_repr me dev base s' v w P ((n, b) :: H)) th s.
Proof.
  intros (Hb & Hl & Hpid) (l & cs & Hat & Hok) Hn Hroom.
  assert (length l = NBUF) as Hlen
    by (rewrite (Permutation_length (ck_perm _ _ _ _ _ _ _ _ _ Hok)); apply length_seq).
  pose proof (bget_ok s l cs base w dev n th Hat ltac:(lia) Hb Hl) as Hget. unfold bio_bread.
  destruct (find (is_cached dev n cs) l) as [i|] eqn:Ef.
  - apply find_some in Ef as [_ Ef]. apply is_cached_true in Ef as (c & Hi & Hc).
    pose proof (not_held _ _ _ _ _ _ _ _ _ Hok Hi Hc Hn) as Hh.
    pose proof (ck_lock _ _ _ _ _ _ _ _ _ Hok i c Hi) as Hlk. rewrite Hh in Hlk.
    destruct (Hget c Hi ltac:(by rewrite Hlk)) as (s1 & E1 & Hat1).
    rewrite (alter_insert_buf _ _ _ c Hi), Hpid in Hat1.
    destruct (bread_take s1 v w P H l cs i c (taken me c) n th Hat1 Hok Hn Hi Hh) as (s2 & E2 & Hr2); try done.
    + intros j x Hj Hx. by eapply (ck_uniq _ _ _ _ _ _ _ _ _ Hok).
    + by left.
    + cbn. rewrite (ck_ref _ _ _ _ _ _ _ _ _ Hok i c Hi), Hh. unfold pinned. destruct Hc as [-> ->].
      rewrite (bool_decide_ext _ (n ∈ P)) by tauto. by destruct (bool_decide (n ∈ P)).
    + intros Hv. exact (ck_data _ _ _ _ _ _ _ _ _ Hok i c n Hi Hc Hv).
    + cbn. intros H0 Hp. destruct (ck_pin _ _ _ _ _ _ _ _ _ Hok n Hp) as (j & x & Hj & Hx & Hv).
      assert (j = i) as -> by by eapply (ck_uniq _ _ _ _ _ _ _ _ _ Hok). congruence.
    + eapply wp_eq; [rewrite (bind_ok _ _ _ _ _ _ _ E1); exact E2|]. done.
  - assert (forall j x, cs !! j = Some x -> ~ caches dev n x) as Hno.
    { intros j x Hj Hx. pose proof (find_none _ _ Ef j (in_ring _ _ _ _ _ _ _ _ Hok Hj)) as Hf.
      rewrite (proj2 (is_cached_true n cs j) (ex_intro _ x (conj Hj Hx))) in Hf. done. }
    assert (n ∉ P) as Hnp.
    { intros Hp. destruct (ck_pin _ _ _ _ _ _ _ _ _ Hok n Hp) as (j & x & Hj & Hx & _). by eapply Hno. }
    destruct Hroom as [Hroom|]; [|done].
    destruct (find (is_unused cs) (rev l)) as [i|] eqn:Eu.
    + apply find_some in Eu as [_ Eu]. unfold is_unused in Eu. destruct (cs !! i) as [c|] eqn:Hi; [|done].
      apply Z.eqb_eq in Eu. destruct (unused_free _ _ _ _ _ _ _ _ Hok Hi Eu) as [Hp Hh].
      pose proof (ck_lock _ _ _ _ _ _ _ _ _ Hok i c Hi) as Hlk. rewrite Hh in Hlk.
      destruct (Hget c eq_refl ltac:(by rewrite Hlk)) as (s1 & E1 & Hat1).
      rewrite (alter_insert_buf _ _ _ c Hi), Hpid in Hat1.
      destruct (bread_take s1 v w P H l cs i c (retaken me dev n c) n th Hat1 Hok Hn Hi Hh)
        as (s2 & E2 & Hr2); try done.
      * intros j x Hj Hx. by destruct (Hno j x Hj).
      * by right.
      * by rewrite bool_decide_false.
      * eapply wp_eq; [rewrite (bind_ok _ _ _ _ _ _ _ E1); exact E2|]. done.
    + destruct (unused_exists _ _ _ _ _ _ Hok Hroom) as (i & b & Hi & H0).
      pose proof (find_none _ _ Eu i) as Hf. rewrite <- in_rev in Hf.
      specialize (Hf (in_ring _ _ _ _ _ _ _ _ Hok Hi)). unfold is_unused in Hf. rewrite Hi, H0 in Hf. done.
Qed.

(** Changing the buffer [i] of block [n], its users and the contents of [n]. *)
Lemma cache_ok_update v w P H l cs i c n b v' w' P' H' l' :
  cache_ok' v w P H l cs -> cs !! i = Some c -> caches dev n c -> caches dev n b -> l' ≡ₚ l ->
  (forall m, m <> n -> v' m = v m) -> blocks_ok v' ->
  (forall m, m <> n -> m ∈ P' <-> m ∈ P) ->
  (forall j, j <> i -> heldb H' j = heldb H j) ->
  (forall m j, (m, j) ∈ H' -> (m, j) ∈ H) -> NoDup H'.*1 ->
  b_refcnt b = cbool (bool_decide (n ∈ P')) + cbool (heldb H' i) ->
  b_lock b = (if heldb H' i then mkSleeplock 1 me else mkSleeplock 0 0) ->
  b_valid b <> 0 -> b_data b = v' n ->
  (forall m, m ∉ P' -> m ∉ H'.*1 -> v' m = disk_of base w' m) ->
  cache_ok' v' w' P' H' l' (<[i := b]> cs).
Proof.
  intros [D Pm Sz Uq Rf Lk Dt Hl Nd Pn Cl Bk] Hi Hc Hb Hperm Hv Hbk HP HH Hsub Hnd' Hr Hlk Hval Hdat Hclean.
  assert (<[i := b]> cs !! i = Some b) as Hib by by apply (lookup_insert_Some_eq _ _ _ c).
  assert (forall j x m, cs !! j = Some x -> caches dev m x -> j <> i -> m <> n) as Hother.
  { intros j x m Hj Hx Hne ->. by apply Hne, (Uq j i x c n). }
  assert (forall j x, cs !! j = Some x -> exists x', <[i := b]> cs !! j = Some x' /\
    (forall m, caches dev m x -> caches dev m x') /\ (b_valid x <> 0 -> b_valid x' <> 0)) as Hkeep.
  { intros j x Hj. destruct (decide (j = i)) as [->|Hne]; [|exists x; by rewrite list_lookup_insert_ne].
    exists b. split; [done|]. split; [|done]. intros m [Hm1 Hm2]. simplify_eq. by destruct Hc as [_ <-]. }
  split; try done.
  - by rewrite Hperm.
  - by rewrite length_insert.
  - intros x y b1 b2 m Hx Hy H1 H2.
    apply list_lookup_insert_Some in Hx as [(<- & <- & _)|[? Hx]], Hy as [(<- & <- & _)|[? Hy]]; try done.
    + destruct (Hother y b2 m Hy H2); [done|]. destruct Hb, H1. congruence.
    + destruct (Hother x b1 m Hx H1); [done|]. destruct Hb, H2. congruence.
    + by apply (Uq x y b1 b2 m).
  - intros x b1 Hx. apply list_lookup_insert_Some in Hx as [(<- & <- & _)|[Hne Hx]].
    + rewrite Hr. unfold pinned. destruct Hb as [Hb1 Hb2]. f_equal. f_equal. apply bool_decide_ext. naive_solver.
    + rewrite HH, (Rf x b1 Hx) by done. f_equal. f_equal. apply bool_decide_ext.
      split; intros [Hd1 Hm]; (split; [done|]); apply (HP (b_blockno b1)); try done;
        by apply (Hother x b1 _ Hx).
  - intros x b1 Hx. apply list_lookup_insert_Some in Hx as [(<- & <- & _)|[Hne Hx]]; [done|].
    rewrite HH by done. by apply Lk.
  - intros x b1 m Hx Hm Hv1. apply list_lookup_insert_Some in Hx as [(<- & <- & _)|[Hne Hx]].
    + destruct Hb, Hm. congruence.
    + rewrite Hv by by apply (Hother x b1 m). by eapply Dt.
  - intros m j Hin. destruct (Hl m j (Hsub m j Hin)) as (x & Hx & Hc1 & Hv1).
    destruct (Hkeep j x Hx) as (x' & Hx' & Hk1 & Hk2). exists x'. auto.
  - intros m Hm. destruct (decide (m = n)) as [->|Hne]; [by exists i, b|].
    destruct (Pn m (proj1 (HP m Hne) Hm)) as (j & x & Hx & Hc1 & Hv1).
    destruct (Hkeep j x Hx) as (x' & Hx' & Hk1 & Hk2). exists j, x'. auto.
Qed.

(** What is known of a buffer the caller holds. *)
Lemma held_buf v w P H l cs n i :
  cache_ok' v w P H l cs -> (n, i) ∈ H ->
  exists c, cs !! i = Some c /\ caches dev n c /\ b_valid c <> 0 /\ b_data c = v n /\
    b_lock c = mkSleeplock 1 me /\ b_refcnt c = cbool (bool_decide (n ∈ P)) + 1 /\ heldb H i = true.
Proof.
  intros Hok Hin. destruct (ck_held _ _ _ _ _ _ _ _ _ Hok n i Hin) as (c & Hi & Hc & Hv).
  assert (heldb H i = true) as Hh by (apply bool_decide_eq_true; by apply (in_held H n i)).
  exists c. split; [done|]. split; [done|]. split; [done|].
  split; [by apply (ck_data _ _ _ _ _ _ _ _ _ Hok i c n)|].
  pose proof (ck_lock _ _ _ _ _ _ _ _ _ Hok i c Hi) as Hl. rewrite Hh in Hl. split; [done|].
  split; [|done]. rewrite (ck_ref _ _ _ _ _ _ _ _ _ Hok i c Hi), Hh. unfold pinned.
  destruct Hc as [-> ->]. f_equal. f_equal. apply bool_decide_ext. tauto.
Qed.

Lemma bio_bwrite_ok s v w P H n i th :
  io_free me th -> bio_repr me dev base s v w P H -> (n, i) ∈ H ->
  wp (bio_bwrite i) (fun _ th' s' =>
    same_thread th th' /\ bio_repr me dev base s' v (w ++ [(n, v n)]) P H) th s.
Proof.
  intros (Hb & Hl & Hpid) (l & cs & Hat & Hok) Hin.
  destruct (held_buf _ _ _ _ _ _ _ _ Hok Hin) as (c & Hi & Hc & Hv & Hd & Hlk & Hr & Hh).
  destruct (at_lock s l cs base w i c (holdingsleep (LkBuf i)) th true th (b_lock c) Hat Hi) as (s1 & E1 & Hat1).
  { rewrite holdingsleep_ok by done. rewrite Hlk. cbn. by rewrite Hpid, Z.eqb_refl. }
  assert (alter (with_lock (b_lock c)) i cs = cs) as Eid.
  { rewrite (alter_insert_buf _ _ _ c Hi). apply list_insert_id. rewrite Hi. by destruct c. }
  rewrite Eid in Hat1. destruct (at_get s1 l cs base w i c th Hat1 Hi) as (b & E2 & Hbc).
  unfold bio_bwrite. eapply wp_eq.
  - rewrite (bind_ok _ _ _ _ _ _ _ E1). cbn [negb when]. unfold bind at 1, ret. unfold disk_rw.
    rewrite (bind_ok _ _ _ _ _ _ _ E2). reflexivity.
  - split; [done|]. exists l, cs. destruct Hat1 as [Hring Hcs Hbase Hhist]. split.
    + split; [|exact Hcs|exact Hbase|].
      { eapply chainp_ext; [..|exact Hring]; by intros []. }
      cbn. rewrite Hhist. do 2 f_equal. apply (f_equal b_blockno) in Hbc as Hbn.
      apply (f_equal b_data) in Hbc as Hbd. cbn in Hbn, Hbd. destruct Hc as [_ Hcn]. congruence.
    + rewrite <- (list_insert_id cs i c Hi). eapply cache_ok_update; try done; try apply (ck_nodup _ _ _ _ _ _ _ _ _ Hok); try apply (ck_blocks _ _ _ _ _ _ _ _ _ Hok).
      * by rewrite Hh.
      * by rewrite Hh.
      * intros m Hm1 Hm2. rewrite disk_of_snoc, upd_ne; [by apply Hok|]. intros ->.
        by apply Hm2, (in_held H n i).
Qed.

Lemma bio_set_bdata_ok s v w P H n i d th :
  bio_repr me dev base s v w P H -> (n, i) ∈ H -> length d = Z.to_nat BSIZE ->
  wp (upd_buf i (with_data d)) (fun _ th' s' =>
    th' = th /\ bio_repr me dev base s' (upd v n d) w P H) th s.
Proof.
  intros (l & cs & Hat & Hok) Hin Hlen.
  destruct (held_buf _ _ _ _ _ _ _ _ Hok Hin) as (c & Hi & Hc & Hv & Hd & Hlk & Hr & Hh).
  destruct (at_upd s l cs base w i c (with_data d) th Hat Hi) as (s1 & E1 & Hat1); [done|].
  eapply wp_eq; [exact E1|]. split; [done|]. exists l, (alter (with_data d) i cs). split; [done|].
  rewrite (alter_insert_buf _ _ _ c Hi). eapply cache_ok_update; try done; try apply (ck_nodup _ _ _ _ _ _ _ _ _ Hok); try apply (ck_blocks _ _ _ _ _ _ _ _ _ Hok).
  - intros m Hm. by apply upd_ne.
  - apply upd_blocks_ok; [apply Hok|done].
  - by rewrite Hh.
  - by rewrite Hh.
  - cbn. by rewrite upd_eq.
  - intros m Hm1 Hm2. rewrite upd_ne; [by apply Hok|]. intros ->. by apply Hm2, (in_held H n i).
Qed.

Lemma u32_ref (b : bool) : u32 (cbool b + 1 - 1) = cbool b /\ u32 (cbool b + 1 + 1) = cbool b + 2.
Proof. by destruct b. Qed.

Lemma bio_brelse_ok s v w P H1 H2 n i th :
  io_free me th -> bio_repr me dev base s v w P (H1 ++ (n, i) :: H2) ->
  n ∈ P \/ v n = disk_of base w n ->
  wp (bio_brelse i) (fun _ th' s' =>
    same_thread th th' /\ bio_repr me dev base s' v w P (H1 ++ H2)) th s.
Proof.
  intros (Hb & Hl & Hpid) (l & cs & Hat & Hok) Hclean.
  destruct (held_buf _ _ _ _ _ _ n i Hok ltac:(set_solver)) as (c & Hi & Hc & Hv & Hd & Hlk & Hr & Hh).
  destruct (held_once _ _ _ _ _ _ _ _ _ Hok) as [Hn1 Hi1].
  assert (exists l1 l2, l = l1 ++ i :: l2) as (l1 & l2 & ->).
  { apply list_elem_of_split, list_elem_of_In. by eapply in_ring. }
  assert (NoDup (l1 ++ i :: l2)) as Hnd by (rewrite (ck_perm _ _ _ _ _ _ _ _ _ Hok); apply NoDup_seq).
  destruct (brelse_ok s l1 i l2 cs base w c th Hat Hnd Hi) as (s' & E & Hat'); try done; [by rewrite Hpid|].
  eapply wp_eq; [exact E|]. split; [by apply same_thread_woke|]. eexists _, _. split; [exact Hat'|].
  assert (forall j, j <> i -> heldb (H1 ++ H2) j = heldb (H1 ++ (n, i) :: H2) j) as Hheld.
  { intros j Hj. apply bool_decide_ext. rewrite !fmap_app, fmap_cons. cbn. set_solver. }
  assert (heldb (H1 ++ H2) i = false) as Hfree by by apply bool_decide_eq_false.
  rewrite (alter_insert_buf _ _ _ c Hi).
  eapply (cache_ok_update v w P _ _ cs i c n); try exact Hok; try done.
  - destruct (_ =? 0); [by rewrite <- Permutation_middle|done].
  - apply Hok.
  - intros m j Hin. set_solver.
  - pose proof (ck_nodup _ _ _ _ _ _ _ _ _ Hok) as Hnd'. rewrite fmap_app, fmap_cons in Hnd'.
    rewrite <- Permutation_middle in Hnd'. apply NoDup_cons in Hnd' as [_ Hnd']. by rewrite fmap_app.
  - rewrite Hfree. cbn. rewrite Hr, (proj1 (u32_ref _)). lia.
  - by rewrite Hfree.
  - intros m Hm1 Hm2. destruct (decide (m = n)) as [->|Hne]; [by destruct Hclean|].
    apply (ck_clean _ _ _ _ _ _ _ _ _ Hok); [done|]. rewrite fmap_app, fmap_cons in *. cbn. set_solver.
Qed.

(** [bpin] and [bunpin] are one store under the lock of the cache. *)
Lemma refcnt_run s l cs w i c f th :
  io_free me th -> bio_at s l cs base w -> cs !! i = Some c -> keeps_links f ->
  exists s', (acquire LkBcache;;; upd_buf i f;;; release LkBcache) th s = Ok tt th s' /\
    bio_at s' l (<[i := f c]> cs) base w.
Proof.
  intros (Hb & _ & _) Hat Hi Hf. rewrite (bind_ok _ _ _ _ _ _ _ (acquire_ok LkBcache th s Hb)).
  destruct (at_upd s l cs base w i c f (set_held (LkBcache :: th_held th) th) Hat Hi Hf) as (s1 & E1 & Hat1).
  rewrite (bind_ok _ _ _ _ _ _ _ E1). exists s1. split; [by apply release_acquired|].
  by rewrite (alter_insert_buf _ _ _ c Hi) in Hat1.
Qed.

Lemma bio_bpin_ok s v w P H n i th :
  io_free me th -> bio_repr me dev base s v w P H -> (n, i) ∈ H -> n ∉ P ->
  wp (bio_bpin i) (fun _ th' s' => same_thread th th' /\ bio_repr me dev base s' v w ({[n]} ∪ P) H) th s.
Proof.
  intros Hio (l & cs & Hat & Hok) Hin Hnp.
  destruct (held_buf _ _ _ _ _ _ n i Hok Hin) as (c & Hi & Hc & Hv & Hd & Hlk & Hr & Hh).
  destruct (refcnt_run s l cs w i c (fun b => with_refcnt (u32 (b_refcnt b + 1)) b) th Hio Hat Hi)
    as (s' & E & Hat'); [done|].
  eapply wp_eq; [exact E|]. split; [done|]. eexists _, _. split; [exact Hat'|].
  eapply (cache_ok_update v w P _ _ cs i c n); try exact Hok; try done; try apply (ck_nodup _ _ _ _ _ _ _ _ _ Hok); try apply (ck_blocks _ _ _ _ _ _ _ _ _ Hok).
  - intros m Hm. set_solver.
  - rewrite Hh. cbn. rewrite Hr, (proj2 (u32_ref _)), (bool_decide_false (n ∈ P)) by done.
    by rewrite bool_decide_true by set_solver.
  - by rewrite Hh.
  - intros m Hm1 Hm2. apply (ck_clean _ _ _ _ _ _ _ _ _ Hok); [|done]. intros Hm3. by apply Hm1, elem_of_union_r.
Qed.

Lemma bio_bunpin_ok s v w P H n i th :
  io_free me th -> bio_repr me dev base s v w P H -> (n, i) ∈ H -> n ∈ P ->
  wp (bio_bunpin i) (fun _ th' s' => same_thread th th' /\ bio_repr me dev base s' v w (P ∖ {[n]}) H) th s.
Proof.
  intros Hio (l & cs & Hat & Hok) Hin Hp.
  destruct (held_buf _ _ _ _ _ _ n i Hok Hin) as (c & Hi & Hc & Hv & Hd & Hlk & Hr & Hh).
  destruct (refcnt_run s l cs w i c (fun b => with_refcnt (u32 (b_refcnt b - 1)) b) th Hio Hat Hi)
    as (s' & E & Hat'); [done|].
  eapply wp_eq; [exact E|]. split; [done|]. eexists _, _. split; [exact Hat'|].
  eapply (cache_ok_update v w P _ _ cs i c n); try exact Hok; try done; try apply (ck_nodup _ _ _ _ _ _ _ _ _ Hok); try apply (ck_blocks _ _ _ _ _ _ _ _ _ Hok).
  - intros m Hm. set_solver.
  - rewrite Hh. cbn. rewrite Hr, (proj1 (u32_ref _)), (bool_decide_true (n ∈ P)) by done.
    by rewrite bool_decide_false by set_solver.
  - by rewrite Hh.
  - intros m Hm1 Hm2. apply (ck_clean _ _ _ _ _ _ _ _ _ Hok); [|done].
    intros Hm3. apply Hm1, elem_of_difference. split; [done|]. intros ->%elem_of_singleton.
    by apply Hm2, (in_held H n i).
Qed.
End Cache.

(** ** The cache after boot *)

(** A buffer of the zeroed static array. *)
Definition zero_buf : buf :=
  mkBuf 0 0 0 0 initsleeplock 0 BHead BHead (replicate (Z.to_nat BSIZE) 0).
Definition bio_zero (base : blocks) : bio := mkBio (replicate NBUF zero_buf) BHead BHead base [].

Definition boot_thread : thread := mkThread [] 0 0 [].
Definition bio_boot (base : blocks) : bio :=
  match binit boot_thread (bio_zero base) with Ok _ _ s => s | _ => bio_zero base end.

Lemma binit_body_ok s l i cs base w th :
  bio_at s l cs base w -> NoDup l -> i ∉ l -> cs !! i = Some zero_buf ->
  exists s', binit_body i th s = Ok tt th s' /\ bio_at s' (i :: l) cs base w.
Proof.
  intros Hat Hnd Hi Hc. destruct (bio_at_lookup _ _ _ _ _ _ _ Hat Hc) as (b & Hb & Hs).
  destruct Hat as [Hr Hcs Hbase Hw]. unfold ring in Hr.
  pose proof (proj2 (nodup_ring l Hnd)) as HnB. pose proof (head_notin_BBuf l) as Hhd.
  assert (BBuf i ∉ (BBuf <$> l) ++ [BHead]) as HiB by (pose proof (in_BBuf i l); set_solver).
  assert (BHead ∉ removelast ((BBuf <$> l) ++ [BHead])) as HhB by by rewrite removelast_last.
  set (rest := (BBuf <$> l) ++ [BHead]) in *. destruct rest as [|h B] eqn:EB; [by destruct (BBuf <$> l)|].
  destruct Hr as [[Hh1 Hh2] Hr].
  assert (is_Some (bnext s (BBuf i))) as Hn by (cbn; rewrite Hb; by eexists).
  assert (is_Some (bprev s (BBuf i))) as Hp by (cbn; rewrite Hb; by eexists).
  assert (h <> BBuf i) as Hhi by set_solver.
  set (s2 := setp (BBuf i) BHead (setn (BBuf i) h s)).
  set (s3 := set_bufs (alter (with_lock initsleeplock) i (bi_buf s2)) s2).
  destruct (links_alter s2 (with_lock initsleeplock) i) as [Ln Lp]; [done|].
  assert (is_Some (bi_buf s2 !! i)) as [b2 Hb2].
  { unfold s2. cbn. rewrite !list_lookup_alter_eq, Hb. by eexists. }
  assert (bnext s3 BHead = Some h) as Hh3 by done.
  assert (is_Some (bprev s3 h)) as Hp3.
  { unfold s3. rewrite Lp. unfold s2. rewrite bprev_setp by by rewrite bprev_setn.
    rewrite decide_False by done. rewrite bprev_setn, Hh2. by eexists. }
  exists (setn BHead (BBuf i) (setp h (BBuf i) s3)). split.
  - unfold binit_body. erewrite bind_ok by (by apply get_next_ok).
    erewrite bind_ok by (by apply set_next_ok). erewrite bind_ok by (apply set_prev_ok; by rewrite bprev_setn).
    fold s2. erewrite bind_ok by (by eapply upd_buf_ok). fold s3.
    erewrite bind_ok by (by apply get_next_ok). erewrite bind_ok by (by apply set_prev_ok).
    apply set_next_ok. by eexists.
  - assert (relinked_bio s s2) as (Hc2 & Hb2' & Hw2).
    { etransitivity; [apply relinked_setn|apply relinked_setp]. }
    assert (relinked_bio s3 (setn BHead (BBuf i) (setp h (BBuf i) s3))) as (Hc4 & Hb4 & Hw4).
    { etransitivity; [apply relinked_setp|apply relinked_setn]. }
    split; [| |rewrite Hb4; exact (eq_trans Hb2' Hbase)|rewrite Hw4; exact (eq_trans Hw2 Hw)].
    + unfold ring. change ((BBuf <$> i :: l) ++ [BHead]) with (BBuf i :: ((BBuf <$> l) ++ [BHead])).
      fold rest. rewrite EB.
      destruct (push_links s i h Hn Hp ltac:(by rewrite Hh2)) as [En Ep].
      eapply (push_chain s); try done; [by apply NoDup_cons in HnB as [HnB _]| |].
      * intros r. rewrite <- En. rewrite !(bnext_setn BHead) by by eexists. rewrite !(bnext_setp h).
        unfold s3. by rewrite Ln.
      * intros r. rewrite <- Ep. rewrite !bprev_setn. rewrite !(bprev_setp h); [..|done].
        -- unfold s3. by rewrite Lp.
        -- unfold s3 in Hp3. by rewrite Lp in Hp3.
    + rewrite Hc4. unfold s3. rewrite content_alter_keep by done. rewrite Hc2, Hcs.
      rewrite (alter_insert_buf _ _ _ zero_buf Hc). by apply list_insert_id.
Qed.

Lemma binit_loop_ok k i s l cs base w th :
  bio_at s l cs base w -> NoDup l -> (forall x, x ∈ l -> (x < i)%nat) ->
  (forall j, (i <= j < i + k)%nat -> cs !! j = Some zero_buf) ->
  exists s', binit_loop k i th s = Ok tt th s' /\ bio_at s' (rev (seq i k) ++ l) cs base w.
Proof.
  revert i s l. induction k as [|k IH]; intros i s l Hat Hnd Hlt Hcs; [by exists s|].
  cbn [binit_loop]. destruct (binit_body_ok s l i cs base w th Hat Hnd) as (s1 & E1 & Hat1).
  - intros Hin%Hlt. lia.
  - apply Hcs. lia.
  - rewrite (bind_ok _ _ _ _ _ _ _ E1). destruct (IH (S i) s1 (i :: l) Hat1) as (s' & E & Hat').
    + constructor; [intros Hin%Hlt; lia|done].
    + intros x [->|Hx%Hlt]%elem_of_cons; lia.
    + intros j Hj. apply Hcs. lia.
    + exists s'. split; [done|]. cbn [seq rev]. by rewrite <- app_assoc.
Qed.

(** [binit] links all buffers, the last one first. *)
Lemma binit_ok base :
  exists s, binit boot_thread (bio_zero base) = Ok tt boot_thread s /\
    bio_at s (rev (seq 0 NBUF)) (replicate NBUF zero_buf) base [].
Proof.
  assert (bio_at (bio_zero base) [] (replicate NBUF zero_buf) base []) as Hat by by split.
  destruct (binit_loop_ok NBUF 0 _ _ _ _ _ boot_thread Hat) as (s & E & Hs).
  - constructor.
  - intros x ?%not_elem_of_nil. done.
  - intros j Hj. apply lookup_replicate_2. lia.
  - exists s. rewrite app_nil_r in Hs. split; [exact E|done].
Qed.

Lemma bio_boot_ok me dev base :
  dev <> 0 -> blocks_ok base -> bio_repr me dev base (bio_boot base) base [] ∅ [].
Proof.
  intros Hd Hb. destruct (binit_ok base) as (s & E & Hat).
  assert (bio_boot base = s) as -> by (unfold bio_boot; by rewrite E). clear E.
  exists (rev (seq 0 NBUF)), (replicate NBUF zero_buf). split; [done|].
  assert (forall i b, replicate NBUF zero_buf !! i = Some b -> b = zero_buf) as Hz
    by (intros i b Hi; by apply (proj1 (lookup_replicate NBUF _ _ _)) in Hi as [-> _]).
  split; [exact Hd| |apply length_replicate|..|exact Hb].
  - symmetry. apply Permutation_rev.
  - intros i j b b' n ->%Hz _ [Hb' _] _. by destruct Hd.
  - intros i b ->%Hz. unfold pinned. rewrite bool_decide_false by (cbn; naive_solver). done.
  - intros i b ->%Hz. done.
  - intros i b n ->%Hz _ Hv. by destruct Hv.
  - intros n i ?%not_elem_of_nil. done.
  - constructor.
  - intros n ?%not_elem_of_empty. done.
  - intros n _ _. reflexivity.
Qed.

(** The buffer cache keeps the contract of its interface. *)
#[export] Instance bio_cache_spec : BlockCacheSpec bio.
Proof.
  refine {| crepr := bio_repr; cboot := bio_boot; chist := bi_hist |}.
  - apply bio_boot_ok.
  - intros me dev base s v v' w P H Hv (l & cs & Hat & [D Pm Sz Uq Rf Lk Dt Hl Nd Pn Cl Bk]).
    exists l, cs. split; [done|]. split; try done.
    + intros i b n Hi Hc Hval. rewrite Hv. by eapply Dt.
    + intros n. rewrite Hv. apply Cl.
    + intros n. rewrite Hv. apply Bk.
  - intros me dev base s v w P H (l & cs & Hat & _). apply Hat.
  - intros me dev base s v w P H (l & cs & _ & Hok). apply Hok.
  - intros me dev base s v w P H n (l & cs & _ & Hok). apply Hok.
  - intros me dev base s v w P H n th Hio _. by apply bio_bread_ok.
  - intros me dev base s v w P H n i th (l & cs & Hat & Hok) Hin. cbn.
    destruct (held_buf _ _ _ _ _ _ _ _ _ n i Hok Hin) as (c & Hi & _ & _ & Hd & _).
    destruct (at_get s l cs base w i c th Hat Hi) as (b & E & Hb). rewrite (bind_ok _ _ _ _ _ _ _ E).
    unfold ret. f_equal. by rewrite <- Hd, <- Hb.
  - intros me dev base s v w P H n i th (l & cs & Hat & Hok) Hin. cbn.
    destruct (held_buf _ _ _ _ _ _ _ _ _ n i Hok Hin) as (c & Hi & [_ Hc] & _).
    destruct (at_get s l cs base w i c th Hat Hi) as (b & E & Hb). rewrite (bind_ok _ _ _ _ _ _ _ E).
    unfold ret. f_equal. by rewrite <- Hc, <- Hb.
  - intros me dev base s v w P H n i d th. apply bio_set_bdata_ok.
  - intros me dev base s v w P H n i th. apply bio_bwrite_ok.
  - intros me dev base s v w P H1 H2 n i th. apply bio_brelse_ok.
  - intros me dev base s v w P H n i th. apply bio_bpin_ok.
  - intros me dev base s v w P H n i th. apply bio_bunpin_ok.
Defined.

Lemma cboot_bio base : cboot base = bio_boot base.
Proof. reflexivity. Qed.
Lemma chist_bio (s : bio) : chist s = bi_hist s.
Proof. reflexivity. Qed.
