(* ===== verification/Virtio.v ===== *)
(** * The disk driver (kernel/virtio_disk.c, kernel/virtio.h)

    The descriptor table and the two rings lie in memory that driver and device share;
    [vdisk] is that memory with the driver's own bookkeeping, that is, [struct disk].  An
    address in a descriptor is the object it points to: a command header, the data of a
    buffer, or a status byte.  The device's registers are reached through the class
    [VirtioRegs]; what the device does on its own is in VirtioSpec.v.  A stretch of
    [virtio_disk_rw] under [vdisk_lock] ends when the call returns or sleeps, as in
    Pipe.v. *)

From S2P Require Import Prelude Layout Memory Kalloc Sleeplock BlockCache Bio.

(** ** Constants (kernel/virtio.h) *)

Definition VIRTIO_MMIO_MAGIC_VALUE : Z := 0.
Definition VIRTIO_MMIO_VERSION : Z := 4.
Definition VIRTIO_MMIO_DEVICE_ID : Z := 8.
Definition VIRTIO_MMIO_VENDOR_ID : Z := 12.
Definition VIRTIO_MMIO_DEVICE_FEATURES : Z := 16.
Definition VIRTIO_MMIO_DRIVER_FEATURES : Z := 32.
Definition VIRTIO_MMIO_QUEUE_SEL : Z := 48.
Definition VIRTIO_MMIO_QUEUE_NUM_MAX : Z := 52.
Definition VIRTIO_MMIO_QUEUE_NUM : Z := 56.
Definition VIRTIO_MMIO_QUEUE_READY : Z := 68.
Definition VIRTIO_MMIO_QUEUE_NOTIFY : Z := 80.
Definition VIRTIO_MMIO_INTERRUPT_STATUS : Z := 96.
Definition VIRTIO_MMIO_INTERRUPT_ACK : Z := 100.
Definition VIRTIO_MMIO_STATUS : Z := 112.
Definition VIRTIO_MMIO_QUEUE_DESC_LOW : Z := 128.
Definition VIRTIO_MMIO_QUEUE_DESC_HIGH : Z := 132.
Definition VIRTIO_MMIO_DRIVER_DESC_LOW : Z := 144.
Definition VIRTIO_MMIO_DRIVER_DESC_HIGH : Z := 148.
Definition VIRTIO_MMIO_DEVICE_DESC_LOW : Z := 160.
Definition VIRTIO_MMIO_DEVICE_DESC_HIGH : Z := 164.

Definition VIRTIO_CONFIG_S_ACKNOWLEDGE : Z := 1.
Definition VIRTIO_CONFIG_S_DRIVER : Z := 2.
Definition VIRTIO_CONFIG_S_DRIVER_OK : Z := 4.
Definition VIRTIO_CONFIG_S_FEATURES_OK : Z := 8.

Definition VIRTIO_BLK_F_RO : Z := 5.
Definition VIRTIO_BLK_F_SCSI : Z := 7.
Definition VIRTIO_BLK_F_CONFIG_WCE : Z := 11.
Definition VIRTIO_BLK_F_MQ : Z := 12.
Definition VIRTIO_F_ANY_LAYOUT : Z := 27.
Definition VIRTIO_RING_F_INDIRECT_DESC : Z := 28.
Definition VIRTIO_RING_F_EVENT_IDX : Z := 29.

Definition NUM : Z := 8.
Definition VRING_DESC_F_NEXT : Z := 1.
Definition VRING_DESC_F_WRITE : Z := 2.
Definition VIRTIO_BLK_T_IN : Z := 0.
Definition VIRTIO_BLK_T_OUT : Z := 1.
(** [sizeof(struct virtio_blk_req)] *)
Definition BLK_REQ_SIZE : Z := 16.

(** ** The shared memory and the driver's state *)

Inductive dma : Set :=
| DNull
| DOps (i : nat)        (* &disk.ops[i] *)
| DData (b : nat)       (* b->data *)
| DStatus (i : nat).    (* &disk.info[i].status *)

Record virtq_desc := mkDesc { d_addr : dma; d_len : Z; d_flags : Z; d_next : Z }.
Definition zero_desc : virtq_desc := mkDesc DNull 0 0 0.

Record virtio_blk_req := mkReq { rq_type : Z; rq_reserved : Z; rq_sector : Z }.

Record vinfo := mkInfo { in_b : option nat; in_status : Z }.

Record vdisk := mkVdisk {
  vd_desc : list virtq_desc;
  vd_avail_idx : Z;            (* avail->idx *)
  vd_avail : list Z;           (* avail->ring *)
  vd_used_idx : Z;             (* used->idx *)
  vd_used : list Z;            (* the ids in used->ring *)
  vd_free : list Z;            (* free[NUM] *)
  vd_seen : Z;                 (* disk.used_idx *)
  vd_info : list vinfo;
  vd_ops : list virtio_blk_req;
}.

Definition set_desc (x : list virtq_desc) (s : vdisk) : vdisk :=
  mkVdisk x (vd_avail_idx s) (vd_avail s) (vd_used_idx s) (vd_used s) (vd_free s) (vd_seen s) (vd_info s) (vd_ops s).
Definition set_avail (i : Z) (x : list Z) (s : vdisk) : vdisk :=
  mkVdisk (vd_desc s) i x (vd_used_idx s) (vd_used s) (vd_free s) (vd_seen s) (vd_info s) (vd_ops s).
Definition set_used (i : Z) (x : list Z) (s : vdisk) : vdisk :=
  mkVdisk (vd_desc s) (vd_avail_idx s) (vd_avail s) i x (vd_free s) (vd_seen s) (vd_info s) (vd_ops s).
Definition set_free (x : list Z) (s : vdisk) : vdisk :=
  mkVdisk (vd_desc s) (vd_avail_idx s) (vd_avail s) (vd_used_idx s) (vd_used s) x (vd_seen s) (vd_info s) (vd_ops s).
Definition set_seen (x : Z) (s : vdisk) : vdisk :=
  mkVdisk (vd_desc s) (vd_avail_idx s) (vd_avail s) (vd_used_idx s) (vd_used s) (vd_free s) x (vd_info s) (vd_ops s).
Definition set_info (x : list vinfo) (s : vdisk) : vdisk :=
  mkVdisk (vd_desc s) (vd_avail_idx s) (vd_avail s) (vd_used_idx s) (vd_used s) (vd_free s) (vd_seen s) x (vd_ops s).
Definition set_ops (x : list virtio_blk_req) (s : vdisk) : vdisk :=
  mkVdisk (vd_desc s) (vd_avail_idx s) (vd_avail s) (vd_used_idx s) (vd_used s) (vd_free s) (vd_seen s) (vd_info s) x.

(** ** Descriptors *)

Fixpoint alloc_desc_from (k : nat) (i : Z) : M vdisk Z :=
  match k with
  | O => ret (-1)
  | S k' =>
      let! s := get in
      let! f := deref "disk.free index" (znth (vd_free s) i) in
      if ctrue f then modify (set_free (zupd (vd_free s) i 0));;; ret i
      else alloc_desc_from k' (i + 1)
  end.

Definition alloc_desc : M vdisk Z := alloc_desc_from (Z.to_nat NUM) 0.

Definition free_desc (i : Z) : M vdisk unit :=
  when (NUM <=? i) (panic "free_desc 1");;;
  let! s := get in
  let! f := deref "disk.free index" (znth (vd_free s) i) in
  when (ctrue f) (panic "free_desc 2");;;
  modify (fun s => set_desc (zupd (vd_desc s) i zero_desc) s);;;
  modify (fun s => set_free (zupd (vd_free s) i 1) s);;;
  wakeup ChDiskFree.

(** The loop of [free_chain]: it ends at a descriptor without [VRING_DESC_F_NEXT], or
    stops at one that is already free, so [NUM + 1] turns are enough. *)
Fixpoint free_chain_loop (fuel : nat) (i : Z) : M vdisk unit :=
  match fuel with
  | O => diverge
  | S f =>
      let! s := get in
      let! d := deref "disk.desc index" (znth (vd_desc s) i) in
      free_desc i;;;
      if ctrue (Z.land (d_flags d) VRING_DESC_F_NEXT) then free_chain_loop f (d_next d) else ret tt
  end.

Definition free_chain (i : Z) : M vdisk unit := free_chain_loop (Z.to_nat NUM + 1) i.

Fixpoint free_each (idx : list Z) : M vdisk unit :=
  match idx with [] => ret tt | i :: idx' => free_desc i;;; free_each idx' end.

(** [idx] holds the descriptors found so far; [k] are still to be found. *)
Fixpoint alloc3_desc_from (k : nat) (idx : list Z) : M vdisk (option (list Z)) :=
  match k with
  | O => ret (Some idx)
  | S k' =>
      let! i := alloc_desc in
      if i <? 0 then free_each idx;;; ret None
      else alloc3_desc_from k' (idx ++ [i])
  end.

Definition alloc3_desc : M vdisk (option (list Z)) := alloc3_desc_from 3 [].

(** ** Requests *)

Class VirtioRegs (D : Type) := {
  mmio_read : Z -> M D Z;
  mmio_write : Z -> Z -> M D unit;
}.

(** The driver, the buffers of kernel/bio.c and the device. *)
Record vio (D : Type) := mkVio { vi_disk : vdisk; vi_bufs : list buf; vi_dev : D }.
Arguments mkVio {D} _ _ _.
Arguments vi_disk {D} _.
Arguments vi_bufs {D} _.
Arguments vi_dev {D} _.

Definition vdisk_lens {D} : lens (vio D) vdisk := mkLens vi_disk (fun x s => mkVio x (vi_bufs s) (vi_dev s)).
Definition vdev_lens {D} : lens (vio D) D := mkLens vi_dev (fun x s => mkVio (vi_disk s) (vi_bufs s) x).

Definition with_bdisk (x : Z) (b : buf) : buf :=
  mkBuf (b_valid b) x (b_dev b) (b_blockno b) (b_lock b) (b_refcnt b) (b_prev b) (b_next b) (b_data b).

Inductive vres :=
| VDone                      (* the call has returned *)
| VAsleepFree                (* sleep(&disk.free[0], &disk.vdisk_lock) *)
| VAsleepBuf (idx0 : Z).     (* sleep(b, &disk.vdisk_lock), the chain's head being idx0 *)

Section Requests.
Context {D : Type} `{VR : VirtioRegs D}.
Notation V := (vio D).

Definition dk {A} (m : M vdisk A) : M V A := zoom vdisk_lens m.
Definition dev {A} (m : M D A) : M V A := zoom vdev_lens m.

Definition vbuf (b : nat) : M V buf := let! s := get in deref "buf pointer" (vi_bufs s !! b).
Definition vbuf_upd (b : nat) (f : buf -> buf) : M V unit :=
  let! x := vbuf b in
  modify (fun s => mkVio (vi_disk s) (<[b := f x]> (vi_bufs s)) (vi_dev s)).

(** [disk.desc[i] = d], all four fields stored. *)
Definition put_desc (i : Z) (d : virtq_desc) : M V unit :=
  dk (modify (fun s => set_desc (zupd (vd_desc s) i d) s)).

(** The three descriptors of a request, the header it points to and the entry of the
    available ring. *)
Definition rw_submit (b : nat) (write : bool) (sector i0 i1 i2 : Z) : M V unit :=
  dk (modify (fun s => set_ops (zupd (vd_ops s) i0
        (mkReq (if write then VIRTIO_BLK_T_OUT else VIRTIO_BLK_T_IN) 0 sector)) s));;;
  put_desc i0 (mkDesc (DOps (Z.to_nat i0)) BLK_REQ_SIZE VRING_DESC_F_NEXT i1);;;
  put_desc i1 (mkDesc (DData b) BSIZE (Z.lor (if write then 0 else VRING_DESC_F_WRITE) VRING_DESC_F_NEXT) i2);;;
  dk (modify (fun s => set_info (zupd (vd_info s) i0 (mkInfo (default None (in_b <$> znth (vd_info s) i0)) 255)) s));;;
  put_desc i2 (mkDesc (DStatus (Z.to_nat i0)) 1 VRING_DESC_F_WRITE 0);;;
  vbuf_upd b (with_bdisk 1);;;
  dk (modify (fun s => set_info (zupd (vd_info s) i0 (mkInfo (Some b) (default 0 (in_status <$> znth (vd_info s) i0)))) s));;;
  dk (modify (fun s => set_avail (vd_avail_idx s) (zupd (vd_avail s) (vd_avail_idx s mod NUM) i0) s));;;
  dk (modify (fun s => set_avail (u16 (vd_avail_idx s + 1)) (vd_avail s) s));;;
  dev (mmio_write VIRTIO_MMIO_QUEUE_NOTIFY 0).

(** [while(b->disk == 1) sleep(b, ...)], and what follows it.  The lock is held. *)
Definition rw_wait (b : nat) (i0 : Z) : M V vres :=
  let! x := vbuf b in
  if b_disk x =? 1 then release LkVdisk;;; ret (VAsleepBuf i0)
  else
    dk (modify (fun s => set_info (zupd (vd_info s) i0 (mkInfo None (default 0 (in_status <$> znth (vd_info s) i0)))) s));;;
    dk (free_chain i0);;;
    release LkVdisk;;;
    ret VDone.

(** A sleeper that was woken up. *)
Definition virtio_disk_rw_resume (b : nat) (i0 : Z) : M V vres :=
  acquire LkVdisk;;; rw_wait b i0.

(** The call from its start; a sleeper of the first loop goes on with [alloc3_desc], that
    is, with the same code, since [sector] does not change. *)
Definition virtio_disk_rw (b : nat) (write : bool) : M V vres :=
  let! x := vbuf b in
  let sector := u32 (b_blockno x * (BSIZE / 512)) in
  acquire LkVdisk;;;
  let! r := dk alloc3_desc in
  match r with
  | Some [i0; i1; i2] => rw_submit b write sector i0 i1 i2;;; rw_wait b i0
  | _ => release LkVdisk;;; ret VAsleepFree
  end.

(** One turn of the loop of [virtio_disk_intr]. *)
Fixpoint intr_loop (fuel : nat) : M V unit :=
  let! s := gets vi_disk in
  if vd_seen s =? vd_used_idx s then ret tt
  else
    match fuel with
    | O => diverge
    | S f =>
        let! id := deref "used ring" (znth (vd_used s) (vd_seen s mod NUM)) in
        let! i := deref "disk.info index" (znth (vd_info s) (i32 id)) in
        when (ctrue (in_status i)) (panic "virtio_disk_intr status");;;
        let! b := deref "null info.b" (in_b i) in
        vbuf_upd b (with_bdisk 0);;;
        wakeup (ChBufDisk b);;;
        dk (modify (fun s => set_seen (u16 (vd_seen s + 1)) s));;;
        intr_loop f
    end.

(** At most [2 ^ 16] entries lie between two values of a 16-bit counter. *)
Definition virtio_disk_intr : M V unit :=
  acquire LkVdisk;;;
  let! st := dev (mmio_read VIRTIO_MMIO_INTERRUPT_STATUS) in
  dev (mmio_write VIRTIO_MMIO_INTERRUPT_ACK (Z.land st 3));;;
  let! s := gets vi_disk in
  intr_loop (Z.to_nat (u16 (vd_used_idx s - vd_seen s)));;;
  release LkVdisk.

(** ** Initialisation *)

Definition vio_lens : lens (V * kmem) V := mkLens fst (fun x s => (x, snd s)).
Definition vmem_lens : lens (V * kmem) kmem := mkLens snd (fun x s => (fst s, x)).
Definition R (r : Z) : M (V * kmem) Z := zoom vio_lens (dev (mmio_read r)).
Definition setR (r x : Z) : M (V * kmem) unit := zoom vio_lens (dev (mmio_write r (u32 x))).

(** The device must be a legacy-free disk of qemu: the tests stop at the first register
    that is not as expected. *)
Definition virtio_probe : M (V * kmem) unit :=
  let! magic := R VIRTIO_MMIO_MAGIC_VALUE in
  if negb (magic =? 1953655158) then panic "could not find virtio disk"
  else
    let! version := R VIRTIO_MMIO_VERSION in
    if negb (version =? 2) then panic "could not find virtio disk"
    else
      let! id := R VIRTIO_MMIO_DEVICE_ID in
      if negb (id =? 2) then panic "could not find virtio disk"
      else
        let! vendor := R VIRTIO_MMIO_VENDOR_ID in
        if negb (vendor =? 1431127377) then panic "could not find virtio disk" else ret tt.

(** [features & ~(1 << bit)] *)
Definition drop_feature (features bit : Z) : Z := Z.land features (Z.lnot (Z.shiftl 1 bit)).

(** [disk.desc], [disk.avail] and [disk.used] are the three pages; [memset] zeroes the
    rings in them. *)
Definition virtio_disk_init : M (V * kmem) unit :=
  virtio_probe;;;
  let status := 0 in
  setR VIRTIO_MMIO_STATUS status;;;
  let status := Z.lor status VIRTIO_CONFIG_S_ACKNOWLEDGE in
  setR VIRTIO_MMIO_STATUS status;;;
  let status := Z.lor status VIRTIO_CONFIG_S_DRIVER in
  setR VIRTIO_MMIO_STATUS status;;;
  let! features := R VIRTIO_MMIO_DEVICE_FEATURES in
  setR VIRTIO_MMIO_DRIVER_FEATURES
    (fold_left drop_feature
       [VIRTIO_BLK_F_RO; VIRTIO_BLK_F_SCSI; VIRTIO_BLK_F_CONFIG_WCE; VIRTIO_BLK_F_MQ;
        VIRTIO_F_ANY_LAYOUT; VIRTIO_RING_F_EVENT_IDX; VIRTIO_RING_F_INDIRECT_DESC] features);;;
  let status := Z.lor status VIRTIO_CONFIG_S_FEATURES_OK in
  setR VIRTIO_MMIO_STATUS status;;;
  let! status := R VIRTIO_MMIO_STATUS in
  when (Z.land status VIRTIO_CONFIG_S_FEATURES_OK =? 0) (panic "virtio disk FEATURES_OK unset");;;
  setR VIRTIO_MMIO_QUEUE_SEL 0;;;
  let! ready := R VIRTIO_MMIO_QUEUE_READY in
  when (ctrue ready) (panic "virtio disk should not be ready");;;
  let! max := R VIRTIO_MMIO_QUEUE_NUM_MAX in
  when (max =? 0) (panic "virtio disk has no queue 0");;;
  when (max <? NUM) (panic "virtio disk max queue too short");;;
  let! desc := zoom vmem_lens kalloc in
  let! avail := zoom vmem_lens kalloc in
  let! used := zoom vmem_lens kalloc in
  when ((desc =? 0) || (avail =? 0) || (used =? 0)) (panic "virtio disk kalloc");;;
  zoom vio_lens (dk (modify (fun s => set_desc (replicate (Z.to_nat NUM) zero_desc) s)));;;
  zoom vio_lens (dk (modify (fun s => set_avail 0 (replicate (Z.to_nat NUM) 0) s)));;;
  zoom vio_lens (dk (modify (fun s => set_used 0 (replicate (Z.to_nat NUM) 0) s)));;;
  setR VIRTIO_MMIO_QUEUE_NUM NUM;;;
  setR VIRTIO_MMIO_QUEUE_DESC_LOW desc;;;
  setR VIRTIO_MMIO_QUEUE_DESC_HIGH (Z.shiftr desc 32);;;
  setR VIRTIO_MMIO_DRIVER_DESC_LOW avail;;;
  setR VIRTIO_MMIO_DRIVER_DESC_HIGH (Z.shiftr avail 32);;;
  setR VIRTIO_MMIO_DEVICE_DESC_LOW used;;;
  setR VIRTIO_MMIO_DEVICE_DESC_HIGH (Z.shiftr used 32);;;
  setR VIRTIO_MMIO_QUEUE_READY 1;;;
  zoom vio_lens (dk (modify (fun s => set_free (replicate (Z.to_nat NUM) 1) s)));;;
  let status := Z.lor status VIRTIO_CONFIG_S_DRIVER_OK in
  setR VIRTIO_MMIO_STATUS status.

End Requests.
