(* ===== verification/VirtioSpec.v ===== *)
(** * Driver and device (kernel/virtio_disk.c)

    Any number of processes call [virtio_disk_rw], the device works on what the available
    ring has published whenever it likes and in any order, and its interrupts arrive at any
    time.  The device is not part of the sources: [virtio_step] states what the virtio
    specification (version 1.1, sections 2.6 and 5.2.6) promises of one that is handed
    well-formed requests, each of which it may also fail with an error status, and nothing
    at all otherwise; the class [VirtioDevice] is a
    device that keeps the promise. *)

From S2P Require Import Prelude Layout Memory Kalloc Ring Sleeplock BlockCache Bio Virtio.

(** ** The device *)

(** What the device has of its own: the next entry of the available ring it will read,
    the chains it has read and not completed, and the bytes of the disk. *)
Record dview := mkDview { dv_seen : Z; dv_busy : list Z; dv_image : Z -> Z }.

(** The bytes a request for [sector] transfers. *)
Definition read_image (img : Z -> Z) (sector len : Z) : block := (fun j => img (512 * sector + j)) <$> seqZ 0 len.
Definition write_image (img : Z -> Z) (sector : Z) (d : block) : Z -> Z := fun o =>
  if (512 * sector <=? o) && (o <? 512 * sector + Z.of_nat (length d)) then nth (Z.to_nat (o - 512 * sector)) d 0 else img o.

(** The block [n] of the file system. *)
Definition block_at (img : Z -> Z) (n : Z) : block := read_image img (2 * n) BSIZE.

Record request := mkRequest { r_type : Z; r_sector : Z; r_op : nat; r_buf : nat; r_status : nat }.

Definition has (flags f : Z) : bool := ctrue (Z.land flags f).

(** A well-formed request: a readable header, the data, which the device writes exactly
    when it reads the disk, and a writable status byte. *)
Definition well_formed (d0 d1 d2 : virtq_desc) (op : virtio_blk_req) : bool :=
  (d_len d0 =? BLK_REQ_SIZE) && has (d_flags d0) VRING_DESC_F_NEXT && negb (has (d_flags d0) VRING_DESC_F_WRITE) &&
  (d_len d1 =? BSIZE) && has (d_flags d1) VRING_DESC_F_NEXT &&
  (d_len d2 =? 1) && has (d_flags d2) VRING_DESC_F_WRITE && negb (has (d_flags d2) VRING_DESC_F_NEXT) &&
  (((rq_type op =? VIRTIO_BLK_T_IN) && has (d_flags d1) VRING_DESC_F_WRITE) ||
   ((rq_type op =? VIRTIO_BLK_T_OUT) && negb (has (d_flags d1) VRING_DESC_F_WRITE))).

Definition request_at (s : vdisk) (id : Z) : option request :=
  d0 ← znth (vd_desc s) id;
  d1 ← znth (vd_desc s) (d_next d0);
  d2 ← znth (vd_desc s) (d_next d1);
  match d_addr d0, d_addr d1, d_addr d2 with
  | DOps i, DData b, DStatus j =>
      op ← vd_ops s !! i;
      if well_formed d0 d1 d2 op then Some (mkRequest (rq_type op) (rq_sector op) i b j) else None
  | _, _, _ => None
  end.

(** The status byte and the entry of the used ring. *)
Definition complete (id : Z) (st : nat) (status : Z) (s : vdisk) : vdisk :=
  set_used (u16 (vd_used_idx s + 1)) (zupd (vd_used s) (vd_used_idx s mod NUM) id)
    (set_info (alter (fun i => mkInfo (in_b i) status) st (vd_info s)) s).

Definition VIRTIO_BLK_S_OK : Z := 0.
(** The bytes of the disk that a request for [sector] does not touch are the same. *)
Definition same_outside (sector : Z) (img img' : Z -> Z) : Prop :=
  forall o, ~ 512 * sector <= o < 512 * sector + BSIZE -> img' o = img o.

(** A request may fail: the status is then not [VIRTIO_BLK_S_OK], a read leaves anything in
    the buffer, and a write anything in the sectors of the request. *)
Inductive virtio_step (s : vdisk) (bs : list buf) (v : dview) : vdisk -> list buf -> dview -> Prop :=
| vs_fetch h :
    dv_seen v <> vd_avail_idx s -> znth (vd_avail s) (dv_seen v mod NUM) = Some h ->
    virtio_step s bs v s bs (mkDview (u16 (dv_seen v + 1)) (dv_busy v ++ [h]) (dv_image v))
| vs_read id l1 l2 r x :
    dv_busy v = l1 ++ id :: l2 -> request_at s id = Some r -> r_type r = VIRTIO_BLK_T_IN -> bs !! r_buf r = Some x ->
    virtio_step s bs v (complete id (r_status r) VIRTIO_BLK_S_OK s)
      (<[r_buf r := with_data (read_image (dv_image v) (r_sector r) BSIZE) x]> bs)
      (mkDview (dv_seen v) (l1 ++ l2) (dv_image v))
| vs_write id l1 l2 r x :
    dv_busy v = l1 ++ id :: l2 -> request_at s id = Some r -> r_type r = VIRTIO_BLK_T_OUT -> bs !! r_buf r = Some x ->
    virtio_step s bs v (complete id (r_status r) VIRTIO_BLK_S_OK s) bs
      (mkDview (dv_seen v) (l1 ++ l2) (write_image (dv_image v) (r_sector r) (b_data x)))
| vs_read_error id l1 l2 r x d status :
    dv_busy v = l1 ++ id :: l2 -> request_at s id = Some r -> r_type r = VIRTIO_BLK_T_IN -> bs !! r_buf r = Some x ->
    length d = Z.to_nat BSIZE -> status <> VIRTIO_BLK_S_OK -> is_u8 status ->
    virtio_step s bs v (complete id (r_status r) status s) (<[r_buf r := with_data d x]> bs)
      (mkDview (dv_seen v) (l1 ++ l2) (dv_image v))
| vs_write_error id l1 l2 r x img status :
    dv_busy v = l1 ++ id :: l2 -> request_at s id = Some r -> r_type r = VIRTIO_BLK_T_OUT -> bs !! r_buf r = Some x ->
    same_outside (r_sector r) (dv_image v) img -> status <> VIRTIO_BLK_S_OK -> is_u8 status ->
    virtio_step s bs v (complete id (r_status r) status s) bs (mkDview (dv_seen v) (l1 ++ l2) img)
| vs_malformed id s' bs' v' :
    id ∈ dv_busy v -> request_at s id = None -> virtio_step s bs v s' bs' v'.

(** The reports in the used ring that the driver has not seen; one of an error. *)
Definition unseen (s : vdisk) : list Z := Ring.content NUM (vd_used s) (vd_seen s) (Z.to_nat (u16 (vd_used_idx s - vd_seen s))).
Definition status_of (s : vdisk) (id : Z) : Z := default 0 (in_status <$> znth (vd_info s) id).
Definition reports_error (s : vdisk) (id : Z) : Prop := id ∈ unseen s /\ status_of s id <> VIRTIO_BLK_S_OK.

Class VirtioDevice (D : Type) := {
  virtio_regs :: VirtioRegs D;
  dev_view : D -> dview;
  dev_step : vdisk -> list buf -> D -> vdisk -> list buf -> D -> Prop;
  dev_conforms : forall s bs d s' bs' d', dev_step s bs d s' bs' d' -> virtio_step s bs (dev_view d) s' bs' (dev_view d');
  (** Acknowledging an interrupt and the notification leave the queue alone. *)
  mmio_read_ok : forall r th d, exists x d', mmio_read r th d = Ok x th d' /\ dev_view d' = dev_view d;
  mmio_write_ok : forall r x th d, r = VIRTIO_MMIO_QUEUE_NOTIFY \/ r = VIRTIO_MMIO_INTERRUPT_ACK ->
    exists d', mmio_write r x th d = Ok tt th d' /\ dev_view d' = dev_view d;
}.

(** ** Processes, driver and device *)

Inductive cstate :=
| Runnable                  (* before [alloc3_desc] *)
| AsleepFree                (* asleep on [disk.free] *)
| AsleepBuf (i0 : Z)        (* asleep on the buffer *)
| Woken (i0 : Z)            (* about to test [b->disk] *)
| Returned.

(** A call of [virtio_disk_rw(b, write)], with the block and the data at its start. *)
Record call := mkCall { c_b : nat; c_write : bool; c_n : Z; c_data : block; c_st : cstate }.
Definition with_st (x : cstate) (c : call) : call := mkCall (c_b c) (c_write c) (c_n c) (c_data c) x.

Definition active (c : call) : bool := match c_st c with Returned => false | _ => true end.
Definition head (c : call) : option Z :=
  match c_st c with AsleepBuf i | Woken i => Some i | _ => None end.

(** [wakeup] of the channels [ws]. *)
Definition wake (ws : list chan) (c : call) : call :=
  match c_st c with
  | AsleepFree => if bool_decide (ChDiskFree ∈ ws) then with_st Runnable c else c
  | AsleepBuf i0 => if bool_decide (ChBufDisk (c_b c) ∈ ws) then with_st (Woken i0) c else c
  | _ => c
  end.

Definition after (r : vres) (c : call) : call :=
  with_st (match r with VDone => Returned | VAsleepFree => AsleepFree | VAsleepBuf i0 => AsleepBuf i0 end) c.

Definition idle : thread := mkThread [] 0 0 [].

Section System.
Context {D : Type} `{VD : VirtioDevice D}.

Record vsys := mkVsys { vs_io : vio D; vs_calls : list call }.

(** A process may start a call for a buffer that no other call is using and whose block no
    other call is transferring: it holds the sleep lock of the buffer. *)
Definition may_call (b : nat) (x : buf) (cs : list call) : Prop :=
  0 <= b_blockno x < 2 ^ 31 /\ length (b_data x) = Z.to_nat BSIZE /\
  forall c, c ∈ cs -> active c = true -> c_b c <> b /\ c_n c <> b_blockno x.

Inductive vstep (y : vsys) : vsys -> Prop :=
| st_call b write x :
    vi_bufs (vs_io y) !! b = Some x -> may_call b x (vs_calls y) ->
    vstep y (mkVsys (vs_io y) (vs_calls y ++ [mkCall b write (b_blockno x) (b_data x) Runnable]))
| st_start k c r th io :
    vs_calls y !! k = Some c -> c_st c = Runnable -> virtio_disk_rw (c_b c) (c_write c) idle (vs_io y) = Ok r th io ->
    vstep y (mkVsys io (<[k := after r c]> (wake (th_woken th) <$> vs_calls y)))
| st_resume k c i0 r th io :
    vs_calls y !! k = Some c -> c_st c = Woken i0 -> virtio_disk_rw_resume (c_b c) i0 idle (vs_io y) = Ok r th io ->
    vstep y (mkVsys io (<[k := after r c]> (wake (th_woken th) <$> vs_calls y)))
| st_intr th io :
    virtio_disk_intr idle (vs_io y) = Ok tt th io -> vstep y (mkVsys io (wake (th_woken th) <$> vs_calls y))
| st_kill k c i0 :
    vs_calls y !! k = Some c -> c_st c = AsleepBuf i0 -> vstep y (mkVsys (vs_io y) (<[k := with_st (Woken i0) c]> (vs_calls y)))
| st_kill_free k c :
    vs_calls y !! k = Some c -> c_st c = AsleepFree -> vstep y (mkVsys (vs_io y) (<[k := with_st Runnable c]> (vs_calls y)))
| st_dev s' bs' d' :
    dev_step (vi_disk (vs_io y)) (vi_bufs (vs_io y)) (vi_dev (vs_io y)) s' bs' d' ->
    vstep y (mkVsys (mkVio s' bs' d') (vs_calls y))
| st_buf b x' :
    (** the holder of a buffer's lock changes it *)
    (forall c, c ∈ vs_calls y -> active c = true -> c_b c <> b) ->
    vstep y (mkVsys (mkVio (vi_disk (vs_io y)) (<[b := x']> (vi_bufs (vs_io y))) (vi_dev (vs_io y))) (vs_calls y)).

(** The state [virtio_disk_init] leaves. *)
Definition fresh_vdisk (info : list vinfo) (ops : list virtio_blk_req) : vdisk :=
  mkVdisk (replicate 8 zero_desc) 0 (replicate 8 0) 0 (replicate 8 0) (replicate 8 1) 0 info ops.

Definition vinit (y : vsys) : Prop :=
  exists info ops bs d, y = mkVsys (mkVio (fresh_vdisk info ops) bs d) [] /\ length info = 8%nat /\ length ops = 8%nat /\
    dv_seen (dev_view d) = 0 /\ dv_busy (dev_view d) = [].

Definition vreachable (y : vsys) : Prop := exists y0, vinit y0 /\ rtc vstep y0 y.

End System.
Arguments vsys D : clear implicits.

(** ** Allocating and freeing descriptors *)

Definition flags01 (l : list Z) : Prop := Forall (fun x => x = 0 \/ x = 1) l.
Fixpoint nfree (l : list Z) : nat :=
  match l with [] => O | x :: l' => ((if ctrue x then 1 else 0) + nfree l')%nat end.

Lemma nfree_insert (l : list Z) (k : nat) (x y : Z) : l !! k = Some x ->
  (nfree (<[k := y]> l) + (if ctrue x then 1 else 0) = nfree l + (if ctrue y then 1 else 0))%nat.
Proof.
  revert k. induction l as [|a l IH]; intros [|k] Hk; cbn in Hk; try done.
  - injection Hk as ->. cbn. lia.
  - specialize (IH k Hk). change (<[S k := y]> (a :: l)) with (a :: <[k := y]> l). cbn [nfree]. lia.
Qed.

Lemma nfree_pos l : (0 < nfree l)%nat -> exists k x, l !! k = Some x /\ ctrue x = true.
Proof.
  induction l as [|a l IH]; cbn; [lia|]. destruct (ctrue a) eqn:E.
  - intros _. by exists 0%nat, a.
  - intros (k & x & Hk & Hx)%IH. by exists (Datatypes.S k), x.
Qed.

Lemma alloc_desc_from_ok k i th s :
  0 <= i -> i + Z.of_nat k = Z.of_nat (length (vd_free s)) ->
  (forall j, 0 <= j < i -> znth (vd_free s) j = Some 0) ->
  (nfree (vd_free s) = 0%nat /\ alloc_desc_from k i th s = Ok (-1) th s) \/
  exists j x, znth (vd_free s) j = Some x /\ ctrue x = true /\
    alloc_desc_from k i th s = Ok j th (set_free (zupd (vd_free s) j 0) s).
Proof.
  revert i. induction k as [|k IH]; intros i Hi Hl Hz.
  - left. split; [|done]. destruct (Nat.eq_0_gt_0_cases (nfree (vd_free s))) as [E|E]; [done|].
    destruct (nfree_pos _ E) as (j & x & Hj & Hx). pose proof (lookup_lt_Some _ _ _ Hj).
    specialize (Hz (Z.of_nat j) ltac:(lia)). rewrite znth_of_nat in Hz. assert (x = 0) as -> by congruence. done.
  - destruct (znth_is_Some (vd_free s) i) as [x Hx]; [lia|].
    assert (E0 : alloc_desc_from (S k) i th s =
      if ctrue x then Ok i th (set_free (zupd (vd_free s) i 0) s) else alloc_desc_from k (i + 1) th s).
    { cbn [alloc_desc_from]. unfold bind, get. rewrite Hx. cbn [deref ret]. by destruct (ctrue x). }
    rewrite E0. destruct (ctrue x) eqn:E; [right; by exists i, x|].
    apply IH; [lia|lia|]. intros j Hj. destruct (Z.eq_dec j i) as [->|]; [|apply Hz; lia].
    rewrite Hx. f_equal. unfold ctrue in E. destruct (Z.eqb_spec x 0); [done|discriminate].
Qed.

Lemma alloc_desc_ok th s : length (vd_free s) = 8%nat ->
  (nfree (vd_free s) = 0%nat /\ alloc_desc th s = Ok (-1) th s) \/
  exists j x, 0 <= j < 8 /\ znth (vd_free s) j = Some x /\ ctrue x = true /\
    alloc_desc th s = Ok j th (set_free (zupd (vd_free s) j 0) s).
Proof.
  intros Hl. unfold alloc_desc. destruct (alloc_desc_from_ok (Z.to_nat NUM) 0 th s) as [H|(j & x & Hj & Hx & E)]; try lia.
  - change (Z.to_nat NUM) with 8%nat. lia.
  - by left.
  - right. exists j, x. pose proof (znth_Some _ _ _ Hj) as [Hr _]. split; [lia|done].
Qed.

Definition freed (i : Z) (s : vdisk) : vdisk := set_free (zupd (vd_free s) i 1) (set_desc (zupd (vd_desc s) i zero_desc) s).

Lemma free_desc_ok i th s : 0 <= i < 8 -> znth (vd_free s) i = Some 0 ->
  free_desc i th s = Ok tt (woke ChDiskFree th) (freed i s).
Proof.
  intros Hi Hf. unfold free_desc. change NUM with 8. destruct (Z.leb_spec 8 i); [lia|].
  unfold bind, when, get, ret, modify, deref, wakeup. rewrite Hf. done.
Qed.

(** [s] with other contents in descriptors that are free. *)
Definition scrubbed (s s' : vdisk) : Prop := exists d, s' = set_desc d s /\ length d = length (vd_desc s) /\
  forall j, znth (vd_free s) j = Some 0 -> znth d j = znth (vd_desc s) j.

(** The thread has only issued wakeups on [disk.free]. *)
Definition woke_free (th th' : thread) : Prop := same_thread th th' /\ forall ch, ch ∈ th_woken th' -> ch ∈ th_woken th \/ ch = ChDiskFree.

Lemma woke_free_refl th : woke_free th th.
Proof. split; [done|auto]. Qed.
Lemma woke_free_step th th' : woke_free th th' -> woke_free th (woke ChDiskFree th').
Proof. intros [H1 H2]. split; [etransitivity; [done|apply same_thread_woke]|]. cbn. set_solver. Qed.

Lemma nfree_take l i x : znth l i = Some x -> ctrue x = true -> nfree l = S (nfree (zupd l i 0)).
Proof. intros [_ Hi]%znth_Some Hx. pose proof (nfree_insert l (Z.to_nat i) x 0 Hi) as E. rewrite Hx in E. cbn in E. unfold zupd. lia. Qed.

Lemma flags01_true l i x : flags01 l -> znth l i = Some x -> ctrue x = true -> x = 1.
Proof. intros Hf [_ Hi]%znth_Some Hx. destruct (Forall_lookup_1 _ _ _ _ Hf Hi) as [->| ->]; done. Qed.

Lemma flags01_zupd l i x : flags01 l -> x = 0 \/ x = 1 -> flags01 (zupd l i x).
Proof. intros Hf Hx. by apply Forall_insert. Qed.

Lemma zupd_undo {A} (l : list A) i (x y : A) : znth l i = Some x -> zupd (zupd l i y) i x = l.
Proof. intros [_ Hi]%znth_Some. unfold zupd. rewrite list_insert_insert_eq. by apply list_insert_id. Qed.

Lemma zupd_comm {A} (l : list A) i j (x y : A) : 0 <= i -> 0 <= j -> i <> j -> zupd (zupd l i x) j y = zupd (zupd l j y) i x.
Proof. intros. unfold zupd. apply list_insert_insert_ne. lia. Qed.

(** The flags after [idx] have been allocated. *)
Definition take_all (l : list Z) (idx : list Z) : list Z := fold_left (fun l i => zupd l i 0) idx l.
Definition taken (idx : list Z) (s : vdisk) : vdisk := set_free (take_all (vd_free s) idx) s.
Definition all_free (l : list Z) (idx : list Z) : Prop := NoDup idx /\ forall i, i ∈ idx -> 0 <= i < 8 /\ znth l i = Some 1.

Lemma length_take_all l idx : length (take_all l idx) = length l.
Proof. revert l. induction idx as [|i idx IH]; intros l; [done|]. cbn. unfold take_all in IH. by rewrite IH, length_zupd. Qed.

Lemma take_all_zupd l idx i x : 0 <= i -> i ∉ idx -> (forall j, j ∈ idx -> 0 <= j) -> take_all (zupd l i x) idx = zupd (take_all l idx) i x.
Proof.
  revert l. induction idx as [|j idx IH]; intros l Hi Hn Hp; [done|]. cbn. apply not_elem_of_cons in Hn as [Hne Hn].
  pose proof (Hp j ltac:(set_solver)). rewrite zupd_comm by (lia || done). apply IH; [done|done|]. intros k Hk. apply Hp. set_solver.
Qed.

Lemma znth_take_all l idx j : (forall i, i ∈ idx -> 0 <= i < Z.of_nat (length l)) ->
  znth (take_all l idx) j = if bool_decide (j ∈ idx) then Some 0 else znth l j.
Proof.
  revert l. induction idx as [|i idx IH]; intros l Hp; [done|]. cbn. unfold take_all in IH. rewrite IH.
  2:{ intros k Hk. rewrite length_zupd. apply Hp. set_solver. }
  specialize (Hp i ltac:(set_solver)). destruct (decide (j ∈ idx)) as [Hj|Hj].
  - rewrite !bool_decide_true by set_solver. done.
  - rewrite (bool_decide_false (j ∈ idx)) by done. destruct (Z.eq_dec j i) as [->|Hne].
    + rewrite bool_decide_true by set_solver. apply znth_zupd_eq. lia.
    + rewrite bool_decide_false by set_solver. apply znth_zupd_ne; [lia|done].
Qed.

Lemma nfree_take_all l idx : length l = 8%nat -> all_free l idx -> (nfree (take_all l idx) + length idx = nfree l)%nat.
Proof.
  revert l. induction idx as [|i idx IH]; intros l Hl [Hnd Hf]; [cbn; lia|]. apply NoDup_cons in Hnd as [Hn Hnd].
  destruct (Hf i ltac:(set_solver)) as [Hi Hfi]. cbn [take_all fold_left length]. fold (take_all (zupd l i 0) idx).
  rewrite (nfree_take l i 1) by done. rewrite <- (IH (zupd l i 0)); [lia|by rewrite length_zupd|]. split; [done|].
  intros j Hj. rewrite znth_zupd_ne by (lia || (intros ->; done)). apply Hf. set_solver.
Qed.

Lemma taken_freed i idx s : length (vd_free s) = 8%nat -> all_free (vd_free s) (i :: idx) ->
  freed i (taken (i :: idx) s) = taken idx (set_desc (zupd (vd_desc s) i zero_desc) s).
Proof.
  intros Hl [Hnd Hf]. apply NoDup_cons in Hnd as [Hn Hnd]. destruct (Hf i ltac:(set_solver)) as [Hi Hfi].
  unfold freed, taken, set_free, set_desc. cbn [vd_free vd_desc take_all fold_left]. f_equal. fold (take_all (zupd (vd_free s) i 0) idx).
  rewrite <- take_all_zupd; [by rewrite zupd_undo|lia|done|]. intros j Hj. apply (Hf j). set_solver.
Qed.

Lemma free_each_taken idx : forall th s, length (vd_free s) = 8%nat -> all_free (vd_free s) idx ->
  exists th' s', free_each idx th (taken idx s) = Ok tt th' s' /\ woke_free th th' /\ scrubbed s s'.
Proof.
  induction idx as [|i idx IH]; intros th s Hl Ha.
  { exists th, s. split; [unfold taken; by destruct s|]. split; [apply woke_free_refl|]. exists (vd_desc s). by destruct s. }
  pose proof Ha as [Hnd Hf]. apply NoDup_cons in Hnd as [Hn Hnd]. destruct (Hf i ltac:(set_solver)) as [Hi Hfi]. cbn [free_each].
  assert (E : free_desc i th (taken (i :: idx) s) = Ok tt (woke ChDiskFree th) (freed i (taken (i :: idx) s))).
  { apply free_desc_ok; [done|]. cbn [taken set_free vd_free]. rewrite znth_take_all.
    - by rewrite bool_decide_true by set_solver.
    - intros j Hj. rewrite Hl. apply (Hf j Hj). }
  rewrite (bind_ok _ _ _ _ _ _ _ E), taken_freed by done. set (s1 := set_desc _ s).
  destruct (IH (woke ChDiskFree th) s1) as (th' & s' & E' & [Hw1 Hw2] & d & -> & Hd1 & Hd2); [done|split; [done|set_solver]|].
  exists th', (set_desc d s1). split; [done|]. split.
  - split; [etransitivity; [apply same_thread_woke|done]|]. intros ch [Hc|Hc]%Hw2; [|by right]. cbn in Hc. set_solver.
  - exists d. split; [done|]. cbn in Hd1, Hd2. rewrite length_zupd in Hd1. split; [done|].
    intros j Hj. rewrite Hd2 by done. apply znth_zupd_ne; [lia|]. intros ->. congruence.
Qed.

Lemma alloc3_desc_from_ok k : forall idx th s, length (vd_free s) = 8%nat -> flags01 (vd_free s) -> all_free (vd_free s) idx ->
  ((nfree (vd_free s) < length idx + k)%nat /\ exists th' s', alloc3_desc_from k idx th (taken idx s) = Ok None th' s' /\ woke_free th th' /\ scrubbed s s') \/
  exists idx', length idx' = k /\ all_free (vd_free s) (idx ++ idx') /\
    alloc3_desc_from k idx th (taken idx s) = Ok (Some (idx ++ idx')) th (taken (idx ++ idx') s).
Proof.
  induction k as [|k IH]; intros idx th s Hl H01 Ha; cbn [alloc3_desc_from].
  { right. exists []. rewrite app_nil_r. done. }
  assert (Hr : forall i, i ∈ idx -> 0 <= i < Z.of_nat (length (vd_free s))) by (intros i Hi; rewrite Hl; apply Ha, Hi).
  destruct (alloc_desc_ok th (taken idx s)) as [[Hn E]|(j & x & Hj & Hx & Hc & E)]; [cbn; by rewrite length_take_all|..];
    rewrite (bind_ok _ _ _ _ _ _ _ E).
  - left. change (-1 <? 0) with true. cbn iota. pose proof (nfree_take_all _ _ Hl Ha). cbn [taken set_free vd_free] in Hn. split; [lia|].
    destruct (free_each_taken idx th s Hl Ha) as (th' & s' & E' & Hw & Hs). exists th', s'. by rewrite (bind_ok _ _ _ _ _ _ _ E').
  - destruct (Z.ltb_spec j 0); [lia|]. cbn [taken set_free vd_free] in Hx. rewrite znth_take_all in Hx by done.
    destruct (decide (j ∈ idx)) as [Hin|Hin]; [rewrite bool_decide_true in Hx by done; by injection Hx as <-|].
    rewrite bool_decide_false in Hx by done. apply (flags01_true _ _ _ H01 Hx) in Hc as ->.
    assert (Ha' : all_free (vd_free s) (idx ++ [j])).
    { destruct Ha as [Hnd Hf]. split; [apply NoDup_app; split_and!; [done|set_solver|apply NoDup_singleton]|].
      intros i [Hi| ->%list_elem_of_singleton]%elem_of_app; [by apply Hf|done]. }
    assert (Et : set_free (zupd (vd_free (taken idx s)) j 0) (taken idx s) = taken (idx ++ [j]) s).
    { unfold taken, set_free, take_all. cbn. by rewrite fold_left_app. }
    rewrite Et. destruct (IH (idx ++ [j]) th s Hl H01 Ha') as [[Hn H']|(idx' & Hli & Ha2 & E2)].
    + left. rewrite length_app in Hn. cbn in Hn. split; [lia|done].
    + right. exists (j :: idx'). rewrite <- app_assoc in Ha2, E2. cbn. split; [lia|done].
Qed.

Lemma alloc3_desc_ok th s : length (vd_free s) = 8%nat -> flags01 (vd_free s) ->
  ((nfree (vd_free s) < 3)%nat /\ exists th' s', alloc3_desc th s = Ok None th' s' /\ woke_free th th' /\ scrubbed s s') \/
  exists i0 i1 i2, all_free (vd_free s) [i0; i1; i2] /\ alloc3_desc th s = Ok (Some [i0; i1; i2]) th (taken [i0; i1; i2] s).
Proof.
  intros Hl H01. assert (E : taken [] s = s) by (by destruct s).
  destruct (alloc3_desc_from_ok 3 [] th s Hl H01) as [H|(idx & Hidx & H)]; [split; [constructor|set_solver]|..]; rewrite E in H.
  - by left.
  - right. destruct idx as [|i0 [|i1 [|i2 [|]]]]; try discriminate. by exists i0, i1, i2.
Qed.

(** ** The invariant *)

Definition next_of (s : vdisk) (i : Z) : Z := default 0 (d_next <$> znth (vd_desc s) i).
Definition chain (s : vdisk) (i0 : Z) : list Z := [i0; next_of s i0; next_of s (next_of s i0)].
Definition heads (cs : list call) : list Z := omap head cs.
Definition chains (s : vdisk) (cs : list call) : list Z := heads cs ≫= chain s.

(** A request in flight: the device has it, or has reported it ([uq]), or the driver has
    seen the report ([sn]). *)
Record flight (s : vdisk) (bs : list buf) (img : Z -> Z) (uq sn : list Z) (c : call) (i0 : Z) (x : buf) (st : Z) : Prop := mkFlight {
  fl_buf : bs !! c_b c = Some x;
  fl_info : znth (vd_info s) i0 = Some (mkInfo (Some (c_b c)) st);
  fl_req : request_at s i0 =
    Some (mkRequest (if c_write c then VIRTIO_BLK_T_OUT else VIRTIO_BLK_T_IN) (2 * c_n c) (Z.to_nat i0) (c_b c) (Z.to_nat i0));
  fl_disk : b_disk x = (if bool_decide (i0 ∈ sn) then 0 else 1);
  fl_data : i0 ∈ sn \/ i0 ∈ uq /\ st = VIRTIO_BLK_S_OK -> b_data x = block_at img (c_n c);
  fl_asleep : c_st c = AsleepBuf i0 -> i0 ∉ sn;
}.

Record queue_of (ring : list Z) (r w : Z) (q : list Z) : Prop := mkQueue {
  q_range : is_u16 r;
  q_count : w = u16 (r + Z.of_nat (length q));
  q_content : Ring.content NUM ring r (length q) = q;
}.

Record vinv (s : vdisk) (bs : list buf) (v : dview) (cs : list call) (aq uq sn : list Z) : Prop := mkVinv {
  iv_desc : length (vd_desc s) = 8%nat;
  iv_avail : length (vd_avail s) = 8%nat;
  iv_used : length (vd_used s) = 8%nat;
  iv_frees : length (vd_free s) = 8%nat;
  iv_info : length (vd_info s) = 8%nat;
  iv_ops : length (vd_ops s) = 8%nat;
  iv_free : forall i, 0 <= i < 8 -> znth (vd_free s) i = Some (if bool_decide (i ∈ chains s cs) then 0 else 1);
  iv_nodup : NoDup (chains s cs);
  iv_range : forall i, i ∈ chains s cs -> 0 <= i < 8;
  iv_perm : heads cs ≡ₚ dv_busy v ++ aq ++ uq ++ sn;
  iv_aq : queue_of (vd_avail s) (dv_seen v) (vd_avail_idx s) aq;
  iv_uq : queue_of (vd_used s) (vd_seen s) (vd_used_idx s) uq;
  iv_call : forall c, c ∈ cs -> active c = true -> exists x, bs !! c_b c = Some x /\ b_blockno x = c_n c /\ 0 <= c_n c < 2 ^ 31 /\
    length (b_data x) = Z.to_nat BSIZE /\ (c_write c = true -> b_data x = c_data c);
  iv_dist : forall k k' c c', cs !! k = Some c -> cs !! k' = Some c' -> active c = true -> active c' = true -> k <> k' ->
    c_b c <> c_b c' /\ c_n c <> c_n c';
  iv_flight : forall c i0, c ∈ cs -> head c = Some i0 -> exists x st, flight s bs (dv_image v) uq sn c i0 x st;
  iv_wait : forall c, c ∈ cs -> c_st c = AsleepFree -> (nfree (vd_free s) < 3)%nat;
}.

Lemma head_active c i0 : head c = Some i0 -> active c = true.
Proof. unfold head, active. by destruct (c_st c). Qed.

Lemma elem_of_heads cs i0 : i0 ∈ heads cs <-> exists c, c ∈ cs /\ head c = Some i0.
Proof. apply list_elem_of_omap. Qed.

Lemma head_in_chains s cs i0 : i0 ∈ heads cs -> i0 ∈ chains s cs.
Proof. intros H. apply list_elem_of_bind. exists i0. split; [unfold chain; set_solver|done]. Qed.

Lemma chains_nodup_heads s l : NoDup (l ≫= chain s) -> NoDup l.
Proof.
  induction l as [|i l IH]; [constructor|]. change ((i :: l) ≫= chain s) with (chain s i ++ (l ≫= chain s)). intros (_ & Hd & Hn)%NoDup_app. constructor; [|by apply IH].
  intros Hi. apply (Hd i); [unfold chain; set_solver|]. apply list_elem_of_bind. exists i. split; [unfold chain; set_solver|done].
Qed.

(** Changes of the calls that only let sleepers run. *)
Record relaxed (c c' : call) : Prop := mkRelaxed {
  rl_b : c_b c' = c_b c;
  rl_write : c_write c' = c_write c;
  rl_n : c_n c' = c_n c;
  rl_data : c_data c' = c_data c;
  rl_head : head c' = head c;
  rl_active : active c' = active c;
  rl_free : c_st c' = AsleepFree -> c_st c = AsleepFree;
  rl_buf : forall i0, c_st c' = AsleepBuf i0 -> c_st c = AsleepBuf i0;
}.

Lemma relaxed_refl c : relaxed c c.
Proof. by split. Qed.
Lemma wake_relaxed ws c : relaxed c (wake ws c).
Proof. unfold wake. destruct (c_st c) eqn:E; try apply relaxed_refl; destruct (bool_decide _); try apply relaxed_refl; split; cbn; unfold head, active; rewrite ?E; done. Qed.

Lemma relaxed_heads cs cs' : Forall2 relaxed cs cs' -> heads cs' = heads cs.
Proof. intros H. unfold heads. induction H as [|c c' cs cs' Hc _ IH]; [done|]. cbn. rewrite (rl_head _ _ Hc), IH. done. Qed.

Lemma relaxed_elem cs cs' c' : Forall2 relaxed cs cs' -> c' ∈ cs' -> exists c, c ∈ cs /\ relaxed c c'.
Proof. intros H (k & Hk)%list_elem_of_lookup. destruct (Forall2_lookup_r _ _ _ _ _ H Hk) as (c & Hc & Hr). exists c. split; [by eapply list_elem_of_lookup_2|done]. Qed.

Lemma vinv_relaxed s bs v cs cs' aq uq sn : Forall2 relaxed cs cs' -> vinv s bs v cs aq uq sn -> vinv s bs v cs' aq uq sn.
Proof.
  intros Hr [H1 H2 H3 H4 H5 H6 H7 H8 H9 H10 H11 H12 H13 H14 H15 H16]. pose proof (relaxed_heads _ _ Hr) as Eh.
  assert (Ec : chains s cs' = chains s cs) by (unfold chains; by rewrite Eh).
  split; rewrite ?Ec, ?Eh; try done.
  - intros c' Hc' Ha. destruct (relaxed_elem _ _ _ Hr Hc') as (c & Hc & [-> -> -> -> _ E _ _]). apply H13; [done|by rewrite <- E].
  - intros k k' c c' Hk Hk' Ha Ha' Hne. destruct (Forall2_lookup_r _ _ _ _ _ Hr Hk) as (d & Hd & [-> _ -> _ _ E _ _]).
    destruct (Forall2_lookup_r _ _ _ _ _ Hr Hk') as (d' & Hd' & [-> _ -> _ _ E' _ _]). eapply H14; try done; congruence.
  - intros c' i0 Hc' Hh. destruct (relaxed_elem _ _ _ Hr Hc') as (c & Hc & R). rewrite (rl_head _ _ R) in Hh.
    destruct (H15 c i0 Hc Hh) as (x & st & F). exists x, st. destruct F, R. split; rewrite ?rl_b0, ?rl_write0, ?rl_n0; try done. intros E. by apply fl_asleep0, rl_buf0.
  - intros c' Hc' Hs. destruct (relaxed_elem _ _ _ Hr Hc') as (c & Hc & R). eapply H16; [done|by apply R].
Qed.

(** ** Requests in memory *)

Record req_mem (s : vdisk) (i0 : Z) (r : request) (d0 d1 d2 : virtq_desc) (op : virtio_blk_req) : Prop := mkReqMem {
  rm_0 : znth (vd_desc s) i0 = Some d0;
  rm_1 : znth (vd_desc s) (d_next d0) = Some d1;
  rm_2 : znth (vd_desc s) (d_next d1) = Some d2;
  rm_addr0 : d_addr d0 = DOps (r_op r);
  rm_addr1 : d_addr d1 = DData (r_buf r);
  rm_addr2 : d_addr d2 = DStatus (r_status r);
  rm_op : vd_ops s !! r_op r = Some op;
  rm_wf : well_formed d0 d1 d2 op = true;
  rm_type : r_type r = rq_type op;
  rm_sector : r_sector r = rq_sector op;
}.

Lemma request_at_Some s i0 r : request_at s i0 = Some r <-> exists d0 d1 d2 op, req_mem s i0 r d0 d1 d2 op.
Proof.
  unfold request_at. split.
  - destruct (znth (vd_desc s) i0) as [d0|] eqn:E0; [cbn|done]. destruct (znth (vd_desc s) (d_next d0)) as [d1|] eqn:E1; [cbn|done].
    destruct (znth (vd_desc s) (d_next d1)) as [d2|] eqn:E2; [cbn|done].
    destruct (d_addr d0) eqn:A0; try done. destruct (d_addr d1) eqn:A1; try done. destruct (d_addr d2) eqn:A2; try done.
    destruct (vd_ops s !! i) as [op|] eqn:Eo; [cbn|done]. destruct (well_formed d0 d1 d2 op) eqn:W; [|done].
    intros [= <-]. exists d0, d1, d2, op. by split.
  - intros (d0 & d1 & d2 & op & [-> H1 H2 A0 A1 A2 Ho W T Sc]). cbn. rewrite H1. cbn. rewrite H2. cbn.
    rewrite A0, A1, A2, Ho. cbn. rewrite W. f_equal. destruct r. cbn in *. by rewrite T, Sc.
Qed.

Lemma req_mem_chain s i0 r d0 d1 d2 op : req_mem s i0 r d0 d1 d2 op -> chain s i0 = [i0; d_next d0; d_next d1].
Proof. intros [H0 H1 _ _ _ _ _ _ _ _]. unfold chain, next_of. rewrite H0. cbn. by rewrite H1. Qed.

Lemma request_at_ext s s' i0 r : request_at s i0 = Some r ->
  (forall j, j ∈ chain s i0 -> znth (vd_desc s') j = znth (vd_desc s) j) -> vd_ops s' !! r_op r = vd_ops s !! r_op r ->
  request_at s' i0 = Some r /\ chain s' i0 = chain s i0.
Proof.
  intros (d0 & d1 & d2 & op & R)%request_at_Some Hd Ho. rewrite (req_mem_chain _ _ _ _ _ _ _ R) in Hd |- *.
  assert (R' : req_mem s' i0 r d0 d1 d2 op).
  { destruct R. split; try done; [..|congruence]; rewrite Hd; try done; set_solver. }
  split; [apply request_at_Some; by exists d0, d1, d2, op|by rewrite (req_mem_chain _ _ _ _ _ _ _ R')].
Qed.

Lemma chains_ext s s' cs : (forall i0, i0 ∈ heads cs -> chain s' i0 = chain s i0) -> chains s' cs = chains s cs.
Proof.
  unfold chains. generalize (heads cs) as l. intros l H. induction l as [|i l IH]; [done|].
  change ((i :: l) ≫= chain s') with (chain s' i ++ (l ≫= chain s')). rewrite H, IH; [done| |]; set_solver.
Qed.

Lemma vinv_used_flag s bs v cs aq uq sn i : vinv s bs v cs aq uq sn -> i ∈ chains s cs -> znth (vd_free s) i = Some 0.
Proof. intros Hv Hi. rewrite (iv_free _ _ _ _ _ _ _ Hv) by (by apply (iv_range _ _ _ _ _ _ _ Hv)). by rewrite bool_decide_true. Qed.

Lemma in_chains s cs i0 i : i0 ∈ heads cs -> i ∈ chain s i0 -> i ∈ chains s cs.
Proof. intros H Hi. apply list_elem_of_bind. by exists i0. Qed.

Lemma vinv_flags01 s bs v cs aq uq sn : vinv s bs v cs aq uq sn -> flags01 (vd_free s).
Proof.
  intros Hv. apply Forall_lookup. intros k x Hk. pose proof (lookup_lt_Some _ _ _ Hk) as Hlt. rewrite (iv_frees _ _ _ _ _ _ _ Hv) in Hlt.
  pose proof (iv_free _ _ _ _ _ _ _ Hv (Z.of_nat k) ltac:(lia)) as E. rewrite znth_of_nat, Hk in E. injection E as ->.
  destruct (bool_decide _); auto.
Qed.

(** A failed [alloc3_desc] leaves the requests in flight alone. *)
Lemma vinv_scrubbed s s' bs v cs aq uq sn : scrubbed s s' -> vinv s bs v cs aq uq sn -> vinv s' bs v cs aq uq sn.
Proof.
  intros (d & -> & Hl & Hd) Hv.
  assert (Hx : forall c i0, c ∈ cs -> head c = Some i0 -> forall r, request_at s i0 = Some r -> request_at (set_desc d s) i0 = Some r /\ chain (set_desc d s) i0 = chain s i0).
  { intros c i0 Hc Hh r Hr. apply request_at_ext; [done| |done]. intros j Hj. apply Hd. eapply vinv_used_flag; [done|].
    eapply in_chains; [|done]. apply elem_of_heads. by exists c. }
  assert (Ec : chains (set_desc d s) cs = chains s cs).
  { apply chains_ext. intros i0 (c & Hc & Hh)%elem_of_heads. destruct (iv_flight _ _ _ _ _ _ _ Hv c i0 Hc Hh) as (x & st & F).
    by eapply (Hx c i0 Hc Hh), F. }
  destruct Hv. split; rewrite ?Ec; try done; [by cbn; rewrite Hl|].
  intros c i0 Hc Hh. destruct (iv_flight0 c i0 Hc Hh) as (x & st & F). exists x, st.
  pose proof (proj1 (Hx c i0 Hc Hh _ (fl_req _ _ _ _ _ _ _ _ _ F))). destruct F. by split.
Qed.

(** ** The rings *)

Lemma num_divides : (NUM | 2 ^ 16).
Proof. by exists 8192. Qed.

Lemma queue_push ring r w q i : queue_of ring r w q -> length ring = 8%nat -> (length q < 8)%nat -> 0 <= i < 8 ->
  queue_of (zupd ring (w mod NUM) i) r (u16 (w + 1)) (q ++ [i]).
Proof.
  intros [Hr Hw Hc] Hl Hq Hi. split; [done| |].
  - rewrite Hw, length_app. unfold u16. rewrite Zplus_mod_idemp_l. f_equal. cbn. lia.
  - assert (E : zupd ring (w mod NUM) i = rset NUM ring (r + Z.of_nat (length q)) i).
    { rewrite <- (rset_mod NUM ring w). { unfold zupd, rset. by rewrite u8_id by lia. }
      rewrite Hw. apply mod_wrap; [done|lia|apply num_divides]. }
    rewrite E, length_app, Nat.add_1_r, content_push; [by rewrite Hc, u8_id by lia|done|by rewrite Hl|change NUM with 8; lia].
Qed.

Lemma queue_pop ring r w i q : queue_of ring r w (i :: q) -> length ring = 8%nat ->
  znth ring (r mod NUM) = Some i /\ queue_of ring (u16 (r + 1)) w q.
Proof.
  intros [Hr Hw Hc] Hl. cbn [length] in Hc. rewrite content_S in Hc by done. injection Hc as Hi Hc. split.
  - unfold rget in Hi. pose proof (Z.mod_pos_bound r NUM ltac:(done)) as Hm. change NUM with 8 in *.
    destruct (znth_is_Some ring (r mod 8)) as [x Hx]; [lia|]. rewrite Hx. apply znth_Some in Hx as [_ Hx]. rewrite Hx in Hi. by cbn in Hi; subst.
  - split; [apply u16_range| |].
    + rewrite Hw. unfold u16. rewrite Zplus_mod_idemp_l. f_equal. cbn. lia.
    + rewrite <- Hc at 2. apply content_mod. apply mod_wrap; [done|lia|apply num_divides].
Qed.

Lemma queue_empty ring r w q : queue_of ring r w q -> (length q <= 8)%nat -> (r =? w) = match q with [] => true | _ => false end.
Proof.
  intros [Hr Hw _] Hq. rewrite Hw. unfold u16. destruct q as [|i q]; cbn [length] in *.
  - rewrite Z.add_0_r, Z.mod_small by lia. apply Z.eqb_refl.
  - apply Z.eqb_neq. destruct (Z_lt_dec (r + Z.of_nat (S (length q))) (2 ^ 16)); [rewrite Z.mod_small by lia; lia|].
    replace ((r + Z.of_nat (S (length q))) mod 2 ^ 16) with (r + Z.of_nat (S (length q)) - 2 ^ 16); [lia|].
    Z.div_mod_to_equations. lia.
Qed.

Lemma queue_length ring r w q : queue_of ring r w q -> (length q <= 8)%nat -> u16 (w - r) = Z.of_nat (length q).
Proof. intros [Hr -> _] Hq. unfold u16. rewrite Zminus_mod_idemp_l. rewrite Z.mod_small by lia. lia. Qed.

(** ** Submitting a request *)

Definition submitted (b : nat) (write : bool) (sector i0 i1 i2 : Z) (s : vdisk) : vdisk :=
  mkVdisk
    (zupd (zupd (zupd (vd_desc s) i0 (mkDesc (DOps (Z.to_nat i0)) BLK_REQ_SIZE VRING_DESC_F_NEXT i1))
       i1 (mkDesc (DData b) BSIZE (Z.lor (if write then 0 else VRING_DESC_F_WRITE) VRING_DESC_F_NEXT) i2))
       i2 (mkDesc (DStatus (Z.to_nat i0)) 1 VRING_DESC_F_WRITE 0))
    (u16 (vd_avail_idx s + 1)) (zupd (vd_avail s) (vd_avail_idx s mod NUM) i0) (vd_used_idx s) (vd_used s) (vd_free s)
    (vd_seen s) (zupd (vd_info s) i0 (mkInfo (Some b) 255))
    (zupd (vd_ops s) i0 (mkReq (if write then VIRTIO_BLK_T_OUT else VIRTIO_BLK_T_IN) 0 sector)).

Lemma dk_modify {D} f s' th s bs (d : D) : f s = s' -> dk (modify f) th (mkVio s bs d) = Ok tt th (mkVio s' bs d).
Proof. by intros <-. Qed.

(** One [modify] of the driver's state, on a state in constructor form. *)
Ltac dk_step := erewrite bind_ok; [|apply dk_modify;
  cbn [set_ops set_desc set_info set_avail set_free set_used set_seen
       vd_desc vd_avail_idx vd_avail vd_used_idx vd_used vd_free vd_seen vd_info vd_ops]; reflexivity].

Section Submit.
Context {D : Type} `{VD : VirtioDevice D}.

Lemma vbuf_ok b x th s bs (d : D) : bs !! b = Some x -> vbuf b th (mkVio s bs d) = Ok x th (mkVio s bs d).
Proof. intros Hb. unfold vbuf, bind, get. cbn [vi_bufs]. by rewrite Hb. Qed.
Lemma vbuf_upd_ok b f x th s bs (d : D) : bs !! b = Some x ->
  vbuf_upd b f th (mkVio s bs d) = Ok tt th (mkVio s (<[b := f x]> bs) d).
Proof. intros Hb. unfold vbuf_upd. by rewrite (bind_ok _ _ _ _ _ _ _ (vbuf_ok _ _ _ _ _ _ Hb)). Qed.

Lemma rw_submit_ok b write sector i0 i1 i2 th s bs d x :
  bs !! b = Some x -> 0 <= i0 < Z.of_nat (length (vd_info s)) ->
  exists d', dev_view d' = dev_view d /\
    rw_submit b write sector i0 i1 i2 th (mkVio s bs d) =
      Ok tt th (mkVio (submitted b write sector i0 i1 i2 s) (<[b := with_bdisk 1 x]> bs) d').
Proof.
  intros Hb Hi. destruct (mmio_write_ok VIRTIO_MMIO_QUEUE_NOTIFY 0 th d) as (d' & Ew & Hv); [by left|].
  exists d'. split; [done|]. unfold rw_submit, put_desc. destruct s as [ds ai ar ui ur fr se inf ops]. cbn [vd_info] in Hi.
  do 5 dk_step. rewrite (bind_ok _ _ _ _ _ _ _ (vbuf_upd_ok b _ x _ _ _ _ Hb)).
  dk_step. rewrite znth_zupd_eq by done. cbn [fmap option_fmap option_map default in_status from_option].
  assert (E : forall y z, zupd (zupd inf i0 y) i0 z = zupd inf i0 z) by (intros y z; unfold zupd; apply list_insert_insert_eq). rewrite E.
  do 2 dk_step. unfold dev. erewrite (zoom_ok vdev_lens); [|exact Ew]. reflexivity.
Qed.

Lemma submitted_request b write sector i0 i1 i2 s :
  length (vd_desc s) = 8%nat -> length (vd_ops s) = 8%nat -> NoDup [i0; i1; i2] -> (forall i, i ∈ [i0; i1; i2] -> 0 <= i < 8) ->
  request_at (submitted b write sector i0 i1 i2 s) i0 =
    Some (mkRequest (if write then VIRTIO_BLK_T_OUT else VIRTIO_BLK_T_IN) sector (Z.to_nat i0) b (Z.to_nat i0)) /\
  chain (submitted b write sector i0 i1 i2 s) i0 = [i0; i1; i2].
Proof.
  intros Hd Ho Hn Hr. pose proof (Hr i0 ltac:(set_solver)). pose proof (Hr i1 ltac:(set_solver)). pose proof (Hr i2 ltac:(set_solver)).
  assert (i0 <> i1 /\ i0 <> i2 /\ i1 <> i2) as (N1 & N2 & N3).
  { repeat setoid_rewrite NoDup_cons in Hn. set_solver. }
  assert (R : req_mem (submitted b write sector i0 i1 i2 s) i0
    (mkRequest (if write then VIRTIO_BLK_T_OUT else VIRTIO_BLK_T_IN) sector (Z.to_nat i0) b (Z.to_nat i0))
    (mkDesc (DOps (Z.to_nat i0)) BLK_REQ_SIZE VRING_DESC_F_NEXT i1)
    (mkDesc (DData b) BSIZE (Z.lor (if write then 0 else VRING_DESC_F_WRITE) VRING_DESC_F_NEXT) i2)
    (mkDesc (DStatus (Z.to_nat i0)) 1 VRING_DESC_F_WRITE 0)
    (mkReq (if write then VIRTIO_BLK_T_OUT else VIRTIO_BLK_T_IN) 0 sector)).
  { split; cbn [submitted vd_desc vd_ops d_next d_addr r_op r_buf r_status r_type r_sector rq_type rq_sector]; try done.
    - rewrite znth_zupd_ne by lia. rewrite znth_zupd_ne by lia. apply znth_zupd_eq. lia.
    - rewrite znth_zupd_ne by lia. apply znth_zupd_eq. rewrite length_zupd. lia.
    - apply znth_zupd_eq. rewrite !length_zupd. lia.
    - unfold zupd. apply list_lookup_insert_eq. lia.
    - by destruct write. }
  split; [apply request_at_Some; eauto|]. by rewrite (req_mem_chain _ _ _ _ _ _ _ R).
Qed.

End Submit.

Lemma bind_perm {A B} (f : A -> list B) l l' : l ≡ₚ l' -> l ≫= f ≡ₚ l' ≫= f.
Proof.
  induction 1 as [|x l l' _ IH|x y l|l l' l'' _ IH1 _ IH2]; [done|..].
  - change (f x ++ (l ≫= f) ≡ₚ f x ++ (l' ≫= f)). by rewrite IH.
  - change (f y ++ f x ++ (l ≫= f) ≡ₚ f x ++ f y ++ (l ≫= f)). rewrite !app_assoc. by rewrite (Permutation_app_comm (f y)).
  - by etransitivity.
Qed.

Lemma heads_insert cs k c c' i0 : cs !! k = Some c -> head c = None -> head c' = Some i0 -> heads (<[k := c']> cs) ≡ₚ i0 :: heads cs.
Proof.
  intros Hk Hc Hc'. rewrite insert_take_drop by (by eapply lookup_lt_Some). rewrite <- (take_drop_middle cs k c Hk) at 3.
  unfold heads. rewrite !omap_app. cbn. rewrite Hc, Hc'. by rewrite Permutation_middle.
Qed.

Lemma heads_remove cs k c c' i0 : cs !! k = Some c -> head c = Some i0 -> head c' = None -> heads cs ≡ₚ i0 :: heads (<[k := c']> cs).
Proof.
  intros Hk Hc Hc'. rewrite insert_take_drop by (by eapply lookup_lt_Some). rewrite <- (take_drop_middle cs k c Hk) at 1.
  unfold heads. rewrite !omap_app. cbn. rewrite Hc, Hc'. by rewrite Permutation_middle.
Qed.

Lemma chain_nodup s cs i0 : NoDup (chains s cs) -> i0 ∈ heads cs -> NoDup (chain s i0).
Proof.
  intros Hnd (l1 & l2 & El)%list_elem_of_split. unfold chains in Hnd.
  rewrite El, (bind_perm (chain s) (l1 ++ i0 :: l2) (i0 :: l1 ++ l2)) in Hnd by (by rewrite Permutation_middle). by apply NoDup_app in Hnd as (? & _).
Qed.

Lemma length_le_8 (l : list Z) : NoDup l -> (forall i, i ∈ l -> 0 <= i < 8) -> (length l <= 8)%nat.
Proof.
  intros Hn Hr. change 8%nat with (length (seqZ 0 8)). apply submseteq_length, NoDup_submseteq; [done|].
  intros i Hi. apply elem_of_seqZ. specialize (Hr i Hi). lia.
Qed.

Lemma elem_insert {A} (l : list A) k x y : y ∈ <[k := x]> l -> y = x \/ y ∈ l.
Proof. intros (j & Hj)%list_elem_of_lookup. apply list_lookup_insert_Some in Hj as [(_ & -> & _)|[_ Hj]]; [by left|right; by eapply list_elem_of_lookup_2]. Qed.

Section Preserve.
Context (s : vdisk) (bs : list buf) (v : dview) (cs : list call) (aq uq sn : list Z) (Hv : vinv s bs v cs aq uq sn).

Lemma heads_nodup : NoDup (heads cs).
Proof. eapply chains_nodup_heads, Hv. Qed.
Lemma heads_range i : i ∈ heads cs -> 0 <= i < 8.
Proof. intros H. eapply iv_range; [done|]. by apply head_in_chains. Qed.
Lemma parts_nodup : NoDup (dv_busy v ++ aq ++ uq ++ sn).
Proof. rewrite <- (iv_perm _ _ _ _ _ _ _ Hv). apply heads_nodup. Qed.
Lemma parts_length : (length (dv_busy v) + length aq + length uq + length sn <= 8)%nat.
Proof.
  pose proof (length_le_8 _ heads_nodup heads_range) as Hl. rewrite (iv_perm _ _ _ _ _ _ _ Hv), !length_app in Hl. lia.
Qed.

Lemma vinv_unseen : unseen s = uq.
Proof.
  pose proof parts_length. unfold unseen. rewrite (queue_length _ _ _ _ (iv_uq _ _ _ _ _ _ _ Hv)) by lia.
  rewrite Nat2Z.id. apply Hv.
Qed.

Lemma free_not_chained i : znth (vd_free s) i = Some 1 -> i ∉ chains s cs.
Proof. intros H Hi. rewrite (vinv_used_flag _ _ _ _ _ _ _ _ Hv Hi) in H. done. Qed.

(** Other requests do not see what is stored into free descriptors and their headers. *)
Lemma flight_kept s' c i0 x st :
  c ∈ cs -> flight s bs (dv_image v) uq sn c i0 x st -> head c = Some i0 ->
  (forall j, j ∈ chains s cs -> znth (vd_desc s') j = znth (vd_desc s) j /\ znth (vd_info s') j = znth (vd_info s) j /\
     vd_ops s' !! Z.to_nat j = vd_ops s !! Z.to_nat j) ->
  flight s' bs (dv_image v) uq sn c i0 x st /\ chain s' i0 = chain s i0.
Proof.
  intros Hc F Hh Hx. assert (Hin : i0 ∈ heads cs) by (apply elem_of_heads; by exists c).
  destruct (request_at_ext s s' i0 _ (fl_req _ _ _ _ _ _ _ _ _ F)) as [Hr Hch].
  { intros j Hj. apply Hx. by eapply in_chains. }
  { apply Hx. by apply head_in_chains. }
  split; [|done]. destruct F. split; try done. rewrite (proj1 (proj2 (Hx i0 (head_in_chains _ _ _ Hin)))). done.
Qed.
End Preserve.

(** A request of call [c] put into the free descriptors [i0], [i1] and [i2]. *)
Section SubmitInv.
Context (s : vdisk) (bs : list buf) (v : dview) (cs : list call) (aq uq sn : list Z) (Hv : vinv s bs v cs aq uq sn).
Context (k : nat) (c : call) (x : buf) (i0 i1 i2 : Z).
Context (Hk : cs !! k = Some c) (Hst : c_st c = Runnable) (Hb : bs !! c_b c = Some x) (Ha : all_free (vd_free s) [i0; i1; i2]).
Let s' : vdisk := submitted (c_b c) (c_write c) (2 * c_n c) i0 i1 i2 (taken [i0; i1; i2] s).
Let c' : call := with_st (AsleepBuf i0) c.
Let bs' : list buf := <[c_b c := with_bdisk 1 x]> bs.

Lemma sub_range i : i ∈ [i0; i1; i2] -> 0 <= i < 8.
Proof. intros Hi. by apply Ha. Qed.
Lemma sub_unused i : i ∈ [i0; i1; i2] -> i ∉ chains s cs.
Proof. intros Hi. eapply free_not_chained; [done|]. by apply Ha. Qed.

Lemma sub_request :
  request_at s' i0 = Some (mkRequest (if c_write c then VIRTIO_BLK_T_OUT else VIRTIO_BLK_T_IN) (2 * c_n c) (Z.to_nat i0) (c_b c) (Z.to_nat i0)) /\
  chain s' i0 = [i0; i1; i2].
Proof. apply submitted_request; try apply Hv; [apply Ha|apply sub_range]. Qed.

Lemma sub_keep j : j ∈ chains s cs -> znth (vd_desc s') j = znth (vd_desc s) j /\ znth (vd_info s') j = znth (vd_info s) j /\
  vd_ops s' !! Z.to_nat j = vd_ops s !! Z.to_nat j.
Proof.
  intros Hj. pose proof (sub_range i0 ltac:(set_solver)). pose proof (sub_range i1 ltac:(set_solver)). pose proof (sub_range i2 ltac:(set_solver)).
  assert (Hne : j <> i0 /\ j <> i1 /\ j <> i2) by (split_and!; intros ->; eapply sub_unused; try exact Hj; set_solver).
  pose proof (iv_range _ _ _ _ _ _ _ Hv j Hj). cbn. rewrite !znth_zupd_ne by lia. split; [done|]. split; [done|].
  unfold zupd. apply list_lookup_insert_ne. lia.
Qed.

Lemma sub_old d j0 : d ∈ cs -> head d = Some j0 -> exists y st, flight s' bs (dv_image v) uq sn d j0 y st /\ chain s' j0 = chain s j0.
Proof.
  intros Hd Hh. destruct (iv_flight _ _ _ _ _ _ _ Hv d j0 Hd Hh) as (y & st & F). exists y, st. eapply flight_kept; try done. apply sub_keep.
Qed.

Lemma sub_heads : heads (<[k := c']> cs) ≡ₚ i0 :: heads cs.
Proof. apply (heads_insert _ _ c); [done| |done]. unfold head. by rewrite Hst. Qed.

Lemma sub_chains : chains s' (<[k := c']> cs) ≡ₚ [i0; i1; i2] ++ chains s cs.
Proof.
  unfold chains. rewrite (bind_perm _ _ _ sub_heads). change (chain s' i0 ++ (heads cs ≫= chain s') ≡ₚ [i0; i1; i2] ++ (heads cs ≫= chain s)).
  rewrite (proj2 sub_request). apply Permutation_app_head. fold (chains s' cs) (chains s cs). rewrite (chains_ext s s' cs); [done|].
  intros j0 (d & Hd & Hh)%elem_of_heads. by destruct (sub_old d j0 Hd Hh) as (y & st & _ & E).
Qed.

Lemma sub_other j d : <[k := c']> cs !! j = Some d -> active d = true -> (j = k /\ d = c') \/ (j <> k /\ cs !! j = Some d /\ c_b d <> c_b c).
Proof.
  intros Hj Hd. apply list_lookup_insert_Some in Hj as [(-> & <- & _)|[Hjk Hj]]; [by left|right]. split; [done|]. split; [done|].
  apply (iv_dist _ _ _ _ _ _ _ Hv j k d c); try done. unfold active. by rewrite Hst.
Qed.

Lemma vinv_submit : vinv s' bs' v (<[k := c']> cs) (aq ++ [i0]) uq sn.
Proof.
  pose proof (sub_range i0 ltac:(set_solver)) as Hi0.
  assert (Hact : active c = true) by (unfold active; by rewrite Hst).
  assert (Hin0 : i0 ∉ heads cs) by (intros H; eapply (sub_unused i0); [set_solver|by apply head_in_chains]).
  pose proof Hv as [H1 H2 H3 H4 H5 H6 H7 H8 H9 H10 H11 H12 H13 H14 H15 H16].
  split; try (cbn; rewrite ?length_zupd, ?length_take_all; done).
  - intros i Hi. change (vd_free s') with (take_all (vd_free s) [i0; i1; i2]). rewrite znth_take_all by (intros j Hj; rewrite H4; by apply sub_range). rewrite (bool_decide_ext (i ∈ chains s' (<[k := c']> cs)) (i ∈ [i0; i1; i2] \/ i ∈ chains s cs)).
    2:{ rewrite <- elem_of_app. by rewrite sub_chains. }
    destruct (decide (i ∈ [i0; i1; i2])); [rewrite !bool_decide_true by tauto; done|]. rewrite (bool_decide_false (i ∈ [_; _; _])) by done.
    rewrite H7 by done. by rewrite (bool_decide_ext (i ∈ [i0; i1; i2] \/ i ∈ chains s cs) (i ∈ chains s cs)) by tauto.
  - rewrite sub_chains. apply NoDup_app. split; [apply Ha|]. split; [apply sub_unused|done].
  - intros i. rewrite sub_chains, elem_of_app. intros [Hi|Hi]; [by apply sub_range|by apply H9].
  - rewrite sub_heads, H10, <- app_assoc. cbn. by rewrite <- !Permutation_middle.
  - apply queue_push; try done; [|lia..]. assert (Hlen : (length (i0 :: heads cs) <= 8)%nat).
    { apply length_le_8; [constructor; [done|by eapply heads_nodup]|]. intros i [->|Hi]%elem_of_cons; [done|by eapply heads_range]. }
    cbn in Hlen. rewrite H10, !length_app in Hlen. lia.
  - intros d (j & Hj)%list_elem_of_lookup Hd. destruct (sub_other j d Hj Hd) as [[-> ->]|(Hne & Hj' & Hbd)].
    + destruct (H13 c (list_elem_of_lookup_2 _ _ _ Hk) Hact) as (y & Hy & Hrest). rewrite Hb in Hy. injection Hy as <-.
      exists (with_bdisk 1 x). split; [by eapply lookup_insert_Some_eq|done].
    + unfold bs'. rewrite list_lookup_insert_ne by done. apply H13; [by eapply list_elem_of_lookup_2|done].
  - intros j j' d d' Hj Hj' Hd Hd' Hne.
    destruct (sub_other j d Hj Hd) as [[-> ->]|(Hn & Hj0 & _)], (sub_other j' d' Hj' Hd') as [[-> ->]|(Hn' & Hj0' & _)]; [done|..].
    + by apply (H14 k j' c d').
    + by apply (H14 j k d c).
    + by apply (H14 j j' d d').
  - intros d j0 (j & Hj)%list_elem_of_lookup Hh. destruct (sub_other j d Hj (head_active _ _ Hh)) as [[-> ->]|(Hne & Hj' & Hbd)].
    + injection Hh as <-. exists (with_bdisk 1 x), 255. split; try done.
      * by eapply lookup_insert_Some_eq.
      * apply znth_zupd_eq. cbn. rewrite H5. lia.
      * apply sub_request.
      * rewrite bool_decide_false; [done|]. intros Hs. apply Hin0. rewrite H10. set_solver.
      * intros [Hs|[_ Hs]]; [|done]. exfalso. apply Hin0. rewrite H10. set_solver.
      * intros _ Hs. apply Hin0. rewrite H10. set_solver.
    + destruct (sub_old d j0 (list_elem_of_lookup_2 _ _ _ Hj') Hh) as (y & st & F & _). exists y, st. destruct F. split; try done.
      unfold bs'. by rewrite list_lookup_insert_ne.
  - intros d [->|Hd]%elem_insert Hs; [done|]. specialize (H16 d Hd Hs). pose proof (nfree_take_all _ _ H4 Ha).
    change (vd_free s') with (take_all (vd_free s) [i0; i1; i2]). lia.
Qed.
End SubmitInv.

(** ** Finishing a request *)

Lemma well_formed_next d0 d1 d2 op : well_formed d0 d1 d2 op = true ->
  has (d_flags d0) VRING_DESC_F_NEXT = true /\ has (d_flags d1) VRING_DESC_F_NEXT = true /\ has (d_flags d2) VRING_DESC_F_NEXT = false.
Proof. unfold well_formed. rewrite !andb_true_iff, !negb_true_iff. tauto. Qed.

Lemma free_chain_step f i d th s : 0 <= i < 8 -> znth (vd_free s) i = Some 0 -> znth (vd_desc s) i = Some d ->
  free_chain_loop (S f) i th s =
    (if has (d_flags d) VRING_DESC_F_NEXT then free_chain_loop f (d_next d) else ret tt) (woke ChDiskFree th) (freed i s).
Proof.
  intros Hi Hf Hd. cbn [free_chain_loop]. unfold bind at 1, get. rewrite Hd. cbn [deref]. unfold bind at 1, ret at 1.
  by rewrite (bind_ok _ _ _ _ _ _ _ (free_desc_ok i th s Hi Hf)).
Qed.

Lemma free_chain_ok s i0 r d0 d1 d2 op th :
  req_mem s i0 r d0 d1 d2 op -> NoDup (chain s i0) ->
  (forall i, i ∈ chain s i0 -> 0 <= i < 8 /\ znth (vd_free s) i = Some 0) ->
  exists th', woke_free th th' /\ ChDiskFree ∈ th_woken th' /\
    free_chain i0 th s = Ok tt th' (freed (d_next d1) (freed (d_next d0) (freed i0 s))).
Proof.
  intros R. rewrite (req_mem_chain _ _ _ _ _ _ _ R). intros Hn Hf.
  destruct (Hf i0 ltac:(set_solver)) as [Hr0 Hf0]. destruct (Hf (d_next d0) ltac:(set_solver)) as [Hr1 Hf1]. destruct (Hf (d_next d1) ltac:(set_solver)) as [Hr2 Hf2].
  assert (i0 <> d_next d0 /\ i0 <> d_next d1 /\ d_next d0 <> d_next d1) as (N1 & N2 & N3) by (repeat setoid_rewrite NoDup_cons in Hn; set_solver).
  destruct (well_formed_next _ _ _ _ (rm_wf _ _ _ _ _ _ _ R)) as (W0 & W1 & W2).
  exists (woke ChDiskFree (woke ChDiskFree (woke ChDiskFree th))). split; [do 3 apply woke_free_step; apply woke_free_refl|]. split; [cbn; set_solver|].
  unfold free_chain. change (Z.to_nat NUM + 1)%nat with 9%nat.
  rewrite (free_chain_step _ _ d0 _ _ Hr0 Hf0 (rm_0 _ _ _ _ _ _ _ R)), W0.
  rewrite (free_chain_step _ _ d1); [|done|cbn; by rewrite znth_zupd_ne by lia|cbn; rewrite znth_zupd_ne by lia; apply R]. rewrite W1.
  rewrite (free_chain_step _ _ d2); [|done|cbn; by rewrite !znth_zupd_ne by lia|cbn; rewrite !znth_zupd_ne by lia; apply R]. by rewrite W2.
Qed.

Definition freed3 (i0 i1 i2 : Z) (s : vdisk) : vdisk := freed i2 (freed i1 (freed i0 (set_info
  (zupd (vd_info s) i0 (mkInfo None (default 0 (in_status <$> znth (vd_info s) i0)))) s))).

Section FinishInv.
Context (s : vdisk) (bs : list buf) (v : dview) (cs : list call) (aq uq l1 l2 : list Z).
Context (k : nat) (c : call) (i0 i1 i2 : Z).
Context (Hv : vinv s bs v cs aq uq (l1 ++ i0 :: l2)).
Context (Hk : cs !! k = Some c) (Hh : head c = Some i0) (Hch : chain s i0 = [i0; i1; i2]) (Hw : forall d, d ∈ cs -> c_st d <> AsleepFree).
Let s' : vdisk := freed3 i0 i1 i2 s.
Let c' : call := with_st Returned c.

Lemma fin_heads : heads cs ≡ₚ i0 :: heads (<[k := c']> cs).
Proof. by apply (heads_remove _ _ c). Qed.

Lemma fin_chains0 : chains s cs ≡ₚ [i0; i1; i2] ++ chains s (<[k := c']> cs).
Proof. unfold chains. rewrite (bind_perm _ _ _ fin_heads). by rewrite <- Hch. Qed.

Lemma fin_range i : i ∈ [i0; i1; i2] -> 0 <= i < 8.
Proof. intros Hi. apply (iv_range _ _ _ _ _ _ _ Hv). rewrite fin_chains0. set_solver. Qed.
Lemma fin_apart i : i ∈ [i0; i1; i2] -> i ∉ chains s (<[k := c']> cs).
Proof. pose proof (iv_nodup _ _ _ _ _ _ _ Hv) as Hn. rewrite fin_chains0 in Hn. apply NoDup_app in Hn as (_ & Hn & _). apply Hn. Qed.

Lemma fin_keep j : 0 <= j -> j ∉ [i0; i1; i2] -> znth (vd_desc s') j = znth (vd_desc s) j /\ znth (vd_info s') j = znth (vd_info s) j /\
  znth (vd_free s') j = znth (vd_free s) j /\ vd_ops s' !! Z.to_nat j = vd_ops s !! Z.to_nat j.
Proof.
  intros Hj Hn. pose proof (fin_range i0 ltac:(set_solver)). pose proof (fin_range i1 ltac:(set_solver)). pose proof (fin_range i2 ltac:(set_solver)).
  cbn. rewrite !znth_zupd_ne by (lia || set_solver). done.
Qed.

Lemma fin_elem j d : <[k := c']> cs !! j = Some d -> active d = true -> j <> k /\ cs !! j = Some d.
Proof. intros [(-> & <- & _)|[Hjk Hj]]%list_lookup_insert_Some Hd; [discriminate Hd|done]. Qed.

Lemma fin_old j d j0 : cs !! j = Some d -> j <> k -> head d = Some j0 ->
  exists y st, flight s' bs (dv_image v) uq (l1 ++ l2) d j0 y st /\ chain s' j0 = chain s j0 /\ j0 ∈ heads (<[k := c']> cs).
Proof.
  intros Hj Hne Hd. destruct (iv_flight _ _ _ _ _ _ _ Hv d j0 (list_elem_of_lookup_2 _ _ _ Hj) Hd) as (y & st & F).
  assert (Hin : j0 ∈ heads (<[k := c']> cs)).
  { apply elem_of_heads. exists d. split; [|done]. eapply list_elem_of_lookup_2. rewrite list_lookup_insert_ne; done. }
  assert (Hnot : forall i, i ∈ chain s j0 -> 0 <= i /\ i ∉ [i0; i1; i2]).
  { intros i Hi. assert (Hc : i ∈ chains s (<[k := c']> cs)) by (by eapply in_chains). split; [|intros H; by apply (fin_apart i)].
    apply (iv_range _ _ _ _ _ _ _ Hv). rewrite fin_chains0. set_solver. }
  assert (Hj0 : 0 <= j0 /\ j0 ∉ [i0; i1; i2]) by (apply Hnot; unfold chain; set_solver).
  destruct (request_at_ext s s' j0 _ (fl_req _ _ _ _ _ _ _ _ _ F)) as [Hr Hc].
  { intros i Hi. destruct (Hnot i Hi). by apply fin_keep. }
  { cbn [r_op]. apply (fin_keep j0); tauto. }
  exists y, st. split; [|done]. destruct F. split; try done.
  - by rewrite (proj1 (proj2 (fin_keep j0 (proj1 Hj0) (proj2 Hj0)))).
  - rewrite fl_disk0. by rewrite (bool_decide_ext (j0 ∈ l1 ++ i0 :: l2) (j0 ∈ l1 ++ l2)) by set_solver.
  - intros H. apply fl_data0. set_solver.
  - intros H1 H2. apply (fl_asleep0 H1). set_solver.
Qed.

Lemma fin_chains : chains s' (<[k := c']> cs) = chains s (<[k := c']> cs).
Proof.
  apply chains_ext. intros j0 (d & (j & Hj)%list_elem_of_lookup & Hd)%elem_of_heads.
  destruct (fin_elem j d Hj (head_active _ _ Hd)) as [Hne Hj']. by destruct (fin_old j d j0 Hj' Hne Hd) as (_ & _ & _ & E & _).
Qed.

Lemma vinv_finish : vinv s' bs v (<[k := c']> cs) aq uq (l1 ++ l2).
Proof.
  pose proof Hv as [H1 H2 H3 H4 H5 H6 H7 H8 H9 H10 H11 H12 H13 H14 H15 H16].
  split; rewrite ?fin_chains; try (cbn; rewrite ?length_zupd; done).
  - intros i Hi. destruct (decide (i ∈ [i0; i1; i2])) as [Hin|Hin].
    + rewrite bool_decide_false by (by apply fin_apart). pose proof (fin_range i0 ltac:(set_solver)). pose proof (fin_range i1 ltac:(set_solver)). pose proof (fin_range i2 ltac:(set_solver)).
      cbn. destruct (Z.eq_dec i i2) as [->|N2]; [apply znth_zupd_eq; rewrite !length_zupd; lia|]. rewrite znth_zupd_ne by lia.
      destruct (Z.eq_dec i i1) as [->|N1]; [apply znth_zupd_eq; rewrite !length_zupd; lia|]. rewrite znth_zupd_ne by lia.
      assert (i = i0) as -> by set_solver. apply znth_zupd_eq. lia.
    + rewrite (proj1 (proj2 (proj2 (fin_keep i (proj1 Hi) Hin)))), H7 by done.
      rewrite (bool_decide_ext (i ∈ chains s cs) (i ∈ chains s (<[k := c']> cs))); [done|]. rewrite fin_chains0, elem_of_app. tauto.
  - rewrite fin_chains0 in H8. by apply NoDup_app in H8 as (_ & _ & ?).
  - intros i Hi. apply H9. rewrite fin_chains0, elem_of_app. by right.
  - pose proof fin_heads as Hp. rewrite H10 in Hp. apply (Permutation_cons_inv (a := i0)). rewrite <- Hp. rewrite !app_assoc. by rewrite <- Permutation_middle.
  - intros d (j & Hj)%list_elem_of_lookup Hd. destruct (fin_elem j d Hj Hd) as [_ Hj']. apply H13; [by eapply list_elem_of_lookup_2|done].
  - intros j j' d d' Hj Hj' Hd Hd'. destruct (fin_elem j d Hj Hd) as [_ E], (fin_elem j' d' Hj' Hd') as [_ E']. by apply H14.
  - intros d j0 (j & Hj)%list_elem_of_lookup Hd. destruct (fin_elem j d Hj (head_active _ _ Hd)) as [Hne Hj'].
    destruct (fin_old j d j0 Hj' Hne Hd) as (y & st & F & _). by exists y, st.
  - intros d [->|Hd]%elem_insert Hs; [done|]. by destruct (Hw d Hd).
Qed.
End FinishInv.

(** ** The interrupt *)

Lemma call_dist s bs v cs aq uq sn c d : vinv s bs v cs aq uq sn -> c ∈ cs -> d ∈ cs -> active c = true -> active d = true ->
  d = c \/ c_b d <> c_b c /\ c_n d <> c_n c.
Proof.
  intros Hv (k & Hk)%list_elem_of_lookup (j & Hj)%list_elem_of_lookup Hc Hd. destruct (decide (j = k)) as [->|Hne]; [left; congruence|right].
  by apply (iv_dist _ _ _ _ _ _ _ Hv j k d c).
Qed.

Lemma vinv_seen s bs v cs aq uq sn id c x :
  vinv s bs v cs aq (id :: uq) sn -> c ∈ cs -> head c = Some id -> bs !! c_b c = Some x -> (forall i, c_st c <> AsleepBuf i) ->
  status_of s id = VIRTIO_BLK_S_OK -> vinv (set_seen (u16 (vd_seen s + 1)) s) (<[c_b c := with_bdisk 0 x]> bs) v cs aq uq (id :: sn).
Proof.
  intros Hv Hc Hh Hb Hna Hok. pose proof (head_active _ _ Hh) as Hact. pose proof (parts_nodup _ _ _ _ _ _ _ Hv) as Hnd.
  pose proof Hv as [H1 H2 H3 H4 H5 H6 H7 H8 H9 H10 H11 H12 H13 H14 H15 H16].
  destruct (queue_pop _ _ _ _ _ H12 H3) as [_ Hq].
  assert (Hid : id ∉ uq /\ id ∉ sn).
  { rewrite !app_assoc in Hnd. rewrite <- app_assoc in Hnd. apply NoDup_app in Hnd as (_ & _ & Hnd). cbn in Hnd. apply NoDup_cons in Hnd as [Hnd _]. set_solver. }
  split; try done.
  - rewrite H10. do 2 apply Permutation_app_head. apply Permutation_middle.
  - intros d Hd Ha. destruct (call_dist _ _ _ _ _ _ _ c d Hv Hc Hd Hact Ha) as [->|[Hne _]].
    + destruct (H13 c Hc Hact) as (y & Hy & Hrest). assert (y = x) as -> by congruence. exists (with_bdisk 0 x). split; [by eapply lookup_insert_Some_eq|done].
    + rewrite list_lookup_insert_ne by done. by apply H13.
  - intros d j0 Hd Hhd. destruct (H15 d j0 Hd Hhd) as (y & st & F). destruct (call_dist _ _ _ _ _ _ _ c d Hv Hc Hd Hact (head_active _ _ Hhd)) as [->|[Hne _]].
    + rewrite Hh in Hhd. injection Hhd as <-. exists (with_bdisk 0 x), st. destruct F. assert (y = x) as -> by congruence. split; try done.
      * by eapply lookup_insert_Some_eq.
      * by rewrite bool_decide_true by set_solver.
      * intros _. apply fl_data0. right. split; [set_solver|]. unfold status_of in Hok. by rewrite fl_info0 in Hok.
      * intros E. by destruct (Hna id).
    + assert (Hj : j0 <> id).
      { intros ->. destruct (H15 c id Hc Hh) as (y' & st' & F'). pose proof (fl_info _ _ _ _ _ _ _ _ _ F). rewrite (fl_info _ _ _ _ _ _ _ _ _ F') in *. congruence. }
      exists y, st. destruct F. split; try done.
      * by rewrite list_lookup_insert_ne.
      * rewrite fl_disk0. by rewrite (bool_decide_ext (j0 ∈ sn) (j0 ∈ id :: sn)) by set_solver.
      * intros H. apply fl_data0. set_solver.
      * intros E H. apply (fl_asleep0 E). set_solver.
Qed.

Lemma wake_more ch ws c : relaxed (wake ws c) (wake (ch :: ws) c).
Proof.
  unfold wake. destruct (c_st c) eqn:E; try apply relaxed_refl.
  - destruct (decide (ChDiskFree ∈ ws)) as [H|H].
    + rewrite !bool_decide_true by set_solver. apply relaxed_refl.
    + rewrite (bool_decide_false (ChDiskFree ∈ ws)) by done. destruct (bool_decide _); [|apply relaxed_refl]. split; cbn; unfold head, active; rewrite ?E; done.
  - destruct (decide (ChBufDisk (c_b c) ∈ ws)) as [H|H].
    + rewrite !bool_decide_true by set_solver. apply relaxed_refl.
    + rewrite (bool_decide_false (ChBufDisk (c_b c) ∈ ws)) by done. destruct (bool_decide _); [|apply relaxed_refl]. split; cbn; unfold head, active; rewrite ?E; done.
Qed.

Lemma wake_woken ws c i : ChBufDisk (c_b c) ∈ ws -> c_st (wake ws c) <> AsleepBuf i.
Proof. intros H. unfold wake. destruct (c_st c) eqn:E; rewrite ?E; try done; [destruct (bool_decide _); by rewrite ?E|]. by rewrite bool_decide_true. Qed.

Lemma wake_b ws c : c_b (wake ws c) = c_b c.
Proof. apply wake_relaxed. Qed.

Lemma wake_Forall2 ch ws cs : Forall2 relaxed (wake ws <$> cs) (wake (ch :: ws) <$> cs).
Proof. apply Forall2_fmap_2. induction cs; constructor; [apply wake_more|done]. Qed.

(** ** The device at work *)

Lemma block_write_eq img n d : length d = Z.to_nat BSIZE -> block_at (write_image img (2 * n) d) n = d.
Proof.
  intros Hl. unfold block_at, read_image. apply list_eq. intros j. destruct (decide (j < Z.to_nat BSIZE)%nat) as [Hj|Hj].
  - rewrite list_lookup_fmap, lookup_seqZ_lt by lia. cbn [fmap option_fmap option_map]. unfold write_image. rewrite Hl.
    destruct (lookup_lt_is_Some_2 d j) as [x Hx]; [lia|]. rewrite Hx. f_equal.
    replace ((512 * (2 * n) <=? 512 * (2 * n) + (0 + Z.of_nat j)) && _) with true.
    + replace (Z.to_nat _) with j by lia. by rewrite nth_lookup, Hx.
    + symmetry. apply andb_true_iff. rewrite Z.leb_le, Z.ltb_lt. lia.
  - rewrite !lookup_ge_None_2; [done|lia|]. rewrite length_fmap, length_seqZ. lia.
Qed.

Lemma block_write_ne img n m d : length d = Z.to_nat BSIZE -> m <> n -> block_at (write_image img (2 * n) d) m = block_at img m.
Proof.
  intros Hl Hne. unfold block_at, read_image. apply list_fmap_ext. intros i j Hj.
  apply list_elem_of_lookup_2, elem_of_seqZ in Hj. unfold write_image. rewrite Hl. assert (HB : BSIZE = 1024) by reflexivity.
  destruct (Z.leb_spec (512 * (2 * n)) (512 * (2 * m) + j)), (Z.ltb_spec (512 * (2 * m) + j) (512 * (2 * n) + Z.of_nat (Z.to_nat BSIZE))); cbn; try done; lia.
Qed.

Lemma flight_read_image n img : read_image img (2 * n) BSIZE = block_at img n.
Proof. done. Qed.

Lemma length_block_at img n : length (block_at img n) = Z.to_nat BSIZE.
Proof. unfold block_at, read_image. by rewrite length_fmap, length_seqZ. Qed.

Section DeviceInv.
Context (s : vdisk) (bs : list buf) (v : dview) (cs : list call) (aq uq sn : list Z) (Hv : vinv s bs v cs aq uq sn).

Lemma vinv_fetch h :
  dv_seen v <> vd_avail_idx s -> znth (vd_avail s) (dv_seen v mod NUM) = Some h ->
  exists aq', vinv s bs (mkDview (u16 (dv_seen v + 1)) (dv_busy v ++ [h]) (dv_image v)) cs aq' uq sn.
Proof.
  intros Hne Hh. pose proof Hv as [H1 H2 H3 H4 H5 H6 H7 H8 H9 H10 H11 H12 H13 H14 H15 H16].
  pose proof (parts_length _ _ _ _ _ _ _ Hv). pose proof (queue_empty _ _ _ _ H11 ltac:(lia)) as He. destruct aq as [|i aq'].
  { apply Z.eqb_eq in He. done. }
  destruct (queue_pop _ _ _ _ _ H11 H2) as [Hi Hq]. assert (i = h) as -> by congruence.
  exists aq'. split; try done. rewrite H10. cbn. by rewrite <- app_assoc.
Qed.

(** A completion: the device has moved the data of the request of [c]. *)
Lemma vinv_complete id l1 l2 c x x' img' status :
  dv_busy v = l1 ++ id :: l2 -> c ∈ cs -> head c = Some id -> bs !! c_b c = Some x ->
  b_disk x' = b_disk x -> b_blockno x' = b_blockno x -> length (b_data x') = Z.to_nat BSIZE ->
  (status = VIRTIO_BLK_S_OK -> b_data x' = block_at img' (c_n c)) -> (c_write c = true -> b_data x' = b_data x) ->
  (forall n, n <> c_n c -> block_at img' n = block_at (dv_image v) n) ->
  vinv (complete id (Z.to_nat id) status s) (<[c_b c := x']> bs) (mkDview (dv_seen v) (l1 ++ l2) img') cs aq (uq ++ [id]) sn /\
  status_of (complete id (Z.to_nat id) status s) id = status.
Proof.
  intros Hbusy Hc Hh Hb Hx1 Hx2 Hxl Hx3 Hx4 Himg. pose proof (head_active _ _ Hh) as Hact.
  pose proof Hv as [H1 H2 H3 H4 H5 H6 H7 H8 H9 H10 H11 H12 H13 H14 H15 H16]. pose proof (parts_length _ _ _ _ _ _ _ Hv) as Hlen.
  pose proof (parts_nodup _ _ _ _ _ _ _ Hv) as Hnd. rewrite Hbusy in Hnd, Hlen, H10. rewrite length_app in Hlen. cbn [length] in Hlen.
  assert (Hid : id ∉ uq ++ sn) by (intros H; apply NoDup_app in Hnd as (_ & Hnd & _); apply (Hnd id); set_solver).
  assert (Hrange : 0 <= id < 8) by (apply (heads_range _ _ _ _ _ _ _ Hv), elem_of_heads; by exists c).
  assert (Hinfo : forall j, 0 <= j -> znth (vd_info (complete id (Z.to_nat id) status s)) j =
    if j =? id then (fun i => mkInfo (in_b i) status) <$> znth (vd_info s) j else znth (vd_info s) j).
  { intros j Hj. cbn. unfold znth. destruct (Z.leb_spec 0 j); [|lia]. destruct (Z.eqb_spec j id) as [->|Hne]; [apply list_lookup_alter_eq|].
    apply list_lookup_alter_ne. lia. }
  split; [|unfold status_of; rewrite Hinfo, Z.eqb_refl by lia; destruct (znth_is_Some (vd_info s) id) as [i ->]; [lia|done]].
  split; try done.
  - cbn. by rewrite length_zupd.
  - cbn. by rewrite length_alter.
  - rewrite H10, <- (Permutation_middle l1 l2 id), <- (app_assoc uq [id] sn). cbn [dv_busy app]. rewrite !app_assoc. apply Permutation_middle.
  - apply queue_push; try done; lia.
  - intros d Hd Ha. destruct (call_dist _ _ _ _ _ _ _ c d Hv Hc Hd Hact Ha) as [->|[Hne _]].
    + destruct (H13 c Hc Hact) as (y & Hy & E1 & E2 & E3 & E4). assert (y = x) as -> by congruence. exists x'. split; [by eapply lookup_insert_Some_eq|].
      split; [by rewrite Hx2|]. split; [done|]. split; [done|]. intros Hwr. rewrite Hx4 by done. by apply E4.
    + rewrite list_lookup_insert_ne by done. by apply H13.
  - intros d j0 Hd Hhd. destruct (H15 d j0 Hd Hhd) as (y & st & F).
    assert (Hj0 : 0 <= j0) by (apply (heads_range _ _ _ _ _ _ _ Hv), elem_of_heads; by exists d).
    destruct (call_dist _ _ _ _ _ _ _ c d Hv Hc Hd Hact (head_active _ _ Hhd)) as [->|[Hne Hn]].
    + rewrite Hh in Hhd. injection Hhd as <-. exists x', status. destruct F. assert (y = x) as -> by congruence. split; try done.
      * by eapply lookup_insert_Some_eq.
      * rewrite Hinfo, Z.eqb_refl, fl_info0 by done. done.
      * by rewrite Hx1.
      * intros [H|[_ H]]; [set_solver|by apply Hx3].
    + assert (Hj : j0 <> id).
      { intros ->. destruct (H15 c id Hc Hh) as (y' & st' & F'). pose proof (fl_info _ _ _ _ _ _ _ _ _ F). rewrite (fl_info _ _ _ _ _ _ _ _ _ F') in *. congruence. }
      exists y, st. destruct F. split; try done.
      * by rewrite list_lookup_insert_ne.
      * rewrite Hinfo by done. by destruct (Z.eqb_spec j0 id).
      * intros H. cbn [dv_image]. rewrite Himg by done. apply fl_data0. set_solver.
Qed.

Lemma block_outside n m img img' : same_outside (2 * n) img img' -> m <> n -> block_at img' m = block_at img m.
Proof.
  intros Hs Hne. apply list_fmap_ext. intros _ j Hj%list_elem_of_lookup_2. apply elem_of_seqZ in Hj. apply Hs. change BSIZE with 1024 in *. lia.
Qed.

(** What a step of the device does to the block [n]: nothing, or it stores the data of a
    write in flight, or it reports that such a write has failed. *)
Definition disk_change (cs : list call) (s' : vdisk) (img img' : Z -> Z) (n : Z) : Prop :=
  block_at img' n = block_at img n \/
  exists c i0, c ∈ cs /\ head c = Some i0 /\ c_write c = true /\ c_n c = n /\ (block_at img' n = c_data c \/ reports_error s' i0).

Lemma vinv_dev s' bs' v' : virtio_step s bs v s' bs' v' ->
  (exists aq' uq', vinv s' bs' v' cs aq' uq' sn) /\ forall n, disk_change cs s' (dv_image v) (dv_image v') n.
Proof.
  intros Hs.
  assert (Hbusy : forall id l1 l2 r, dv_busy v = l1 ++ id :: l2 -> request_at s id = Some r -> exists c x, c ∈ cs /\ head c = Some id /\ bs !! c_b c = Some x /\
    r = mkRequest (if c_write c then VIRTIO_BLK_T_OUT else VIRTIO_BLK_T_IN) (2 * c_n c) (Z.to_nat id) (c_b c) (Z.to_nat id) /\
    length (b_data x) = Z.to_nat BSIZE /\ (c_write c = true -> b_data x = c_data c)).
  { intros id l1 l2 r E Hr. assert (Hi : id ∈ heads cs) by (rewrite (iv_perm _ _ _ _ _ _ _ Hv), E; set_solver).
    apply elem_of_heads in Hi as (c & Hc & Hh). destruct (iv_flight _ _ _ _ _ _ _ Hv c id Hc Hh) as (x & st & F).
    destruct (iv_call _ _ _ _ _ _ _ Hv c Hc (head_active _ _ Hh)) as (x0 & Hx0 & _ & _ & Hlen & Hw). exists c, x0. rewrite (fl_req _ _ _ _ _ _ _ _ _ F) in Hr. by injection Hr as <-. }
  destruct Hs as [h Hne Hh|id l1 l2 r x E Hr Ht Hb|id l1 l2 r x E Hr Ht Hb|id l1 l2 r x d st E Hr Ht Hb Hd Hst _|id l1 l2 r x img st E Hr Ht Hb Him Hst _|id s' bs' v' Hi Hn].
  - destruct (vinv_fetch h Hne Hh) as [aq' H]. split; [by exists aq', uq|by left].
  - destruct (Hbusy id l1 l2 r E Hr) as (c & y & Hc & Hh & Hy & -> & Hlen & Hw). cbn in Ht, Hb |- *. split; [|by left].
    exists aq, (uq ++ [id]). apply (vinv_complete id l1 l2 c x); try done; by destruct (c_write c).
  - destruct (Hbusy id l1 l2 r E Hr) as (c & y & Hc & Hh & Hy & -> & Hlen & Hw). cbn in Ht, Hb |- *. assert (y = x) as -> by congruence.
    assert (Hwr : c_write c = true) by (by destruct (c_write c)). split.
    + exists aq, (uq ++ [id]). rewrite <- (list_insert_id bs (c_b c) x Hb). apply (vinv_complete id l1 l2 c x x); try done; [by rewrite block_write_eq|].
      intros n Hn. by apply block_write_ne.
    + intros n. destruct (Z.eq_dec n (c_n c)) as [->|Hne]; [|left; by apply block_write_ne]. right. exists c, id. rewrite block_write_eq, Hw by done. auto 10.
  - destruct (Hbusy id l1 l2 r E Hr) as (c & y & Hc & Hh & Hy & -> & Hlen & Hw). cbn in Ht, Hb |- *. split; [|by left].
    exists aq, (uq ++ [id]). apply (vinv_complete id l1 l2 c x); try done. by destruct (c_write c).
  - destruct (Hbusy id l1 l2 r E Hr) as (c & y & Hc & Hh & Hy & -> & Hlen & Hw). cbn in Ht, Hb, Him |- *. assert (y = x) as -> by congruence.
    assert (Hwr : c_write c = true) by (by destruct (c_write c)).
    destruct (vinv_complete id l1 l2 c x x img st) as [Hv' Hs']; try done; [intros n Hn; by eapply block_outside|]. rewrite (list_insert_id bs (c_b c) x Hb) in Hv'.
    split; [by exists aq, (uq ++ [id])|]. intros n. destruct (Z.eq_dec n (c_n c)) as [->|Hne]; [|left; by eapply block_outside].
    right. exists c, id. split_and!; try done. right. split; [|by rewrite Hs']. rewrite (vinv_unseen _ _ _ _ _ _ _ Hv'). set_solver.
  - apply list_elem_of_split in Hi as (l1 & l2 & E). assert (Hi : id ∈ heads cs) by (rewrite (iv_perm _ _ _ _ _ _ _ Hv), E; set_solver).
    apply elem_of_heads in Hi as (c & Hc & Hh). destruct (iv_flight _ _ _ _ _ _ _ Hv c id Hc Hh) as (x & st & F). rewrite (fl_req _ _ _ _ _ _ _ _ _ F) in Hn. done.
Qed.

End DeviceInv.

(** ** The driver's code under the invariant *)

Section Code.
Context {D : Type} `{VD : VirtioDevice D}.

(** Reports of success only. *)
Definition good (s : vdisk) (uq : list Z) : Prop := Forall (fun id => status_of s id = VIRTIO_BLK_S_OK) uq.
#[local] Instance good_dec s uq : Decision (good s uq) := Forall_dec _ uq.

Lemma intr_loop_ok uq : forall fuel th s bs (d : D) cs aq sn,
  vinv s bs (dev_view d) (wake (th_woken th) <$> cs) aq uq sn -> (length uq <= fuel)%nat ->
  if decide (good s uq)
  then exists th' s' bs' sn', intr_loop fuel th (mkVio s bs d) = Ok tt th' (mkVio s' bs' d) /\ same_thread th th' /\
    vinv s' bs' (dev_view d) (wake (th_woken th') <$> cs) aq [] sn'
  else intr_loop fuel th (mkVio s bs d) = Panic "virtio_disk_intr status".
Proof.
  induction uq as [|id uq IH]; intros fuel th s bs d cs aq sn Hv Hf.
  { rewrite decide_True by constructor. exists th, s, bs, sn. split; [|done]. pose proof (queue_empty _ _ _ _ (iv_uq _ _ _ _ _ _ _ Hv) ltac:(cbn; lia)) as E.
    destruct fuel; cbn [intr_loop]; unfold bind at 1, gets; cbn [vi_disk]; by rewrite E. }
  destruct fuel as [|fuel]; [cbn in Hf; lia|]. pose proof (parts_length _ _ _ _ _ _ _ Hv) as Hlen. cbn [length] in Hlen.
  pose proof (queue_empty _ _ _ _ (iv_uq _ _ _ _ _ _ _ Hv) ltac:(cbn; lia)) as E.
  destruct (queue_pop _ _ _ _ _ (iv_uq _ _ _ _ _ _ _ Hv) (iv_used _ _ _ _ _ _ _ Hv)) as [Hid _].
  assert (Hin : id ∈ heads (wake (th_woken th) <$> cs)) by (rewrite (iv_perm _ _ _ _ _ _ _ Hv); set_solver).
  pose proof (heads_range _ _ _ _ _ _ _ Hv id Hin) as Hr. apply elem_of_heads in Hin as (c & Hc & Hh).
  destruct (iv_flight _ _ _ _ _ _ _ Hv c id Hc Hh) as (x & st & F).
  assert (Hst : status_of s id = st) by (unfold status_of; by rewrite (fl_info _ _ _ _ _ _ _ _ _ F)).
  destruct (Z.eq_dec st VIRTIO_BLK_S_OK) as [->|Hbad].
  2:{ rewrite decide_False by (intros [H _]%Forall_cons; congruence). cbn [intr_loop]. erewrite bind_ok by reflexivity. cbn [vi_disk]. rewrite E, Hid.
      erewrite bind_ok by reflexivity. rewrite i32_id by lia. rewrite (fl_info _ _ _ _ _ _ _ _ _ F). erewrite bind_ok by reflexivity. cbn [in_status].
      unfold ctrue. by rewrite (proj2 (Z.eqb_neq st 0)). }
  set (th1 := woke (ChBufDisk (c_b c)) th). set (s1 := set_seen (u16 (vd_seen s + 1)) s). set (bs1 := <[c_b c := with_bdisk 0 x]> bs).
  assert (Hstep : intr_loop (S fuel) th (mkVio s bs d) = intr_loop fuel th1 (mkVio s1 bs1 d)).
  { cbn [intr_loop]. erewrite bind_ok by reflexivity. cbn [vi_disk]. rewrite E, Hid. erewrite bind_ok by reflexivity. rewrite i32_id by lia.
    rewrite (fl_info _ _ _ _ _ _ _ _ _ F). do 3 (erewrite bind_ok by reflexivity). cbn [in_b].
    rewrite (bind_ok _ _ _ _ _ _ _ (vbuf_upd_ok _ _ _ _ _ _ _ (fl_buf _ _ _ _ _ _ _ _ _ F))). done. }
  assert (Hv1 : vinv s1 bs1 (dev_view d) (wake (th_woken th1) <$> cs) aq uq (id :: sn)).
  { apply list_elem_of_fmap in Hc as (c0 & E0 & Hc0). assert (Eb : c_b (wake (th_woken th1) c0) = c_b c) by (by rewrite E0, !wake_b).
    unfold bs1. rewrite <- Eb. apply vinv_seen; rewrite ?Eb.
    - by eapply vinv_relaxed; [apply wake_Forall2|].
    - by apply list_elem_of_fmap_2.
    - unfold th1. cbn [woke th_woken]. by rewrite (rl_head _ _ (wake_more _ _ _)), <- E0.
    - apply F.
    - intros i. apply wake_woken. rewrite <- (wake_b (th_woken th1)), Eb. cbn. set_solver.
    - done. }
  pose proof (IH fuel th1 s1 bs1 d cs aq (id :: sn) Hv1 ltac:(cbn in Hf; lia)) as IH1. change (good s1 uq) with (good s uq) in IH1.
  destruct (decide (good s uq)) as [Hg|Hg]; [|rewrite decide_False by (by intros [_ H]%Forall_cons); by rewrite Hstep].
  rewrite decide_True by (by constructor). destruct IH1 as (th' & s' & bs' & sn' & E' & Hth & Hv').
  exists th', s', bs', sn'. rewrite Hstep. split; [done|]. split; [|done]. etransitivity; [apply (same_thread_woke (ChBufDisk (c_b c)))|done].
Qed.

Lemma wake_nil (cs : list call) : wake [] <$> cs = cs.
Proof. rewrite <- (list_fmap_id cs) at 2. apply list_fmap_ext. intros _ c _. unfold wake. by destruct (c_st c). Qed.

Lemma virtio_disk_intr_ok s bs (d : D) cs aq uq sn :
  vinv s bs (dev_view d) cs aq uq sn ->
  if decide (good s uq)
  then exists th' s' bs' d' sn', virtio_disk_intr idle (mkVio s bs d) = Ok tt th' (mkVio s' bs' d') /\
    vinv s' bs' (dev_view d') (wake (th_woken th') <$> cs) aq [] sn'
  else virtio_disk_intr idle (mkVio s bs d) = Panic "virtio_disk_intr status".
Proof.
  intros Hv. unfold virtio_disk_intr. rewrite (bind_ok _ _ _ _ _ _ _ (acquire_ok LkVdisk idle _ ltac:(apply not_elem_of_nil))).
  set (th1 := set_held _ idle). destruct (mmio_read_ok VIRTIO_MMIO_INTERRUPT_STATUS th1 d) as (st & d1 & E1 & V1).
  rewrite (bind_ok _ _ _ _ _ _ _ (zoom_ok vdev_lens _ _ (mkVio s bs d) _ _ _ E1)).
  destruct (mmio_write_ok VIRTIO_MMIO_INTERRUPT_ACK (Z.land st 3) th1 d1) as (d2 & E2 & V2); [by right|].
  rewrite (bind_ok _ _ _ _ _ _ _ (zoom_ok vdev_lens _ _ (mkVio s bs d1) _ _ _ E2)). cbn [over vdev_lens vi_disk vi_bufs].
  rewrite (bind_ok (gets vi_disk) _ th1 (mkVio s bs d2) s th1 (mkVio s bs d2) eq_refl). pose proof (parts_length _ _ _ _ _ _ _ Hv).
  rewrite (queue_length _ _ _ _ (iv_uq _ _ _ _ _ _ _ Hv)) by lia. rewrite Nat2Z.id.
  pose proof (intr_loop_ok uq (length uq) th1 s bs d2 cs aq sn ltac:(rewrite V2, V1; unfold th1; cbn; by rewrite wake_nil) ltac:(done)) as Hl.
  destruct (decide (good s uq)) as [Hg|Hg]; [|exact (bind_panic _ _ _ _ _ Hl)]. destruct Hl as (th' & s' & bs' & sn' & E & Hth & Hv').
  rewrite (bind_ok _ _ _ _ _ _ _ E). exists (set_held [] th'), s', bs', d2, sn'. split; [|done].
  apply (release_ok LkVdisk [] th'); [apply Hth|apply not_elem_of_nil].
Qed.

(** A call goes to sleep. *)
Lemma vinv_sleep s bs v cs aq uq sn k c st : let c' := with_st st c in
  vinv s bs v cs aq uq sn -> cs !! k = Some c -> head c' = head c -> active c' = active c ->
  (st = AsleepFree -> (nfree (vd_free s) < 3)%nat) -> (forall i, st = AsleepBuf i -> i ∉ sn) ->
  vinv s bs v (<[k := c']> cs) aq uq sn.
Proof.
  intros c' Hv Hk Hh Ha Hn Hs.
  assert (Eh : heads (<[k := c']> cs) = heads cs).
  { rewrite insert_take_drop by (by eapply lookup_lt_Some). rewrite <- (take_drop_middle cs k c Hk) at 3. unfold heads. rewrite !omap_app. cbn.
    by rewrite Hh. }
  assert (Ec : chains s (<[k := c']> cs) = chains s cs) by (unfold chains; by rewrite Eh).
  assert (Hel : forall j d, <[k := c']> cs !! j = Some d -> exists d0, cs !! j = Some d0 /\ c_b d = c_b d0 /\ c_write d = c_write d0 /\ c_n d = c_n d0 /\
    c_data d = c_data d0 /\ active d = active d0 /\ head d = head d0 /\ (d = d0 \/ c_st d = st)).
  { intros j d [(-> & <- & _)|[Hjk Hj]]%list_lookup_insert_Some; [exists c|exists d; split_and!; auto]. split_and!; try done. by right. }
  destruct Hv as [H1 H2 H3 H4 H5 H6 H7 H8 H9 H10 H11 H12 H13 H14 H15 H16]. split; rewrite ?Ec, ?Eh; try done.
  - intros d (j & Hj)%list_elem_of_lookup Hd. destruct (Hel j d Hj) as (d0 & Hd0 & -> & -> & -> & -> & E & _). apply H13; [by eapply list_elem_of_lookup_2|congruence].
  - intros j j' d d' Hj Hj' Hd Hd' Hne. destruct (Hel j d Hj) as (d0 & Hd0 & -> & _ & -> & _ & E & _), (Hel j' d' Hj') as (d0' & Hd0' & -> & _ & -> & _ & E' & _).
    apply (H14 j j'); congruence.
  - intros d j0 (j & Hj)%list_elem_of_lookup Hd. destruct (Hel j d Hj) as (d0 & Hd0 & Eb & Ew & En & _ & _ & E & Hst). rewrite E in Hd.
    destruct (H15 d0 j0 (list_elem_of_lookup_2 _ _ _ Hd0) Hd) as (x & y & F). exists x, y. destruct F. split; rewrite ?Eb, ?Ew, ?En; try done.
    intros Es. destruct Hst as [->|Es']; [by apply fl_asleep0|]. apply (Hs j0). congruence.
  - intros d (j & Hj)%list_elem_of_lookup Hd. destruct (Hel j d Hj) as (d0 & Hd0 & _ & _ & _ & _ & _ & _ & [->|Es]); [|apply Hn; congruence].
    by apply (H16 d0); [eapply list_elem_of_lookup_2|].
Qed.

Lemma virtio_disk_rw_ok s bs (d : D) cs aq uq sn k c :
  vinv s bs (dev_view d) cs aq uq sn -> cs !! k = Some c -> c_st c = Runnable ->
  exists r th' s' bs' d' aq', virtio_disk_rw (c_b c) (c_write c) idle (mkVio s bs d) = Ok r th' (mkVio s' bs' d') /\
    vinv s' bs' (dev_view d') (<[k := after r c]> (wake (th_woken th') <$> cs)) aq' uq sn.
Proof.
  intros Hv Hk Hst. assert (Hact : active c = true) by (unfold active; by rewrite Hst).
  destruct (iv_call _ _ _ _ _ _ _ Hv c (list_elem_of_lookup_2 _ _ _ Hk) Hact) as (x & Hx & Hn & Hr & _).
  unfold virtio_disk_rw. rewrite (bind_ok _ _ _ _ _ _ _ (vbuf_ok _ _ _ _ _ _ Hx)), Hn. change (BSIZE / 512) with 2. rewrite u32_id by lia.
  rewrite (bind_ok _ _ _ _ _ _ _ (acquire_ok LkVdisk idle _ ltac:(apply not_elem_of_nil))). set (th1 := set_held _ idle).
  destruct (alloc3_desc_ok th1 s (iv_frees _ _ _ _ _ _ _ Hv) (vinv_flags01 _ _ _ _ _ _ _ Hv)) as [(Hlow & th2 & s2 & E & [Hth Hwk] & Hs)|(i0 & i1 & i2 & Ha & E)].
  - rewrite (bind_ok _ _ _ _ _ _ _ (zoom_ok vdisk_lens _ _ (mkVio s bs d) _ _ _ E)).
    rewrite (bind_ok _ _ _ _ _ _ _ (release_ok LkVdisk [] th2 _ ltac:(apply Hth) ltac:(apply not_elem_of_nil))).
    exists VAsleepFree, (set_held [] th2), s2, bs, d, aq. split; [done|].
    apply (vinv_sleep _ _ _ _ _ _ _ k c AsleepFree); try (unfold head, active; by rewrite Hst).
    + eapply vinv_relaxed; [|by eapply vinv_scrubbed]. apply Forall2_fmap_r, Forall_Forall2_diag, Forall_forall. intros d0 _. apply wake_relaxed.
    + rewrite list_lookup_fmap, Hk. cbn. f_equal. unfold wake. by rewrite Hst.
    + intros _. by destruct Hs as (dd & -> & _).
    + done.
  - rewrite (bind_ok _ _ _ _ _ _ _ (zoom_ok vdisk_lens _ _ (mkVio s bs d) _ _ _ E)).
    destruct (rw_submit_ok (c_b c) (c_write c) (c_n c * 2) i0 i1 i2 th1 (taken [i0; i1; i2] s) bs d x Hx) as (d' & V & Es).
    { cbn. rewrite (iv_info _ _ _ _ _ _ _ Hv). apply Ha. set_solver. }
    cbn [over vdisk_lens vi_bufs vi_dev]. rewrite (bind_ok _ _ _ _ _ _ _ Es). rewrite (Z.mul_comm (c_n c)) in *.
    unfold rw_wait. rewrite (bind_ok _ _ _ _ _ _ _ (vbuf_ok _ (with_bdisk 1 x) _ _ _ _ ltac:(by eapply lookup_insert_Some_eq))). cbn [b_disk with_bdisk Z.eqb Pos.eqb].
    rewrite (bind_ok _ _ _ _ _ _ _ (release_ok LkVdisk [] th1 _ eq_refl ltac:(apply not_elem_of_nil))).
    eexists (VAsleepBuf i0), _, _, _, d', (aq ++ [i0]). split; [done|]. cbn [th_woken set_held th1 idle]. rewrite wake_nil, V.
    by apply vinv_submit.
Qed.

Lemma virtio_disk_rw_resume_ok s bs (d : D) cs aq uq sn k c i0 :
  vinv s bs (dev_view d) cs aq uq sn -> cs !! k = Some c -> c_st c = Woken i0 ->
  exists r th' s' sn', virtio_disk_rw_resume (c_b c) i0 idle (mkVio s bs d) = Ok r th' (mkVio s' bs d) /\
    vinv s' bs (dev_view d) (<[k := after r c]> (wake (th_woken th') <$> cs)) aq uq sn' /\
    (r = VDone -> exists x, bs !! c_b c = Some x /\ b_data x = block_at (dv_image (dev_view d)) (c_n c) /\ (c_write c = true -> b_data x = c_data c)).
Proof.
  intros Hv Hk Hst. pose proof (list_elem_of_lookup_2 _ _ _ Hk) as Hc. assert (Hh : head c = Some i0) by (unfold head; by rewrite Hst).
  destruct (iv_flight _ _ _ _ _ _ _ Hv c i0 Hc Hh) as (x & st & F). unfold virtio_disk_rw_resume.
  rewrite (bind_ok _ _ _ _ _ _ _ (acquire_ok LkVdisk idle _ ltac:(apply not_elem_of_nil))). set (th1 := set_held _ idle). unfold rw_wait.
  rewrite (bind_ok _ _ _ _ _ _ _ (vbuf_ok _ _ _ _ _ _ (fl_buf _ _ _ _ _ _ _ _ _ F))). rewrite (fl_disk _ _ _ _ _ _ _ _ _ F).
  destruct (decide (i0 ∈ sn)) as [Hsn|Hsn].
  2:{ rewrite (bool_decide_false (i0 ∈ sn)) by done. change (1 =? 1) with true. cbn iota.
    rewrite (bind_ok _ _ _ _ _ _ _ (release_ok LkVdisk [] th1 _ eq_refl ltac:(apply not_elem_of_nil))).
    eexists (VAsleepBuf i0), _, s, sn. split; [done|]. split; [|done]. cbn [th_woken set_held th1 idle]. rewrite wake_nil.
    apply (vinv_sleep _ _ _ _ _ _ _ k c (AsleepBuf i0)); try done; [unfold active; by rewrite Hst|]. by intros i [= <-]. }
  rewrite bool_decide_true by done. change (0 =? 1) with false. cbn iota. pose proof (fl_req _ _ _ _ _ _ _ _ _ F) as Hreq.
  apply request_at_Some in Hreq as (d0 & d1 & d2 & op & R). pose proof (req_mem_chain _ _ _ _ _ _ _ R) as Hch.
  assert (Hin : forall i, i ∈ chain s i0 -> i ∈ chains s cs) by (intros i Hi; eapply in_chains; [|done]; apply elem_of_heads; by exists c).
  set (s1 := set_info (zupd (vd_info s) i0 (mkInfo None (default 0 (in_status <$> znth (vd_info s) i0)))) s).
  erewrite bind_ok; [|by apply (dk_modify _ s1)].
  assert (R1 : req_mem s1 i0 (mkRequest (if c_write c then VIRTIO_BLK_T_OUT else VIRTIO_BLK_T_IN) (2 * c_n c) (Z.to_nat i0) (c_b c) (Z.to_nat i0)) d0 d1 d2 op) by (destruct R; by split).
  destruct (free_chain_ok s1 i0 _ d0 d1 d2 op th1 R1) as (th2 & [Hth _] & Hfree & E).
  { apply (chain_nodup s cs); [apply Hv|]. apply elem_of_heads. by exists c. }
  { intros i Hi. split; [by apply (iv_range _ _ _ _ _ _ _ Hv), Hin|by apply (vinv_used_flag _ _ _ _ _ _ _ _ Hv), Hin]. }
  unfold dk. rewrite (bind_ok _ _ _ _ _ _ _ (zoom_ok vdisk_lens _ _ (mkVio s1 bs d) _ _ _ E)).
  rewrite (bind_ok _ _ _ _ _ _ _ (release_ok LkVdisk [] th2 _ ltac:(apply Hth) ltac:(apply not_elem_of_nil))).
  apply list_elem_of_split in Hsn as (l1 & l2 & ->).
  eexists VDone, _, _, (l1 ++ l2). split; [done|]. split.
  - cbn [over vdisk_lens after set_held th_woken]. apply (vinv_finish s bs (dev_view d) (wake (th_woken th2) <$> cs) aq uq l1 l2 k c i0 (d_next d0) (d_next d1)); try done.
    + eapply vinv_relaxed; [|done]. apply Forall2_fmap_r, Forall_Forall2_diag, Forall_forall. intros d' _. apply wake_relaxed.
    + rewrite list_lookup_fmap, Hk. cbn. f_equal. unfold wake. by rewrite Hst.
    + intros d' (d'' & -> & _)%list_elem_of_fmap. unfold wake. destruct (c_st d'') eqn:Es; rewrite ?Es; try done; [by rewrite bool_decide_true|]. destruct (bool_decide _); by rewrite ?Es.
  - intros _. exists x. split; [apply F|]. split; [apply (fl_data _ _ _ _ _ _ _ _ _ F); set_solver|].
    destruct (iv_call _ _ _ _ _ _ _ Hv c Hc (head_active _ _ Hh)) as (y & Hy & _ & _ & _ & Hw). rewrite (fl_buf _ _ _ _ _ _ _ _ _ F) in Hy. by injection Hy as <-.
Qed.

(** ** All interleavings *)

Definition vsys_inv (y : vsys D) : Prop := exists aq uq sn,
  vinv (vi_disk (vs_io y)) (vi_bufs (vs_io y)) (dev_view (vi_dev (vs_io y))) (vs_calls y) aq uq sn.

Lemma vsys_inv_init y : vinit y -> vsys_inv y.
Proof.
  intros (info & ops & bs & d & -> & Hi & Ho & Hs & Hb). exists [], [], [].
  split; try done; cbn; try (by intros c ?%not_elem_of_nil).
  - intros i Hi'. unfold znth. destruct (Z.leb_spec 0 i); [|lia]. apply (lookup_replicate_2 8 1). lia.
  - constructor.
  - by rewrite Hb.
  - rewrite Hs. by split.
  - by intros c i0 ?%not_elem_of_nil.
Qed.

Lemma vinv_call s bs v cs aq uq sn b write x :
  vinv s bs v cs aq uq sn -> bs !! b = Some x -> may_call b x cs ->
  vinv s bs v (cs ++ [mkCall b write (b_blockno x) (b_data x) Runnable]) aq uq sn.
Proof.
  intros Hv Hx (Hr & Hl & Hd). set (c := mkCall _ _ _ _ _).
  assert (Eh : heads (cs ++ [c]) = heads cs) by (unfold heads; rewrite omap_app; apply app_nil_r).
  assert (Ec : chains s (cs ++ [c]) = chains s cs) by (unfold chains; by rewrite Eh).
  destruct Hv as [H1 H2 H3 H4 H5 H6 H7 H8 H9 H10 H11 H12 H13 H14 H15 H16]. split; rewrite ?Ec, ?Eh; try done.
  - intros d [Hin| ->%list_elem_of_singleton]%elem_of_app Ha; [by apply H13|]. by exists x.
  - intros k k' d d' Hk Hk' Ha Ha' Hne. apply lookup_app_Some in Hk as [Hk|[Hk1 Hk]]; apply lookup_app_Some in Hk' as [Hk'|[Hk1' Hk']].
    + by apply (H14 k k').
    + apply list_lookup_singleton_Some in Hk' as [_ <-]. apply (Hd d); [by eapply list_elem_of_lookup_2|done].
    + apply list_lookup_singleton_Some in Hk as [_ <-]. destruct (Hd d') as [E1 E2]; [by eapply list_elem_of_lookup_2|done|]. by split; intros E; [apply E1|apply E2].
    + apply list_lookup_singleton_Some in Hk as [? _], Hk' as [? _]. lia.
  - intros d j0 [Hin| ->%list_elem_of_singleton]%elem_of_app Hh; [by apply H15|done].
  - intros d [Hin| ->%list_elem_of_singleton]%elem_of_app Hs; [by apply (H16 d)|done].
Qed.

(** The holder of a buffer changes it while no call uses it. *)
Lemma vinv_buf s bs v cs aq uq sn b x :
  vinv s bs v cs aq uq sn -> (forall c, c ∈ cs -> active c = true -> c_b c <> b) -> vinv s (<[b := x]> bs) v cs aq uq sn.
Proof.
  intros Hv Hb. destruct Hv as [H1 H2 H3 H4 H5 H6 H7 H8 H9 H10 H11 H12 H13 H14 H15 H16]. split; try done.
  - intros c Hc Ha. rewrite list_lookup_insert_ne by (by apply not_eq_sym, Hb). by apply H13.
  - intros c i0 Hc Hh. destruct (H15 c i0 Hc Hh) as (y & st & F). exists y, st. destruct F. split; try done.
    rewrite list_lookup_insert_ne; [done|]. by apply not_eq_sym, Hb; [|eapply head_active].
Qed.

Lemma vsys_inv_step y y' : vsys_inv y -> vstep y y' -> vsys_inv y'.
Proof.
  intros (aq & uq & sn & Hv) Hs. destruct y as [[s bs d] cs]. cbn [vs_io vs_calls vi_disk vi_bufs vi_dev] in *.
  destruct Hs as [b write x Hx Hm|k c r th io Hk Hst E|k c i0 r th io Hk Hst E|th io E|k c i0 Hk Hst|k c Hk Hst|s' bs' d' Hd|b x' Hb];
    cbn [vs_io vs_calls vi_disk vi_bufs vi_dev] in *.
  - exists aq, uq, sn. by apply vinv_call.
  - destruct (virtio_disk_rw_ok s bs d cs aq uq sn k c Hv Hk Hst) as (r' & th' & s' & bs' & d' & aq' & E' & Hv'). rewrite E in E'. injection E' as <- <- ->. by exists aq', uq, sn.
  - destruct (virtio_disk_rw_resume_ok s bs d cs aq uq sn k c i0 Hv Hk Hst) as (r' & th' & s' & sn' & E' & Hv' & _). rewrite E in E'. injection E' as <- <- ->. by exists aq, uq, sn'.
  - pose proof (virtio_disk_intr_ok s bs d cs aq uq sn Hv) as Hi. destruct (decide (good s uq)) as [_|_]; [|congruence].
    destruct Hi as (th' & s' & bs' & d' & sn' & E' & Hv'). rewrite E in E'. injection E' as <- ->. by exists aq, [], sn'.
  - exists aq, uq, sn. apply (vinv_sleep _ _ _ _ _ _ _ k c (Woken i0)); try done; unfold head, active; by rewrite Hst.
  - exists aq, uq, sn. apply (vinv_sleep _ _ _ _ _ _ _ k c Runnable); try done; unfold head, active; by rewrite Hst.
  - destruct (vinv_dev s bs (dev_view d) cs aq uq sn Hv s' bs' (dev_view d')) as [(aq' & uq' & Hv') _]; [by apply dev_conforms|]. by exists aq', uq', sn.
  - exists aq, uq, sn. by apply vinv_buf.
Qed.

Lemma vreachable_inv y : vreachable y -> vsys_inv y.
Proof. intros (y0 & Hi & Hr). eapply rtc_invariant; [apply vsys_inv_step|by apply vsys_inv_init|done]. Qed.



Lemma nfree_all l : Forall (fun x => x = 1) l -> nfree l = length l.
Proof. induction 1 as [|x l -> _ IH]; [done|]. cbn. by rewrite IH. Qed.

(** The requests that are on their way: published and not fetched, with the device, or
    reported and not seen by the driver. *)
Definition outstanding (s : vdisk) (v : dview) : list Z :=
  dv_busy v ++ Ring.content NUM (vd_avail s) (dv_seen v) (Z.to_nat (u16 (vd_avail_idx s - dv_seen v))) ++ unseen s.

(** C27: nobody sleeps for ever.  A process asleep on its buffer has [b->disk] set and its
    request is still on its way to the device or back, so an interrupt is to come that
    wakes it, or stops the kernel if the device reports an error; a process asleep for descriptors finds fewer than three of them free, and some
    request is in flight whose end frees three and wakes it. *)
Theorem virtio_no_lost_wakeup y c : vreachable y -> c ∈ vs_calls y ->
  (forall i0, c_st c = AsleepBuf i0 -> i0 ∈ outstanding (vi_disk (vs_io y)) (dev_view (vi_dev (vs_io y))) /\
     exists x, vi_bufs (vs_io y) !! c_b c = Some x /\ b_disk x = 1) /\
  (c_st c = AsleepFree -> (nfree (vd_free (vi_disk (vs_io y))) < 3)%nat /\ exists c' i0, c' ∈ vs_calls y /\ head c' = Some i0).
Proof.
  intros (aq & uq & sn & Hv)%vreachable_inv Hc. pose proof (parts_length _ _ _ _ _ _ _ Hv) as Hlen. split.
  - intros i0 Hst. assert (Hh : head c = Some i0) by (unfold head; by rewrite Hst).
    destruct (iv_flight _ _ _ _ _ _ _ Hv c i0 Hc Hh) as (x & st & F). pose proof (fl_asleep _ _ _ _ _ _ _ _ _ F Hst) as Hsn. split.
    + unfold outstanding. rewrite (queue_length _ _ _ _ (iv_aq _ _ _ _ _ _ _ Hv)), (vinv_unseen _ _ _ _ _ _ _ Hv) by lia.
      rewrite Nat2Z.id, (q_content _ _ _ _ (iv_aq _ _ _ _ _ _ _ Hv)).
      assert (Hin : i0 ∈ heads (vs_calls y)) by (apply elem_of_heads; by exists c). rewrite (iv_perm _ _ _ _ _ _ _ Hv) in Hin. set_solver.
    + exists x. split; [apply F|]. rewrite (fl_disk _ _ _ _ _ _ _ _ _ F). by rewrite bool_decide_false.
  - intros Hst. pose proof (iv_wait _ _ _ _ _ _ _ Hv c Hc Hst) as Hn. split; [done|]. destruct (heads (vs_calls y)) as [|i0 l] eqn:Eh.
    + exfalso. rewrite (nfree_all (vd_free _)) in Hn; [rewrite (iv_frees _ _ _ _ _ _ _ Hv) in Hn; lia|]. apply Forall_lookup. intros k z Hk.
      pose proof (lookup_lt_Some _ _ _ Hk) as Hlt. rewrite (iv_frees _ _ _ _ _ _ _ Hv) in Hlt. pose proof (iv_free _ _ _ _ _ _ _ Hv (Z.of_nat k) ltac:(lia)) as E.
      rewrite znth_of_nat, Hk in E. unfold chains in E. rewrite Eh in E. cbn in E. by injection E as ->.
    + assert (Hin : i0 ∈ heads (vs_calls y)) by (rewrite Eh; set_solver). apply elem_of_heads in Hin as (c' & Hc' & Hh). by exists c', i0.
Qed.
End Code.

(** ** A device of 2000 blocks that serves its requests in order

    A request beyond its end fails with [VIRTIO_BLK_S_IOERR]. *)

Definition VIRTIO_BLK_S_IOERR : Z := 1.

#[local] Instance demo_regs : VirtioRegs dview := {
  mmio_read := fun _ => ret 0;
  mmio_write := fun _ _ => ret tt;
}.

Definition demo_run (s : vdisk) (bs : list buf) (v : dview) : option (vdisk * list buf * dview) :=
  match dv_busy v with
  | id :: l =>
      r ← request_at s id;
      x ← bs !! r_buf r;
      Some (if negb (r_sector r <? 4000)
        then (complete id (r_status r) VIRTIO_BLK_S_IOERR s, bs, mkDview (dv_seen v) l (dv_image v))
        else if r_type r =? VIRTIO_BLK_T_IN
        then (complete id (r_status r) VIRTIO_BLK_S_OK s, <[r_buf r := with_data (read_image (dv_image v) (r_sector r) BSIZE) x]> bs, mkDview (dv_seen v) l (dv_image v))
        else (complete id (r_status r) VIRTIO_BLK_S_OK s, bs, mkDview (dv_seen v) l (write_image (dv_image v) (r_sector r) (b_data x))))
  | [] =>
      if dv_seen v =? vd_avail_idx s then None
      else (fun h => (s, bs, mkDview (u16 (dv_seen v + 1)) [h] (dv_image v))) <$> znth (vd_avail s) (dv_seen v mod NUM)
  end.

Lemma with_data_id x : with_data (b_data x) x = x.
Proof. by destruct x. Qed.

Lemma request_type s id r : request_at s id = Some r -> r_type r = VIRTIO_BLK_T_IN \/ r_type r = VIRTIO_BLK_T_OUT.
Proof.
  intros (d0 & d1 & d2 & op & R)%request_at_Some. rewrite (rm_type _ _ _ _ _ _ _ R). pose proof (rm_wf _ _ _ _ _ _ _ R) as W.
  unfold well_formed in W. apply andb_true_iff in W as [_ W]. apply orb_true_iff in W as [W|W]; apply andb_true_iff in W as [W%Z.eqb_eq _]; auto.
Qed.

Lemma demo_run_conforms s bs v s' bs' v' : Forall (fun x => length (b_data x) = Z.to_nat BSIZE) bs ->
  demo_run s bs v = Some (s', bs', v') -> virtio_step s bs v s' bs' v'.
Proof.
  intros Hbs. unfold demo_run. destruct (dv_busy v) as [|id l] eqn:E.
  - destruct (Z.eqb_spec (dv_seen v) (vd_avail_idx s)); [done|]. destruct (znth _ _) as [h|] eqn:Eh; [|done].
    intros [= <- <- <-]. replace [h] with (dv_busy v ++ [h]) by (by rewrite E). by apply vs_fetch.
  - destruct (request_at s id) as [r|] eqn:Er; [cbn|done]. destruct (bs !! r_buf r) as [x|] eqn:Ex; [cbn|done].
    destruct (r_sector r <? 4000); cbn [negb]; destruct (request_type _ _ _ Er) as [Et|Et]; rewrite ?Et; cbn; intros [= <- <- <-].
    + by apply (vs_read s bs v id [] l r x).
    + by apply (vs_write s bs v id [] l r x).
    + rewrite <- (list_insert_id bs (r_buf r) x Ex) at 2. rewrite <- (with_data_id x).
      apply (vs_read_error s bs v id [] l r x (b_data x)); try done. by apply (Forall_lookup_1 _ _ _ _ Hbs Ex).
    + by apply (vs_write_error s bs v id [] l r x (dv_image v)).
Qed.

#[local] Instance demo_device : VirtioDevice dview.
Proof.
  refine {| virtio_regs := demo_regs; dev_view := id; dev_step := fun s bs d s' bs' d' => Forall (fun x => length (b_data x) = Z.to_nat BSIZE) bs /\ demo_run s bs d = Some (s', bs', d') |}.
  - intros s bs d s' bs' d' [Hb H]. by apply demo_run_conforms.
  - intros r th d. by exists 0, d.
  - intros r x th d _. by exists d.
Defined.

Definition demo_data : block := replicate (Z.to_nat BSIZE) 7.
Definition demo_buf (n : Z) : buf := mkBuf 1 0 1 n initsleeplock 1 BHead BHead demo_data.
Definition demo_io (n : Z) : vio dview :=
  mkVio (fresh_vdisk (replicate 8 (mkInfo None 0)) (replicate 8 (mkReq 0 0 0))) [demo_buf n] (mkDview 0 [] (fun _ => 0)).
Definition demo_call (n : Z) (st : cstate) : call := mkCall 0 true n demo_data st.

(** The states after each step of a write: the request, its fetching and its completion by
    the device, and the interrupt. *)
Definition run_io {A} (o : outcome (vio dview) A) (io : vio dview) : vio dview := match o with Ok _ _ io' => io' | _ => io end.
Definition run_dev (io : vio dview) : vio dview :=
  match demo_run (vi_disk io) (vi_bufs io) (vi_dev io) with Some (s, bs, d) => mkVio s bs d | None => io end.
Definition demo_io1 : vio dview := Eval cbv -[demo_data] in run_io (virtio_disk_rw 0 true idle (demo_io 9)) (demo_io 9).
Definition demo_io2 : vio dview := Eval cbv -[demo_data write_image] in run_dev demo_io1.
Definition demo_io3 : vio dview := Eval cbv -[demo_data write_image] in run_dev demo_io2.
Definition demo_io4 : vio dview := Eval cbv -[demo_data write_image] in run_io (virtio_disk_intr idle demo_io3) demo_io3.
(** A write beyond the end of the device. *)
Definition demo_bad1 : vio dview := Eval cbv -[demo_data] in run_io (virtio_disk_rw 0 true idle (demo_io 5000)) (demo_io 5000).
Definition demo_bad2 : vio dview := Eval cbv -[demo_data write_image] in run_dev demo_bad1.
Definition demo_bad3 : vio dview := Eval cbv -[demo_data write_image] in run_dev demo_bad2.

Lemma demo_start n io : 0 <= n < 2 ^ 31 -> virtio_disk_rw 0 true idle (demo_io n) = Ok (VAsleepBuf 0) idle io -> vreachable (mkVsys io [demo_call n (AsleepBuf 0)]).
Proof.
  intros Hn E. exists (mkVsys (demo_io n) []). split; [by eexists _, _, _, _|]. eapply rtc_l; [apply (st_call (mkVsys (demo_io n) []) 0 true (demo_buf n)); [done|]|].
  { split; [exact Hn|]. split; [apply length_replicate|]. by intros c ?%not_elem_of_nil. }
  apply rtc_once. exact (st_start (mkVsys (demo_io n) [demo_call n Runnable]) 0 (demo_call n Runnable) (VAsleepBuf 0) idle io eq_refl eq_refl E).
Qed.

Lemma demo_asleep : vreachable (mkVsys demo_io1 [demo_call 9 (AsleepBuf 0)]).
Proof. by apply demo_start. Qed.

Lemma demo_dev io io' x cs : vi_bufs io = [x] -> b_data x = demo_data -> demo_run (vi_disk io) (vi_bufs io) (vi_dev io) = Some (vi_disk io', vi_bufs io', vi_dev io') ->
  vreachable (mkVsys io cs) -> vreachable (mkVsys io' cs).
Proof.
  intros Hb Hx E (y0 & Hi & Hr). exists y0. split; [done|]. eapply rtc_r; [exact Hr|]. destruct io' as [s bs d]. apply (st_dev (mkVsys io cs)). split; [|done].
  cbn. rewrite Hb. constructor; [|constructor]. rewrite Hx. apply length_replicate.
Qed.

Lemma demo_woken : vreachable (mkVsys demo_io4 [demo_call 9 (Woken 0)]).
Proof.
  assert (H : vreachable (mkVsys demo_io3 [demo_call 9 (AsleepBuf 0)])) by (eapply (demo_dev demo_io2), (demo_dev demo_io1), demo_asleep; done).
  destruct H as (y0 & Hi & Hr). exists y0. split; [done|]. eapply rtc_r; [exact Hr|].
  exact (st_intr (mkVsys demo_io3 [demo_call 9 (AsleepBuf 0)]) (mkThread [] 0 0 [ChBufDisk 0]) demo_io4 eq_refl).
Qed.

Lemma demo_failed : vreachable (mkVsys demo_bad3 [demo_call 5000 (AsleepBuf 0)]).
Proof. eapply (demo_dev demo_bad2), (demo_dev demo_bad1), demo_start; done. Qed.


Lemma virtio_no_lost_wakeup_witness : 0 ∈ outstanding (vi_disk demo_io1) (vi_dev demo_io1).
Proof.
  destruct (virtio_no_lost_wakeup (mkVsys demo_io1 [demo_call 9 (AsleepBuf 0)]) (demo_call 9 (AsleepBuf 0)) demo_asleep) as [H _]; [left|].
  destruct (H 0 eq_refl) as [H0 _]. exact H0.
Defined.
