(* ===== verification/Log.v ===== *)
(** * The log (kernel/log.c)

    The log component's state is [struct log] beside the buffer cache it uses, which
    enters through the interface of BlockCache.v.  The file has two parts: what
    [commit] writes to the disk, in which order, and what recovery makes of the disk
    after a crash between any two of those writes; and the protocol by which system
    calls share the log ([begin_op], [log_write], [end_op]). *)

From S2P Require Import Prelude Layout Bytes BlockCache.

Record log := mkLog {
  lg_start : Z;
  lg_size : Z;
  lg_outstanding : Z;
  lg_committing : Z;
  lg_dev : Z;
  lg_n : Z;               (* lh.n *)
  lg_block : list Z;      (* lh.block[LOGSIZE] *)
}.

Definition set_outstanding (v : Z) (l : log) : log :=
  mkLog (lg_start l) (lg_size l) v (lg_committing l) (lg_dev l) (lg_n l) (lg_block l).
Definition set_committing (v : Z) (l : log) : log :=
  mkLog (lg_start l) (lg_size l) (lg_outstanding l) v (lg_dev l) (lg_n l) (lg_block l).
Definition set_n (v : Z) (l : log) : log :=
  mkLog (lg_start l) (lg_size l) (lg_outstanding l) (lg_committing l) (lg_dev l) v (lg_block l).
Definition set_block (v : list Z) (l : log) : log :=
  mkLog (lg_start l) (lg_size l) (lg_outstanding l) (lg_committing l) (lg_dev l) (lg_n l) v.

Section Log.
Context {S : Type} `{BC : BlockCache S}.

(** The log runs beside the cache: [io] is a call into kernel/bio.c. *)
Definition lg_lens : lens (log * S) log := mkLens fst (fun l s => (l, snd s)).
Definition bc_lens : lens (log * S) S := mkLens snd (fun c s => (fst s, c)).
Notation io := (zoom bc_lens).
Notation lg := (zoom lg_lens).

(** [log.lh.block[i]]; out of range it is undefined behaviour. *)
Definition lh_block (i : Z) : M (log * S) Z :=
  let! l := lg get in deref "log.lh.block index" (znth (lg_block l) i).

(** [log.start + tail + 1], an [int] passed as a [uint]. *)
Definition log_blockno (l : log) (tail : Z) : Z := u32 (i32 (lg_start l + tail + 1)).

(** [for (tail = 0; tail < log.lh.n; tail++) body], the loop of [install_trans] and
    [write_log], from [tail] with [k] turns left. *)
Fixpoint for_tail (body : Z -> M (log * S) unit) (k : nat) (tail : Z) : M (log * S) unit :=
  match k with
  | O => ret tt
  | Datatypes.S k' => body tail;;; for_tail body k' (tail + 1)
  end.

Definition install_body (recovering : Z) (tail : Z) : M (log * S) unit :=
  let! l := lg get in
  let! lbuf := io (bread (lg_dev l) (log_blockno l tail)) in
  let! bn := lh_block tail in
  let! dbuf := io (bread (lg_dev l) (u32 bn)) in
  let! ldata := io (bdata lbuf) in
  io (set_bdata dbuf ldata);;;
  io (bwrite dbuf);;;
  when (recovering =? 0) (io (bunpin dbuf));;;
  io (brelse lbuf);;;
  io (brelse dbuf).

Definition install_trans (recovering : Z) : M (log * S) unit :=
  let! l := lg get in
  for_tail (install_body recovering) (Z.to_nat (lg_n l)) 0.

(** The copy loops between [log.lh] and the header block, from entry [i]. *)
Fixpoint head_in (k : nat) (i : Z) (d : block) (l : log) : option log :=
  match k with
  | O => Some l
  | Datatypes.S k' =>
      if i <? LOGSIZE
      then head_in k' (i + 1) d
             (set_block (zupd (lg_block l) i (i32 (get32 d (4 + 4 * Z.to_nat i)%nat))) l)
      else None
  end.

Fixpoint head_out (k : nat) (i : Z) (d : block) (l : log) : option block :=
  match k with
  | O => Some d
  | Datatypes.S k' =>
      bn ← znth (lg_block l) i;
      head_out k' (i + 1) (put32 d (4 + 4 * Z.to_nat i)%nat bn) l
  end.

Definition read_head : M (log * S) unit :=
  let! l := lg get in
  let! buf := io (bread (lg_dev l) (u32 (lg_start l))) in
  let! d := io (bdata buf) in
  let n := i32 (get32 d 0) in
  let! l' := deref "log.lh.block index" (head_in (Z.to_nat n) 0 d (set_n n l)) in
  lg (put l');;;
  io (brelse buf).

Definition write_head : M (log * S) unit :=
  let! l := lg get in
  let! buf := io (bread (lg_dev l) (u32 (lg_start l))) in
  let! d := io (bdata buf) in
  let! d' := deref "log.lh.block index"
    (head_out (Z.to_nat (lg_n l)) 0 (put32 d 0 (lg_n l)) l) in
  io (set_bdata buf d');;;
  io (bwrite buf);;;
  io (brelse buf).

Definition recover_from_log : M (log * S) unit :=
  read_head;;;
  install_trans 1;;;
  lg (modify (set_n 0));;;
  write_head.

(** The log component's part of the superblock. *)
Definition initlog (dev logstart nlog : Z) : M (log * S) unit :=
  when (4 + 4 * LOGSIZE >=? BSIZE) (panic "initlog: too big logheader");;;
  lg (modify (fun l => mkLog (i32 logstart) (i32 nlog) (lg_outstanding l) (lg_committing l) dev
                         (lg_n l) (lg_block l)));;;
  recover_from_log.

Definition write_log_body (tail : Z) : M (log * S) unit :=
  let! l := lg get in
  let! to := io (bread (lg_dev l) (log_blockno l tail)) in
  let! bn := lh_block tail in
  let! from := io (bread (lg_dev l) (u32 bn)) in
  let! fdata := io (bdata from) in
  io (set_bdata to fdata);;;
  io (bwrite to);;;
  io (brelse from);;;
  io (brelse to).

Definition write_log : M (log * S) unit :=
  let! l := lg get in
  for_tail write_log_body (Z.to_nat (lg_n l)) 0.

Definition commit : M (log * S) unit :=
  let! l := lg get in
  when (0 <? lg_n l)
    (write_log;;;
     write_head;;;
     install_trans 0;;;
     lg (modify (set_n 0));;;
     write_head).

(** One pass of [begin_op]'s loop: it returns or it sleeps on the log. *)
Definition begin_op : M (log * S) unit :=
  acquire LkLog;;;
  let! l := lg get in
  if ctrue (lg_committing l) then sleep_on ChLog LkLog
  else if LOGSIZE <? i32 (lg_n l + (lg_outstanding l + 1) * MAXOPBLOCKS) then sleep_on ChLog LkLog
  else lg (put (set_outstanding (i32 (lg_outstanding l + 1)) l));;;
       release LkLog.

(** The two critical sections of [end_op], between which it commits. *)
Definition end_op_enter : M (log * S) bool :=
  acquire LkLog;;;
  lg (modify (fun l => set_outstanding (i32 (lg_outstanding l - 1)) l));;;
  let! l := lg get in
  when (ctrue (lg_committing l)) (panic "log.committing");;;
  let! do_commit :=
    (if lg_outstanding l =? 0
     then lg (put (set_committing 1 l));;; ret true
     else wakeup ChLog;;; ret false) in
  release LkLog;;;
  ret do_commit.

Definition end_op_leave : M (log * S) unit :=
  acquire LkLog;;;
  lg (modify (set_committing 0));;;
  wakeup ChLog;;;
  release LkLog.

Definition end_op : M (log * S) unit :=
  let! do_commit := end_op_enter in
  when do_commit (commit;;; end_op_leave).

(** [for (i = 0; i < log.lh.n; i++) if (log.lh.block[i] == b->blockno) break;] *)
Fixpoint absorb_index (k : nat) (i : Z) (bn : Z) (blk : list Z) : option Z :=
  match k with
  | O => Some i
  | Datatypes.S k' =>
      x ← znth blk i;
      if u32 x =? bn then Some i else absorb_index k' (i + 1) bn blk
  end.

Definition log_write (b : nat) : M (log * S) unit :=
  acquire LkLog;;;
  let! l := lg get in
  when ((lg_n l >=? LOGSIZE) || (lg_n l >=? lg_size l - 1)) (panic "too big a transaction");;;
  when (lg_outstanding l <? 1) (panic "log_write outside of trans");;;
  let! bn := io (bblockno b) in
  let! i := deref "log.lh.block index" (absorb_index (Z.to_nat (lg_n l)) 0 bn (lg_block l)) in
  when (i >=? LOGSIZE) (fault "log.lh.block index");;;
  lg (put (set_block (zupd (lg_block l) i (i32 bn)) l));;;
  when (i =? lg_n l)
    (io (bpin b);;;
     lg (modify (fun l => set_n (i32 (lg_n l + 1)) l)));;;
  release LkLog.

End Log.

(** ** What is written to the disk

    Copying the blocks [bl] into the log blocks from [k] on, and from there to their
    home locations, as sequences of disk writes. *)
Fixpoint copy_trace (k : Z) (v : blocks) (bl : list Z) : list (Z * block) :=
  match bl with [] => [] | bn :: bl' => (k, v bn) :: copy_trace (k + 1) v bl' end.
Fixpoint install_trace (k : Z) (v : blocks) (bl : list Z) : list (Z * block) :=
  match bl with [] => [] | bn :: bl' => (bn, v k) :: install_trace (k + 1) v bl' end.

(** The header block [d] after [write_head] for the blocks [bl]. *)
Fixpoint put_entries (i : nat) (d : block) (bl : list Z) : block :=
  match bl with
  | [] => d
  | bn :: bl' => put_entries (Datatypes.S i) (put32 d (4 + 4 * i)%nat bn) bl'
  end.
Definition head_block (d : block) (bl : list Z) : block :=
  put_entries 0 (put32 d 0 (Z.of_nat (length bl))) bl.

(** Blocks outside the log. *)
Definition home (start nlog n : Z) : Prop := ~ (start <= n < start + nlog).

(** [bl] is a list of blocks the log can hold. *)
Record txn (start nlog : Z) (bl : list Z) : Prop := mkTxn {
  tx_nodup : NoDup bl;
  tx_room : (length bl < NBUF)%nat;
  tx_fit : Z.of_nat (length bl) < nlog;
  tx_start : 0 <= start;
  tx_end : start + nlog < 2 ^ 31;
  tx_home : forall bn, bn ∈ bl -> 0 <= bn < 2 ^ 31 /\ home start nlog bn;
}.

(** The in-memory log holds [bl]. *)
Record holds (l : log) (bl : list Z) : Prop := mkHolds {
  hd_len : length (lg_block l) = Z.to_nat LOGSIZE;
  hd_n : lg_n l = Z.of_nat (length bl);
  hd_block : forall i bn, bl !! i = Some bn -> lg_block l !! i = Some bn;
}.

Lemma copy_trace_ext k v v' bl :
  (forall bn, bn ∈ bl -> v' bn = v bn) -> copy_trace k v' bl = copy_trace k v bl.
Proof.
  revert k. induction bl as [|bn bl IH]; intros k Hv; cbn; [done|].
  rewrite Hv by set_solver. f_equal. apply IH. set_solver.
Qed.

Lemma install_trace_ext k v v' bl :
  (forall j, k <= j < k + Z.of_nat (length bl) -> v' j = v j) ->
  install_trace k v' bl = install_trace k v bl.
Proof.
  revert k. induction bl as [|bn bl IH]; intros k Hv; [done|]. cbn -[Z.of_nat] in *.
  rewrite Hv by lia. f_equal. apply IH. intros j Hj. apply Hv. lia.
Qed.

(** ** The log's use of the cache, as rules

    One rule per call into the cache, for code that continues with [k]. *)
Section Rules.
Context {S : Type} {BC : BlockCache S} {BCS : BlockCacheSpec S}.
Notation io := (zoom (bc_lens (S := S))).
Notation lg := (zoom (lg_lens (S := S))).
Context (me dev : Z) (base : blocks).
Notation crepr' := (crepr me dev base).

Lemma io_step {A B} (m : M S B) (k : B -> M (log * S) A) R Q th l c :
  wp m R th c -> (forall b th' c', R b th' c' -> wp (k b) Q th' (l, c')) ->
  wp (bind (io m) k) Q th (l, c).
Proof.
  intros Hm Hk. apply wp_bind, wp_zoom. eapply wp_mono; [exact Hm|]. intros b th' c' HR. by apply Hk.
Qed.

Lemma io_last {A} (m : M S A) R Q th l c :
  wp m R th c -> (forall a th' c', R a th' c' -> Q a th' (l, c')) -> wp (io m) Q th (l, c).
Proof.
  intros Hm Hk. apply wp_zoom. eapply wp_mono; [exact Hm|]. intros b th' c' HR. by apply Hk.
Qed.

Lemma lg_get_step {A} (k : log -> M (log * S) A) Q th l c :
  wp (k l) Q th (l, c) -> wp (bind (lg get) k) Q th (l, c).
Proof. done. Qed.

Lemma io_bread {A} (k : nat -> M (log * S) A) Q th l c v w P H n :
  io_free me th -> is_u32 n -> crepr' c v w P H -> n ∉ H.*1 ->
  (size (in_use P H) < NBUF)%nat \/ n ∈ P ->
  (forall b th' c', same_thread th th' -> crepr' c' v w P ((n, b) :: H) -> wp (k b) Q th' (l, c')) ->
  wp (bind (io (bread dev n)) k) Q th (l, c).
Proof.
  intros ? ? ? ? ? Hk. eapply io_step; [by eapply bread_spec|]. intros b th' c' []. by apply Hk.
Qed.

Lemma io_bdata {A} (k : block -> M (log * S) A) Q th l c v w P H n b :
  crepr' c v w P H -> (n, b) ∈ H -> wp (k (v n)) Q th (l, c) ->
  wp (bind (io (bdata b)) k) Q th (l, c).
Proof.
  intros ? ? Hk. apply wp_bind, wp_zoom. by eapply wp_eq; [by eapply bdata_spec|].
Qed.

Lemma io_set_bdata {A} (k : unit -> M (log * S) A) Q th l c v w P H n b d :
  crepr' c v w P H -> (n, b) ∈ H -> length d = Z.to_nat BSIZE ->
  (forall c', crepr' c' (upd v n d) w P H -> wp (k tt) Q th (l, c')) ->
  wp (bind (io (set_bdata b d)) k) Q th (l, c).
Proof.
  intros ? ? ? Hk. eapply io_step; [by eapply set_bdata_spec|]. intros [] th' c' [-> ?]. by apply Hk.
Qed.

Lemma io_bwrite {A} (k : unit -> M (log * S) A) Q th l c v w P H n b :
  io_free me th -> crepr' c v w P H -> (n, b) ∈ H ->
  (forall th' c', same_thread th th' -> crepr' c' v (w ++ [(n, v n)]) P H -> wp (k tt) Q th' (l, c')) ->
  wp (bind (io (bwrite b)) k) Q th (l, c).
Proof.
  intros ? ? ? Hk. eapply io_step; [by eapply bwrite_spec|]. intros [] th' c' []. by apply Hk.
Qed.

Lemma io_brelse {A} (k : unit -> M (log * S) A) Q th l c v w P H1 H2 n b :
  io_free me th -> crepr' c v w P (H1 ++ (n, b) :: H2) -> n ∈ P \/ v n = disk_of base w n ->
  (forall th' c', same_thread th th' -> crepr' c' v w P (H1 ++ H2) -> wp (k tt) Q th' (l, c')) ->
  wp (bind (io (brelse b)) k) Q th (l, c).
Proof.
  intros ? ? ? Hk. eapply io_step; [by eapply brelse_spec|]. intros [] th' c' []. by apply Hk.
Qed.

(** The last release of a function body. *)
Lemma io_brelse_last Q th l c v w P n b :
  io_free me th -> crepr' c v w P [(n, b)] -> n ∈ P \/ v n = disk_of base w n ->
  (forall th' c', same_thread th th' -> crepr' c' v w P [] -> Q tt th' (l, c')) ->
  wp (io (brelse b)) Q th (l, c).
Proof.
  intros ? ? ? Hk. eapply io_last; [by eapply (brelse_spec _ _ _ _ _ _ _ [] [])|].
  intros [] th' c' []. by apply Hk.
Qed.

Lemma io_bunpin {A} (k : unit -> M (log * S) A) Q th l c v w P H n b :
  io_free me th -> crepr' c v w P H -> (n, b) ∈ H -> n ∈ P ->
  (forall th' c', same_thread th th' -> crepr' c' v w (P ∖ {[n]}) H -> wp (k tt) Q th' (l, c')) ->
  wp (bind (io (bunpin b)) k) Q th (l, c).
Proof.
  intros ? ? ? ? Hk. eapply io_step; [by eapply bunpin_spec|]. intros [] th' c' []. by apply Hk.
Qed.

Lemma lh_block_step {A} (k : Z -> M (log * S) A) Q th l c i bn :
  lg_block l !! i = Some bn -> wp (k bn) Q th (l, c) ->
  wp (bind (lh_block (Z.of_nat i)) k) Q th (l, c).
Proof.
  intros Hi Hk. unfold lh_block. apply wp_bind. cbn. unfold wp, bind, zoom, get. cbn.
  by rewrite znth_of_nat, Hi.
Qed.

(** ** Commit *)

Context (start nlog : Z).

Lemma log_blockno_ok l bl i :
  txn start nlog bl -> lg_start l = start -> (i < length bl)%nat ->
  log_blockno l (Z.of_nat i) = start + Z.of_nat i + 1.
Proof.
  intros [_ _ Hf H0 H1 _] Hs Hi. unfold log_blockno. rewrite Hs, i32_id, u32_id by lia. done.
Qed.

Lemma txn_lookup bl i bn :
  txn start nlog bl -> bl !! i = Some bn ->
  (i < length bl)%nat /\ u32 bn = bn /\ is_u32 bn /\ home start nlog bn.
Proof.
  intros Ht Hi. destruct (tx_home _ _ _ Ht bn) as [Hr Hh]; [by eapply list_elem_of_lookup_2|].
  split; [by eapply lookup_lt_Some|]. split; [apply u32_id; lia|]. split; [lia|done].
Qed.

(** One turn of [write_log]. *)
Lemma write_log_body_ok l c v w P bl i bn th :
  txn start nlog bl -> holds l bl -> lg_start l = start -> lg_dev l = dev ->
  bl !! i = Some bn -> bn ∈ P -> (size P < NBUF)%nat -> io_free me th ->
  crepr' c v w P [] ->
  wp (write_log_body (Z.of_nat i)) (fun _ th' s' =>
    same_thread th th' /\ fst s' = l /\
    crepr' (snd s') (upd v (start + Z.of_nat i + 1) (v bn)) (w ++ [(start + Z.of_nat i + 1, v bn)]) P [])
    th (l, c).
Proof.
  intros Ht Hh Hs Hd Hi HP Hsz Hio Hc. destruct (txn_lookup _ _ _ Ht Hi) as (Hlt & Hu & Hr & Hhome).
  pose proof (tx_start _ _ _ Ht). pose proof (tx_end _ _ _ Ht). pose proof (tx_fit _ _ _ Ht).
  assert (bn <> start + Z.of_nat i + 1) as Hne by (intros ->; apply Hhome; lia).
  unfold write_log_body. apply lg_get_step. rewrite Hd, (log_blockno_ok l bl i Ht Hs Hlt).
  eapply io_bread; [done|lia|done|set_solver| |].
  { left. unfold in_use. by rewrite right_id_L by apply _. }
  intros to th1 c1 Hth1 Hc1. eapply lh_block_step; [by apply Hh|]. rewrite Hu.
  eapply io_bread; [iof|done|done|cbn; set_solver|by right|]. intros from th2 c2 Hth2 Hc2.
  eapply io_bdata; [done|in_list|].
  eapply (io_set_bdata _ _ _ _ _ _ _ _ _ (start + Z.of_nat i + 1)); [done|in_list|by eapply crepr_len|].
  intros c3 Hc3. eapply io_bwrite; [iof|done|in_list|]. intros th4 c4 Hth4 Hc4. rewrite upd_eq in Hc4.
  eapply (io_brelse _ _ _ _ _ _ _ _ []); [iof|done|by left|]. intros th5 c5 Hth5 Hc5.
  eapply io_brelse_last; [iof|done|right; by rewrite disk_of_snoc, !upd_eq|].
  intros th6 c6 Hth6 Hc6. split; [keep_thread|]. by split.
Qed.

Lemma write_log_loop l bl1 bl2 c v w P th :
  txn start nlog (bl1 ++ bl2) -> holds l (bl1 ++ bl2) -> lg_start l = start -> lg_dev l = dev ->
  (forall bn, bn ∈ bl2 -> bn ∈ P) -> (size P < NBUF)%nat -> io_free me th -> crepr' c v w P [] ->
  let tr := copy_trace (start + Z.of_nat (length bl1) + 1) v bl2 in
  wp (for_tail write_log_body (length bl2) (Z.of_nat (length bl1))) (fun _ th' s' =>
    same_thread th th' /\ fst s' = l /\ crepr' (snd s') (disk_of v tr) (w ++ tr) P []) th (l, c).
Proof.
  intros Ht Hh Hs Hd. revert bl1 Ht Hh c v w th.
  induction bl2 as [|bn bl2 IH]; intros bl1 Ht Hh c v w th HP Hsz Hio Hc; cbn [length for_tail copy_trace].
  - rewrite app_nil_r. apply wp_ret. by split.
  - assert ((bl1 ++ bn :: bl2) !! length bl1 = Some bn) as Hi by by apply list_lookup_middle.
    apply wp_bind. eapply wp_mono; [eapply write_log_body_ok; try done; apply HP; set_solver|].
    intros [] th1 [l1 c1] (Hth1 & E1 & Hc1). cbn in E1, Hc1. subst l1.
    replace (Z.of_nat (length bl1) + 1) with (Z.of_nat (length (bl1 ++ [bn])))
      by (rewrite length_app; cbn [length]; lia).
    eapply wp_mono; [eapply (IH (bl1 ++ [bn])); try done|].
    + by rewrite <- app_assoc.
    + by rewrite <- app_assoc.
    + intros x Hx. apply HP. set_solver.
    + iof.
    + intros [] th2 [l2 c2] (Hth2 & E2 & Hc2). cbn in E2, Hc2 |- *. subst l2.
      split; [keep_thread|]. split; [done|]. rewrite length_app in Hc2. cbn [length] in Hc2.
      rewrite <- app_assoc in Hc2. rewrite copy_trace_ext with (v := v) in Hc2.
      * replace (start + Z.of_nat (length bl1 + 1) + 1) with (start + Z.of_nat (length bl1) + 1 + 1)
          in Hc2 by lia. exact Hc2.
      * intros x Hx. apply upd_ne. intros ->.
        destruct (tx_home _ _ _ Ht _ (proj2 (elem_of_app _ _ _) (or_intror (list_elem_of_further _ _ _ Hx))))
          as [_ []]. pose proof (tx_fit _ _ _ Ht) as Hf. rewrite length_app in Hf. cbn [length] in Hf. lia.
Qed.

(** One turn of [install_trans], while committing and while recovering. *)
Lemma install_body_ok rec l c v w P bl i bn th :
  txn start nlog bl -> holds l bl -> lg_start l = start -> lg_dev l = dev -> bl !! i = Some bn ->
  (rec = 0 -> bn ∈ P) -> (size P < NBUF)%nat -> bn ∈ P \/ (Datatypes.S (size P) < NBUF)%nat ->
  (forall n, n ∈ P -> home start nlog n) -> io_free me th -> crepr' c v w P [] ->
  let k := start + Z.of_nat i + 1 in
  wp (install_body rec (Z.of_nat i)) (fun _ th' s' =>
    same_thread th th' /\ fst s' = l /\
    crepr' (snd s') (upd v bn (v k)) (w ++ [(bn, v k)]) (if rec =? 0 then P ∖ {[bn]} else P) [])
    th (l, c).
Proof.
  intros Ht Hh Hs Hd Hi HP Hsz Hsz2 HPh Hio Hc k.
  destruct (txn_lookup _ _ _ Ht Hi) as (Hlt & Hu & Hr & Hhome).
  pose proof (tx_start _ _ _ Ht). pose proof (tx_end _ _ _ Ht). pose proof (tx_fit _ _ _ Ht).
  assert (bn <> k) as Hne by (intros ->; apply Hhome; unfold k; lia).
  assert (k ∉ P) as Hk by (intros []%HPh; unfold k; lia).
  assert (v k = disk_of base w k) as Hclean by (eapply crepr_clean; [done|done|apply not_elem_of_nil]).
  unfold install_body. apply lg_get_step. rewrite Hd, (log_blockno_ok l bl i Ht Hs Hlt). fold k.
  eapply io_bread; [done|unfold k; lia|done|set_solver| |].
  { left. unfold in_use. by rewrite right_id_L by apply _. }
  intros lb th1 c1 Hth1 Hc1. eapply lh_block_step; [by apply Hh|]. rewrite Hu.
  eapply io_bread; [iof|done|done|cbn; set_solver| |].
  { destruct Hsz2; [by right|left]. eapply Nat.le_lt_trans; [apply in_use_cons|].
    unfold in_use. rewrite right_id_L by apply _. lia. }
  intros db th2 c2 Hth2 Hc2.
  eapply (io_bdata _ _ _ _ _ _ _ _ _ k); [done|in_list|].
  eapply io_set_bdata; [done|in_list|by eapply crepr_len|].
  intros c3 Hc3. eapply io_bwrite; [iof|done|in_list|]. intros th4 c4 Hth4 Hc4. rewrite upd_eq in Hc4.
  assert (forall P' th5 c5, same_thread th4 th5 ->
    crepr' c5 (upd v bn (v k)) (w ++ [(bn, v k)]) P' [(bn, db); (k, lb)] ->
    wp (io (brelse lb);;; io (brelse db)) (fun _ th' s' => same_thread th th' /\ fst s' = l /\
      crepr' (snd s') (upd v bn (v k)) (w ++ [(bn, v k)]) P' []) th5 (l, c5)) as Hend.
  { intros P' th5 c5 Hth5 Hc5. eapply (io_brelse _ _ _ _ _ _ _ _ [(bn, db)] [] k lb); [iof|exact Hc5| |].
    { right. rewrite disk_of_snoc, !upd_ne by done. done. }
    intros th6 c6 Hth6 Hc6. eapply io_brelse_last; [iof|done|right; by rewrite disk_of_snoc, !upd_eq|].
    intros th7 c7 Hth7 Hc7. split; [keep_thread|]. by split. }
  destruct (Z.eqb_spec rec 0) as [->|Hrec]; cbn [when].
  - eapply io_bunpin; [iof|done|in_list|by apply HP|]. intros th5 c5 Hth5 Hc5. by apply (Hend _ th5).
  - apply wp_bind, wp_ret. by apply (Hend _ th4).
Qed.

(** The blocks still pinned when [bl] remains to be installed. *)
Definition pins (rec : Z) (bl : list Z) : gset Z := if rec =? 0 then list_to_set bl else ∅.

Lemma pins_size rec bl : NoDup bl -> (size (pins rec bl) <= length bl)%nat.
Proof.
  intros Hn. unfold pins. destruct (rec =? 0); [|rewrite size_empty; lia].
  by rewrite size_list_to_set.
Qed.

Lemma pins_step rec bn bl :
  bn ∉ bl -> (if rec =? 0 then pins rec (bn :: bl) ∖ {[bn]} else pins rec (bn :: bl)) = pins rec bl.
Proof. intros Hn. unfold pins. destruct (rec =? 0); [|done]. cbn. set_solver. Qed.

Lemma install_loop rec l bl1 bl2 c v w th :
  txn start nlog (bl1 ++ bl2) -> holds l (bl1 ++ bl2) -> lg_start l = start -> lg_dev l = dev ->
  io_free me th -> crepr' c v w (pins rec bl2) [] ->
  let tr := install_trace (start + Z.of_nat (length bl1) + 1) v bl2 in
  wp (for_tail (install_body rec) (length bl2) (Z.of_nat (length bl1))) (fun _ th' s' =>
    same_thread th th' /\ fst s' = l /\ crepr' (snd s') (disk_of v tr) (w ++ tr) ∅ []) th (l, c).
Proof.
  intros Ht Hh Hs Hd. revert bl1 Ht Hh c v w th.
  induction bl2 as [|bn bl2 IH]; intros bl1 Ht Hh c v w th Hio Hc; cbn [length for_tail install_trace].
  - rewrite app_nil_r. apply wp_ret. split; [done|]. split; [done|]. unfold pins in Hc. by destruct (rec =? 0).
  - assert ((bl1 ++ bn :: bl2) !! length bl1 = Some bn) as Hi by by apply list_lookup_middle.
    pose proof (tx_nodup _ _ _ Ht) as Hnd. apply NoDup_app in Hnd as (_ & _ & Hnd).
    pose proof (tx_room _ _ _ Ht) as Hroom. pose proof (tx_fit _ _ _ Ht) as Hfit.
    rewrite length_app in Hroom, Hfit. cbn [length] in Hroom, Hfit.
    pose proof (pins_size rec _ Hnd) as Hps. cbn [length] in Hps.
    apply wp_bind. eapply wp_mono; [eapply install_body_ok; try done|].
    + intros ->. unfold pins. cbn. set_solver.
    + lia.
    + unfold pins. destruct (rec =? 0); [left; set_solver|right; rewrite size_empty; unfold NBUF; lia].
    + intros n Hn. apply (tx_home _ _ _ Ht). unfold pins in Hn. destruct (rec =? 0); set_solver.
    + apply NoDup_cons in Hnd as [Hnb Hnd]. rewrite pins_step by done.
      intros [] th1 [l1 c1] (Hth1 & E1 & Hc1). cbn in E1, Hc1. subst l1.
      replace (Z.of_nat (length bl1) + 1) with (Z.of_nat (length (bl1 ++ [bn])))
        by (rewrite length_app; cbn [length]; lia).
      eapply wp_mono; [eapply (IH (bl1 ++ [bn])); rewrite <- ?app_assoc; try done; iof|].
      intros [] th2 [l2 c2] (Hth2 & E2 & Hc2). cbn in E2, Hc2 |- *. subst l2.
      split; [keep_thread|]. split; [done|]. rewrite length_app in Hc2. cbn [length] in Hc2.
      rewrite <- app_assoc in Hc2. rewrite install_trace_ext with (v := v) in Hc2.
      * replace (start + Z.of_nat (length bl1 + 1) + 1) with (start + Z.of_nat (length bl1) + 1 + 1)
          in Hc2 by lia. exact Hc2.
      * intros j Hj. apply upd_ne. intros ->.
        destruct (tx_home _ _ _ Ht bn ltac:(set_solver)) as [_ []]. lia.
Qed.

Lemma for_tail_all (body : Z -> M (log * S) unit) l bl Q th c :
  holds l bl -> wp (for_tail body (length bl) 0) Q th (l, c) ->
  wp (let! l := lg get in for_tail body (Z.to_nat (lg_n l)) 0) Q th (l, c).
Proof. intros Hh H. apply lg_get_step. by rewrite (hd_n _ _ Hh), Nat2Z.id. Qed.

(** [write_head] *)
Lemma head_out_ok l bl1 bl2 d :
  holds l (bl1 ++ bl2) ->
  head_out (length bl2) (Z.of_nat (length bl1)) d l = Some (put_entries (length bl1) d bl2).
Proof.
  revert bl1 d. induction bl2 as [|bn bl2 IH]; intros bl1 d Hh; [done|]. cbn [length head_out put_entries].
  rewrite znth_of_nat, (hd_block _ _ Hh (length bl1) bn) by by apply list_lookup_middle. cbn [mbind option_bind].
  rewrite Nat2Z.id. replace (Z.of_nat (length bl1) + 1) with (Z.of_nat (length (bl1 ++ [bn])))
    by (rewrite length_app; cbn [length]; lia).
  rewrite IH by by rewrite <- app_assoc. rewrite length_app, Nat.add_comm. done.
Qed.

Lemma put_entries_length i d bl :
  (4 + 4 * (i + length bl) <= length d)%nat -> length (put_entries i d bl) = length d.
Proof.
  revert i d. induction bl as [|bn bl IH]; intros i d Hl; [done|]. cbn [put_entries length] in *.
  rewrite IH; rewrite length_putn; lia.
Qed.

Lemma head_block_length d bl :
  length d = Z.to_nat BSIZE -> (length bl <= Z.to_nat LOGSIZE)%nat -> length (head_block d bl) = Z.to_nat BSIZE.
Proof.
  intros Hd Hl. change (Z.to_nat BSIZE) with 1024%nat in *. change (Z.to_nat LOGSIZE) with 30%nat in Hl.
  unfold head_block. rewrite put_entries_length; rewrite length_putn; lia.
Qed.

Lemma write_head_ok l bl c v w P th :
  txn start nlog bl -> holds l bl -> lg_start l = start -> lg_dev l = dev ->
  (size P < NBUF)%nat -> start ∉ P -> io_free me th -> crepr' c v w P [] ->
  let d := head_block (v start) bl in
  wp write_head (fun _ th' s' => same_thread th th' /\ fst s' = l /\
    crepr' (snd s') (upd v start d) (w ++ [(start, d)]) P []) th (l, c).
Proof.
  intros Ht Hh Hs Hd Hsz HsP Hio Hc d. pose proof (tx_start _ _ _ Ht). pose proof (tx_end _ _ _ Ht).
  pose proof (tx_fit _ _ _ Ht). unfold write_head. apply lg_get_step. rewrite Hd, Hs, u32_id by lia.
  eapply io_bread; [done|lia|done|set_solver| |].
  { left. unfold in_use. by rewrite right_id_L by apply _. }
  intros b th1 c1 Hth1 Hc1. eapply io_bdata; [done|in_list|].
  rewrite (hd_n _ _ Hh), Nat2Z.id. rewrite (head_out_ok l [] bl) by done.
  fold (head_block (v start) bl). apply wp_bind, wp_ret. fold d.
  eapply io_set_bdata; [done|in_list| |].
  { apply head_block_length; [by eapply crepr_len|]. pose proof (tx_room _ _ _ Ht).
    unfold NBUF in *. change (Z.to_nat LOGSIZE) with 30%nat. lia. }
  intros c3 Hc3. eapply io_bwrite; [iof|done|in_list|]. intros th4 c4 Hth4 Hc4. rewrite upd_eq in Hc4.
  eapply io_brelse_last; [iof|done|right; by rewrite disk_of_snoc, !upd_eq|].
  intros th6 c6 Hth6 Hc6. split; [keep_thread|]. by split.
Qed.

(** ** A whole commit *)

Definition commit_trace (v : blocks) (bl : list Z) : list (Z * block) :=
  let h := head_block (v start) bl in
  copy_trace (start + 1) v bl ++ [(start, h)] ++
  ((fun bn => (bn, v bn)) <$> bl) ++ [(start, head_block h [])].

Lemma set_n_holds l bl : holds l bl -> holds (set_n 0 l) [].
Proof. intros [? _ _]. by split. Qed.

Lemma txn_nil bl : txn start nlog bl -> txn start nlog [].
Proof.
  intros [? ? ? ? ? ?]. split; try done; [constructor|unfold NBUF; cbn; lia|cbn in *; lia|set_solver].
Qed.

Lemma copy_trace_disk k v b bl n :
  disk_of b (copy_trace k v bl) n =
    match (if k <=? n then bl !! Z.to_nat (n - k) else None) with Some bn => v bn | None => b n end.
Proof.
  revert k b. induction bl as [|bn bl IH]; intros k b.
  - cbn. by destruct (k <=? n).
  - change (disk_of b (copy_trace k v (bn :: bl)) n)
      with (disk_of (upd b k (v bn)) (copy_trace (k + 1) v bl) n). rewrite IH.
    destruct (Z.leb_spec k n) as [Hkn|Hkn].
    + destruct (decide (n = k)) as [->|Hne].
      * rewrite Z.sub_diag. destruct (Z.leb_spec (k + 1) k); [lia|]. cbn. apply upd_eq.
      * destruct (Z.leb_spec (k + 1) n); [|lia].
        replace (Z.to_nat (n - k)) with (Datatypes.S (Z.to_nat (n - (k + 1)))) by lia.
        cbn [lookup list_lookup]. rewrite upd_ne by done. done.
    + destruct (Z.leb_spec (k + 1) n); [lia|]. apply upd_ne. lia.
Qed.

Lemma install_trace_copied k v u bl bl1 bl2 :
  bl = bl1 ++ bl2 ->
  (forall i bn, bl !! i = Some bn -> u (k + Z.of_nat i) = v bn) ->
  install_trace (k + Z.of_nat (length bl1)) u bl2 = (fun bn => (bn, v bn)) <$> bl2.
Proof.
  revert bl1. induction bl2 as [|bn bl2 IH]; intros bl1 -> Hu; [done|]. cbn [install_trace fmap list_fmap].
  rewrite (Hu (length bl1) bn) by by apply list_lookup_middle. f_equal.
  replace (k + Z.of_nat (length bl1) + 1) with (k + Z.of_nat (length (bl1 ++ [bn])))
    by (rewrite length_app; cbn [length]; lia).
  apply IH; [by rewrite <- app_assoc|done].
Qed.

(** Outside the log, committing makes the disk what the kernel sees. *)
Lemma installed_disk v b bl n :
  disk_of b ((fun bn => (bn, v bn)) <$> bl) n = if decide (n ∈ bl) then v n else b n.
Proof.
  revert b. induction bl as [|bn bl IH]; intros b; [by rewrite decide_False by set_solver|].
  change (disk_of (upd b bn (v bn)) ((fun bn => (bn, v bn)) <$> bl) n = 
          if decide (n ∈ bn :: bl) then v n else b n). rewrite IH.
  destruct (decide (n ∈ bl)); [by rewrite decide_True by set_solver|].
  destruct (decide (n = bn)) as [->|Hne].
  - rewrite upd_eq. by rewrite decide_True by set_solver.
  - rewrite upd_ne by done. by rewrite decide_False by set_solver.
Qed.

Lemma commit_ok l bl c v w th :
  txn start nlog bl -> bl <> [] -> holds l bl -> lg_start l = start -> lg_dev l = dev ->
  io_free me th -> crepr' c v w (list_to_set bl) [] ->
  wp commit (fun _ th' s' => same_thread th th' /\ fst s' = set_n 0 l /\
    crepr' (snd s') (disk_of v (commit_trace v bl)) (w ++ commit_trace v bl) ∅ []) th (l, c).
Proof.
  intros Ht Hne Hh Hs Hd Hio Hc.
  assert (0 < lg_n l) as Hn by (rewrite (hd_n _ _ Hh); destruct bl; [done|cbn; lia]).
  assert (start ∉ (list_to_set bl : gset Z)) as HsP.
  { intros Hin%elem_of_list_to_set. destruct (tx_home _ _ _ Ht _ Hin) as [_ []].
    pose proof (tx_fit _ _ _ Ht). lia. }
  assert (size (list_to_set bl : gset Z) < NBUF)%nat as Hsz
    by (rewrite size_list_to_set by apply Ht; apply Ht).
  unfold commit. apply lg_get_step. destruct (Z.ltb_spec 0 (lg_n l)); [|lia]. cbn [when].
  apply wp_bind. eapply for_tail_all; [done|]. eapply wp_mono.
  { eapply (write_log_loop l [] bl); try done. intros bn. by rewrite elem_of_list_to_set. }
  cbn [length Z.of_nat]. rewrite Z.add_0_r. intros [] th1 [l1 c1] (Hth1 & E1 & Hc1). cbn in E1, Hc1. subst l1.
  set (v1 := disk_of v (copy_trace (start + 1) v bl)) in *.
  assert (v1 start = v start) as Hv1.
  { unfold v1. rewrite copy_trace_disk. by destruct (Z.leb_spec (start + 1) start); [lia|]. }
  apply wp_bind. eapply wp_mono; [eapply write_head_ok; try done; iof|]. rewrite Hv1.
  set (h := head_block (v start) bl). intros [] th2 [l2 c2] (Hth2 & E2 & Hc2). cbn in E2, Hc2. subst l2.
  apply wp_bind. eapply for_tail_all; [done|]. eapply wp_mono.
  { eapply (install_loop 0 l [] bl); try done; iof. }
  cbn [length Z.of_nat]. rewrite Z.add_0_r. intros [] th3 [l3 c3] (Hth3 & E3 & Hc3). cbn in E3, Hc3. subst l3.
  assert (forall i bn, bl !! i = Some bn -> upd v1 start h (start + 1 + Z.of_nat i) = v bn) as Hcopied.
  { intros i bn Hi. rewrite upd_ne by lia. unfold v1. rewrite copy_trace_disk.
    destruct (Z.leb_spec (start + 1) (start + 1 + Z.of_nat i)); [|lia].
    replace (Z.to_nat (start + 1 + Z.of_nat i - (start + 1))) with i by lia. by rewrite Hi. }
  pose proof (install_trace_copied (start + 1) v _ bl [] bl eq_refl Hcopied) as Htr.
  cbn [length Z.of_nat] in Htr. rewrite Z.add_0_r in Htr. rewrite Htr in Hc3.
  apply wp_bind, wp_zoom. cbn [fst snd lg_lens view over]. unfold wp, modify.
  eapply wp_mono; [eapply (write_head_ok (set_n 0 l) [] c3 _ _ ∅);
    [by eapply txn_nil|by eapply set_n_holds|done|done|unfold NBUF; rewrite size_empty; lia|apply not_elem_of_empty|iof|exact Hc3]|].
  intros [] th4 [l4 c4] (Hth4 & E4 & Hc4). cbn in E4, Hc4 |- *. subst l4.
  split; [keep_thread|]. split; [done|]. rewrite installed_disk, decide_False, upd_eq in Hc4 
    by (by rewrite elem_of_list_to_set in HsP).
  unfold commit_trace. fold h. rewrite !disk_of_app. rewrite <- !app_assoc in Hc4. exact Hc4.
Qed.

(** ** Recovery *)

(** The header block [d] lists the blocks [bl]. *)
Definition lists (d : block) (bl : list Z) : Prop :=
  i32 (get32 d 0) = Z.of_nat (length bl) /\
  forall i bn, bl !! i = Some bn -> i32 (get32 d (4 + 4 * i)%nat) = bn.

Lemma put_entries_get i d bl off :
  (4 + 4 * (i + length bl) <= length d)%nat -> (off + 4 <= 4 + 4 * i)%nat ->
  get32 (put_entries i d bl) off = get32 d off.
Proof.
  revert i d. induction bl as [|bn bl IH]; intros i d Hl Ho; [done|]. cbn [put_entries length] in *.
  rewrite IH by (rewrite ?length_putn; lia). apply getn_putn_ne; lia.
Qed.

Lemma put_entries_entry i d bl j bn :
  (4 + 4 * (i + length bl) <= length d)%nat -> bl !! j = Some bn ->
  get32 (put_entries i d bl) (4 + 4 * (i + j))%nat = u32 bn.
Proof.
  revert i j d. induction bl as [|x bl IH]; intros i j d Hl Hj; [done|]. cbn [put_entries length] in *.
  destruct j as [|j]; cbn in Hj.
  - apply (inj Some) in Hj as ->. rewrite put_entries_get by (rewrite ?length_putn; lia).
    rewrite Nat.add_0_r, getn_putn_eq by lia. done.
  - replace (i + Datatypes.S j)%nat with (Datatypes.S i + j)%nat by lia.
    apply IH; [rewrite length_putn; lia|done].
Qed.

Lemma i32_u32 z : i32 (u32 z) = i32 z.
Proof. unfold i32, u32. by rewrite Zplus_mod_idemp_l. Qed.

Lemma head_block_lists d bl :
  length d = Z.to_nat BSIZE -> (length bl <= Z.to_nat LOGSIZE)%nat ->
  (forall bn, bn ∈ bl -> 0 <= bn < 2 ^ 31) -> lists (head_block d bl) bl.
Proof.
  change (Z.to_nat BSIZE) with 1024%nat. change (Z.to_nat LOGSIZE) with 30%nat.
  intros Hd Hl Hb. unfold head_block. split.
  - rewrite put_entries_get by (rewrite ?length_putn; lia). rewrite getn_putn_eq by lia.
    change (_ mod _) with (u32 (Z.of_nat (length bl))). rewrite i32_u32. apply i32_id. lia.
  - intros i bn Hi. rewrite (put_entries_entry 0 _ bl i bn) by (rewrite ?length_putn; done || lia).
    rewrite i32_u32. apply i32_id. specialize (Hb bn ltac:(by eapply list_elem_of_lookup_2)). lia.
Qed.

Definition same_params (l l' : log) : Prop :=
  lg_start l' = lg_start l /\ lg_size l' = lg_size l /\ lg_dev l' = lg_dev l /\
  lg_outstanding l' = lg_outstanding l /\ lg_committing l' = lg_committing l.

Lemma head_in_ok d bl1 bl2 l :
  lists d (bl1 ++ bl2) -> (length (bl1 ++ bl2) <= Z.to_nat LOGSIZE)%nat ->
  length (lg_block l) = Z.to_nat LOGSIZE ->
  (forall i bn, bl1 !! i = Some bn -> lg_block l !! i = Some bn) ->
  exists l', head_in (length bl2) (Z.of_nat (length bl1)) d l = Some l' /\ same_params l l' /\
    lg_n l' = lg_n l /\ length (lg_block l') = Z.to_nat LOGSIZE /\
    forall i bn, (bl1 ++ bl2) !! i = Some bn -> lg_block l' !! i = Some bn.
Proof.
  change (Z.to_nat LOGSIZE) with 30%nat. revert bl1 l.
  induction bl2 as [|bn bl2 IH]; intros bl1 l Hd Hlen Hl Hpre; cbn [length head_in].
  - exists l. rewrite app_nil_r. by repeat split.
  - rewrite length_app in Hlen. cbn [length] in Hlen. unfold LOGSIZE, MAXOPBLOCKS.
    destruct (Z.ltb_spec (Z.of_nat (length bl1)) (10 * 3)); [|lia]. rewrite Nat2Z.id, zupd_of_nat.
    rewrite (proj2 Hd (length bl1) bn) by by apply list_lookup_middle.
    set (l1 := set_block _ l).
    replace (Z.of_nat (length bl1) + 1) with (Z.of_nat (length (bl1 ++ [bn])))
      by (rewrite length_app; cbn [length]; lia).
    destruct (IH (bl1 ++ [bn]) l1) as (l' & E & Hs & Hn & Hl' & Hb).
    + by rewrite <- app_assoc.
    + rewrite !length_app. cbn [length]. lia.
    + unfold l1. cbn. by rewrite length_insert.
    + intros i x Hi. unfold l1. cbn. apply lookup_app_Some in Hi as [Hi|[Hge Hi]].
      * rewrite list_lookup_insert_ne; [by apply Hpre|]. apply lookup_lt_Some in Hi. lia.
      * apply list_lookup_singleton_Some in Hi as [Hi ->].
        replace i with (length bl1) by lia. apply list_lookup_insert_eq. lia.
    + rewrite <- app_assoc in Hb. exists l'. split; [exact E|]. by split.
Qed.

Lemma read_head_ok l bl c v w th :
  txn start nlog bl -> lists (v start) bl -> length (lg_block l) = Z.to_nat LOGSIZE ->
  lg_start l = start -> lg_dev l = dev -> io_free me th -> crepr' c v w ∅ [] ->
  wp read_head (fun _ th' s' => same_thread th th' /\ same_params l (fst s') /\ holds (fst s') bl /\
    crepr' (snd s') v w ∅ []) th (l, c).
Proof.
  intros Ht Hd Hl Hs Hdev Hio Hc. pose proof (tx_start _ _ _ Ht). pose proof (tx_end _ _ _ Ht).
  pose proof (tx_fit _ _ _ Ht). unfold read_head. apply lg_get_step. rewrite Hdev, Hs, u32_id by lia.
  assert (v start = disk_of base w start) as Hclean by (eapply crepr_clean; [done|set_solver|set_solver]).
  eapply io_bread; [done|lia|done|set_solver|left|].
  { unfold in_use, NBUF. cbn. rewrite right_id_L, size_empty by apply _. lia. }
  intros b th1 c1 Hth1 Hc1. eapply io_bdata; [done|in_list|]. rewrite (proj1 Hd), Nat2Z.id.
  destruct (head_in_ok (v start) [] bl (set_n (Z.of_nat (length bl)) l)) as (l' & E & Hp & Hn & Hl' & Hb);
    try done; [pose proof (tx_room _ _ _ Ht); unfold NBUF in *; change (Z.to_nat LOGSIZE) with 30%nat; cbn; lia|].
  change (Z.of_nat (length (A:=Z) [])) with 0 in E. rewrite E. apply wp_bind, wp_ret. apply wp_bind, wp_zoom. unfold wp, put.
  cbn [lg_lens over snd]. eapply io_brelse_last; [iof|done|by right|]. intros th2 c2 Hth2 Hc2.
  split; [keep_thread|]. split; [exact Hp|]. split; [|done]. by split.
Qed.

Definition recovery_trace (v : blocks) (bl : list Z) : list (Z * block) :=
  install_trace (start + 1) v bl ++ [(start, head_block (v start) [])].

Lemma install_trace_home k v bl : (install_trace k v bl).*1 = bl.
Proof. revert k. induction bl as [|bn bl IH]; intros k; cbn; [done|]. by rewrite IH. Qed.

Lemma start_not_home bl : txn start nlog bl -> ~ home start nlog start.
Proof. intros Ht Hh. apply Hh. pose proof (tx_fit _ _ _ Ht). lia. Qed.

Lemma recover_ok l bl c v w th :
  txn start nlog bl -> lists (v start) bl -> length (lg_block l) = Z.to_nat LOGSIZE ->
  lg_start l = start -> lg_dev l = dev -> io_free me th -> crepr' c v w ∅ [] ->
  wp recover_from_log (fun _ th' s' => same_thread th th' /\ same_params l (fst s') /\ holds (fst s') [] /\
    crepr' (snd s') (disk_of v (recovery_trace v bl)) (w ++ recovery_trace v bl) ∅ []) th (l, c).
Proof.
  intros Ht Hd Hl Hs Hdev Hio Hc. unfold recover_from_log.
  apply wp_bind. eapply wp_mono; [by eapply read_head_ok|].
  intros [] th1 [l1 c1] (Hth1 & Hp1 & Hh1 & Hc1). cbn [fst snd] in *.
  assert (lg_start l1 = start) as Hs1 by (destruct Hp1 as (-> & _); done).
  assert (lg_dev l1 = dev) as Hd1 by (destruct Hp1 as (_ & _ & -> & _); done).
  apply wp_bind. eapply for_tail_all; [done|]. eapply wp_mono.
  { eapply (install_loop 1 l1 [] bl); try done; iof. }
  cbn [length Z.of_nat]. rewrite Z.add_0_r. intros [] th2 [l2 c2] (Hth2 & E2 & Hc2). cbn in E2, Hc2. subst l2.
  apply wp_bind, wp_zoom. cbn [fst snd lg_lens view over]. unfold wp, modify.
  eapply wp_mono; [eapply (write_head_ok (set_n 0 l1) [] c2 _ _ ∅);
    [by eapply txn_nil|by eapply set_n_holds|done|done|unfold NBUF; rewrite size_empty; lia
    |apply not_elem_of_empty|iof|exact Hc2]|].
  intros [] th4 [l4 c4] (Hth4 & E4 & Hc4). cbn [fst snd] in E4, Hc4 |- *. subst l4.
  split; [keep_thread|]. split; [exact Hp1|]. split; [by eapply set_n_holds|].
  rewrite disk_of_notin in Hc4.
  - unfold recovery_trace. rewrite disk_of_app. rewrite <- app_assoc in Hc4. exact Hc4.
  - rewrite install_trace_home. intros Hin. by destruct (start_not_home _ Ht (proj2 (tx_home _ _ _ Ht _ Hin))).
Qed.

Lemma initlog_ok l bl c v w th :
  txn start nlog bl -> lists (v start) bl -> length (lg_block l) = Z.to_nat LOGSIZE ->
  io_free me th -> crepr' c v w ∅ [] ->
  wp (initlog dev start nlog) (fun _ th' s' => same_thread th th' /\
    lg_start (fst s') = start /\ lg_size (fst s') = nlog /\ lg_dev (fst s') = dev /\
    lg_outstanding (fst s') = lg_outstanding l /\ lg_committing (fst s') = lg_committing l /\
    holds (fst s') [] /\
    crepr' (snd s') (disk_of v (recovery_trace v bl)) (w ++ recovery_trace v bl) ∅ []) th (l, c).
Proof.
  intros Ht Hd Hl Hio Hc. pose proof (tx_start _ _ _ Ht). pose proof (tx_end _ _ _ Ht).
  pose proof (tx_fit _ _ _ Ht). unfold initlog. rewrite !i32_id by lia.
  apply wp_bind, wp_ret. apply wp_bind, wp_zoom. cbn [lg_lens view over fst snd]. unfold wp, modify.
  eapply wp_mono; [by eapply recover_ok|].
  intros [] th1 [l1 c1] (Hth1 & (-> & -> & -> & -> & ->) & Hh1 & Hc1). by split.
Qed.

(** ** Crashes

    [recovers d target]: recovery, started on the disk [d], leaves [target] in the
    blocks outside the log. *)
Definition recovers (d target : blocks) : Prop :=
  exists bl, txn start nlog bl /\ lists (d start) bl /\
    (forall i bn, bl !! i = Some bn -> d (start + 1 + Z.of_nat i) = target bn) /\
    (forall n, home start nlog n -> n ∉ bl -> d n = target n).

Lemma log_block_not_home bl i bn :
  txn start nlog bl -> bl !! i = Some bn -> ~ home start nlog (start + 1 + Z.of_nat i).
Proof.
  intros Ht Hi Hh. apply Hh. pose proof (tx_fit _ _ _ Ht). apply lookup_lt_Some in Hi. lia.
Qed.

Lemma recovery_trace_eq d target bl :
  (forall i bn, bl !! i = Some bn -> d (start + 1 + Z.of_nat i) = target bn) ->
  recovery_trace d bl = ((fun bn => (bn, target bn)) <$> bl) ++ [(start, head_block (d start) [])].
Proof.
  intros Hl. unfold recovery_trace. f_equal.
  pose proof (install_trace_copied (start + 1) target d bl [] bl eq_refl Hl) as E.
  cbn [length Z.of_nat] in E. by rewrite Z.add_0_r in E.
Qed.

(** Writing home blocks of the transaction early changes nothing for recovery. *)
Lemma installed_recovers d target bl bl' :
  txn start nlog bl -> lists (d start) bl ->
  (forall i bn, bl !! i = Some bn -> d (start + 1 + Z.of_nat i) = target bn) ->
  (forall n, home start nlog n -> n ∉ bl -> d n = target n) -> (forall bn, bn ∈ bl' -> bn ∈ bl) ->
  recovers (disk_of d ((fun bn => (bn, target bn)) <$> bl')) target.
Proof.
  intros Ht Hd Hlog Hrest Hsub. exists bl.
  assert (forall n, ~ home start nlog n -> disk_of d ((fun bn => (bn, target bn)) <$> bl') n = d n) as Hsame.
  { intros n Hn. rewrite installed_disk, decide_False; [done|].
    intros Hin%Hsub. by destruct Hn; apply (tx_home _ _ _ Ht). }
  split; [done|]. rewrite Hsame by by eapply start_not_home. split; [done|]. split.
  - intros i bn Hi. rewrite Hsame by by eapply log_block_not_home. by apply Hlog.
  - intros n Hh Hn. rewrite installed_disk. destruct (decide (n ∈ bl')); [done|by apply Hrest].
Qed.

Lemma cleared_recovers d target bl :
  txn start nlog bl -> blocks_ok d -> (forall n, home start nlog n -> d n = target n) ->
  recovers (upd d start (head_block (d start) [])) target.
Proof.
  intros Ht Hok Hd. exists []. split; [by eapply txn_nil|]. rewrite upd_eq. split; [|split].
  - apply head_block_lists; [apply Hok|cbn; lia|set_solver].
  - done.
  - intros n Hh _. rewrite upd_ne; [by apply Hd|]. intros ->. by eapply start_not_home.
Qed.
End Rules.

Lemma prefix_app_inv {A} (p l1 l2 : list A) :
  p `prefix_of` l1 ++ l2 -> p `prefix_of` l1 \/ exists p', p = l1 ++ p' /\ p' `prefix_of` l2.
Proof.
  intros [q E]. apply app_eq_inv in E as [(k & -> & ->)|(k & -> & ->)].
  - left. by exists k.
  - right. exists k. split; [done|]. by exists q.
Qed.

Lemma prefix_fmap_inv {A B} (f : A -> B) p l :
  p `prefix_of` f <$> l -> exists l', p = f <$> l' /\ l' `prefix_of` l.
Proof.
  intros [q E]. apply fmap_app_inv in E as (l1 & l2 & -> & -> & ->).
  exists l1. split; [done|]. by exists l2.
Qed.

Lemma prefix_singleton_inv {A} p (x : A) : p `prefix_of` [x] -> p = [] \/ p = [x].
Proof.
  intros [q E]. destruct p as [|y p]; [by left|]. right. cbn in E. injection E as -> E.
  symmetry in E. by apply app_eq_nil in E as [-> _].
Qed.

Section Crash.
Context (start nlog : Z).
Notation recovers' := (recovers start nlog).
Notation home' := (home start nlog).
Notation txn' := (txn start nlog).

(** A crash at any point of a recovery leaves a disk from which recovery reaches the
    same contents. *)
Lemma recovery_prefix_recovers d target bl p :
  blocks_ok d -> txn' bl -> lists (d start) bl ->
  (forall i bn, bl !! i = Some bn -> d (start + 1 + Z.of_nat i) = target bn) ->
  (forall n, home' n -> n ∉ bl -> d n = target n) ->
  (forall n, length (target n) = Z.to_nat BSIZE) ->
  p `prefix_of` recovery_trace start d bl -> recovers' (disk_of d p) target.
Proof.
  intros Hok Ht Hd Hlog Hrest Htl Hp. rewrite (recovery_trace_eq start d target bl Hlog) in Hp.
  apply prefix_app_inv in Hp as [Hp|(p' & -> & Hp)].
  - apply prefix_fmap_inv in Hp as (bl' & -> & Hp).
    eapply installed_recovers; try done. intros bn Hbn. by eapply elem_of_prefix.
  - apply prefix_singleton_inv in Hp as [->| ->].
    + rewrite app_nil_r. by eapply installed_recovers.
    + rewrite disk_of_snoc. set (d1 := disk_of d ((fun bn => (bn, target bn)) <$> bl)).
      assert (d1 start = d start) as <-.
      { unfold d1. rewrite installed_disk, decide_False; [done|]. intros Hin.
        by apply (start_not_home _ _ _ Ht), (tx_home _ _ _ Ht). }
      eapply cleared_recovers; [done| |].
      * intros n. unfold d1. rewrite installed_disk. by destruct (decide (n ∈ bl)).
      * intros n Hn. unfold d1. rewrite installed_disk. destruct (decide (n ∈ bl)); [done|by apply Hrest].
Qed.

Lemma copy_trace_fst k v bl x : x ∈ (copy_trace k v bl).*1 -> k <= x < k + Z.of_nat (length bl).
Proof.
  revert k. induction bl as [|bn bl IH]; intros k; cbn [copy_trace fmap list_fmap length fst].
  - by intros ?%not_elem_of_nil.
  - intros [->|Hx%IH]%elem_of_cons; lia.
Qed.

(** The disk right after the header has been written. *)
Lemma committed_disk d0 v bl :
  blocks_ok d0 -> blocks_ok v -> txn' bl -> (forall n, home' n -> n ∉ bl -> d0 n = v n) ->
  let h := head_block (v start) bl in
  let d := upd (disk_of d0 (copy_trace (start + 1) v bl)) start h in
  blocks_ok d /\ lists (d start) bl /\
  (forall i bn, bl !! i = Some bn -> d (start + 1 + Z.of_nat i) = v bn) /\
  (forall n, home' n -> n ∉ bl -> d n = v n).
Proof.
  intros Hok Hv Ht Hrest h d. pose proof (tx_fit _ _ _ Ht) as Hfit.
  pose proof (tx_room _ _ _ Ht) as Hroom. unfold NBUF in Hroom.
  split; [|split; [|split]].
  - apply upd_blocks_ok.
    + intros n. rewrite copy_trace_disk. by case_match.
    + apply head_block_length; [apply Hv|]. change (Z.to_nat LOGSIZE) with 30%nat. lia.
  - unfold d. rewrite upd_eq. apply head_block_lists; [apply Hv| |intros bn Hbn; by apply (tx_home _ _ _ Ht)].
    change (Z.to_nat LOGSIZE) with 30%nat. lia.
  - intros i bn Hi. unfold d. rewrite upd_ne, copy_trace_disk by lia.
    destruct (Z.leb_spec (start + 1) (start + 1 + Z.of_nat i)); [|lia].
    replace (Z.to_nat (start + 1 + Z.of_nat i - (start + 1))) with i by lia. by rewrite Hi.
  - intros n Hn Hnb. unfold d. rewrite upd_ne by (intros ->; by eapply start_not_home).
    rewrite copy_trace_disk. destruct (Z.leb_spec (start + 1) n); [|by apply Hrest].
    destruct (bl !! Z.to_nat (n - (start + 1))) as [bn|] eqn:E; [|by apply Hrest].
    apply lookup_lt_Some in E. destruct Hn. lia.
Qed.

(** A crash at any point of a commit leaves a disk from which recovery reaches the
    contents before the transaction or those after it. *)
Lemma commit_prefix_recovers d0 v bl p :
  blocks_ok d0 -> blocks_ok v -> txn' bl -> lists (d0 start) [] ->
  (forall n, home' n -> n ∉ bl -> d0 n = v n) ->
  p `prefix_of` commit_trace start v bl ->
  recovers' (disk_of d0 p) d0 \/ recovers' (disk_of d0 p) v.
Proof.
  intros Hok Hv Ht Hd Hrest Hp. unfold commit_trace in Hp.
  pose proof (tx_fit _ _ _ Ht) as Hfit.
  assert (forall p, p `prefix_of` copy_trace (start + 1) v bl -> recovers' (disk_of d0 p) d0) as Hcopy.
  { intros p' Hp'. assert (forall n, n ∈ p'.*1 -> start < n /\ ~ home' n) as Hfst.
    { intros n Hn. assert (n ∈ (copy_trace (start + 1) v bl).*1) as Hin.
      { destruct Hp' as [q ->]. rewrite fmap_app. set_solver. }
      apply copy_trace_fst in Hin. split; [lia|]. intros []. lia. }
    exists []. split; [by eapply txn_nil|]. rewrite disk_of_notin by (intros [? _]%Hfst; lia).
    split; [done|]. split; [done|]. intros n Hn _. apply disk_of_notin. intros [_ []]%Hfst. done. }
  apply prefix_app_inv in Hp as [Hp|(p1 & -> & Hp)]; [left; by apply Hcopy|].
  destruct p1 as [|e p2]; [left; rewrite app_nil_r; by apply Hcopy|]. right.
  cbn in Hp. pose proof (prefix_cons_inv_1 _ _ _ _ Hp) as ->. apply prefix_cons_inv_2 in Hp.
  rewrite disk_of_app. cbn [disk_of fold_left fst snd].
  destruct (committed_disk d0 v bl Hok Hv Ht Hrest) as (Hok1 & Hl1 & Hc1 & Hr1).
  eapply (recovery_prefix_recovers _ v bl); try done.
  rewrite (recovery_trace_eq start _ v bl Hc1), upd_eq. exact Hp.
Qed.

Context {S : Type} {BC : BlockCache S} {BCS : BlockCacheSpec S}.
Context (me dev : Z) (dev_nonzero : dev <> 0).

(** A boot from the disk [d] whose recovery is cut off after some of its writes. *)
Definition crashed_boot (d d' : blocks) : Prop :=
  exists th l th' l' (c' : S) p, io_free me th /\ length (lg_block l) = Z.to_nat LOGSIZE /\
    initlog dev start nlog th (l, cboot d) = Ok tt th' (l', c') /\
    p `prefix_of` chist c' /\ d' = disk_of d p.

(** A boot from the disk [d] that completes, leaving [target] outside the log. *)
Definition boots_to (d target : blocks) : Prop :=
  forall th l, io_free me th -> length (lg_block l) = Z.to_nat LOGSIZE ->
  exists th' l' (c' : S), initlog dev start nlog th (l, cboot d) = Ok tt th' (l', c') /\
    holds l' [] /\ forall n, home' n -> disk_of d (chist c') n = target n.

Lemma recovery_trace_full d bl : blocks_ok d -> full_blocks (recovery_trace start d bl).
Proof.
  intros Hd. apply Forall_app. split; [|constructor; [apply head_block_length; [apply Hd|cbn; lia]|done]].
  generalize (start + 1). induction bl as [|bn bl IH]; intros k; constructor; [apply Hd|apply IH].
Qed.

Lemma commit_trace_full v bl : blocks_ok v -> txn' bl -> full_blocks (commit_trace start v bl).
Proof.
  intros Hv Ht. pose proof (tx_room _ _ _ Ht) as Hr. unfold NBUF in Hr.
  assert (length (head_block (v start) bl) = Z.to_nat BSIZE) as Hh
    by (apply head_block_length; [apply Hv|change (Z.to_nat LOGSIZE) with 30%nat; lia]).
  apply Forall_app. split; [|constructor; [exact Hh|]; apply Forall_app; split].
  - clear -Hv. generalize (start + 1). induction bl as [|bn bl IH]; intros k; constructor; [apply Hv|apply IH].
  - apply Forall_fmap, Forall_true. intros x. apply Hv.
  - constructor; [|done]. apply head_block_length; [exact Hh|cbn; lia].
Qed.

Lemma recovers_run d target th l :
  blocks_ok d -> recovers' d target -> io_free me th -> length (lg_block l) = Z.to_nat LOGSIZE ->
  exists bl th' l' (c' : S), initlog dev start nlog th (l, cboot d) = Ok tt th' (l', c') /\
    holds l' [] /\ chist c' = recovery_trace start d bl /\ txn' bl /\ lists (d start) bl /\
    (forall i bn, bl !! i = Some bn -> d (start + 1 + Z.of_nat i) = target bn) /\
    (forall n, home' n -> n ∉ bl -> d n = target n).
Proof.
  intros Hok (bl & Ht & Hl & Hlog & Hrest) Hio Hlen.
  pose proof (initlog_ok me dev d start nlog l bl (cboot d) d [] th Ht Hl Hlen Hio
    (crepr_boot me dev d dev_nonzero Hok)) as Hwp.
  apply wp_ok in Hwp as ([] & th' & [l' c'] & E & _ & _ & _ & _ & _ & _ & Hh & Hc). cbn [fst snd] in *.
  exists bl, th', l', c'. split; [exact E|]. split; [done|]. apply crepr_hist in Hc. done.
Qed.

Lemma crashed_boot_recovers d d' target :
  blocks_ok target -> blocks_ok d -> recovers' d target -> crashed_boot d d' ->
  blocks_ok d' /\ recovers' d' target.
Proof.
  intros Htl Hok Hr (th & l & th' & l' & c' & p & Hio & Hlen & E & Hp & ->).
  destruct (recovers_run d target th l Hok Hr Hio Hlen)
    as (bl & th1 & l1 & c1 & E1 & _ & Hh & Ht & Hl & Hlog & Hrest).
  rewrite E in E1. injection E1 as <- <- <-. rewrite Hh in Hp.
  split; [|by eapply recovery_prefix_recovers].
  apply disk_of_blocks_ok; [done|]. eapply full_blocks_prefix; [done|by apply recovery_trace_full].
Qed.

Lemma recovers_boots_to d target :
  blocks_ok d -> recovers' d target -> boots_to d target.
Proof.
  intros Hok Hr th l Hio Hlen.
  destruct (recovers_run d target th l Hok Hr Hio Hlen)
    as (bl & th' & l' & c' & E & Hh & Hc & Ht & Hl & Hlog & Hrest).
  exists th', l', c'. split; [exact E|]. split; [done|]. intros n Hn.
  rewrite Hc, (recovery_trace_eq start d target bl Hlog), disk_of_snoc.
  rewrite upd_ne by (intros ->; by eapply start_not_home).
  rewrite installed_disk. destruct (decide (n ∈ bl)); [done|by apply Hrest].
Qed.

(** Any number of recoveries may be cut off before one completes. *)
Lemma recovers_reboots d d' target :
  blocks_ok target -> blocks_ok d -> recovers' d target -> rtc crashed_boot d d' -> boots_to d' target.
Proof.
  intros Htl Hok Hr Hd. assert (blocks_ok d' /\ recovers' d' target) as [].
  { eapply (rtc_invariant crashed_boot (fun d => blocks_ok d /\ recovers' d target)); [|by split|exact Hd].
    intros a b [] ?. by eapply crashed_boot_recovers. }
  by apply recovers_boots_to.
Qed.

(** Committing is atomic under crashes, whatever implements the cache. *)
Lemma commit_atomic l bl base (c : S) v w th :
  txn' bl -> bl <> [] -> holds l bl -> lg_start l = start -> lg_dev l = dev -> io_free me th ->
  crepr me dev base c v w (list_to_set bl) [] -> blocks_ok (disk_of base w) ->
  lists (disk_of base w start) [] ->
  exists th' c' tr, commit th (l, c) = Ok tt th' (set_n 0 l, c') /\ same_thread th th' /\
    chist c' = w ++ tr /\ crepr me dev base c' (disk_of v tr) (w ++ tr) ∅ [] /\
    lists (disk_of v tr start) [] /\
    (forall n, home' n -> disk_of base (w ++ tr) n = v n) /\
    forall p, p `prefix_of` tr -> exists target, (target = disk_of base w \/ target = v) /\
      forall d, rtc crashed_boot (disk_of base (w ++ p)) d -> boots_to d target.
Proof.
  intros Ht Hne Hh Hs Hd Hio Hc Hok Hl.
  pose proof (crepr_len _ _ _ _ _ _ _ _ Hc) as Hv.
  assert (forall n, home' n -> n ∉ bl -> disk_of base w n = v n) as Hrest.
  { intros n _ Hn. symmetry. eapply crepr_clean; [done|by rewrite elem_of_list_to_set|set_solver]. }
  pose proof (commit_ok me dev base start nlog l bl c v w th Ht Hne Hh Hs Hd Hio Hc) as Hwp.
  apply wp_ok in Hwp as ([] & th' & [l' c'] & E & Hth & El & Hc'). cbn [fst snd] in *. subst l'.
  exists th', c', (commit_trace start v bl). split; [exact E|]. split; [done|].
  split; [by eapply crepr_hist|]. split; [done|]. split; [|split].
  - unfold commit_trace. rewrite !app_assoc, disk_of_snoc, upd_eq.
    apply head_block_lists; [|cbn; lia|set_solver]. apply head_block_length; [apply Hv|].
    pose proof (tx_room _ _ _ Ht) as Hroom. unfold NBUF in Hroom. change (Z.to_nat LOGSIZE) with 30%nat. lia.
  - intros n Hn. rewrite <- (crepr_clean _ _ _ _ _ _ _ _ n Hc') by set_solver. unfold commit_trace.
    rewrite !disk_of_app. rewrite disk_of_notin by (intros ->%list_elem_of_singleton; by eapply start_not_home).
    rewrite installed_disk. destruct (decide (n ∈ bl)) as [|Hnb]; [done|].
    rewrite disk_of_notin by (intros ->%list_elem_of_singleton; by eapply start_not_home).
    apply disk_of_notin. intros Hin%copy_trace_fst. apply Hn. pose proof (tx_fit _ _ _ Ht). lia.
  - intros p Hp. rewrite disk_of_app.
    assert (blocks_ok (disk_of (disk_of base w) p)) as Hokp.
    { apply disk_of_blocks_ok; [done|]. eapply full_blocks_prefix; [done|by apply commit_trace_full]. }
    destruct (commit_prefix_recovers (disk_of base w) v bl p Hok Hv Ht Hl Hrest Hp) as [Hr|Hr].
    + exists (disk_of base w). split; [by left|]. intros d. by apply recovers_reboots.
    + exists v. split; [by right|]. intros d. by apply recovers_reboots.
Qed.
End Crash.

(** ** Recording a block in the log *)

Section LogWrite.
Context {S : Type} {BC : BlockCache S} {BCS : BlockCacheSpec S}.
Context (me dev : Z) (base : blocks).
Notation crepr' := (crepr me dev base).

(** The blocks of the transaction after [log_write] of block [n]. *)
Definition absorb (n : Z) (bl : list Z) : list Z := if decide (n ∈ bl) then bl else bl ++ [n].

Lemma absorb_index_ok n bl1 bl2 blk :
  (forall i bn, (bl1 ++ bl2) !! i = Some bn -> blk !! i = Some bn) ->
  (forall bn, bn ∈ bl1 ++ bl2 -> 0 <= bn < 2 ^ 31) -> n ∉ bl1 ->
  exists i, absorb_index (length bl2) (Z.of_nat (length bl1)) n blk = Some (Z.of_nat i) /\
    (if decide (n ∈ bl1 ++ bl2) then (bl1 ++ bl2) !! i = Some n else i = length (bl1 ++ bl2)).
Proof.
  revert bl1. induction bl2 as [|x bl2 IH]; intros bl1 Hblk Hr Hn; cbn [length absorb_index].
  - exists (length bl1). rewrite app_nil_r, decide_False by done. done.
  - rewrite znth_of_nat, (Hblk (length bl1) x) by by apply list_lookup_middle. cbn [mbind option_bind].
    rewrite u32_id by (specialize (Hr x ltac:(set_solver)); lia).
    destruct (Z.eqb_spec x n) as [->|Hne].
    + exists (length bl1). rewrite decide_True by set_solver. split; [done|]. by apply list_lookup_middle.
    + replace (Z.of_nat (length bl1) + 1) with (Z.of_nat (length (bl1 ++ [x])))
        by (rewrite length_app; cbn [length]; lia).
      destruct (IH (bl1 ++ [x])) as (i & E & Hi); rewrite <- ?app_assoc; try done; [set_solver|].
      exists i. rewrite <- app_assoc in Hi. done.
Qed.

Lemma holds_same_block l bl n i :
  holds l bl -> bl !! i = Some n -> holds (set_block (zupd (lg_block l) (Z.of_nat i) n) l) bl.
Proof.
  intros [Hl Hn Hb] Hi. split; cbn; [by rewrite length_zupd|done|].
  rewrite zupd_of_nat, list_insert_id by by apply Hb. done.
Qed.

Lemma holds_new_block l bl n :
  holds l bl -> (length bl < Z.to_nat LOGSIZE)%nat ->
  holds (set_n (i32 (lg_n l + 1)) (set_block (zupd (lg_block l) (Z.of_nat (length bl)) n) l)) (bl ++ [n]).
Proof.
  change (Z.to_nat LOGSIZE) with 30%nat. intros [Hl Hn Hb] Hlt. change (Z.to_nat LOGSIZE) with 30%nat in Hl.
  split; cbn [lg_block lg_n set_n set_block].
  - by rewrite length_zupd.
  - rewrite Hn, i32_id, length_app by lia. cbn [length]. lia.
  - intros i bn Hi. rewrite zupd_of_nat. apply lookup_app_Some in Hi as [Hi|[Hge Hi]].
    + rewrite list_lookup_insert_ne; [by apply Hb|]. apply lookup_lt_Some in Hi. lia.
    + apply list_lookup_singleton_Some in Hi as [Hi ->].
      replace i with (length bl) by lia. apply list_lookup_insert_eq. lia.
Qed.

Lemma log_write_ok l bl c v w H n b th :
  holds l bl -> NoDup bl -> (forall bn, bn ∈ bl -> 0 <= bn < 2 ^ 31) -> 0 <= n < 2 ^ 31 ->
  Z.of_nat (length bl) < LOGSIZE -> Z.of_nat (length bl) < lg_size l - 1 -> 1 <= lg_outstanding l ->
  LkLog ∉ th_held th -> io_free me th -> crepr' c v w (list_to_set bl) H -> (n, b) ∈ H ->
  wp (log_write b) (fun _ th' s' => same_thread th th' /\ same_params l (fst s') /\
    holds (fst s') (absorb n bl) /\ crepr' (snd s') v w (list_to_set (absorb n bl)) H) th (l, c).
Proof.
  intros Hh Hnd Hr Hn Hlt Hsz Hout Hlk Hio Hc Hin. pose proof (hd_n _ _ Hh) as Hln.
  unfold log_write. apply wp_bind. unfold wp at 1. rewrite acquire_ok by done.
  set (th1 := set_held _ th). apply lg_get_step.
  assert ((lg_n l >=? LOGSIZE) || (lg_n l >=? lg_size l - 1) = false) as -> by (rewrite Hln; lia).
  destruct (Z.ltb_spec (lg_outstanding l) 1); [lia|]. cbn [when].
  apply wp_bind, wp_ret. apply wp_bind, wp_ret.
  apply wp_bind, wp_zoom. eapply wp_eq; [by eapply bblockno_spec|]. cbn [view over bc_lens snd fst].
  destruct (absorb_index_ok n [] bl (lg_block l)) as (i & E & Hi); try done; [apply Hh|set_solver|].
  rewrite Hln, Nat2Z.id. change (Z.of_nat (length (A := Z) [])) with 0 in E. cbn [app] in Hi. rewrite E.
  apply wp_bind, wp_ret. rewrite (i32_id n) by lia.
  assert (Z.of_nat i < LOGSIZE) as Hi30.
  { destruct (decide (n ∈ bl)); [apply lookup_lt_Some in Hi; lia|by subst]. }
  destruct (Z.geb_spec (Z.of_nat i) LOGSIZE); [lia|]. cbn [when]. apply wp_bind, wp_ret.
  apply wp_bind, wp_zoom. unfold wp at 1, put. cbn [view over lg_lens snd fst].
  assert (LkLog ∉ th_held th) as Hrel by done.
  unfold absorb. destruct (decide (n ∈ bl)) as [Hnin|Hnin].
  - assert (i < length bl)%nat as Hlen by by eapply lookup_lt_Some.
    destruct (Z.eqb_spec (Z.of_nat i) (Z.of_nat (length bl))); [lia|]. cbn [when]. apply wp_bind, wp_ret.
    eapply wp_eq; [by apply release_acquired|]. cbn [fst snd]. split; [done|]. split; [done|].
    split; [by apply holds_same_block|done].
  - subst i. rewrite Z.eqb_refl. cbn [when]. apply wp_bind. eapply io_step.
    { eapply (bpin_spec me dev base c); try done; [|by rewrite elem_of_list_to_set].
      destruct Hio as (Hio1 & Hio2 & Hio3). split; [|split; [|done]]; cbn; set_solver. }
    intros [] th2 c2 [Hth2 Hc2]. unfold wp at 1, zoom, modify. cbn [view over lg_lens snd fst].
    assert (th_held th2 = LkLog :: th_held th) as Hheld by (by destruct Hth2 as (-> & _)).
    eapply wp_eq; [by apply (release_ok LkLog (th_held th))|]. cbn [fst snd].
    split; [|split; [done|split; [|]]].
    + destruct Hth2 as (_ & Hp1 & Hp2). by split.
    + apply (holds_new_block l bl n); [done|]. change (Z.to_nat LOGSIZE) with 30%nat. unfold LOGSIZE, MAXOPBLOCKS in Hlt. lia.
    + replace (list_to_set (bl ++ [n]) : gset Z) with ({[n]} ∪ list_to_set bl : gset Z); [done|].
      rewrite list_to_set_app_L. cbn. set_solver.
Qed.
End LogWrite.
