(* ===== verification/LogProto.v ===== *)
(** * Sharing the log between system calls (kernel/log.c)

    Several system calls run at once: each calls [begin_op], then [log_write] up to
    [MAXOPBLOCKS] times, then [end_op]; the last one to leave commits.  Between two
    critical sections the calls interleave freely, and the buffer cache may do
    anything: nothing of the interface's contract is used here. *)

From S2P Require Import Prelude Layout Bytes BlockCache Log.

(** Where a system call is: outside, waiting or asleep in [begin_op], inside with
    [used] calls of [log_write] made, or committing in [end_op]. *)
Inductive lthread := LOut | LWant | LAsleep | LIn (used : nat) | LCommit.

Record lsys (S : Type) := mkLsys { ls_log : log; ls_cache : S; ls_thr : list lthread }.
Arguments mkLsys {S} _ _ _.
Arguments ls_log {S} _.
Arguments ls_cache {S} _.
Arguments ls_thr {S} _.

Inductive lact := ActBegin (i : nat) | ActWrite (i b : nat) | ActEnd (i : nat) | ActCommit (i : nat).

Section Proto.
Context {S : Type} {BC : BlockCache S}.

Definition op_thread (i : nat) : thread := mkThread [] i (Z.of_nat i + 1) [].

Definition lwake (th : thread) (t : lthread) : lthread :=
  match t with LAsleep => if bool_decide (ChLog ∈ th_woken th) then LWant else LAsleep | t => t end.

(** Thread [i] goes on as [t]; those its stretch has woken up go on too. *)
Definition resume (i : nat) (t : lthread) (th : thread) (ls : log * S) (s : lsys S) : lsys S :=
  mkLsys (fst ls) (snd ls) (<[i := t]> (lwake th <$> ls_thr s)).

(** One stretch of a system call, by running its code. *)
Definition do_act (a : lact) (s : lsys S) : option (lsys S) :=
  let st := (ls_log s, ls_cache s) in
  match a with
  | ActBegin i =>
      match ls_thr s !! i with
      | Some LOut | Some LWant =>
          match begin_op (op_thread i) st with
          | Ok _ th st' => Some (resume i (LIn 0) th st' s)
          | Sleep _ th st' => Some (resume i LAsleep th st' s)
          | _ => None
          end
      | _ => None
      end
  | ActWrite i b =>
      match ls_thr s !! i with
      | Some (LIn k) =>
          if (Z.of_nat k <? MAXOPBLOCKS)
          then match log_write b (op_thread i) st with
               | Ok _ th st' => Some (resume i (LIn (Datatypes.S k)) th st' s)
               | _ => None
               end
          else None
      | _ => None
      end
  | ActEnd i =>
      match ls_thr s !! i with
      | Some (LIn k) =>
          match end_op_enter (op_thread i) st with
          | Ok do_commit th st' => Some (resume i (if do_commit then LCommit else LOut) th st' s)
          | _ => None
          end
      | _ => None
      end
  | ActCommit i =>
      match ls_thr s !! i with
      | Some LCommit =>
          match (commit;;; end_op_leave) (op_thread i) st with
          | Ok _ th st' => Some (resume i LOut th st' s)
          | _ => None
          end
      | _ => None
      end
  end.

Inductive lstep : lsys S -> lsys S -> Prop :=
| ls_act a s s' : do_act a s = Some s' -> lstep s s'
| ls_env s c : lstep s (mkLsys (ls_log s) c (ls_thr s)).

Definition lstart (l : log) (c : S) (n : nat) : lsys S := mkLsys l c (replicate n LOut).

(** A schedule, and that it is a run. *)
Fixpoint do_acts (acts : list lact) (s : lsys S) : option (lsys S) :=
  match acts with [] => Some s | a :: acts => s' ← do_act a s; do_acts acts s' end.

Lemma do_acts_rtc acts s s' : do_acts acts s = Some s' -> rtc lstep s s'.
Proof.
  revert s. induction acts as [|a acts IH]; intros s E; cbn in E; [by injection E as ->|].
  apply bind_Some in E as (s1 & E1 & E). eapply rtc_l; [by eapply ls_act|by apply IH].
Qed.

(** ** What the pieces do to the log, whatever the cache does *)

Lemma io_keeps {A} (m : M S A) l c th a th' s' :
  zoom bc_lens m th (l, c) = Ok a th' s' -> fst s' = l.
Proof. unfold zoom. cbn. destruct (m th c); intros [=]; by subst. Qed.

(** A computation that leaves [struct log] alone. *)
Definition keeps_log {A} (m : M (log * S) A) : Prop :=
  forall th s a th' s', m th s = Ok a th' s' -> fst s' = fst s.

Lemma keeps_bind {A B} (m : M (log * S) A) (k : A -> M (log * S) B) :
  keeps_log m -> (forall a, keeps_log (k a)) -> keeps_log (bind m k).
Proof.
  intros Hm Hk th s b th' s' (a & th1 & s1 & E1 & E2)%bind_inv.
  rewrite (Hk a _ _ _ _ _ E2). by eapply Hm.
Qed.
Lemma keeps_ret {A} (a : A) : keeps_log (ret a).
Proof. by intros th s b th' s' [= _ _ <-]. Qed.
Lemma keeps_io {A} (m : M S A) : keeps_log (zoom bc_lens m).
Proof. intros th [l c] a th' s'. apply io_keeps. Qed.
Lemma keeps_get : keeps_log (zoom lg_lens get).
Proof. by intros th [l c] a th' s' [= _ _ <-]. Qed.
Lemma keeps_deref {A} why (o : option A) : keeps_log (deref why o).
Proof. destruct o; [apply keeps_ret|done]. Qed.
Lemma keeps_when b m : keeps_log m -> keeps_log (when b m).
Proof. destruct b; [done|intros _; apply keeps_ret]. Qed.

Ltac keeps := repeat first
  [apply keeps_get | apply keeps_io | apply keeps_deref | apply keeps_ret | apply keeps_when
  | apply keeps_bind; [|intros ?]].

Lemma keeps_for_tail body k i : (forall t, keeps_log (body t)) -> keeps_log (for_tail body k i).
Proof.
  intros Hb. revert i. induction k as [|k IH]; intros i; cbn; [apply keeps_ret|]. by apply keeps_bind.
Qed.
Lemma keeps_write_head : keeps_log write_head.
Proof. unfold write_head. keeps. Qed.
Lemma keeps_install rec : keeps_log (install_trans rec).
Proof.
  unfold install_trans. apply keeps_bind; [keeps|]. intros l. apply keeps_for_tail. intros t.
  unfold install_body, lh_block. keeps.
Qed.
Lemma keeps_write_log : keeps_log write_log.
Proof.
  unfold write_log. apply keeps_bind; [keeps|]. intros l. apply keeps_for_tail. intros t.
  unfold write_log_body, lh_block. keeps.
Qed.

(** Committing empties the log and changes nothing else of it. *)
Lemma commit_log th s a th' s' :
  commit th s = Ok a th' s' -> 0 <= lg_n (fst s) -> fst s' = set_n 0 (fst s).
Proof.
  unfold commit. intros (l & th1 & s1 & E1 & E)%bind_inv Hn. destruct s as [l0 c0].
  injection E1 as <- <- <-. cbn [fst snd] in *. destruct (Z.ltb_spec 0 (lg_n l0)); cbn [when] in E.
  - apply bind_inv in E as (a1 & th1' & s1 & E1 & E). apply keeps_write_log in E1.
    apply bind_inv in E as (a2 & th2 & s2 & E2 & E). apply keeps_write_head in E2.
    apply bind_inv in E as (a3 & th3 & s3 & E3 & E). apply keeps_install in E3.
    apply bind_inv in E as (a4 & th4 & s4 & E4 & E). apply keeps_write_head in E.
    injection E4 as _ _ <-. cbn [fst lg_lens over view] in *. congruence.
  - injection E as _ _ <-. cbn. replace 0 with (lg_n l0) by lia. by destruct l0.
Qed.

(** The critical sections as functions of the log. *)
Lemma begin_op_eq l (c : S) i :
  begin_op (op_thread i) (l, c) =
    if ctrue (lg_committing l) || (LOGSIZE <? i32 (lg_n l + (lg_outstanding l + 1) * MAXOPBLOCKS))
    then Sleep ChLog (op_thread i) (l, c)
    else Ok tt (op_thread i) (set_outstanding (i32 (lg_outstanding l + 1)) l, c).
Proof.
  unfold begin_op. rewrite (bind_ok _ _ _ _ _ _ _ (acquire_ok LkLog (op_thread i) (l, c) (not_elem_of_nil _))).
  unfold bind at 1, zoom at 1, get. cbn [view over lg_lens fst snd].
  destruct (ctrue (lg_committing l)); [by apply sleep_on_acquired, not_elem_of_nil|]. cbn [orb].
  destruct (LOGSIZE <? _); [by apply sleep_on_acquired, not_elem_of_nil|].
  unfold bind, zoom, put. cbn. by apply (release_acquired LkLog (op_thread i)), not_elem_of_nil.
Qed.

Lemma end_op_enter_eq l (c : S) i :
  end_op_enter (op_thread i) (l, c) =
    let l1 := set_outstanding (i32 (lg_outstanding l - 1)) l in
    if ctrue (lg_committing l) then Panic "log.committing"
    else if lg_outstanding l1 =? 0 then Ok true (op_thread i) (set_committing 1 l1, c)
    else Ok false (woke ChLog (op_thread i)) (l1, c).
Proof.
  unfold end_op_enter.
  rewrite (bind_ok _ _ _ _ _ _ _ (acquire_ok LkLog (op_thread i) (l, c) (not_elem_of_nil _))).
  unfold bind, zoom, modify, get, when, put, wakeup, ret. cbn -[release].
  destruct (ctrue (lg_committing l)); [done|]. cbn -[release].
  destruct (i32 (lg_outstanding l - 1) =? 0); cbn -[release].
  - by rewrite (release_acquired LkLog (op_thread i)) by apply not_elem_of_nil.
  - by rewrite (release_acquired LkLog (woke ChLog (op_thread i))) by apply not_elem_of_nil.
Qed.

Lemma end_op_leave_inv th (s : log * S) a th' s' :
  end_op_leave th s = Ok a th' s' -> fst s' = set_committing 0 (fst s) /\ ChLog ∈ th_woken th'.
Proof.
  unfold end_op_leave. destruct s as [l c]. intros (? & th1 & s1 & E1 & E)%bind_inv.
  unfold acquire in E1. destruct (bool_decide _); [done|]. injection E1 as _ <- <-.
  unfold bind, zoom, modify, wakeup in E. cbn in E. unfold release in E. destruct (bool_decide _); [|done].
  injection E as _ <- <-. split; [done|]. cbn. left.
Qed.

Lemma log_write_inv b i l (c : S) a th' s' :
  log_write b (op_thread i) (l, c) = Ok a th' s' ->
  (lg_n l < LOGSIZE /\ lg_n l < lg_size l - 1 /\ 1 <= lg_outstanding l) /\
  exists blk d, (d = 0 \/ d = 1) /\ fst s' = set_n (if d =? 0 then lg_n l else i32 (lg_n l + d)) (set_block blk l).
Proof.
  unfold log_write. intros (? & th1 & s1 & E1 & E)%bind_inv.
  rewrite acquire_ok in E1 by apply not_elem_of_nil. injection E1 as _ <- <-.
  apply bind_inv in E as (l1 & th1 & s1 & E1 & E). injection E1 as <- <- <-. cbn [fst snd] in E.
  apply bind_inv in E as (? & th1 & s1 & E1 & E).
  destruct ((lg_n l >=? LOGSIZE) || (lg_n l >=? lg_size l - 1)) eqn:Eg; [done|].
  apply orb_false_iff in Eg as [Eg1 Eg2]. injection E1 as _ <- <-.
  apply bind_inv in E as (? & th1 & s1 & E1 & E). destruct (Z.ltb_spec (lg_outstanding l) 1); [done|].
  injection E1 as _ <- <-. split; [lia|].
  apply bind_inv in E as (bn & th1 & s1 & E1 & E). apply io_keeps in E1.
  apply bind_inv in E as (j & th2 & s2 & E2 & E). apply keeps_deref in E2.
  apply bind_inv in E as (? & th3 & s3 & E3 & E). destruct (j >=? LOGSIZE); [done|]. injection E3 as _ <- <-.
  apply bind_inv in E as (? & th4 & [l4 c4] & E4 & E). destruct s2 as [l2 c2]. injection E4 as _ <- <- <-.
  apply bind_inv in E as (? & th5 & s5 & E5 & E). unfold release in E. destruct (bool_decide _); [|done].
  injection E as _ _ <-. exists (zupd (lg_block l) j (i32 bn)).
  destruct (j =? lg_n l); cbn [when] in E5.
  - exists 1. split; [by right|]. apply bind_inv in E5 as (? & th6 & s6 & E6 & E7). apply io_keeps in E6.
    destruct s6 as [l6 c6]. injection E7 as _ _ <-. cbn in *. by subst.
  - exists 0. split; [by left|]. injection E5 as _ _ <-. by destruct l.
Qed.
End Proto.

(** ** Counting *)

Definition zsum {A} (f : A -> Z) (ts : list A) : Z := fold_right (fun t a => f t + a) 0 ts.

#[global] Arguments zsum : simpl never.

Lemma zsum_cons {A} (f : A -> Z) x ts : zsum f (x :: ts) = f x + zsum f ts.
Proof. done. Qed.

Lemma zsum_insert {A} (f : A -> Z) ts i t t' :
  ts !! i = Some t -> zsum f (<[i := t']> ts) = zsum f ts - f t + f t'.
Proof.
  revert i. induction ts as [|x ts IH]; intros [|i] Hi; try done.
  - injection Hi as ->. change (<[0%nat := t']> (t :: ts)) with (t' :: ts). rewrite !zsum_cons. lia.
  - change (<[S i := t']> (x :: ts)) with (x :: <[i := t']> ts). rewrite !zsum_cons, IH by done. lia.
Qed.

Lemma zsum_ext_fmap {A} (f : A -> Z) (g : A -> A) (ts : list A) :
  (forall t, f (g t) = f t) -> zsum f (g <$> ts) = zsum f ts.
Proof.
  intros Hg. induction ts as [|x ts IH]; [done|]. rewrite fmap_cons, !zsum_cons. by rewrite Hg, IH.
Qed.

Lemma zsum_nonneg {A} (f : A -> Z) ts : (forall t, 0 <= f t) -> 0 <= zsum f ts.
Proof. intros Hf. induction ts as [|x ts IH]; [done|]. rewrite zsum_cons. specialize (Hf x). lia. Qed.

Lemma zsum_elem {A} (f : A -> Z) ts i t :
  (forall t, 0 <= f t) -> ts !! i = Some t -> f t <= zsum f ts.
Proof.
  intros Hf. revert i. induction ts as [|x ts IH]; intros [|i] Hi; try done; rewrite zsum_cons.
  - injection Hi as ->. pose proof (zsum_nonneg f ts Hf). lia.
  - specialize (IH i Hi). specialize (Hf x). lia.
Qed.

Lemma zsum_zero {A} (f : A -> Z) n (x : A) : f x = 0 -> zsum f (replicate n x) = 0.
Proof. intros Hx. induction n as [|n IH]; [done|]. cbn [replicate]. rewrite zsum_cons. lia. Qed.

Lemma zsum_le {A} (f g : A -> Z) ts : (forall t, f t <= g t) -> zsum f ts <= zsum g ts.
Proof. intros Hf. induction ts as [|x ts IH]; [done|]. rewrite !zsum_cons. specialize (Hf x). lia. Qed.

(** ** The invariant *)

(** Whether a system call is inside, what it may still write, whether it commits. *)
Definition inside (t : lthread) : Z := match t with LIn _ => 1 | _ => 0 end.
Definition budget (t : lthread) : Z := match t with LIn k => Z.max 0 (MAXOPBLOCKS - Z.of_nat k) | _ => 0 end.
Definition committer (t : lthread) : Z := match t with LCommit => 1 | _ => 0 end.

Record log_inv (size : Z) (l : log) (ts : list lthread) : Prop := mkLogInv {
  li_size : lg_size l = size;
  li_n : 0 <= lg_n l;
  li_out : lg_outstanding l = zsum inside ts;
  li_com : lg_committing l = zsum committer ts;
  li_one : lg_committing l <= 1 /\ (lg_committing l = 1 -> lg_outstanding l = 0);
  li_few : lg_outstanding l <= 3;
  li_budget : lg_n l + zsum budget ts <= LOGSIZE;
  li_idle : lg_committing l = 0 -> lg_outstanding l = 0 -> lg_n l = 0;
  li_sleep : forall i, ts !! i = Some LAsleep ->
    lg_committing l = 1 \/ LOGSIZE < lg_n l + (lg_outstanding l + 1) * MAXOPBLOCKS;
}.

Lemma lwake_sums (f : lthread -> Z) th ts :
  f LAsleep = f LWant -> zsum f (lwake th <$> ts) = zsum f ts.
Proof. intros Hf. apply zsum_ext_fmap. intros []; cbn; try done. by destruct (bool_decide _). Qed.

Lemma resume_sum {S} (f : lthread -> Z) i t t' th (st : log * S) s :
  ls_thr s !! i = Some t -> f LAsleep = f LWant -> f (lwake th t) = f t ->
  zsum f (ls_thr (resume i t' th st s)) = zsum f (ls_thr s) - f t + f t'.
Proof.
  intros Hi Hf Ht. cbn. rewrite (zsum_insert f _ i (lwake th t)).
  - rewrite lwake_sums by done. lia.
  - by rewrite list_lookup_fmap, Hi.
Qed.

(** Who sleeps after a stretch slept before it or went to sleep in it. *)
Lemma resume_asleep {S} i t' th (st : log * S) s j :
  ls_thr (resume i t' th st s) !! j = Some LAsleep ->
  (j = i /\ t' = LAsleep) \/ (ls_thr s !! j = Some LAsleep /\ ChLog ∉ th_woken th).
Proof.
  cbn. intros [(<- & <- & _)|[Hne Hj]]%list_lookup_insert_Some; [by left|right].
  apply list_lookup_fmap_Some in Hj as (t & Ht & Hj). destruct t; cbn in Ht; try done.
  case_bool_decide; [done|]. done.
Qed.

Lemma budget_le_inside ts : zsum budget ts <= MAXOPBLOCKS * zsum inside ts.
Proof.
  induction ts as [|t ts IH]; [done|]. rewrite !zsum_cons. destruct t; cbn [budget inside]; unfold MAXOPBLOCKS in *; lia.
Qed.

Section Invariant.
Context {S : Type} {BC : BlockCache S}.

(** The invariant after thread [i] has gone from [t] to [t'] and the log to [st]. *)
Lemma log_inv_resume size (s : lsys S) i t t' th st :
  let l := ls_log s in
  let l' := fst st in
  log_inv size l (ls_thr s) -> ls_thr s !! i = Some t -> (forall th, lwake th t = t) ->
  lg_size l' = size -> 0 <= lg_n l' ->
  lg_outstanding l' = lg_outstanding l - inside t + inside t' ->
  lg_committing l' = lg_committing l - committer t + committer t' ->
  lg_committing l' <= 1 -> (lg_committing l' = 1 -> lg_outstanding l' = 0) -> lg_outstanding l' <= 3 ->
  lg_n l' + (zsum budget (ls_thr s) - budget t + budget t') <= LOGSIZE ->
  (lg_committing l' = 0 -> lg_outstanding l' = 0 -> lg_n l' = 0) ->
  (t' = LAsleep \/
     ChLog ∉ th_woken th /\
     (lg_committing l = 1 \/ LOGSIZE < lg_n l + (lg_outstanding l + 1) * MAXOPBLOCKS) ->
   lg_committing l' = 1 \/ LOGSIZE < lg_n l' + (lg_outstanding l' + 1) * MAXOPBLOCKS) ->
  log_inv size (ls_log (resume i t' th st s)) (ls_thr (resume i t' th st s)).
Proof.
  intros l l' [Hsz Hn Ho Hc H1 Hf Hb Hi Hs] Et Hw. intros. split; try done.
  - by rewrite (resume_sum inside i t), <- Ho by (done || by rewrite Hw).
  - by rewrite (resume_sum committer i t), <- Hc by (done || by rewrite Hw).
  - rewrite (resume_sum budget i t) by (done || by rewrite Hw). done.
  - intros j [[_ Hj]|[Hj1 Hj2]]%resume_asleep; cbn [ls_log resume]; fold l'; [auto|].
    specialize (Hs j Hj1). auto.
Qed.

Lemma log_inv_bounds size (s : lsys S) :
  log_inv size (ls_log s) (ls_thr s) ->
  0 <= lg_outstanding (ls_log s) <= 3 /\ 0 <= lg_committing (ls_log s) <= 1 /\
  0 <= lg_n (ls_log s) <= LOGSIZE - zsum budget (ls_thr s) /\
  0 <= zsum budget (ls_thr s) <= MAXOPBLOCKS * lg_outstanding (ls_log s).
Proof.
  intros [Hsz Hn Ho Hc H1 Hf Hb Hi Hs].
  assert (0 <= zsum inside (ls_thr s) /\ 0 <= zsum committer (ls_thr s) /\ 0 <= zsum budget (ls_thr s)) as (P1 & P2 & P3)
    by (split; [|split]; apply zsum_nonneg; intros []; cbn; lia).
  pose proof (budget_le_inside (ls_thr s)). lia.
Qed.

(** Finish an arithmetic goal about the log after a stretch. *)
Ltac log_arith :=
  cbn [fst lg_size lg_n lg_outstanding lg_committing set_outstanding set_committing set_n set_block
       inside committer budget];
  unfold LOGSIZE, MAXOPBLOCKS in *; repeat rewrite i32_id by lia; lia.

Lemma log_inv_begin size (s : lsys S) i s' :
  log_inv size (ls_log s) (ls_thr s) -> do_act (ActBegin i) s = Some s' ->
  log_inv size (ls_log s') (ls_thr s').
Proof.
  intros Hinv. pose proof (log_inv_bounds _ _ Hinv) as (B1 & B2 & B3 & B4). cbn [do_act].
  destruct (ls_thr s !! i) as [t|] eqn:Et; [|done].
  pose proof (li_size _ _ _ Hinv). pose proof (li_one _ _ _ Hinv). pose proof (li_idle _ _ _ Hinv).
  assert (forall x : option (lsys S), match t with LOut | LWant => x | _ => None end = Some s' ->
    x = Some s' /\ (t = LOut \/ t = LWant)) as Hx by (destruct t; auto; done).
  intros [E Ht]%Hx. clear Hx. rewrite begin_op_eq in E.
  rewrite i32_id in E by log_arith. unfold ctrue in E.
  destruct (negb (lg_committing (ls_log s) =? 0) || _) eqn:Eg; injection E as <-;
    (eapply log_inv_resume; [exact Hinv|exact Et|by destruct Ht as [->| ->]|..]);
    try (destruct Ht as [->| ->]; log_arith).
  intros [?|[_ ?]]; [done|]. log_arith.
Qed.

Lemma log_inv_write size (s : lsys S) i b s' :
  log_inv size (ls_log s) (ls_thr s) -> do_act (ActWrite i b) s = Some s' ->
  log_inv size (ls_log s') (ls_thr s').
Proof.
  intros Hinv. pose proof (log_inv_bounds _ _ Hinv) as (B1 & B2 & B3 & B4). cbn [do_act].
  destruct (ls_thr s !! i) as [[| | |k|]|] eqn:Et; try done. destruct (Z.ltb_spec (Z.of_nat k) MAXOPBLOCKS); [|done].
  pose proof (li_size _ _ _ Hinv). pose proof (li_one _ _ _ Hinv). pose proof (li_idle _ _ _ Hinv).
  destruct (log_write _ _ _) as [[] th st| | | |] eqn:E; try done. intros [= <-].
  apply log_write_inv in E as (Hg & blk & d & Hd & Est).
  eapply log_inv_resume; [exact Hinv|exact Et|done|..]; rewrite Est;
    (destruct Hd as [->| ->]; [|]); cbn [Z.eqb];  try log_arith.
  - intros [?|[_ ?]]; [done|]. log_arith.
  - intros [?|[_ ?]]; [done|]. log_arith.
Qed.

Lemma log_inv_end size (s : lsys S) i s' :
  log_inv size (ls_log s) (ls_thr s) -> do_act (ActEnd i) s = Some s' ->
  log_inv size (ls_log s') (ls_thr s').
Proof.
  intros Hinv. pose proof (log_inv_bounds _ _ Hinv) as (B1 & B2 & B3 & B4). cbn [do_act].
  destruct (ls_thr s !! i) as [[| | |k|]|] eqn:Et; try done.
  pose proof (li_size _ _ _ Hinv). pose proof (li_one _ _ _ Hinv). pose proof (li_idle _ _ _ Hinv).
  assert (inside (LIn k) <= lg_outstanding (ls_log s)) as Hin.
  { rewrite (li_out _ _ _ Hinv). eapply zsum_elem; [intros []; cbn; lia|exact Et]. }
  assert (budget (LIn k) <= zsum budget (ls_thr s)) as Hbu
    by (eapply zsum_elem; [intros []; cbn; lia|exact Et]).
  cbn [inside budget] in Hin, Hbu. rewrite end_op_enter_eq. cbn [lg_outstanding set_outstanding].
  destruct (ctrue _) eqn:Ec; [done|]. unfold ctrue in Ec. rewrite i32_id by log_arith.
  destruct (Z.eqb_spec (lg_outstanding (ls_log s) - 1) 0); intros [= <-];
    (eapply log_inv_resume; [exact Hinv|exact Et|done|..]); try log_arith.
  intros [?|[Hw _]]; [done|]. exfalso. apply Hw. left.
Qed.

Lemma log_inv_commit size (s : lsys S) i s' :
  log_inv size (ls_log s) (ls_thr s) -> do_act (ActCommit i) s = Some s' ->
  log_inv size (ls_log s') (ls_thr s').
Proof.
  intros Hinv. pose proof (log_inv_bounds _ _ Hinv) as (B1 & B2 & B3 & B4). cbn [do_act].
  destruct (ls_thr s !! i) as [[| | |k|]|] eqn:Et; try done.
  pose proof (li_size _ _ _ Hinv). pose proof (li_one _ _ _ Hinv).
  assert (committer LCommit <= lg_committing (ls_log s)) as Hc.
  { rewrite (li_com _ _ _ Hinv). eapply zsum_elem; [intros []; cbn; lia|exact Et]. }
  cbn [committer] in Hc. destruct (bind _ _ _ _) as [[] th st| | | |] eqn:E; try done. intros [= <-].
  apply bind_inv in E as (a & th1 & s1 & E1 & E2). apply commit_log in E1; [|cbn; lia].
  apply end_op_leave_inv in E2 as [E2 Hw]. rewrite E1 in E2. cbn [fst] in E2.
  eapply log_inv_resume; [exact Hinv|exact Et|done|..]; rewrite E2; try log_arith.
  intros [?|[Hw' _]]; [done|]. by destruct Hw'.
Qed.

Lemma log_inv_step size (s s' : lsys S) :
  log_inv size (ls_log s) (ls_thr s) -> lstep s s' -> log_inv size (ls_log s') (ls_thr s').
Proof.
  intros Hinv Hst. destruct Hst as [[i|i b|i|i] s s' E|s c]; [..|exact Hinv].
  - by eapply log_inv_begin.
  - by eapply log_inv_write.
  - by eapply log_inv_end.
  - by eapply log_inv_commit.
Qed.
End Invariant.

(** The start: nobody inside, an empty log. *)
Definition fresh_log (size : Z) (l : log) : Prop :=
  lg_size l = size /\ lg_n l = 0 /\ lg_outstanding l = 0 /\ lg_committing l = 0.

Lemma log_inv_start {S} size l (c : S) n :
  fresh_log size l -> log_inv size (ls_log (lstart l c n)) (ls_thr (lstart l c n)).
Proof.
  intros (Hs & Hn & Ho & Hc). cbn [ls_log ls_thr lstart].
  split; rewrite ?Hn, ?Ho, ?Hc, ?(zsum_zero _ n LOut) by done; try done; try (unfold LOGSIZE, MAXOPBLOCKS; lia).
  intros i Hi. apply lookup_replicate in Hi as [? _]. done.
Qed.

(** C33: the reservations of [begin_op] are enough, in a log with more than [LOGSIZE]
    blocks beside its header.  However system calls that write at most [MAXOPBLOCKS]
    blocks each interleave, and whatever the cache does: a call that is inside and has
    writes left never finds the transaction too big, and finds itself inside; while
    some call commits none is inside (so [end_op] never finds [committing] set); and
    a call asleep in [begin_op] has its reason still, so no wakeup is lost. *)
Theorem log_reservation_sound {S} `{BlockCache S} size l (c : S) n s :
  LOGSIZE + 1 < size -> fresh_log size l -> rtc lstep (lstart l c n) s ->
  (forall i k, ls_thr s !! i = Some (LIn k) ->
    lg_committing (ls_log s) = 0 /\ 1 <= lg_outstanding (ls_log s) /\
    (Z.of_nat k < MAXOPBLOCKS ->
      lg_n (ls_log s) < LOGSIZE /\ lg_n (ls_log s) < lg_size (ls_log s) - 1)) /\
  (forall i j, ls_thr s !! i = Some LCommit -> ls_thr s !! j = Some LCommit -> i = j) /\
  (forall i, ls_thr s !! i = Some LAsleep ->
    (exists j, ls_thr s !! j = Some LCommit) \/ exists j k, ls_thr s !! j = Some (LIn k)).
Proof.
  intros Hsz Hf Hs.
  assert (log_inv size (ls_log s) (ls_thr s)) as Hinv.
  { eapply (rtc_invariant lstep (fun s => log_inv size (ls_log s) (ls_thr s))); [|by apply log_inv_start|exact Hs].
    intros a b. apply log_inv_step. }
  pose proof (log_inv_bounds _ _ Hinv) as (B1 & B2 & B3 & B4).
  destruct Hinv as [Hz Hn Ho Hc [H1 H1'] Hfw Hb Hi Hsl].
  split; [|split].
  - intros i k Ht.
    assert (inside (LIn k) <= zsum inside (ls_thr s)) as Hin by (eapply zsum_elem; [intros []; cbn; lia|exact Ht]).
    assert (budget (LIn k) <= zsum budget (ls_thr s)) as Hbu by (eapply zsum_elem; [intros []; cbn; lia|exact Ht]).
    cbn [inside budget] in Hin, Hbu. unfold LOGSIZE, MAXOPBLOCKS in *. lia.
  - intros i j Hti Htj. destruct (decide (i = j)) as [|Hne]; [done|exfalso].
    pose proof (zsum_insert committer _ i LCommit LOut Hti) as E.
    assert (committer LCommit <= zsum committer (<[i := LOut]> (ls_thr s))) as Hj.
    { eapply (zsum_elem _ _ j); [intros []; cbn; lia|]. by rewrite list_lookup_insert_ne. }
    cbn [committer] in *. lia.
  - intros i Ht. assert (forall f : lthread -> Z, (forall t, 0 <= f t) -> 0 < zsum f (ls_thr s) ->
      exists j t, ls_thr s !! j = Some t /\ 0 < f t) as Hex.
    { intros f Hf0 Hpos. clear -Hf0 Hpos. induction (ls_thr s) as [|t ts IH]; [done|].
      rewrite zsum_cons in Hpos. destruct (decide (0 < f t)); [by exists 0%nat, t|].
      destruct IH as (j & t' & Hj & ?); [lia|]. by exists (Datatypes.S j), t'. }
    destruct (Hsl i Ht) as [Hcm|Hfull].
    + left. destruct (Hex committer) as (j & t & Hj & Hp); [intros []; cbn; lia|lia|]. exists j. by destruct t.
    + destruct (decide (lg_committing (ls_log s) = 0)) as [H0|H0].
      * right. destruct (Hex inside) as (j & t & Hj & Hp); [intros []; cbn; lia| |].
        { destruct (decide (lg_outstanding (ls_log s) = 0)) as [Ho0|]; [|lia].
          specialize (Hi H0 Ho0). unfold LOGSIZE, MAXOPBLOCKS in *. lia. }
        exists j. destruct t; try done. by eexists.
      * left. destruct (Hex committer) as (j & t & Hj & Hp); [intros []; cbn; lia|lia|]. exists j. by destruct t.
Qed.

(** ** The log that mkfs makes *)

(** The least cache the log can run on: a buffer is the number of its block. *)
#[export] Instance number_cache : BlockCache unit := {|
  bread := fun _ n => ret (Z.to_nat n);
  bwrite := fun _ => ret tt;
  brelse := fun _ => ret tt;
  bpin := fun _ => ret tt;
  bunpin := fun _ => ret tt;
  bdata := fun _ => ret [];
  set_bdata := fun _ _ => ret tt;
  bblockno := fun b => ret (Z.of_nat b);
|}.

(** [struct log] after [initlog] on a file system with [nlog] log blocks. *)
Definition log_with (nlog : Z) : log := mkLog 2 nlog 0 0 ROOTDEV 0 (replicate (Z.to_nat LOGSIZE) 0).

(** mkfs/mkfs.c: [int nlog = LOGSIZE;] *)
Definition mkfs_nlog : Z := LOGSIZE.

(** Three system calls that write 10, 10 and 9 different blocks. *)
Definition full_schedule : list lact :=
  [ActBegin 0; ActBegin 1; ActBegin 2] ++
  (ActWrite 0 <$> seq 100 10) ++ (ActWrite 1 <$> seq 110 10) ++ (ActWrite 2 <$> seq 120 9).

(** C36: with the log size mkfs chooses, [LOGSIZE] blocks including the header, the
    reservations are not enough: three system calls are admitted that each stay within
    [MAXOPBLOCKS] blocks, and the tenth write of the third one stops the kernel with
    "too big a transaction". *)
Theorem mkfs_log_too_small :
  exists s, rtc lstep (lstart (log_with mkfs_nlog) tt 3) s /\
    ls_thr s !! 2%nat = Some (LIn 9) /\
    log_write 129 (op_thread 2) (ls_log s, ls_cache s) = Panic "too big a transaction".
Proof.
  destruct (do_acts full_schedule (lstart (log_with mkfs_nlog) tt 3)) as [s|] eqn:E; [|vm_compute in E; discriminate E].
  exists s. split; [by eapply do_acts_rtc|].
  vm_compute in E. injection E as <-. split; reflexivity.
Qed.

Lemma log_reservation_sound_witness :
  exists s, rtc lstep (lstart (log_with 40) tt 3) s /\ lg_n (ls_log s) < LOGSIZE /\ lg_n (ls_log s) = 29.
Proof.
  destruct (do_acts full_schedule (lstart (log_with 40) tt 3)) as [s|] eqn:E; [|vm_compute in E; discriminate E].
  exists s. assert (rtc lstep (lstart (log_with 40) tt 3) s) as Hs by (by eapply do_acts_rtc).
  split; [exact Hs|].
  destruct (log_reservation_sound 40 (log_with 40) tt 3 s) as (H1 & _).
  - unfold LOGSIZE, MAXOPBLOCKS. lia.
  - repeat split.
  - exact Hs.
  - vm_compute in E. injection E as <-. split; [|reflexivity].
    destruct (H1 2%nat 9%nat eq_refl) as (_ & _ & H2). apply H2. reflexivity.
Defined.
