(* ===== verification/Storage.v ===== *)
(** * File system operations over the log and the buffer cache

    The path every modifying system call takes through kernel/log.c and kernel/bio.c:
    [begin_op], then for each block [bread], the change of its data, [log_write] and
    [brelse], then [end_op], which commits.  The results of Log.v, which hold for any
    cache that keeps the interface, are instantiated with the cache of Bio.v. *)

From S2P Require Import Prelude Layout Bytes Sleeplock BlockCache Bio BioSpec Log.

Section Operation.
Context {S : Type} {BC : BlockCache S} {BCS : BlockCacheSpec S}.

(** The use of [log_write] that its comment describes. *)
Definition write_block (n : Z) (d : block) : M (log * S) unit :=
  let! l := zoom lg_lens get in
  let! bp := zoom bc_lens (bread (lg_dev l) n) in
  zoom bc_lens (set_bdata bp d);;;
  log_write bp;;;
  zoom bc_lens (brelse bp).

Fixpoint write_blocks (ups : list (Z * block)) : M (log * S) unit :=
  match ups with
  | [] => ret tt
  | (n, d) :: ups => write_block n d;;; write_blocks ups
  end.

Definition fs_op (ups : list (Z * block)) : M (log * S) unit :=
  begin_op;;; write_blocks ups;;; end_op.

Context (me dev : Z) (base : blocks) (start nlog : Z).
Notation crepr' := (crepr me dev base).

(** The blocks a sequence of updates puts in the log, in order of first use. *)
Fixpoint absorbed (ups : list (Z * block)) (bl : list Z) : list Z :=
  match ups with [] => bl | (n, _) :: ups => absorbed ups (absorb n bl) end.

(** Updates one system call may make. *)
Record op_ok (ups : list (Z * block)) : Prop := mkOpOk {
  op_blocks : full_blocks ups;
  op_size : (length (absorbed ups []) <= Z.to_nat MAXOPBLOCKS)%nat;
  op_home : forall n, n ∈ ups.*1 -> 0 <= n < 2 ^ 31 /\ home start nlog n;
}.

(** The log has room for one system call. *)
Definition log_fits : Prop := 0 <= start /\ start + nlog < 2 ^ 31 /\ MAXOPBLOCKS + 1 < nlog.

Record log_ok (l : log) : Prop := mkLogOk {
  lk_start : lg_start l = start;
  lk_size : lg_size l = nlog;
  lk_dev : lg_dev l = dev;
  lk_place : log_fits;
}.

Lemma log_ok_same l l' : same_params l l' -> log_ok l -> log_ok l'.
Proof. intros (E1 & E2 & E3 & _ & _) [? ? ? ?]. split; congruence || done. Qed.

Lemma absorb_nodup n bl : NoDup bl -> NoDup (absorb n bl).
Proof.
  intros Hn. unfold absorb. case_decide; [done|]. apply NoDup_app. split; [done|].
  split; [|apply NoDup_singleton]. intros x Hx ->%list_elem_of_singleton. done.
Qed.

Lemma elem_of_absorb n bl x : x ∈ absorb n bl <-> x = n \/ x ∈ bl.
Proof. unfold absorb. case_decide; set_solver. Qed.

Lemma elem_of_absorbed ups bl x : x ∈ absorbed ups bl <-> x ∈ ups.*1 \/ x ∈ bl.
Proof.
  revert bl. induction ups as [|[n d] ups IH]; intros bl; cbn [absorbed]; [set_solver|].
  rewrite IH, elem_of_absorb. cbn. set_solver.
Qed.

Lemma absorbed_length ups bl : (length bl <= length (absorbed ups bl))%nat.
Proof.
  revert bl. induction ups as [|[n d] ups IH]; intros bl; cbn [absorbed]; [done|].
  etransitivity; [|apply IH]. unfold absorb. case_decide; [done|]. rewrite length_app. lia.
Qed.

Lemma absorbed_nodup ups bl : NoDup bl -> NoDup (absorbed ups bl).
Proof.
  revert bl. induction ups as [|[n d] ups IH]; intros bl Hn; cbn [absorbed]; [done|].
  by apply IH, absorb_nodup.
Qed.

Lemma write_block_ok l bl c v w n d th :
  log_ok l -> holds l bl -> NoDup bl -> (forall x, x ∈ bl -> 0 <= x < 2 ^ 31) ->
  (length (absorb n bl) <= Z.to_nat MAXOPBLOCKS)%nat -> 0 <= n < 2 ^ 31 ->
  length d = Z.to_nat BSIZE -> 1 <= lg_outstanding l ->
  LkLog ∉ th_held th -> io_free me th -> crepr' c v w (list_to_set bl) [] ->
  wp (write_block n d) (fun _ th' s' => same_thread th th' /\ same_params l (fst s') /\
    holds (fst s') (absorb n bl) /\ crepr' (snd s') (upd v n d) w (list_to_set (absorb n bl)) []) th (l, c).
Proof.
  intros Hlog Hh Hnd Hr Hlen Hn Hd Hout Hlk Hio Hc.
  destruct Hlog as [Hstart Hsize Hdev (Hp1 & Hp2 & Hp3)]. change (Z.to_nat MAXOPBLOCKS) with 10%nat in Hlen.
  assert (length bl <= 10)%nat as Hlen'
    by (etransitivity; [|exact Hlen]; unfold absorb; case_decide; [done|rewrite length_app; lia]).
  assert (size (list_to_set bl : gset Z) < NBUF)%nat as Hsz
    by (rewrite size_list_to_set by done; unfold NBUF; lia).
  unfold write_block. apply lg_get_step. rewrite Hdev.
  eapply io_bread; [done|lia|done|set_solver| |].
  { left. unfold in_use. by rewrite right_id_L by apply _. }
  intros b th1 c1 Hth1 Hc1. eapply io_set_bdata; [done|in_list|done|]. intros c2 Hc2.
  apply wp_bind. eapply wp_mono.
  { eapply (log_write_ok me dev base l bl c2); try done; try (unfold LOGSIZE, MAXOPBLOCKS in *; lia).
    - destruct Hth1 as (-> & _). done.
    - iof.
    - in_list. }
  intros [] th2 [l2 c3] (Hth2 & Hp & Hh2 & Hc3). cbn [fst snd] in *.
  eapply io_brelse_last; [iof|done|left|].
  { apply elem_of_list_to_set, elem_of_absorb. by left. }
  intros th3 c4 Hth3 Hc4. split; [keep_thread|]. by split.
Qed.

Lemma write_blocks_ok l bl c v w ups th :
  log_ok l -> holds l bl -> NoDup bl -> (forall x, x ∈ bl -> 0 <= x < 2 ^ 31) ->
  (length (absorbed ups bl) <= Z.to_nat MAXOPBLOCKS)%nat -> (forall n, n ∈ ups.*1 -> 0 <= n < 2 ^ 31) ->
  full_blocks ups -> 1 <= lg_outstanding l ->
  LkLog ∉ th_held th -> io_free me th -> crepr' c v w (list_to_set bl) [] ->
  wp (write_blocks ups) (fun _ th' s' => same_thread th th' /\ same_params l (fst s') /\
    holds (fst s') (absorbed ups bl) /\
    crepr' (snd s') (disk_of v ups) w (list_to_set (absorbed ups bl)) []) th (l, c).
Proof.
  revert l bl c v th. induction ups as [|[n d] ups IH]; intros l bl c v th Hlog Hh Hnd Hr Hlen Hn Hd Hout Hlk Hio Hc;
    cbn [write_blocks absorbed] in *.
  { apply wp_ret. split; [done|]. split; [done|]. by split. }
  apply Forall_cons in Hd as [Hd1 Hd].
  apply wp_bind. eapply wp_mono.
  { eapply (write_block_ok l bl c v w n d th); try done; [|apply Hn; set_solver].
    etransitivity; [apply absorbed_length|done]. }
  intros [] th1 [l1 c1] (Hth1 & Hp1 & Hh1 & Hc1). cbn [fst snd] in *.
  assert (LkLog ∉ th_held th1) as Hlk1 by (destruct Hth1 as (-> & _); done).
  eapply wp_mono; [eapply (IH l1 (absorb n bl)); try done|].
  - by eapply log_ok_same.
  - by apply absorb_nodup.
  - intros x [->|Hx]%elem_of_absorb; [apply Hn; set_solver|by apply Hr].
  - intros m Hm. apply Hn. set_solver.
  - destruct Hp1 as (_ & _ & _ & -> & _). done.
  - iof.
  - intros [] th2 [l2 c2] (Hth2 & Hp2 & Hh2 & Hc2). split; [keep_thread|]. split; [|done].
    destruct Hp1 as (?&?&?&?&?), Hp2 as (?&?&?&?&?). cbn [fst] in *. repeat split; congruence.
Qed.

Lemma begin_op_ok l (c : S) th :
  lg_committing l = 0 -> lg_outstanding l = 0 -> lg_n l = 0 -> LkLog ∉ th_held th ->
  begin_op th (l, c) = Ok tt th (set_outstanding 1 l, c).
Proof.
  intros Hc Ho Hn Hlk. unfold begin_op. rewrite (bind_ok _ _ _ _ _ _ _ (acquire_ok LkLog th (l, c) Hlk)).
  unfold bind at 1, zoom at 1, get. cbn [view over lg_lens fst snd]. rewrite Hc, Ho, Hn.
  change (i32 (0 + (0 + 1) * MAXOPBLOCKS)) with 10. change (i32 (0 + 1)) with 1.
  unfold bind, zoom, put. cbn. by apply release_acquired.
Qed.

(** The last system call of a group: [end_op] commits. *)
Lemma end_op_ok l (c c' : S) th th' :
  lg_outstanding l = 1 -> lg_committing l = 0 -> LkLog ∉ th_held th -> same_thread th th' ->
  commit th (set_committing 1 (set_outstanding 0 l), c) =
    Ok tt th' (set_n 0 (set_committing 1 (set_outstanding 0 l)), c') ->
  end_op th (l, c) = Ok tt (woke ChLog th') (set_n 0 (set_committing 0 (set_outstanding 0 l)), c').
Proof.
  intros Ho Hc Hlk (Hth & _ & _) Hcommit. unfold end_op.
  assert (end_op_enter th (l, c) = Ok true th (set_committing 1 (set_outstanding 0 l), c)) as E.
  { unfold end_op_enter. rewrite (bind_ok _ _ _ _ _ _ _ (acquire_ok LkLog th (l, c) Hlk)).
    unfold bind, zoom, modify, get, put, when, ret. cbn. rewrite Hc, Ho.
    change (i32 (1 - 1)) with 0. cbn. by rewrite release_acquired. }
  rewrite (bind_ok _ _ _ _ _ _ _ E). cbn [when]. rewrite (bind_ok _ _ _ _ _ _ _ Hcommit).
  unfold end_op_leave. assert (LkLog ∉ th_held th') as Hlk' by by rewrite Hth.
  rewrite (bind_ok _ _ _ _ _ _ _ (acquire_ok LkLog th' _ Hlk')).
  unfold bind, zoom, modify, wakeup. cbn. by apply (release_acquired LkLog (woke ChLog th')).
Qed.

(** The log between system calls. *)
Record idle_log (l : log) : Prop := mkIdleLog {
  il_log : log_ok l;
  il_holds : holds l [];
  il_outstanding : lg_outstanding l = 0;
  il_committing : lg_committing l = 0;
}.

Lemma idle_txn l : log_ok l -> txn start nlog [].
Proof.
  intros [_ _ _ (H0 & H1 & H2)]. unfold MAXOPBLOCKS in H2.
  split; [constructor|unfold NBUF; cbn; lia|cbn; lia|done|done|intros n ?%not_elem_of_nil; done].
Qed.

Lemma boots_to_ext d t t' :
  (forall n, home start nlog n -> t n = t' n) -> boots_to (S := S) start nlog me dev d t -> boots_to (S := S) start nlog me dev d t'.
Proof.
  intros Ht Hb th l Hio Hl. destruct (Hb th l Hio Hl) as (th' & l' & c' & E & Hh & Hd).
  exists th', l', c'. split; [done|]. split; [done|]. intros n Hn. by rewrite <- Ht, Hd by done.
Qed.

Lemma fs_op_atomic l (c : S) v w ups th :
  dev <> 0 -> idle_log l -> op_ok ups -> ups <> [] -> LkLog ∉ th_held th -> io_free me th ->
  crepr' c v w ∅ [] -> lists (v start) [] ->
  exists th' l' c' tr v', fs_op ups th (l, c) = Ok tt th' (l', c') /\ same_thread th th' /\ idle_log l' /\
    crepr' c' v' (w ++ tr) ∅ [] /\ lists (v' start) [] /\
    (forall n, home start nlog n -> v' n = disk_of v ups n) /\
    forall p, p `prefix_of` tr -> exists target, (target = v \/ target = disk_of v ups) /\
      forall d, rtc (crashed_boot (S := S) start nlog me dev) (disk_of base (w ++ p)) d ->
        boots_to (S := S) start nlog me dev d target.
Proof.
  intros Hdev [Hlog Hh Hout Hcom] [Hfull Hlen Hhome] Hne Hlk Hio Hc Hlists.
  pose proof (begin_op_ok l c th Hcom Hout (hd_n _ _ Hh) Hlk) as E1.
  set (l1 := set_outstanding 1 l) in *. set (bl := absorbed ups []) in *.
  assert (log_ok l1 /\ holds l1 []) as [Hlog1 Hh1] by (split; [by destruct Hlog|by destruct Hh]).
  pose proof (write_blocks_ok l1 [] c v w ups th Hlog1 Hh1 ltac:(constructor) ltac:(set_solver) Hlen
    ltac:(intros; by apply Hhome) Hfull ltac:(done) Hlk Hio Hc) as Hw.
  apply wp_ok in Hw as ([] & th2 & [l2 c2] & E2 & Hth2 & Hp2 & Hh2 & Hc2). cbn [fst snd] in *.
  fold bl in Hh2, Hc2. set (l3 := set_committing 1 (set_outstanding 0 l2)).
  assert (log_ok l2) as Hlog2 by by eapply log_ok_same.
  pose proof Hp2 as (_ & _ & _ & Hout2 & Hcom2).
  change (lg_committing l1) with (lg_committing l) in Hcom2. rewrite Hcom in Hcom2.
  change (lg_outstanding l1) with 1 in Hout2.
  assert (bl <> []) as Hbl.
  { destruct ups as [|[n d] ups]; [done|]. intros Hbl. assert (n ∈ bl) as Hin; [|rewrite Hbl in Hin; set_solver].
    apply elem_of_absorbed. left. cbn. left. }
  destruct (lk_place _ Hlog2) as (Hs0 & Hs1 & Hs2). change (Z.to_nat MAXOPBLOCKS) with 10%nat in Hlen.
  assert (txn start nlog bl) as Ht.
  { split; [by apply absorbed_nodup, NoDup_nil_2|unfold NBUF; lia|unfold MAXOPBLOCKS in Hs2; lia|done|done|].
    intros n [Hn|?%not_elem_of_nil]%elem_of_absorbed; [by apply Hhome|done]. }
  assert (forall n, disk_of base w n = v n) as Hvd
    by (intros n; symmetry; eapply crepr_clean; [exact Hc|set_solver|set_solver]).
  destruct (commit_atomic start nlog me dev Hdev l3 bl base c2 (disk_of v ups) w th2 Ht Hbl)
    as (th3 & c3 & tr & E3 & Hth3 & _ & Hc3 & Hl3 & Hdisk & Hcrash).
  { by destruct Hh2. }
  { apply Hlog2. }
  { apply Hlog2. }
  { iof. }
  { exact Hc2. }
  { intros n. rewrite Hvd. by apply (crepr_len _ _ _ _ _ _ _ _ Hc). }
  { by rewrite Hvd. }
  pose proof (end_op_ok l2 c2 c3 th2 th3 Hout2 Hcom2 ltac:(destruct Hth2 as (-> & _); done) Hth3 E3) as E4.
  exists (woke ChLog th3), (set_n 0 (set_committing 0 (set_outstanding 0 l2))), c3, tr, (disk_of (disk_of v ups) tr).
  split; [unfold fs_op; by rewrite (bind_ok _ _ _ _ _ _ _ E1), (bind_ok _ _ _ _ _ _ _ E2)|].
  split; [etransitivity; [exact Hth2|etransitivity; [exact Hth3|apply same_thread_woke]]|].
  split; [split; [by destruct Hlog2|by destruct Hh2|done|done]|].
  split; [done|]. split; [done|]. split.
  - intros n Hn. rewrite <- Hdisk by done. eapply crepr_clean; [exact Hc3|set_solver|set_solver].
  - intros p Hp. destruct (Hcrash p Hp) as (target & [->| ->] & Hgo); [|by eauto].
    exists v. split; [by left|]. intros d Hd. eapply boots_to_ext; [intros; apply Hvd|by apply Hgo].
Qed.

(** System calls one after another. *)
Fixpoint fs_ops (opss : list (list (Z * block))) : M (log * S) unit :=
  match opss with [] => ret tt | ups :: opss => fs_op ups;;; fs_ops opss end.

Lemma disk_of_ext_at v v' w n : v n = v' n -> disk_of v w n = disk_of v' w n.
Proof.
  revert v v'. induction w as [|[m b] w IH]; intros v v' E; [done|].
  apply (IH (upd v m b) (upd v' m b)). unfold upd. by destruct (n =? m).
Qed.

Lemma fs_ops_atomic opss l (c : S) v w th :
  dev <> 0 -> idle_log l -> Forall (fun ups => op_ok ups /\ ups <> []) opss -> LkLog ∉ th_held th ->
  io_free me th -> crepr' c v w ∅ [] -> lists (v start) [] ->
  exists th' l' c' tr, fs_ops opss th (l, c) = Ok tt th' (l', c') /\ chist c' = w ++ tr /\
    (forall n, home start nlog n -> disk_of base (w ++ tr) n = disk_of v (concat opss) n) /\
    forall p, p `prefix_of` tr -> exists k,
      forall d, rtc (crashed_boot (S := S) start nlog me dev) (disk_of base (w ++ p)) d ->
        boots_to (S := S) start nlog me dev d (disk_of v (concat (take k opss))).
Proof.
  intros Hdev Hl Hops. revert l c v w th Hl.
  induction Hops as [|ups opss [Hop Hne] Hops IH]; intros l c v w th Hl Hlk Hio Hc Hlists.
  - exists th, l, c, []. rewrite app_nil_r. split; [done|]. split; [by eapply crepr_hist|]. split.
    + intros n _. symmetry. eapply crepr_clean; [exact Hc|set_solver|set_solver].
    + intros p [q E]. symmetry in E. apply app_eq_nil in E as [-> _]. rewrite app_nil_r. exists 0%nat. intros d.
      assert (forall n, disk_of base w n = v n) as Hvd
        by (intros n; symmetry; eapply crepr_clean; [exact Hc|set_solver|set_solver]).
      apply recovers_reboots; [done|by eapply crepr_len|intros n; rewrite Hvd; by apply (crepr_len _ _ _ _ _ _ _ _ Hc)|].
      exists []. split; [apply (idle_txn l), Hl|]. rewrite Hvd. split; [done|]. split; [done|]. intros n _ _. apply Hvd.
  - destruct (fs_op_atomic l c v w ups th Hdev Hl Hop Hne Hlk Hio Hc Hlists)
      as (th1 & l1 & c1 & tr1 & v1 & E1 & Hth1 & Hl1 & Hc1 & Hlists1 & Hv1 & Hcrash1).
    assert (LkLog ∉ th_held th1) as Hlk1 by (destruct Hth1 as (-> & _); done).
    destruct (IH l1 c1 v1 (w ++ tr1) th1 Hl1 Hlk1 ltac:(iof) Hc1 Hlists1)
      as (th2 & l2 & c2 & tr2 & E2 & Hh2 & Hd2 & Hcrash2).
    exists th2, l2, c2, (tr1 ++ tr2). cbn [fs_ops]. rewrite (bind_ok _ _ _ _ _ _ _ E1), app_assoc.
    split; [done|]. split; [done|]. split.
    + intros n Hn. rewrite Hd2 by done. cbn [concat]. rewrite disk_of_app. by apply disk_of_ext_at, Hv1.
    + intros p [Hp|(p' & -> & Hp)]%prefix_app_inv.
      * destruct (Hcrash1 p Hp) as (target & [->| ->] & Hgo); [exists 0%nat; exact Hgo|].
        exists 1%nat. cbn [take concat]. rewrite take_0. cbn [concat]. by rewrite app_nil_r.
      * destruct (Hcrash2 p' Hp) as (k & Hgo). exists (Datatypes.S k). rewrite app_assoc. intros d Hd.
        cbn [take concat]. eapply boots_to_ext; [|by apply Hgo]. intros n Hn. rewrite disk_of_app.
        by apply disk_of_ext_at, Hv1.
Qed.
End Operation.

(** ** The machine

    Boot, recover, and serve system calls. *)
Section Machine.
Context {S : Type} {BC : BlockCache S} {BCS : BlockCacheSpec S}.
Context (me dev : Z) (start nlog : Z).

Definition machine (opss : list (list (Z * block))) : M (log * S) unit :=
  initlog dev start nlog;;; fs_ops opss.

(** [struct log] as the kernel finds it in zeroed memory. *)
Definition log0 : log := mkLog 0 0 0 0 0 0 (replicate (Z.to_nat LOGSIZE) 0).

Lemma machine_run opss d0 d1 th :
  dev <> 0 -> log_fits start nlog ->
  Forall (fun ups => op_ok start nlog ups /\ ups <> []) opss -> LkLog ∉ th_held th -> io_free me th ->
  blocks_ok d0 -> blocks_ok d1 -> recovers start nlog d0 d1 ->
  exists th' l' c', machine opss th (log0, cboot d0) = Ok tt th' (l', c') /\
    (forall n, home start nlog n -> disk_of d0 (chist c') n = disk_of d1 (concat opss) n) /\
    forall p, p `prefix_of` chist c' -> exists k,
      forall d, rtc (crashed_boot (S := S) start nlog me dev) (disk_of d0 p) d ->
        boots_to (S := S) start nlog me dev d (disk_of d1 (concat (take k opss))).
Proof.
  intros Hdev Hlay Hops Hlk Hio Hok0 Hok1 Hr. destruct Hr as (bl & Ht & Hl & Hlog & Hrest).
  pose proof (crepr_boot (S := S) me dev d0 Hdev Hok0) as Hboot.
  pose proof (initlog_ok me dev d0 start nlog log0 bl _ d0 [] th Ht Hl eq_refl Hio Hboot) as Hwp.
  apply wp_ok in Hwp as ([] & th1 & [l1 c1] & E1 & Hth1 & Hs & Hn & Hd & Ho & Hc & Hh & Hc1).
  cbn [fst snd app] in *. set (v1 := disk_of d0 (recovery_trace start d0 bl)) in *.
  assert (forall n, home start nlog n -> v1 n = d1 n) as Hv1.
  { intros n Hn1. unfold v1. rewrite (recovery_trace_eq start d0 d1 bl Hlog), disk_of_snoc.
    rewrite upd_ne by (intros ->; by eapply start_not_home).
    rewrite installed_disk. destruct (decide (n ∈ bl)); [done|by apply Hrest]. }
  destruct (fs_ops_atomic me dev d0 start nlog opss l1 c1 v1 (recovery_trace start d0 bl) th1)
    as (th2 & l2 & c2 & tr & E2 & Hh2 & Hd2 & Hcrash); try done.
  { by destruct Hth1 as (-> & _). }
  { iof. }
  { unfold v1, recovery_trace. rewrite disk_of_snoc, upd_eq.
    apply head_block_lists; [apply Hok0|cbn; lia|intros n ?%not_elem_of_nil; done]. }
  exists th2, l2, c2. split; [unfold machine; rewrite (bind_ok _ _ _ _ _ _ _ E1); exact E2|].
  rewrite Hh2. split.
  - intros n Hn1. rewrite Hd2 by done. by apply disk_of_ext_at, Hv1.
  - intros p [Hp|(p' & -> & Hp)]%prefix_app_inv.
    + exists 0%nat. intros d. change (concat (take 0 opss)) with (@nil (Z * block)). apply recovers_reboots; [done|done| |].
      * apply disk_of_blocks_ok; [done|]. eapply full_blocks_prefix; [done|by apply recovery_trace_full].
      * by eapply recovery_prefix_recovers.
    + destruct (Hcrash p' Hp) as (k & Hgo). exists k. intros d Hd'. eapply boots_to_ext; [|by apply Hgo].
      intros n Hn1. by apply disk_of_ext_at, Hv1.
Qed.
End Machine.

(** C1: the file system survives crashes at any point.  From any disk [d0] that recovery
    takes to [d1] (a freshly made one, or one a crash has left), the kernel boots and
    serves any sequence of system calls, each updating up to [MAXOPBLOCKS] blocks;
    every call returns and afterwards the blocks outside the log hold [d1] with all
    the updates.  If the machine stops after any prefix of the block writes this
    makes, and then in any number of recoveries, the boot that completes finds the
    updates of the first [k] system calls, for some [k], all of them and nothing of
    the others. *)
Theorem storage_crash_consistent me dev start nlog opss d0 d1 th :
  dev <> 0 -> log_fits start nlog ->
  Forall (fun ups => op_ok start nlog ups /\ ups <> []) opss -> LkLog ∉ th_held th -> io_free me th ->
  blocks_ok d0 -> blocks_ok d1 -> recovers start nlog d0 d1 ->
  exists th' l' c', machine dev start nlog opss th (log0, bio_boot d0) = Ok tt th' (l', c') /\
    (forall n, home start nlog n -> disk_of d0 (bi_hist c') n = disk_of d1 (concat opss) n) /\
    forall p, p `prefix_of` bi_hist c' -> exists k,
      forall d, rtc (crashed_boot (S := bio) start nlog me dev) (disk_of d0 p) d ->
        boots_to (S := bio) start nlog me dev d (disk_of d1 (concat (take k opss))).
Proof. rewrite <- cboot_bio. exact (machine_run me dev start nlog opss d0 d1 th). Qed.

(** ** Witnesses *)

Definition zero_disk : blocks := fun _ => replicate (Z.to_nat BSIZE) 0.
Definition some_block (x : Z) : block := replicate (Z.to_nat BSIZE) x.

(** Two system calls on a zeroed disk: one writes blocks 50 and 51, the other 50 again. *)
Definition demo_ops : list (list (Z * block)) :=
  [[(50, some_block 1); (51, some_block 2)]; [(50, some_block 3)]].

Lemma zero_disk_recovers : recovers 2 30 zero_disk zero_disk.
Proof.
  exists []. split; [|split; [|done]].
  - split; [constructor|unfold NBUF; cbn; lia|cbn; lia|lia|lia|intros n ?%not_elem_of_nil; done].
  - split; [vm_compute; reflexivity|done].
Qed.

Lemma demo_ops_ok : Forall (fun ups => op_ok 2 30 ups /\ ups <> []) demo_ops.
Proof.
  assert (forall n, n = 50 \/ n = 51 -> 0 <= n < 2 ^ 31 /\ home 2 30 n) as Hh
    by (intros n Hn; split; [lia|intros []; lia]).
  assert (forall x, length (some_block x) = Z.to_nat BSIZE) as Hb by (intros; apply length_replicate).
  apply Forall_cons. split; [|apply Forall_singleton]; (split; [split|done]).
  - apply Forall_cons. split; [apply Hb|]. apply Forall_singleton, Hb.
  - vm_compute. lia.
  - intros n Hn. apply Hh. cbn in Hn. set_solver.
  - apply Forall_singleton, Hb.
  - vm_compute. lia.
  - intros n Hn. apply Hh. cbn in Hn. set_solver.
Qed.

Lemma storage_crash_consistent_witness :
  exists th' l' c', machine 1 2 30 demo_ops (mkThread [] 0 1 []) (log0, bio_boot zero_disk) = Ok tt th' (l', c') /\
    disk_of zero_disk (bi_hist c') 50 = some_block 3.
Proof.
  destruct (storage_crash_consistent 1 1 2 30 demo_ops zero_disk zero_disk (mkThread [] 0 1 []))
    as (th' & l' & c' & E & Hd & _).
  - discriminate.
  - unfold log_fits, MAXOPBLOCKS. lia.
  - exact demo_ops_ok.
  - apply not_elem_of_nil.
  - split; [apply not_elem_of_nil|]. split; [intros i; apply not_elem_of_nil|reflexivity].
  - intros n. apply length_replicate.
  - intros n. apply length_replicate.
  - exact zero_disk_recovers.
  - exists th', l', c'. split; [exact E|]. rewrite Hd; [reflexivity|]. unfold home. lia.
Defined.
