(* ===== verification/FsState.v ===== *)
(** * The state of the file system (kernel/fs.h, kernel/file.h, kernel/fs.c)

    The superblock, the table of in-memory inodes and, below them, the log and the buffer
    cache: kernel/fs.c works on blocks through [bread], [log_write] and [brelse] only.
    What it needs of the process that runs it, copying to and from a user or kernel
    address and the current directory, enters as the class [FsEnv]. *)

From S2P Require Import Prelude Layout Memory Bytes Sleeplock BlockCache Log.

Record superblock := mkSuperblock {
  sb_magic : Z;
  sb_size : Z;
  sb_nblocks : Z;
  sb_ninodes : Z;
  sb_nlog : Z;
  sb_logstart : Z;
  sb_inodestart : Z;
  sb_bmapstart : Z;
}.

(** The in-memory copy of an inode. *)
Record inode := mkInode {
  i_dev : Z;
  i_inum : Z;
  i_ref : Z;
  i_lock : sleeplock;
  i_valid : Z;
  i_type : Z;
  i_major : Z;
  i_minor : Z;
  i_nlink : Z;
  i_size : Z;
  i_addrs : list Z;      (* addrs[NDIRECT+1] *)
}.

Definition T_DIR : Z := 1.
Definition T_FILE : Z := 2.
Definition T_DEVICE : Z := 3.

Definition with_iref (x : Z) (i : inode) : inode :=
  mkInode (i_dev i) (i_inum i) x (i_lock i) (i_valid i) (i_type i) (i_major i) (i_minor i) (i_nlink i) (i_size i) (i_addrs i).
Definition with_ilock (x : sleeplock) (i : inode) : inode :=
  mkInode (i_dev i) (i_inum i) (i_ref i) x (i_valid i) (i_type i) (i_major i) (i_minor i) (i_nlink i) (i_size i) (i_addrs i).
Definition with_ivalid (x : Z) (i : inode) : inode :=
  mkInode (i_dev i) (i_inum i) (i_ref i) (i_lock i) x (i_type i) (i_major i) (i_minor i) (i_nlink i) (i_size i) (i_addrs i).
Definition with_itype (x : Z) (i : inode) : inode :=
  mkInode (i_dev i) (i_inum i) (i_ref i) (i_lock i) (i_valid i) x (i_major i) (i_minor i) (i_nlink i) (i_size i) (i_addrs i).
Definition with_idevice (x y : Z) (i : inode) : inode :=
  mkInode (i_dev i) (i_inum i) (i_ref i) (i_lock i) (i_valid i) (i_type i) x y (i_nlink i) (i_size i) (i_addrs i).
Definition with_inlink (x : Z) (i : inode) : inode :=
  mkInode (i_dev i) (i_inum i) (i_ref i) (i_lock i) (i_valid i) (i_type i) (i_major i) (i_minor i) x (i_size i) (i_addrs i).
Definition with_isize (x : Z) (i : inode) : inode :=
  mkInode (i_dev i) (i_inum i) (i_ref i) (i_lock i) (i_valid i) (i_type i) (i_major i) (i_minor i) (i_nlink i) x (i_addrs i).
Definition with_iaddrs (x : list Z) (i : inode) : inode :=
  mkInode (i_dev i) (i_inum i) (i_ref i) (i_lock i) (i_valid i) (i_type i) (i_major i) (i_minor i) (i_nlink i) (i_size i) x.
(** [iget] taking a table entry for another inode. *)
Definition recycled_inode (dev inum : Z) (i : inode) : inode :=
  mkInode dev inum 1 (i_lock i) 0 (i_type i) (i_major i) (i_minor i) (i_nlink i) (i_size i) (i_addrs i).
(** [ilock] and [ialloc]: the fields that live on the disk. *)
Definition with_dinode (ty ma mi nl sz : Z) (ad : list Z) (i : inode) : inode :=
  mkInode (i_dev i) (i_inum i) (i_ref i) (i_lock i) (i_valid i) ty ma mi nl sz ad.

(** The globals of kernel/fs.c, with the log and the buffer cache. *)
Record fsys (S : Type) := mkFsys {
  f_sb : superblock;
  f_inode : list inode;    (* itable.inode[NINODE] *)
  f_disk : log * S;
}.
Arguments mkFsys {S} _ _ _.
Arguments f_sb {S} _.
Arguments f_inode {S} _.
Arguments f_disk {S} _.

(** What the process that runs the code provides: [either_copyout] of some bytes;
    [either_copyin] over the bytes of a destination, with its result and the bytes of the
    destination afterwards; the kernel stack's memory; and [myproc()->cwd]. *)
Class FsEnv (K : Type) := {
  env_copyout : Z -> Z -> list Z -> M K Z;
  env_copyin : Z -> Z -> list Z -> M K (Z * list Z);
  env_load : Z -> nat -> M K (list Z);
  env_store : Z -> list Z -> M K unit;
  env_cwd : M K (option nat);
}.

(** Bytes [d] stored into the block [b] at offset [off]. *)
Definition splice (b : block) (off : nat) (d : list Z) : block :=
  take off b ++ d ++ drop (off + length d) b.

Section FsState.
Context {S : Type}.

Definition disk_lens : lens (fsys S) (log * S) :=
  mkLens f_disk (fun d s => mkFsys (f_sb s) (f_inode s) d).
Definition buf_lens : lens (fsys S) S :=
  mkLens (fun s => snd (f_disk s)) (fun c s => mkFsys (f_sb s) (f_inode s) (fst (f_disk s), c)).

Definition set_sb (x : superblock) (s : fsys S) : fsys S := mkFsys x (f_inode s) (f_disk s).
Definition set_inodes (x : list inode) (s : fsys S) : fsys S := mkFsys (f_sb s) x (f_disk s).

(** Access through an inode pointer, an index into the table. *)
Definition get_inode (i : nat) : M (fsys S) inode := fun th s =>
  match f_inode s !! i with Some ip => Ok ip th s | None => Fault "inode pointer" end.
Definition upd_inode (i : nat) (f : inode -> inode) : M (fsys S) unit := fun th s =>
  match f_inode s !! i with
  | Some ip => Ok tt th (set_inodes (<[i := f ip]> (f_inode s)) s)
  | None => Fault "inode pointer"
  end.

(** An operation on the sleep lock of inode [i]. *)
Definition inode_lock {A} (i : nat) (m : M sleeplock A) : M (fsys S) A := fun th s =>
  match f_inode s !! i with
  | None => Fault "inode pointer"
  | Some ip =>
      let put l := set_inodes (<[i := with_ilock l ip]> (f_inode s)) s in
      match m th (i_lock ip) with
      | Ok a th' l => Ok a th' (put l)
      | Panic msg => Panic msg
      | Fault why => Fault why
      | Sleep ch th' l => Sleep ch th' (put l)
      | OutOfFuel => OutOfFuel
      end
  end.

Definition get_sb : M (fsys S) superblock := gets f_sb.

End FsState.

(** The code runs on the file system and on the process side by side. *)
Definition fs_lens {S K : Type} : lens (fsys S * K) (fsys S) := mkLens fst (fun f s => (f, snd s)).
Definition env_lens {S K : Type} : lens (fsys S * K) K := mkLens snd (fun k s => (fst s, k)).

(** Calls from kernel/fs.c into kernel/bio.c and kernel/log.c. *)
Notation bio m := (zoom buf_lens m).
Notation logged m := (zoom disk_lens m).
Notation fs m := (zoom fs_lens m).
Notation env m := (zoom env_lens m).
