(* ===== verification/Txn.v ===== *)
(** * The file system inside a transaction

    Between [begin_op] and [end_op], kernel/fs.c sees the disk as a function from block
    numbers to contents.  [tx] states this view: the contents [v], the set [W] of blocks
    that the log holds for this transaction, the buffers [H] that the thread holds, and,
    with them, that every block outside [W] is as on the disk.  The rules of this file,
    one per call into kernel/bio.c and kernel/log.c, are all that the proofs about
    kernel/fs.c use of these two files; a transaction that would outgrow the log cannot
    be derived with them. *)

From S2P Require Import Prelude Layout Memory Bytes Sleeplock BlockCache Log Storage FsState.

Section Txn.
Context {S : Type} {BC : BlockCache S} {BCS : BlockCacheSpec S}.
(** The process, the device, its contents at the start, the writes done since then, and
    the place of the log. *)
Context (me dev : Z) (base : blocks) (w : list (Z * block)) (start nlog : Z).
Notation F := (fsys S).

(** The blocks one transaction may change. *)
Definition fits (W : gset Z) : Prop := (size W <= Z.to_nat MAXOPBLOCKS)%nat.

Record tx (s : F) (sb : superblock) (it : list inode) (v : blocks) (W : gset Z) (H : list (Z * nat)) : Prop := mkTx {
  tx_sb : f_sb s = sb;
  tx_it : f_inode s = it;
  tx_log : exists bl, holds (fst (f_disk s)) bl /\ NoDup bl /\ W = list_to_set bl /\
    forall n, n ∈ bl -> 0 <= n < 2 ^ 31;
  tx_ok : log_ok dev start nlog (fst (f_disk s));
  tx_open : 1 <= lg_outstanding (fst (f_disk s));
  tx_cache : crepr me dev base (snd (f_disk s)) v w W H;
  tx_clean : forall n, n ∉ W -> v n = disk_of base w n;
  tx_fits : fits W;
}.

(** The calling thread holds no lock of the log or of the cache. *)
Definition quiet (th : thread) : Prop := LkLog ∉ th_held th /\ io_free me th.

Lemma quiet_same th th' : same_thread th th' -> quiet th -> quiet th'.
Proof. intros Hs [H1 H2]. split; [by destruct Hs as (-> & _)|by eapply io_free_same]. Qed.

Lemma fits_le W n : fits ({[n]} ∪ W) -> fits W.
Proof.
  unfold fits. intros Hf. etransitivity; [|exact Hf]. apply subseteq_size. set_solver.
Qed.

Lemma tx_length s sb it v W H n : tx s sb it v W H -> length (v n) = Z.to_nat BSIZE.
Proof. intros Ht. apply (crepr_len _ _ _ _ _ _ _ _ (tx_cache _ _ _ _ _ _ Ht)). Qed.

Lemma tx_set_buf s sb it v W H c v' H' :
  tx s sb it v W H -> crepr me dev base c v' w W H' -> (forall n, v' n = v n) ->
  tx (mkFsys (f_sb s) (f_inode s) (fst (f_disk s), c)) sb it v' W H'.
Proof.
  intros [H1 H2 H3 H4 H5 H6 H7 H8] Hc He. split; try done. intros n Hn. rewrite He. by apply H7.
Qed.

Lemma tx_bread {A} (k : nat -> M F A) Q th s sb it v W H n :
  quiet th -> tx s sb it v W H -> is_u32 n -> n ∉ H.*1 -> (length H <= 5)%nat ->
  (forall b th' s', same_thread th th' -> tx s' sb it v W ((n, b) :: H) -> wp (k b) Q th' s') ->
  wp (bind (bio (bread dev n)) k) Q th s.
Proof.
  intros [_ Hio] Ht Hn Hnot Hlen Hk. apply wp_bind, wp_zoom. eapply wp_mono.
  - eapply (bread_spec me dev base); [done|done|apply Ht|done|]. left.
    assert (size (in_use W H) <= size W + length H)%nat as Hle.
    { unfold in_use. rewrite size_union_alt. apply Nat.add_le_mono_l.
      transitivity (size (list_to_set H.*1 : gset Z)); [apply subseteq_size; set_solver|].
      rewrite <- (length_fmap fst H). clear. induction (H.*1) as [|x l IH]; cbn [list_to_set length].
      - by rewrite size_empty.
      - pose proof (size_union_alt ({[x]} : gset Z) (list_to_set l)) as E. rewrite E, size_singleton.
        assert (size (list_to_set l ∖ {[x]} : gset Z) <= size (list_to_set l : gset Z))%nat
          by (apply subseteq_size; set_solver). lia. }
    pose proof (tx_fits _ _ _ _ _ _ Ht) as Hf. unfold fits in Hf. change (Z.to_nat MAXOPBLOCKS) with 10%nat in Hf.
    unfold NBUF. lia.
  - intros b th' c [Hth Hc]. apply Hk; [done|]. by eapply tx_set_buf.
Qed.

Lemma tx_bdata {A} (k : block -> M F A) Q th s sb it v W H n b :
  tx s sb it v W H -> (n, b) ∈ H -> wp (k (v n)) Q th s -> wp (bind (bio (bdata b)) k) Q th s.
Proof.
  intros Ht Hin Hk. apply wp_bind, wp_zoom. eapply wp_eq; [eapply bdata_spec; [apply Ht|done]|].
  by destruct s as [? ? []].
Qed.

(** Storing into a buffer, then [log_write]. *)
Lemma tx_write_last th s sb it v W H n b d :
  quiet th -> tx s sb it v W H -> (n, b) ∈ H -> 0 <= n < 2 ^ 31 -> length d = Z.to_nat BSIZE ->
  fits ({[n]} ∪ W) ->
  wp (bio (set_bdata b d);;; logged (log_write b))
    (fun _ th' s' => same_thread th th' /\ tx s' sb it (upd v n d) ({[n]} ∪ W) H) th s.
Proof.
  intros [Hlk Hio] Ht Hin Hn Hd Hf. pose proof (tx_log _ _ _ _ _ _ Ht) as (bl & Hh & Hnd & HW & Hr).
  pose proof (tx_ok _ _ _ _ _ _ Ht) as Hlog. apply wp_bind, wp_zoom. eapply wp_mono.
  { eapply (set_bdata_spec me dev base); [apply Ht|done|done]. }
  intros [] th1 c1 [-> Hc1]. cbn [over buf_lens]. apply wp_zoom. cbn [view disk_lens f_disk].
  pose proof (fits_le _ _ Hf) as Hlen. unfold fits in Hlen. rewrite HW, size_list_to_set in Hlen by done.
  change (Z.to_nat MAXOPBLOCKS) with 10%nat in Hlen. destruct Hlog as [_ Hsize _ (_ & _ & Hroom)].
  rewrite HW in Hc1. eapply wp_mono.
  { eapply (log_write_ok me dev base (fst (f_disk s)) bl c1); try done; [|rewrite Hsize|apply Ht];
      unfold LOGSIZE, MAXOPBLOCKS in *; lia. }
  intros [] th2 [l2 c2] (Hth & Hsame & Hh2 & Hc2). cbn [fst snd over disk_lens] in *.
  assert (list_to_set (absorb n bl) = {[n]} ∪ W) as Habs.
  { apply set_eq. intros x. rewrite elem_of_list_to_set, elem_of_absorb, HW. set_solver. }
  rewrite Habs in Hc2. split; [done|]. split; cbn; try apply Ht; try done.
  - exists (absorb n bl). split_and!; [done|by apply absorb_nodup|done|].
    intros x [->|Hx]%elem_of_absorb; [done|by apply Hr].
  - eapply log_ok_same; [exact Hsame|]. apply Ht.
  - destruct Hsame as (_ & _ & _ & -> & _). apply Ht.
  - intros x Hx. rewrite upd_ne by set_solver. apply (tx_clean _ _ _ _ _ _ Ht). set_solver.
Qed.

(** Storing what a buffer holds already. *)
Lemma tx_set_same {A} (k : unit -> M F A) Q th s sb it v W H n b d :
  tx s sb it v W H -> (n, b) ∈ H -> d = v n ->
  (forall s', tx s' sb it v W H -> wp (k tt) Q th s') -> wp (bind (bio (set_bdata b d)) k) Q th s.
Proof.
  intros Ht Hin -> Hk. apply wp_bind, wp_zoom. eapply wp_mono.
  { eapply (set_bdata_spec me dev base); [apply Ht|done|by eapply tx_length]. }
  intros [] th1 c1 [-> Hc1]. apply Hk. eapply tx_set_buf; [done| |done]. eapply crepr_ext; [|exact Hc1].
  intros x. unfold upd. by destruct (Z.eqb_spec x n) as [->|].
Qed.

Lemma tx_write {A} (k : M F A) Q th s sb it v W H n b d :
  quiet th -> tx s sb it v W H -> (n, b) ∈ H -> 0 <= n < 2 ^ 31 -> length d = Z.to_nat BSIZE ->
  fits ({[n]} ∪ W) ->
  (forall th' s', same_thread th th' -> tx s' sb it (upd v n d) ({[n]} ∪ W) H -> wp k Q th' s') ->
  wp (bio (set_bdata b d);;; logged (log_write b);;; k) Q th s.
Proof.
  intros Hq Ht Hin Hn Hd Hf Hk. unfold wp. rewrite <- bind_assoc. apply wp_bind. eapply wp_mono; [by eapply tx_write_last|].
  intros [] th' s' [? ?]. by apply Hk.
Qed.

Lemma tx_brelse_gen s sb it v W H1 H2 n b th :
  quiet th -> tx s sb it v W (H1 ++ (n, b) :: H2) ->
  wp (bio (brelse b)) (fun _ th' s' => same_thread th th' /\ tx s' sb it v W (H1 ++ H2)) th s.
Proof.
  intros [_ Hio] Ht. apply wp_zoom. eapply wp_mono.
  - eapply (brelse_spec me dev base); [done|apply Ht|].
    destruct (decide (n ∈ W)) as [Hin|Hni]; [by left|right]. by apply (tx_clean _ _ _ _ _ _ Ht).
  - intros [] th' c [Hth Hc]. split; [done|]. by eapply tx_set_buf.
Qed.

Lemma tx_brelse {A} (k : unit -> M F A) Q th s sb it v W H n b :
  quiet th -> tx s sb it v W ((n, b) :: H) ->
  (forall th' s', same_thread th th' -> tx s' sb it v W H -> wp (k tt) Q th' s') ->
  wp (bind (bio (brelse b)) k) Q th s.
Proof.
  intros Hq Ht Hk. apply wp_bind. eapply wp_mono; [by apply (tx_brelse_gen s sb it v W [] H n b)|].
  intros [] th' s' [? ?]. by apply Hk.
Qed.

(** At the end of a function body. *)
Lemma tx_brelse_last (Q : unit -> thread -> F -> Prop) th s sb it v W H n b :
  quiet th -> tx s sb it v W ((n, b) :: H) ->
  (forall th' s', same_thread th th' -> tx s' sb it v W H -> Q tt th' s') ->
  wp (bio (brelse b)) Q th s.
Proof.
  intros Hq Ht Hk. eapply wp_mono; [by apply (tx_brelse_gen s sb it v W [] H n b)|].
  intros [] th' s' [? ?]. by apply Hk.
Qed.

Lemma tx_get_sb {A} (k : superblock -> M F A) Q th s sb it v W H :
  tx s sb it v W H -> wp (k sb) Q th s -> wp (bind get_sb k) Q th s.
Proof. intros Ht Hk. apply wp_bind. unfold wp at 1. cbn. by rewrite (tx_sb _ _ _ _ _ _ Ht). Qed.

Lemma tx_get_inode {A} (k : inode -> M F A) Q th s sb it v W H ip i :
  tx s sb it v W H -> it !! ip = Some i -> wp (k i) Q th s -> wp (bind (get_inode ip) k) Q th s.
Proof.
  intros Ht Hi Hk. apply wp_bind. unfold wp at 1, get_inode. rewrite (tx_it _ _ _ _ _ _ Ht), Hi. done.
Qed.

Lemma tx_upd_inode {A} (k : unit -> M F A) Q th s sb it v W H ip i f :
  tx s sb it v W H -> it !! ip = Some i ->
  (forall s', tx s' sb (<[ip := f i]> it) v W H -> wp (k tt) Q th s') ->
  wp (bind (upd_inode ip f) k) Q th s.
Proof.
  intros Ht Hi Hk. apply wp_bind. unfold wp at 1, upd_inode. rewrite (tx_it _ _ _ _ _ _ Ht), Hi.
  apply Hk. destruct Ht. by split.
Qed.

Lemma tx_ext s sb it v v' W H : tx s sb it v W H -> (forall n, v' n = v n) -> tx s sb it v' W H.
Proof.
  intros [H1 H2 H3 H4 H5 H6 H7 H8] He. split; try done; [by eapply crepr_ext|].
  intros n Hn. rewrite He. by apply H7.
Qed.

End Txn.

Ltac quiet_tac := first [assumption | eapply quiet_same; [|eassumption]; keep_thread].
