(* ===== verification/Balloc.v ===== *)
(** * The block allocator (kernel/fs.c: [readsb] to [bfree])

    The free map is an array of bits in the blocks from [sb.bmapstart] on. *)

From S2P Require Import Prelude Layout Memory Bytes Sleeplock BlockCache Log FsState.

(** [IBLOCK] and [BBLOCK]. *)
Definition IBLOCK (i : Z) (sb : superblock) : Z := u32 (i / IPB + sb_inodestart sb).
Definition BBLOCK (b : Z) (sb : superblock) : Z := u32 (b / BPB + sb_bmapstart sb).

Section Balloc.
Context {S : Type} `{BC : BlockCache S}.
Notation F := (fsys S).

Definition readsb (dev : Z) : M F unit :=
  let! bp := bio (bread (u32 dev) 1) in
  let! d := bio (bdata bp) in
  modify (set_sb (mkSuperblock (get32 d 0) (get32 d 4) (get32 d 8) (get32 d 12)
                               (get32 d 16) (get32 d 20) (get32 d 24) (get32 d 28)));;;
  bio (brelse bp).

Definition fsinit (dev : Z) : M F unit :=
  readsb dev;;;
  let! sb := get_sb in
  when (negb (sb_magic sb =? FSMAGIC)) (panic "invalid file system");;;
  logged (initlog dev (sb_logstart sb) (sb_nlog sb)).

Definition bzero (dev bno : Z) : M F unit :=
  let! bp := bio (bread (u32 dev) (u32 bno)) in
  bio (set_bdata bp (replicate (Z.to_nat BSIZE) 0));;;
  logged (log_write bp);;;
  bio (brelse bp).

(** The inner loop of [balloc]: the first [bi] from the given one on whose bit in the
    bitmap block [d] is clear. *)
Fixpoint free_bit (k : nat) (size : Z) (d : block) (b bi : Z) : option Z :=
  match k with
  | O => None
  | Datatypes.S k' =>
      if (bi <? BPB) && (u32 (b + bi) <? size) then
        let m := Z.shiftl 1 (bi mod 8) in
        if Z.land (get8 d (Z.to_nat (bi / 8))) m =? 0 then Some bi
        else free_bit k' size d b (bi + 1)
      else None
  end.

(** The outer loop of [balloc], from block [b]. *)
Fixpoint balloc_from (fuel : nat) (dev b : Z) : M F Z :=
  let! sb := get_sb in
  if u32 b <? sb_size sb then
    match fuel with
    | O => diverge
    | Datatypes.S fuel' =>
        let! bp := bio (bread dev (BBLOCK b sb)) in
        let! d := bio (bdata bp) in
        match free_bit (Z.to_nat BPB) (sb_size sb) d b 0 with
        | Some bi =>
            let m := Z.shiftl 1 (bi mod 8) in
            bio (set_bdata bp (put8 d (Z.to_nat (bi / 8)) (Z.lor (get8 d (Z.to_nat (bi / 8))) m)));;;
            logged (log_write bp);;;
            bio (brelse bp);;;
            bzero (i32 dev) (i32 (b + bi));;;
            ret (u32 (b + bi))
        | None =>
            bio (brelse bp);;;
            balloc_from fuel' dev (i32 (b + BPB))
        end
    end
  else ret 0.

(** The number of bitmap blocks bounds the turns of the outer loop. *)
Definition balloc (dev : Z) : M F Z :=
  let! sb := get_sb in
  balloc_from (Z.to_nat (sb_size sb / BPB + 1)) dev 0.

Definition bfree (dev b : Z) : M F unit :=
  let! sb := get_sb in
  let! bp := bio (bread (u32 dev) (BBLOCK b sb)) in
  let bi := b mod BPB in
  let m := Z.shiftl 1 (bi mod 8) in
  let! d := bio (bdata bp) in
  let byte := get8 d (Z.to_nat (bi / 8)) in
  when (Z.land byte m =? 0) (panic "freeing free block");;;
  bio (set_bdata bp (put8 d (Z.to_nat (bi / 8)) (Z.land byte (Z.lnot m))));;;
  logged (log_write bp);;;
  bio (brelse bp).

End Balloc.
