(* ===== verification/BallocSpec.v ===== *)
(** * The block allocator keeps the bitmap

    [balloc] returns a block whose bit was clear, sets exactly that bit and zeroes exactly
    that block, or finds every block of the disk in use; [bfree] clears exactly the bit of
    its argument.  Both stay inside their transaction. *)

From S2P Require Import Prelude Layout Memory Bytes Sleeplock BlockCache Bio BioSpec Log Storage FsState Txn Balloc.

(** The first block after the superblock, the log, the inodes and the bitmap. *)
Definition data_start (sb : superblock) : Z := sb_size sb - sb_nblocks sb.

(** The layout that mkfs gives a disk. *)
Record sb_ok (sb : superblock) : Prop := mkSbOk {
  so_size : 0 < sb_size sb <= 2 ^ 30;
  so_inode : 0 <= sb_inodestart sb /\ 0 <= sb_ninodes sb;
  so_bmap : sb_inodestart sb + sb_ninodes sb / IPB < sb_bmapstart sb;
  so_meta : sb_bmapstart sb + sb_size sb / BPB < data_start sb;
  so_data : data_start sb <= sb_size sb;
}.

Definition bitmap (sb : superblock) : gset Z :=
  list_to_set (seqZ (sb_bmapstart sb) (sb_size sb / BPB + 1)).

(** The bit of block [b]. *)
Definition used (sb : superblock) (v : blocks) (b : Z) : bool :=
  Z.testbit (get8 (v (BBLOCK b sb)) (Z.to_nat (b mod BPB / 8))) (b mod 8).

(** Blocks are bytes, and the blocks before the data are never free. *)
Record v_ok (sb : superblock) (v : blocks) : Prop := mkVOk {
  vo_len : forall n, length (v n) = Z.to_nat BSIZE;
  vo_bytes : forall n, byte_list (v n);
  vo_meta : forall b, 0 <= b < data_start sb -> used sb v b = true;
}.

(** The buffers a caller may hold: allocated data blocks. *)
Definition held_ok (sb : superblock) (v : blocks) (H : list (Z * nat)) : Prop :=
  forall n, n ∈ H.*1 -> data_start sb <= n < sb_size sb /\ used sb v n = true.

(** Byte and bit of block [b] in its bitmap block. *)
Definition bm_off (b : Z) : nat := Z.to_nat (b mod BPB / 8).
Definition set_bit (b : Z) (d : block) : block :=
  put8 d (bm_off b) (Z.lor (get8 d (bm_off b)) (Z.shiftl 1 (b mod 8))).
Definition clear_bit (b : Z) (d : block) : block :=
  put8 d (bm_off b) (Z.land (get8 d (bm_off b)) (Z.lnot (Z.shiftl 1 (b mod 8)))).

Definition zero_block : block := replicate (Z.to_nat BSIZE) 0.
Definition alloc_block (sb : superblock) (v : blocks) (b : Z) : blocks :=
  upd (upd v (BBLOCK b sb) (set_bit b (v (BBLOCK b sb)))) b zero_block.
Definition free_block (sb : superblock) (v : blocks) (b : Z) : blocks :=
  upd v (BBLOCK b sb) (clear_bit b (v (BBLOCK b sb))).

(** ** Bits *)

Lemma land_bit x k : 0 <= k -> (Z.land x (Z.shiftl 1 k) =? 0) = negb (Z.testbit x k).
Proof.
  intros Hk. rewrite Z.shiftl_1_l. destruct (Z.testbit x k) eqn:E; cbn [negb].
  - apply Z.eqb_neq. intros H0. apply (f_equal (fun y => Z.testbit y k)) in H0.
    rewrite Z.land_spec, E, Z.pow2_bits_true, Z.bits_0 in H0 by done. done.
  - apply Z.eqb_eq, Z.bits_inj'. intros j Hj. rewrite Z.land_spec, Z.bits_0.
    destruct (Z.eq_dec j k) as [->|Hne]; [by rewrite E|]. by rewrite Z.pow2_bits_false, andb_false_r.
Qed.

Lemma shiftl_1_bit k j : 0 <= k -> 0 <= j -> Z.testbit (Z.shiftl 1 k) j = (j =? k).
Proof.
  intros Hk Hj. rewrite Z.shiftl_1_l. destruct (Z.eqb_spec j k) as [->|Hne].
  - by apply Z.pow2_bits_true.
  - apply Z.pow2_bits_false. lia.
Qed.

Lemma byte_testbit x j k : j < k -> 0 <= j -> Z.testbit (x mod 2 ^ k) j = Z.testbit x j.
Proof. intros. apply Z.mod_pow2_bits_low. lia. Qed.

Lemma bm_off_lt b : 0 <= b -> (bm_off b + 1 <= Z.to_nat BSIZE)%nat.
Proof.
  intros Hb. unfold bm_off, BPB, BSIZE. pose proof (Z.mod_pos_bound b (1024 * 8)).
  assert (b mod (1024 * 8) / 8 < 1024) by (apply Z.div_lt_upper_bound; lia).
  assert (0 <= b mod (1024 * 8) / 8) by (apply Z.div_pos; lia). lia.
Qed.

(** Two blocks of one bitmap block with the same byte and the same bit are one. *)
Lemma bm_inj b b' : 0 <= b -> 0 <= b' -> b / BPB = b' / BPB -> bm_off b = bm_off b' -> b mod 8 = b' mod 8 -> b = b'.
Proof.
  intros Hb Hb' Hq Ho Hm. unfold bm_off, BPB, BSIZE in *.
  assert (forall x, 0 <= x -> x = 8192 * (x / 8192) + 8 * (x mod 8192 / 8) + x mod 8) as Hx.
  { intros x Hx. Z.div_mod_to_equations. lia. }
  rewrite (Hx b), (Hx b') by lia. change (1024 * 8) with 8192 in *.
  assert (0 <= b mod 8192 / 8) by (apply Z.div_pos; [apply Z.mod_pos_bound|]; lia).
  assert (0 <= b' mod 8192 / 8) by (apply Z.div_pos; [apply Z.mod_pos_bound|]; lia). lia.
Qed.

Lemma put8_test d off x off' j :
  (off + 1 <= length d)%nat -> 0 <= j < 8 ->
  Z.testbit (get8 (put8 d off x) off') j = if decide (off' = off) then Z.testbit x j else Z.testbit (get8 d off') j.
Proof.
  intros Hoff Hj. case_decide as E.
  - subst off'. rewrite getn_putn_eq by done. change (256 ^ Z.of_nat 1) with (2 ^ 8). apply byte_testbit; lia.
  - rewrite getn_putn_ne by lia. done.
Qed.

(** ** The bitmap as a set of blocks *)

Section Bitmap.
Context (sb : superblock) (Hsb : sb_ok sb).

Lemma BBLOCK_ok b : 0 <= b < sb_size sb ->
  BBLOCK b sb = b / BPB + sb_bmapstart sb /\ BBLOCK b sb ∈ bitmap sb /\ 0 <= BBLOCK b sb < data_start sb.
Proof.
  destruct Hsb as [H1 H2 H3 H4 H5]. intros Hb. unfold BBLOCK, bitmap.
  assert (0 <= b / BPB <= sb_size sb / BPB) as Hq.
  { unfold BPB, BSIZE. split; [apply Z.div_pos; lia|apply Z.div_le_mono; lia]. }
  assert (0 <= sb_ninodes sb / IPB) by (apply Z.div_pos; [lia|done]).
  rewrite u32_id by lia. split; [done|]. split; [|lia].
  apply elem_of_list_to_set, elem_of_seqZ. lia.
Qed.

Lemma bitmap_meta n : n ∈ bitmap sb -> 0 <= n < data_start sb.
Proof.
  destruct Hsb as [H1 H2 H3 H4 H5]. intros [Hlo Hhi]%elem_of_list_to_set%elem_of_seqZ.
  assert (0 <= sb_ninodes sb / IPB) by (apply Z.div_pos; [lia|done]). lia.
Qed.

Lemma used_ext v v' b : v' (BBLOCK b sb) = v (BBLOCK b sb) -> used sb v' b = used sb v b.
Proof. unfold used. by intros ->. Qed.

(** One bit of the bitmap written. *)
Lemma used_put v b x f :
  0 <= b < sb_size sb -> 0 <= x < sb_size sb -> length (v (BBLOCK b sb)) = Z.to_nat BSIZE ->
  used sb (upd v (BBLOCK b sb) (put8 (v (BBLOCK b sb)) (bm_off b) f)) x =
    if decide (b / BPB = x / BPB /\ bm_off x = bm_off b) then Z.testbit f (x mod 8) else used sb v x.
Proof.
  intros Hb Hx Hl. destruct (BBLOCK_ok b Hb) as (Eb & _), (BBLOCK_ok x Hx) as (Ex & _). unfold used.
  fold (bm_off x). pose proof (Z.mod_pos_bound x 8 ltac:(lia)). pose proof (bm_off_lt b ltac:(lia)).
  destruct (decide (b / BPB = x / BPB)) as [Hq|Hq].
  - rewrite Ex, <- Hq, <- Eb, upd_eq, put8_test by lia. destruct (decide (bm_off x = bm_off b)) as [Ho|Ho].
    + by rewrite decide_True.
    + by rewrite decide_False by tauto.
  - rewrite decide_False by tauto. rewrite upd_ne; [done|]. lia.
Qed.

Lemma used_set v b x :
  0 <= b < sb_size sb -> 0 <= x < sb_size sb -> length (v (BBLOCK b sb)) = Z.to_nat BSIZE ->
  used sb (upd v (BBLOCK b sb) (set_bit b (v (BBLOCK b sb)))) x = (x =? b) || used sb v x.
Proof.
  intros Hb Hx Hl. unfold set_bit. rewrite used_put by done. pose proof (Z.mod_pos_bound x 8 ltac:(lia)).
  pose proof (Z.mod_pos_bound b 8 ltac:(lia)). case_decide as E.
  - destruct E as [Hq Ho]. rewrite Z.lor_spec, shiftl_1_bit by lia. rewrite orb_comm.
    unfold used. fold (bm_off x). rewrite <- Ho.
    replace (BBLOCK x sb) with (BBLOCK b sb)
      by (destruct (BBLOCK_ok b Hb) as (-> & _), (BBLOCK_ok x Hx) as (-> & _); lia).
    f_equal. destruct (Z.eqb_spec x b) as [->|Hne]; [by rewrite Z.eqb_refl|].
    apply Z.eqb_neq. intros Hm. apply Hne. apply bm_inj; lia || done.
  - destruct (Z.eqb_spec x b) as [->|]; [|done]. by destruct E.
Qed.

Lemma used_clear v b x :
  0 <= b < sb_size sb -> 0 <= x < sb_size sb -> length (v (BBLOCK b sb)) = Z.to_nat BSIZE ->
  used sb (free_block sb v b) x = negb (x =? b) && used sb v x.
Proof.
  intros Hb Hx Hl. unfold free_block, clear_bit. rewrite used_put by done. pose proof (Z.mod_pos_bound x 8 ltac:(lia)).
  pose proof (Z.mod_pos_bound b 8 ltac:(lia)). case_decide as E.
  - destruct E as [Hq Ho]. rewrite Z.land_spec, Z.lnot_spec, shiftl_1_bit by lia. rewrite andb_comm.
    unfold used. fold (bm_off x). rewrite <- Ho.
    replace (BBLOCK x sb) with (BBLOCK b sb)
      by (destruct (BBLOCK_ok b Hb) as (-> & _), (BBLOCK_ok x Hx) as (-> & _); lia).
    f_equal. f_equal. destruct (Z.eqb_spec x b) as [->|Hne]; [by rewrite Z.eqb_refl|].
    apply Z.eqb_neq. intros Hm. apply Hne. apply bm_inj; lia || done.
  - destruct (Z.eqb_spec x b) as [->|]; [|done]. by destruct E.
Qed.

(** Allocating a free data block sets its bit and no other. *)
Lemma used_alloc v b x :
  v_ok sb v -> data_start sb <= b < sb_size sb -> 0 <= x < sb_size sb ->
  used sb (alloc_block sb v b) x = (x =? b) || used sb v x.
Proof.
  intros [Hl _ _] Hb Hx. destruct (BBLOCK_ok x Hx) as (_ & _ & Hbx).
  assert (0 <= data_start sb) as H0 by (destruct (BBLOCK_ok x Hx); lia).
  rewrite <- used_set by (done || lia). apply used_ext. unfold alloc_block. apply upd_ne. lia.
Qed.

Lemma put8_ok d off f : byte_list d -> (off + 1 <= length d)%nat ->
  length (put8 d off f) = length d /\ byte_list (put8 d off f).
Proof. intros Hd Ho. split; [by apply length_putn|by apply putn_bytes]. Qed.

Lemma alloc_block_frame v b n : n <> b -> n <> BBLOCK b sb -> alloc_block sb v b n = v n.
Proof. intros. unfold alloc_block. by rewrite !upd_ne. Qed.

Lemma v_ok_alloc v b : v_ok sb v -> data_start sb <= b < sb_size sb -> v_ok sb (alloc_block sb v b).
Proof.
  intros Hv Hb. pose proof Hv as [Hl Hby Hm].
  assert (0 <= b) by (destruct Hsb; pose proof (BBLOCK_ok 0 ltac:(lia)); lia).
  destruct (put8_ok (v (BBLOCK b sb)) (bm_off b) (Z.lor (get8 (v (BBLOCK b sb)) (bm_off b)) (Z.shiftl 1 (b mod 8))))
    as [Hl' Hb']; [done|rewrite Hl; apply bm_off_lt; lia|].
  split; [intros n|intros n|intros x Hx].
  - unfold alloc_block, upd. destruct (n =? b); [apply length_replicate|].
    destruct (n =? BBLOCK b sb); [|done]. unfold set_bit. by rewrite Hl'.
  - unfold alloc_block, upd. destruct (n =? b); [by apply Forall_replicate|].
    by destruct (n =? BBLOCK b sb).
  - rewrite used_alloc by (done || lia). rewrite Hm by done. apply orb_true_r.
Qed.

Lemma v_ok_free v b : v_ok sb v -> data_start sb <= b < sb_size sb -> v_ok sb (free_block sb v b).
Proof.
  intros Hv Hb. pose proof Hv as [Hl Hby Hm].
  assert (0 <= b) by (destruct Hsb; pose proof (BBLOCK_ok 0 ltac:(lia)); lia).
  destruct (put8_ok (v (BBLOCK b sb)) (bm_off b) (Z.land (get8 (v (BBLOCK b sb)) (bm_off b)) (Z.lnot (Z.shiftl 1 (b mod 8)))))
    as [Hl' Hb']; [done|rewrite Hl; apply bm_off_lt; lia|].
  split; [intros n|intros n|intros x Hx].
  - unfold free_block, upd. destruct (n =? BBLOCK b sb); [|done]. unfold clear_bit. by rewrite Hl'.
  - unfold free_block, upd. by destruct (n =? BBLOCK b sb).
  - rewrite used_clear by (done || lia). rewrite Hm by done. destruct (Z.eqb_spec x b); [lia|done].
Qed.

End Bitmap.

(** ** The search *)

Lemma free_bit_spec sb v b k bi :
  sb_ok sb -> 0 <= b < sb_size sb -> b mod BPB = 0 -> 0 <= bi <= BPB -> BPB - bi <= Z.of_nat k ->
  match free_bit k (sb_size sb) (v (BBLOCK b sb)) b bi with
  | Some j => bi <= j < BPB /\ b + j < sb_size sb /\ used sb v (b + j) = false
  | None => forall j, bi <= j < BPB -> b + j < sb_size sb -> used sb v (b + j) = true
  end.
Proof.
  intros Hsb Hb Hal. pose proof (so_size _ Hsb). revert bi.
  induction k as [|k IH]; intros bi Hbi Hk; cbn [free_bit]; [intros j Hj; lia|].
  assert (BPB = 8192) as HB by reflexivity.
  destruct (Z.ltb_spec bi BPB) as [Hlt|]; [|intros j Hj; lia]. cbn [andb]. rewrite u32_id by lia.
  destruct (Z.ltb_spec (b + bi) (sb_size sb)) as [Hin|]; [|intros j Hj ?; lia].
  assert (Hmod : (b + bi) mod BPB = bi) by (rewrite Z.add_mod, Hal, Z.add_0_l, Z.mod_mod, Z.mod_small by lia; lia).
  assert (Hdiv : (b + bi) / BPB = b / BPB).
  { rewrite (Z.div_mod b BPB) at 1 by lia. rewrite Hal, Z.add_0_r, Z.mul_comm, Z.div_add_l by lia. rewrite (Z.div_small bi) by lia. lia. }
  assert (Hused : used sb v (b + bi) = Z.testbit (get8 (v (BBLOCK b sb)) (Z.to_nat (bi / 8))) (bi mod 8)).
  { unfold used. rewrite Hmod. replace (BBLOCK (b + bi) sb) with (BBLOCK b sb) by (unfold BBLOCK; by rewrite Hdiv).
    f_equal. rewrite <- Hmod at 2. rewrite HB. clear. Z.div_mod_to_equations. lia. }
  rewrite land_bit by (apply Z.mod_pos_bound; lia). rewrite <- Hused.
  destruct (used sb v (b + bi)) eqn:Eu; cbn [negb].
  - specialize (IH (bi + 1) ltac:(lia) ltac:(lia)). destruct (free_bit k _ _ b (bi + 1)) as [j|].
    + destruct IH as (? & ? & ?). split_and!; lia || done.
    + intros j Hj Hs. destruct (Z.eq_dec j bi) as [->|]; [done|]. apply IH; lia.
  - split_and!; lia || done.
Qed.

Section Alloc.
Context {S : Type} {BC : BlockCache S} {BCS : BlockCacheSpec S}.
Context (me dev : Z) (base : blocks) (w : list (Z * block)) (start nlog : Z).
Context (sb : superblock) (Hsb : sb_ok sb) (Hdev : is_u32 dev).
Notation tx := (tx me dev base w start nlog).
Notation quiet := (quiet me).

(** What a run of [balloc] leaves. *)
Definition balloc_post (th : thread) (it : list inode) (v : blocks) (W : gset Z) (H : list (Z * nat))
    (r : Z) (th' : thread) (s' : fsys S) : Prop :=
  same_thread th th' /\
  ((r = 0 /\ tx s' sb it v W H /\ forall b, 0 <= b < sb_size sb -> used sb v b = true) \/
   (data_start sb <= r < sb_size sb /\ used sb v r = false /\
    tx s' sb it (alloc_block sb v r) ({[r]} ∪ ({[BBLOCK r sb]} ∪ W)) H)).

(** Room for [k] more blocks than the bitmap. *)
Definition room (W : gset Z) (k : nat) : Prop := (size (W ∪ bitmap sb) + k <= Z.to_nat MAXOPBLOCKS)%nat.

Lemma room_fits W W' k : room W k -> W' ⊆ W ∪ bitmap sb -> fits W'.
Proof.
  unfold room, fits. intros Hr Hs. apply subseteq_size in Hs. lia.
Qed.

Lemma room_one W k b : room W (Datatypes.S k) -> room ({[b]} ∪ W) k.
Proof.
  unfold room. intros Hr. rewrite <- union_assoc_L, size_union_alt, size_singleton.
  assert (size ((W ∪ bitmap sb) ∖ {[b]}) <= size (W ∪ bitmap sb))%nat by (apply subseteq_size; set_solver). lia.
Qed.

Lemma room_bitmap W k n : room W k -> n ∈ bitmap sb -> room ({[n]} ∪ W) k.
Proof. unfold room. intros Hr Hn. by replace ({[n]} ∪ W ∪ bitmap sb) with (W ∪ bitmap sb) by set_solver. Qed.

Lemma bzero_ok th s it v W H b :
  quiet th -> tx s sb it v W H -> 0 <= b < 2 ^ 31 -> b ∉ H.*1 -> (length H <= 5)%nat -> fits ({[b]} ∪ W) ->
  wp (bzero (i32 dev) (i32 b)) (fun _ th' s' => same_thread th th' /\ tx s' sb it (upd v b zero_block) ({[b]} ∪ W) H) th s.
Proof.
  intros Hq Ht Hb Hn Hl Hf. unfold bzero. rewrite (i32_id b) by lia. rewrite (u32_id b) by lia.
  replace (u32 (i32 dev)) with dev by (unfold u32, i32; Z.div_mod_to_equations; lia).
  eapply tx_bread; [done|done|lia|done|done|]. intros bp th1 s1 Hth1 Ht1.
  eapply tx_write; [quiet_tac|done|in_list|lia|apply length_replicate|done|]. intros th2 s2 Hth2 Ht2.
  eapply tx_brelse_last; [quiet_tac|done|]. intros th3 s3 Hth3 Ht3. split; [keep_thread|done].
Qed.

Lemma balloc_from_ok fuel th s it v W H k :
  quiet th -> tx s sb it v W H -> v_ok sb v -> held_ok sb v H -> (length H <= 4)%nat -> room W 1 ->
  sb_size sb / BPB + 1 <= Z.of_nat (k + fuel) -> Z.of_nat k <= sb_size sb / BPB + 1 ->
  (forall b, 0 <= b < sb_size sb -> b < Z.of_nat k * BPB -> used sb v b = true) ->
  wp (balloc_from fuel dev (Z.of_nat k * BPB)) (balloc_post th it v W H) th s.
Proof.
  assert (BPB = 8192) as HB by reflexivity. pose proof (so_size _ Hsb) as Hsz.
  assert (sb_size sb = BPB * (sb_size sb / BPB) + sb_size sb mod BPB) as Hdm by (apply Z.div_mod; lia).
  pose proof (Z.mod_pos_bound (sb_size sb) BPB ltac:(lia)) as Hmod.
  revert th s k. induction fuel as [|fuel IH]; intros th s k Hq Ht Hv Hh Hl Hr Hfu Hk Hlow;
    cbn [balloc_from]; eapply tx_get_sb; [exact Ht| |exact Ht|]; rewrite u32_id by lia;
    destruct (Z.ltb_spec (Z.of_nat k * BPB) (sb_size sb)) as [Hlt|Hge]; try lia;
    try (apply wp_ret; split; [done|left; split_and!; [done|done|intros; apply Hlow; lia]]).
  set (b := Z.of_nat k * BPB) in *. destruct (BBLOCK_ok sb Hsb b) as (_ & Hbm & Hbb); [lia|].
  assert (Hnh : forall n, n ∈ bitmap sb -> n ∉ H.*1) by (intros n Hn%(bitmap_meta sb Hsb) Hin%Hh; lia).
  pose proof (so_data _ Hsb) as Hd. eapply tx_bread; [done|done|lia|by apply Hnh|lia|]. intros bp th1 s1 Hth1 Ht1.
  eapply tx_bdata; [done|in_list|].
  pose proof (free_bit_spec sb v b (Z.to_nat BPB) 0 Hsb ltac:(lia) ltac:(apply Z.mod_mul; lia) ltac:(lia) ltac:(lia)) as Hfb.
  destruct (free_bit (Z.to_nat BPB) (sb_size sb) (v (BBLOCK b sb)) b 0) as [j|].
  - destruct Hfb as (Hj & Hjs & Hju).
    assert (Hmj : (b + j) mod BPB = j) by (unfold b; rewrite Z.add_comm, Z.mod_add, Z.mod_small by lia; lia).
    assert (Hdj : (b + j) / BPB = b / BPB) by (unfold b; rewrite Z.div_add_l, Z.div_mul, (Z.div_small j) by lia; lia).
    assert (HBB : BBLOCK (b + j) sb = BBLOCK b sb) by (unfold BBLOCK; by rewrite Hdj).
    assert (Hds : data_start sb <= b + j).
    { destruct (Z.lt_ge_cases (b + j) (data_start sb)); [|done]. rewrite (vo_meta _ _ Hv) in Hju by lia. done. }
    replace (put8 _ _ _) with (set_bit (b + j) (v (BBLOCK b sb))).
    2:{ unfold set_bit, bm_off. rewrite Hmj. do 3 f_equal. rewrite <- Hmj at 2. rewrite HB. clear. Z.div_mod_to_equations. lia. }
    eapply tx_write; [quiet_tac|done|in_list|lia| |by eapply (room_fits W); [|set_solver]|].
    { unfold set_bit. rewrite length_putn; [apply Hv|]. rewrite (vo_len _ _ Hv). apply bm_off_lt. lia. }
    intros th2 s2 Hth2 Ht2. eapply tx_brelse; [quiet_tac|done|]. intros th3 s3 Hth3 Ht3.
    apply wp_bind. eapply wp_mono.
    { eapply (bzero_ok th3 s3 it _ _ H (b + j)); [quiet_tac|done|lia| |lia|].
      - intros Hin%Hh. rewrite Hju in Hin. by destruct Hin.
      - eapply (room_fits ({[b + j]} ∪ W) _ 0); [by apply room_one|]. set_solver. }
    intros [] th4 s4 [Hth4 Ht4]. rewrite u32_id by lia. apply wp_ret. split; [keep_thread|]. right.
    split; [lia|]. split; [done|]. unfold alloc_block. by rewrite HBB.
  - eapply tx_brelse; [quiet_tac|done|]. intros th2 s2 Hth2 Ht2. rewrite i32_id by lia.
    replace (b + BPB) with (Z.of_nat (Datatypes.S k) * BPB) by lia.
    eapply wp_mono; [apply (IH th2 s2 (Datatypes.S k)); try done; [quiet_tac|lia|lia|]|].
    + intros x Hx Hxk. destruct (Z.lt_ge_cases x b); [by apply Hlow|].
      replace x with (b + (x - b)) by lia. apply Hfb; lia.
    + intros r th' s' [Hs Hpost]. split; [keep_thread|done].
Qed.

Lemma balloc_ok th s it v W H :
  quiet th -> tx s sb it v W H -> v_ok sb v -> held_ok sb v H -> (length H <= 4)%nat -> room W 1 ->
  wp (balloc dev) (balloc_post th it v W H) th s.
Proof.
  intros Hq Ht Hv Hh Hl Hr. unfold balloc. eapply tx_get_sb; [done|].
  assert (0 <= sb_size sb / BPB) by (pose proof (so_size _ Hsb); apply Z.div_pos; [lia|done]).
  apply (balloc_from_ok _ th s it v W H 0); try done; lia.
Qed.

Lemma bfree_ok th s it v W H b :
  quiet th -> tx s sb it v W H -> v_ok sb v -> held_ok sb v H -> (length H <= 4)%nat -> room W 0 ->
  data_start sb <= b < sb_size sb -> used sb v b = true ->
  wp (bfree (i32 dev) b) (fun _ th' s' => same_thread th th' /\ tx s' sb it (free_block sb v b) ({[BBLOCK b sb]} ∪ W) H) th s.
Proof.
  intros Hq Ht Hv Hh Hl Hr Hb Hu. pose proof (so_size _ Hsb) as Hsz. pose proof (so_data _ Hsb) as Hd.
  assert (0 <= b) as Hb0 by (pose proof (BBLOCK_ok sb Hsb 0 ltac:(lia)); lia).
  destruct (BBLOCK_ok sb Hsb b) as (_ & Hbm & Hbb); [lia|].
  assert (Hm8 : b mod BPB mod 8 = b mod 8) by (change BPB with 8192; clear; Z.div_mod_to_equations; lia).
  unfold bfree. eapply tx_get_sb; [done|].
  replace (u32 (i32 dev)) with dev by (unfold u32, i32; Z.div_mod_to_equations; lia).
  eapply tx_bread; [done|done|lia|intros Hin%Hh; lia|lia|]. intros bp th1 s1 Hth1 Ht1.
  eapply tx_bdata; [done|in_list|]. rewrite Hm8, land_bit by (apply Z.mod_pos_bound; lia).
  change (Z.testbit (get8 (v (BBLOCK b sb)) (Z.to_nat (b mod BPB / 8))) (b mod 8)) with (used sb v b).
  rewrite Hu. cbn [negb when]. apply wp_bind, wp_ret.
  change (put8 _ _ _) with (clear_bit b (v (BBLOCK b sb))).
  eapply tx_write; [quiet_tac|done|in_list|lia| |by eapply (room_fits W); [|set_solver]|].
  { unfold clear_bit. rewrite length_putn; [apply Hv|]. rewrite (vo_len _ _ Hv). by apply bm_off_lt. }
  intros th2 s2 Hth2 Ht2. eapply tx_brelse_last; [quiet_tac|done|].
  intros th3 s3 Hth3 Ht3. split; [keep_thread|done].
Qed.

(** C20: the allocator and the bitmap agree.  In a transaction with room for the bitmap and
    one more block, [balloc] returns 0 and changes nothing exactly when every block of the
    disk is in use; otherwise it returns a data block that was free, and sets exactly its
    bit, zeroes exactly its contents and touches no other block outside the bitmap.
    [bfree] of that block gives the bitmap back as it was. *)
Theorem balloc_bfree_bitmap th s it v W :
  quiet th -> tx s sb it v W [] -> v_ok sb v -> room W 1 ->
  exists r th' s', balloc dev th s = Ok r th' s' /\ same_thread th th' /\
  ((r = 0 /\ tx s' sb it v W [] /\ forall b, 0 <= b < sb_size sb -> used sb v b = true) \/
   (data_start sb <= r < sb_size sb /\ used sb v r = false /\
    exists v' W', tx s' sb it v' W' [] /\ v_ok sb v' /\ v' r = zero_block /\
      (forall n, n <> r -> n ∉ bitmap sb -> v' n = v n) /\
      (forall b, 0 <= b < sb_size sb -> used sb v' b = (b =? r) || used sb v b) /\
      exists th2 s2 v2 W2, bfree (i32 dev) r th' s' = Ok tt th2 s2 /\ tx s2 sb it v2 W2 [] /\ v_ok sb v2 /\
        forall b, 0 <= b < sb_size sb -> used sb v2 b = used sb v b)).
Proof.
  intros Hq Ht Hv Hr. pose proof (so_data _ Hsb) as Hd. pose proof (so_size _ Hsb) as Hsz.
  assert (Hh : forall v, held_ok sb v []) by (intros v0 n ?%not_elem_of_nil; done).
  destruct (proj1 (wp_ok _ _ _ _) (balloc_ok th s it v W [] Hq Ht Hv (Hh v) ltac:(cbn; lia) Hr))
    as (r & th' & s' & E & Hth & Hcase).
  exists r, th', s'. split; [done|]. split; [done|]. destruct Hcase as [?|(Hrange & Hfree & Ht')]; [by left|right].
  split; [done|]. split; [done|].
  assert (0 <= r) as Hr0 by (pose proof (BBLOCK_ok sb Hsb 0 ltac:(lia)); lia).
  destruct (BBLOCK_ok sb Hsb r) as (_ & Hbm & _); [lia|].
  pose proof (fun b Hb => used_alloc sb Hsb v r b Hv Hrange Hb) as Hused.
  exists (alloc_block sb v r), ({[r]} ∪ ({[BBLOCK r sb]} ∪ W)). pose proof (v_ok_alloc sb Hsb v r Hv Hrange) as Hv'.
  split_and!; try done.
  - apply upd_eq.
  - intros n Hn Hnb. apply alloc_block_frame; [done|]. intros ->. done.
  - assert (used sb (alloc_block sb v r) r = true) as Hur by (rewrite Hused, Z.eqb_refl by lia; done).
    destruct (proj1 (wp_ok _ _ _ _) (bfree_ok th' s' it _ _ [] r (quiet_same _ _ _ Hth Hq) Ht' Hv' (Hh _) ltac:(cbn; lia)
      (room_one _ _ r (room_bitmap _ _ _ Hr Hbm)) Hrange Hur)) as ([] & th2 & s2 & E2 & _ & Ht2).
    eexists th2, s2, (free_block sb (alloc_block sb v r) r), _. split; [done|]. split; [exact Ht2|].
    split; [by apply v_ok_free|]. intros b Hb. rewrite used_clear by (done || lia || apply Hv').
    rewrite Hused by done. destruct (Z.eqb_spec b r) as [->|]; [by rewrite Hfree|done].
Qed.

End Alloc.

(** ** A small disk

    100 blocks: the log at 2, inodes at 32, the bitmap at 34, data from 50 on. *)
Definition demo_sb : superblock := mkSuperblock FSMAGIC 100 50 16 30 2 32 34.
Definition demo_disk : blocks := fun n =>
  if n =? 34 then replicate 6 255 ++ 7 :: replicate 1017 0
  else if n =? 50 then 72 :: 105 :: replicate 1022 0
  else zero_block.
Definition demo_log : log := mkLog 2 30 1 0 1 0 (replicate (Z.to_nat LOGSIZE) 0).
Definition demo_fs (it : list inode) : fsys Bio.bio := mkFsys demo_sb it (demo_log, cboot demo_disk).

Lemma demo_sb_ok : sb_ok demo_sb.
Proof. split; vm_compute; try split; congruence || done. Qed.

Lemma demo_v_ok : v_ok demo_sb demo_disk.
Proof.
  assert (Hall : forallb (used demo_sb demo_disk) (seqZ 0 50) = true) by (vm_compute; reflexivity).
  split.
  - intros n. unfold demo_disk. destruct (n =? 34), (n =? 50); reflexivity || apply length_replicate.
  - intros n. unfold demo_disk. destruct (n =? 34); [|destruct (n =? 50); [|by apply Forall_replicate]].
    + apply Forall_app. split; [by apply Forall_replicate|]. constructor; [done|]. by apply Forall_replicate.
    + constructor; [done|]. constructor; [done|]. by apply Forall_replicate.
  - intros b Hb. apply (proj1 (forallb_forall _ _) Hall b), list_elem_of_In, elem_of_seqZ. change (data_start demo_sb) with 50 in Hb. lia.
Qed.

Lemma demo_tx it : tx 1 1 demo_disk [] 2 30 (demo_fs it) demo_sb it demo_disk ∅ [].
Proof.
  split; try reflexivity.
  - exists []. split; [|split; [constructor|split; [done|intros n ?%not_elem_of_nil; done]]]. by split.
  - split; [reflexivity..|]. unfold log_fits, MAXOPBLOCKS. lia.
  - cbn [f_disk demo_fs snd]. apply crepr_boot; [done|]. exact (vo_len _ _ demo_v_ok).
  - unfold fits. rewrite size_empty. lia.
Qed.

Definition demo_thread : thread := mkThread [] 0 1 [].
Lemma demo_quiet : quiet 1 demo_thread.
Proof. split; [apply not_elem_of_nil|]. split; [apply not_elem_of_nil|]. split; [intros i; apply not_elem_of_nil|done]. Qed.

Lemma balloc_bfree_bitmap_witness :
  exists r th' s', balloc 1 demo_thread (demo_fs []) = Ok r th' s'.
Proof.
  destruct (balloc_bfree_bitmap 1 1 demo_disk [] 2 30 demo_sb demo_sb_ok ltac:(lia) demo_thread (demo_fs []) [] demo_disk ∅)
    as (r & th' & s' & E & _).
  - exact demo_quiet.
  - exact (demo_tx []).
  - exact demo_v_ok.
  - unfold room. vm_compute. lia.
  - exists r, th', s'. exact E.
Defined.
