(* ===== verification/Inode.v ===== *)
(** * Inodes and their content (kernel/fs.c: [iinit] to [writei])

    An inode pointer is an index into [itable]; the null pointer is [None].  Messages
    printed on the console are not part of the state. *)

From S2P Require Import Prelude Layout Memory Bytes Sleeplock BlockCache Log FsState Balloc.

(** [struct dinode] at byte offset [off] of a block. *)
Fixpoint get_addrs (k : nat) (d : block) (off : nat) : list Z :=
  match k with O => [] | Datatypes.S k' => get32 d off :: get_addrs k' d (off + 4) end.
Fixpoint put_addrs (l : list Z) (d : block) (off : nat) : block :=
  match l with [] => d | a :: l' => put_addrs l' (put32 d off a) (off + 4) end.

Definition dinode_off (inum : Z) : nat := Z.to_nat (inum mod IPB * DINODE_SIZE).

(** The fields of an inode as [ilock] reads them from the disk and [iupdate] writes them. *)
Definition load_dinode (d : block) (off : nat) (ip : inode) : inode :=
  with_dinode (i16 (get16 d off)) (i16 (get16 d (off + 2))) (i16 (get16 d (off + 4)))
    (i16 (get16 d (off + 6))) (get32 d (off + 8)) (get_addrs (Z.to_nat (NDIRECT + 1)) d (off + 12)) ip.
Definition store_dinode (ip : inode) (d : block) (off : nat) : block :=
  put_addrs (i_addrs ip)
    (put32 (put16 (put16 (put16 (put16 d off (i_type ip)) (off + 2) (i_major ip)) (off + 4) (i_minor ip))
       (off + 6) (i_nlink ip)) (off + 8) (i_size ip)) (off + 12).

(** What [iget] finds: the entry of the inode, or the first empty entry. *)
Fixpoint iget_scan (l : list inode) (i : nat) (dev inum : Z) (empty : option nat) : nat + option nat :=
  match l with
  | [] => inr empty
  | ip :: l' =>
      if (0 <? i_ref ip) && (i_dev ip =? dev) && (i_inum ip =? inum) then inl i
      else iget_scan l' (Datatypes.S i) dev inum
             (match empty with
              | None => if i_ref ip =? 0 then Some i else None
              | Some e => Some e
              end)
  end.

Section Inode.
Context {S : Type} `{BC : BlockCache S}.
Notation F := (fsys S).

Definition iinit : M F unit :=
  modify (fun s => set_inodes ((fun ip => with_ilock initsleeplock ip) <$> f_inode s) s).

Definition iget (dev inum : Z) : M F nat :=
  acquire LkItable;;;
  let! t := gets f_inode in
  match iget_scan t 0 dev inum None with
  | inl i =>
      upd_inode i (fun ip => with_iref (i32 (i_ref ip + 1)) ip);;;
      release LkItable;;;
      ret i
  | inr None => panic "iget: no inodes"
  | inr (Some i) =>
      upd_inode i (recycled_inode dev inum);;;
      release LkItable;;;
      ret i
  end.

(** [for (inum = 1; inum < sb.ninodes; inum++)], from [inum]. *)
Fixpoint ialloc_from (fuel : nat) (dev type inum : Z) : M F (option nat) :=
  let! sb := get_sb in
  if u32 inum <? sb_ninodes sb then
    match fuel with
    | O => diverge
    | Datatypes.S fuel' =>
        let! bp := bio (bread dev (IBLOCK inum sb)) in
        let! d := bio (bdata bp) in
        let off := dinode_off inum in
        if i16 (get16 d off) =? 0 then
          bio (set_bdata bp (put16 (splice d off (replicate (Z.to_nat DINODE_SIZE) 0)) off type));;;
          logged (log_write bp);;;
          bio (brelse bp);;;
          let! ip := iget dev inum in
          ret (Some ip)
        else
          bio (brelse bp);;;
          ialloc_from fuel' dev type (i32 (inum + 1))
    end
  else ret None.

Definition ialloc (dev type : Z) : M F (option nat) :=
  let! sb := get_sb in
  ialloc_from (Z.to_nat (sb_ninodes sb)) dev type 1.

Definition iupdate (ip : nat) : M F unit :=
  let! sb := get_sb in
  let! i := get_inode ip in
  let! bp := bio (bread (i_dev i) (IBLOCK (i_inum i) sb)) in
  let! d := bio (bdata bp) in
  bio (set_bdata bp (store_dinode i d (dinode_off (i_inum i))));;;
  logged (log_write bp);;;
  bio (brelse bp).

Definition idup (ip : nat) : M F nat :=
  acquire LkItable;;;
  upd_inode ip (fun i => with_iref (i32 (i_ref i + 1)) i);;;
  release LkItable;;;
  ret ip.

Definition ilock (p : option nat) : M F unit :=
  match p with
  | None => panic "ilock"
  | Some ip =>
      let! i := get_inode ip in
      when (i_ref i <? 1) (panic "ilock");;;
      inode_lock ip (acquiresleep (LkInode ip) (ChInodeLock ip));;;
      let! i := get_inode ip in
      when (i_valid i =? 0)
        (let! sb := get_sb in
         let! bp := bio (bread (i_dev i) (IBLOCK (i_inum i) sb)) in
         let! d := bio (bdata bp) in
         upd_inode ip (load_dinode d (dinode_off (i_inum i)));;;
         bio (brelse bp);;;
         upd_inode ip (with_ivalid 1);;;
         let! i := get_inode ip in
         when (i_type i =? 0) (panic "ilock: no type"))
  end.

Definition iunlock (p : option nat) : M F unit :=
  match p with
  | None => panic "iunlock"
  | Some ip =>
      let! h := inode_lock ip (holdingsleep (LkInode ip)) in
      let! i := get_inode ip in
      when (negb h || (i_ref i <? 1)) (panic "iunlock");;;
      inode_lock ip (releasesleep (LkInode ip) (ChInodeLock ip))
  end.

(** [ip->addrs[k]]. *)
Definition get_addr (ip : nat) (k : Z) : M F Z :=
  let! i := get_inode ip in deref "ip->addrs index" (znth (i_addrs i) k).
Definition set_addr (ip : nat) (k a : Z) : M F unit :=
  upd_inode ip (fun i => with_iaddrs (zupd (i_addrs i) k a) i).

(** [if ((addr = ip->addrs[k]) == 0) { addr = balloc(ip->dev); if (addr == 0) return 0;
    ip->addrs[k] = addr; }], which [bmap] does for a direct block and for the indirect one. *)
Definition bmap_addr (ip : nat) (k : Z) : M F Z :=
  let! i := get_inode ip in
  let! addr := get_addr ip k in
  if addr =? 0 then
    let! addr := balloc (i_dev i) in
    if addr =? 0 then ret 0 else set_addr ip k addr;;; ret addr
  else ret addr.

Definition bmap (ip : nat) (bn : Z) : M F Z :=
  if bn <? NDIRECT then bmap_addr ip bn
  else
    let bn := u32 (bn - NDIRECT) in
    if bn <? NINDIRECT then
      let! addr := bmap_addr ip NDIRECT in
      if addr =? 0 then ret 0
      else
        let! i := get_inode ip in
        let! bp := bio (bread (i_dev i) addr) in
        let! a := bio (bdata bp) in
        let addr := get32 a (Z.to_nat (4 * bn)) in
        let! addr :=
          (if addr =? 0 then
             let! addr := balloc (i_dev i) in
             when (ctrue addr)
               (let! a := bio (bdata bp) in
                bio (set_bdata bp (put32 a (Z.to_nat (4 * bn)) addr));;;
                logged (log_write bp));;;
             ret addr
           else ret addr) in
        bio (brelse bp);;;
        ret addr
    else panic "bmap: out of range".

(** The two loops of [itrunc]. *)
Fixpoint trunc_direct (k : nat) (ip : nat) (i : Z) : M F unit :=
  match k with
  | O => ret tt
  | Datatypes.S k' =>
      let! a := get_addr ip i in
      when (ctrue a)
        (let! x := get_inode ip in
         bfree (i32 (i_dev x)) a;;;
         set_addr ip i 0);;;
      trunc_direct k' ip (i + 1)
  end.
Fixpoint trunc_indirect (k : nat) (ip bp : nat) (j : Z) : M F unit :=
  match k with
  | O => ret tt
  | Datatypes.S k' =>
      let! a := bio (bdata bp) in
      let x := get32 a (Z.to_nat (4 * j)) in
      when (ctrue x) (let! i := get_inode ip in bfree (i32 (i_dev i)) x);;;
      trunc_indirect k' ip bp (j + 1)
  end.

Definition itrunc (ip : nat) : M F unit :=
  trunc_direct (Z.to_nat NDIRECT) ip 0;;;
  let! a := get_addr ip NDIRECT in
  when (ctrue a)
    (let! i := get_inode ip in
     let! bp := bio (bread (i_dev i) a) in
     trunc_indirect (Z.to_nat NINDIRECT) ip bp 0;;;
     bio (brelse bp);;;
     bfree (i32 (i_dev i)) a;;;
     set_addr ip NDIRECT 0);;;
  upd_inode ip (with_isize 0);;;
  iupdate ip.

Definition iput (ip : nat) : M F unit :=
  acquire LkItable;;;
  let! i := get_inode ip in
  when ((i_ref i =? 1) && ctrue (i_valid i) && (i_nlink i =? 0))
    (inode_lock ip (acquiresleep (LkInode ip) (ChInodeLock ip));;;
     release LkItable;;;
     itrunc ip;;;
     upd_inode ip (with_itype 0);;;
     iupdate ip;;;
     upd_inode ip (with_ivalid 0);;;
     inode_lock ip (releasesleep (LkInode ip) (ChInodeLock ip));;;
     acquire LkItable);;;
  upd_inode ip (fun i => with_iref (i32 (i_ref i - 1)) i);;;
  release LkItable.

Definition iunlockput (ip : nat) : M F unit :=
  iunlock (Some ip);;;
  iput ip.

Record stat := mkStat { st_dev : Z; st_ino : Z; st_type : Z; st_nlink : Z; st_size : Z }.

Definition stati (ip : nat) : M F stat :=
  let! i := get_inode ip in
  ret (mkStat (i32 (i_dev i)) (i_inum i) (i_type i) (i_nlink i) (i_size i)).

(** ** Reading and writing *)

Context {K : Type} `{EN : FsEnv K}.

(** The loop of [readi]; it returns [tot]. *)
Fixpoint readi_loop (fuel : nat) (ip : nat) (user_dst dst off n tot : Z) : M (F * K) Z :=
  if tot <? n then
    match fuel with
    | O => diverge
    | Datatypes.S fuel' =>
        let! addr := fs (bmap ip (off / BSIZE)) in
        if addr =? 0 then ret tot
        else
          let! i := fs (get_inode ip) in
          let! bp := fs (bio (bread (i_dev i) addr)) in
          let m := Z.min (u32 (n - tot)) (u32 (BSIZE - off mod BSIZE)) in
          let! d := fs (bio (bdata bp)) in
          let! r := env (env_copyout user_dst dst (take (Z.to_nat m) (drop (Z.to_nat (off mod BSIZE)) d))) in
          if r =? -1 then fs (bio (brelse bp));;; ret (u32 (-1))
          else
            fs (bio (brelse bp));;;
            readi_loop fuel' ip user_dst (u64 (dst + m)) (u32 (off + m)) n (u32 (tot + m))
    end
  else ret tot.

Definition readi (ip : nat) (user_dst dst off n : Z) : M (F * K) Z :=
  let! i := fs (get_inode ip) in
  if (i_size i <? off) || (u32 (off + n) <? off) then ret 0
  else
    let n := if i_size i <? u32 (off + n) then u32 (i_size i - off) else n in
    let! tot := readi_loop (Z.to_nat (n / BSIZE + 2)) ip user_dst dst off n 0 in
    ret (i32 tot).

(** The loop of [writei]; it returns [tot] and the offset reached. *)
Fixpoint writei_loop (fuel : nat) (ip : nat) (user_src src off n tot : Z) : M (F * K) (Z * Z) :=
  if tot <? n then
    match fuel with
    | O => diverge
    | Datatypes.S fuel' =>
        let! addr := fs (bmap ip (off / BSIZE)) in
        if addr =? 0 then ret (tot, off)
        else
          let! i := fs (get_inode ip) in
          let! bp := fs (bio (bread (i_dev i) addr)) in
          let m := Z.min (u32 (n - tot)) (u32 (BSIZE - off mod BSIZE)) in
          let! d := fs (bio (bdata bp)) in
          let! r := env (env_copyin user_src src (take (Z.to_nat m) (drop (Z.to_nat (off mod BSIZE)) d))) in
          fs (bio (set_bdata bp (splice d (Z.to_nat (off mod BSIZE)) (snd r))));;;
          if fst r =? -1 then fs (bio (brelse bp));;; ret (tot, off)
          else
            fs (logged (log_write bp));;;
            fs (bio (brelse bp));;;
            writei_loop fuel' ip user_src (u64 (src + m)) (u32 (off + m)) n (u32 (tot + m))
    end
  else ret (tot, off).

Definition writei (ip : nat) (user_src src off n : Z) : M (F * K) Z :=
  let! i := fs (get_inode ip) in
  if (i_size i <? off) || (u32 (off + n) <? off) then ret (-1)
  else if MAXFILE * BSIZE <? u32 (off + n) then ret (-1)
  else
    let! r := writei_loop (Z.to_nat (n / BSIZE + 2)) ip user_src src off n 0 in
    let! i := fs (get_inode ip) in
    fs (when (i_size i <? snd r) (upd_inode ip (with_isize (snd r))));;;
    fs (iupdate ip);;;
    ret (i32 (fst r)).

End Inode.
