(* ===== verification/InodeSpec.v ===== *)
(** * The blocks of an inode

    [bmap] finds the block that holds the [bn]-th part of a file, or allocates it, and
    with it the indirect block.  The file's other blocks, and the blocks of every other
    file, keep their contents. *)

From S2P Require Import Prelude Layout Memory Bytes Sleeplock BlockCache Log FsState Txn Balloc BallocSpec Inode.

(** The block numbers an inode holds: direct, indirect, and of the [k]-th block. *)
Definition naddr (i : inode) (k : Z) : Z := default 0 (znth (i_addrs i) k).
Definition ind (i : inode) : Z := naddr i NDIRECT.
Definition entry (v : blocks) (a k : Z) : Z := get32 (v a) (Z.to_nat (4 * k)).
Definition addr_of (v : blocks) (i : inode) (k : Z) : Z :=
  if k <? NDIRECT then naddr i k
  else if ind i =? 0 then 0 else entry v (ind i) (k - NDIRECT).

(** A data block in use. *)
Definition data_block (sb : superblock) (v : blocks) (n : Z) : Prop :=
  data_start sb <= n < sb_size sb /\ used sb v n = true.
(** A data block not in use. *)
Definition fresh (sb : superblock) (v : blocks) (n : Z) : Prop :=
  data_start sb <= n < sb_size sb /\ used sb v n = false.

(** The blocks of an inode are allocated, and all different. *)
Record inode_ok (sb : superblock) (v : blocks) (i : inode) : Prop := mkInodeOk {
  io_len : length (i_addrs i) = Z.to_nat (NDIRECT + 1);
  io_ind : ind i <> 0 -> data_block sb v (ind i);
  io_data : forall k, 0 <= k < MAXFILE -> addr_of v i k <> 0 -> data_block sb v (addr_of v i k) /\ addr_of v i k <> ind i;
  io_inj : forall k k', 0 <= k < MAXFILE -> 0 <= k' < MAXFILE -> addr_of v i k <> 0 ->
    addr_of v i k = addr_of v i k' -> k = k';
}.

(** What finding or allocating block [bn] of the file does. *)
Record grown (sb : superblock) (v v' : blocks) (i i' : inode) (bn r : Z) : Prop := mkGrown {
  gr_inode : i' = with_iaddrs (i_addrs i') i;
  gr_addr : addr_of v' i' bn = r;
  gr_same : forall k, 0 <= k < MAXFILE -> k <> bn -> addr_of v' i' k = addr_of v i k;
  gr_old : addr_of v i bn <> 0 -> r = addr_of v i bn;
  gr_new : addr_of v i bn = 0 -> r <> 0 -> v' r = zero_block /\ fresh sb v r;
  gr_frame : forall n, data_block sb v n -> n <> ind i -> v' n = v n;
  gr_meta : forall n, n < data_start sb -> n ∉ bitmap sb -> v' n = v n;
  gr_used : forall n, 0 <= n < sb_size sb -> used sb v n = true -> used sb v' n = true;
  gr_ind : ind i <> 0 -> ind i' = ind i;
  gr_ind0 : ind i = 0 -> ind i' = 0 \/ fresh sb v (ind i');
}.

Section InodeSpec.
Context (sb : superblock) (Hsb : sb_ok sb).

Lemma data_start_pos : 0 < data_start sb.
Proof.
  destruct Hsb as [H1 H2 H3 H4 H5]. assert (0 <= sb_ninodes sb / IPB) by (apply Z.div_pos; [lia|done]).
  assert (0 <= sb_size sb / BPB) by (apply Z.div_pos; [lia|done]). lia.
Qed.

Lemma data_block_neq v n r : data_block sb v n -> fresh sb v r -> n <> r.
Proof. intros [_ H1] [_ H2] ->. congruence. Qed.

Lemma alloc_frame v n r : fresh sb v r -> data_block sb v n -> alloc_block sb v r n = v n.
Proof.
  intros Hr Hn. apply alloc_block_frame; [by eapply data_block_neq|].
  destruct Hr as [Hr _], Hn as [Hn _]. pose proof data_start_pos. destruct (BBLOCK_ok sb Hsb r) as (_ & _ & ?); lia.
Qed.

Lemma alloc_meta v n r : fresh sb v r -> n < data_start sb -> n ∉ bitmap sb -> alloc_block sb v r n = v n.
Proof.
  intros [Hr _] Hn Hb. pose proof data_start_pos. destruct (BBLOCK_ok sb Hsb r) as (_ & Hbm & _); [lia|].
  apply alloc_block_frame; [lia|]. intros ->. done.
Qed.

Lemma alloc_used v n r : v_ok sb v -> fresh sb v r -> 0 <= n < sb_size sb ->
  used sb (alloc_block sb v r) n = (n =? r) || used sb v n.
Proof. intros Hv [Hr _] Hn. by apply used_alloc. Qed.

Lemma alloc_data_block v n r : v_ok sb v -> fresh sb v r -> data_block sb v n -> data_block sb (alloc_block sb v r) n.
Proof.
  intros Hv Hr [Hn Hu]. pose proof data_start_pos. split; [done|]. rewrite alloc_used by (done || lia). rewrite Hu. apply orb_true_r.
Qed.

Lemma alloc_new_block v r : v_ok sb v -> fresh sb v r -> data_block sb (alloc_block sb v r) r.
Proof.
  intros Hv Hr. pose proof data_start_pos. split; [apply Hr|]. destruct (Hr) as [? _]. rewrite alloc_used by (done || lia). by rewrite Z.eqb_refl.
Qed.

Lemma fresh_pos v r : fresh sb v r -> r <> 0 /\ 0 < r < 2 ^ 30 + 1.
Proof. intros [Hr _]. pose proof data_start_pos. pose proof (so_size _ Hsb). lia. Qed.

(** Storing a block number in the inode. *)
Lemma naddr_upd i k a j : length (i_addrs i) = Z.to_nat (NDIRECT + 1) -> 0 <= k <= NDIRECT ->
  naddr (with_iaddrs (zupd (i_addrs i) k a) i) j = if j =? k then a else naddr i j.
Proof.
  intros Hl Hk. unfold naddr. cbn [i_addrs with_iaddrs]. destruct (Z.eqb_spec j k) as [->|Hne].
  - rewrite znth_zupd_eq; [done|]. rewrite Hl. unfold NDIRECT in *. lia.
  - by rewrite znth_zupd_ne by lia.
Qed.

Lemma inode_addrs_ok v i k a : inode_ok sb v i -> length (i_addrs (with_iaddrs (zupd (i_addrs i) k a) i)) = Z.to_nat (NDIRECT + 1).
Proof. intros Hi. cbn. rewrite length_zupd. apply Hi. Qed.

(** A new block [r] of the file at [bn]: the numbers of the others, and their contents,
    are the same. *)
Lemma inode_ok_grow v v' i i' bn r :
  inode_ok sb v i -> length (i_addrs i') = Z.to_nat (NDIRECT + 1) -> ind i' = ind i -> fresh sb v r ->
  (forall n, data_block sb v n -> data_block sb v' n) -> data_block sb v' r ->
  addr_of v' i' bn = r -> (forall k, 0 <= k < MAXFILE -> k <> bn -> addr_of v' i' k = addr_of v i k) ->
  inode_ok sb v' i'.
Proof.
  intros [H1 H2 H3 H4] Hl Hind Hr Hkeep Hnew Hbn Hother. split; [done|..].
  - rewrite Hind. intros Hn. by apply Hkeep, H2.
  - intros k Hk. rewrite Hind. destruct (Z.eq_dec k bn) as [->|Hne].
    + rewrite Hbn. intros _. split; [done|]. intros E. destruct (Z.eq_dec (ind i) 0) as [E0|E0].
      * destruct (fresh_pos v r Hr). congruence.
      * symmetry in E. revert E. by apply (data_block_neq v); [apply H2|].
    + rewrite Hother by done. intros Hn. destruct (H3 k Hk Hn). split; [by apply Hkeep|done].
  - intros k k' Hk Hk'. assert (forall j, 0 <= j < MAXFILE -> addr_of v i j <> 0 -> addr_of v i j <> r) as Hnr.
    { intros j Hj Hn. eapply data_block_neq; [by apply H3|done]. }
    destruct (Z.eq_dec k bn) as [->|Hk1], (Z.eq_dec k' bn) as [->|Hk2]; rewrite ?Hbn, ?Hother by done; intros Hn E; try done.
    + exfalso. apply (Hnr k' Hk'); [congruence|done].
    + exfalso. by apply (Hnr k Hk).
    + by apply H4.
Qed.

Lemma addr_of_direct v i k : k < NDIRECT -> addr_of v i k = naddr i k.
Proof. intros Hk. unfold addr_of. by rewrite (proj2 (Z.ltb_lt k NDIRECT)). Qed.
Lemma addr_of_indirect v i k : NDIRECT <= k -> addr_of v i k = if ind i =? 0 then 0 else entry v (ind i) (k - NDIRECT).
Proof. intros Hk. unfold addr_of. by rewrite (proj2 (Z.ltb_ge k NDIRECT)). Qed.

Lemma addr_of_frame v v' i k :
  (ind i <> 0 -> v' (ind i) = v (ind i)) -> addr_of v' i k = addr_of v i k.
Proof.
  intros Hv. unfold addr_of, entry. destruct (k <? NDIRECT); [done|]. destruct (Z.eqb_spec (ind i) 0); [done|].
  by rewrite Hv.
Qed.

Lemma grow_direct v i k r :
  v_ok sb v -> inode_ok sb v i -> 0 <= k < NDIRECT -> naddr i k = 0 -> fresh sb v r ->
  let i' := with_iaddrs (zupd (i_addrs i) k r) i in
  inode_ok sb (alloc_block sb v r) i' /\ grown sb v (alloc_block sb v r) i i' k r.
Proof.
  intros Hv Hi Hk H0 Hr i'. pose proof (io_len _ _ _ Hi) as Hl.
  assert (Hn : forall j, naddr i' j = if j =? k then r else naddr i j) by (intros j; apply naddr_upd; [done|lia]).
  assert (Hind : ind i' = ind i) by (unfold ind; rewrite Hn; destruct (Z.eqb_spec NDIRECT k); [lia|done]).
  assert (Hsame : forall j, j <> k -> addr_of (alloc_block sb v r) i' j = addr_of v i j).
  { intros j Hj. unfold addr_of. rewrite Hind, Hn. destruct (Z.eqb_spec j k); [done|]. destruct (j <? NDIRECT); [done|].
    destruct (Z.eqb_spec (ind i) 0); [done|]. unfold entry. by rewrite alloc_frame by (done || by apply Hi). }
  assert (Hbn : addr_of (alloc_block sb v r) i' k = r) by (rewrite addr_of_direct, Hn, Z.eqb_refl by lia; done).
  split.
  - eapply (inode_ok_grow v _ i i' k r); try done; [by eapply inode_addrs_ok| |by apply alloc_new_block|].
    + intros n. by apply alloc_data_block.
    + intros j _ Hj. by apply Hsame.
  - split; try done.
    + intros j _ Hj. by apply Hsame.
    + rewrite addr_of_direct, H0 by lia. done.
    + intros _ _. split; [apply upd_eq|done].
    + intros n Hd _. by apply alloc_frame.
    + intros n. by apply alloc_meta.
    + intros n Hnr Hu. rewrite alloc_used, Hu by done. apply orb_true_r.
    + intros E. left. by rewrite Hind.
Qed.

Lemma get32_zero off : get32 zero_block off = 0.
Proof.
  unfold getn, zero_block. rewrite drop_replicate, take_replicate.
  generalize (4 `min` (Z.to_nat BSIZE - off))%nat. intros n. induction n as [|n IH]; [done|].
  cbn [replicate le_val]. rewrite IH. done.
Qed.

Lemma grow_ind v i r :
  v_ok sb v -> inode_ok sb v i -> ind i = 0 -> fresh sb v r ->
  let i' := with_iaddrs (zupd (i_addrs i) NDIRECT r) i in
  inode_ok sb (alloc_block sb v r) i' /\ ind i' = r /\
  forall k, addr_of (alloc_block sb v r) i' k = addr_of v i k.
Proof.
  intros Hv Hi H0 Hr i'. pose proof (io_len _ _ _ Hi) as Hl. destruct (fresh_pos v r Hr) as [Hr0 _].
  assert (Hn : forall j, naddr i' j = if j =? NDIRECT then r else naddr i j) by (intros j; apply naddr_upd; [done|unfold NDIRECT; lia]).
  assert (Hind : ind i' = r) by (unfold ind; rewrite Hn; done).
  assert (Hsame : forall k, addr_of (alloc_block sb v r) i' k = addr_of v i k).
  { intros k. destruct (Z.lt_ge_cases k NDIRECT).
    - rewrite !addr_of_direct by done. rewrite Hn. destruct (Z.eqb_spec k NDIRECT); [lia|done].
    - rewrite !addr_of_indirect by done. rewrite Hind, H0. destruct (Z.eqb_spec r 0); [done|]. cbn.
      unfold entry, alloc_block. rewrite upd_eq. apply get32_zero. }
  split; [|done]. destruct Hi as [_ H2 H3 H4]. split.
  - cbn. by rewrite length_zupd.
  - intros _. rewrite Hind. by apply alloc_new_block.
  - intros k Hk. rewrite Hsame, Hind. intros Hnz. destruct (H3 k Hk Hnz) as [Hd _].
    split; [by apply alloc_data_block|by eapply data_block_neq].
  - intros k k' Hk Hk'. rewrite !Hsame. by apply H4.
Qed.

(** The contents of the indirect block [a] after [a[bn] = r]. *)
Definition set_entry (bn r : Z) (a : block) : block := put32 a (Z.to_nat (4 * bn)) r.

Lemma entry_off k : 0 <= k < NINDIRECT -> (Z.to_nat (4 * k) + 4 <= Z.to_nat BSIZE)%nat.
Proof. unfold NINDIRECT, BSIZE. intros Hk. change (1024 / 4) with 256 in Hk. lia. Qed.

Lemma get_set_entry a bn r k :
  length a = Z.to_nat BSIZE -> 0 <= bn < NINDIRECT -> 0 <= k < NINDIRECT -> is_u32 r ->
  get32 (set_entry bn r a) (Z.to_nat (4 * k)) = if k =? bn then r else get32 a (Z.to_nat (4 * k)).
Proof.
  intros Hl Hbn Hk Hr. pose proof (entry_off bn Hbn). unfold set_entry. destruct (Z.eqb_spec k bn) as [->|Hne].
  - rewrite getn_putn_eq by lia. apply Z.mod_small. done.
  - apply getn_putn_ne; lia.
Qed.

Definition entry_blocks (v : blocks) (i : inode) (bn r : Z) : blocks :=
  upd (alloc_block sb v r) (ind i) (set_entry bn r (v (ind i))).

Lemma v_ok_data v n d :
  v_ok sb v -> data_start sb <= n < sb_size sb -> length d = Z.to_nat BSIZE -> byte_list d -> v_ok sb (upd v n d).
Proof.
  intros [H1 H2 H3] Hn Hd Hb. pose proof (so_data _ Hsb). split.
  - intros m. unfold upd. by destruct (m =? n).
  - intros m. unfold upd. by destruct (m =? n).
  - intros b Hlt. rewrite (used_ext sb v); [by apply H3|]. apply upd_ne.
    destruct (BBLOCK_ok sb Hsb b) as (_ & _ & ?); lia.
Qed.

Lemma used_data v n d b :
  data_start sb <= n < sb_size sb -> 0 <= b < sb_size sb -> used sb (upd v n d) b = used sb v b.
Proof.
  intros Hn Hb. apply used_ext, upd_ne. destruct (BBLOCK_ok sb Hsb b Hb) as (_ & _ & ?). lia.
Qed.

Lemma data_block_upd v n d b :
  data_start sb <= n < sb_size sb -> data_block sb v b -> data_block sb (upd v n d) b.
Proof. intros Hn [Hb Hu]. pose proof data_start_pos. split; [done|]. by rewrite used_data by lia. Qed.

Lemma grow_entry v i bn r :
  v_ok sb v -> inode_ok sb v i -> NDIRECT <= bn < MAXFILE -> ind i <> 0 -> addr_of v i bn = 0 -> fresh sb v r ->
  v_ok sb (entry_blocks v i (bn - NDIRECT) r) /\ inode_ok sb (entry_blocks v i (bn - NDIRECT) r) i /\
  grown sb v (entry_blocks v i (bn - NDIRECT) r) i i bn r.
Proof.
  intros Hv Hi Hbn Hind H0 Hr. destruct (fresh_pos v r Hr) as [Hr0 Hrr]. pose proof (io_ind _ _ _ Hi Hind) as Hdi.
  assert (HM : MAXFILE = NDIRECT + NINDIRECT) by reflexivity. assert (HD : NDIRECT = 12) by reflexivity. pose proof data_start_pos as Hds.
  assert (Hv' : v_ok sb (entry_blocks v i (bn - NDIRECT) r)).
  { apply v_ok_data; [by apply v_ok_alloc; [..|apply Hr]|apply Hdi| |apply putn_bytes, Hv].
    unfold set_entry. rewrite length_putn; [apply Hv|]. rewrite (vo_len _ _ Hv). apply entry_off. lia. }
  assert (Hat : entry_blocks v i (bn - NDIRECT) r (ind i) = set_entry (bn - NDIRECT) r (v (ind i))) by apply upd_eq.
  assert (Hfr : forall n, data_block sb v n -> n <> ind i -> entry_blocks v i (bn - NDIRECT) r n = v n).
  { intros n Hn Hne. unfold entry_blocks. rewrite upd_ne by done. by apply alloc_frame. }
  assert (Ha : forall k, 0 <= k < MAXFILE -> addr_of (entry_blocks v i (bn - NDIRECT) r) i k = if k =? bn then r else addr_of v i k).
  { intros k Hk. destruct (Z.lt_ge_cases k NDIRECT).
    - rewrite !addr_of_direct by done. destruct (Z.eqb_spec k bn); [lia|done].
    - rewrite !addr_of_indirect by done. destruct (Z.eqb_spec (ind i) 0); [done|]. unfold entry. rewrite Hat.
      rewrite get_set_entry by (apply Hv || lia). destruct (Z.eqb_spec k bn), (Z.eqb_spec (k - NDIRECT) (bn - NDIRECT)); lia || done. }
  assert (Hkeep : forall n, data_block sb v n -> data_block sb (entry_blocks v i (bn - NDIRECT) r) n).
  { intros n Hn. apply data_block_upd; [apply Hdi|]. by apply alloc_data_block. }
  assert (Hnew : data_block sb (entry_blocks v i (bn - NDIRECT) r) r).
  { apply data_block_upd; [apply Hdi|]. by apply alloc_new_block. }
  split; [done|]. split.
  - eapply (inode_ok_grow v _ i i bn r); try done; [apply Hi|by rewrite Ha, Z.eqb_refl by lia|].
    intros k Hk Hne. rewrite Ha by done. by destruct (Z.eqb_spec k bn).
  - split; try done.
    + by destruct i.
    + by rewrite Ha, Z.eqb_refl by lia.
    + intros k Hk Hne. rewrite Ha by done. by destruct (Z.eqb_spec k bn).
    + intros _ _. split; [|done]. unfold entry_blocks. rewrite upd_ne; [apply upd_eq|].
      intros E. by apply (data_block_neq v (ind i) r Hdi Hr).
    + intros n Hn Hb. unfold entry_blocks. rewrite upd_ne; [by apply alloc_meta|]. destruct Hdi. lia.
    + intros n Hn Hu. unfold entry_blocks. rewrite used_data by (apply Hdi || done).
      rewrite alloc_used, Hu by done. apply orb_true_r.
Qed.

Definition full (v : blocks) : Prop := forall b, 0 <= b < sb_size sb -> used sb v b = true.

(** The blocks of a transaction that may still allocate the indirect block of [i] and
    change [k] other blocks. *)
Definition nz (a : Z) : gset Z := if a =? 0 then ∅ else {[a]}.
Definition need (i : inode) : nat := if ind i =? 0 then 1%nat else 0%nat.
Definition cost (W : gset Z) (i : inode) (k : nat) : Prop :=
  (size (W ∪ bitmap sb ∪ nz (ind i)) + k + need i <= Z.to_nat MAXOPBLOCKS)%nat.

Lemma nz_0 : nz 0 = ∅.
Proof. done. Qed.
Lemma nz_ne a : a <> 0 -> nz a = {[a]}.
Proof. intros Ha. unfold nz. by destruct (Z.eqb_spec a 0). Qed.

Lemma cost_room W i k : cost W i k -> room sb W (k + need i).
Proof.
  unfold cost, room. intros Hc.
  assert (size (W ∪ bitmap sb) <= size (W ∪ bitmap sb ∪ nz (ind i)))%nat by (apply subseteq_size; set_solver). lia.
Qed.

Lemma size_nz X a : (size (X ∪ nz a) <= size X + 1)%nat.
Proof.
  destruct (Z.eq_dec a 0) as [->|Ha]; [rewrite nz_0, union_empty_r_L; lia|].
  rewrite nz_ne, size_union_alt by done.
  assert (size ({[a]} ∖ X) <= size ({[a]} : gset Z))%nat as Hle by (apply subseteq_size; set_solver).
  rewrite size_singleton in Hle. lia.
Qed.

(** One step of a file operation: the indirect block is allocated or not, and the block
    [r] is changed. *)
Lemma cost_step W W' i i' r k :
  cost W i (S k) -> (ind i <> 0 -> ind i' = ind i) -> W' ⊆ W ∪ bitmap sb ∪ nz (ind i') ∪ nz r -> cost W' i' k.
Proof.
  unfold cost, need. intros Hc Hind Hs.
  assert (size (W' ∪ bitmap sb ∪ nz (ind i')) <= size (W ∪ bitmap sb ∪ nz (ind i') ∪ nz r))%nat as H1 by (apply subseteq_size; set_solver).
  pose proof (size_nz (W ∪ bitmap sb ∪ nz (ind i')) r) as H2. pose proof (size_nz (W ∪ bitmap sb) (ind i')) as H3.
  destruct (Z.eqb_spec (ind i) 0) as [E0|E0].
  - rewrite E0, nz_0, union_empty_r_L in Hc.
    destruct (Z.eqb_spec (ind i') 0) as [E1|E1]; [|lia]. rewrite E1, nz_0, !union_empty_r_L in H1. rewrite E1, nz_0, union_empty_r_L in H2.
    rewrite E1, nz_0, union_empty_r_L. lia.
  - rewrite (Hind E0) in *. destruct (Z.eqb_spec (ind i) 0); [done|]. lia.
Qed.

(** The data block allocated after the indirect block. *)
Lemma grown_after_ind v v' i a bn r :
  v_ok sb v -> inode_ok sb v i -> ind i = 0 -> fresh sb v a ->
  let i1 := with_iaddrs (zupd (i_addrs i) NDIRECT a) i in
  NDIRECT <= bn -> grown sb (alloc_block sb v a) v' i1 i1 bn r -> grown sb v v' i i1 bn r.
Proof.
  intros Hv Hi H0 Ha i1 Hbn [G1 G2 G3 G4 G5 G6 Gm G7 G8 G9].
  destruct (grow_ind v i a Hv Hi H0 Ha) as (Hi1 & Hind1 & Hsame). fold i1 in Hi1, Hind1, Hsame.
  assert (Hz : addr_of v i bn = 0) by (rewrite addr_of_indirect, H0 by done; done).
  split; try done.
  - intros k Hk Hne. rewrite G3, Hsame by done. done.
  - intros _ Hr. destruct G5 as [Hzb [Hr1 Hr2]]; [by rewrite Hsame|done|]. split; [done|]. split; [done|].
    pose proof data_start_pos. rewrite alloc_used in Hr2 by (done || lia). by apply orb_false_iff in Hr2 as [_ ?].
  - intros n Hn _. rewrite G6; [by apply alloc_frame|by apply alloc_data_block|]. rewrite Hind1. by eapply data_block_neq.
  - intros n Hn Hb. rewrite Gm by done. by apply alloc_meta.
  - intros n Hn Hu. apply G7; [done|]. rewrite alloc_used, Hu by done. apply orb_true_r.
  - intros _. right. by rewrite Hind1.
Qed.

Lemma grown_same v i bn : grown sb v v i i bn (addr_of v i bn).
Proof. split; try done; [by destruct i|by left]. Qed.

(** ** [bmap] *)

Section Bmap.
Context {S : Type} {BC : BlockCache S} {BCS : BlockCacheSpec S}.
Context (me dev : Z) (base : blocks) (w : list (Z * block)) (start nlog : Z).
Context (Hdev : is_u32 dev).
Notation tx := (tx me dev base w start nlog).
Notation quiet := (quiet me).

Lemma get_addr_ok {A} (k : Z -> M (fsys S) A) Q th s it v W H ip i j :
  tx s sb it v W H -> it !! ip = Some i -> length (i_addrs i) = Z.to_nat (NDIRECT + 1) -> 0 <= j <= NDIRECT ->
  wp (k (naddr i j)) Q th s -> wp (bind (get_addr ip j) k) Q th s.
Proof.
  intros Ht Hi Hl Hj Hk. unfold get_addr. apply wp_bind. eapply tx_get_inode; [done|done|].
  destruct (znth_is_Some (i_addrs i) j) as [a Ha]; [rewrite Hl; unfold NDIRECT in *; lia|].
  unfold naddr in Hk. rewrite Ha in *. by apply wp_ret.
Qed.

Lemma bmap_addr_ok th s it v W H ip i k :
  quiet th -> tx s sb it v W H -> it !! ip = Some i -> i_dev i = dev -> v_ok sb v -> inode_ok sb v i ->
  held_ok sb v H -> (length H <= 4)%nat -> room sb W 1 -> 0 <= k <= NDIRECT ->
  wp (bmap_addr ip k) (fun r th' s' => same_thread th th' /\
    ((naddr i k <> 0 /\ r = naddr i k /\ tx s' sb it v W H) \/
     (naddr i k = 0 /\ r = 0 /\ tx s' sb it v W H /\ full v) \/
     (naddr i k = 0 /\ fresh sb v r /\
      tx s' sb (<[ip := with_iaddrs (zupd (i_addrs i) k r) i]> it) (alloc_block sb v r) ({[r]} ∪ ({[BBLOCK r sb]} ∪ W)) H))) th s.
Proof.
  intros Hq Ht Hi Hd Hv Hio Hh Hl Hr Hk. unfold bmap_addr. eapply tx_get_inode; [done|done|].
  eapply get_addr_ok; [done|done|apply Hio|done|]. destruct (Z.eqb_spec (naddr i k) 0) as [E|E].
  2:{ apply wp_ret. split; [done|]. by left. }
  rewrite Hd. apply wp_bind. eapply wp_mono; [by apply (balloc_ok me dev base w start nlog sb Hsb Hdev th s it v W H)|].
  intros r th1 s1 [Hth1 [(-> & Ht1 & Hfull)|(Hrr & Hu & Ht1)]].
  - apply wp_ret. split; [done|]. right; left. done.
  - destruct (fresh_pos v r (conj Hrr Hu)) as [Hr0 _]. destruct (Z.eqb_spec r 0); [done|].
    eapply tx_upd_inode; [done|done|]. intros s2 Ht2. apply wp_ret. split; [done|]. right; right. done.
Qed.

(** What [bmap] leaves. *)
Record bmap_post (th : thread) (it : list inode) (v : blocks) (W : gset Z) (H : list (Z * nat)) (ip : nat) (i : inode)
    (bn r : Z) (th' : thread) (s' : fsys S) (i' : inode) (v' : blocks) (W' : gset Z) : Prop := mkBmapPost {
  bp_thread : same_thread th th';
  bp_tx : tx s' sb (<[ip := i']> it) v' W' H;
  bp_v : v_ok sb v';
  bp_inode : inode_ok sb v' i';
  bp_grown : grown sb v v' i i' bn r;
  bp_set : W' ⊆ W ∪ bitmap sb ∪ nz (ind i') ∪ nz r;
  bp_full : r = 0 -> full v';
}.

Lemma bmap_same th it v W H ip i bn th' s' :
  same_thread th th' -> it !! ip = Some i -> tx s' sb it v W H -> v_ok sb v -> inode_ok sb v i ->
  (addr_of v i bn = 0 -> full v) ->
  bmap_post th it v W H ip i bn (addr_of v i bn) th' s' i v W.
Proof.
  intros Hth Hi Ht Hv Hio Hf. split; try done; [by rewrite list_insert_id|apply grown_same|set_solver].
Qed.

(** The part of [bmap] that looks the indirect block up, once it is there. *)
Lemma bmap_entry_ok th s it v W H ip i bn :
  quiet th -> tx s sb it v W H -> it !! ip = Some i -> i_dev i = dev -> v_ok sb v -> inode_ok sb v i ->
  H = [] -> NDIRECT <= bn < MAXFILE -> ind i <> 0 -> (size (W ∪ bitmap sb ∪ {[ind i]}) + 1 <= Z.to_nat MAXOPBLOCKS)%nat ->
  wp (let! bp := bio (bread (i_dev i) (ind i)) in
      let! a := bio (bdata bp) in
      let addr := get32 a (Z.to_nat (4 * (bn - NDIRECT))) in
      let! addr :=
        (if addr =? 0 then
           let! addr := balloc (i_dev i) in
           when (ctrue addr)
             (let! a := bio (bdata bp) in
              bio (set_bdata bp (put32 a (Z.to_nat (4 * (bn - NDIRECT))) addr));;;
              logged (log_write bp));;;
           ret addr
         else ret addr) in
      bio (brelse bp);;;
      ret addr)
    (fun r th' s' => exists v' W', bmap_post th it v W H ip i bn r th' s' i v' W') th s.
Proof.
  intros Hq Ht Hi Hd Hv Hio -> Hbn Hind Hcost. pose proof (io_ind _ _ _ Hio Hind) as [Hdi Hdu].
  pose proof data_start_pos as Hds. pose proof (so_size _ Hsb) as Hsz.
  assert (Haddr : get32 (v (ind i)) (Z.to_nat (4 * (bn - NDIRECT))) = addr_of v i bn).
  { rewrite addr_of_indirect by lia. by destruct (Z.eqb_spec (ind i) 0). }
  rewrite Hd. eapply tx_bread; [done|done|lia|apply not_elem_of_nil|cbn; lia|]. intros bp th1 s1 Hth1 Ht1.
  eapply tx_bdata; [done|in_list|]. cbv zeta. rewrite Haddr. destruct (Z.eqb_spec (addr_of v i bn) 0) as [E|E].
  2:{ apply wp_bind, wp_ret. eapply tx_brelse; [quiet_tac|done|]. intros th2 s2 Hth2 Ht2. apply wp_ret.
      exists v, W. apply bmap_same; try done. keep_thread. }
  apply wp_bind, wp_bind. eapply wp_mono.
  { apply (balloc_ok me dev base w start nlog sb Hsb Hdev th1 s1 it v W [(ind i, bp)]); try done; [quiet_tac| |cbn; lia|].
    - intros n ->%list_elem_of_singleton. done.
    - unfold room. assert (size (W ∪ bitmap sb) <= size (W ∪ bitmap sb ∪ {[ind i]}))%nat by (apply subseteq_size; set_solver). lia. }
  intros r th2 s2 [Hth2 [(-> & Ht2 & Hfull)|(Hrr & Hu & Ht2)]].
  - cbn [ctrue Z.eqb negb when]. apply wp_bind, wp_ret, wp_ret.
    eapply tx_brelse; [quiet_tac|done|]. intros th3 s3 Hth3 Ht3. apply wp_ret. exists v, W.
    rewrite <- E. apply bmap_same; try done. keep_thread.
  - assert (Hfr : fresh sb v r) by done. destruct (fresh_pos v r Hfr) as [Hr0 _].
    unfold ctrue. destruct (Z.eqb_spec r 0); [done|]. cbn [negb when]. apply wp_bind.
    eapply tx_bdata; [done|in_list|]. rewrite (alloc_frame v (ind i) r Hfr) by done.
    eapply wp_mono.
    { eapply (tx_write_last me dev base w start nlog); [quiet_tac|done|in_list|lia| |].
      - rewrite length_putn; [apply Hv|]. rewrite (vo_len _ _ Hv). apply entry_off. change MAXFILE with (NDIRECT + NINDIRECT) in Hbn. lia.
      - destruct (BBLOCK_ok sb Hsb r) as (_ & Hbm & _); [lia|]. unfold fits.
        pose proof (size_nz (W ∪ bitmap sb ∪ {[ind i]}) r) as Hsz'. rewrite nz_ne in Hsz' by done.
        etransitivity; [apply (subseteq_size _ (W ∪ bitmap sb ∪ {[ind i]} ∪ {[r]}))|lia]. set_solver. }
    intros [] th3 s3 [Hth3 Ht3]. apply wp_ret. eapply tx_brelse; [quiet_tac|done|]. intros th4 s4 Hth4 Ht4. apply wp_ret.
    destruct (grow_entry v i bn r Hv Hio Hbn Hind E Hfr) as (Hv' & Hio' & Hg).
    eexists (entry_blocks v i (bn - NDIRECT) r), _. split; [keep_thread|by rewrite list_insert_id|done|done|done| |done].
    destruct (BBLOCK_ok sb Hsb r) as (_ & Hbm & _); [lia|]. rewrite !nz_ne by done. set_solver.
Qed.

Lemma bmap_ok th s it v W ip i bn :
  quiet th -> tx s sb it v W [] -> it !! ip = Some i -> i_dev i = dev -> v_ok sb v -> inode_ok sb v i ->
  cost W i 1 -> 0 <= bn < MAXFILE ->
  wp (bmap ip bn) (fun r th' s' => exists i' v' W', bmap_post th it v W [] ip i bn r th' s' i' v' W') th s.
Proof.
  intros Hq Ht Hi Hd Hv Hio Hc Hbn. unfold bmap. assert (HD : NDIRECT = 12) by reflexivity.
  assert (HM : MAXFILE = NDIRECT + NINDIRECT) by reflexivity. assert (HN : NINDIRECT = 256) by reflexivity.
  pose proof (cost_room W i 1 Hc) as Hroom.
  assert (Hr1 : room sb W 1) by (unfold room in *; lia).
  assert (Hh : held_ok sb v []) by (intros n ?%not_elem_of_nil; done).
  destruct (Z.ltb_spec bn NDIRECT) as [Hdir|Hdir].
  - eapply wp_mono; [apply (bmap_addr_ok th s it v W [] ip i bn); try done; cbn; lia|].
    rewrite <- (addr_of_direct v i bn) by done.
    intros r th1 s1 [Hth1 [(Hn & -> & Ht1)|[(Hn & -> & Ht1 & Hf)|(Hn & Hfr & Ht1)]]].
    + exists i, v, W. by apply bmap_same.
    + exists i, v, W. rewrite <- Hn at 1. by apply bmap_same.
    + rewrite addr_of_direct in Hn by done. destruct (fresh_pos v r Hfr) as [Hr0 _].
      destruct (grow_direct v i bn r Hv Hio ltac:(lia) Hn Hfr) as (Hio' & Hg).
      eexists _, _, _. split; [done|exact Ht1|by apply v_ok_alloc; [..|apply Hfr]|done|done| |done].
      destruct (BBLOCK_ok sb Hsb r) as (_ & Hbm & _); [pose proof data_start_pos; destruct Hfr; lia|].
      rewrite (nz_ne r) by done. set_solver.
  - rewrite u32_id by lia. destruct (Z.ltb_spec (bn - NDIRECT) NINDIRECT); [|lia].
    apply wp_bind. eapply wp_mono; [apply (bmap_addr_ok th s it v W [] ip i NDIRECT); try done; cbn; lia|].
    fold (ind i). intros r th1 s1 [Hth1 [(Hn & -> & Ht1)|[(Hn & -> & Ht1 & Hf)|(Hn & Hfr & Ht1)]]].
    + destruct (Z.eqb_spec (ind i) 0); [done|]. eapply tx_get_inode; [done|done|].
      eapply wp_mono; [apply (bmap_entry_ok th1 s1 it v W [] ip i bn); try done; [quiet_tac|lia|]|].
      { unfold cost, need in Hc. rewrite nz_ne in Hc by done. destruct (Z.eqb_spec (ind i) 0); [done|]. lia. }
      intros r th2 s2 (v' & W' & [? ? ? ? ? ? ?]). exists i, v', W'. split; try done. keep_thread.
    + cbn [Z.eqb]. apply wp_ret. exists i, v, W.
      assert (E : addr_of v i bn = 0) by (rewrite addr_of_indirect, Hn by lia; done).
      rewrite <- E at 1. by apply bmap_same.
    + destruct (fresh_pos v r Hfr) as [Hr0 _]. destruct (Z.eqb_spec r 0); [done|].
      destruct (grow_ind v i r Hv Hio Hn Hfr) as (Hio1 & Hind1 & Hsame).
      set (i1 := with_iaddrs (zupd (i_addrs i) NDIRECT r) i) in *.
      assert (Hi1 : <[ip := i1]> it !! ip = Some i1) by (by eapply lookup_insert_Some_eq).
      eapply tx_get_inode; [done|done|]. rewrite <- Hind1 at 1. eapply wp_mono.
      { eapply (bmap_entry_ok th1 s1 _ (alloc_block sb v r) _ [] ip i1 bn); try done;
          [quiet_tac|by apply v_ok_alloc; [..|apply Hfr]|lia|by rewrite Hind1|].
        rewrite Hind1. destruct (BBLOCK_ok sb Hsb r) as (_ & Hbm & _); [pose proof data_start_pos; destruct Hfr; lia|].
        pose proof (size_nz (W ∪ bitmap sb) r) as Hsz. rewrite nz_ne in Hsz by done.
        assert (size ({[r]} ∪ ({[BBLOCK r sb]} ∪ W) ∪ bitmap sb ∪ {[r]}) <= size (W ∪ bitmap sb ∪ {[r]}))%nat by (apply subseteq_size; set_solver).
        unfold room, need in Hroom. rewrite Hn in Hroom. cbn [Z.eqb] in Hroom. lia. }
      intros a th2 s2 (v' & W' & [P1 P2 P3 P4 P5 P6 P7]). exists i1, v', W'. rewrite list_insert_insert_eq in P2.
      split; try done; [keep_thread|by apply (grown_after_ind v v' i r bn a)|].
      rewrite Hind1 in *. destruct (BBLOCK_ok sb Hsb r) as (_ & Hbm & _); [pose proof data_start_pos; destruct Hfr; lia|].
      rewrite (nz_ne r) in * by done. set_solver.
Qed.

(** A block that is there is found without any change. *)
Lemma bmap_found th s it v W ip i bn :
  quiet th -> tx s sb it v W [] -> it !! ip = Some i -> i_dev i = dev -> inode_ok sb v i ->
  0 <= bn < MAXFILE -> addr_of v i bn <> 0 ->
  wp (bmap ip bn) (fun r th' s' => same_thread th th' /\ r = addr_of v i bn /\ tx s' sb it v W []) th s.
Proof.
  intros Hq Ht Hi Hd Hio Hbn Ha. unfold bmap. assert (HD : NDIRECT = 12) by reflexivity.
  assert (HM : MAXFILE = NDIRECT + NINDIRECT) by reflexivity. assert (HN : NINDIRECT = 256) by reflexivity.
  assert (Hfound : forall k, 0 <= k <= NDIRECT -> naddr i k <> 0 -> bmap_addr ip k th s = Ok (naddr i k) th s).
  { intros k Hk Hn. assert (wp (bmap_addr ip k) (fun r th' s' => (r, th', s') = (naddr i k, th, s)) th s) as Hwp.
    { unfold bmap_addr. eapply tx_get_inode; [done|done|]. eapply get_addr_ok; [done|done|apply Hio|done|].
      destruct (Z.eqb_spec (naddr i k) 0); [done|]. by apply wp_ret. }
    apply wp_ok in Hwp as (r & th' & s' & E & [= -> -> ->]). done. }
  destruct (Z.ltb_spec bn NDIRECT) as [Hdir|Hdir].
  - rewrite addr_of_direct in * by done. eapply wp_eq; [apply Hfound; [lia|done]|done].
  - rewrite addr_of_indirect in * by done. destruct (Z.eqb_spec (ind i) 0) as [E|E]; [done|].
    rewrite u32_id by lia. destruct (Z.ltb_spec (bn - NDIRECT) NINDIRECT); [|lia].
    apply wp_bind. eapply wp_eq; [apply Hfound; [lia|done]|]. fold (ind i). destruct (Z.eqb_spec (ind i) 0); [done|].
    eapply tx_get_inode; [done|done|]. rewrite Hd. pose proof (io_ind _ _ _ Hio E) as [Hdi _].
    pose proof data_start_pos. pose proof (so_size _ Hsb).
    eapply tx_bread; [done|done|lia|apply not_elem_of_nil|cbn; lia|]. intros bp th1 s1 Hth1 Ht1.
    eapply tx_bdata; [done|in_list|]. fold (entry v (ind i) (bn - NDIRECT)).
    destruct (Z.eqb_spec (entry v (ind i) (bn - NDIRECT)) 0); [done|]. apply wp_bind, wp_ret.
    eapply tx_brelse; [quiet_tac|done|]. intros th2 s2 Hth2 Ht2. apply wp_ret. split; [keep_thread|done].
Qed.

End Bmap.
End InodeSpec.
