(* ===== verification/FileSpec.v ===== *)
(** * The content of a file

    [readi] and [writei] against the contract a file has: an array of bytes.  [readi]
    delivers the bytes of the file, [writei] replaces a range of them, extends the file
    where the range ends beyond it, and changes no other file.  The copies to and from
    the process are any that keep the contracts [sink] and [source]. *)

From S2P Require Import Prelude Layout Memory Bytes Sleeplock BlockCache Bio BioSpec Log FsState Txn Balloc BallocSpec Inode InodeSpec.

(** Byte [o] of the file; a part without a block reads as zero. *)
Definition fbyte (v : blocks) (i : inode) (o : Z) : Z :=
  let a := addr_of v i (o / BSIZE) in
  if a =? 0 then 0 else nth (Z.to_nat (o mod BSIZE)) (v a) 0.
Definition fbytes (v : blocks) (i : inode) (off n : Z) : list Z := (fun j => fbyte v i (off + j)) <$> seqZ 0 n.

(** The bytes from [lo] to [hi] have blocks. *)
Definition mapped (v : blocks) (i : inode) (lo hi : Z) : Prop :=
  forall o, lo <= o < hi -> addr_of v i (o / BSIZE) <> 0.
(** Every byte below the file's size has a block. *)
Definition no_holes (v : blocks) (i : inode) : Prop := mapped v i 0 (i_size i).

(** The blocks of the file. *)
Definition owns (v : blocks) (i : inode) (n : Z) : Prop :=
  n = ind i \/ exists k, 0 <= k < MAXFILE /\ addr_of v i k = n.

(** The states in which the bytes [bs] are at [src], of which the first [avail] can be read: a
    copy that would go further fails, and fails before it has stored a byte.  And the states
    in which some bytes have been delivered at [dst]. *)
Record source {K} `{FsEnv K} (R : K -> Prop) (user_src src : Z) (bs : list Z) (avail : nat) : Prop := mkSource {
  src_copy : forall (o : nat) old th k, R k -> (o + length old <= length bs)%nat -> (o + length old <= avail)%nat ->
    exists k', env_copyin user_src (u64 (src + Z.of_nat o)) old th k =
      Ok (0, take (length old) (drop o bs)) th k' /\ R k';
  src_fail : forall (o : nat) old th k, R k -> (o + length old <= length bs)%nat -> (avail < o + length old)%nat ->
    exists k', env_copyin user_src (u64 (src + Z.of_nat o)) old th k = Ok (-1, old) th k' /\ R k';
}.
Record sink {K} `{FsEnv K} (R : list Z -> K -> Prop) (user_dst dst n : Z) : Prop := mkSink {
  snk_copy : forall out bs th k, R out k -> Z.of_nat (length out + length bs) <= n ->
    exists k', env_copyout user_dst (u64 (dst + Z.of_nat (length out))) bs th k = Ok 0 th k' /\ R (out ++ bs) k';
}.

(** ** Bytes of a file *)

Lemma div_block o m : 0 <= o -> 0 <= m -> o mod BSIZE + m < BSIZE -> (o + m) / BSIZE = o / BSIZE /\ (o + m) mod BSIZE = o mod BSIZE + m.
Proof. unfold BSIZE. intros. split; Z.div_mod_to_equations; lia. Qed.

Lemma next_block off m : 0 <= off -> m = BSIZE - off mod BSIZE -> (off + m) / BSIZE = off / BSIZE + 1.
Proof. unfold BSIZE. intros ? ->. Z.div_mod_to_equations. lia. Qed.

Lemma length_fbytes v i off n : 0 <= n -> length (fbytes v i off n) = Z.to_nat n.
Proof. intros. unfold fbytes. by rewrite length_fmap, length_seqZ. Qed.

Lemma fbytes_app v i off a b : 0 <= a -> 0 <= b -> fbytes v i off (a + b) = fbytes v i off a ++ fbytes v i (off + a) b.
Proof.
  intros Ha Hb. unfold fbytes. rewrite seqZ_app, fmap_app by done. f_equal. rewrite Z.add_0_l.
  assert (seqZ a b = Z.add a <$> seqZ 0 b) as -> by (rewrite fmap_add_seqZ; f_equal; lia).
  rewrite <- list_fmap_compose. apply list_fmap_ext.
  intros _ j _. cbn. f_equal. lia.
Qed.

Lemma fbytes_lookup v i off n j : (j < Z.to_nat n)%nat -> fbytes v i off n !! j = Some (fbyte v i (off + Z.of_nat j)).
Proof.
  intros Hj. unfold fbytes. rewrite list_lookup_fmap, lookup_seqZ_lt by lia. cbn. by rewrite Z.add_0_l.
Qed.

(** A part of the file that lies in one block. *)
Lemma fbytes_chunk v i off m :
  0 <= off -> 0 <= m -> off mod BSIZE + m <= BSIZE -> addr_of v i (off / BSIZE) <> 0 ->
  length (v (addr_of v i (off / BSIZE))) = Z.to_nat BSIZE ->
  fbytes v i off m = take (Z.to_nat m) (drop (Z.to_nat (off mod BSIZE)) (v (addr_of v i (off / BSIZE)))).
Proof.
  intros Hoff Hm Hle Ha Hl. pose proof (Z.mod_pos_bound off BSIZE ltac:(done)) as Hmod. apply list_eq. intros j.
  destruct (decide (j < Z.to_nat m)%nat) as [Hj|Hj].
  - rewrite fbytes_lookup by done. rewrite lookup_take_lt, lookup_drop by done. unfold fbyte.
    destruct (div_block off (Z.of_nat j)) as [-> ->]; [lia..|]. destruct (Z.eqb_spec (addr_of v i (off / BSIZE)) 0); [done|].
    replace (Z.to_nat (off mod BSIZE + Z.of_nat j)) with (Z.to_nat (off mod BSIZE) + j)%nat by lia.
    rewrite nth_lookup. destruct (lookup_lt_is_Some_2 (v (addr_of v i (off / BSIZE))) (Z.to_nat (off mod BSIZE) + j)) as [x ->]; [|done].
    rewrite Hl. lia.
  - rewrite !lookup_ge_None_2; [done|rewrite length_take; lia|rewrite length_fbytes; lia].
Qed.

Lemma nth_zero_block j : nth j zero_block 0 = 0.
Proof.
  unfold zero_block. generalize (Z.to_nat BSIZE). intros n. revert j. induction n as [|n IH]; intros [|j]; cbn; auto.
Qed.

Section FileSpec.
Context (sb : superblock) (Hsb : sb_ok sb).

Lemma block_range o : 0 <= o < MAXFILE * BSIZE -> 0 <= o / BSIZE < MAXFILE.
Proof. intros Ho. split; [apply Z.div_pos; [lia|done]|]. apply Z.div_lt_upper_bound; [done|]. lia. Qed.

(** Finding or allocating a block does not change the content. *)
Lemma grown_fbyte v v' i i' bn r o :
  inode_ok sb v i -> grown sb v v' i i' bn r -> 0 <= o < MAXFILE * BSIZE -> fbyte v' i' o = fbyte v i o.
Proof.
  intros Hi Hg Ho. pose proof (block_range o Ho) as Hk. unfold fbyte.
  destruct (Z.eq_dec (addr_of v i (o / BSIZE)) 0) as [E|E].
  - rewrite E, Z.eqb_refl. destruct (Z.eq_dec (o / BSIZE) bn) as [Eb|Eb].
    + subst bn. rewrite (gr_addr _ _ _ _ _ _ _ Hg). destruct (Z.eqb_spec r 0); [done|].
      destruct (gr_new _ _ _ _ _ _ _ Hg E n) as [-> _]. apply nth_zero_block.
    + by rewrite (gr_same _ _ _ _ _ _ _ Hg), E by done.
  - assert (addr_of v' i' (o / BSIZE) = addr_of v i (o / BSIZE)) as ->.
    { destruct (Z.eq_dec (o / BSIZE) bn) as [Eb|Eb].
      - subst bn. rewrite (gr_addr _ _ _ _ _ _ _ Hg). by apply (gr_old _ _ _ _ _ _ _ Hg).
      - by apply (gr_same _ _ _ _ _ _ _ Hg). }
    destruct (io_data _ _ _ Hi _ Hk E) as [Hd Hne]. by rewrite (gr_frame _ _ _ _ _ _ _ Hg).
Qed.

Lemma grown_owns v v' i i' bn r n :
  grown sb v v' i i' bn r -> data_block sb v n -> owns v' i' n -> owns v i n.
Proof.
  intros Hg Hd [->|(k & Hk & <-)].
  - destruct (Z.eq_dec (ind i) 0) as [E|E].
    + destruct (gr_ind0 _ _ _ _ _ _ _ Hg E) as [E'|Hf]; [left; congruence|]. by destruct (data_block_neq sb v _ _ Hd Hf).
    + left. by apply (gr_ind _ _ _ _ _ _ _ Hg).
  - right. exists k. split; [done|]. destruct (Z.eq_dec k bn) as [->|Hne].
    + rewrite (gr_addr _ _ _ _ _ _ _ Hg) in *. destruct (Z.eq_dec (addr_of v i bn) 0) as [E|E].
      * destruct (Z.eq_dec r 0) as [->|Hr]; [done|]. destruct (gr_new _ _ _ _ _ _ _ Hg E Hr) as [_ Hf].
        by destruct (data_block_neq sb v _ _ Hd Hf).
      * symmetry. by apply (gr_old _ _ _ _ _ _ _ Hg).
    + symmetry. by apply (gr_same _ _ _ _ _ _ _ Hg).
Qed.

(** Writing [d] into the block of the file at [off]. *)
Definition poke (v : blocks) (i : inode) (off : Z) (d : list Z) : blocks :=
  let a := addr_of v i (off / BSIZE) in upd v a (splice (v a) (Z.to_nat (off mod BSIZE)) d).

Lemma length_splice b off d : (off + length d <= length b)%nat -> length (splice b off d) = length b.
Proof. intros Hl. unfold splice. rewrite !length_app, length_take, length_drop. lia. Qed.

Lemma splice_bytes b off d : byte_list b -> byte_list d -> byte_list (splice b off d).
Proof. intros Hb Hd. apply Forall_app. split; [by apply Forall_take|]. apply Forall_app. split; [done|by apply Forall_drop]. Qed.

Lemma nth_splice b off d j : (off + length d <= length b)%nat ->
  nth j (splice b off d) 0 = if decide (off <= j < off + length d)%nat then nth (j - off) d 0 else nth j b 0.
Proof.
  intros Hl. rewrite !nth_lookup. unfold splice. case_decide as Hj.
  - rewrite lookup_app_r by (rewrite length_take; lia). rewrite length_take, Nat.min_l by lia.
    by rewrite lookup_app_l by lia.
  - destruct (decide (j < off)%nat).
    + rewrite lookup_app_l by (rewrite length_take; lia). by rewrite lookup_take_lt.
    + rewrite lookup_app_r by (rewrite length_take; lia). rewrite length_take, Nat.min_l by lia.
      rewrite lookup_app_r by lia. rewrite lookup_drop. do 2 f_equal. lia.
Qed.

Lemma poke_addr v i off d k :
  inode_ok sb v i -> 0 <= off / BSIZE < MAXFILE -> addr_of v i (off / BSIZE) <> 0 ->
  addr_of (poke v i off d) i k = addr_of v i k.
Proof.
  intros Hi Hb Ha. apply addr_of_frame. intros Hind. unfold poke. apply upd_ne.
  destruct (io_data _ _ _ Hi _ Hb Ha) as [_ Hne]. done.
Qed.

Lemma poke_ok v i off d :
  v_ok sb v -> inode_ok sb v i -> 0 <= off / BSIZE < MAXFILE -> addr_of v i (off / BSIZE) <> 0 ->
  byte_list d -> off mod BSIZE + Z.of_nat (length d) <= BSIZE ->
  v_ok sb (poke v i off d) /\ inode_ok sb (poke v i off d) i /\
  forall n, 0 <= n < sb_size sb -> used sb (poke v i off d) n = used sb v n.
Proof.
  intros Hv Hi Hb Ha Hd Hle. destruct (io_data _ _ _ Hi _ Hb Ha) as [[Hr Hu] Hne].
  pose proof (Z.mod_pos_bound off BSIZE ltac:(done)) as Hmod.
  assert (Hused : forall n, 0 <= n < sb_size sb -> used sb (poke v i off d) n = used sb v n)
    by (intros n Hn; by apply used_data).
  split; [|split; [|done]].
  - apply v_ok_data; try done; [|apply splice_bytes; [apply Hv|done]].
    rewrite length_splice; [apply Hv|]. rewrite (vo_len _ _ Hv). lia.
  - pose proof (data_start_pos sb Hsb).
    assert (Hdb : forall n, data_block sb v n -> data_block sb (poke v i off d) n).
    { intros n [Hn Hun]. split; [done|]. by rewrite Hused by lia. }
    destruct Hi as [H1 H2 H3 H4]. split; [done|..].
    + intros Hind. by apply Hdb, H2.
    + intros k Hk. rewrite poke_addr by done. intros Hnz. destruct (H3 k Hk Hnz). split; [by apply Hdb|done].
    + intros k k' Hk Hk'. rewrite !poke_addr by done. by apply H4.
Qed.

Lemma poke_fbyte v i off d o :
  v_ok sb v -> inode_ok sb v i -> 0 <= off < MAXFILE * BSIZE -> addr_of v i (off / BSIZE) <> 0 ->
  off mod BSIZE + Z.of_nat (length d) <= BSIZE -> 0 <= o < MAXFILE * BSIZE ->
  fbyte (poke v i off d) i o =
    if decide (off <= o < off + Z.of_nat (length d)) then nth (Z.to_nat (o - off)) d 0 else fbyte v i o.
Proof.
  intros Hv Hi Hoff Ha Hle Ho. pose proof (block_range off Hoff) as Hb. pose proof (block_range o Ho) as Hb'.
  pose proof (Z.mod_pos_bound off BSIZE ltac:(done)) as Hmod. pose proof (Z.mod_pos_bound o BSIZE ltac:(done)) as Hmod'.
  assert (HB : BSIZE = 1024) by reflexivity.
  assert (Ho' : o = BSIZE * (o / BSIZE) + o mod BSIZE) by (by apply Z.div_mod).
  assert (Hoff' : off = BSIZE * (off / BSIZE) + off mod BSIZE) by (by apply Z.div_mod).
  unfold fbyte. rewrite poke_addr by done. destruct (Z.eq_dec (o / BSIZE) (off / BSIZE)) as [E|E].
  - rewrite E. destruct (Z.eqb_spec (addr_of v i (off / BSIZE)) 0); [done|].
    unfold poke. rewrite upd_eq, nth_splice by (rewrite (vo_len _ _ Hv); lia).
    rewrite E in Ho'. repeat case_decide; try lia. f_equal. lia.
  - rewrite decide_False; [|nia]. destruct (Z.eqb_spec (addr_of v i (o / BSIZE)) 0); [done|].
    unfold poke. rewrite upd_ne; [done|]. intros E'. apply E. by apply (io_inj _ _ _ Hi).
Qed.

Lemma poke_frame v i off d n : n <> addr_of v i (off / BSIZE) -> poke v i off d n = v n.
Proof. intros Hn. by apply upd_ne. Qed.

(** ** A range of the file replaced *)

Record wrote (v v' : blocks) (i i' : inode) (off0 tot : Z) (bs : list Z) : Prop := mkWrote {
  wr_inode : i' = with_iaddrs (i_addrs i') i;
  wr_bytes : forall o, 0 <= o < MAXFILE * BSIZE ->
    fbyte v' i' o = if decide (off0 <= o < off0 + tot) then nth (Z.to_nat (o - off0)) bs 0 else fbyte v i o;
  wr_other : forall n, data_block sb v n -> ~ owns v i n -> v' n = v n /\ ~ owns v' i' n;
  wr_meta : forall n, n < data_start sb -> n ∉ bitmap sb -> v' n = v n;
  wr_used : forall n, 0 <= n < sb_size sb -> used sb v n = true -> used sb v' n = true;
  wr_blocks : forall o, 0 <= o < MAXFILE * BSIZE -> addr_of v i (o / BSIZE) <> 0 \/ off0 <= o < off0 + tot ->
    addr_of v' i' (o / BSIZE) <> 0;
}.

Lemma wrote_refl v i off0 bs : wrote v v i i off0 0 bs.
Proof.
  split; try done; [by destruct i| |].
  - intros o Ho. rewrite decide_False by lia. done.
  - intros o Ho [?|?]; [done|lia].
Qed.

Lemma used_data_block v v' n :
  (forall n, 0 <= n < sb_size sb -> used sb v n = true -> used sb v' n = true) -> data_block sb v n -> data_block sb v' n.
Proof. intros H [Hn Hu]. pose proof (data_start_pos sb Hsb). split; [done|]. apply H; [lia|done]. Qed.

Lemma wrote_grown v v1 v2 i i1 i2 off0 tot bs bn r :
  wrote v v1 i i1 off0 tot bs -> inode_ok sb v1 i1 -> grown sb v1 v2 i1 i2 bn r -> wrote v v2 i i2 off0 tot bs.
Proof.
  intros [H1 H2 H3 Hm H4 H5] Hi Hg. split.
  - rewrite (gr_inode _ _ _ _ _ _ _ Hg), H1. done.
  - intros o Ho. rewrite (grown_fbyte v1 v2 i1 i2 bn r) by done. by apply H2.
  - intros n Hd Hn. destruct (H3 n Hd Hn) as [E1 Hn1]. pose proof (used_data_block v v1 n H4 Hd) as Hd1.
    split; [|intros Ho; by apply Hn1, (grown_owns v1 v2 i1 i2 bn r)].
    rewrite (gr_frame _ _ _ _ _ _ _ Hg); [done|done|]. intros ->. apply Hn1. by left.
  - intros n Hn Hb. rewrite (gr_meta _ _ _ _ _ _ _ Hg) by done. by apply Hm.
  - intros n Hn Hu. apply (gr_used _ _ _ _ _ _ _ Hg); [done|]. by apply H4.
  - intros o Ho Hor. pose proof (H5 o Ho Hor) as Hnz. destruct (Z.eq_dec (o / BSIZE) bn) as [E|E].
    + rewrite E in *. rewrite (gr_addr _ _ _ _ _ _ _ Hg). by rewrite (gr_old _ _ _ _ _ _ _ Hg).
    + rewrite (gr_same _ _ _ _ _ _ _ Hg); [done|by apply block_range|done].
Qed.

Lemma nth_take_drop (bs : list Z) (t m j : nat) : (j < m)%nat -> nth j (take m (drop t bs)) 0 = nth (t + j) bs 0.
Proof. intros Hj. rewrite !nth_lookup, lookup_take_lt, lookup_drop by done. done. Qed.

Lemma wrote_poke v v1 i i1 off0 tot m bs :
  wrote v v1 i i1 off0 tot bs -> v_ok sb v1 -> inode_ok sb v1 i1 -> 0 <= off0 -> 0 <= tot -> 0 <= m ->
  off0 + tot < MAXFILE * BSIZE -> addr_of v1 i1 ((off0 + tot) / BSIZE) <> 0 -> (off0 + tot) mod BSIZE + m <= BSIZE ->
  tot + m <= Z.of_nat (length bs) ->
  wrote v (poke v1 i1 (off0 + tot) (take (Z.to_nat m) (drop (Z.to_nat tot) bs))) i i1 off0 (tot + m) bs.
Proof.
  intros [H1 H2 H3 Hm H4 H5] Hv Hi Hoff Htot Hm0 Hlt Ha Hle Hbs.
  set (d := take _ (drop _ bs)). assert (Hd : length d = Z.to_nat m) by (unfold d; rewrite length_take, length_drop; lia).
  pose proof (block_range (off0 + tot) ltac:(lia)) as Hbn. destruct (io_data _ _ _ Hi _ Hbn Ha) as [Hdb Hne].
  split; try done.
  - intros o Ho. rewrite poke_fbyte by (done || lia). rewrite Hd, Z2Nat.id by done. rewrite H2 by done.
    repeat case_decide; try lia. unfold d. rewrite nth_take_drop by lia. f_equal. lia.
  - intros n Hdn Hn. destruct (H3 n Hdn Hn) as [E1 Hn1]. split.
    + rewrite poke_frame; [done|]. intros ->. apply Hn1. right. eauto.
    + intros [->|(k & Hk & E)]; apply Hn1; [by left|right]. exists k. by rewrite poke_addr in E.
  - intros n Hn Hb. rewrite poke_frame; [by apply Hm|]. destruct Hdb. lia.
  - intros n Hn Hu. unfold poke. rewrite used_data by (done || apply Hdb). by apply H4.
  - intros o Ho Hor. rewrite poke_addr by done.
    destruct (decide (addr_of v i (o / BSIZE) <> 0 \/ off0 <= o < off0 + tot)) as [Hc|Hc]; [by apply H5|].
    assert (Hin : off0 + tot <= o < off0 + tot + m) by (destruct Hor; [tauto|lia]).
    pose proof (Z.mod_pos_bound (off0 + tot) BSIZE ltac:(done)).
    destruct (div_block (off0 + tot) (o - (off0 + tot))) as [E _]; [lia..|].
    replace (off0 + tot + (o - (off0 + tot))) with o in E by lia. by rewrite E.
Qed.

(** ** The inode on the disk *)

(** Lengths of blocks with fields stored. *)
Ltac plen := first [lia | rewrite length_putn; plen].

Lemma put_addrs_ok l d off : byte_list d -> (off + 4 * length l <= length d)%nat ->
  length (put_addrs l d off) = length d /\ byte_list (put_addrs l d off).
Proof.
  revert d off. induction l as [|a l IH]; intros d off Hd Hl; cbn [put_addrs length] in *; [done|].
  destruct (IH (put32 d off a) (off + 4)%nat) as [E1 E2]; [by apply putn_bytes|plen|].
  split; [rewrite E1; plen|done].
Qed.

Lemma put_addrs_below n l d off o : (off + 4 * length l <= length d)%nat -> (o + n <= off)%nat ->
  getn n (put_addrs l d off) o = getn n d o.
Proof.
  revert d off. induction l as [|a l IH]; intros d off Hl Ho; cbn [put_addrs length] in *; [done|].
  rewrite IH by plen. apply getn_putn_ne; lia.
Qed.

Lemma get_put_addrs l d off : (off + 4 * length l <= length d)%nat -> Forall (fun a => is_u32 a) l ->
  get_addrs (length l) (put_addrs l d off) off = l.
Proof.
  revert d off. induction l as [|a l IH]; intros d off Hl Hu; cbn [put_addrs get_addrs length] in *; [done|].
  apply Forall_cons in Hu as [Ha Hu]. f_equal.
  - rewrite put_addrs_below by plen. rewrite getn_putn_eq by lia. by apply Z.mod_small.
  - apply IH; [plen|done].
Qed.

(** The fields that live on the disk are in the ranges of their C types. *)
Record dinode_typed (i : inode) : Prop := mkDinodeTyped {
  dt_type : is_i16 (i_type i);
  dt_major : is_i16 (i_major i);
  dt_minor : is_i16 (i_minor i);
  dt_nlink : is_i16 (i_nlink i);
  dt_size : is_u32 (i_size i);
  dt_addrs : Forall (fun a => is_u32 a) (i_addrs i);
  dt_len : length (i_addrs i) = Z.to_nat (NDIRECT + 1);
}.

Lemma dinode_off_ok inum : 0 <= inum -> (dinode_off inum + 64 <= Z.to_nat BSIZE)%nat.
Proof.
  intros Hn. unfold dinode_off. change IPB with 16. change DINODE_SIZE with 64. change BSIZE with 1024.
  pose proof (Z.mod_pos_bound inum 16 ltac:(lia)). lia.
Qed.

Lemma store_dinode_ok i d off : length (i_addrs i) = 13%nat -> byte_list d -> (off + 64 <= length d)%nat ->
  length (store_dinode i d off) = length d /\ byte_list (store_dinode i d off).
Proof.
  intros Ha Hd Hl. unfold store_dinode. edestruct put_addrs_ok as [E1 E2]; [|rewrite Ha|split; [rewrite E1|exact E2]].
  - by repeat apply putn_bytes.
  - plen.
  - plen.
Qed.

Lemma i16_mod x : is_i16 x -> i16 (x mod 256 ^ Z.of_nat 2) = x.
Proof. intros Hx. change (256 ^ Z.of_nat 2) with 65536. unfold i16. Z.div_mod_to_equations. lia. Qed.

Lemma put_addrs_above n l d off o : (off + 4 * length l <= length d)%nat -> (off + 4 * length l <= o)%nat ->
  getn n (put_addrs l d off) o = getn n d o.
Proof.
  revert d off. induction l as [|a l IH]; intros d off Hl Ho; cbn [put_addrs length] in *; [done|].
  rewrite IH by plen. apply getn_putn_ne; lia.
Qed.

(** Storing an inode leaves the other bytes of the block. *)
Lemma store_dinode_other i d off o n :
  length (i_addrs i) = 13%nat -> (off + 64 <= length d)%nat -> (o + n <= off \/ off + 64 <= o)%nat ->
  getn n (store_dinode i d off) o = getn n d o.
Proof.
  intros Ha Hl [Ho|Ho]; unfold store_dinode;
    [rewrite put_addrs_below by (rewrite ?Ha; plen)|rewrite put_addrs_above by (rewrite ?Ha; plen)];
    by rewrite !getn_putn_ne by plen.
Qed.

Lemma get_addrs_ext k d d' off off' :
  (forall j, (j < k)%nat -> get32 d (off + 4 * j) = get32 d' (off' + 4 * j)) -> get_addrs k d off = get_addrs k d' off'.
Proof.
  revert off off'. induction k as [|k IH]; intros off off' H; cbn [get_addrs]; [done|]. f_equal.
  - specialize (H 0%nat ltac:(lia)). by rewrite !Nat.add_0_r in H.
  - apply IH. intros j Hj. specialize (H (S j) ltac:(lia)).
    by replace (off + 4 * S j)%nat with (off + 4 + 4 * j)%nat in H by lia; replace (off' + 4 * S j)%nat with (off' + 4 + 4 * j)%nat in H by lia.
Qed.

(** What [ilock] reads is what [iupdate] stored... *)
Lemma load_store_dinode i d off j :
  dinode_typed i -> (off + 64 <= length d)%nat ->
  load_dinode (store_dinode i d off) off j =
    with_dinode (i_type i) (i_major i) (i_minor i) (i_nlink i) (i_size i) (i_addrs i) j.
Proof.
  intros [H1 H2 H3 H4 H5 H6 Hl] Hd. change (Z.to_nat (NDIRECT + 1)) with 13%nat in Hl.
  unfold load_dinode, store_dinode. change (Z.to_nat (NDIRECT + 1)) with 13%nat.
  rewrite <- Hl at 1. rewrite get_put_addrs by (done || (rewrite Hl; plen)).
  rewrite !put_addrs_below by (rewrite ?Hl; plen).
  f_equal; repeat first [rewrite getn_putn_eq by plen | rewrite getn_putn_ne by plen];
    first [by apply i16_mod | by apply Z.mod_small].
Qed.

(** ... and every other inode of the block is as before. *)
Lemma load_store_other i d inum inum' j :
  length (i_addrs i) = 13%nat -> 0 <= inum -> 0 <= inum' -> inum mod IPB <> inum' mod IPB -> length d = Z.to_nat BSIZE ->
  load_dinode (store_dinode i d (dinode_off inum)) (dinode_off inum') j = load_dinode d (dinode_off inum') j.
Proof.
  intros Ha Hn Hn' Hne Hd. pose proof (dinode_off_ok inum Hn) as Hoff.
  assert (Hdis : (dinode_off inum' + 64 <= dinode_off inum \/ dinode_off inum + 64 <= dinode_off inum')%nat).
  { unfold dinode_off. change IPB with 16 in *. change DINODE_SIZE with 64.
    pose proof (Z.mod_pos_bound inum 16 ltac:(lia)). pose proof (Z.mod_pos_bound inum' 16 ltac:(lia)). lia. }
  unfold load_dinode. change (Z.to_nat (NDIRECT + 1)) with 13%nat.
  rewrite !store_dinode_other by (rewrite ?Hd; lia). f_equal. apply get_addrs_ext. intros k Hk.
  apply store_dinode_other; rewrite ?Hd; lia.
Qed.

(** ** Runs *)

Section Runs.
Context {S : Type} {BC : BlockCache S} {BCS : BlockCacheSpec S} {K : Type} {EN : FsEnv K}.
Context (me dev : Z) (base : blocks) (w : list (Z * block)) (start nlog : Z).
Context (Hdev : is_u32 dev).
Notation tx := (tx me dev base w start nlog).
Notation quiet := (quiet me).

(** A call into the file system or into the process, followed by [k]. *)
Lemma fs_step {A B} (m : M (fsys S) A) (k : A -> M (fsys S * K) B) R Q th f kk :
  wp m R th f -> (forall a th' f', R a th' f' -> wp (k a) Q th' (f', kk)) -> wp (bind (fs m) k) Q th (f, kk).
Proof. intros Hm Hk. apply wp_bind, wp_zoom. eapply wp_mono; [exact Hm|]. intros a th' f' HR. by apply Hk. Qed.

Lemma env_step {A B} (m : M K A) (k : A -> M (fsys S * K) B) Q th f kk a kk' :
  m th kk = Ok a th kk' -> wp (k a) Q th (f, kk') -> wp (bind (env m) k) Q th (f, kk).
Proof. intros E Hk. apply wp_bind, wp_zoom. by eapply wp_eq; [exact E|]. Qed.

Lemma wp_run {T A} (m : M T A) Q th (s : T) (P : Prop) :
  wp m Q th s -> (forall a th' s', m th s = Ok a th' s' -> Q a th' s' -> P) -> P.
Proof. intros (a & th' & s' & E & HQ)%wp_ok HP. by eapply HP. Qed.
Lemma wp_unbind {T A} (m : M T A) Q th (s : T) : wp (bind m ret) Q th s -> wp m Q th s.
Proof. unfold wp, bind, ret. by destruct (m th s). Qed.

Lemma fs_get_inode {A} (k : inode -> M (fsys S * K) A) Q th f kk it v W H ip i :
  tx f sb it v W H -> it !! ip = Some i -> wp (k i) Q th (f, kk) -> wp (bind (fs (get_inode ip)) k) Q th (f, kk).
Proof.
  intros Ht Hi Hk. eapply (fs_step _ _ (fun a th' f' => a = i /\ th' = th /\ f' = f)).
  - apply wp_unbind. eapply tx_get_inode; [done|done|]. by apply wp_ret.
  - by intros a th' f' (-> & -> & ->).
Qed.

Lemma fs_bread {A} (k : nat -> M (fsys S * K) A) Q th f kk it v W H n :
  quiet th -> tx f sb it v W H -> is_u32 n -> n ∉ H.*1 -> (length H <= 5)%nat ->
  (forall b th' f', same_thread th th' -> tx f' sb it v W ((n, b) :: H) -> wp (k b) Q th' (f', kk)) ->
  wp (bind (fs (bio (bread dev n))) k) Q th (f, kk).
Proof.
  intros Hq Ht Hn Hnot Hl Hk. eapply (fs_step _ _ (fun b th' f' => same_thread th th' /\ tx f' sb it v W ((n, b) :: H))).
  - apply wp_unbind. eapply tx_bread; [done..|]. intros b th' f' ? ?. by apply wp_ret.
  - intros b th' f' [? ?]. by apply Hk.
Qed.

Lemma fs_bdata {A} (k : block -> M (fsys S * K) A) Q th f kk it v W H n b :
  tx f sb it v W H -> (n, b) ∈ H -> wp (k (v n)) Q th (f, kk) -> wp (bind (fs (bio (bdata b))) k) Q th (f, kk).
Proof.
  intros Ht Hin Hk. eapply (fs_step _ _ (fun a th' f' => a = v n /\ th' = th /\ f' = f)).
  - apply wp_unbind. eapply tx_bdata; [done|done|]. by apply wp_ret.
  - by intros a th' f' (-> & -> & ->).
Qed.

Lemma fs_brelse {A} (k : unit -> M (fsys S * K) A) Q th f kk it v W H n b :
  quiet th -> tx f sb it v W ((n, b) :: H) ->
  (forall th' f', same_thread th th' -> tx f' sb it v W H -> wp (k tt) Q th' (f', kk)) ->
  wp (bind (fs (bio (brelse b))) k) Q th (f, kk).
Proof.
  intros Hq Ht Hk. eapply (fs_step _ _ (fun _ th' f' => same_thread th th' /\ tx f' sb it v W H)).
  - by eapply tx_brelse_last.
  - intros [] th' f' [? ?]. by apply Hk.
Qed.

Lemma fs_set_same {A} (k : unit -> M (fsys S * K) A) Q th f kk it v W H n b d :
  tx f sb it v W H -> (n, b) ∈ H -> d = v n ->
  (forall f', tx f' sb it v W H -> wp (k tt) Q th (f', kk)) -> wp (bind (fs (bio (set_bdata b d))) k) Q th (f, kk).
Proof.
  intros Ht Hin Hd Hk. eapply (fs_step _ _ (fun _ th' f' => th' = th /\ tx f' sb it v W H)).
  - apply wp_unbind. eapply tx_set_same; [done|done|done|]. intros f' Hf'. by apply wp_ret.
  - intros [] th' f' [-> ?]. by apply Hk.
Qed.

Lemma fs_write {A} (k : M (fsys S * K) A) Q th f kk it v W H n b d :
  quiet th -> tx f sb it v W H -> (n, b) ∈ H -> 0 <= n < 2 ^ 31 -> length d = Z.to_nat BSIZE -> fits ({[n]} ∪ W) ->
  (forall th' f', same_thread th th' -> tx f' sb it (upd v n d) ({[n]} ∪ W) H -> wp k Q th' (f', kk)) ->
  wp (fs (bio (set_bdata b d));;; fs (logged (log_write b));;; k) Q th (f, kk).
Proof.
  intros Hq Ht Hin Hn Hd Hf Hk.
  destruct (proj1 (wp_ok _ _ _ _) (tx_write_last me dev base w start nlog th f sb it v W H n b d Hq Ht Hin Hn Hd Hf))
    as ([] & th' & f' & E & Hth & Ht'). unfold bind in E.
  unfold wp, bind. unfold zoom at 1. cbn [view over fs_lens fst snd].
  destruct (zoom buf_lens (set_bdata b d) th f) as [[] th1 f1| | | |]; try discriminate.
  unfold zoom at 1. cbn [view over fs_lens fst snd].
  rewrite E. exact (Hk th' f' Hth Ht').
Qed.

Lemma readi_loop_ok fuel R user_dst dst th f kk it v W ip i off0 n tot :
  quiet th -> tx f sb it v W [] -> it !! ip = Some i -> i_dev i = dev -> v_ok sb v -> inode_ok sb v i ->
  i_size i <= MAXFILE * BSIZE -> mapped v i off0 (off0 + n) -> 0 <= off0 -> 0 <= tot <= n -> off0 + n <= i_size i ->
  sink R user_dst dst n -> R (fbytes v i off0 tot) kk ->
  (tot < n -> (off0 + n + BSIZE - 1) / BSIZE - (off0 + tot) / BSIZE <= Z.of_nat fuel) ->
  wp (readi_loop fuel ip user_dst (u64 (dst + tot)) (off0 + tot) n tot)
    (fun r th' s' => same_thread th th' /\ r = n /\ tx (fst s') sb it v W [] /\ R (fbytes v i off0 n) (snd s')) th (f, kk).
Proof.
  assert (HB : BSIZE = 1024) by reflexivity. assert (HM : MAXFILE * BSIZE = 274432) by reflexivity.
  revert th f kk tot. induction fuel as [|fuel IH]; intros th f kk tot Hq Ht Hi Hd Hv Hio Hsz Hnh Hoff Htot Hle Hs HR Hf;
    cbn [readi_loop]; (destruct (Z.ltb_spec tot n) as [Hlt|Hge]; [|apply wp_ret; replace n with tot by lia; done]).
  { specialize (Hf Hlt). exfalso. rewrite HB in Hf. revert Hf Hlt Htot Hoff. clear. intros. Z.div_mod_to_equations. lia. }
  specialize (Hf Hlt). set (off := off0 + tot) in *. pose proof (Z.mod_pos_bound off BSIZE ltac:(done)) as Hmod.
  assert (Ha : addr_of v i (off / BSIZE) <> 0) by (apply Hnh; lia). pose proof (block_range off ltac:(lia)) as Hbn.
  destruct (io_data _ _ _ Hio _ Hbn Ha) as [[Hdb _] _]. pose proof (data_start_pos sb Hsb). pose proof (so_size _ Hsb).
  eapply fs_step; [by apply (bmap_found sb Hsb me dev base w start nlog th f it v W ip i)|].
  intros r th1 f1 (Hth1 & -> & Ht1). destruct (Z.eqb_spec (addr_of v i (off / BSIZE)) 0); [done|].
  eapply fs_get_inode; [done|done|]. rewrite Hd. eapply fs_bread; [quiet_tac|done|lia|apply not_elem_of_nil|cbn; lia|].
  intros bp th2 f2 Hth2 Ht2. rewrite !u32_id by lia. set (m := Z.min (n - tot) (BSIZE - off mod BSIZE)).
  eapply fs_bdata; [done|in_list|].
  rewrite <- (fbytes_chunk v i off m) by (done || lia || apply Hv).
  destruct (snk_copy _ _ _ _ Hs (fbytes v i off0 tot) (fbytes v i off m) th2 kk HR) as (kk' & E & HR').
  { rewrite !length_fbytes by lia. lia. }
  rewrite length_fbytes, Z2Nat.id in E by lia. eapply env_step; [exact E|]. cbn [Z.eqb].
  eapply fs_brelse; [quiet_tac|done|]. intros th3 f3 Hth3 Ht3. rewrite <- fbytes_app in HR' by lia.
  replace (u64 (u64 (dst + tot) + m)) with (u64 (dst + (tot + m))) by (unfold u64; rewrite Zplus_mod_idemp_l; f_equal; lia).
  rewrite !u32_id by lia. replace (off + m) with (off0 + (tot + m)) by lia.
  eapply wp_mono; [apply IH; try done; [quiet_tac|lia|]|].
  - intros Hmore. replace (off0 + (tot + m)) with (off + m) by lia.
    rewrite (next_block off m) by lia. lia.
  - intros a th' s' (? & ?). split; [keep_thread|done].
Qed.

(** Blocks still to be touched when [tot] bytes of [n] are written. *)
Definition blocks_left (off0 n tot : Z) : Z :=
  if tot <? n then (off0 + n + BSIZE - 1) / BSIZE - (off0 + tot) / BSIZE else 0.

Lemma blocks_left_step off0 n tot m :
  0 <= off0 -> 0 <= tot < n -> m = Z.min (n - tot) (BSIZE - (off0 + tot) mod BSIZE) ->
  0 <= blocks_left off0 n (tot + m) /\ blocks_left off0 n (tot + m) + 1 <= blocks_left off0 n tot.
Proof.
  intros Hoff Htot Hm. unfold blocks_left. rewrite (proj2 (Z.ltb_lt tot n)) by lia.
  assert (HB : BSIZE = 1024) by reflexivity. destruct (Z.ltb_spec (tot + m) n) as [Hlt|Hge].
  - replace (off0 + (tot + m)) with (off0 + tot + m) by lia. rewrite (next_block (off0 + tot) m) by lia.
    split; [|lia]. rewrite HB. revert Hm Hlt Hoff Htot. rewrite HB. clear. intros. Z.div_mod_to_equations. lia.
  - split; [done|]. rewrite HB. revert Hoff Htot. clear. intros. Z.div_mod_to_equations. lia.
Qed.

Lemma cost_mono W i k k' : cost sb W i k -> (k' <= k)%nat -> cost sb W i k'.
Proof. unfold cost. lia. Qed.
Lemma cost_fits W i : cost sb W i 0 -> fits W.
Proof.
  unfold cost, fits. intros Hc. assert (size W <= size (W ∪ bitmap sb ∪ nz (ind i)))%nat by (apply subseteq_size; set_solver). lia.
Qed.

Lemma cost_fits_add W i b : cost sb W i 1 -> fits ({[b]} ∪ W).
Proof.
  unfold cost, fits. intros Hc. assert (size W <= size (W ∪ bitmap sb ∪ nz (ind i)))%nat by (apply subseteq_size; set_solver).
  rewrite size_union_alt, size_singleton. pose proof (subseteq_size (W ∖ {[b]}) W ltac:(set_solver)). lia.
Qed.

(** The number of bytes [writei] copies at once when it has written [tot] of [n] bytes. *)
Definition piece (off n tot : Z) : Z := Z.min (n - tot) (BSIZE - (off + tot) mod BSIZE).

Lemma splice_same (b : block) o m : splice b o (take m (drop o b)) = b.
Proof.
  unfold splice. rewrite length_take, length_drop. destruct (decide (o + m <= length b)%nat).
  - rewrite Nat.min_l, <- drop_drop by lia. by rewrite !take_drop.
  - rewrite (drop_ge b (o + _)) by lia. rewrite app_nil_r, (take_ge (drop o b)) by (rewrite length_drop; lia). apply take_drop.
Qed.

Lemma writei_loop_ok fuel R user_src src bs avail th f kk it v0 v W ip i0 i off0 tot :
  let n := Z.of_nat (length bs) in
  quiet th -> tx f sb it v W [] -> it !! ip = Some i -> i_dev i = dev -> v_ok sb v -> inode_ok sb v i ->
  0 <= off0 -> 0 <= tot <= n -> off0 + n <= MAXFILE * BSIZE -> byte_list bs -> source R user_src src bs avail -> R kk -> tot <= Z.of_nat avail ->
  wrote v0 v i0 i off0 tot bs -> cost sb W i (Z.to_nat (blocks_left off0 n tot) + 1) ->
  blocks_left off0 n tot <= Z.of_nat fuel ->
  wp (writei_loop fuel ip user_src (u64 (src + tot)) (off0 + tot) n tot)
    (fun r th' s' => same_thread th th' /\ R (snd s') /\ exists tot' i' v' W', r = (tot', off0 + tot') /\
       tot <= tot' <= n /\ tot' <= Z.of_nat avail /\ tx (fst s') sb (<[ip := i']> it) v' W' [] /\ v_ok sb v' /\ inode_ok sb v' i' /\
       wrote v0 v' i0 i' off0 tot' bs /\ cost sb W' i' 1 /\
       (tot' < n -> full sb v' \/ Z.of_nat avail < tot' + piece off0 n tot')) th (f, kk).
Proof.
  intros n. assert (HB : BSIZE = 1024) by reflexivity. assert (HM : MAXFILE * BSIZE = 274432) by reflexivity.
  revert th f kk it v W i tot.
  induction fuel as [|fuel IH]; intros th f kk it v W i tot Hq Ht Hi Hd Hv Hio Hoff Htot Hle Hbs Hs HR Hav Hw Hc Hf;
    cbn [writei_loop]; (destruct (Z.ltb_spec tot n) as [Hlt|Hge];
      [|apply wp_ret; split; [done|]; split; [done|]; exists tot, i, v, W; rewrite list_insert_id by done;
        split_and!; try done; try lia; eapply cost_mono; [exact Hc|lia]]).
  { exfalso. pose proof (blocks_left_step off0 n tot _ Hoff ltac:(lia) eq_refl). lia. }
  set (off := off0 + tot) in *. pose proof (Z.mod_pos_bound off BSIZE ltac:(done)) as Hmod.
  set (m := Z.min (n - tot) (BSIZE - off mod BSIZE)) in *.
  pose proof (blocks_left_step off0 n tot m Hoff ltac:(lia) eq_refl) as [Hb1 Hb2].
  pose proof (block_range off ltac:(lia)) as Hbn.
  eapply fs_step; [by apply (bmap_ok sb Hsb me dev base w start nlog Hdev th f it v W ip i (off / BSIZE)); try done;
    eapply cost_mono; [exact Hc|lia]|].
  intros r th1 f1 (i1 & v1 & W1 & [Hth1 Ht1 Hv1 Hio1 Hg1 HW1 Hfull1]).
  assert (Hi1 : <[ip := i1]> it !! ip = Some i1) by (by eapply lookup_insert_Some_eq).
  assert (Hc1 : forall X, X ⊆ W ∪ bitmap sb ∪ nz (ind i1) ∪ nz r -> cost sb X i1 (Z.to_nat (blocks_left off0 n (tot + m)) + 1)).
  { intros X HX. eapply (cost_step sb Hsb W X i i1 r); [|apply (gr_ind _ _ _ _ _ _ _ Hg1)|done]. eapply cost_mono; [exact Hc|lia]. }
  pose proof (wrote_grown v0 v v1 i0 i i1 off0 tot bs _ r Hw Hio Hg1) as Hw1.
  destruct (Z.eqb_spec r 0) as [->|Hr0].
  { apply wp_ret. split; [done|]. split; [done|]. exists tot, i1, v1, W1. split_and!; try done; try lia.
    - eapply cost_mono; [by apply Hc1|lia].
    - intros _. left. by apply Hfull1. }
  pose proof (gr_addr _ _ _ _ _ _ _ Hg1) as Ha. assert (Ha0 : addr_of v1 i1 (off / BSIZE) <> 0) by (by rewrite Ha).
  destruct (io_data _ _ _ Hio1 _ Hbn Ha0) as [[Hdb _] _]. rewrite Ha in Hdb.
  pose proof (data_start_pos sb Hsb). pose proof (so_size _ Hsb).
  assert (Hd1 : i_dev i1 = dev) by (by rewrite (gr_inode _ _ _ _ _ _ _ Hg1)).
  eapply fs_get_inode; [done|done|]. rewrite Hd1. eapply fs_bread; [quiet_tac|done|lia|apply not_elem_of_nil|cbn; lia|].
  intros bp th2 f2 Hth2 Ht2. rewrite !u32_id by lia. fold m. eapply fs_bdata; [done|in_list|].
  assert (Hold : length (take (Z.to_nat m) (drop (Z.to_nat (off mod BSIZE)) (v1 r))) = Z.to_nat m)
    by (rewrite length_take, length_drop, (vo_len _ _ Hv1); lia).
  destruct (decide (Z.to_nat tot + Z.to_nat m <= avail)%nat) as [Hok|Hbad]; cycle 1.
  { destruct (src_fail _ _ _ _ _ Hs (Z.to_nat tot) (take (Z.to_nat m) (drop (Z.to_nat (off mod BSIZE)) (v1 r))) th2 kk HR) as (kk' & E & HR'); [rewrite Hold; lia|rewrite Hold; lia|].
    rewrite Z2Nat.id in E by lia. eapply env_step; [exact E|]. cbn [snd fst].
    eapply fs_set_same; [done|in_list|apply splice_same|]. intros f3 Ht3. change (-1 =? -1) with true. cbn iota.
    eapply fs_brelse; [quiet_tac|done|]. intros th4 f4 Hth4 Ht4. apply wp_ret. split; [keep_thread|]. split; [done|].
    exists tot, i1, v1, W1. split_and!; try done; try lia.
    - eapply cost_mono; [by apply Hc1; set_solver|lia].
    - intros _. right. unfold piece. fold off m. lia. }
  destruct (src_copy _ _ _ _ _ Hs (Z.to_nat tot) (take (Z.to_nat m) (drop (Z.to_nat (off mod BSIZE)) (v1 r))) th2 kk HR) as (kk' & E & HR'); [rewrite Hold; lia|rewrite Hold; lia|].
  rewrite Hold, Z2Nat.id in E by lia. eapply env_step; [exact E|]. cbn [snd fst Z.eqb].
  set (d := take (Z.to_nat m) (drop (Z.to_nat tot) bs)).
  assert (Hdl : length d = Z.to_nat m) by (unfold d; rewrite length_take, length_drop; lia).
  assert (Hdb' : byte_list d) by (by apply Forall_take, Forall_drop).
  assert (HW2 : {[r]} ∪ W1 ⊆ W ∪ bitmap sb ∪ nz (ind i1) ∪ nz r) by (rewrite (nz_ne r) in * by done; set_solver).
  eapply fs_write; [quiet_tac|done|in_list|lia| |by eapply cost_fits, cost_mono; [apply Hc1|lia]|].
  { rewrite length_splice; [apply Hv1|]. rewrite Hdl, (vo_len _ _ Hv1). lia. }
  intros th3 f3 Hth3 Ht3. eapply fs_brelse; [quiet_tac|done|]. intros th4 f4 Hth4 Ht4.
  assert (Hpk : upd v1 r (splice (v1 r) (Z.to_nat (off mod BSIZE)) d) = poke v1 i1 off d) by (unfold poke; by rewrite Ha).
  rewrite Hpk in Ht4. destruct (poke_ok v1 i1 off d) as (Hv2 & Hio2 & _); [done|done|done|done|done|rewrite Hdl; lia|].
  replace (u64 (u64 (src + tot) + m)) with (u64 (src + (tot + m))) by (unfold u64; rewrite Zplus_mod_idemp_l; f_equal; lia).
  replace (off + m) with (off0 + (tot + m)) by lia.
  eapply wp_mono; [eapply (IH th4 f4 kk' (<[ip := i1]> it) (poke v1 i1 off d) _ i1 (tot + m)); try done|].
  - quiet_tac.
  - lia.
  - lia.
  - apply wrote_poke; fold off n; lia || done.
  - by apply Hc1.
  - lia.
  - intros a th' s' (Hth' & HR2 & tot' & i' & v' & W' & -> & Ht' & Hrest). split; [keep_thread|]. split; [done|].
    exists tot', i', v', W'. rewrite list_insert_insert_eq in Hrest. split_and!; try done; try lia; apply Hrest.
Qed.

(** ** [iupdate] and [ilock] *)

Lemma IBLOCK_ok inum : 0 <= inum < sb_ninodes sb ->
  0 <= IBLOCK inum sb < data_start sb /\ IBLOCK inum sb ∉ bitmap sb /\ IBLOCK inum sb < 2 ^ 30.
Proof.
  destruct Hsb as [H1 H2 H3 H4 H5]. intros Hn. unfold IBLOCK.
  assert (0 <= inum / IPB <= sb_ninodes sb / IPB) as Hq.
  { split; [apply Z.div_pos; [lia|done]|apply Z.div_le_mono; [done|lia]]. }
  assert (0 <= sb_size sb / BPB) by (apply Z.div_pos; [lia|done]).
  rewrite u32_id by lia. split; [lia|]. split; [|lia].
  unfold bitmap. rewrite elem_of_list_to_set, elem_of_seqZ. lia.
Qed.

Lemma IBLOCK_div inum inum' : 0 <= inum < sb_ninodes sb -> 0 <= inum' < sb_ninodes sb ->
  IBLOCK inum sb = IBLOCK inum' sb -> inum / IPB = inum' / IPB.
Proof.
  destruct Hsb as [H1 H2 H3 H4 H5]. intros Hn Hn'. unfold IBLOCK.
  assert (0 <= inum / IPB <= sb_ninodes sb / IPB) by (split; [apply Z.div_pos; [lia|done]|apply Z.div_le_mono; [done|lia]]).
  assert (0 <= inum' / IPB <= sb_ninodes sb / IPB) by (split; [apply Z.div_pos; [lia|done]|apply Z.div_le_mono; [done|lia]]).
  assert (0 <= sb_size sb / BPB) by (apply Z.div_pos; [lia|done]).
  rewrite !u32_id by lia. lia.
Qed.

Definition saved (v : blocks) (i : inode) : blocks :=
  upd v (IBLOCK (i_inum i) sb) (store_dinode i (v (IBLOCK (i_inum i) sb)) (dinode_off (i_inum i))).

Lemma v_ok_saved v i : v_ok sb v -> length (i_addrs i) = 13%nat -> 0 <= i_inum i < sb_ninodes sb -> v_ok sb (saved v i).
Proof.
  intros Hv Hl Hn. destruct (IBLOCK_ok (i_inum i) Hn) as (Hr & Hb & _). pose proof Hv as [H1 H2 H3].
  destruct (store_dinode_ok i (v (IBLOCK (i_inum i) sb)) (dinode_off (i_inum i)) Hl) as [E1 E2];
    [done|rewrite H1; apply dinode_off_ok; lia|].
  split; [intros n|intros n|intros b Hb0].
  - unfold saved, upd. destruct (n =? _); [by rewrite E1|done].
  - unfold saved, upd. by destruct (n =? _).
  - rewrite (used_ext sb v); [by apply H3|]. apply upd_ne. intros E. apply Hb. rewrite <- E.
    apply (BBLOCK_ok sb Hsb b). pose proof (so_data _ Hsb). lia.
Qed.

Lemma iupdate_ok th f it v W ip i :
  quiet th -> tx f sb it v W [] -> it !! ip = Some i -> i_dev i = dev -> v_ok sb v ->
  length (i_addrs i) = 13%nat -> 0 <= i_inum i < sb_ninodes sb -> fits ({[IBLOCK (i_inum i) sb]} ∪ W) ->
  wp (iupdate ip) (fun _ th' f' => same_thread th th' /\ tx f' sb it (saved v i) ({[IBLOCK (i_inum i) sb]} ∪ W) []) th f.
Proof.
  intros Hq Ht Hi Hd Hv Hl Hn Hf. destruct (IBLOCK_ok (i_inum i) Hn) as (Hr & _ & Hb). unfold iupdate.
  eapply tx_get_sb; [done|]. eapply tx_get_inode; [done|done|]. rewrite Hd.
  eapply tx_bread; [done|done|lia|apply not_elem_of_nil|cbn; lia|]. intros bp th1 s1 Hth1 Ht1.
  eapply tx_bdata; [done|in_list|]. eapply tx_write; [quiet_tac|done|in_list|lia| |done|].
  { pose proof (vo_len _ _ (v_ok_saved v i Hv Hl Hn) (IBLOCK (i_inum i) sb)) as E. unfold saved in E. by rewrite upd_eq in E. }
  intros th2 s2 Hth2 Ht2. eapply tx_brelse_last; [quiet_tac|done|]. intros th3 s3 Hth3 Ht3. split; [keep_thread|done].
Qed.

(** [ilock] of an entry that nobody has locked and that is not valid yet. *)
Lemma ilock_ok th f it v W jp j :
  quiet th -> tx f sb it v W [] -> it !! jp = Some j -> i_dev j = dev -> 0 <= i_inum j < sb_ninodes sb ->
  1 <= i_ref j -> sl_locked (i_lock j) = 0 -> i_valid j = 0 -> LkInode jp ∉ th_held th ->
  i_type (load_dinode (v (IBLOCK (i_inum j) sb)) (dinode_off (i_inum j)) j) <> 0 ->
  wp (ilock (Some jp)) (fun _ th' f' => same_thread th th' /\
    tx f' sb (<[jp := with_ivalid 1 (load_dinode (v (IBLOCK (i_inum j) sb)) (dinode_off (i_inum j))
                        (with_ilock (mkSleeplock 1 (th_pid th)) j))]> it) v W []) th f.
Proof.
  intros Hq Ht Hj Hd Hn Href Hlk Hval Hheld Hty. destruct (IBLOCK_ok (i_inum j) Hn) as (Hr & _ & Hb). unfold ilock.
  eapply tx_get_inode; [done|done|]. destruct (Z.ltb_spec (i_ref j) 1); [lia|]. apply wp_bind, wp_ret.
  apply wp_bind. unfold wp at 1, inode_lock. rewrite (tx_it _ _ _ _ _ _ _ _ _ _ _ _ Ht), Hj.
  rewrite acquiresleep_free by done. set (j1 := with_ilock _ j). set (f1 := set_inodes _ f).
  assert (Ht1 : tx f1 sb (<[jp := j1]> it) v W []) by (destruct Ht; by split).
  assert (Hj1 : <[jp := j1]> it !! jp = Some j1) by (by eapply lookup_insert_Some_eq).
  eapply tx_get_inode; [done|done|]. change (i_valid j1) with (i_valid j). rewrite Hval. cbn [Z.eqb when].
  eapply tx_get_sb; [done|]. change (i_dev j1) with (i_dev j). change (i_inum j1) with (i_inum j). rewrite Hd.
  eapply tx_bread; [done|done|lia|apply not_elem_of_nil|cbn; lia|]. intros bp th2 f2 Hth2 Ht2.
  eapply tx_bdata; [done|in_list|]. eapply tx_upd_inode; [done|done|]. intros f3 Ht3.
  eapply tx_brelse; [quiet_tac|done|]. intros th4 f4 Hth4 Ht4. rewrite list_insert_insert_eq in Ht4.
  eapply tx_upd_inode; [done|by eapply lookup_insert_Some_eq|]. intros f5 Ht5. rewrite list_insert_insert_eq in Ht5.
  eapply tx_get_inode; [done|by eapply lookup_insert_Some_eq|].
  destruct (Z.eqb_spec (i_type (with_ivalid 1 (load_dinode (v (IBLOCK (i_inum j) sb)) (dinode_off (i_inum j)) j1))) 0) as [E|E];
    [by destruct Hty|]. cbn [when]. apply wp_ret. split; [keep_thread|done].
Qed.

(** ** [readi] and [writei] *)

Lemma sink_le R user_dst dst n n' : sink R user_dst dst n -> n' <= n -> sink R user_dst dst n'.
Proof. intros [H] Hle. split. intros out bs th k HR Hl. apply H; [done|lia]. Qed.

(** The number of bytes a read of [n] at [off] delivers. *)
Definition read_count (i : inode) (off n : Z) : Z :=
  if (i_size i <? off) || (2 ^ 32 <=? off + n) then 0 else Z.min n (i_size i - off).

Lemma mapped_read v i off n : no_holes v i -> 0 <= off -> mapped v i off (off + read_count i off n).
Proof.
  intros Hh Ho o Hr. apply Hh. unfold read_count in Hr. destruct (Z.ltb_spec (i_size i) off); cbn [orb] in Hr; [lia|].
  destruct (2 ^ 32 <=? off + n); lia.
Qed.

Lemma readi_ok R user_dst dst th f kk it v W ip i off n :
  quiet th -> tx f sb it v W [] -> it !! ip = Some i -> i_dev i = dev -> v_ok sb v -> inode_ok sb v i ->
  0 <= i_size i <= MAXFILE * BSIZE -> mapped v i off (off + read_count i off n) -> is_u32 off -> is_u32 n ->
  sink R user_dst dst n -> R [] kk -> is_u64 dst ->
  wp (readi ip user_dst dst off n) (fun r th' s' => r = read_count i off n /\ same_thread th th' /\
    tx (fst s') sb it v W [] /\ R (fbytes v i off (read_count i off n)) (snd s')) th (f, kk).
Proof.
  intros Hq Ht Hi Hd Hv Hio Hsz Hnh Hoff Hn Hs HR Hdst. assert (HM : MAXFILE * BSIZE = 274432) by reflexivity.
  assert (HB : BSIZE = 1024) by reflexivity.
  unfold readi, read_count in *. eapply fs_get_inode; [done|done|].
  assert (Hov : (u32 (off + n) <? off) = (2 ^ 32 <=? off + n)).
  { unfold u32. destruct (Z.leb_spec (2 ^ 32) (off + n)) as [H|H]; [apply Z.ltb_lt|apply Z.ltb_ge]; Z.div_mod_to_equations; lia. }
  rewrite Hov. destruct ((i_size i <? off) || (2 ^ 32 <=? off + n)) eqn:E; [by apply wp_ret|].
  apply orb_false_iff in E as [E1 E2]. apply Z.ltb_ge in E1. apply Z.leb_gt in E2. rewrite (u32_id (off + n)) by lia.
  set (n' := if i_size i <? off + n then u32 (i_size i - off) else n).
  assert (Hn' : n' = Z.min n (i_size i - off)) by (unfold n'; destruct (Z.ltb_spec (i_size i) (off + n)); [rewrite u32_id|]; lia).
  apply wp_bind. rewrite <- Hn' in *. eapply wp_mono.
  { pose proof (readi_loop_ok (Z.to_nat (n' / BSIZE + 2)) R user_dst dst th f kk it v W ip i off n' 0) as Hl.
    rewrite !Z.add_0_r, u64_id in Hl by lia. apply Hl; try done; try lia.
    - eapply sink_le; [done|lia].
    - intros _. assert (0 <= n') by lia. rewrite HB. revert H Hoff. clear. intros. Z.div_mod_to_equations. lia. }
  intros r th' [f' kk'] (Hth & -> & Ht' & HR'). apply wp_ret. rewrite i32_id by lia. done.
Qed.

(** C21: [readi] reads the file.  For any offset and count it delivers exactly the bytes of
    the file from [off] on, [n] of them or as many as there are before the end of the file,
    to a destination that can take them, and returns their number; nothing of the file
    system changes.  Beyond the end, or where [off + n] leaves 32 bits, it returns 0. *)
Theorem readi_delivers_content R user_dst dst th f kk it v W ip i off n :
  quiet th -> tx f sb it v W [] -> it !! ip = Some i -> i_dev i = dev -> v_ok sb v -> inode_ok sb v i ->
  0 <= i_size i <= MAXFILE * BSIZE -> no_holes v i -> is_u32 off -> is_u32 n ->
  sink R user_dst dst n -> R [] kk -> is_u64 dst ->
  exists th' f' kk', readi ip user_dst dst off n th (f, kk) = Ok (read_count i off n) th' (f', kk') /\
    same_thread th th' /\ tx f' sb it v W [] /\ R (fbytes v i off (read_count i off n)) kk'.
Proof.
  intros. eapply wp_run; [apply (readi_ok R user_dst dst th f kk it v W ip i off n); try done; apply mapped_read; done || lia|].
  intros r th' [f' kk'] E (-> & Hrest). by exists th', f', kk'.
Qed.

Lemma inode_ok_addrs v i : inode_ok sb v i -> Forall (fun a => is_u32 a) (i_addrs i).
Proof.
  intros Hio. pose proof (io_len _ _ _ Hio) as Hl. change (Z.to_nat (NDIRECT + 1)) with 13%nat in Hl.
  pose proof (data_start_pos sb Hsb). pose proof (so_size _ Hsb). assert (HD : NDIRECT = 12) by reflexivity.
  apply Forall_forall. intros a (k & Hk)%list_elem_of_lookup. pose proof (lookup_lt_Some _ _ _ Hk) as Hlt.
  assert (Ha : naddr i (Z.of_nat k) = a) by (unfold naddr; by rewrite znth_of_nat, Hk).
  destruct (Z.eq_dec a 0) as [->|Ha0]; [lia|]. destruct (decide (k = 12%nat)) as [->|Hne].
  - change (ind i = a) in Ha. destruct (io_ind _ _ _ Hio) as [? _]; [by rewrite Ha|]. lia.
  - rewrite <- (addr_of_direct v) in Ha by lia. destruct (io_data _ _ _ Hio (Z.of_nat k)) as [[? _] _];
      [change MAXFILE with 268; lia|by rewrite Ha|]. lia.
Qed.

Section Saved.
Context (v : blocks) (j : inode) (Hj : 0 <= i_inum j < sb_ninodes sb).

Lemma saved_ne n : n <> IBLOCK (i_inum j) sb -> saved v j n = v n.
Proof. intros Hn. unfold saved. by rewrite upd_ne. Qed.
Lemma saved_data n : data_start sb <= n -> saved v j n = v n.
Proof. intros Hn. apply saved_ne. destruct (IBLOCK_ok _ Hj). lia. Qed.
Lemma saved_used n : 0 <= n < sb_size sb -> used sb (saved v j) n = used sb v n.
Proof. intros Hn. apply used_ext, saved_ne. intros E. destruct (IBLOCK_ok _ Hj) as (_ & H & _). apply H. rewrite <- E. by apply BBLOCK_ok. Qed.
Lemma saved_data_block n : data_block sb (saved v j) n <-> data_block sb v n.
Proof. unfold data_block. pose proof (data_start_pos sb Hsb). split; intros [? ?]; (split; [done|]); [rewrite <- saved_used by lia|rewrite saved_used by lia]; done. Qed.

Lemma saved_addr_of i k : inode_ok sb v i -> addr_of (saved v j) i k = addr_of v i k.
Proof.
  intros Hio. unfold addr_of, entry. destruct (k <? NDIRECT); [done|]. destruct (Z.eqb_spec (ind i) 0); [done|].
  rewrite saved_data; [done|]. apply (io_ind _ _ _ Hio); done.
Qed.
Lemma saved_fbyte i o : inode_ok sb v i -> 0 <= o < MAXFILE * BSIZE -> fbyte (saved v j) i o = fbyte v i o.
Proof.
  intros Hio Ho. unfold fbyte. rewrite saved_addr_of by done. destruct (Z.eqb_spec (addr_of v i (o / BSIZE)) 0); [done|].
  rewrite saved_data; [done|]. apply (io_data _ _ _ Hio); [by apply block_range|done].
Qed.
Lemma saved_inode_ok i : inode_ok sb v i -> inode_ok sb (saved v j) i.
Proof.
  intros Hio. pose proof Hio as [H1 H2 H3 H4]. split; [done|..].
  - intros H. apply saved_data_block, H2, H.
  - intros k Hk. rewrite saved_addr_of by done. rewrite saved_data_block. by apply H3.
  - intros k k' Hk Hk'. rewrite !saved_addr_of by done. by apply H4.
Qed.

(** The copies of the inodes on the disk after the one of [j] has been written. *)
Lemma saved_load inum x : v_ok sb v -> dinode_typed j -> 0 <= inum < sb_ninodes sb ->
  load_dinode (saved v j (IBLOCK inum sb)) (dinode_off inum) x =
    if inum =? i_inum j then with_dinode (i_type j) (i_major j) (i_minor j) (i_nlink j) (i_size j) (i_addrs j) x
    else load_dinode (v (IBLOCK inum sb)) (dinode_off inum) x.
Proof.
  intros Hv Ht Hn. pose proof (vo_len _ _ Hv (IBLOCK (i_inum j) sb)) as Hl. destruct (Z.eqb_spec inum (i_inum j)) as [->|Hne].
  - unfold saved. rewrite upd_eq. apply load_store_dinode; [done|]. rewrite Hl. apply dinode_off_ok. lia.
  - destruct (Z.eq_dec (IBLOCK inum sb) (IBLOCK (i_inum j) sb)) as [E|E]; [|by rewrite saved_ne].
    rewrite E. unfold saved. rewrite upd_eq. apply load_store_other; try done; try lia; [apply (dt_len _ Ht)|].
    intros Hm. apply Hne. apply IBLOCK_div in E; [|done..]. rewrite (Z.div_mod inum IPB), (Z.div_mod (i_inum j) IPB) by done. lia.
Qed.

End Saved.


(** What a write of the first [r] bytes of [bs] at [off] does to the disk and the inode. *)
Record rewritten (v v' : blocks) (i i' : inode) (off r : Z) (bs : list Z) : Prop := mkRewritten {
  rw_inode : i' = with_isize (Z.max (i_size i) (off + r)) (with_iaddrs (i_addrs i') i);
  rw_bytes : forall o, 0 <= o < MAXFILE * BSIZE ->
    fbyte v' i' o = if decide (off <= o < off + r) then nth (Z.to_nat (o - off)) bs 0 else fbyte v i o;
  rw_other : forall n, data_block sb v n -> ~ owns v i n -> v' n = v n /\ ~ owns v' i' n;
  rw_disk : forall inum x, 0 <= inum < sb_ninodes sb ->
    load_dinode (v' (IBLOCK inum sb)) (dinode_off inum) x =
      if inum =? i_inum i then with_dinode (i_type i') (i_major i') (i_minor i') (i_nlink i') (i_size i') (i_addrs i') x
      else load_dinode (v (IBLOCK inum sb)) (dinode_off inum) x;
  rw_v_ok : v_ok sb v';
  rw_inode_ok : inode_ok sb v' i';
  rw_no_holes : no_holes v' i';
}.

Lemma rewritten_saved v v1 i i1 off r bs :
  let i' := with_isize (Z.max (i_size i) (off + r)) i1 in
  wrote v v1 i i1 off r bs -> v_ok sb v1 -> inode_ok sb v1 i1 -> no_holes v i -> dinode_typed i ->
  i_size i <= MAXFILE * BSIZE -> 0 <= off <= i_size i -> 0 <= r -> off + r <= MAXFILE * BSIZE ->
  0 <= i_inum i < sb_ninodes sb -> rewritten v (saved v1 i') i i' off r bs.
Proof.
  intros i' Hw Hv Hio Hnh Ht Hsz Hoff Hr Hle Hn. assert (HM : MAXFILE * BSIZE = 274432) by reflexivity.
  pose proof (wr_inode _ _ _ _ _ _ _ Hw) as Ei.
  assert (Ei' : i' = with_isize (Z.max (i_size i) (off + r)) (with_iaddrs (i_addrs i') i)) by (unfold i'; by rewrite Ei).
  assert (Hn' : 0 <= i_inum i' < sb_ninodes sb) by (by rewrite Ei').
  assert (Hio' : inode_ok sb v1 i') by (destruct Hio; by split).
  assert (Ht' : dinode_typed i').
  { destruct Ht as [H1 H2 H3 H4 H5 H6 H7]. rewrite Ei'. split; cbn; try done; [lia|by apply (inode_ok_addrs v1)|apply Hio']. }
  split; [done|..].
  - intros o Ho. rewrite saved_fbyte by done. by apply (wr_bytes _ _ _ _ _ _ _ Hw).
  - intros n Hd Hno. destruct (wr_other _ _ _ _ _ _ _ Hw n Hd Hno) as [E1 E2]. rewrite saved_data by (done || apply Hd).
    split; [done|]. intros [->|(k & Hk & E)]; apply E2; [by left|]. right. exists k. by rewrite saved_addr_of in E.
  - intros inum x Hin. rewrite saved_load by done. replace (i_inum i') with (i_inum i) by (by rewrite Ei').
    destruct (IBLOCK_ok _ Hin) as (Hb1 & Hb2 & _). destruct (inum =? i_inum i); [done|].
    by rewrite (wr_meta _ _ _ _ _ _ _ Hw) by (done || lia).
  - apply v_ok_saved; [done|apply Hio'|done].
  - by apply saved_inode_ok.
  - intros o Ho. rewrite Ei' in Ho. cbn in Ho. rewrite saved_addr_of by done.
    apply (wr_blocks _ _ _ _ _ _ _ Hw); [lia|]. destruct (Z_lt_dec o (i_size i)); [left; apply Hnh; lia|right; lia].
Qed.

Lemma rewritten_fbytes v v' i i' off r bs : rewritten v v' i i' off r bs ->
  0 <= off -> 0 <= r <= Z.of_nat (length bs) -> off + r <= MAXFILE * BSIZE -> fbytes v' i' off r = take (Z.to_nat r) bs.
Proof.
  intros Hrw Hoff Hr Hle. apply list_eq. intros k. destruct (decide (k < Z.to_nat r)%nat) as [Hk|Hk].
  - rewrite fbytes_lookup, lookup_take_lt, (rw_bytes _ _ _ _ _ _ _ Hrw) by lia. rewrite decide_True by lia.
    replace (Z.to_nat (off + Z.of_nat k - off)) with k by lia. rewrite nth_lookup.
    by destruct (lookup_lt_is_Some_2 bs k) as [x ->]; [lia|].
  - rewrite !lookup_ge_None_2; [done|..]; [rewrite length_take; lia|]. unfold fbytes. rewrite length_fmap, length_seqZ. lia.
Qed.

(** The size after the loop of [writei]. *)
Lemma extend_ok th f it v W ip i o : tx f sb it v W [] -> it !! ip = Some i ->
  wp (when (i_size i <? o) (upd_inode ip (with_isize o)))
    (fun _ th' f' => th' = th /\ tx f' sb (<[ip := with_isize (Z.max (i_size i) o) i]> it) v W []) th f.
Proof.
  intros Ht Hi. destruct (Z.ltb_spec (i_size i) o).
  - apply wp_unbind. eapply tx_upd_inode; [done|done|]. intros f' Ht'. apply wp_ret. by rewrite Z.max_r by lia.
  - apply wp_ret. rewrite Z.max_l by lia. split; [done|]. rewrite list_insert_id; [done|]. by destruct i.
Qed.

(** Whether [writei] refuses the request. *)
Definition write_refused (i : inode) (off n : Z) : bool := (i_size i <? off) || (MAXFILE * BSIZE <? off + n).

Lemma writei_guards i off n : is_u32 off -> is_u32 n ->
  ((i_size i <? off) || (u32 (off + n) <? off)) || (MAXFILE * BSIZE <? u32 (off + n)) = write_refused i off n.
Proof.
  intros Hoff Hn. unfold write_refused. rewrite <- orb_assoc. f_equal. change (MAXFILE * BSIZE) with 274432.
  unfold u32. destruct (Z_lt_dec (off + n) (2 ^ 32)).
  - rewrite Z.mod_small by lia. destruct (Z.ltb_spec (off + n) off); [lia|done].
  - replace ((off + n) mod 2 ^ 32) with (off + n - 2 ^ 32) by (Z.div_mod_to_equations; lia).
    rewrite (proj2 (Z.ltb_lt (off + n - 2 ^ 32) off)), (proj2 (Z.ltb_lt 274432 (off + n))) by lia. done.
Qed.

Lemma writei_ok R user_src src bs avail th f kk it v W ip i off :
  let n := Z.of_nat (length bs) in
  quiet th -> tx f sb it v W [] -> it !! ip = Some i -> i_dev i = dev -> 0 <= i_inum i < sb_ninodes sb ->
  v_ok sb v -> inode_ok sb v i -> dinode_typed i -> i_size i <= MAXFILE * BSIZE -> no_holes v i ->
  is_u32 off -> is_u32 n -> is_u64 src -> byte_list bs -> source R user_src src bs avail -> R kk ->
  (write_refused i off n = false -> cost sb W i (Z.to_nat (blocks_left off n 0) + 1)) ->
  wp (writei ip user_src src off n) (fun r th' s' => exists it' v' W', same_thread th th' /\ R (snd s') /\ tx (fst s') sb it' v' W' [] /\
    if write_refused i off n then r = -1 /\ it' = it /\ v' = v /\ W' = W
    else 0 <= r <= n /\ r <= Z.of_nat avail /\ (r < n -> full sb v' \/ Z.of_nat avail < r + piece off n r) /\
      exists i', it' = <[ip := i']> it /\ rewritten v v' i i' off r bs) th (f, kk).
Proof.
  intros n Hq Ht Hi Hd Hin Hv Hio Hty Hsz Hnh Hoff Hn Hsrc Hbs Hs HR Hc.
  assert (HB : BSIZE = 1024) by reflexivity. assert (HM : MAXFILE * BSIZE = 274432) by reflexivity.
  pose proof (dt_size _ Hty) as Hsz0.
  unfold writei. eapply fs_get_inode; [done|done|]. pose proof (writei_guards i off n Hoff Hn) as Hg.
  destruct ((i_size i <? off) || _); [rewrite <- Hg; apply wp_ret; by exists it, v, W|].
  destruct (_ <? _); [rewrite <- Hg; apply wp_ret; by exists it, v, W|].
  rewrite <- Hg in *. specialize (Hc eq_refl). cbn [orb] in Hg. unfold write_refused in Hg. symmetry in Hg.
  apply orb_false_iff in Hg as [Hg1%Z.ltb_ge Hg2%Z.ltb_ge]. apply wp_bind. eapply wp_mono.
  { pose proof (writei_loop_ok (Z.to_nat (n / BSIZE + 2)) R user_src src bs avail th f kk it v v W ip i i off 0) as Hl. cbn zeta in Hl. fold n in Hl.
    rewrite !Z.add_0_r, u64_id in Hl by lia. apply Hl; try done; try lia; [apply wrote_refl|].
    unfold blocks_left. destruct (0 <? n); rewrite HB; revert Hn Hoff; clear; intros; Z.div_mod_to_equations; lia. }
  intros ? th1 [f1 kk1] (Hth1 & HR1 & r & i1 & v1 & W1 & -> & Hr & Hav & Ht1 & Hv1 & Hio1 & Hw1 & Hc1 & Hfull). cbn [fst snd] in *.
  assert (Hi1 : <[ip := i1]> it !! ip = Some i1) by (by eapply lookup_insert_Some_eq).
  eapply fs_get_inode; [done|done|]. pose proof (wr_inode _ _ _ _ _ _ _ Hw1) as Ei.
  assert (Es : i_size i1 = i_size i) by (by rewrite Ei). set (i2 := with_isize (Z.max (i_size i) (off + r)) i1).
  pose proof (rewritten_saved v v1 i i1 off r bs Hw1 Hv1 Hio1 Hnh Hty ltac:(lia) ltac:(lia) ltac:(lia) ltac:(lia) Hin) as Hrw. fold i2 in Hrw.
  eapply fs_step; [by apply (extend_ok th1 f1 (<[ip := i1]> it) v1 W1 ip i1)|]. rewrite list_insert_insert_eq, Es. fold i2.
  intros _ ? f2 [-> Ht2]. assert (Hi2 : <[ip := i2]> it !! ip = Some i2) by (by eapply lookup_insert_Some_eq).
  pose proof (rw_inode _ _ _ _ _ _ _ Hrw) as Ei2.
  eapply fs_step; [eapply (iupdate_ok th1 f2 _ v1 W1 ip i2)|]; try done.
  - quiet_tac.
  - by rewrite Ei2.
  - apply Hio1.
  - by rewrite Ei2.
  - by apply (cost_fits_add _ i1).
  - intros _ th3 f3 [Hth3 Ht3]. apply wp_ret. eexists _, _, _. rewrite i32_id by lia. cbn [fst snd].
    split; [keep_thread|]. split; [done|]. split; [done|]. split; [lia|]. split; [lia|]. split; [|by exists i2].
    intros Hlt. destruct (Hfull Hlt) as [Hfu|]; [left|by right]. intros b Hb. rewrite saved_used by (done || by rewrite Ei2). by apply Hfu.
Qed.

(** C6: [writei] replaces a range of the file.  A request that starts beyond the end of the
    file, overflows 32 bits or passes the maximal file size returns -1 and changes nothing.
    Every other request that fits the transaction terminates having written the first [r]
    bytes of the source at [off]: the file's bytes are the old ones outside the range and
    the source's inside, its size is the maximum of the old size and the end of the range,
    the copy of the inode on the disk is up to date, and no block of another file and no
    other inode is touched.  [r] is less than [n] only when the disk is full, or when the next
    piece of the source, at most a block, cannot be copied in.  A copy that fails is assumed
    to fail before it has stored a byte, as [copyin] does when its first page is missing. *)
Theorem writei_replaces_range R user_src src bs avail th f kk it v W ip i off :
  let n := Z.of_nat (length bs) in
  quiet th -> tx f sb it v W [] -> it !! ip = Some i -> i_dev i = dev -> 0 <= i_inum i < sb_ninodes sb ->
  v_ok sb v -> inode_ok sb v i -> dinode_typed i -> i_size i <= MAXFILE * BSIZE -> no_holes v i ->
  is_u32 off -> is_u32 n -> is_u64 src -> byte_list bs -> source R user_src src bs avail -> R kk ->
  (write_refused i off n = false -> cost sb W i (Z.to_nat (blocks_left off n 0) + 1)) ->
  exists r th' f' kk' it' v' W', writei ip user_src src off n th (f, kk) = Ok r th' (f', kk') /\
    same_thread th th' /\ R kk' /\ tx f' sb it' v' W' [] /\
    if write_refused i off n then r = -1 /\ it' = it /\ v' = v /\ W' = W
    else 0 <= r <= n /\ r <= Z.of_nat avail /\ (r < n -> full sb v' \/ Z.of_nat avail < r + piece off n r) /\
      exists i', it' = <[ip := i']> it /\ rewritten v v' i i' off r bs.
Proof.
  intros n. intros. eapply wp_run; [by apply (writei_ok R user_src src bs avail th f kk it v W ip i off)|].
  intros r th' [f' kk'] E (it' & v' & W' & Hrest). by exists r, th', f', kk', it', v', W'.
Qed.

(** What was written is what is read.  After a [writei] that was not refused, [readi]
    of the range that was written returns its length and delivers the bytes of the source,
    and the inode, the blocks and the transaction are those the write left. *)
Theorem writei_readi_roundtrip R R2 user_src src user_dst dst bs th f kk it v W ip i off :
  let n := Z.of_nat (length bs) in
  quiet th -> tx f sb it v W [] -> it !! ip = Some i -> i_dev i = dev -> 0 <= i_inum i < sb_ninodes sb ->
  v_ok sb v -> inode_ok sb v i -> dinode_typed i -> i_size i <= MAXFILE * BSIZE -> no_holes v i ->
  is_u32 off -> is_u32 n -> is_u64 src -> is_u64 dst -> byte_list bs -> source R user_src src bs (length bs) -> R kk ->
  sink R2 user_dst dst n -> (forall k, R k -> R2 [] k) ->
  write_refused i off n = false -> cost sb W i (Z.to_nat (blocks_left off n 0) + 1) ->
  exists r th' f' kk', (let! r := writei ip user_src src off n in
      let! r' := readi ip user_dst dst off r in ret (r, r')) th (f, kk) = Ok (r, r) th' (f', kk') /\
    same_thread th th' /\ 0 <= r <= n /\ R2 (take (Z.to_nat r) bs) kk' /\
    exists i' v' W', tx f' sb (<[ip := i']> it) v' W' [] /\ rewritten v v' i i' off r bs /\ (r < n -> full sb v').
Proof.
  intros n Hq Ht Hi Hd Hin Hv Hio Hty Hsz Hnh Hoff Hn Hsrc Hdst Hbs Hs HR Hsk HR2 Hwr Hc.
  eapply (wp_run _ (fun rr th' s' => fst rr = snd rr /\ same_thread th th' /\ 0 <= fst rr <= n /\ R2 (take (Z.to_nat (fst rr)) bs) (snd s') /\
    exists i' v' W', tx (fst s') sb (<[ip := i']> it) v' W' [] /\ rewritten v v' i i' off (fst rr) bs /\ (fst rr < n -> full sb v'))).
  2:{ intros [r r'] th' [f' kk'] E (Er & Hrest). cbn [fst snd] in *. subst r'. by exists r, th', f', kk'. }
  apply wp_bind. eapply wp_mono; [by apply (writei_ok R user_src src bs (length bs) th f kk it v W ip i off)|].
  intros r th1 [f1 kk1] (it1 & v1 & W1 & Hth1 & HR1 & Ht1 & Hpost). fold n in Hpost. rewrite Hwr in Hpost.
  destruct Hpost as (Hr & _ & Hfull & i1 & -> & Hrw).
  assert (Hfull' : r < n -> full sb v1) by (intros Hlt; destruct (Hfull Hlt) as [?|Hx]; [done|unfold piece in Hx; lia]). pose proof Hrw as [Ei Hbytes _ _ Hv1 Hio1 Hnh1]. cbn [fst snd] in *.
  assert (HM : MAXFILE * BSIZE = 274432) by reflexivity. pose proof (dt_size _ Hty).
  apply orb_false_iff in Hwr as [Hw1%Z.ltb_ge Hw2%Z.ltb_ge].
  assert (Es : i_size i1 = Z.max (i_size i) (off + r)) by (by rewrite Ei).
  assert (Hrc : read_count i1 off r = r).
  { unfold read_count. rewrite Es. destruct (Z.ltb_spec (Z.max (i_size i) (off + r)) off); [lia|].
    destruct (Z.leb_spec (2 ^ 32) (off + r)); [lia|]. cbn. lia. }
  apply wp_bind. eapply wp_mono.
  { apply (readi_ok R2 user_dst dst th1 f1 kk1 (<[ip := i1]> it) v1 W1 ip i1 off r); try done; try lia; try quiet_tac.
    - by eapply lookup_insert_Some_eq.
    - by rewrite Ei.
    - apply mapped_read; done || lia.
    - eapply sink_le; [done|lia].
    - by apply HR2. }
  intros r' th2 [f2 kk2] (-> & Hth2 & Ht2 & HRr). rewrite Hrc in *. apply wp_ret. cbn [fst snd] in *.
  split; [done|]. split; [keep_thread|]. split; [done|]. split; [|by exists i1, v1, W1].
  by rewrite <- (rewritten_fbytes _ _ _ _ _ _ _ Hrw) by lia.
Qed.

End Runs.
End FileSpec.

(** ** A file on the disk of BallocSpec.v: its first block is 50, and it has two bytes. *)

Definition demo_inode : inode := mkInode 1 1 1 (mkSleeplock 1 1) 1 T_FILE 0 0 1 2 (50 :: replicate 12 0).

(** A process side made of the bytes to copy in and the bytes copied out. *)
#[local] Instance demo_env : FsEnv (list Z * list Z) := {
  env_copyout := fun _ _ bs th k => Ok 0 th (fst k, snd k ++ bs);
  env_copyin := fun _ src old th k =>
    if (Z.to_nat src + length old <=? length (fst k))%nat then Ok (0, take (length old) (drop (Z.to_nat src) (fst k))) th k
    else Ok (-1, old) th k;
  env_load := fun _ _ => fault "kernel stack";
  env_store := fun _ _ => fault "kernel stack";
  env_cwd := ret None;
}.

Lemma demo_source bs avail : (avail <= length bs)%nat -> Z.of_nat (length bs) < 2 ^ 64 ->
  source (fun k => k = (take avail bs, [])) 1 0 bs avail.
Proof.
  intros Ha Hl. split; intros o old th k -> Ho Hav; exists (take avail bs, []); cbn [env_copyin demo_env fst];
    rewrite Z.add_0_l, u64_id, Nat2Z.id, length_take, Nat.min_l by lia.
  - rewrite (proj2 (Nat.leb_le _ _) Hav). split; [|done]. do 2 f_equal. rewrite skipn_firstn_comm, take_take. f_equal. lia.
  - by rewrite (proj2 (Nat.leb_gt _ _) Hav).
Qed.

Lemma demo_sink bs n : sink (fun out k => k = (bs, out)) 1 0 n.
Proof. split. intros out bs' th k -> _. by exists (bs, out ++ bs'). Qed.

Lemma demo_inode_ok : inode_ok demo_sb demo_disk demo_inode.
Proof.
  assert (H0 : forall k, 0 <= k < MAXFILE -> addr_of demo_disk demo_inode k <> 0 -> k = 0 /\ addr_of demo_disk demo_inode k = 50).
  { assert (E : forallb (fun k => (addr_of demo_disk demo_inode k =? 0) || (k =? 0)) (seqZ 0 268) = true) by (vm_compute; reflexivity).
    intros k Hk Hne. pose proof (proj1 (forallb_forall _ _) E k ltac:(apply list_elem_of_In, elem_of_seqZ; change MAXFILE with 268 in Hk; lia)) as Ek.
    apply orb_true_iff in Ek as [Ek%Z.eqb_eq|Ek%Z.eqb_eq]; [done|]. by subst k. }
  split; [reflexivity|by intros []| |].
  - intros k Hk Hne. destruct (H0 k Hk Hne) as [_ ->]. by split; [split; [vm_compute; split; congruence|vm_compute]|].
  - intros k k' Hk Hk' Hne E. destruct (H0 k Hk Hne) as [-> _]. rewrite E in Hne. by destruct (H0 k' Hk' Hne) as [-> _].
Qed.

Lemma demo_no_holes : no_holes demo_disk demo_inode.
Proof. intros o Ho. cbn in Ho. assert (o / BSIZE = 0) as -> by (apply Z.div_small; change BSIZE with 1024; lia). done. Qed.

Lemma demo_inode_typed : dinode_typed demo_inode.
Proof. split; try done; try (cbn; lia). repeat constructor; lia. Qed.

Lemma readi_delivers_content_witness :
  exists th' f' kk', readi 0 1 0 1 5 demo_thread (demo_fs [demo_inode], ([] : list Z, [] : list Z)) = Ok 1 th' (f', kk').
Proof.
  destruct (readi_delivers_content demo_sb demo_sb_ok 1 1 demo_disk [] 2 30 ltac:(lia) (fun out k => k = ([], out)) 1 0 demo_thread
    (demo_fs [demo_inode]) ([] : list Z, [] : list Z) [demo_inode] demo_disk ∅ 0 demo_inode 1 5) as (th' & f' & kk' & E & _).
  - exact demo_quiet.
  - exact (demo_tx _).
  - reflexivity.
  - reflexivity.
  - exact demo_v_ok.
  - exact demo_inode_ok.
  - cbn. change (MAXFILE * BSIZE) with 274432. lia.
  - exact demo_no_holes.
  - lia.
  - lia.
  - apply demo_sink.
  - reflexivity.
  - lia.
  - exists th', f', kk'. exact E.
Defined.

Lemma writei_replaces_range_witness :
  exists r th' s', writei 0 1 0 1 3 demo_thread (demo_fs [demo_inode], ([1; 2], [])) = Ok r th' s' /\ 0 <= r <= 2.
Proof.
  destruct (writei_replaces_range demo_sb demo_sb_ok 1 1 demo_disk [] 2 30 ltac:(lia) (fun k => k = ([1; 2], [])) 1 0 [1; 2; 3] 2 demo_thread
    (demo_fs [demo_inode]) ([1; 2], []) [demo_inode] demo_disk ∅ 0 demo_inode 1)
    as (r & th' & f' & kk' & it' & v' & W' & E & _ & _ & _ & Hr & Hav & _).
  - exact demo_quiet.
  - exact (demo_tx _).
  - reflexivity.
  - reflexivity.
  - cbn. lia.
  - exact demo_v_ok.
  - exact demo_inode_ok.
  - exact demo_inode_typed.
  - cbn. change (MAXFILE * BSIZE) with 274432. lia.
  - exact demo_no_holes.
  - lia.
  - cbn. lia.
  - lia.
  - repeat constructor; lia.
  - apply (demo_source [1; 2; 3] 2); cbn; lia.
  - reflexivity.
  - intros _. unfold cost. vm_compute. lia.
  - exists r, th', (f', kk'). split; [exact E|]. cbn in Hav. lia.
Defined.

Lemma writei_readi_roundtrip_witness :
  exists r th' s', (let! r := writei 0 1 0 1 3 in let! r' := readi 0 1 0 1 r in ret (r, r'))
    demo_thread (demo_fs [demo_inode], ([1; 2; 3], [])) = Ok (r, r) th' s' /\ snd (snd s') = take (Z.to_nat r) [1; 2; 3].
Proof.
  destruct (writei_readi_roundtrip demo_sb demo_sb_ok 1 1 demo_disk [] 2 30 ltac:(lia) (fun k => k = ([1; 2; 3], []))
    (fun out k => k = ([1; 2; 3], out)) 1 0 1 0 [1; 2; 3] demo_thread
    (demo_fs [demo_inode]) ([1; 2; 3], []) [demo_inode] demo_disk ∅ 0 demo_inode 1)
    as (r & th' & f' & kk' & E & _ & _ & Hk & _).
  - exact demo_quiet.
  - exact (demo_tx _).
  - reflexivity.
  - reflexivity.
  - cbn. lia.
  - exact demo_v_ok.
  - exact demo_inode_ok.
  - exact demo_inode_typed.
  - cbn. change (MAXFILE * BSIZE) with 274432. lia.
  - exact demo_no_holes.
  - lia.
  - cbn. lia.
  - lia.
  - lia.
  - repeat constructor; lia.
  - apply (demo_source [1; 2; 3] 3); cbn; lia.
  - reflexivity.
  - apply demo_sink.
  - intros k ->. reflexivity.
  - reflexivity.
  - unfold cost. vm_compute. lia.
  - exists r, th', (f', kk'). split; [exact E|]. by rewrite Hk.
Defined.
