(* ===== verification/InodeTable.v ===== *)
(** * The table of in-memory inodes (kernel/fs.c: [iget], [iput], [ilock], [iunlock])

    The table is a cache: an inode in use has exactly one entry, which all its users
    share, and an inode that is put away and fetched again comes back from the disk as it
    was left. *)

From S2P Require Import Prelude Layout Memory Bytes Sleeplock BlockCache Bio BioSpec Log Storage FsState Txn Balloc BallocSpec Inode InodeSpec FileSpec.

(** An entry in use for inode [inum] of device [dev]. *)
Definition entry_for (dev inum : Z) (i : inode) : bool := (0 <? i_ref i) && (i_dev i =? dev) && (i_inum i =? inum).

Record itable_ok (it : list inode) : Prop := mkItableOk {
  itb_ref : forall k i, it !! k = Some i -> is_i32 (i_ref i) /\ 0 <= i_ref i;
  itb_unique : forall k k' i i', it !! k = Some i -> it !! k' = Some i' -> 0 < i_ref i ->
    entry_for (i_dev i) (i_inum i) i' = true -> k = k';
}.

Lemma entry_for_true dev inum i : entry_for dev inum i = true <-> 0 < i_ref i /\ i_dev i = dev /\ i_inum i = inum.
Proof. unfold entry_for. rewrite !andb_true_iff, Z.ltb_lt, !Z.eqb_eq. tauto. Qed.

Lemma iget_scan_inl l n dev inum e k : iget_scan l n dev inum e = inl k ->
  exists j i, k = (n + j)%nat /\ l !! j = Some i /\ entry_for dev inum i = true.
Proof.
  revert n e. induction l as [|i l IH]; intros n e; cbn [iget_scan]; [done|]. fold (entry_for dev inum i).
  destruct (entry_for dev inum i) eqn:E.
  - intros [= <-]. exists 0%nat, i. split; [lia|done].
  - intros (j & i' & -> & Hl & Hi')%IH. exists (Datatypes.S j), i'. split; [lia|done].
Qed.

Lemma iget_scan_inr l n dev inum e r : iget_scan l n dev inum e = inr r ->
  Forall (fun i => entry_for dev inum i = false) l /\
  match e with
  | Some _ => r = e
  | None =>
      match r with
      | Some k => exists j i, k = (n + j)%nat /\ l !! j = Some i /\ i_ref i = 0
      | None => Forall (fun i => i_ref i <> 0) l
      end
  end.
Proof.
  revert n e. induction l as [|i l IH]; intros n e; cbn [iget_scan].
  { intros [= <-]. by destruct e. }
  fold (entry_for dev inum i). destruct (entry_for dev inum i) eqn:E; [done|]. intros [Ha Hr]%IH. split; [by constructor|].
  destruct e as [e|]; [done|]. destruct (Z.eqb_spec (i_ref i) 0) as [H0|H0].
  - subst r. exists 0%nat, i. split; [lia|done].
  - destruct r as [k|]; [|by constructor]. destruct Hr as (j & i' & -> & Hl & Hi'). exists (Datatypes.S j), i'. split; [lia|done].
Qed.

(** An entry replaced by one for an inode that no other entry in use is for. *)
Lemma itable_ok_insert it k i :
  itable_ok it -> is_i32 (i_ref i) -> 0 <= i_ref i ->
  (forall k' i', it !! k' = Some i' -> k' <> k -> 0 < i_ref i -> entry_for (i_dev i) (i_inum i) i' = false) ->
  itable_ok (<[k := i]> it).
Proof.
  intros [H1 H2] Hr Hr0 Hu. split.
  - intros k' i' [(-> & -> & _)|[_ Hl]]%list_lookup_insert_Some; [done|]. by apply (H1 k').
  - intros k1 k2 i1 i2 [(-> & -> & _)|[Hn1 Hl1]]%list_lookup_insert_Some [(-> & -> & _)|[Hn2 Hl2]]%list_lookup_insert_Some Hp He; try done.
    + rewrite (Hu k2 i2) in He by (done || lia). done.
    + apply entry_for_true in He as (He1 & He2 & He3). specialize (Hu k1 i1 Hl1 ltac:(done) ltac:(lia)).
      rewrite He2, He3 in Hu. assert (entry_for (i_dev i1) (i_inum i1) i1 = true) by (by apply entry_for_true). congruence.
    + by eapply H2.
Qed.

Section InodeTable.
Context {S : Type} {BC : BlockCache S}.
Notation F := (fsys S).

(** C25: an inode has one entry.  [iget] of a table in which no two entries in use are for
    the same inode takes one more reference to the entry of the inode when there is one;
    otherwise it turns an unused entry into one for the inode, not yet valid and with one
    reference; and it stops the kernel only when all entries are in use and none is for the
    inode.  Nothing else changes, and the table afterwards has again one entry per inode. *)
Theorem iget_unique_entry (dev inum : Z) th (s : F) :
  LkItable ∉ th_held th -> itable_ok (f_inode s) -> (forall i, i ∈ f_inode s -> i_ref i < 2 ^ 31 - 1) ->
  match iget dev inum th s with
  | Ok k th' s' => th' = th /\ exists i i', f_inode s !! k = Some i /\ s' = set_inodes (<[k := i']> (f_inode s)) s /\
      (if entry_for dev inum i then i' = with_iref (i_ref i + 1) i
       else i' = recycled_inode dev inum i /\ i_ref i = 0 /\ Forall (fun j => entry_for dev inum j = false) (f_inode s)) /\
      itable_ok (f_inode s')
  | Panic _ => Forall (fun i => i_ref i <> 0 /\ entry_for dev inum i = false) (f_inode s)
  | _ => False
  end.
Proof.
  intros Hlk Hok Hmax. unfold iget. rewrite (bind_ok _ _ _ _ _ _ _ (acquire_ok LkItable th s Hlk)). unfold gets, bind at 1.
  destruct (iget_scan _ _ _ _ _) as [k|r] eqn:E.
  - apply iget_scan_inl in E as (j & i & -> & Hl & Hi). cbn [Nat.add]. unfold bind, upd_inode. rewrite Hl.
    rewrite release_acquired by done. cbn [ret]. split; [done|]. pose proof Hi as (Hp & Hd & Hn)%entry_for_true.
    pose proof (Hmax i ltac:(by eapply list_elem_of_lookup_2)) as Hm. rewrite i32_id by lia.
    eexists i, _. split; [done|]. split; [done|]. rewrite Hi. split; [done|]. apply itable_ok_insert; try done; cbn; try lia.
    intros k' i' Hl' Hne _. destruct (entry_for (i_dev i) (i_inum i) i') eqn:E; [|done]. by destruct Hne; rewrite (itb_unique _ Hok j k' i i' Hl Hl' Hp E).
  - apply iget_scan_inr in E as [Hall Hr]. destruct r as [k|]; [|by apply Forall_and].
    destruct Hr as (j & i & -> & Hl & Hi). cbn [Nat.add]. unfold bind, upd_inode. rewrite Hl.
    rewrite release_acquired by done. cbn [ret]. split; [done|]. assert (He : entry_for dev inum i = false) by (by eapply Forall_lookup_1 in Hall).
    eexists i, _. split; [done|]. split; [done|]. rewrite He. split; [done|]. apply itable_ok_insert; try done; cbn; try lia.
    intros k' i' Hl' _ _. by eapply Forall_lookup_1 in Hall.
Qed.

Lemma iget_miss (dev inum : Z) th (s : F) :
  LkItable ∉ th_held th -> Forall (fun i => entry_for dev inum i = false) (f_inode s) ->
  (exists i, i ∈ f_inode s /\ i_ref i = 0) ->
  exists k i, f_inode s !! k = Some i /\ i_ref i = 0 /\
    iget dev inum th s = Ok k th (set_inodes (<[k := recycled_inode dev inum i]> (f_inode s)) s).
Proof.
  intros Hlk Hall (i0 & (k0 & Hk0)%list_elem_of_lookup & H0). unfold iget.
  rewrite (bind_ok _ _ _ _ _ _ _ (acquire_ok LkItable th s Hlk)). unfold gets, bind at 1.
  destruct (iget_scan _ _ _ _ _) as [k|r] eqn:E.
  - apply iget_scan_inl in E as (j & i & -> & Hl & Hi). eapply Forall_lookup_1 in Hall; [|done]. cbn in Hall. congruence.
  - apply iget_scan_inr in E as [_ Hr]. destruct r as [k|]; [|by eapply Forall_lookup_1 in Hr].
    destruct Hr as (j & i & -> & Hl & Hi). cbn [Nat.add]. exists j, i. split; [done|]. split; [done|].
    unfold bind, upd_inode. rewrite Hl. by rewrite release_acquired.
Qed.

(** [iunlockput] of an inode that the process has locked, with a link on the disk. *)
Lemma iunlockput_ok th (s : F) ip i :
  LkItable ∉ th_held th -> LkInode ip ∉ th_held th -> f_inode s !! ip = Some i -> 1 <= i_ref i -> is_i32 (i_ref i) ->
  i_lock i = mkSleeplock 1 (th_pid th) -> i_nlink i <> 0 ->
  exists th', same_thread th th' /\
    iunlockput ip th s = Ok tt th' (set_inodes (<[ip := with_iref (i_ref i - 1) (with_ilock initsleeplock i)]> (f_inode s)) s).
Proof.
  intros Hlk Hlk2 Hi Href Hr32 Hl Hnl. exists (woke (ChInodeLock ip) th). split; [apply same_thread_woke|].
  unfold iunlockput, iunlock. set (s1 := set_inodes (<[ip := i]> (f_inode s)) s).
  assert (Hi1 : f_inode s1 !! ip = Some i) by (cbn; by eapply lookup_insert_Some_eq).
  assert (E1 : inode_lock ip (holdingsleep (LkInode ip)) th s = Ok true th s1).
  { unfold inode_lock. rewrite Hi, holdingsleep_ok by done. rewrite Hl. cbn. rewrite Z.eqb_refl. unfold s1. by destruct i; cbn in *; subst. }
  set (i2 := with_ilock initsleeplock i). set (th1 := woke (ChInodeLock ip) th). set (s2 := set_inodes (<[ip := i2]> (f_inode s)) s).
  assert (E2 : inode_lock ip (releasesleep (LkInode ip) (ChInodeLock ip)) th s1 = Ok tt th1 s2).
  { unfold inode_lock. rewrite Hi1, releasesleep_ok by done. unfold s1, s2, set_inodes. cbn. by rewrite list_insert_insert_eq. }
  assert (Hi2 : f_inode s2 !! ip = Some i2) by (cbn; by eapply lookup_insert_Some_eq).
  assert (E3 : iput ip th1 s2 = Ok tt th1 (set_inodes (<[ip := with_iref (i_ref i - 1) i2]> (f_inode s)) s)).
  { unfold iput. rewrite (bind_ok _ _ _ _ _ _ _ (acquire_ok LkItable th1 s2 Hlk)). unfold bind, get_inode, upd_inode. rewrite Hi2.
    change (i_nlink i2) with (i_nlink i). destruct (Z.eqb_spec (i_nlink i) 0); [done|]. rewrite andb_false_r. cbn [when ret]. rewrite Hi2.
    rewrite release_acquired by done. change (i_ref i2) with (i_ref i). rewrite i32_id by lia. unfold s2, set_inodes. cbn.
    by rewrite list_insert_insert_eq. }
  unfold bind. rewrite E1. unfold get_inode. rewrite Hi1. destruct (Z.ltb_spec (i_ref i) 1); [lia|]. cbn [orb negb when ret].
  by rewrite E2, E3.
Qed.

End InodeTable.

Section Reload.
Context (sb : superblock) (Hsb : sb_ok sb).
Context {S : Type} {BC : BlockCache S} {BCS : BlockCacheSpec S}.
Context (me dev : Z) (base : blocks) (w : list (Z * block)) (start nlog : Z).
Notation F := (fsys S).
Notation tx := (tx me dev base w start nlog).
Notation quiet := (quiet me).

Lemma tx_inodes (f : F) it it' v W H : tx f sb it v W H -> tx (set_inodes it' f) sb it' v W H.
Proof. intros Ht. destruct Ht. by split. Qed.

(** C26: the disk remembers the inode.  A process that holds the only reference to an inode
    that is still linked writes it back with [iupdate], unlocks and puts it away; a later [iget] and [ilock] of
    the same inode number, in whatever entry they find for it, give an inode with the same
    type, device numbers, link count, size and block addresses, valid and locked by the
    process. *)
Theorem iupdate_reload_roundtrip th (f : F) it v W ip i :
  quiet th -> LkItable ∉ th_held th -> (forall k, LkInode k ∉ th_held th) ->
  tx f sb it v W [] -> v_ok sb v -> itable_ok it ->
  (forall k j, it !! k = Some j -> i_ref j = 0 -> sl_locked (i_lock j) = 0) ->
  it !! ip = Some i -> i_dev i = dev -> 0 <= i_inum i < sb_ninodes sb -> dinode_typed i ->
  i_ref i = 1 -> i_lock i = mkSleeplock 1 (th_pid th) -> i_nlink i <> 0 -> i_type i <> 0 ->
  fits ({[IBLOCK (i_inum i) sb]} ∪ W) ->
  exists jp th' f' it' j, (iupdate ip;;; iunlockput ip;;;
      let! jp := iget (i_dev i) (i_inum i) in ilock (Some jp);;; ret jp) th f = Ok jp th' f' /\ same_thread th th' /\
    tx f' sb it' (saved sb v i) ({[IBLOCK (i_inum i) sb]} ∪ W) [] /\ it' !! jp = Some j /\
    j = mkInode (i_dev i) (i_inum i) 1 (mkSleeplock 1 (th_pid th)) 1
          (i_type i) (i_major i) (i_minor i) (i_nlink i) (i_size i) (i_addrs i).
Proof.
  intros Hq Hit Hin Ht Hv Hok Hun Hi Hd Hn Hty Href Hl Hnl Htype Hf.
  eapply (wp_run _ (fun jp th' f' => exists it' j, same_thread th th' /\ tx f' sb it' (saved sb v i) ({[IBLOCK (i_inum i) sb]} ∪ W) [] /\
    it' !! jp = Some j /\ j = mkInode (i_dev i) (i_inum i) 1 (mkSleeplock 1 (th_pid th)) 1
          (i_type i) (i_major i) (i_minor i) (i_nlink i) (i_size i) (i_addrs i))).
  2:{ intros jp th' f' E (it' & j & H1 & H2 & H3). by exists jp, th', f', it', j. }
  apply wp_bind. eapply wp_mono; [apply (iupdate_ok sb Hsb me dev base w start nlog th f it v W ip i); try done; apply Hty|].
  intros _ th1 f1 [Hth1 Ht1]. pose proof Hth1 as (Eh & _ & Ep). pose proof (tx_it _ _ _ _ _ _ _ _ _ _ _ _ Ht1) as Eit.
  destruct (iunlockput_ok th1 f1 ip i) as (th2 & Hth2 & E2); try done; try (by rewrite Eh); try lia; [by rewrite Eit|by rewrite Ep|].
  set (i2 := with_iref (i_ref i - 1) (with_ilock initsleeplock i)) in *. rewrite Eit in E2. set (it2 := <[ip := i2]> it) in *.
  eapply wp_bind, wp_eq; [exact E2|]. pose proof (tx_inodes f1 it it2 _ _ _ Ht1) as Ht2. pose proof Hth2 as (Eh2 & _ & Ep2).
  assert (Hi2 : it2 !! ip = Some i2) by (by eapply lookup_insert_Some_eq). assert (Hi20 : i_ref i2 = 0) by (cbn; lia).
  destruct (iget_miss (i_dev i) (i_inum i) th2 (set_inodes it2 f1)) as (jp & j0 & Hj0 & Hr0 & E3).
  { by rewrite Eh2, Eh. }
  { apply Forall_lookup. intros k j [(-> & -> & _)|[Hne Hk]]%list_lookup_insert_Some; [unfold entry_for; by rewrite Hi20|].
    destruct (entry_for _ _ j) eqn:E; [|done]. destruct Hne. apply (itb_unique _ Hok ip k i j Hi Hk); [lia|done]. }
  { exists i2. split; [by eapply list_elem_of_lookup_2|done]. }
  eapply wp_bind, wp_eq; [exact E3|]. cbn [set_inodes f_inode] in Hj0 |- *. set (j1 := recycled_inode (i_dev i) (i_inum i) j0).
  pose proof (tx_inodes _ _ (<[jp := j1]> it2) _ _ _ Ht2) as Ht3.
  assert (Hload : forall x, load_dinode (saved sb v i (IBLOCK (i_inum j1) sb)) (dinode_off (i_inum j1)) x =
    with_dinode (i_type i) (i_major i) (i_minor i) (i_nlink i) (i_size i) (i_addrs i) x).
  { intros x. cbn [i_inum j1 recycled_inode]. rewrite (saved_load sb Hsb v i Hn) by done. by rewrite Z.eqb_refl. }
  apply wp_bind. eapply wp_mono.
  - apply (ilock_ok sb Hsb me dev base w start nlog th2 _ (<[jp := j1]> it2) (saved sb v i) ({[IBLOCK (i_inum i) sb]} ∪ W) jp j1); try done.
    + quiet_tac.
    + by eapply lookup_insert_Some_eq.
    + apply list_lookup_insert_Some in Hj0 as [(-> & <- & _)|[_ Hk]]; [done|]. by apply (Hun jp j0).
    + by rewrite Eh2, Eh.
    + by rewrite Hload.
  - intros _ th4 f4 [Hth4 Ht4]. apply wp_ret. eexists _, _. split; [keep_thread|]. split; [exact Ht4|].
    split; [eapply lookup_insert_Some_eq; by eapply lookup_insert_Some_eq|]. rewrite Hload, Ep2, Ep. done.
Qed.

End Reload.

(** ** One inode, in the second of two entries *)

Definition demo_free : inode := mkInode 0 0 0 initsleeplock 0 0 0 0 0 0 (replicate 13 0).

Lemma demo_itable_ok : itable_ok [demo_free; demo_inode].
Proof.
  split.
  - intros [|[|k]] i Hk; cbn in Hk; simplify_eq; cbn; lia.
  - intros [|[|k]] [|[|k']] i i' Hk Hk' Hp He; cbn in Hk, Hk'; simplify_eq; try done; cbn in Hp; lia.
Qed.

Lemma iget_unique_entry_witness : exists th' s', iget 1 1 demo_thread (demo_fs [demo_free; demo_inode]) = Ok 1%nat th' s'.
Proof.
  pose proof (iget_unique_entry 1 1 demo_thread (demo_fs [demo_free; demo_inode])) as H.
  destruct (iget 1 1 demo_thread (demo_fs [demo_free; demo_inode])) as [k th' s'| | | |] eqn:E;
    try (exfalso; discriminate E).
  exists th', s'. destruct H as (-> & i & i' & Hk & _ & Hi & _).
  - apply not_elem_of_nil.
  - exact demo_itable_ok.
  - intros i Hi. apply list_elem_of_In in Hi as [<-|[<-|[]]]; cbn; lia.
  - destruct k as [|[|k]]; [|reflexivity|discriminate Hk]. injection Hk as <-. cbn in Hi. destruct Hi as (_ & _ & Hf).
    inversion Hf as [|? ? _ Hf']. inversion Hf'. discriminate.
Defined.

Lemma iupdate_reload_roundtrip_witness :
  exists jp th' f', (iupdate 1;;; iunlockput 1;;; let! jp := iget 1 1 in ilock (Some jp);;; ret jp)
    demo_thread (demo_fs [demo_free; demo_inode]) = Ok jp th' f'.
Proof.
  destruct (iupdate_reload_roundtrip demo_sb demo_sb_ok 1 1 demo_disk [] 2 30 demo_thread (demo_fs [demo_free; demo_inode])
    [demo_free; demo_inode] demo_disk ∅ 1 demo_inode) as (jp & th' & f' & it' & j & E & _).
  - exact demo_quiet.
  - apply not_elem_of_nil.
  - intros k. apply not_elem_of_nil.
  - exact (demo_tx _).
  - exact demo_v_ok.
  - exact demo_itable_ok.
  - intros [|[|k]] j Hk Hr; cbn in Hk; simplify_eq; done.
  - reflexivity.
  - reflexivity.
  - cbn. lia.
  - exact demo_inode_typed.
  - reflexivity.
  - reflexivity.
  - done.
  - done.
  - unfold fits. vm_compute. lia.
  - exists jp, th', f'. exact E.
Defined.
