(* ===== verification/Dir.v ===== *)
(** * Directories and path names (kernel/fs.c: [namecmp] to [nameiparent])

    A [char name[DIRSIZ]] is the list of its bytes; a path is the list of the bytes
    before its NUL, so that a pointer into it is a suffix.  The local [struct dirent de]
    lies in the kernel's memory at [de_addr], where [readi] and [writei] copy it. *)

From S2P Require Import Prelude Layout Memory Bytes Sleeplock BlockCache Log FsState Balloc Inode.

(** The routines of kernel/string.c on arrays, laid out side by side. *)
Definition array_strncmp (p q : list Z) (n : Z) : Z :=
  strncmp (mput (mput ∅ 0 p) (Z.of_nat (length p)) q) 0 (Z.of_nat (length p)) n.
Definition array_strncpy (dst src : list Z) (n : Z) : list Z :=
  bytes (strncpy (mput (mput ∅ 0 src) (Z.of_nat (length src)) dst) (Z.of_nat (length src)) 0 n)
    (Z.of_nat (length src)) (length dst).

Definition namecmp (s t : list Z) : Z := array_strncmp s t DIRSIZ.

Definition slash : Z := 47.

(** [while ( *path == '/') path++;] *)
Fixpoint skip_slashes (path : list Z) : list Z :=
  match path with
  | c :: p => if c =? slash then skip_slashes p else path
  | [] => []
  end.
(** [while ( *path != '/' && *path != 0) path++;]: the characters passed and the rest. *)
Fixpoint element (path : list Z) : list Z * list Z :=
  match path with
  | c :: p => if c =? slash then ([], path) else let '(e, r) := element p in (c :: e, r)
  | [] => ([], [])
  end.

(** [None] is the null pointer; otherwise the rest of the path and the array [name]. *)
Definition skipelem (path name : list Z) : option (list Z * list Z) :=
  match skip_slashes path with
  | [] => None
  | s =>
      let '(e, path) := element s in
      let len := Z.of_nat (length e) in
      let name :=
        if len >=? DIRSIZ then take (Z.to_nat DIRSIZ) e ++ drop (Z.to_nat DIRSIZ) name
        else e ++ 0 :: drop (length e + 1) name in
      Some (skip_slashes path, name)
  end.

Section Dir.
Context {S : Type} `{BC : BlockCache S} {K : Type} `{EN : FsEnv K}.
Context (de_addr : Z).
Notation F := (fsys S).

(** The loops over the entries of a directory from [off] on: [dirlookup] stops at the
    entry with the name, [dirlink] at a free one. *)
Fixpoint dirlookup_from (fuel : nat) (dp : nat) (name : list Z) (off : Z) : M (F * K) (option (nat * Z)) :=
  let! i := fs (get_inode dp) in
  if off <? i_size i then
    match fuel with
    | O => diverge
    | Datatypes.S fuel' =>
        let! r := readi dp 0 de_addr off DIRENT_SIZE in
        when (negb (r =? DIRENT_SIZE)) (panic "dirlookup read");;;
        let! de := env (env_load de_addr (Z.to_nat DIRENT_SIZE)) in
        if get16 de 0 =? 0 then dirlookup_from fuel' dp name (u32 (off + DIRENT_SIZE))
        else if namecmp name (drop 2 de) =? 0 then
          let! ip := fs (iget (i_dev i) (get16 de 0)) in
          ret (Some (ip, off))
        else dirlookup_from fuel' dp name (u32 (off + DIRENT_SIZE))
    end
  else ret None.

(** The result is the inode and the offset that goes to [*poff]. *)
Definition dirlookup (dp : nat) (name : list Z) : M (F * K) (option (nat * Z)) :=
  let! i := fs (get_inode dp) in
  when (negb (i_type i =? T_DIR)) (panic "dirlookup not DIR");;;
  dirlookup_from (Z.to_nat (i_size i / DIRENT_SIZE + 1)) dp name 0.

Fixpoint free_dirent (fuel : nat) (dp : nat) (off : Z) : M (F * K) Z :=
  let! i := fs (get_inode dp) in
  if u32 off <? i_size i then
    match fuel with
    | O => diverge
    | Datatypes.S fuel' =>
        let! r := readi dp 0 de_addr (u32 off) DIRENT_SIZE in
        when (negb (r =? DIRENT_SIZE)) (panic "dirlink read");;;
        let! de := env (env_load de_addr (Z.to_nat DIRENT_SIZE)) in
        if get16 de 0 =? 0 then ret off
        else free_dirent fuel' dp (i32 (off + DIRENT_SIZE))
    end
  else ret off.

Definition dirlink (dp : nat) (name : list Z) (inum : Z) : M (F * K) Z :=
  let! l := dirlookup dp name in
  match l with
  | Some (ip, _) => fs (iput ip);;; ret (-1)
  | None =>
      let! i := fs (get_inode dp) in
      let! off := free_dirent (Z.to_nat (i_size i / DIRENT_SIZE + 1)) dp 0 in
      let! de := env (env_load de_addr (Z.to_nat DIRENT_SIZE)) in
      env (env_store de_addr (le_bytes 2 inum ++ array_strncpy (drop 2 de) name DIRSIZ));;;
      let! r := writei dp 0 de_addr (u32 off) DIRENT_SIZE in
      if negb (r =? DIRENT_SIZE) then ret (-1) else ret 0
  end.

(** The loop of [namex] at inode [ip]; it returns the inode and the array [name]. *)
Fixpoint namex_from (fuel : nat) (ip : nat) (path : list Z) (nameiparent : Z) (name : list Z)
    : M (F * K) (option nat * list Z) :=
  match skipelem path name with
  | Some (path, name) =>
      match fuel with
      | O => diverge
      | Datatypes.S fuel' =>
          fs (ilock (Some ip));;;
          let! i := fs (get_inode ip) in
          if negb (i_type i =? T_DIR) then fs (iunlockput ip);;; ret (None, name)
          else if ctrue nameiparent && bool_decide (path = []) then
            fs (iunlock (Some ip));;; ret (Some ip, name)
          else
            let! next := dirlookup ip name in
            match next with
            | None => fs (iunlockput ip);;; ret (None, name)
            | Some (next, _) =>
                fs (iunlockput ip);;;
                namex_from fuel' next path nameiparent name
            end
      end
  | None =>
      if ctrue nameiparent then fs (iput ip);;; ret (None, name)
      else ret (Some ip, name)
  end.

Definition namex (path : list Z) (nameiparent : Z) (name : list Z) : M (F * K) (option nat * list Z) :=
  let! ip :=
    (if bool_decide (head path = Some slash) then fs (iget ROOTDEV ROOTINO)
     else let! cwd := env env_cwd in
          let! cwd := deref "myproc()->cwd" cwd in
          fs (idup cwd)) in
  namex_from (length path) ip path nameiparent name.

(** [name] is uninitialised in [namei]; its contents do not matter. *)
Definition namei (path : list Z) : M (F * K) (option nat) :=
  let! r := namex path 0 (replicate (Z.to_nat DIRSIZ) 0) in
  ret (fst r).

Definition nameiparent (path name : list Z) : M (F * K) (option nat * list Z) :=
  namex path 1 name.

End Dir.
