(* ===== verification/DirSpec.v ===== *)
(** * A directory is a map from names to inodes

    [dirlookup] finds the first entry with a name, [dirlink] writes an entry into the
    first free place or behind the last one: together they are lookup and insertion of a
    finite map.  The local [struct dirent de] of the two functions is any memory that
    keeps the contract [de_buf]. *)

From S2P Require Import Prelude Layout Memory Bytes Sleeplock BlockCache Bio BioSpec Log Storage FsState Txn Balloc BallocSpec Inode InodeSpec FileSpec InodeTable Dir.

(** ** Names *)

(** The name in an array of [DIRSIZ] characters, or in a shorter string with its NUL. *)
Definition name_of (l : list Z) : list Z := until_nul (take (Z.to_nat DIRSIZ) l).
Definition is_name (l : list Z) : Prop := byte_list l /\ ((Z.to_nat DIRSIZ <= length l)%nat \/ 0 ∈ l).

Lemma until_nul_cut l r : 0 ∈ l -> until_nul (l ++ r) = until_nul l.
Proof.
  induction l as [|c l IH]; intros H; [by apply elem_of_nil in H|]. cbn. destruct (Z.eqb_spec c 0); [done|].
  apply elem_of_cons in H as [H|H]; [congruence|]. by rewrite IH.
Qed.

(** Two arrays side by side in memory. *)
Lemma bytes_first p q : byte_list p -> bytes (mput (mput ∅ 0 p) (Z.of_nat (length p)) q) 0 (length p) = p.
Proof.
  intros Hp. apply (list_eq_same_length _ _ (length p)); rewrite ?length_bytes; try done. intros j x y Hj.
  rewrite bytes_lookup by done. intros [= <-] Hy. rewrite !mget_mput. zbool. replace (Z.to_nat (0 + Z.of_nat j - 0)) with j by lia.
  rewrite Hy. cbn. apply u8_id. by apply (Forall_lookup_1 _ _ _ _ Hp Hy).
Qed.

Lemma bytes_second p q : byte_list q -> bytes (mput (mput ∅ 0 p) (Z.of_nat (length p)) q) (Z.of_nat (length p)) (length q) = q.
Proof.
  intros Hq. apply (list_eq_same_length _ _ (length q)); rewrite ?length_bytes; try done. intros j x y Hj.
  rewrite bytes_lookup by done. intros [= <-] Hy. rewrite mget_mput. zbool. replace (Z.to_nat (_ + Z.of_nat j - _)) with j by lia.
  rewrite Hy. cbn. apply u8_id. by apply (Forall_lookup_1 _ _ _ _ Hq Hy).
Qed.

Lemma bytes_take m a n k : (k <= n)%nat -> bytes m a k = take k (bytes m a n).
Proof. intros H. replace n with (k + (n - k))%nat by lia. by rewrite bytes_app, take_app_length' by (by rewrite length_bytes). Qed.

Lemma bytes_name p q : is_name p -> until_nul (bytes (mput (mput ∅ 0 p) (Z.of_nat (length p)) q) 0 (Z.to_nat DIRSIZ)) = name_of p.
Proof.
  intros [Hp Hl]. unfold name_of. set (n := Z.to_nat DIRSIZ) in *. destruct (decide (n <= length p)%nat) as [Hge|Hlt].
  - by rewrite (bytes_take _ _ (length p) n), bytes_first.
  - destruct Hl as [?|H0]; [lia|]. replace n with (length p + (n - length p))%nat at 1 by lia.
    rewrite bytes_app, bytes_first, until_nul_cut by done. by rewrite take_ge by lia.
Qed.

(** [namecmp] compares the names. *)
Lemma namecmp_name s t : is_name s -> byte_list t -> length t = Z.to_nat DIRSIZ ->
  (namecmp s t =? 0) = bool_decide (name_of t = name_of s).
Proof.
  intros Hs Ht Hl. unfold namecmp, array_strncmp, strncmp.
  pose proof (strncmp_loop_spec (Z.to_nat DIRSIZ) (mput (mput ∅ 0 s) (Z.of_nat (length s)) t) 0 (Z.of_nat (length s))) as Hc.
  rewrite bytes_name in Hc by done. rewrite <- Hl, bytes_second, Hl in Hc by done.
  assert (En : name_of t = until_nul t) by (unfold name_of; by rewrite take_ge by lia). rewrite En.
  destruct (Z.eqb_spec (strncmp_loop (Z.to_nat DIRSIZ) (mput (mput ∅ 0 s) (Z.of_nat (length s)) t) 0 (Z.of_nat (length s))) 0) as [E|E].
  - symmetry. apply bool_decide_eq_true. symmetry. by apply Hc.
  - symmetry. apply bool_decide_eq_false. intros E'. by apply E, Hc.
Qed.

Lemma until_nul_same m m' t n :
  (forall i, 0 <= i < Z.of_nat (n `min` S (length (until_nul (bytes m t n)))) -> mget m' (t + i) = mget m (t + i)) ->
  until_nul (bytes m' t n) = until_nul (bytes m t n).
Proof.
  revert t. induction n as [|n IH]; intros t H; [done|]. rewrite !bytes_S in *. cbn [until_nul] in *.
  pose proof (H 0 ltac:(lia)) as H0. rewrite !Z.add_0_r in H0. rewrite H0. destruct (Z.eqb_spec (mget m t) 0); [done|].
  f_equal. apply IH. intros i Hi. replace (t + 1 + i) with (t + (1 + i)) by lia. apply H. cbn [length]. lia.
Qed.

(** [strncpy] of a string that ends before the destination. *)
Lemma strncpy_loop_str n : forall m s t,
  t + Z.of_nat (n `min` S (length (until_nul (bytes m t n)))) <= s ->
  bytes (strncpy_loop n m s t) s n =
    until_nul (bytes m t n) ++ replicate (n - length (until_nul (bytes m t n))) 0.
Proof.
  induction n as [|n IH]; intros m s t H; [done|]. rewrite (bytes_S m t), (bytes_S _ s) in *. cbn [strncpy_loop until_nul] in *.
  destruct (Z.eqb_spec (mget m t) 0) as [E|E]; cbn [negb length app] in *.
  - cbn [replicate Nat.sub]. f_equal.
    + rewrite zero_fill_get, mget_mset, Z.eqb_refl, E. by zbool.
    + apply list_eq_same_length with n; rewrite ?length_bytes, ?length_replicate; try done.
      intros i x y Hi. rewrite bytes_lookup, lookup_replicate_2, zero_fill_get by done. zbool. congruence.
  - assert (Eu : until_nul (bytes (mset m s (mget m t)) (t + 1) n) = until_nul (bytes m (t + 1) n)).
    { apply until_nul_same. intros i Hi. rewrite mget_mset. zbool. }
    f_equal.
    + rewrite strncpy_loop_out, mget_mset, Z.eqb_refl by lia. apply u8_id, mget_range.
    + rewrite IH by (rewrite Eu; lia). by rewrite Eu.
Qed.

Lemma until_nul_lt l : 0 ∈ l -> (length (until_nul l) < length l)%nat.
Proof.
  induction l as [|c l IH]; intros H; [by apply elem_of_nil in H|]. cbn. destruct (Z.eqb_spec c 0); cbn; [lia|].
  apply elem_of_cons in H as [H|H]; [congruence|]. specialize (IH H). lia.
Qed.

Lemma until_nul_elem l c : c ∈ until_nul l -> c ∈ l.
Proof. induction l as [|x l IH]; cbn; [done|]. destruct (_ =? 0); [by intros ?%not_elem_of_nil|]. intros [->|H]%elem_of_cons; [left|right; auto]. Qed.

(** A name in an array of [DIRSIZ] characters. *)
Definition fill_name (x : list Z) : list Z := x ++ replicate (Z.to_nat DIRSIZ - length x) 0.

Lemma array_strncpy_name dst name : is_name name -> length dst = Z.to_nat DIRSIZ ->
  array_strncpy dst name DIRSIZ = fill_name (name_of name).
Proof.
  intros Hn Hd. unfold array_strncpy, strncpy, fill_name. rewrite Hd. pose proof (bytes_name name dst Hn) as En. rewrite strncpy_loop_str; rewrite En; [done|].
  destruct Hn as [_ [Hl|H0]]; [lia|]. unfold name_of. destruct (decide (Z.to_nat DIRSIZ <= length name)%nat); [lia|].
  rewrite take_ge by lia. pose proof (until_nul_lt _ H0). lia.
Qed.

Lemma until_nul_filled x k : 0 ∉ x -> until_nul (x ++ replicate k 0) = x.
Proof. intros H. destruct k; cbn [replicate]; [rewrite app_nil_r|by apply until_nul_app]. induction x as [|c x IH]; [done|]. apply not_elem_of_cons in H as [H1 H2]. cbn. destruct (Z.eqb_spec c 0); [congruence|]. by rewrite IH. Qed.

Lemma name_of_length l : (length (name_of l) <= Z.to_nat DIRSIZ)%nat.
Proof. unfold name_of. pose proof (until_nul_length (take (Z.to_nat DIRSIZ) l)). rewrite length_take in *. lia. Qed.

Lemma fill_name_of l : length (fill_name (name_of l)) = Z.to_nat DIRSIZ /\ name_of (fill_name (name_of l)) = name_of l.
Proof.
  pose proof (name_of_length l) as Hl. assert (Hf : length (fill_name (name_of l)) = Z.to_nat DIRSIZ) by (unfold fill_name; rewrite length_app, length_replicate; lia).
  split; [done|]. unfold name_of at 1. rewrite take_ge by lia. apply until_nul_filled. intros H. by apply until_nul_nonzero in H.
Qed.

(** ** The entries of a directory *)

Definition dent (v : blocks) (i : inode) (k : Z) : list Z := fbytes v i (DIRENT_SIZE * k) DIRENT_SIZE.
Definition dents (v : blocks) (i : inode) : list (list Z) := dent v i <$> seqZ 0 (i_size i / DIRENT_SIZE).
Definition de_inum (e : list Z) : Z := get16 e 0.
Definition de_name (e : list Z) : list Z := name_of (drop 2 e).

(** The first entry in use with the name, as its number and its inode, counting from [k]. *)
Fixpoint find_name (name : list Z) (k : Z) (es : list (list Z)) : option (Z * Z) :=
  match es with
  | [] => None
  | e :: es' => if negb (de_inum e =? 0) && bool_decide (de_name e = name) then Some (k, de_inum e) else find_name name (k + 1) es'
  end.

(** What a directory is for its users: a partial function from names to inodes. *)
Definition dir_map (es : list (list Z)) (name : list Z) : option Z := snd <$> find_name name 0 es.

Lemma length_dents v i : 0 <= i_size i -> length (dents v i) = Z.to_nat (i_size i / DIRENT_SIZE).
Proof. intros. unfold dents. rewrite length_fmap, length_seqZ. done. Qed.

Lemma dents_lookup v i k : 0 <= k < i_size i / DIRENT_SIZE -> dents v i !! Z.to_nat k = Some (dent v i k).
Proof. intros Hk. unfold dents. rewrite list_lookup_fmap, lookup_seqZ_lt by lia. cbn. do 2 f_equal. lia. Qed.

Lemma drop_dents v i k : 0 <= k < i_size i / DIRENT_SIZE ->
  drop (Z.to_nat k) (dents v i) = dent v i k :: drop (Z.to_nat (k + 1)) (dents v i).
Proof. intros Hk. rewrite (drop_S _ _ _ (dents_lookup v i k Hk)). do 2 f_equal. lia. Qed.

(** The number of the first entry that is free, or of the one behind the last. *)
Fixpoint first_free (k : Z) (es : list (list Z)) : Z :=
  match es with [] => k | e :: es' => if de_inum e =? 0 then k else first_free (k + 1) es' end.
(** The entry [e] stored there. *)
Fixpoint put_free (e : list Z) (es : list (list Z)) : list (list Z) :=
  match es with [] => [e] | x :: es' => if de_inum x =? 0 then e :: es' else x :: put_free e es' end.

Lemma first_free_range es : forall k, k <= first_free k es <= k + Z.of_nat (length es).
Proof. induction es as [|x es IH]; intros k; cbn; [lia|]. destruct (_ =? 0); [lia|]. specialize (IH (k + 1)). lia. Qed.

Lemma put_free_lookup e es : forall k j, put_free e es !! j = if decide (k + Z.of_nat j = first_free k es) then Some e else es !! j.
Proof.
  induction es as [|x es IH]; intros k j; cbn [put_free first_free].
  - destruct j; case_decide; try done; lia.
  - destruct (de_inum x =? 0); [destruct j; case_decide; done || lia|]. destruct j as [|j].
    + pose proof (first_free_range es (k + 1)). case_decide; [lia|done].
    + cbn. rewrite (IH (k + 1)). replace (k + 1 + Z.of_nat j) with (k + Z.of_nat (S j)) by lia. done.
Qed.

(** Storing an entry for a new name inserts it into the map. *)
Lemma find_name_put_free e name es n : de_inum e <> 0 -> de_name e = name -> forall k, find_name name k es = None ->
  snd <$> find_name n k (put_free e es) = if decide (n = name) then Some (de_inum e) else snd <$> find_name n k es.
Proof.
  intros He Hn. induction es as [|x es IH]; intros k Hnone; cbn [put_free find_name] in *.
  - rewrite (proj2 (Z.eqb_neq _ _) He), Hn. cbn [negb andb]. case_decide as E; [by rewrite bool_decide_eq_true_2|by rewrite bool_decide_eq_false_2].
  - destruct (Z.eqb_spec (de_inum x) 0) as [E0|E0]; cbn [negb andb] in *.
    + cbn [find_name]. rewrite (proj2 (Z.eqb_neq _ _) He), Hn. cbn [negb andb]. case_decide as E; [by rewrite bool_decide_eq_true_2|by rewrite bool_decide_eq_false_2].
    + cbn [find_name]. rewrite (proj2 (Z.eqb_neq _ _) E0). cbn [negb andb]. destruct (bool_decide (de_name x = name)) eqn:En; [done|]. apply bool_decide_eq_false in En.
      destruct (decide (de_name x = n)) as [<-|Hne]; [rewrite bool_decide_eq_true_2, decide_False by done; done|].
      rewrite bool_decide_eq_false_2 by done. by apply IH.
Qed.

Lemma find_name_entry name es : forall k k' inum, find_name name k es = Some (k', inum) ->
  exists e, es !! Z.to_nat (k' - k) = Some e /\ de_inum e = inum /\ de_name e = name /\ k <= k'.
Proof.
  induction es as [|x es IH]; intros k k' inum E; cbn [find_name] in E; [done|].
  destruct (negb (de_inum x =? 0) && bool_decide (de_name x = name)) eqn:Ex.
  - injection E as <- <-. apply andb_true_iff in Ex as [_ Ex%bool_decide_eq_true]. exists x. rewrite Z.sub_diag. split_and!; done || lia.
  - destruct (IH _ _ _ E) as (e & He & H1 & H2 & H3). exists e. replace (Z.to_nat (k' - k)) with (S (Z.to_nat (k' - (k + 1)))) by lia. split_and!; done || lia.
Qed.

(** The memory of the local [de]: [I d k] says that it holds [d]. *)
Record de_buf {K} `{FsEnv K} (de_addr : Z) (I : list Z -> K -> Prop) : Prop := mkDeBuf {
  db_addr : is_u64 de_addr;
  db_len : forall d k, I d k -> length d = Z.to_nat DIRENT_SIZE;
  db_copyout : forall (o : nat) bs d th k, I d k -> (o + length bs <= Z.to_nat DIRENT_SIZE)%nat ->
    exists k', env_copyout 0 (u64 (de_addr + Z.of_nat o)) bs th k = Ok 0 th k' /\ I (splice d o bs) k';
  db_copyin : forall (o : nat) old d th k, I d k -> (o + length old <= Z.to_nat DIRENT_SIZE)%nat ->
    exists k', env_copyin 0 (u64 (de_addr + Z.of_nat o)) old th k = Ok (0, take (length old) (drop o d)) th k' /\ I d k';
  db_load : forall d th k, I d k -> env_load de_addr (Z.to_nat DIRENT_SIZE) th k = Ok d th k;
  db_store : forall d d' th k, I d k -> length d' = Z.to_nat DIRENT_SIZE ->
    exists k', env_store de_addr d' th k = Ok tt th k' /\ I d' k';
}.

(** The entry of the table that [iget] gives for an inode, shared or recycled. *)
Definition igot (it : list inode) (dev inum : Z) (ip : nat) (it' : list inode) : Prop :=
  exists e e', it !! ip = Some e /\ it' = <[ip := e']> it /\
    (entry_for dev inum e = true /\ e' = with_iref (i_ref e + 1) e \/
     Forall (fun j => entry_for dev inum j = false) it /\ i_ref e = 0 /\ e' = recycled_inode dev inum e).

Definition table_room (it : list inode) : Prop := (exists e, e ∈ it /\ i_ref e = 0) /\ forall e, e ∈ it -> - 2 ^ 31 <= i_ref e < 2 ^ 31 - 1.

Lemma iget_ok {S : Type} (dev inum : Z) th (s : fsys S) :
  LkItable ∉ th_held th -> table_room (f_inode s) ->
  exists ip it', iget dev inum th s = Ok ip th (set_inodes it' s) /\ igot (f_inode s) dev inum ip it'.
Proof.
  intros Hlk [(e0 & Hin & H0) Hmax]. unfold iget. rewrite (bind_ok _ _ _ _ _ _ _ (acquire_ok LkItable th s Hlk)). unfold gets, bind at 1.
  destruct (iget_scan _ _ _ _ _) as [k|r] eqn:E.
  - apply iget_scan_inl in E as (j & i & -> & Hl & Hi). cbn [Nat.add]. unfold bind, upd_inode. rewrite Hl.
    rewrite release_acquired by done. cbn [ret]. pose proof (Hmax i ltac:(by eapply list_elem_of_lookup_2)) as Hm. rewrite i32_id by lia.
    eexists j, _. split; [done|]. exists i. eexists. split; [done|]. split; [done|]. by left.
  - apply iget_scan_inr in E as [Hall Hr]. destruct r as [k|]; [|apply list_elem_of_lookup in Hin as (k0 & Hk0); by eapply Forall_lookup_1 in Hr].
    destruct Hr as (j & i & -> & Hl & Hi). cbn [Nat.add]. unfold bind, upd_inode. rewrite Hl.
    rewrite release_acquired by done. cbn [ret]. eexists j, _. split; [done|]. exists i. eexists. split; [done|]. split; [done|]. by right.
Qed.

(** ** Runs *)

Section Runs.
Context (sb : superblock) (Hsb : sb_ok sb).
Context {S : Type} {BC : BlockCache S} {BCS : BlockCacheSpec S} {K : Type} {EN : FsEnv K}.
Context (me dev : Z) (base : blocks) (w : list (Z * block)) (start nlog : Z) (Hdev : is_u32 dev).
Context (de_addr : Z) (I : list Z -> K -> Prop) (HI : de_buf de_addr I).
Notation tx := (tx me dev base w start nlog).
Notation quiet := (quiet me).

(** A locked directory, whose entries before the offset [lim] have blocks. *)
Record dir_upto (v : blocks) (i : inode) (lim : Z) : Prop := mkDirOk {
  do_dev : i_dev i = dev;
  do_inum : 0 <= i_inum i < sb_ninodes sb;
  do_type : i_type i = T_DIR;
  do_typed : dinode_typed i;
  do_ok : inode_ok sb v i;
  do_size : i_size i <= MAXFILE * BSIZE;
  do_whole : i_size i mod DIRENT_SIZE = 0;
  do_holes : mapped v i 0 lim;
}.
(** One without holes. *)
Definition dir_ok (v : blocks) (i : inode) : Prop := dir_upto v i (i_size i).

Lemma dir_size v i lim : dir_upto v i lim -> i_size i = DIRENT_SIZE * (i_size i / DIRENT_SIZE) /\ 0 <= i_size i / DIRENT_SIZE /\ i_size i <= 274432.
Proof.
  intros Hd. pose proof (do_whole _ _ _ Hd). pose proof (dt_size _ (do_typed _ _ _ Hd)). pose proof (do_size _ _ _ Hd). change (MAXFILE * BSIZE) with 274432 in *.
  change DIRENT_SIZE with 16 in *. Z.div_mod_to_equations. lia.
Qed.

(** [de] starts with the bytes [out]. *)
Definition delivered (out : list Z) (k : K) : Prop := exists d, I d k /\ take (length out) d = out.

Lemma de_sink : sink delivered 0 de_addr DIRENT_SIZE.
Proof.
  split. intros out bs th k (d & Hd & Et) Hl. destruct (db_copyout _ _ HI (length out) bs d th k Hd) as (k' & E & Hd'); [lia|].
  exists k'. split; [done|]. exists (splice d (length out) bs). split; [done|]. unfold splice. rewrite Et, app_assoc. by apply take_app_length'.
Qed.

Lemma de_source d : source (I d) 0 de_addr d (length d).
Proof.
  split; intros o old th k Hk Ho Hav; [|lia]. apply (db_copyin _ _ HI); [done|]. by rewrite <- (db_len _ _ HI _ _ Hk).
Qed.

(** Reading entry [k] into [de]. *)
Lemma read_entry {A} msg (m : list Z -> M (fsys S * K) A) Q th f kk it v W dp i lim d k :
  quiet th -> tx f sb it v W [] -> it !! dp = Some i -> v_ok sb v -> dir_upto v i lim -> I d kk -> 0 <= k < i_size i / DIRENT_SIZE ->
  DIRENT_SIZE * (k + 1) <= lim ->
  (forall th' f' kk', same_thread th th' -> tx f' sb it v W [] -> I (dent v i k) kk' -> wp (m (dent v i k)) Q th' (f', kk')) ->
  wp (let! r := readi dp 0 de_addr (DIRENT_SIZE * k) DIRENT_SIZE in
      when (negb (r =? DIRENT_SIZE)) (panic msg);;;
      let! de := env (env_load de_addr (Z.to_nat DIRENT_SIZE)) in m de) Q th (f, kk).
Proof.
  intros Hq Ht Hi Hv Hd Hk0 Hk Hlim Hm. destruct (dir_size v i _ Hd) as (Es & _ & Hmax). assert (HD : DIRENT_SIZE = 16) by reflexivity.
  assert (Hrc : read_count i (DIRENT_SIZE * k) DIRENT_SIZE = DIRENT_SIZE).
  { unfold read_count. rewrite (proj2 (Z.ltb_ge _ _)), (proj2 (Z.leb_gt _ _)) by lia. cbn [orb]. lia. }
  apply wp_bind. eapply wp_mono.
  { apply (readi_ok sb Hsb me dev base w start nlog Hdev delivered 0 de_addr th f kk it v W dp i (DIRENT_SIZE * k) DIRENT_SIZE Hq Ht Hi (do_dev _ _ _ Hd) Hv (do_ok _ _ _ Hd));
      [|rewrite Hrc; intros o Ho; apply (do_holes _ _ _ Hd)| | |apply de_sink|by exists d|apply HI]; change (MAXFILE * BSIZE) with 274432; lia. }
  intros r th1 [f1 kk1] (-> & Hth1 & Ht1 & d1 & Hd1 & Et). cbn [fst snd] in *. rewrite Hrc in *. rewrite Z.eqb_refl. cbn [negb when]. apply wp_bind, wp_ret.
  assert (d1 = dent v i k) as ->.
  { rewrite <- (take_ge d1 (length (fbytes v i (DIRENT_SIZE * k) DIRENT_SIZE))); [done|]. rewrite (db_len _ _ HI _ _ Hd1), length_fbytes by lia. lia. }
  apply wp_bind, wp_zoom. eapply wp_eq; [by apply (db_load _ _ HI)|]. cbn. by apply Hm.
Qed.

Lemma dent_bytes v i k : v_ok sb v -> byte_list (dent v i k).
Proof.
  intros Hv. apply Forall_fmap, Forall_forall. intros j _. cbn. unfold fbyte. destruct (_ =? 0); [lia|].
  rewrite nth_lookup. destruct (_ !! _) as [b|] eqn:E; cbn; [|lia]. by apply (Forall_lookup_1 _ _ _ _ (vo_bytes _ _ Hv _) E).
Qed.

Lemma dent_length v i k : length (dent v i k) = Z.to_nat DIRENT_SIZE.
Proof. apply length_fbytes. done. Qed.

(** The result of a lookup in the entries [es], numbered from [k] on. *)
Definition looked_up (name : list Z) (k : Z) (es : list (list Z)) (a : option (nat * Z)) (it it' : list inode) : Prop :=
  match find_name (name_of name) k es with
  | Some (k', inum) => exists ip, a = Some (ip, DIRENT_SIZE * k') /\ igot it dev inum ip it'
  | None => a = None /\ it' = it
  end.

Section Lookup.
Context (it : list inode) (v : blocks) (W : gset Z) (dp : nat) (i : inode).
Context (Hi : it !! dp = Some i) (Hv : v_ok sb v).

(** A search from entry [k] on that ends before it leaves the first [m] entries. *)
Definition settled (name : list Z) (m k : Z) : Prop :=
  m = i_size i / DIRENT_SIZE \/ find_name (name_of name) k (drop (Z.to_nat k) (take (Z.to_nat m) (dents v i))) <> None.

Lemma settled_lt name m k : settled name m k -> 0 <= k < i_size i / DIRENT_SIZE -> k < m.
Proof.
  intros [->|Hf] Hk; [lia|]. destruct (Z.lt_ge_cases k m) as [|Hge]; [done|]. exfalso. apply Hf.
  rewrite drop_ge by (rewrite length_take; lia). done.
Qed.

Lemma settled_next name m k : settled name m k -> 0 <= k < m -> k < i_size i / DIRENT_SIZE ->
  negb (de_inum (dent v i k) =? 0) && bool_decide (de_name (dent v i k) = name_of name) = false -> settled name m (k + 1).
Proof.
  intros [->|Hf] Hk Hkn He; [by left|]. right. intros E. apply Hf.
  rewrite (drop_S _ (dent v i k) (Z.to_nat k)) by (rewrite lookup_take_lt by lia; apply dents_lookup; lia). cbn [find_name]. rewrite He.
  by rewrite <- Z2Nat.inj_succ by lia.
Qed.

Section Search.
Context (m : Z) (Hd : dir_upto v i (DIRENT_SIZE * m)).

Lemma dirlookup_from_ok name fuel : is_name name -> table_room it ->
  forall th f kk d k, quiet th -> LkItable ∉ th_held th -> tx f sb it v W [] -> I d kk -> 0 <= k <= i_size i / DIRENT_SIZE ->
  settled name m k -> i_size i / DIRENT_SIZE - k <= Z.of_nat fuel ->
  wp (dirlookup_from de_addr fuel dp name (DIRENT_SIZE * k))
    (fun a th' s' => same_thread th th' /\ (exists d', I d' (snd s')) /\
       exists it', tx (fst s') sb it' v W [] /\ looked_up name k (drop (Z.to_nat k) (dents v i)) a it it') th (f, kk).
Proof.
  intros Hn Hroom. destruct (dir_size v i _ Hd) as (Es & Hpos & Hmax). assert (HD : DIRENT_SIZE = 16) by reflexivity.
  assert (Hl : length (dents v i) = Z.to_nat (i_size i / DIRENT_SIZE)) by (apply length_dents; lia).
  induction fuel as [|fuel IH]; intros th f kk d k Hq Hlk Ht HdI Hk Hset Hfuel; cbn [dirlookup_from]; (eapply fs_get_inode; [done|done|]);
    destruct (Z.ltb_spec (DIRENT_SIZE * k) (i_size i)) as [Hlt|Hge]; try lia;
    try (apply wp_ret; split; [done|]; split; [by exists d|]; exists it; split; [done|]; unfold looked_up; by rewrite drop_ge by lia).
  assert (Hk' : 0 <= k < i_size i / DIRENT_SIZE) by lia.
  pose proof (settled_lt _ _ _ Hset Hk') as Hkm. apply (read_entry "dirlookup read" _ _ th f kk it v W dp i _ d k Hq Ht Hi Hv Hd HdI Hk' ltac:(lia)).
  intros th1 f1 kk1 Hth1 Ht1 HI1. pose proof (drop_dents v i k Hk') as Ed.
  assert (Hnext : u32 (DIRENT_SIZE * k + DIRENT_SIZE) = DIRENT_SIZE * (k + 1)) by (rewrite u32_id; lia).
  assert (Hrec : negb (de_inum (dent v i k) =? 0) && bool_decide (de_name (dent v i k) = name_of name) = false ->
    looked_up name k (drop (Z.to_nat k) (dents v i)) = looked_up name (k + 1) (drop (Z.to_nat (k + 1)) (dents v i)) ->
    wp (dirlookup_from de_addr fuel dp name (u32 (DIRENT_SIZE * k + DIRENT_SIZE)))
    (fun a th' s' => same_thread th th' /\ (exists d', I d' (snd s')) /\
       exists it', tx (fst s') sb it' v W [] /\ looked_up name k (drop (Z.to_nat k) (dents v i)) a it it') th1 (f1, kk1)).
  { intros He ->. rewrite Hnext. eapply wp_mono; [eapply (IH th1 f1 kk1 _ (k + 1)); try done; try lia|].
    - quiet_tac.
    - by destruct Hth1 as (-> & _).
    - apply settled_next; done || lia.
    - intros a th' s' (Hth' & Hrest). split; [keep_thread|done]. }
  fold (de_inum (dent v i k)). destruct (Z.eqb_spec (de_inum (dent v i k)) 0) as [E0|E0].
  { apply Hrec; [done|]. rewrite Ed. unfold looked_up. cbn [find_name]. by rewrite E0. }
  rewrite namecmp_name; [|done|by apply Forall_drop, dent_bytes|rewrite length_drop, dent_length; done]. fold (de_name (dent v i k)).
  destruct (bool_decide (de_name (dent v i k) = name_of name)) eqn:En.
  2: { apply Hrec; [by rewrite andb_false_r|]. rewrite Ed. unfold looked_up. cbn [find_name]. by rewrite En, andb_false_r. }
  rewrite (do_dev _ _ _ Hd). apply wp_bind, wp_zoom. pose proof (tx_it _ _ _ _ _ _ _ _ _ _ _ _ Ht1) as Eit.
  destruct (iget_ok dev (de_inum (dent v i k)) th1 f1) as (ip & it' & Eg & Hg); [by destruct Hth1 as (-> & _)|by rewrite Eit|].
  eapply wp_eq; [exact Eg|]. apply wp_ret. split; [done|]. split; [by eexists|]. exists it'. split; [by eapply tx_inodes|].
  rewrite Ed. unfold looked_up. cbn [find_name]. rewrite En, (proj2 (Z.eqb_neq _ _) E0). cbn. exists ip. by rewrite <- Eit.
Qed.

(** Entries without a block behind the one that is found do not matter. *)
Lemma dirlookup_upto_ok name th f kk d : is_name name -> settled name m 0 -> table_room it -> quiet th -> LkItable ∉ th_held th -> tx f sb it v W [] -> I d kk ->
  wp (dirlookup de_addr dp name)
    (fun a th' s' => same_thread th th' /\ (exists d', I d' (snd s')) /\
       exists it', tx (fst s') sb it' v W [] /\ looked_up name 0 (dents v i) a it it') th (f, kk).
Proof.
  intros Hn Hset Hroom Hq Hlk Ht HdI. destruct (dir_size v i _ Hd) as (Es & Hpos & Hmax). unfold dirlookup. eapply fs_get_inode; [done|done|].
  rewrite (do_type _ _ _ Hd), Z.eqb_refl. cbn [negb when]. apply wp_bind, wp_ret.
  eapply (dirlookup_from_ok name (Z.to_nat (i_size i / DIRENT_SIZE + 1)) Hn Hroom th f kk d 0); try done; lia.
Qed.

End Search.

Lemma dirlookup_ok name th f kk d : dir_ok v i -> is_name name -> table_room it -> quiet th -> LkItable ∉ th_held th -> tx f sb it v W [] -> I d kk ->
  wp (dirlookup de_addr dp name)
    (fun a th' s' => same_thread th th' /\ (exists d', I d' (snd s')) /\
       exists it', tx (fst s') sb it' v W [] /\ looked_up name 0 (dents v i) a it it') th (f, kk).
Proof.
  intros Hd Hn Hroom Hq Hlk Ht HdI. destruct (dir_size v i _ Hd) as (Es & _). unfold dir_ok in Hd. rewrite Es in Hd.
  eapply dirlookup_upto_ok; try done. by left.
Qed.

Context (Hd : dir_ok v i).

Lemma free_dirent_ok fuel : forall th f kk d k, quiet th -> tx f sb it v W [] -> I d kk -> 0 <= k <= i_size i / DIRENT_SIZE ->
  i_size i / DIRENT_SIZE - k <= Z.of_nat fuel ->
  wp (free_dirent de_addr fuel dp (DIRENT_SIZE * k))
    (fun a th' s' => same_thread th th' /\ (exists d', I d' (snd s')) /\ tx (fst s') sb it v W [] /\
       a = DIRENT_SIZE * first_free k (drop (Z.to_nat k) (dents v i))) th (f, kk).
Proof.
  destruct (dir_size v i _ Hd) as (Es & Hpos & Hmax). assert (HD : DIRENT_SIZE = 16) by reflexivity.
  assert (Hl : length (dents v i) = Z.to_nat (i_size i / DIRENT_SIZE)) by (apply length_dents; lia).
  induction fuel as [|fuel IH]; intros th f kk d k Hq Ht HdI Hk Hfuel; cbn [free_dirent]; (eapply fs_get_inode; [done|done|]);
    rewrite u32_id by lia; destruct (Z.ltb_spec (DIRENT_SIZE * k) (i_size i)) as [Hlt|Hge]; try lia;
    try (apply wp_ret; split; [done|]; split; [by exists d|]; split; [done|]; by rewrite drop_ge by lia).
  assert (Hk' : 0 <= k < i_size i / DIRENT_SIZE) by lia.
  apply (read_entry "dirlink read" _ _ th f kk it v W dp i _ d k Hq Ht Hi Hv Hd HdI Hk' ltac:(lia)).
  intros th1 f1 kk1 Hth1 Ht1 HI1. rewrite (drop_dents v i k Hk'). cbn [first_free]. fold (de_inum (dent v i k)).
  destruct (Z.eqb_spec (de_inum (dent v i k)) 0) as [E0|E0]; [apply wp_ret; split; [done|]; split; [by eexists|done]|].
  replace (i32 (DIRENT_SIZE * k + DIRENT_SIZE)) with (DIRENT_SIZE * (k + 1)) by (rewrite i32_id; lia).
  eapply wp_mono; [eapply (IH th1 f1 kk1 _ (k + 1)); try done; try lia; quiet_tac|].
  intros a th' s' (Hth' & Hrest). split; [keep_thread|done].
Qed.

End Lookup.

(** [iput] of a reference that is not the last one to a file without links. *)
Lemma iput_ref ip e th (s : fsys S) : LkItable ∉ th_held th -> f_inode s !! ip = Some e -> is_i32 (i_ref e - 1) ->
  (i_ref e <> 1 \/ i_valid e = 0) ->
  iput ip th s = Ok tt th (set_inodes (<[ip := with_iref (i_ref e - 1) e]> (f_inode s)) s).
Proof.
  intros Hlk He Hr Hc. unfold iput. rewrite (bind_ok _ _ _ _ _ _ _ (acquire_ok LkItable th s Hlk)). unfold bind, get_inode, upd_inode. rewrite He.
  replace ((i_ref e =? 1) && ctrue (i_valid e) && (i_nlink e =? 0)) with false.
  - cbn [when ret]. rewrite He, i32_id by done. by rewrite release_acquired.
  - destruct Hc as [Hc| ->]; [by rewrite (proj2 (Z.eqb_neq _ _) Hc)|by rewrite andb_false_r].
Qed.

(** The directory after the entry [e] has been written at the first free place. *)
Lemma rewritten_dents v v' i i' e : dir_ok v i -> length e = Z.to_nat DIRENT_SIZE ->
  let off := DIRENT_SIZE * first_free 0 (dents v i) in
  off + DIRENT_SIZE <= MAXFILE * BSIZE -> rewritten sb v v' i i' off DIRENT_SIZE e -> v_ok sb v' /\ dir_ok v' i' /\ dents v' i' = put_free e (dents v i).
Proof.
  intros Hd He off Hoff Hrw. destruct (dir_size v i _ Hd) as (Es & Hpos & Hmax). assert (HD : DIRENT_SIZE = 16) by reflexivity. assert (HM : MAXFILE * BSIZE = 274432) by reflexivity.
  pose proof (rw_inode _ _ _ _ _ _ _ _ Hrw) as Ei. pose proof Hd as [D1 D2 D3 D4 D5 D6 D7 D8]. pose proof (rw_inode_ok _ _ _ _ _ _ _ _ Hrw) as Hio.
  assert (Hl : length (dents v i) = Z.to_nat (i_size i / DIRENT_SIZE)) by (apply length_dents; lia).
  pose proof (first_free_range (dents v i) 0) as Hff. set (k := first_free 0 (dents v i)) in *.
  assert (Es' : i_size i' = Z.max (i_size i) (off + DIRENT_SIZE)) by (by rewrite Ei).
  assert (En' : i_size i' / DIRENT_SIZE = Z.max (i_size i / DIRENT_SIZE) (k + 1)) by (rewrite Es', HD in *; unfold off; Z.div_mod_to_equations; lia).
  split; [apply Hrw|]. split.
  - split; try (rewrite Ei; done); try exact Hio; try exact (rw_no_holes _ _ _ _ _ _ _ _ Hrw).
    + rewrite Ei. destruct D4. split; try done; cbn [with_isize with_iaddrs i_size i_addrs]; [unfold off in *; lia| |apply Hio]. by apply (inode_ok_addrs sb Hsb v').
    + lia.
    + rewrite Es'. unfold off. rewrite HD in D7 |- *. Z.div_mod_to_equations. lia.
  - apply list_eq. intros j. rewrite (put_free_lookup _ _ 0). fold k. destruct (decide (Z.of_nat j < i_size i' / DIRENT_SIZE)) as [Hj|Hj].
    2: { rewrite lookup_ge_None_2 by (rewrite length_dents by lia; lia). case_decide; [lia|]. by rewrite lookup_ge_None_2 by lia. }
    replace j with (Z.to_nat (Z.of_nat j)) at 1 by lia. rewrite dents_lookup by lia.
    assert (Hbyte : forall o, 0 <= o < DIRENT_SIZE -> fbyte v' i' (DIRENT_SIZE * Z.of_nat j + o) =
      if decide (Z.of_nat j = k) then nth (Z.to_nat o) e 0 else fbyte v i (DIRENT_SIZE * Z.of_nat j + o)).
    { intros o Ho. rewrite (rw_bytes _ _ _ _ _ _ _ _ Hrw) by lia. unfold off. destruct (decide (Z.of_nat j = k)) as [->|Hne].
      - rewrite decide_True by lia. f_equal. lia.
      - rewrite decide_False by lia. done. }
    rewrite Z.add_0_l. case_decide as Ek; [|assert (Hj' : Z.of_nat j < i_size i / DIRENT_SIZE) by lia].
    + f_equal. apply (list_eq_same_length _ _ (Z.to_nat DIRENT_SIZE)); [done|by apply length_fbytes|].
      intros o x y Ho Hx Hy. unfold dent in Hx. rewrite fbytes_lookup, Hbyte in Hx by lia. injection Hx as <-. rewrite Nat2Z.id, nth_lookup, Hy. done.
    + replace j with (Z.to_nat (Z.of_nat j)) at 2 by lia. rewrite dents_lookup by lia. f_equal.
      apply (list_eq_same_length _ _ (Z.to_nat DIRENT_SIZE)); [by apply length_fbytes|by apply length_fbytes|].
      intros o x y Ho Hx Hy. unfold dent in *. rewrite fbytes_lookup in Hx, Hy by lia. rewrite Hbyte in Hx by lia. congruence.
Qed.

(** The entry [dirlink] writes. *)
Definition new_dirent (name : list Z) (inum : Z) : list Z := le_bytes 2 inum ++ fill_name (name_of name).

Lemma new_dirent_ok name inum : 0 < inum < 65536 -> is_name name ->
  length (new_dirent name inum) = Z.to_nat DIRENT_SIZE /\ byte_list (new_dirent name inum) /\
  de_inum (new_dirent name inum) = inum /\ de_name (new_dirent name inum) = name_of name.
Proof.
  intros Hi [Hb _]. destruct (fill_name_of name) as [Hl Hn]. unfold new_dirent. split_and!.
  - rewrite length_app, length_le_bytes, Hl. done.
  - apply Forall_app. split; [apply le_bytes_bytes|]. apply Forall_app. split; [|by apply Forall_replicate].
    apply Forall_forall. intros c Hc. unfold name_of in Hc. assert (c ∈ take (Z.to_nat DIRSIZ) name) as Hc' by (by apply until_nul_elem).
    apply (proj1 (Forall_forall _ _) (Forall_take _ _ _ Hb) c Hc').
  - unfold de_inum, getn. rewrite drop_0, take_app_length' by (by rewrite length_le_bytes). rewrite le_val_bytes. change (256 ^ Z.of_nat 2) with 65536. apply Z.mod_small. lia.
  - unfold de_name. rewrite drop_app_length' by (by rewrite length_le_bytes). done.
Qed.

Lemma igot_iput it inum ip it' th (f : fsys S) : LkItable ∉ th_held th -> table_room it -> igot it dev inum ip it' -> f_inode f = it' ->
  exists it2, iput ip th f = Ok tt th (set_inodes it2 f).
Proof.
  intros Hlk [_ Hmax] (e & e' & He & -> & Hc) Ef. pose proof (Hmax e ltac:(by eapply list_elem_of_lookup_2)) as Hr.
  assert (Hl : f_inode f !! ip = Some e') by (rewrite Ef; by eapply lookup_insert_Some_eq).
  eexists. apply (iput_ref ip e' th f Hlk Hl).
  - destruct Hc as [[_ ->]|(_ & _ & ->)]; cbn; lia.
  - destruct Hc as [[Ht ->]|(_ & _ & ->)]; [left|by right]. apply entry_for_true in Ht as (? & _ & _). cbn. lia.
Qed.

Lemma dirent_blocks k : 0 <= k -> blocks_left (16 * k) 16 0 = 1.
Proof. intros Hk. unfold blocks_left. cbn [Z.ltb Z.compare]. change BSIZE with 1024. Z.div_mod_to_equations. lia. Qed.

(** The end of [dirlink]: the entry [e] in [de] goes to the first free place. *)
Lemma write_dirent th f kk it v W dp i e :
  quiet th -> tx f sb it v W [] -> it !! dp = Some i -> v_ok sb v -> dir_ok v i -> I e kk -> byte_list e -> cost sb W i 2 ->
  let off := DIRENT_SIZE * first_free 0 (dents v i) in
  wp (let! r := writei dp 0 de_addr (u32 off) DIRENT_SIZE in if negb (r =? DIRENT_SIZE) then ret (-1) else ret 0)
    (fun r th' s' => same_thread th th' /\ exists it' v' W', tx (fst s') sb it' v' W' [] /\
      (r = 0 /\ (exists i', it' = <[dp := i']> it /\ v_ok sb v' /\ dir_ok v' i' /\ dents v' i' = put_free e (dents v i)) \/
       r = -1 /\ (MAXFILE * BSIZE < off + DIRENT_SIZE /\ v' = v \/ full sb v'))) th (f, kk).
Proof.
  intros Hq Ht Hi Hv Hd HIe He2 Hcost off. destruct (dir_size v i _ Hd) as (Es & Hpos & Hmax). pose proof (db_len _ _ HI _ _ HIe) as He1.
  assert (HD : DIRENT_SIZE = 16) by reflexivity. pose proof (first_free_range (dents v i) 0) as Hff. rewrite length_dents in Hff by lia.
  assert (Hoff : 0 <= off <= i_size i) by (unfold off; lia). rewrite u32_id by lia.
  assert (Hlen : Z.of_nat (length e) = DIRENT_SIZE) by (rewrite He1; done).
  pose proof (writei_ok sb Hsb me dev base w start nlog Hdev (I e) 0 de_addr e (length e) th f kk it v W dp i off) as Hwr. cbn zeta in Hwr. rewrite Hlen in Hwr.
  apply wp_bind. eapply wp_mono.
  { apply Hwr; try done; try apply Hd; try apply HI; try apply de_source; [lia|].
    intros _. unfold off. rewrite HD, dirent_blocks by lia. exact Hcost. }
  intros r th1 [f1 kk1] (it' & v' & W' & Hth & _ & Ht' & Hres). cbn [fst snd] in *. unfold write_refused in Hres.
  rewrite (proj2 (Z.ltb_ge (i_size i) off)) in Hres by lia. cbn [orb] in Hres. destruct (Z.ltb_spec (MAXFILE * BSIZE) (off + DIRENT_SIZE)) as [Hbig|Hfit].
  - destruct Hres as (-> & -> & -> & ->). rewrite HD. cbn [Z.eqb negb]. apply wp_ret. split; [done|]. exists it, v, W. split; [done|]. right. split; [done|]. left. by rewrite <- HD.
  - destruct Hres as (Hr & _ & Hfull & i' & -> & Hrw). destruct (Z.eqb_spec r DIRENT_SIZE) as [->|Hne]; cbn [negb]; apply wp_ret; (split; [done|]); eexists _, v', W'; (split; [done|]).
    + left. split; [done|]. exists i'. split; [done|]. by apply rewritten_dents.
    + right. split; [done|]. right. destruct (Hfull ltac:(lia)) as [?|Hx]; [done|]. unfold piece in Hx. lia.
Qed.

(** What [dirlink] does: nothing for a name that is there; otherwise it stores the entry,
    unless the directory or the disk is full. *)
Lemma dirlink_ok th f kk it v W dp i d name inum :
  quiet th -> LkItable ∉ th_held th -> tx f sb it v W [] -> it !! dp = Some i -> v_ok sb v -> dir_ok v i ->
  is_name name -> 0 < inum < 65536 -> table_room it -> I d kk -> cost sb W i 2 ->
  wp (dirlink de_addr dp name inum) (fun r th' s' => same_thread th th' /\ exists it' v' W', tx (fst s') sb it' v' W' [] /\
    match dir_map (dents v i) (name_of name) with
    | Some _ => r = -1 /\ v' = v
    | None => r = 0 /\ (exists i', it' = <[dp := i']> it /\ v_ok sb v' /\ dir_ok v' i' /\ dents v' i' = put_free (new_dirent name inum) (dents v i)) \/
              r = -1 /\ (MAXFILE * BSIZE < DIRENT_SIZE * first_free 0 (dents v i) + DIRENT_SIZE /\ v' = v \/ full sb v')
    end) th (f, kk).
Proof.
  intros Hq Hlk Ht Hi Hv Hd Hn Hinum Hroom HdI Hcost. destruct (dir_size v i _ Hd) as (Es & Hpos & Hmax). unfold dirlink. apply wp_bind.
  eapply wp_mono; [by eapply (dirlookup_ok it v W dp i Hi Hv name th f kk d Hd)|].
  intros a th1 [f1 kk1] (Hth1 & (d1 & HI1) & it1 & Ht1 & Hlu). cbn [fst snd] in *. unfold looked_up in Hlu. unfold dir_map.
  destruct (find_name (name_of name) 0 (dents v i)) as [[k' inum']|] eqn:Ef; cbn [fmap option_fmap option_map snd].
  - destruct Hlu as (ip & -> & Hg). pose proof (tx_it _ _ _ _ _ _ _ _ _ _ _ _ Ht1) as Eit.
    destruct (igot_iput it inum' ip it1 th1 f1) as (it2 & Ep); [by destruct Hth1 as (-> & _)|done|done|done|].
    apply wp_bind, wp_zoom. eapply wp_eq; [exact Ep|]. apply wp_ret. split; [done|]. exists it2, v, W. split; [by eapply tx_inodes|done].
  - destruct Hlu as [-> ->]. eapply fs_get_inode; [done|done|]. apply wp_bind.
    eapply wp_mono; [eapply (free_dirent_ok it v W dp i Hi Hv Hd (Z.to_nat (i_size i / DIRENT_SIZE + 1)) th1 f1 kk1 d1 0); try done; quiet_tac || lia|].
    intros off th2 [f2 kk2] (Hth2 & (d2 & HI2) & Ht2 & ->). cbn [fst snd] in *. rewrite drop_0.
    set (off := DIRENT_SIZE * first_free 0 (dents v i)). set (e := new_dirent name inum).
    destruct (new_dirent_ok name inum Hinum Hn) as (He1 & He2 & _). fold e in He1, He2.
    apply wp_bind, wp_zoom. eapply wp_eq; [by apply (db_load _ _ HI)|]. cbn [view over env_lens fst snd].
    rewrite array_strncpy_name by (done || (rewrite length_drop, (db_len _ _ HI _ _ HI2); done)). fold (new_dirent name inum) e.
    apply wp_bind, wp_zoom. destruct (db_store _ _ HI d2 e th2 kk2 HI2 He1) as (kk3 & Est & HI3). eapply wp_eq; [exact Est|]. cbn [view over env_lens fst snd].
    eapply wp_mono; [eapply (write_dirent th2 f2 kk3 it v W dp i e); try done; quiet_tac|].
    intros r th4 s4 (Hth4 & Hrest). split; [keep_thread|exact Hrest].
Qed.

(** C22: looking a name up is lookup in the map.  For every directory and every name,
    [dirlookup] returns the inode that the map of the directory's entries gives for the name,
    in the table entry that stands for it, with the offset of the first entry in use that
    has the name; if the map has nothing for the name it returns null.  It changes nothing
    on the disk. *)
Theorem dirlookup_is_map_lookup th f kk it v W dp i d name :
  quiet th -> LkItable ∉ th_held th -> tx f sb it v W [] -> it !! dp = Some i -> v_ok sb v -> dir_ok v i ->
  is_name name -> table_room it -> I d kk ->
  exists a th' f' kk' it', dirlookup de_addr dp name th (f, kk) = Ok a th' (f', kk') /\ same_thread th th' /\ tx f' sb it' v W [] /\
    match dir_map (dents v i) (name_of name) with
    | Some inum => exists ip k e, a = Some (ip, DIRENT_SIZE * k) /\ igot it dev inum ip it' /\
        dents v i !! Z.to_nat k = Some e /\ de_inum e = inum /\ de_name e = name_of name
    | None => a = None /\ it' = it
    end.
Proof.
  intros Hq Hlk Ht Hi Hv Hd Hn Hroom HdI.
  eapply wp_run; [by eapply (dirlookup_ok it v W dp i Hi Hv name th f kk d Hd)|].
  intros a th' [f' kk'] E (Hth & _ & it' & Ht' & Hlu). exists a, th', f', kk', it'. split; [done|]. split; [done|]. split; [done|].
  unfold looked_up in Hlu. unfold dir_map. destruct (find_name (name_of name) 0 (dents v i)) as [[k inum]|] eqn:Ef; [|done].
  destruct Hlu as (ip & -> & Hg). cbn. destruct (find_name_entry _ _ _ _ _ Ef) as (e & He & H1 & H2 & _). exists ip, k, e. by rewrite Z.sub_0_r in He.
Qed.

(** C23: linking a name is insertion into the map.  [dirlink] of a name the directory has
    returns -1 and leaves the disk alone.  For a new name it returns 0 and afterwards the map
    of the directory is the old one with the name bound to the inode, all other names as
    before; or it returns -1, and then the directory has its maximal size, or the disk is
    full. *)
Theorem dirlink_is_map_insert th f kk it v W dp i d name inum :
  quiet th -> LkItable ∉ th_held th -> tx f sb it v W [] -> it !! dp = Some i -> v_ok sb v -> dir_ok v i ->
  is_name name -> 0 < inum < 65536 -> table_room it -> I d kk -> cost sb W i 2 ->
  exists r th' f' kk' it' v' W', dirlink de_addr dp name inum th (f, kk) = Ok r th' (f', kk') /\ same_thread th th' /\ tx f' sb it' v' W' [] /\
    match dir_map (dents v i) (name_of name) with
    | Some _ => r = -1 /\ v' = v
    | None =>
        r = 0 /\ (exists i', it' = <[dp := i']> it /\ v_ok sb v' /\ dir_ok v' i' /\
          forall n, dir_map (dents v' i') n = if decide (n = name_of name) then Some inum else dir_map (dents v i) n) \/
        r = -1 /\ (MAXFILE * BSIZE < i_size i + DIRENT_SIZE /\ v' = v \/ full sb v')
    end.
Proof.
  intros Hq Hlk Ht Hi Hv Hd Hn Hinum Hroom HdI Hcost. destruct (new_dirent_ok name inum Hinum Hn) as (_ & _ & E1 & E2).
  eapply wp_run; [by eapply (dirlink_ok th f kk it v W dp i d name inum)|].
  intros r th' [f' kk'] E (Hth & it' & v' & W' & Ht' & Hres). exists r, th', f', kk', it', v', W'. split; [done|]. split; [done|]. split; [done|].
  destruct (dir_map (dents v i) (name_of name)) as [x|] eqn:Em; [done|].
  assert (Ef : find_name (name_of name) 0 (dents v i) = None) by (unfold dir_map in Em; by destruct (find_name _ _ _)).
  destruct Hres as [(-> & i' & -> & Hv' & Hd' & Ed)|(-> & Hfull)]; [left|right; split; [done|]].
  - split; [done|]. exists i'. split_and!; try done. intros n. unfold dir_map. rewrite Ed, (find_name_put_free _ _ _ n ltac:(rewrite E1; lia) E2 0 Ef), E1. done.
  - destruct Hfull as [[Hm ->]|?]; [left|by right]. split; [|done]. destruct (dir_size v i _ Hd) as (Es & Hpos & Hmax). assert (HD : DIRENT_SIZE = 16) by reflexivity.
    pose proof (first_free_range (dents v i) 0) as Hff. rewrite length_dents in Hff by lia. lia.
Qed.

End Runs.

(** ** A directory of two entries on the disk of BallocSpec.v: block 50 starts with an entry
    in use, and the second one is free *)

Definition demo_dir : inode := mkInode 1 1 1 (mkSleeplock 1 1) 1 T_DIR 0 0 1 32 (50 :: replicate 12 0).

(** A kernel that is the sixteen bytes of [de], at address 0. *)
#[local] Instance demo_de : FsEnv (list Z) := {
  env_copyout := fun _ a bs th k => Ok 0 th (splice k (Z.to_nat a) bs);
  env_copyin := fun _ a old th k => Ok (0, take (length old) (drop (Z.to_nat a) k)) th k;
  env_load := fun _ _ th k => Ok k th k;
  env_store := fun _ d th _ => Ok tt th d;
  env_cwd := ret None;
}.
Definition demo_holds (d k : list Z) : Prop := k = d /\ length d = Z.to_nat DIRENT_SIZE.

Lemma demo_de_buf : de_buf 0 demo_holds.
Proof.
  split.
  - lia.
  - intros d k [_ H]. exact H.
  - intros o bs d th k [-> H] Ho. change (Z.to_nat DIRENT_SIZE) with 16%nat in *. rewrite Z.add_0_l, u64_id by lia. eexists. split; [reflexivity|]. rewrite Nat2Z.id.
    split; [done|]. rewrite length_splice; [done|lia].
  - intros o old d th k [-> H] Ho. change (Z.to_nat DIRENT_SIZE) with 16%nat in *. rewrite Z.add_0_l, u64_id by lia. eexists. cbn [env_copyin demo_de]. rewrite Nat2Z.id. done.
  - intros d th k [-> _]. done.
  - intros d d' th k _ H. by eexists.
Qed.

Lemma demo_dir_ok : dir_ok demo_sb 1 demo_disk demo_dir.
Proof.
  split; try done; try (cbn; lia).
  - split; try done; try (cbn; lia). repeat constructor; lia.
  - destruct demo_inode_ok as [H1 H2 H3 H4]. split; assumption.
  - intros o Ho. cbn in Ho. assert (o / BSIZE = 0) as -> by (apply Z.div_small; change BSIZE with 1024; lia). done.
Qed.

Lemma demo_room : table_room [demo_free; demo_dir].
Proof.
  split; [exists demo_free; split; [left|done]|]. intros e He. apply list_elem_of_In in He as [<-|[<-|[]]]; cbn; lia.
Qed.

Lemma dirlookup_is_map_lookup_witness :
  exists a th' s', dirlookup 0 1 [0] demo_thread (demo_fs [demo_free; demo_dir], replicate 16 0) = Ok a th' s' /\ is_Some a.
Proof.
  destruct (dirlookup_is_map_lookup demo_sb demo_sb_ok 1 1 demo_disk [] 2 30 ltac:(lia) 0 demo_holds demo_de_buf demo_thread (demo_fs [demo_free; demo_dir])
    (replicate 16 0) [demo_free; demo_dir] demo_disk ∅ 1 demo_dir (replicate 16 0) [0]) as (a & th' & f' & kk' & it' & E & _ & _ & H).
  - exact demo_quiet.
  - apply not_elem_of_nil.
  - exact (demo_tx _).
  - reflexivity.
  - exact demo_v_ok.
  - exact demo_dir_ok.
  - split; [repeat constructor; lia|right; left].
  - exact demo_room.
  - split; reflexivity.
  - exists a, th', (f', kk'). split; [exact E|]. destruct (dir_map (dents demo_disk demo_dir) (name_of [0])) as [x|] eqn:Em; [|vm_compute in Em; discriminate Em].
    destruct H as (ip & k & e & -> & _). by eexists.
Defined.

Lemma dirlink_is_map_insert_witness :
  exists r th' s', dirlink 0 1 [65; 0] 7 demo_thread (demo_fs [demo_free; demo_dir], replicate 16 0) = Ok r th' s'.
Proof.
  destruct (dirlink_is_map_insert demo_sb demo_sb_ok 1 1 demo_disk [] 2 30 ltac:(lia) 0 demo_holds demo_de_buf demo_thread (demo_fs [demo_free; demo_dir])
    (replicate 16 0) [demo_free; demo_dir] demo_disk ∅ 1 demo_dir (replicate 16 0) [65; 0] 7) as (r & th' & f' & kk' & it' & v' & W' & E & _).
  - exact demo_quiet.
  - apply not_elem_of_nil.
  - exact (demo_tx _).
  - reflexivity.
  - exact demo_v_ok.
  - exact demo_dir_ok.
  - split; [repeat constructor; lia|right; right; left].
  - lia.
  - exact demo_room.
  - split; reflexivity.
  - unfold cost. vm_compute. lia.
  - exists r, th', (f', kk'). exact E.
Defined.
