(* ===== verification/File.v ===== *)
(** * Open files (kernel/file.c, and [pipealloc] of kernel/pipe.c)

    The table of open files above the file system.  Pipes and devices are reached through
    the class [FileEnv]; pipes themselves are modelled in Pipe.v. *)

From S2P Require Import Prelude Layout Memory Bytes Sleeplock BlockCache Log FsState Balloc Inode Dir.

Inductive ftype : Set := FD_NONE | FD_PIPE | FD_INODE | FD_DEVICE.
#[export] Instance ftype_eq_dec : EqDecision ftype.
Proof. solve_decision. Defined.

Record file := mkFile {
  fl_type : ftype;
  fl_ref : Z;
  fl_readable : Z;
  fl_writable : Z;
  fl_pipe : Z;            (* the address of the pipe *)
  fl_ip : option nat;
  fl_off : Z;
  fl_major : Z;
}.

Definition with_fref (x : Z) (f : file) : file :=
  mkFile (fl_type f) x (fl_readable f) (fl_writable f) (fl_pipe f) (fl_ip f) (fl_off f) (fl_major f).
Definition with_ftype (x : ftype) (f : file) : file :=
  mkFile x (fl_ref f) (fl_readable f) (fl_writable f) (fl_pipe f) (fl_ip f) (fl_off f) (fl_major f).
Definition with_foff (x : Z) (f : file) : file :=
  mkFile (fl_type f) (fl_ref f) (fl_readable f) (fl_writable f) (fl_pipe f) (fl_ip f) x (fl_major f).
(** [pipealloc]'s assignments to one of the two files. *)
Definition pipe_end (readable writable pi : Z) (f : file) : file :=
  mkFile FD_PIPE (fl_ref f) readable writable pi (fl_ip f) (fl_off f) (fl_major f).

(** What file.c asks of pipes, of the devices' [devsw] and of the page allocator. *)
Class FileEnv (K : Type) `{FsEnv K} := {
  env_piperead : Z -> Z -> Z -> M K Z;
  env_pipewrite : Z -> Z -> Z -> M K Z;
  env_pipeclose : Z -> Z -> M K unit;
  env_devread : Z -> option (Z -> Z -> Z -> M K Z);
  env_devwrite : Z -> option (Z -> Z -> Z -> M K Z);
  env_kalloc : M K Z;
  env_kfree : Z -> M K unit;
  env_pipe_setup : Z -> M K unit;
}.

Section File.
Context {S : Type} `{BC : BlockCache S} {K : Type} `{FE : FileEnv K}.
(** The padding of the local [struct stat], which the code does not initialise. *)
Context (st_pad : list Z).

Notation T := (list file * (fsys S * K))%type.

Definition tab_lens : lens T (list file) := mkLens fst (fun x s => (x, snd s)).
Definition low_lens : lens T (fsys S * K) := mkLens snd (fun x s => (fst s, x)).
Notation low m := (zoom low_lens m).

Definition get_file (f : nat) : M T file := fun th s =>
  match fst s !! f with Some x => Ok x th s | None => Fault "file pointer" end.
Definition upd_file (f : nat) (g : file -> file) : M T unit := fun th s =>
  match fst s !! f with
  | Some x => Ok tt th (<[f := g x]> (fst s), snd s)
  | None => Fault "file pointer"
  end.

Fixpoint filealloc_from (k : nat) (f : nat) : M T (option nat) :=
  match k with
  | O => ret None
  | Datatypes.S k' =>
      let! x := get_file f in
      if fl_ref x =? 0 then upd_file f (with_fref 1);;; ret (Some f)
      else filealloc_from k' (Datatypes.S f)
  end.
Definition filealloc : M T (option nat) :=
  acquire LkFtable;;;
  let! r := filealloc_from NFILE 0 in
  release LkFtable;;;
  ret r.

Definition filedup (f : nat) : M T nat :=
  acquire LkFtable;;;
  let! x := get_file f in
  when (fl_ref x <? 1) (panic "filedup");;;
  upd_file f (with_fref (i32 (fl_ref x + 1)));;;
  release LkFtable;;;
  ret f.

Definition fileclose (f : nat) : M T unit :=
  acquire LkFtable;;;
  let! x := get_file f in
  when (fl_ref x <? 1) (panic "fileclose");;;
  upd_file f (with_fref (i32 (fl_ref x - 1)));;;
  let! ff := get_file f in
  if 0 <? fl_ref ff then release LkFtable
  else
    upd_file f (fun y => with_ftype FD_NONE (with_fref 0 y));;;
    release LkFtable;;;
    match fl_type ff with
    | FD_PIPE => low (env (env_pipeclose (fl_pipe ff) (fl_writable ff)))
    | FD_INODE | FD_DEVICE =>
        low (fs (logged begin_op));;;
        let! ip := deref "ff.ip" (fl_ip ff) in
        low (fs (iput ip));;;
        low (fs (logged end_op))
    | FD_NONE => ret tt
    end.

(** The bytes of a [struct stat]. *)
Definition stat_bytes (st : stat) : list Z :=
  le_bytes 4 (st_dev st) ++ le_bytes 4 (st_ino st) ++ le_bytes 2 (st_type st) ++
  le_bytes 2 (st_nlink st) ++ st_pad ++ le_bytes 8 (st_size st).

Definition filestat (f : nat) (addr : Z) : M T Z :=
  let! x := get_file f in
  match fl_type x with
  | FD_INODE | FD_DEVICE =>
      low (fs (ilock (fl_ip x)));;;
      let! ip := deref "f->ip" (fl_ip x) in
      let! st := low (fs (stati ip)) in
      low (fs (iunlock (fl_ip x)));;;
      let! r := low (env (env_copyout 1 addr (stat_bytes st))) in
      if r <? 0 then ret (-1) else ret 0
  | _ => ret (-1)
  end.

Definition fileread (f : nat) (addr n : Z) : M T Z :=
  let! x := get_file f in
  if fl_readable x =? 0 then ret (-1)
  else
    match fl_type x with
    | FD_PIPE => low (env (env_piperead (fl_pipe x) addr n))
    | FD_DEVICE =>
        if (fl_major x <? 0) || (fl_major x >=? NDEV) then ret (-1)
        else match env_devread (fl_major x) with
             | None => ret (-1)
             | Some read => low (env (read 1 addr n))
             end
    | FD_INODE =>
        low (fs (ilock (fl_ip x)));;;
        let! ip := deref "f->ip" (fl_ip x) in
        let! r := low (readi ip 1 addr (fl_off x) (u32 n)) in
        when (0 <? r) (upd_file f (fun y => with_foff (u32 (fl_off y + r)) y));;;
        low (fs (iunlock (fl_ip x)));;;
        ret r
    | FD_NONE => panic "fileread"
    end.

(** The most bytes [filewrite] writes in one transaction. *)
Definition max_write : Z := (MAXOPBLOCKS - 1 - 1 - 2) / 2 * BSIZE.

(** The loop of [filewrite]; it returns [i]. *)
Fixpoint filewrite_from (fuel : nat) (f : nat) (addr n i : Z) : M T Z :=
  if i <? n then
    match fuel with
    | O => diverge
    | Datatypes.S fuel' =>
        let n1 := if max_write <? n - i then max_write else n - i in
        low (fs (logged begin_op));;;
        let! x := get_file f in
        low (fs (ilock (fl_ip x)));;;
        let! ip := deref "f->ip" (fl_ip x) in
        let! r := low (writei ip 1 (u64 (addr + i)) (fl_off x) (u32 n1)) in
        when (0 <? r) (upd_file f (fun y => with_foff (u32 (fl_off y + r)) y));;;
        low (fs (iunlock (fl_ip x)));;;
        low (fs (logged end_op));;;
        if negb (r =? n1) then ret i
        else filewrite_from fuel' f addr n (i + r)
    end
  else ret i.

Definition filewrite (f : nat) (addr n : Z) : M T Z :=
  let! x := get_file f in
  if fl_writable x =? 0 then ret (-1)
  else
    match fl_type x with
    | FD_PIPE => low (env (env_pipewrite (fl_pipe x) addr n))
    | FD_DEVICE =>
        if (fl_major x <? 0) || (fl_major x >=? NDEV) then ret (-1)
        else match env_devwrite (fl_major x) with
             | None => ret (-1)
             | Some write => low (env (write 1 addr n))
             end
    | FD_INODE =>
        let! i := filewrite_from (Z.to_nat (n / max_write + 1)) f addr n 0 in
        ret (if i =? n then n else -1)
    | FD_NONE => panic "filewrite"
    end.

(** [pipealloc]: the files are [None] when it fails. *)
Definition pipealloc_bad (f0 f1 : option nat) : M T (option (nat * nat)) :=
  match f0 with Some f => fileclose f | None => ret tt end;;;
  match f1 with Some f => fileclose f | None => ret tt end;;;
  ret None.

Definition pipealloc : M T (option (nat * nat)) :=
  let! f0 := filealloc in
  match f0 with
  | None => pipealloc_bad None None
  | Some a =>
      let! f1 := filealloc in
      match f1 with
      | None => pipealloc_bad f0 None
      | Some b =>
          let! pi := low (env env_kalloc) in
          if pi =? 0 then pipealloc_bad f0 f1
          else
            low (env (env_pipe_setup pi));;;
            upd_file a (pipe_end 1 0 pi);;;
            upd_file b (pipe_end 0 1 pi);;;
            ret (Some (a, b))
      end
  end.

End File.
