(* ===== verification/Sysfile.v ===== *)
(** * The file system calls (kernel/sysfile.c)

    Every handler of kernel/sysfile.c, over the open files, the file system and the
    process.  The class [SysEnv] is what the handlers use of the calling process: its
    arguments (kernel/syscall.c), its table of descriptors and its current directory.  A
    handler returns the value stored in [a0]. *)

From S2P Require Import Prelude Layout Memory Bytes Sleeplock BlockCache Log FsState Balloc Inode Dir File.

(** A string argument is the bytes before its NUL; [None] is the result -1. *)
Class SysEnv (K : Type) `{FileEnv K} := {
  env_argint : Z -> M K Z;
  env_argaddr : Z -> M K Z;
  env_argstr : Z -> Z -> M K (option (list Z));
  env_fetchaddr : Z -> M K (option Z);
  env_fetchstr : Z -> Z -> Z -> M K Z;         (* into memory at the second argument *)
  env_ofile : Z -> M K (option nat);
  env_set_ofile : Z -> option nat -> M K unit;
  env_set_cwd : nat -> M K unit;
}.

(** [dot] and [dotdot]: the literals of the source with their NUL. *)
Definition dot : list Z := [46; 0].
Definition dotdot : list Z := [46; 46; 0].

Section Sysfile.
Context {S : Type} `{BC : BlockCache S} {K : Type} `{SE : SysEnv K}.
Context (de_addr : Z) (st_pad : list Z).
Notation T := (list file * (fsys S * K))%type.
Notation low m := (zoom low_lens m).
Notation efs m := (zoom low_lens (zoom fs_lens m)).
Notation proc m := (zoom low_lens (zoom env_lens m)).

(** The descriptor and the file; [None] is the result -1. *)
Definition argfd (n : Z) : M T (option (Z * nat)) :=
  let! fd := proc (env_argint n) in
  if (fd <? 0) || (fd >=? Z.of_nat NOFILE) then ret None
  else
    let! f := proc (env_ofile fd) in
    ret (match f with None => None | Some f => Some (fd, f) end).

Fixpoint fdalloc_from (k : nat) (f : nat) (fd : Z) : M T Z :=
  match k with
  | O => ret (-1)
  | Datatypes.S k' =>
      let! x := proc (env_ofile fd) in
      match x with
      | None => proc (env_set_ofile fd (Some f));;; ret fd
      | Some _ => fdalloc_from k' f (fd + 1)
      end
  end.
Definition fdalloc (f : nat) : M T Z := fdalloc_from NOFILE f 0.

Definition sys_dup : M T Z :=
  let! a := argfd 0 in
  match a with
  | None => ret (-1)
  | Some (_, f) =>
      let! fd := fdalloc f in
      if fd <? 0 then ret (-1) else filedup f;;; ret fd
  end.

Definition sys_read : M T Z :=
  let! p := proc (env_argaddr 1) in
  let! n := proc (env_argint 2) in
  let! a := argfd 0 in
  match a with None => ret (-1) | Some (_, f) => fileread f p n end.

Definition sys_write : M T Z :=
  let! p := proc (env_argaddr 1) in
  let! n := proc (env_argint 2) in
  let! a := argfd 0 in
  match a with None => ret (-1) | Some (_, f) => filewrite f p n end.

Definition sys_close : M T Z :=
  let! a := argfd 0 in
  match a with
  | None => ret (-1)
  | Some (fd, f) => proc (env_set_ofile fd None);;; fileclose f;;; ret 0
  end.

Definition sys_fstat : M T Z :=
  let! st := proc (env_argaddr 1) in
  let! a := argfd 0 in
  match a with None => ret (-1) | Some (_, f) => filestat st_pad f st end.

(** [ip->nlink] plus [d], written to the disk. *)
Definition add_nlink (ip : nat) (d : Z) : M T unit :=
  efs (upd_inode ip (fun i => with_inlink (i16 (i_nlink i + d)) i));;;
  efs (iupdate ip).

(** The label [bad] of [sys_link]. *)
Definition link_bad (ip : nat) : M T Z :=
  efs (ilock (Some ip));;;
  add_nlink ip (-1);;;
  efs (iunlockput ip);;;
  efs (logged end_op);;;
  ret (-1).

Definition sys_link (name0 : list Z) : M T Z :=
  let! old := proc (env_argstr 0 MAXPATH) in
  match old with
  | None => ret (-1)
  | Some old =>
  let! new := proc (env_argstr 1 MAXPATH) in
  match new with
  | None => ret (-1)
  | Some new =>
  efs (logged begin_op);;;
  let! ip := low (namei de_addr old) in
  match ip with
  | None => efs (logged end_op);;; ret (-1)
  | Some ip =>
  efs (ilock (Some ip));;;
  let! i := efs (get_inode ip) in
  if i_type i =? T_DIR then efs (iunlockput ip);;; efs (logged end_op);;; ret (-1)
  else
    add_nlink ip 1;;;
    efs (iunlock (Some ip));;;
    let! r := low (nameiparent de_addr new name0) in
    match r with
    | (None, _) => link_bad ip
    | (Some dp, name) =>
        efs (ilock (Some dp));;;
        let! d := efs (get_inode dp) in
        let! i := efs (get_inode ip) in
        let! r := (if negb (i_dev d =? i_dev i) then ret (-1)
                   else low (dirlink de_addr dp name (i_inum i))) in
        if r <? 0 then efs (iunlockput dp);;; link_bad ip
        else
          efs (iunlockput dp);;;
          efs (iput ip);;;
          efs (logged end_op);;;
          ret 0
    end
  end end end.

Fixpoint isdirempty_from (fuel : nat) (dp : nat) (off : Z) : M T Z :=
  let! i := efs (get_inode dp) in
  if u32 off <? i_size i then
    match fuel with
    | O => diverge
    | Datatypes.S fuel' =>
        let! r := low (readi dp 0 de_addr (u32 off) DIRENT_SIZE) in
        when (negb (r =? DIRENT_SIZE)) (panic "isdirempty: readi");;;
        let! de := proc (env_load de_addr (Z.to_nat DIRENT_SIZE)) in
        if negb (get16 de 0 =? 0) then ret 0
        else isdirempty_from fuel' dp (i32 (off + DIRENT_SIZE))
    end
  else ret 1.
Definition isdirempty (dp : nat) : M T Z :=
  let! i := efs (get_inode dp) in
  isdirempty_from (Z.to_nat (i_size i / DIRENT_SIZE)) dp (2 * DIRENT_SIZE).

Definition unlink_bad (dp : nat) : M T Z :=
  efs (iunlockput dp);;;
  efs (logged end_op);;;
  ret (-1).

Definition sys_unlink (name0 : list Z) : M T Z :=
  let! path := proc (env_argstr 0 MAXPATH) in
  match path with
  | None => ret (-1)
  | Some path =>
  efs (logged begin_op);;;
  let! r := low (nameiparent de_addr path name0) in
  match r with
  | (None, _) => efs (logged end_op);;; ret (-1)
  | (Some dp, name) =>
  efs (ilock (Some dp));;;
  if (namecmp name dot =? 0) || (namecmp name dotdot =? 0) then unlink_bad dp
  else
    let! l := low (dirlookup de_addr dp name) in
    match l with
    | None => unlink_bad dp
    | Some (ip, off) =>
        efs (ilock (Some ip));;;
        let! i := efs (get_inode ip) in
        when (i_nlink i <? 1) (panic "unlink: nlink < 1");;;
        let! empty := (if i_type i =? T_DIR then isdirempty ip else ret 1) in
        if negb (ctrue empty) then efs (iunlockput ip);;; unlink_bad dp
        else
          proc (env_store de_addr (replicate (Z.to_nat DIRENT_SIZE) 0));;;
          let! r := low (writei dp 0 de_addr off DIRENT_SIZE) in
          when (negb (r =? DIRENT_SIZE)) (panic "unlink: writei");;;
          let! i := efs (get_inode ip) in
          when (i_type i =? T_DIR) (add_nlink dp (-1));;;
          efs (iunlockput dp);;;
          add_nlink ip (-1);;;
          efs (iunlockput ip);;;
          efs (logged end_op);;;
          ret 0
    end
  end end.

(** The label [fail] of [create]. *)
Definition create_fail (ip dp : nat) : M T (option nat) :=
  efs (upd_inode ip (with_inlink 0));;;
  efs (iupdate ip);;;
  efs (iunlockput ip);;;
  efs (iunlockput dp);;;
  ret None.

Definition create (path : list Z) (type major minor : Z) (name0 : list Z) : M T (option nat) :=
  let! r := low (nameiparent de_addr path name0) in
  match r with
  | (None, _) => ret None
  | (Some dp, name) =>
  efs (ilock (Some dp));;;
  let! l := low (dirlookup de_addr dp name) in
  match l with
  | Some (ip, _) =>
      efs (iunlockput dp);;;
      efs (ilock (Some ip));;;
      let! i := efs (get_inode ip) in
      if (type =? T_FILE) && ((i_type i =? T_FILE) || (i_type i =? T_DEVICE)) then ret (Some ip)
      else efs (iunlockput ip);;; ret None
  | None =>
  let! d := efs (get_inode dp) in
  let! ip := efs (ialloc (i_dev d) type) in
  match ip with
  | None => efs (iunlockput dp);;; ret None
  | Some ip =>
  efs (ilock (Some ip));;;
  efs (upd_inode ip (fun i => with_inlink 1 (with_idevice major minor i)));;;
  efs (iupdate ip);;;
  let! i := efs (get_inode ip) in
  let! r1 := (if type =? T_DIR then
                let! r := low (dirlink de_addr ip dot (i_inum i)) in
                if r <? 0 then ret r else low (dirlink de_addr ip dotdot (i_inum d))
              else ret 0) in
  if r1 <? 0 then create_fail ip dp
  else
    let! r2 := low (dirlink de_addr dp name (i_inum i)) in
    if r2 <? 0 then create_fail ip dp
    else
      when (type =? T_DIR) (add_nlink dp 1);;;
      efs (iunlockput dp);;;
      ret (Some ip)
  end end end.

(** Giving up in [sys_open] with the inode locked. *)
Definition open_fail (ip : nat) : M T Z :=
  efs (iunlockput ip);;;
  efs (logged end_op);;;
  ret (-1).

(** The assignments of [sys_open] to the new file. *)
Definition opened (ip : nat) (i : inode) (omode : Z) (f : file) : file :=
  let dev := i_type i =? T_DEVICE in
  mkFile (if dev then FD_DEVICE else FD_INODE) (fl_ref f)
    (cbool (Z.land omode O_WRONLY =? 0))
    (cbool (ctrue (Z.land omode O_WRONLY) || ctrue (Z.land omode O_RDWR)))
    (fl_pipe f) (Some ip) (if dev then fl_off f else 0) (if dev then i_major i else fl_major f).

(** [sys_open] once the inode is found and locked. *)
Definition open_inode (ip : nat) (omode : Z) : M T Z :=
  let! i := efs (get_inode ip) in
  if (i_type i =? T_DEVICE) && ((i_major i <? 0) || (i_major i >=? NDEV)) then open_fail ip
  else
    let! f := filealloc in
    match f with
    | None => open_fail ip
    | Some f =>
        let! fd := fdalloc f in
        if fd <? 0 then fileclose f;;; open_fail ip
        else
          upd_file f (opened ip i omode);;;
          when (ctrue (Z.land omode O_TRUNC) && (i_type i =? T_FILE)) (efs (itrunc ip));;;
          efs (iunlock (Some ip));;;
          efs (logged end_op);;;
          ret fd
    end.

Definition sys_open (name0 : list Z) : M T Z :=
  let! omode := proc (env_argint 1) in
  let! path := proc (env_argstr 0 MAXPATH) in
  match path with
  | None => ret (-1)
  | Some path =>
  efs (logged begin_op);;;
  if ctrue (Z.land omode O_CREATE) then
    let! ip := create path T_FILE 0 0 name0 in
    match ip with
    | None => efs (logged end_op);;; ret (-1)
    | Some ip => open_inode ip omode
    end
  else
    let! ip := low (namei de_addr path) in
    match ip with
    | None => efs (logged end_op);;; ret (-1)
    | Some ip =>
        efs (ilock (Some ip));;;
        let! i := efs (get_inode ip) in
        if (i_type i =? T_DIR) && negb (omode =? O_RDONLY) then open_fail ip
        else open_inode ip omode
    end
  end.

(** [sys_mkdir] and [sys_mknod] after their arguments are fetched. *)
Definition make_node (path : option (list Z)) (type major minor : Z) (name0 : list Z) : M T Z :=
  let! ip := (match path with None => ret None | Some path => create path type major minor name0 end) in
  match ip with
  | None => efs (logged end_op);;; ret (-1)
  | Some ip => efs (iunlockput ip);;; efs (logged end_op);;; ret 0
  end.

Definition sys_mkdir (name0 : list Z) : M T Z :=
  efs (logged begin_op);;;
  let! path := proc (env_argstr 0 MAXPATH) in
  make_node path T_DIR 0 0 name0.

Definition sys_mknod (name0 : list Z) : M T Z :=
  efs (logged begin_op);;;
  let! major := proc (env_argint 1) in
  let! minor := proc (env_argint 2) in
  let! path := proc (env_argstr 0 MAXPATH) in
  make_node path T_DEVICE (i16 major) (i16 minor) name0.

Definition sys_chdir : M T Z :=
  efs (logged begin_op);;;
  let! path := proc (env_argstr 0 MAXPATH) in
  let! ip := (match path with None => ret None | Some path => low (namei de_addr path) end) in
  match ip with
  | None => efs (logged end_op);;; ret (-1)
  | Some ip =>
      efs (ilock (Some ip));;;
      let! i := efs (get_inode ip) in
      if negb (i_type i =? T_DIR) then open_fail ip
      else
        efs (iunlock (Some ip));;;
        let! cwd := proc env_cwd in
        let! cwd := deref "p->cwd" cwd in
        efs (iput cwd);;;
        efs (logged end_op);;;
        proc (env_set_cwd ip);;;
        ret 0
  end.

(** ** [sys_exec] *)

Fixpoint free_args (argv : list Z) : M T unit :=
  match argv with
  | [] => ret tt
  | a :: argv' => if a =? 0 then ret tt else proc (env_kfree a);;; free_args argv'
  end.

(** The loop that fetches the arguments: the pages of those fetched, and whether the
    loop reached the terminating null pointer. *)
Fixpoint fetch_args (k : nat) (uargv i : Z) : M T (list Z * bool) :=
  match k with
  | O => ret ([], false)
  | Datatypes.S k' =>
      let! uarg := proc (env_fetchaddr (u64 (uargv + 8 * i))) in
      match uarg with
      | None => ret ([], false)
      | Some uarg =>
          if uarg =? 0 then ret ([], true)
          else
            let! a := proc env_kalloc in
            if a =? 0 then ret ([], false)
            else
              let! r := proc (env_fetchstr uarg a PGSIZE) in
              if r <? 0 then ret ([a], false)
              else
                let! rest := fetch_args k' uargv (i + 1) in
                ret (a :: fst rest, snd rest)
      end
  end.

(** [exec] is kernel/exec.c. *)
Definition sys_exec (exec : list Z -> list Z -> M T Z) : M T Z :=
  let! uargv := proc (env_argaddr 1) in
  let! path := proc (env_argstr 0 MAXPATH) in
  match path with
  | None => ret (-1)
  | Some path =>
      let! r := fetch_args MAXARG uargv 0 in
      if snd r then
        let! v := exec path (fst r) in
        free_args (fst r);;;
        ret v
      else
        free_args (fst r);;;
        ret (-1)
  end.

(** Giving the two ends of the pipe back in [sys_pipe]. *)
Definition close_both (rf wf : nat) : M T Z :=
  fileclose rf;;; fileclose wf;;; ret (-1).

Definition sys_pipe : M T Z :=
  let! fdarray := proc (env_argaddr 0) in
  let! p := pipealloc in
  match p with
  | None => ret (-1)
  | Some (rf, wf) =>
      let! fd0 := fdalloc rf in
      if fd0 <? 0 then close_both rf wf
      else
        let! fd1 := fdalloc wf in
        if fd1 <? 0 then proc (env_set_ofile fd0 None);;; close_both rf wf
        else
          let! r0 := proc (env_copyout 1 fdarray (le_bytes 4 fd0)) in
          let! r1 := (if r0 <? 0 then ret r0
                      else proc (env_copyout 1 (u64 (fdarray + 4)) (le_bytes 4 fd1))) in
          if r1 <? 0 then
            proc (env_set_ofile fd0 None);;;
            proc (env_set_ofile fd1 None);;;
            close_both rf wf
          else ret 0
  end.

End Sysfile.
