(* ===== verification/Exec.v ===== *)
(** * Loading a program (kernel/exec.c, kernel/elf.h)

    [exec] reads the program through the file system into a fresh address space, so it
    runs on the file system and on processes and memory at once.  The first part makes
    the process side an [FsEnv]: a block's data, the locals whose address the code takes
    and the argument strings lie in physical memory. *)

From S2P Require Import Prelude Layout Memory Bytes Kalloc Vm Priority Proc.
From S2P Require Import Sleeplock BlockCache Log FsState Balloc Inode Dir.

(** ** The process under the file system *)

Section Env.
(** The address of the bytes of the block that is copied to or from. *)
Variable data_addr : Z.

Definition kernel_env : FsEnv (kernel unit) := {|
  env_copyout := fun user_dst dst bs =>
    mem_op (modify (fun s => set_mem (mput (km_mem s) data_addr bs) s));;;
    either_copyout user_dst dst data_addr (Z.of_nat (length bs));
  env_copyin := fun user_src src old =>
    mem_op (modify (fun s => set_mem (mput (km_mem s) data_addr old) s));;;
    let! r := either_copyin data_addr user_src src (Z.of_nat (length old)) in
    let! s := mem_op get in
    ret (r, bytes (km_mem s) data_addr (length old));
  env_load := fun a n => let! s := mem_op get in ret (bytes (km_mem s) a n);
  env_store := fun a bs => mem_op (modify (fun s => set_mem (mput (km_mem s) a bs) s));
  env_cwd := let! p := myproc in let! pp := gproc p in ret (p_cwd pp);
|}.
End Env.

(** ** elf.h *)

Definition ELF_MAGIC : Z := 0x464C457F.
Definition ELFHDR_SIZE : Z := 64.
Definition PROGHDR_SIZE : Z := 56.
Definition ELF_PROG_LOAD : Z := 1.

Notation get64 := (getn 8).
Definition elf_magic (e : list Z) : Z := get32 e 0.
Definition elf_entry (e : list Z) : Z := get64 e 24.
Definition elf_phoff (e : list Z) : Z := get64 e 32.
Definition elf_phnum (e : list Z) : Z := get16 e 56.
Definition ph_type (e : list Z) : Z := get32 e 0.
Definition ph_flags (e : list Z) : Z := get32 e 4.
Definition ph_off (e : list Z) : Z := get64 e 8.
Definition ph_vaddr (e : list Z) : Z := get64 e 16.
Definition ph_filesz (e : list Z) : Z := get64 e 32.
Definition ph_memsz (e : list Z) : Z := get64 e 40.

Definition flags2perm (flags : Z) : Z :=
  let perm := if ctrue (Z.land flags 1) then PTE_X else 0 in
  if ctrue (Z.land flags 2) then Z.lor perm PTE_W else perm.

(** [for (last = s = path; *s; s++) if ( *s == '/') last = s + 1;] *)
Fixpoint last_element (last s : list Z) : list Z :=
  match s with
  | [] => last
  | c :: s' => last_element (if c =? slash then s' else last) s'
  end.

Section Exec.
Context {S : Type} `{BC : BlockCache S}.
(** The linker's symbols, and the addresses of block data and of the locals [de], [elf],
    [ph] and [ustack]. *)
Variables kend trampoline data_addr de_addr elf_addr ph_addr ustack_addr : Z.
#[local] Instance exec_env : FsEnv (kernel unit) := kernel_env data_addr.
Notation T := (fsys S * kernel unit)%type.
Notation mem m := (env (mem_op m)).

Fixpoint loadseg_from (fuel : nat) (pagetable va : Z) (ip : nat) (offset sz i : Z) : M T Z :=
  if i <? sz then
    match fuel with
    | O => diverge
    | Datatypes.S fuel' =>
        let! pa := mem (walkaddr pagetable (u64 (va + i))) in
        if pa =? 0 then panic "loadseg: address should exist"
        else
          let n := if u32 (sz - i) <? PGSIZE then u32 (sz - i) else PGSIZE in
          let! r := readi ip 0 pa (u32 (offset + i)) n in
          if negb (u32 r =? n) then ret (-1)
          else loadseg_from fuel' pagetable va ip offset sz (u32 (i + PGSIZE))
    end
  else ret 0.
Definition loadseg (pagetable va : Z) (ip : nat) (offset sz : Z) : M T Z :=
  loadseg_from (Z.to_nat (sz / PGSIZE + 1)) pagetable va ip offset sz 0.

(** The loop over the program headers: the size reached and whether every header was
    loaded ([false]: [goto bad]). *)
Fixpoint load_from (k : nat) (ip : nat) (pagetable sz off : Z) : M T (Z * bool) :=
  match k with
  | O => ret (sz, true)
  | Datatypes.S k' =>
      let! r := readi ip 0 ph_addr (u32 off) PROGHDR_SIZE in
      if negb (r =? PROGHDR_SIZE) then ret (sz, false)
      else
        let! ph := env (env_load ph_addr (Z.to_nat PROGHDR_SIZE)) in
        let next := i32 (off + PROGHDR_SIZE) in
        if negb (ph_type ph =? ELF_PROG_LOAD) then load_from k' ip pagetable sz next
        else if ph_memsz ph <? ph_filesz ph then ret (sz, false)
        else if u64 (ph_vaddr ph + ph_memsz ph) <? ph_vaddr ph then ret (sz, false)
        else if negb (ph_vaddr ph mod PGSIZE =? 0) then ret (sz, false)
        else
          let! sz1 := mem (uvmalloc kend pagetable sz (u64 (ph_vaddr ph + ph_memsz ph)) (flags2perm (i32 (ph_flags ph)))) in
          if sz1 =? 0 then ret (sz, false)
          else
            let! r := loadseg pagetable (ph_vaddr ph) ip (u32 (ph_off ph)) (u32 (ph_filesz ph)) in
            if r <? 0 then ret (sz1, false)
            else load_from k' ip pagetable sz1 next
  end.

(** The loop that pushes the argument strings: the stack pointer and the pointers pushed;
    [None] is [goto bad]. *)
Fixpoint push_args (argv : list Z) (pagetable stackbase sp argc : Z) : M T (option (Z * list Z)) :=
  match argv with
  | [] => ret (Some (sp, []))
  | a :: argv' =>
      if argc >=? Z.of_nat MAXARG then ret None
      else
        let! s := mem get in
        let! len := deref "strlen" (strlen (Z.to_nat PGSIZE) (km_mem s) a) in
        let sp := u64 (sp - (len + 1)) in
        let sp := u64 (sp - sp mod 16) in
        if sp <? stackbase then ret None
        else
          let! r := mem (copyout pagetable sp a (len + 1)) in
          if r <? 0 then ret None
          else
            let! rest := push_args argv' pagetable stackbase sp (argc + 1) in
            ret (match rest with None => None | Some (sp', u) => Some (sp', sp :: u) end)
  end.

(** The label [bad]; the inode is still locked when [locked]. *)
Definition exec_bad (ip : option nat) (pagetable sz : Z) : M T Z :=
  (if ctrue pagetable then mem (proc_freepagetable kend pagetable sz) else ret tt);;;
  match ip with
  | Some ip => fs (iunlockput ip);;; fs (logged end_op);;; ret (-1)
  | None => ret (-1)
  end.

(** From the stack on, once the program is loaded. *)
Definition exec_stack (path argv : list Z) (elf : list Z) (pagetable sz : Z) : M T Z :=
  let! p := env myproc in
  let! pp := env (gproc p) in
  let oldsz := p_sz pp in
  let sz := PGROUNDUP sz in
  let! sz1 := mem (uvmalloc kend pagetable sz (u64 (sz + (USERSTACK + 1) * PGSIZE)) PTE_W) in
  if sz1 =? 0 then exec_bad None pagetable sz
  else
    let sz := sz1 in
    mem (uvmclear pagetable (u64 (sz - (USERSTACK + 1) * PGSIZE)));;;
    let stackbase := u64 (sz - USERSTACK * PGSIZE) in
    let! pushed := push_args argv pagetable stackbase sz 0 in
    match pushed with
    | None => exec_bad None pagetable sz
    | Some (sp, ustack) =>
        let argc := Z.of_nat (length ustack) in
        let sp := u64 (sp - (argc + 1) * 8) in
        let sp := u64 (sp - sp mod 16) in
        if sp <? stackbase then exec_bad None pagetable sz
        else
          env (env_store ustack_addr (concat (le_bytes 8 <$> ustack ++ [0])));;;
          let! r := mem (copyout pagetable sp ustack_addr ((argc + 1) * 8)) in
          if r <? 0 then exec_bad None pagetable sz
          else
            mem (store64 (p_trapframe pp + tf_a 1) sp);;;
            env (uproc p (fun q => with_name (array_safestrcpy (p_name q) (last_element path path ++ [0])) q));;;
            env (uproc p (with_pagetable pagetable));;;
            env (uproc p (with_sz sz));;;
            mem (store64 (p_trapframe pp + tf_epc) (elf_entry elf));;;
            mem (store64 (p_trapframe pp + tf_sp) sp);;;
            mem (proc_freepagetable kend (p_pagetable pp) oldsz);;;
            ret (i32 argc)
    end.

(** [argv] are the addresses of the argument strings, without the terminating null. *)
Definition exec (path argv : list Z) : M T Z :=
  let! p := env myproc in
  fs (logged begin_op);;;
  let! ip := namei de_addr path in
  match ip with
  | None => fs (logged end_op);;; ret (-1)
  | Some ip =>
      fs (ilock (Some ip));;;
      let! r := readi ip 0 elf_addr 0 ELFHDR_SIZE in
      if negb (r =? ELFHDR_SIZE) then exec_bad (Some ip) 0 0
      else
        let! elf := env (env_load elf_addr (Z.to_nat ELFHDR_SIZE)) in
        if negb (elf_magic elf =? ELF_MAGIC) then exec_bad (Some ip) 0 0
        else
          let! pp := env (gproc p) in
          let! pagetable := mem (proc_pagetable kend trampoline (p_trapframe pp)) in
          if pagetable =? 0 then exec_bad (Some ip) 0 0
          else
            let! l := load_from (Z.to_nat (elf_phnum elf)) ip pagetable 0 (i32 (elf_phoff elf)) in
            if negb (snd l) then exec_bad (Some ip) pagetable (fst l)
            else
              fs (iunlockput ip);;;
              fs (logged end_op);;;
              exec_stack path argv elf pagetable (fst l)
  end.

End Exec.
