(* ===== verification/Mkfs.v ===== *)
(** * The program that makes a file system (mkfs/mkfs.c)

    mkfs runs on the machine that builds the kernel and writes an image: the superblock,
    an empty log, the inodes, the bitmap, a root directory and a copy of each file named
    on its command line.

    The image file is its sectors and its length in sectors; every transfer is one sector
    at a multiple of [BSIZE].  A write beyond the end extends the file, a read beyond the
    end is short and ends the program, and the host's file takes every write.  A
    [struct dinode] of the program is an [inode] of which [load_dinode] and [store_dinode]
    move the fields of the disk.  The host has the byte order of the target; [exit] after
    an error and a failed assertion are [Panic]. *)

From S2P Require Import Prelude Layout Memory Bytes Sleeplock BlockCache Log LogProto FsState Balloc Inode Dir.

Definition NINODES : Z := 200.
Definition nbitmap : Z := FSSIZE / BPB + 1.
Definition ninodeblocks : Z := NINODES / IPB + 1.
Definition nmeta : Z := 2 + mkfs_nlog + ninodeblocks + nbitmap.
Definition nblocks : Z := FSSIZE - nmeta.

(** The image and the global variables of the program. *)
Record mk := mkMk {
  mk_img : blocks;
  mk_len : Z;
  mk_sb : superblock;
  mk_freeinode : Z;
  mk_freeblock : Z;
}.

Definition zeroes : block := replicate (Z.to_nat BSIZE) 0.

(** The program as it starts, with an empty image file. *)
Definition mk0 : mk := mkMk (fun _ => zeroes) 0 (mkSuperblock 0 0 0 0 0 0 0 0) 1 0.

Definition set_img (v : blocks) (n : Z) (s : mk) : mk := mkMk v n (mk_sb s) (mk_freeinode s) (mk_freeblock s).
Definition set_mksb (sb : superblock) (s : mk) : mk := mkMk (mk_img s) (mk_len s) sb (mk_freeinode s) (mk_freeblock s).
Definition set_freeinode (i : Z) (s : mk) : mk := mkMk (mk_img s) (mk_len s) (mk_sb s) i (mk_freeblock s).
Definition set_freeblock (b : Z) (s : mk) : mk := mkMk (mk_img s) (mk_len s) (mk_sb s) (mk_freeinode s) b.

(** Convert to riscv byte order. *)
Definition xshort (x : Z) : Z := get16 (put8 (put8 [0; 0] 0 x) 1 (Z.shiftr x 8)) 0.
Definition xint (x : Z) : Z :=
  get32 (put8 (put8 (put8 (put8 [0; 0; 0; 0] 0 x) 1 (Z.shiftr x 8)) 2 (Z.shiftr x 16)) 3 (Z.shiftr x 24)) 0.

Definition die {A} (s : string) : M mk A := panic s.
Definition assert (b : bool) : M mk unit := when (negb b) (panic "assert").

(** The sector at file offset [sec * BSIZE], computed in [uint]. *)
Definition sector (sec : Z) : Z := u32 (sec * BSIZE) / BSIZE.

Definition wsect (sec : Z) (buf : block) : M mk unit :=
  modify (fun s => set_img (upd (mk_img s) (sector sec) buf) (Z.max (mk_len s) (sector sec + 1)) s).

Definition rsect (sec : Z) : M mk block :=
  let! s := get in
  if sector sec <? mk_len s then ret (mk_img s (sector sec)) else die "read".

Definition dinode0 : inode := mkInode 0 0 0 (mkSleeplock 0 0) 0 0 0 0 0 0 (replicate (Z.to_nat (NDIRECT + 1)) 0).

Definition winode (inum : Z) (ip : inode) : M mk unit :=
  let! sb := gets mk_sb in
  let bn := IBLOCK inum sb in
  let! buf := rsect bn in
  wsect bn (store_dinode ip buf (dinode_off inum)).

Definition rinode (inum : Z) : M mk inode :=
  let! sb := gets mk_sb in
  let bn := IBLOCK inum sb in
  let! buf := rsect bn in
  ret (load_dinode buf (dinode_off inum) dinode0).

Definition mk_ialloc (type : Z) : M mk Z :=
  let! inum := gets mk_freeinode in
  modify (set_freeinode (u32 (inum + 1)));;;
  let din := with_isize (xint 0) (with_inlink (i16 (xshort 1)) (with_itype (i16 (xshort type)) dinode0)) in
  winode inum din;;;
  ret inum.

(** The bits of the blocks from [i] on, [k] of them. *)
Fixpoint mark_used (k : nat) (i : Z) (buf : block) : block :=
  match k with
  | O => buf
  | S k' => mark_used k' (i + 1)
              (put8 buf (Z.to_nat (i / 8)) (Z.lor (get8 buf (Z.to_nat (i / 8))) (Z.shiftl 1 (i mod 8))))
  end.

Definition mk_balloc (used : Z) : M mk unit :=
  assert (used <? BPB);;;
  let! sb := gets mk_sb in
  wsect (sb_bmapstart sb) (mark_used (Z.to_nat used) 0 zeroes).

(** [xint(freeblock++)] *)
Definition next_block : M mk Z :=
  let! b := gets mk_freeblock in
  modify (set_freeblock (u32 (b + 1)));;;
  ret (xint b).

Definition addrs_at (din : inode) (k : Z) : Z := default 0 (znth (i_addrs din) k).

(** [if(xint(din.addrs[k]) == 0) din.addrs[k] = xint(freeblock++);] *)
Definition fill_addr (k : Z) (din : inode) : M mk inode :=
  if xint (addrs_at din k) =? 0 then
    let! b := next_block in
    ret (with_iaddrs (zupd (i_addrs din) k b) din)
  else ret din.

(** The inode and the block [x] that holds block [fbn] of the file. *)
Definition find_block (fbn : Z) (din : inode) : M mk (inode * Z) :=
  if fbn <? NDIRECT then
    let! din := fill_addr fbn din in
    ret (din, xint (addrs_at din fbn))
  else
    let! din := fill_addr NDIRECT din in
    let! indirect := rsect (xint (addrs_at din NDIRECT)) in
    let o := Z.to_nat (4 * (fbn - NDIRECT)) in
    let! indirect :=
      if get32 indirect o =? 0 then
        let! b := next_block in
        wsect (xint (addrs_at din NDIRECT)) (put32 indirect o b);;;
        ret (put32 indirect o b)
      else ret indirect in
    ret (din, xint (get32 indirect o)).

(** [while(n > 0)], with [p] the bytes that are left; the inode and the offset it ends with. *)
Fixpoint iappend_loop (fuel : nat) (p : list Z) (n off : Z) (din : inode) : M mk (inode * Z) :=
  if 0 <? n then
    match fuel with
    | O => diverge
    | S fuel' =>
        let fbn := off / BSIZE in
        assert (fbn <? MAXFILE);;;
        let! r := find_block fbn din in
        let '(din, x) := r in
        let n1 := Z.min (u32 n) (u32 ((fbn + 1) * BSIZE - off)) in
        let! buf := rsect x in
        wsect x (splice buf (Z.to_nat (off - fbn * BSIZE)) (take (Z.to_nat n1) p));;;
        iappend_loop fuel' (drop (Z.to_nat n1) p) (n - n1) (u32 (off + n1)) din
    end
  else ret (din, off).

Definition iappend (inum : Z) (xp : list Z) (n : Z) : M mk unit :=
  let! din := rinode inum in
  let off := xint (i_size din) in
  let! r := iappend_loop (Z.to_nat n) xp n off din in
  let '(din, off) := r in
  winode inum (with_isize (xint off) din).

(** [for(i = 0; i < FSSIZE; i++) wsect(i, zeroes);] *)
Fixpoint zero_image (k : nat) (i : Z) : M mk unit :=
  match k with
  | O => ret tt
  | S k' => wsect i zeroes;;; zero_image k' (i + 1)
  end.

(** The bytes of [struct superblock]. *)
Definition sb_bytes (sb : superblock) : list Z :=
  le_bytes 4 (sb_magic sb) ++ le_bytes 4 (sb_size sb) ++ le_bytes 4 (sb_nblocks sb) ++ le_bytes 4 (sb_ninodes sb) ++
  le_bytes 4 (sb_nlog sb) ++ le_bytes 4 (sb_logstart sb) ++ le_bytes 4 (sb_inodestart sb) ++ le_bytes 4 (sb_bmapstart sb).

Definition mkfs_sb : superblock :=
  mkSuperblock FSMAGIC (xint FSSIZE) (xint nblocks) (xint NINODES) (xint mkfs_nlog) (xint 2) (xint (2 + mkfs_nlog))
    (xint (2 + mkfs_nlog + ninodeblocks)).

(** A [struct dirent] for [inum] whose name is the characters [name], filled with zeros:
    [strcpy] of a shorter name into a cleared entry and [strncpy] agree. *)
Definition dirent (inum : Z) (name : list Z) : list Z :=
  le_bytes 2 (xshort inum) ++ take (Z.to_nat DIRSIZ) (name ++ replicate (Z.to_nat DIRSIZ) 0).

Definition dot_char : Z := 46.
Definition underscore : Z := 95.
Definition user_dir : list Z := [117; 115; 101; 114; 47].

(** Get rid of "user/", and skip a leading _. *)
Definition strip_user (arg : list Z) : list Z :=
  if decide (take 5 arg = user_dir) then drop 5 arg else arg.
Definition skip_underscore (shortname : list Z) : list Z :=
  match shortname with c :: l => if c =? underscore then l else shortname | [] => [] end.

(** The end of [main]: the size of the root directory, and the bitmap. *)
Definition finish (rootino : Z) : M mk Z :=
  let! din := rinode rootino in
  let off := xint (i_size din) in
  let off := u32 (u32 (off / BSIZE + 1) * BSIZE) in
  winode rootino (with_isize (xint off) din);;;
  let! used := gets mk_freeblock in
  mk_balloc (i32 used);;;
  ret 0.

(** What opening a file of the host and reading it yields: the pieces that successive
    calls of [read(fd, buf, sizeof(buf))] deliver. *)
Class Host := host_file : list Z -> option (list (list Z)).

Section Main.
Context {HF : Host}.

Fixpoint copy_file (inum : Z) (reads : list (list Z)) : M mk unit :=
  match reads with
  | buf :: reads' =>
      let cc := Z.of_nat (length buf) in
      if 0 <? cc then iappend inum buf cc;;; copy_file inum reads' else ret tt
  | [] => ret tt
  end.

Definition add_file (rootino : Z) (arg : list Z) : M mk unit :=
  let shortname := strip_user arg in
  assert (bool_decide (slash ∉ shortname));;;
  match host_file arg with
  | None => die "open"
  | Some reads =>
      let shortname := skip_underscore shortname in
      assert (Z.of_nat (length shortname) <=? DIRSIZ);;;
      let! inum := mk_ialloc T_FILE in
      iappend rootino (dirent inum shortname) DIRENT_SIZE;;;
      copy_file inum reads
  end.

Fixpoint add_files (rootino : Z) (args : list (list Z)) : M mk unit :=
  match args with
  | arg :: args' => add_file rootino arg;;; add_files rootino args'
  | [] => ret tt
  end.

(** [main] with the arguments after the name of the image. *)
Definition mkfs_main (args : list (list Z)) : M mk Z :=
  modify (set_mksb mkfs_sb);;;
  modify (set_freeblock nmeta);;;
  zero_image (Z.to_nat FSSIZE) 0;;;
  wsect 1 (splice zeroes 0 (sb_bytes mkfs_sb));;;
  let! rootino := mk_ialloc T_DIR in
  assert (rootino =? ROOTINO);;;
  iappend rootino (dirent rootino [dot_char]) DIRENT_SIZE;;;
  iappend rootino (dirent rootino [dot_char; dot_char]) DIRENT_SIZE;;;
  add_files rootino args;;;
  finish rootino.

End Main.
