(* ===== verification/MkfsSpec.v ===== *)
(** * The image mkfs makes is a file system

    The blocks of an image under construction are handed out once each; an owner map says
    to which file, and to which part of it, a block has gone.  Appending to a file keeps
    the contents of the others, so the finished image holds every file with its bytes, and
    satisfies what the proofs about kernel/fs.c assume of a disk. *)

From S2P Require Import Prelude Layout Memory Bytes Sleeplock BlockCache Bio BioSpec Log LogProto Storage FsState Txn Balloc BallocSpec Inode InodeSpec FileSpec InodeTable Dir DirSpec Mkfs.

(** ** Numbers *)

Lemma xint_id x : is_u32 x -> xint x = x.
Proof.
  intros Hx. unfold xint, getn, putn. cbn [take drop app le_bytes le_val length Nat.add].
  rewrite !Z.shiftr_div_pow2 by lia. change (2 ^ 8) with 256. change (2 ^ 16) with 65536. change (2 ^ 24) with 16777216.
  Z.div_mod_to_equations. lia.
Qed.

Lemma xshort_id x : 0 <= x < 65536 -> xshort x = x.
Proof.
  intros Hx. unfold xshort, getn, putn. cbn [take drop app le_bytes le_val length Nat.add].
  rewrite !Z.shiftr_div_pow2 by lia. change (2 ^ 8) with 256. Z.div_mod_to_equations. lia.
Qed.

Lemma sector_id n : 0 <= n < 2 ^ 22 -> sector n = n.
Proof. intros Hn. unfold sector, BSIZE. rewrite u32_id by lia. apply Z.div_mul. lia. Qed.

Lemma mkfs_sb_eq : mkfs_sb = mkSuperblock FSMAGIC 2000 1954 200 30 2 32 45.
Proof. reflexivity. Qed.

Lemma mkfs_sb_ok : sb_ok mkfs_sb.
Proof. split; vm_compute; try split; congruence || done. Qed.

Lemma get16_zero n : get16 zero_block n = 0.
Proof.
  unfold getn, zero_block. rewrite drop_replicate, take_replicate. induction (_ `min` _)%nat as [|k IH]; cbn; [done|]. by rewrite IH.
Qed.

Lemma nth_zero n : nth n zero_block 0 = 0.
Proof. unfold zero_block. rewrite nth_lookup. destruct (_ !! n) eqn:E; [|done]. by apply lookup_replicate in E as [-> _]. Qed.

Lemma block_index o : 0 <= o < MAXFILE * BSIZE -> 0 <= o / BSIZE < MAXFILE.
Proof. change MAXFILE with 268. change BSIZE with 1024. intros. Z.div_mod_to_equations. lia. Qed.

Lemma nth_app (c d : list Z) n : nth n (c ++ d) 0 = if (n <? length c)%nat then nth n c 0 else nth (n - length c) d 0.
Proof. destruct (Nat.ltb_spec n (length c)); [by apply app_nth1|by apply app_nth2]. Qed.

(** Blocks of a file of [L] bytes: data blocks, and the indirect block. *)
Definition need (L : Z) : Z := (L + BSIZE - 1) / BSIZE + (if NDIRECT * BSIZE <? L then 1 else 0).

(** ** Files of an image under construction *)

(** To which file a block belongs: as its [k]-th data block, or as its indirect block. *)
Definition owner : Type := Z -> option (Z * option Z).
Definition own_set (own : owner) (b : Z) (x : Z * option Z) : owner := fun n => if n =? b then Some x else own n.

Lemma own_set_eq own b x : own_set own b x b = Some x.
Proof. unfold own_set. by rewrite Z.eqb_refl. Qed.
Lemma own_set_ne own b x n : n <> b -> own_set own b x n = own n.
Proof. intros. unfold own_set. by destruct (Z.eqb_spec n b). Qed.

(** The file [inum] has the addresses of [i] and the content [c]; it has the data blocks
    of [L] bytes, and an indirect block if [q]. *)
Record finv (v : blocks) (own : owner) (inum : Z) (i : inode) (c : list Z) (L : Z) (q : bool) : Prop := mkFinv {
  fi_len : length (i_addrs i) = Z.to_nat (NDIRECT + 1);
  fi_u32 : Forall (fun a => is_u32 a) (i_addrs i);
  fi_data : forall k, 0 <= k < MAXFILE -> addr_of v i k <> 0 -> own (addr_of v i k) = Some (inum, Some k);
  fi_ind : ind i <> 0 -> own (ind i) = Some (inum, None);
  fi_alloc : forall k, 0 <= k < MAXFILE -> addr_of v i k <> 0 <-> k * BSIZE < L;
  fi_inda : ind i <> 0 <-> q = true;
  fi_bytes : forall o, 0 <= o < MAXFILE * BSIZE -> fbyte v i o = nth (Z.to_nat o) c 0;
}.

Section Grow.
Context (v : blocks) (own : owner) (inum : Z) (i : inode) (c : list Z) (L : Z).

Lemma finv_ext q v' own' :
  (forall n t, own n = Some (inum, t) -> v' n = v n /\ own' n = own n) ->
  finv v own inum i c L q -> finv v' own' inum i c L q.
Proof.
  intros Hext [H1 H2 H3 H4 H5 H6 H7].
  assert (Ha : forall k, addr_of v' i k = addr_of v i k).
  { intros k. unfold addr_of. destruct (k <? NDIRECT); [done|]. destruct (Z.eqb_spec (ind i) 0) as [E|E]; [done|].
    unfold entry. by rewrite (proj1 (Hext _ _ (H4 E))). }
  split; try done.
  - intros k Hk. rewrite Ha. intros Hne. by rewrite (proj2 (Hext _ _ (H3 k Hk Hne))), H3.
  - intros Hne. by rewrite (proj2 (Hext _ _ (H4 Hne))), H4.
  - intros k Hk. rewrite Ha. by apply H5.
  - intros o Ho. rewrite <- H7 by done. unfold fbyte. rewrite Ha. destruct (Z.eqb_spec (addr_of v i (o / BSIZE)) 0) as [E|E]; [done|].
    rewrite (proj1 (Hext _ _ (H3 _ (block_index _ Ho) E))). done.
Qed.

(** A new zero block [b] as block [k] of the file changes no byte. *)
Lemma finv_alloc v' i' q k b :
  finv v own inum i c L q -> 0 <= k < MAXFILE -> L = k * BSIZE -> own b = None -> b <> 0 -> v' b = zero_block ->
  length (i_addrs i') = Z.to_nat (NDIRECT + 1) -> Forall (fun a => is_u32 a) (i_addrs i') -> ind i' = ind i ->
  (forall n, n <> ind i -> v' n = v n) ->
  (forall j, 0 <= j < MAXFILE -> addr_of v' i' j = if j =? k then b else addr_of v i j) ->
  finv v' (own_set own b (inum, Some k)) inum i' c (L + 1) q.
Proof.
  intros [H1 H2 H3 H4 H5 H6 H7] Hk HL Hb Hb0 Hz Hl Hu Hind Hsame Ha.
  assert (Hob : forall n t, own n = Some t -> own_set own b (inum, Some k) n = Some t).
  { intros n t E. rewrite own_set_ne; [done|]. intros ->. congruence. }
  split; try done; rewrite ?Hind; auto.
  - intros j Hj. rewrite Ha by done. destruct (Z.eqb_spec j k) as [->|Hne]; [intros _; apply own_set_eq|].
    intros Hn. by apply Hob, H3.
  - intros j Hj. rewrite Ha by done. destruct (Z.eqb_spec j k) as [->|Hne]; [split; [lia|done]|].
    rewrite H5 by done. unfold BSIZE in *. lia.
  - intros o Ho. rewrite <- H7 by done. unfold fbyte. assert (0 <= o / BSIZE < MAXFILE) as Hd by (by apply block_index).
    rewrite Ha by done. destruct (Z.eqb_spec (o / BSIZE) k) as [E|E].
    + rewrite (proj2 (Z.eqb_neq b 0) Hb0), Hz, nth_zero. destruct (Z.eqb_spec (addr_of v i (o / BSIZE)) 0) as [E0|E0]; [done|].
      exfalso. apply H5 in E0; [|done]. lia.
    + destruct (Z.eqb_spec (addr_of v i (o / BSIZE)) 0) as [E0|E0]; [done|]. rewrite Hsame; [done|].
      intros Ei. pose proof (H3 _ Hd E0) as F1. rewrite Ei in *. rewrite (H4 E0) in F1. done.
Qed.

Lemma finv_alloc_direct q k b :
  finv v own inum i c L q -> 0 <= k < NDIRECT -> L = k * BSIZE -> own b = None -> b <> 0 -> is_u32 b -> v b = zero_block ->
  finv v (own_set own b (inum, Some k)) inum (with_iaddrs (zupd (i_addrs i) k b) i) c (L + 1) q.
Proof.
  intros Hf Hk HL Hb Hb0 Hbu Hz. pose proof (fi_len _ _ _ _ _ _ _ Hf) as Hl. assert (Hk' : 0 <= k <= NDIRECT) by lia.
  apply finv_alloc; try done.
  - change MAXFILE with 268. change NDIRECT with 12 in Hk. lia.
  - cbn. by rewrite length_zupd.
  - cbn. unfold zupd. apply Forall_insert; [apply Hf|done].
  - unfold ind. rewrite naddr_upd by done. by destruct (Z.eqb_spec NDIRECT k); [lia|].
  - intros j Hj. unfold addr_of, ind. rewrite !naddr_upd by done. destruct (Z.eqb_spec NDIRECT k); [lia|].
    destruct (Z.ltb_spec j NDIRECT); [done|]. by destruct (Z.eqb_spec j k); [lia|].
Qed.

Lemma entry_upd a o k b : length (v a) = Z.to_nat BSIZE -> 0 <= k < NINDIRECT -> 0 <= o < NINDIRECT -> is_u32 b ->
  entry (upd v a (put32 (v a) (Z.to_nat (4 * k)) b)) a o = if o =? k then b else entry v a o.
Proof.
  change NINDIRECT with 256. change (Z.to_nat BSIZE) with 1024%nat. intros Hl Hk Ho Hb. unfold entry. rewrite upd_eq.
  destruct (Z.eqb_spec o k) as [->|Hne].
  - rewrite getn_putn_eq by lia. by apply Z.mod_small.
  - apply getn_putn_ne; lia.
Qed.

Lemma finv_alloc_entry k b :
  finv v own inum i c L true -> NDIRECT <= k < MAXFILE -> L = k * BSIZE -> own b = None -> b <> 0 -> is_u32 b -> v b = zero_block ->
  length (v (ind i)) = Z.to_nat BSIZE ->
  finv (upd v (ind i) (put32 (v (ind i)) (Z.to_nat (4 * (k - NDIRECT))) b)) (own_set own b (inum, Some k)) inum i c (L + 1) true.
Proof.
  intros Hf Hk HL Hb Hb0 Hbu Hz Hl. pose proof (proj2 (fi_inda _ _ _ _ _ _ _ Hf) eq_refl) as Hi.
  pose proof (fi_ind _ _ _ _ _ _ _ Hf Hi) as Ho. assert (b <> ind i) by (intros ->; congruence).
  apply finv_alloc; try done; try apply Hf.
  - change NDIRECT with 12 in *. lia.
  - by rewrite upd_ne.
  - intros n Hn. by rewrite upd_ne.
  - intros j Hj. unfold addr_of. rewrite (proj2 (Z.eqb_neq _ _) Hi). unfold MAXFILE in *. destruct (Z.ltb_spec j NDIRECT).
    + by destruct (Z.eqb_spec j k); [lia|].
    + rewrite entry_upd by (done || lia). destruct (Z.eqb_spec j k) as [->|Hne]; [by rewrite Z.eqb_refl|].
      by destruct (Z.eqb_spec (j - NDIRECT) (k - NDIRECT)); [lia|].
Qed.

(** A zero block as indirect block. *)
Lemma finv_alloc_ind b :
  finv v own inum i c L false -> own b = None -> b <> 0 -> is_u32 b -> v b = zero_block ->
  finv v (own_set own b (inum, None)) inum (with_iaddrs (zupd (i_addrs i) NDIRECT b) i) c L true.
Proof.
  intros [H1 H2 H3 H4 H5 H6 H7] Hb Hb0 Hbu Hz. assert (Hi : ind i = 0) by (destruct (Z.eq_dec (ind i) 0) as [|Hn]; [done|]; apply H6 in Hn; done).
  assert (Hk : 0 <= NDIRECT <= NDIRECT) by (unfold NDIRECT; lia).
  assert (Hi' : ind (with_iaddrs (zupd (i_addrs i) NDIRECT b) i) = b) by (unfold ind; rewrite naddr_upd by done; by rewrite Z.eqb_refl).
  assert (Ha : forall j, addr_of v (with_iaddrs (zupd (i_addrs i) NDIRECT b) i) j = addr_of v i j).
  { intros j. unfold addr_of. rewrite Hi', Hi. destruct (Z.ltb_spec j NDIRECT).
    - rewrite naddr_upd by done. by destruct (Z.eqb_spec j NDIRECT); [lia|].
    - rewrite (proj2 (Z.eqb_neq b 0) Hb0). unfold entry. rewrite Hz. apply get32_zero. }
  split.
  - cbn. by rewrite length_zupd.
  - cbn. unfold zupd. by apply Forall_insert.
  - intros k Hkk. rewrite Ha. intros Hne. rewrite own_set_ne; [by apply H3|]. intros E. pose proof (H3 k Hkk Hne) as F. congruence.
  - rewrite Hi'. intros _. apply own_set_eq.
  - intros k Hkk. rewrite Ha. by apply H5.
  - by rewrite Hi'.
  - intros o Ho. unfold fbyte. rewrite Ha. by apply H7.
Qed.

(** The bytes [d] written behind the content, within one block. *)
Lemma finv_write q d :
  let x := addr_of v i (L / BSIZE) in
  finv v own inum i c (L + 1) q -> L = Z.of_nat (length c) -> L < MAXFILE * BSIZE -> d <> [] ->
  L mod BSIZE + Z.of_nat (length d) <= BSIZE -> length (v x) = Z.to_nat BSIZE ->
  finv (upd v x (splice (v x) (Z.to_nat (L mod BSIZE)) d)) own inum i (c ++ d) (L + Z.of_nat (length d)) q.
Proof.
  intros x Hf HL Hmax Hd Hfit Hlx. pose proof Hf as [H1 H2 H3 H4 H5 H6 H7].
  assert (Hm : 0 <= L mod BSIZE < BSIZE) by (apply Z.mod_pos_bound; done). assert (Hd0 : (0 < length d)%nat) by (destruct d; [done|cbn; lia]).
  assert (HkL : 0 <= L / BSIZE < MAXFILE) by (apply block_index; lia).
  assert (Hx : x <> 0) by (apply H5; [done|]; change BSIZE with 1024; Z.div_mod_to_equations; lia).
  pose proof (H3 _ HkL Hx) as Hox. fold x in Hox.
  assert (Hne : forall k, 0 <= k < MAXFILE -> addr_of v i k <> 0 -> addr_of v i k = x -> k = L / BSIZE).
  { intros k Hk Hk0 E. pose proof (H3 k Hk Hk0) as F. rewrite E in F. congruence. }
  assert (Ha : forall k, addr_of (upd v x (splice (v x) (Z.to_nat (L mod BSIZE)) d)) i k = addr_of v i k).
  { intros k. unfold addr_of. destruct (k <? NDIRECT); [done|]. destruct (Z.eqb_spec (ind i) 0) as [|Hi]; [done|].
    unfold entry. rewrite upd_ne; [done|]. intros E. pose proof (H4 Hi) as F. rewrite E in F. congruence. }
  split; try done.
  - intros k Hk. rewrite Ha. by apply H3.
  - intros k Hk. rewrite Ha, H5 by done. change BSIZE with 1024 in *. Z.div_mod_to_equations. lia.
  - intros o Ho. pose proof (block_index o Ho) as Hko. pose proof (H7 o Ho) as Hc. unfold fbyte in *. rewrite Ha.
    rewrite (nth_app c d). destruct (Z.eq_dec (o / BSIZE) (L / BSIZE)) as [E|E].
    + rewrite E in *. fold x in Hc |- *. rewrite (proj2 (Z.eqb_neq x 0) Hx) in *. rewrite upd_eq, nth_splice by (rewrite Hlx; lia).
      assert (o - o mod BSIZE = L - L mod BSIZE) as Eo by (change BSIZE with 1024 in *; Z.div_mod_to_equations; lia).
      pose proof (Z.mod_pos_bound o BSIZE ltac:(done)). case_decide as Hj.
      * rewrite (proj2 (Nat.ltb_ge _ _)) by lia. f_equal. lia.
      * rewrite Hc. destruct (Nat.ltb_spec (Z.to_nat o) (length c)); [done|]. rewrite !nth_overflow by lia. done.
    + assert (Hov : (Z.to_nat o < length c \/ length c + length d <= Z.to_nat o)%nat) by (change BSIZE with 1024 in *; Z.div_mod_to_equations; lia).
      transitivity (nth (Z.to_nat o) c 0).
      * rewrite <- Hc. destruct (Z.eqb_spec (addr_of v i (o / BSIZE)) 0) as [|Hn]; [done|]. rewrite upd_ne; [done|]. intros Ex. by apply E, Hne.
      * destruct (Nat.ltb_spec (Z.to_nat o) (length c)); [done|]. rewrite !nth_overflow by lia. done.
Qed.

End Grow.

Lemma finv_more v own inum i c L q : L mod BSIZE <> 0 -> finv v own inum i c L q -> finv v own inum i c (L + 1) q.
Proof.
  intros HL [H1 H2 H3 H4 H5 H6 H7]. split; try done. intros k Hk. rewrite H5 by done.
  change BSIZE with 1024 in *. Z.div_mod_to_equations. lia.
Qed.

(** ** The image under construction *)

Record base (s : mk) (own : owner) : Prop := mkBase {
  ba_len : mk_len s = FSSIZE;
  ba_sb : mk_sb s = mkfs_sb;
  ba_blk : forall n, length (mk_img s n) = Z.to_nat BSIZE;
  ba_bytes : forall n, byte_list (mk_img s n);
  ba_free : nmeta <= mk_freeblock s <= FSSIZE;
  ba_zero : forall n, mk_freeblock s <= n < FSSIZE -> mk_img s n = zero_block;
  ba_own : forall n t, own n = Some t -> nmeta <= n < mk_freeblock s;
}.

(** Work on the file [inum] changes only its blocks, and new ones are its own. *)
Record grows (inum : Z) (s s' : mk) (own own' : owner) : Prop := mkGrows {
  gs_img : forall n, n < mk_freeblock s -> (forall t, own n <> Some (inum, t)) -> mk_img s' n = mk_img s n;
  gs_own : forall n, n < mk_freeblock s -> own' n = own n;
  gs_new : forall n t, mk_freeblock s <= n -> own' n = Some t -> t.1 = inum;
  gs_ino : mk_freeinode s' = mk_freeinode s;
  gs_free : mk_freeblock s <= mk_freeblock s';
}.

Lemma filegrow_refl inum s own : base s own -> grows inum s s own own.
Proof. intros Hb. split; try done. intros n t Hn E. apply (ba_own _ _ Hb) in E. lia. Qed.

Lemma filegrow_trans inum s1 s2 s3 own1 own2 own3 :
  grows inum s1 s2 own1 own2 -> grows inum s2 s3 own2 own3 -> grows inum s1 s3 own1 own3.
Proof.
  intros [A1 A2 A3 A4 A5] [B1 B2 B3 B4 B5]. split; try congruence; try lia.
  - intros n Hn Ho. rewrite B1; [by apply A1|lia|]. by rewrite A2.
  - intros n Hn. rewrite B2 by lia. by apply A2.
  - intros n t Hn Ht. destruct (Z.lt_ge_cases n (mk_freeblock s2)); [|by eapply B3].
    rewrite B2 in Ht by done. by eapply A3.
Qed.

Definition wr (s : mk) (n : Z) (b : block) : mk := set_img (upd (mk_img s) n b) FSSIZE s.

Lemma wsect_run th s n b : mk_len s = FSSIZE -> 0 <= n < FSSIZE -> wsect n b th s = Ok tt th (wr s n b).
Proof.
  intros Hl Hn. unfold wsect, modify, wr. rewrite sector_id by (unfold FSSIZE in *; lia). rewrite Hl, Z.max_l by lia. done.
Qed.

Lemma rsect_run th s n : mk_len s = FSSIZE -> 0 <= n < FSSIZE -> rsect n th s = Ok (mk_img s n) th s.
Proof.
  intros Hl Hn. unfold rsect, bind, get. rewrite sector_id by (unfold FSSIZE in *; lia). rewrite Hl.
  by destruct (Z.ltb_spec n FSSIZE); [|lia].
Qed.

Lemma base_wr s own n b : base s own -> n < mk_freeblock s -> length b = Z.to_nat BSIZE -> byte_list b -> base (wr s n b) own.
Proof.
  intros [H1 H2 H3 H4 H5 H6 H7] Hn Hl Hb. split; try done; cbn [wr mk_img set_img mk_freeblock].
  - intros m. unfold upd. by destruct (m =? n).
  - intros m. unfold upd. by destruct (m =? n).
  - intros m Hm. rewrite upd_ne by lia. by apply H6.
Qed.

Lemma grows_wr inum t s own n b : base s own -> own n = Some (inum, t) -> grows inum s (wr s n b) own own.
Proof.
  intros Hb Ho. split; try done.
  - intros m Hm Hne. cbn. rewrite upd_ne; [done|]. intros ->. by apply (Hne t).
  - intros m x Hm E. apply (ba_own _ _ Hb) in E. lia.
Qed.

Lemma next_block_ok inum t th s own : base s own -> mk_freeblock s < FSSIZE ->
  let b := mk_freeblock s in let s' := set_freeblock (b + 1) s in let own' := own_set own b (inum, t) in
  next_block th s = Ok b th s' /\ (own b = None /\ b <> 0 /\ is_u32 b /\ mk_img s b = zero_block) /\ base s' own' /\ grows inum s s' own own'.
Proof.
  intros Hb Hlt b s' own'. pose proof Hb as [H1 H2 H3 H4 H5 H6 H7]. change (mk_freeblock s) with b in Hlt, H5, H6, H7. change nmeta with 46 in *. change FSSIZE with 2000 in *.
  assert (Hn : own b = None). { destruct (own b) eqn:E; [|done]. apply H7 in E. lia. }
  split; [|split; [|split]].
  - unfold next_block, bind, gets, modify, ret. fold b. rewrite u32_id, xint_id by lia. done.
  - split_and!; try done; try lia. apply H6. lia.
  - split; try done; cbn [s' set_freeblock mk_img mk_freeblock].
    + change nmeta with 46. change FSSIZE with 2000. lia.
    + intros n Hn'. apply H6. change FSSIZE with 2000 in *. lia.
    + intros n x E. change nmeta with 46. unfold own', own_set in E. destruct (Z.eqb_spec n b); [lia|]. apply H7 in E. lia.
  - split; try done; cbn; fold b; try lia.
    + intros n Hn'. apply own_set_ne. lia.
    + intros n x Hn' E. unfold own', own_set in E. destruct (Z.eqb_spec n b); [by injection E as <-|]. apply H7 in E. lia.
Qed.

Lemma addrs_u32 v own inum i c L q k : finv v own inum i c L q -> is_u32 (addrs_at i k).
Proof.
  intros Hf. unfold addrs_at. destruct (znth (i_addrs i) k) as [a|] eqn:E; cbn; [|lia].
  apply znth_Some in E as [_ E]. by apply (Forall_lookup_1 _ _ _ _ (fi_u32 _ _ _ _ _ _ _ Hf) E).
Qed.

(** Blocks that finding the block of the next byte takes. *)
Definition fresh_data (L : Z) : Z := if L mod BSIZE =? 0 then 1 else 0.

Section Find.
Context (th : thread) (inum : Z).

(** A new state of the image after work on the file. *)
Definition stepped (s s' : mk) (own own' : owner) (cost : Z) : Prop :=
  base s' own' /\ grows inum s s' own own' /\ mk_freeblock s' = mk_freeblock s + cost.

Lemma stepped_refl s own : base s own -> stepped s s own own 0.
Proof. intros Hb. split; [done|]. split; [by apply filegrow_refl|lia]. Qed.

Lemma stepped_trans s1 s2 s3 own1 own2 own3 c1 c2 c : c = c1 + c2 ->
  stepped s1 s2 own1 own2 c1 -> stepped s2 s3 own2 own3 c2 -> stepped s1 s3 own1 own3 c.
Proof. intros -> (A1 & A2 & A3) (B1 & B2 & B3). split; [done|]. split; [by eapply filegrow_trans|lia]. Qed.

Lemma fill_direct s own i c L q :
  base s own -> finv (mk_img s) own inum i c L q -> 0 <= L -> L / BSIZE < NDIRECT -> mk_freeblock s + fresh_data L <= FSSIZE ->
  exists s' own' i', fill_addr (L / BSIZE) i th s = Ok i' th s' /\ stepped s s' own own' (fresh_data L) /\
    finv (mk_img s') own' inum i' c (L + 1) q /\ i' = with_iaddrs (i_addrs i') i.
Proof.
  intros Hb Hf HL Hk Hroom. unfold fill_addr. rewrite xint_id by (by eapply addrs_u32).
  assert (Hk0 : 0 <= L / BSIZE) by (apply Z.div_pos; done). assert (HkM : 0 <= L / BSIZE < MAXFILE) by (change MAXFILE with 268; change NDIRECT with 12 in Hk; lia).
  pose proof (fi_alloc _ _ _ _ _ _ _ Hf _ HkM) as Ha. unfold addr_of in Ha. rewrite (proj2 (Z.ltb_lt _ _) Hk) in Ha. change (naddr i) with (addrs_at i) in Ha.
  unfold fresh_data in *. destruct (Z.eqb_spec (L mod BSIZE) 0) as [Em|Em].
  - assert (EL : L = L / BSIZE * BSIZE) by (change BSIZE with 1024 in *; Z.div_mod_to_equations; lia).
    destruct (Z.eqb_spec (addrs_at i (L / BSIZE)) 0) as [E|E]; [|apply Ha in E; lia].
    destruct (next_block_ok inum (Some (L / BSIZE)) th s own Hb ltac:(lia)) as (En & (N1 & N2 & N3 & N4) & Hb' & Hg).
    rewrite (bind_ok _ _ _ _ _ _ _ En). unfold ret. eexists _, _, _. split; [done|]. split; [split; [done|split; [done|done]]|].
    split; [|done]. by apply finv_alloc_direct.
  - destruct (Z.eqb_spec (addrs_at i (L / BSIZE)) 0) as [E|E].
    { exfalso. apply Ha in E; [done|]. change BSIZE with 1024 in *. Z.div_mod_to_equations. lia. }
    exists s, own, i. split; [done|]. split; [by apply stepped_refl|]. split; [by apply finv_more|by destruct i].
Qed.

Lemma fill_ind s own i c L q :
  base s own -> finv (mk_img s) own inum i c L q -> mk_freeblock s + (if q then 0 else 1) <= FSSIZE ->
  exists s' own' i', fill_addr NDIRECT i th s = Ok i' th s' /\ stepped s s' own own' (if q then 0 else 1) /\
    finv (mk_img s') own' inum i' c L true /\ i' = with_iaddrs (i_addrs i') i.
Proof.
  intros Hb Hf Hroom. unfold fill_addr. rewrite xint_id by (by eapply addrs_u32). change (addrs_at i NDIRECT) with (ind i).
  pose proof (fi_inda _ _ _ _ _ _ _ Hf) as Hi. destruct q.
  - rewrite (proj2 (Z.eqb_neq _ _) (proj2 Hi eq_refl)). exists s, own, i. split; [done|]. split; [by apply stepped_refl|]. split; [done|by destruct i].
  - destruct (Z.eqb_spec (ind i) 0) as [E|E]; [|by apply Hi in E].
    destruct (next_block_ok inum None th s own Hb ltac:(lia)) as (En & (N1 & N2 & N3 & N4) & Hb' & Hg).
    rewrite (bind_ok _ _ _ _ _ _ _ En). unfold ret. eexists _, _, _. split; [done|]. split; [split; [done|split; [done|done]]|].
    split; [|done]. by apply finv_alloc_ind.
Qed.

Lemma data_range s own i c L q k : base s own -> finv (mk_img s) own inum i c L q -> 0 <= k < MAXFILE ->
  addr_of (mk_img s) i k <> 0 -> 0 <= addr_of (mk_img s) i k < mk_freeblock s /\ mk_freeblock s <= FSSIZE.
Proof.
  intros Hb Hf Hk Hne. pose proof (ba_own _ _ Hb _ _ (fi_data _ _ _ _ _ _ _ Hf k Hk Hne)). pose proof (ba_free _ _ Hb).
  change nmeta with 46 in *. lia.
Qed.

(** The indirect block [i] has gets an entry for the next byte. *)
Lemma fill_entry s own i c L :
  base s own -> finv (mk_img s) own inum i c L true -> NDIRECT <= L / BSIZE < MAXFILE -> mk_freeblock s + fresh_data L <= FSSIZE ->
  exists s' own',
    (let! indirect := rsect (ind i) in
     let! indirect :=
       if get32 indirect (Z.to_nat (4 * (L / BSIZE - NDIRECT))) =? 0 then
         let! b := next_block in
         wsect (ind i) (put32 indirect (Z.to_nat (4 * (L / BSIZE - NDIRECT))) b);;;
         ret (put32 indirect (Z.to_nat (4 * (L / BSIZE - NDIRECT))) b)
       else ret indirect in
     ret (i, xint (get32 indirect (Z.to_nat (4 * (L / BSIZE - NDIRECT)))))) th s =
      Ok (i, addr_of (mk_img s') i (L / BSIZE)) th s' /\ stepped s s' own own' (fresh_data L) /\
    finv (mk_img s') own' inum i c (L + 1) true.
Proof.
  intros Hb Hf Hk Hroom. pose proof (proj2 (fi_inda _ _ _ _ _ _ _ Hf) eq_refl) as Hi. pose proof (fi_ind _ _ _ _ _ _ _ Hf Hi) as Ho.
  pose proof (ba_own _ _ Hb _ _ Ho) as Hr. pose proof (ba_free _ _ Hb) as Hfr. assert (Hr' : 0 <= ind i < FSSIZE) by (change nmeta with 46 in *; lia).
  assert (HkM : 0 <= L / BSIZE < MAXFILE) by (change NDIRECT with 12 in Hk; lia).
  assert (Ha : forall v, addr_of v i (L / BSIZE) = get32 (v (ind i)) (Z.to_nat (4 * (L / BSIZE - NDIRECT)))).
  { intros v. unfold addr_of. by rewrite (proj2 (Z.ltb_ge _ _) (proj1 Hk)), (proj2 (Z.eqb_neq _ _) Hi). }
  rewrite (bind_ok _ _ _ _ _ _ _ (rsect_run th s (ind i) (ba_len _ _ Hb) Hr')).
  pose proof (fi_alloc _ _ _ _ _ _ _ Hf _ HkM) as Hall. rewrite Ha in Hall. unfold fresh_data in *.
  set (o := Z.to_nat (4 * (L / BSIZE - NDIRECT))) in *. destruct (Z.eqb_spec (L mod BSIZE) 0) as [Em|Em].
  - assert (EL : L = L / BSIZE * BSIZE) by (change BSIZE with 1024 in *; Z.div_mod_to_equations; lia).
    destruct (Z.eqb_spec (get32 (mk_img s (ind i)) o) 0) as [E|E]; [|apply Hall in E; lia].
    destruct (next_block_ok inum (Some (L / BSIZE)) th s own Hb ltac:(lia)) as (En & (N1 & N2 & N3 & N4) & Hb' & Hg).
    set (b := mk_freeblock s) in *. set (s1 := set_freeblock (b + 1) s) in *. set (own' := own_set own b _) in *.
    pose proof (finv_alloc_entry _ _ _ _ _ _ _ b Hf Hk EL N1 N2 N3 N4 (ba_blk _ _ Hb _)) as Hf'. fold o own' in Hf'.
    assert (Ho' : own' (ind i) = Some (inum, None)) by (unfold own'; rewrite own_set_ne; [done|intros E'; rewrite E' in Ho; congruence]).
    exists (wr s1 (ind i) (put32 (mk_img s (ind i)) o b)), own'. split; [|split; [split; [|split]|]].
    + unfold bind at 1 2. rewrite En. unfold bind, ret. rewrite wsect_run by (apply Hb' || done). rewrite Ha.
      cbn [wr mk_img set_img s1 set_freeblock]. rewrite upd_eq, xint_id; [done|]. apply getn_range, putn_bytes, Hb.
    + pose proof (ba_blk _ _ Hb (ind i)) as Hl. apply base_wr; [done|change (ind i < b + 1); lia| |apply putn_bytes, Hb].
      rewrite length_putn; [done|]. rewrite Hl. change (Z.to_nat BSIZE) with 1024%nat. change MAXFILE with 268 in *. change NDIRECT with 12 in *. lia.
    + eapply filegrow_trans; [done|]. by eapply grows_wr.
    + reflexivity.
    + exact Hf'.
  - destruct (Z.eqb_spec (get32 (mk_img s (ind i)) o) 0) as [E|E].
    { exfalso. apply Hall in E; [done|]. change BSIZE with 1024 in *. Z.div_mod_to_equations. lia. }
    exists s, own. unfold bind, ret. rewrite Ha, xint_id by apply getn_range, Hb. split; [done|]. split; [by apply stepped_refl|by apply finv_more].
Qed.

(** Whether a file of [L] bytes has an indirect block. *)
Definition indirect (L : Z) : bool := NDIRECT * BSIZE <? L.

Lemma find_block_ok s own i c L :
  base s own -> finv (mk_img s) own inum i c L (indirect L) -> 0 <= L < MAXFILE * BSIZE ->
  mk_freeblock s + (need (L + 1) - need L) <= FSSIZE ->
  exists s' own' i', find_block (L / BSIZE) i th s = Ok (i', addr_of (mk_img s') i' (L / BSIZE)) th s' /\
    stepped s s' own own' (need (L + 1) - need L) /\
    finv (mk_img s') own' inum i' c (L + 1) (indirect (L + 1)) /\ i' = with_iaddrs (i_addrs i') i.
Proof.
  intros Hb Hf HL Hroom. pose proof (block_index L HL) as HkM. unfold find_block.
  assert (Hn : need (L + 1) - need L = fresh_data L + (if indirect L then 0 else if indirect (L + 1) then 1 else 0)).
  { unfold need, indirect, fresh_data. change NDIRECT with 12. change BSIZE with 1024.
    destruct (Z.eqb_spec (L mod 1024) 0), (Z.ltb_spec (12 * 1024) L), (Z.ltb_spec (12 * 1024) (L + 1)); Z.div_mod_to_equations; lia. }
  assert (Hq : indirect (L + 1) = (NDIRECT <=? L / BSIZE)).
  { unfold indirect. change NDIRECT with 12. change BSIZE with 1024.
    destruct (Z.ltb_spec (12 * 1024) (L + 1)), (Z.leb_spec 12 (L / 1024)); try done; Z.div_mod_to_equations; lia. }
  assert (Hfd : 0 <= fresh_data L <= 1) by (unfold fresh_data; destruct (_ =? 0); lia).
  destruct (Z.ltb_spec (L / BSIZE) NDIRECT) as [Hk|Hk].
  - rewrite (proj2 (Z.leb_gt _ _) Hk) in Hq. assert (Hq' : indirect L = false).
    { unfold indirect in *. apply Z.ltb_ge in Hq. apply Z.ltb_ge. lia. }
    rewrite Hq, Hq' in *. destruct (fill_direct s own i c L false) as (s' & own' & i' & E & Hs & Hf' & Hi); try done; try lia.
    rewrite (bind_ok _ _ _ _ _ _ _ E). exists s', own', i'. unfold ret. rewrite xint_id by (by eapply addrs_u32).
    unfold addr_of. rewrite (proj2 (Z.ltb_lt _ _) Hk). split; [done|]. rewrite Hn, Z.add_0_r. done.
  - rewrite (proj2 (Z.leb_le _ _) Hk) in Hq. rewrite Hq in *.
    destruct (fill_ind s own i c L (indirect L)) as (s1 & own1 & i1 & E1 & Hs1 & Hf1 & Hi1); try done; [lia|].
    rewrite (bind_ok _ _ _ _ _ _ _ E1). rewrite !xint_id by (by eapply addrs_u32). change (addrs_at i1 NDIRECT) with (ind i1).
    destruct (fill_entry s1 own1 i1 c L) as (s2 & own2 & E2 & Hs2 & Hf2); try done.
    { apply Hs1. } { lia. } { destruct Hs1 as (_ & _ & ->). destruct (indirect L); lia. }
    exists s2, own2, i1. split; [exact E2|]. split; [|done]. eapply stepped_trans; [|done|done]. destruct (indirect L); lia.
Qed.

Lemma need_mono a b : a <= b -> need a <= need b.
Proof.
  intros Hab. unfold need. assert ((a + BSIZE - 1) / BSIZE <= (b + BSIZE - 1) / BSIZE) by (apply Z.div_le_mono; [done|lia]).
  destruct (Z.ltb_spec (NDIRECT * BSIZE) a), (Z.ltb_spec (NDIRECT * BSIZE) b); lia.
Qed.

Lemma need_block L m : 0 <= L -> 0 < m -> L mod BSIZE + m <= BSIZE -> need (L + m) = need (L + 1) /\ indirect (L + m) = indirect (L + 1).
Proof.
  intros HL Hm Hfit. unfold need, indirect. change NDIRECT with 12. change BSIZE with 1024 in *.
  assert ((12 * 1024 <? L + m) = (12 * 1024 <? L + 1)) as ->.
  { destruct (Z.ltb_spec (12 * 1024) (L + m)), (Z.ltb_spec (12 * 1024) (L + 1)); try done; Z.div_mod_to_equations; lia. }
  split; [|done]. f_equal. Z.div_mod_to_equations. lia.
Qed.

(** Bytes [d] that end within the block of the next byte. *)
Lemma append_block s own i c d :
  let L := Z.of_nat (length c) in
  base s own -> finv (mk_img s) own inum i c L (indirect L) -> L < MAXFILE * BSIZE ->
  d <> [] -> L mod BSIZE + Z.of_nat (length d) <= BSIZE -> byte_list d ->
  mk_freeblock s + (need (L + Z.of_nat (length d)) - need L) <= FSSIZE ->
  exists s1 s' own' i', find_block (L / BSIZE) i th s = Ok (i', addr_of (mk_img s1) i' (L / BSIZE)) th s1 /\
    (let! buf := rsect (addr_of (mk_img s1) i' (L / BSIZE)) in
     wsect (addr_of (mk_img s1) i' (L / BSIZE)) (splice buf (Z.to_nat (L mod BSIZE)) d)) th s1 = Ok tt th s' /\
    stepped s s' own own' (need (L + Z.of_nat (length d)) - need L) /\
    finv (mk_img s') own' inum i' (c ++ d) (L + Z.of_nat (length d)) (indirect (L + Z.of_nat (length d))) /\
    i' = with_iaddrs (i_addrs i') i.
Proof.
  intros L Hb Hf HL Hd Hfit Hbd. assert (0 < Z.of_nat (length d)) by (destruct d; [done|cbn; lia]).
  destruct (need_block L (Z.of_nat (length d))) as [-> ->]; [lia..|]. intros Hroom.
  destruct (find_block_ok s own i c L Hb Hf ltac:(lia) Hroom) as (s1 & own1 & i1 & E & Hs & Hf1 & Hi).
  pose proof (Hs) as (Hb1 & _ & _). assert (HkM : 0 <= L / BSIZE < MAXFILE) by (apply block_index; lia).
  assert (Hx : addr_of (mk_img s1) i1 (L / BSIZE) <> 0).
  { apply (fi_alloc _ _ _ _ _ _ _ Hf1 _ HkM). change BSIZE with 1024 in *. Z.div_mod_to_equations. lia. }
  pose proof (data_range _ _ _ _ _ _ _ Hb1 Hf1 HkM Hx) as [Hr1 Hr2].
  pose proof (finv_write _ _ _ _ _ L _ d Hf1 eq_refl HL Hd Hfit (ba_blk _ _ Hb1 _)) as Hf2.
  pose proof (fi_data _ _ _ _ _ _ _ Hf1 _ HkM Hx) as Hox. set (x := addr_of (mk_img s1) i1 (L / BSIZE)) in *.
  pose proof (Z.mod_pos_bound L BSIZE ltac:(done)).
  exists s1, (wr s1 x (splice (mk_img s1 x) (Z.to_nat (L mod BSIZE)) d)), own1, i1. split; [done|]. split; [|split; [|done]].
  - unfold bind. rewrite rsect_run, wsect_run by (apply Hb1 || lia). done.
  - destruct Hs as (_ & Hg & Hfr). split; [|split; [|done]].
    + apply base_wr; [done|lia| |by apply splice_bytes; [apply Hb1|]]. rewrite length_splice; [apply Hb1|]. rewrite (ba_blk _ _ Hb1). lia.
    + eapply filegrow_trans; [done|]. by eapply grows_wr.
Qed.

Lemma iappend_loop_ok fuel : forall s own i c p,
  let L := Z.of_nat (length c) in let n := Z.of_nat (length p) in
  base s own -> finv (mk_img s) own inum i c L (indirect L) -> L + n <= MAXFILE * BSIZE -> byte_list p ->
  mk_freeblock s + (need (L + n) - need L) <= FSSIZE -> (length p <= fuel)%nat ->
  exists s' own' i', iappend_loop fuel p n L i th s = Ok (i', L + n) th s' /\ stepped s s' own own' (need (L + n) - need L) /\
    finv (mk_img s') own' inum i' (c ++ p) (L + n) (indirect (L + n)) /\ i' = with_iaddrs (i_addrs i') i.
Proof.
  induction fuel as [|fuel IH]; intros s own i c p L n Hb Hf HL Hp Hroom Hfuel.
  - destruct p; [|cbn in Hfuel; lia]. exists s, own, i. change n with 0. rewrite Z.add_0_r, Z.sub_diag, app_nil_r. cbn.
    split; [done|]. split; [by apply stepped_refl|]. split; [done|by destruct i].
  - cbn [iappend_loop]. destruct (Z.ltb_spec 0 n) as [Hn|Hn].
    2: { destruct p; [|cbn in n; lia]. exists s, own, i. change n with 0. rewrite Z.add_0_r, Z.sub_diag, app_nil_r.
         split; [done|]. split; [by apply stepped_refl|]. split; [done|by destruct i]. }
    assert (HkM : 0 <= L / BSIZE < MAXFILE) by (apply block_index; lia). rewrite (proj2 (Z.ltb_lt _ _) (proj2 HkM)).
    change (assert true) with (ret tt : M mk unit). rewrite (bind_ok _ _ _ _ _ _ _ (eq_refl : ret tt th s = _)).
    assert (Hm : 0 <= L mod BSIZE < BSIZE) by (by apply Z.mod_pos_bound).
    assert (HB : (L / BSIZE + 1) * BSIZE - L = BSIZE - L mod BSIZE) by (change BSIZE with 1024; Z.div_mod_to_equations; lia).
    rewrite !HB, !(u32_id n), !(u32_id (BSIZE - _)) by (change MAXFILE with 268 in *; change BSIZE with 1024 in *; lia).
    set (n1 := Z.min n (BSIZE - L mod BSIZE)). assert (Hn1 : 0 < n1 <= n) by lia.
    assert (Hd : Z.of_nat (length (take (Z.to_nat n1) p)) = n1) by (rewrite length_take; lia).
    pose proof (need_mono (L + n1) (L + n) ltac:(lia)) as Hmono.
    destruct (append_block s own i c (take (Z.to_nat n1) p)) as (s1 & s2 & own2 & i2 & E1 & E2 & Hs2 & Hf2 & Hi2); fold L; rewrite ?Hd; try done; try lia.
    { intros E0. rewrite E0 in Hd. cbn in Hd. lia. } { by apply Forall_take. }
    fold L in E1, E2, Hs2, Hf2. rewrite Hd in Hs2, Hf2. rewrite (bind_ok _ _ _ _ _ _ _ E1).
    replace (L - L / BSIZE * BSIZE) with (L mod BSIZE) by (change BSIZE with 1024; Z.div_mod_to_equations; lia).
    unfold bind in E2 |- *. destruct (rsect _ th s1); try done. rewrite E2. rewrite u32_id by (change MAXFILE with 268 in *; change BSIZE with 1024 in *; lia).
    assert (Hd2 : Z.of_nat (length (drop (Z.to_nat n1) p)) = n - n1) by (rewrite length_drop; lia).
    assert (HLn : Z.of_nat (length (c ++ take (Z.to_nat n1) p)) = L + n1) by (rewrite length_app; lia).
    destruct (IH s2 own2 i2 (c ++ take (Z.to_nat n1) p) (drop (Z.to_nat n1) p)) as (s3 & own3 & i3 & E3 & Hs3 & Hf3 & Hi3);
      rewrite ?HLn, ?Hd2 in *; replace (L + n1 + (n - n1)) with (L + n) in * by lia; try done; try apply Hs2.
    { by apply Forall_drop. } { destruct Hs2 as (_ & _ & ->). lia. } { lia. }
    exists s3, own3, i3. split; [done|]. split; [eapply stepped_trans; [|done|done]; lia|].
    rewrite <- app_assoc, take_drop in Hf3. split; [done|]. rewrite Hi3, Hi2. by destruct i.
Qed.

End Find.

(** ** Inodes *)

(** Inode [inum] of the image. *)
Definition dino (v : blocks) (inum : Z) : inode := load_dinode (v (IBLOCK inum mkfs_sb)) (dinode_off inum) dinode0.

Lemma IBLOCK_range inum : 0 <= inum < NINODES -> IBLOCK inum mkfs_sb = inum / 16 + 32 /\ 32 <= IBLOCK inum mkfs_sb < 45.
Proof.
  change NINODES with 200. intros H. unfold IBLOCK. rewrite mkfs_sb_eq. change IPB with 16. cbn [sb_inodestart].
  rewrite u32_id; Z.div_mod_to_equations; lia.
Qed.

Lemma dino_typed v inum : (forall n, byte_list (v n)) -> dinode_typed (dino v inum).
Proof.
  intros Hv. unfold dino, load_dinode. assert (Hg : forall n, forall o, 0 <= getn n (v (IBLOCK inum mkfs_sb)) o < 256 ^ Z.of_nat n) by (intros; by apply getn_range).
  assert (Ha : forall k o, Forall (fun a => is_u32 a) (get_addrs k (v (IBLOCK inum mkfs_sb)) o)).
  { induction k as [|k IH]; intros o; cbn [get_addrs]; constructor; [apply (Hg 4%nat)|apply IH]. }
  split; cbn [with_dinode i_type i_major i_minor i_nlink i_size i_addrs];
    try (unfold i16; Z.div_mod_to_equations; lia); try apply (Hg 4%nat); [apply Ha|].
  generalize (dinode_off inum + 12)%nat. induction (Z.to_nat (NDIRECT + 1)) as [|k IH]; intros o; [done|]. cbn [get_addrs length]. by rewrite IH.
Qed.

Lemma dino_addrs_len v inum : length (i_addrs (dino v inum)) = 13%nat.
Proof. reflexivity. Qed.

Section Inodes.
Context (th : thread).

Lemma rinode_run s own inum : base s own -> 0 <= inum < NINODES -> rinode inum th s = Ok (dino (mk_img s) inum) th s.
Proof.
  intros Hb Hn. destruct (IBLOCK_range inum Hn) as [_ Hr]. unfold rinode, gets, bind. rewrite (ba_sb _ _ Hb).
  rewrite rsect_run by (apply Hb || (change FSSIZE with 2000; lia)). done.
Qed.

(** What [winode] leaves: the inode on the disk, and every other block and inode as before. *)
Lemma winode_ok s own inum i : base s own -> 0 <= inum < NINODES -> dinode_typed i ->
  exists s', winode inum i th s = Ok tt th s' /\ base s' own /\ mk_freeblock s' = mk_freeblock s /\ mk_freeinode s' = mk_freeinode s /\
    (forall n, ~ 32 <= n < 45 -> mk_img s' n = mk_img s n) /\
    dino (mk_img s') inum = with_dinode (i_type i) (i_major i) (i_minor i) (i_nlink i) (i_size i) (i_addrs i) dinode0 /\
    forall j, 0 <= j < NINODES -> j <> inum -> dino (mk_img s') j = dino (mk_img s) j.
Proof.
  intros Hb Hn Ht. destruct (IBLOCK_range inum Hn) as [Eb Hr]. pose proof (ba_blk _ _ Hb (IBLOCK inum mkfs_sb)) as Hl.
  pose proof (dinode_off_ok inum ltac:(lia)) as Hoff. rewrite <- Hl in Hoff. pose proof (dt_len _ Ht) as Hal. change (Z.to_nat (NDIRECT + 1)) with 13%nat in Hal.
  destruct (store_dinode_ok i (mk_img s (IBLOCK inum mkfs_sb)) (dinode_off inum) Hal (ba_bytes _ _ Hb _) Hoff) as [Hl' Hb'].
  exists (wr s (IBLOCK inum mkfs_sb) (store_dinode i (mk_img s (IBLOCK inum mkfs_sb)) (dinode_off inum))). split; [|split; [|split_and!; try done]].
  - unfold winode, gets, bind. rewrite (ba_sb _ _ Hb). rewrite rsect_run, wsect_run by (apply Hb || (change FSSIZE with 2000; lia)). done.
  - apply base_wr; [done| |by rewrite Hl'|done]. pose proof (ba_free _ _ Hb). change nmeta with 46 in *. lia.
  - intros n Hn'. cbn. apply upd_ne. lia.
  - unfold dino. cbn [wr mk_img set_img]. rewrite upd_eq. by apply load_store_dinode.
  - intros j Hj Hne. unfold dino. cbn [wr mk_img set_img]. destruct (Z.eq_dec (IBLOCK j mkfs_sb) (IBLOCK inum mkfs_sb)) as [E|E]; [|by rewrite upd_ne].
    rewrite E, upd_eq. apply load_store_other; try done; try lia. destruct (IBLOCK_range j Hj) as [Ej _]. change IPB with 16.
    intros Em. apply Hne. rewrite (Z.div_mod j 16), (Z.div_mod inum 16) by lia. lia.
Qed.

End Inodes.

(** ** Files *)

Definition len (c : list Z) : Z := Z.of_nat (length c).

(** File [inum] of the image has type [ty] and content [c]. *)
Record has_file (v : blocks) (own : owner) (inum ty : Z) (c : list Z) : Prop := mkHasFile {
  hf_finv : finv v own inum (dino v inum) c (len c) (indirect (len c));
  hf_size : i_size (dino v inum) = len c;
  hf_max : len c <= MAXFILE * BSIZE;
  hf_type : i_type (dino v inum) = ty;
  hf_nlink : i_nlink (dino v inum) = 1;
}.

Lemma finv_addrs v own inum i i' c L q : i_addrs i' = i_addrs i -> finv v own inum i c L q -> finv v own inum i' c L q.
Proof.
  intros E [H1 H2 H3 H4 H5 H6 H7]. assert (Hi : ind i' = ind i) by (unfold ind, naddr; by rewrite E).
  assert (Ha : forall k, addr_of v i' k = addr_of v i k) by (intros k; unfold addr_of, naddr; by rewrite Hi, E).
  split; rewrite ?E, ?Hi; try done; try (intros k Hk; rewrite Ha; auto).
  intros o Ho. unfold fbyte. rewrite Ha. by apply H7.
Qed.

Lemma has_file_ext v v' own own' inum ty c :
  (forall n t, own n = Some (inum, t) -> v' n = v n /\ own' n = own n) -> dino v' inum = dino v inum ->
  has_file v own inum ty c -> has_file v' own' inum ty c.
Proof. intros Hext Ed [H1 H2 H3 H4 H5]. split; rewrite ?Ed; try done. by eapply finv_ext. Qed.

(** The files of the image, inode 1 first. *)
Fixpoint total (fs : list (Z * list Z)) : Z :=
  match fs with [] => 0 | f :: fs' => need (len f.2) + total fs' end.

Lemma total_insert fs j f f' : fs !! j = Some f -> total (<[j := f']> fs) = total fs + (need (len f'.2) - need (len f.2)).
Proof.
  revert j. induction fs as [|g fs IH]; intros [|j] E; try done.
  - injection E as ->. cbn. lia.
  - change (need (len g.2) + total (<[j := f']> fs) = total (g :: fs) + (need (len f'.2) - need (len f.2))). rewrite (IH j E). cbn. lia.
Qed.

Lemma total_app fs fs' : total (fs ++ fs') = total fs + total fs'.
Proof. induction fs as [|f fs IH]; cbn; lia. Qed.

Lemma total_nonneg fs : 0 <= total fs.
Proof.
  induction fs as [|f fs IH]; cbn [total]; [done|]. pose proof (need_mono 0 (len f.2) ltac:(unfold len; lia)). change (need 0) with 0 in *. lia.
Qed.

(** The first block of the image that is not zero: the superblock. *)
Definition sb_block : block := splice zeroes 0 (sb_bytes mkfs_sb).

Record world (s : mk) (own : owner) (fs : list (Z * list Z)) : Prop := mkWorld {
  wo_base : base s own;
  wo_meta : forall n, 0 <= n < nmeta -> ~ 32 <= n < 45 -> mk_img s n = if n =? 1 then sb_block else zero_block;
  wo_ino : mk_freeinode s = Z.of_nat (length fs) + 1;
  wo_inodes : Z.of_nat (length fs) < NINODES;
  wo_free : mk_freeblock s = nmeta + total fs;
  wo_rest : forall j, Z.of_nat (length fs) < j < NINODES -> i_type (dino (mk_img s) j) = 0;
  wo_file : forall j ty c, fs !! j = Some (ty, c) -> has_file (mk_img s) own (Z.of_nat j + 1) ty c;
}.

Section Files.
Context (th : thread).

Lemma own_data s own n t : base s own -> own n = Some t -> ~ 32 <= n < 45 /\ n < mk_freeblock s.
Proof. intros Hb E. apply (ba_own _ _ Hb) in E. change nmeta with 46 in E. lia. Qed.

Lemma own_meta s own n t : base s own -> n < nmeta -> own n <> Some t.
Proof. intros Hb Hn E. apply (ba_own _ _ Hb) in E. lia. Qed.

Lemma iappend_ok s own fs j ty c p :
  world s own fs -> fs !! j = Some (ty, c) -> byte_list p -> len c + len p <= MAXFILE * BSIZE ->
  nmeta + total (<[j := (ty, c ++ p)]> fs) <= FSSIZE ->
  exists s' own', iappend (Z.of_nat j + 1) p (len p) th s = Ok tt th s' /\ world s' own' (<[j := (ty, c ++ p)]> fs).
Proof.
  intros [Hb Hm Hi Hn Hfr Hre Hfs] Hj Hp Hmax Hroom. pose proof (Hfs _ _ _ Hj) as [F1 F2 F3 F4 F5]. pose proof (lookup_lt_Some _ _ _ Hj) as Hjl.
  set (inum := Z.of_nat j + 1) in *. assert (Hin : 0 <= inum < NINODES) by lia.
  assert (Hlen : len (c ++ p) = len c + len p) by (unfold len; rewrite length_app; lia).
  rewrite (total_insert _ _ _ _ Hj) in Hroom. cbn [snd] in Hroom. rewrite Hlen in Hroom.
  assert (HM : MAXFILE * BSIZE = 274432) by reflexivity.
  unfold iappend. rewrite (bind_ok _ _ _ _ _ _ _ (rinode_run th s own inum Hb Hin)). rewrite F2, xint_id by (unfold len in *; lia).
  destruct (iappend_loop_ok th inum (Z.to_nat (len p)) s own (dino (mk_img s) inum) c p) as (s1 & own1 & i1 & E1 & (Hb1 & Hg1 & Hfr1) & Hf1 & Hi1);
    fold (len c) (len p); try done; try lia; [unfold len; lia|].
  fold (len c) (len p) in E1, Hfr1, Hf1. rewrite (bind_ok _ _ _ _ _ _ _ E1). rewrite xint_id by (unfold len in *; lia).
  pose proof (dino_typed (mk_img s) inum (ba_bytes _ _ Hb)) as [T1 T2 T3 T4 T5 T6 T7].
  destruct (winode_ok th s1 own1 inum (with_isize (len c + len p) i1)) as (s2 & E2 & Hb2 & Hfr2 & Hino2 & Hv2 & Hd2 & Ho2); try done.
  { rewrite Hi1. split; try done; try apply Hf1. cbn. unfold len in *. lia. }
  assert (Hsame : forall n, n < nmeta -> ~ 32 <= n < 45 -> mk_img s2 n = mk_img s n).
  { intros n Hn1 Hn2. rewrite Hv2 by done. pose proof (ba_free _ _ Hb). apply (gs_img _ _ _ _ _ Hg1); [lia|]. intros t. by apply (own_meta s). }
  assert (Hdino : forall k, 0 <= k < NINODES -> dino (mk_img s1) k = dino (mk_img s) k).
  { intros k Hk. unfold dino. destruct (IBLOCK_range k Hk) as [_ Hr]. pose proof (ba_free _ _ Hb). change nmeta with 46 in *.
    rewrite (gs_img _ _ _ _ _ Hg1); [done|lia|]. intros t. apply (own_meta s); [done|change nmeta with 46; lia]. }
  exists s2, own1. split; [exact E2|]. split; try done.
  - intros n Hn1 Hn2. rewrite Hsame by (done || lia). by apply Hm.
  - rewrite length_insert, Hino2, (gs_ino _ _ _ _ _ Hg1). done.
  - by rewrite length_insert.
  - rewrite (total_insert _ _ _ _ Hj). cbn [snd]. rewrite Hlen, Hfr2, Hfr1. lia.
  - rewrite length_insert. intros k Hk. rewrite Ho2, Hdino by lia. by apply Hre.
  - intros k ty' c' Hk. destruct (decide (j = k)) as [<-|Hne].
    + rewrite list_lookup_insert_eq in Hk by done. injection Hk as <- <-. fold inum. split; rewrite ?Hd2, ?Hlen; try done.
      * eapply (finv_addrs _ _ _ i1); [done|]. eapply finv_ext; [|exact Hf1]. intros n t Hot. split; [|done]. by apply Hv2, (own_data s1 own1 n (inum, t)).
      * rewrite Hi1. exact F4.
      * rewrite Hi1. exact F5.
    + rewrite list_lookup_insert_ne in Hk by done. pose proof (Hfs _ _ _ Hk) as Hfk. pose proof (lookup_lt_Some _ _ _ Hk).
      assert (Hkn : Z.of_nat k + 1 <> inum) by lia. eapply has_file_ext; [| |exact Hfk].
      * intros n t Hot. destruct (own_data s own n _ Hb Hot) as [D1 D2]. rewrite Hv2 by done. split; [|by apply (gs_own _ _ _ _ _ Hg1)].
        apply (gs_img _ _ _ _ _ Hg1); [done|]. intros t' E'. rewrite Hot in E'. congruence.
      * rewrite Ho2 by lia. apply Hdino. lia.
Qed.

Lemma finv_empty v own inum i : i_addrs i = replicate (Z.to_nat (NDIRECT + 1)) 0 -> finv v own inum i [] 0 false.
Proof.
  intros E. assert (Hn : forall k, naddr i k = 0).
  { intros k. unfold naddr. rewrite E. destruct (znth _ k) eqn:Ek; [|done]. apply znth_Some in Ek as [_ Ek]. by apply lookup_replicate in Ek as [-> _]. }
  assert (Ha : forall k, addr_of v i k = 0) by (intros k; unfold addr_of, ind; rewrite !Hn; by destruct (k <? NDIRECT)).
  split; rewrite ?E; try (intros k Hk; rewrite Ha; try done).
  - apply length_replicate.
  - by apply Forall_replicate.
  - unfold ind. by rewrite Hn.
  - split; [done|]. change BSIZE with 1024. lia.
  - unfold ind. by rewrite Hn.
  - intros o Ho. unfold fbyte. rewrite Ha. by destruct (Z.to_nat o).
Qed.

Lemma ialloc_ok s own fs ty : world s own fs -> Z.of_nat (length fs) + 1 < NINODES -> 0 <= ty < 32768 ->
  exists s', mk_ialloc ty th s = Ok (Z.of_nat (length fs) + 1) th s' /\ world s' own (fs ++ [(ty, [])]).
Proof.
  intros [Hb Hm Hi Hn Hfr Hre Hfs] Hn' Hty. unfold mk_ialloc, gets, modify. unfold bind at 1 2. rewrite Hi. change NINODES with 200 in *.
  rewrite u32_id by lia. set (inum := Z.of_nat (length fs) + 1) in *. rewrite !xshort_id, xint_id by lia.
  rewrite !i16_id by lia. set (s1 := set_freeinode (inum + 1) s).
  assert (Hb1 : base s1 own) by (destruct Hb; by split).
  destruct (winode_ok th s1 own inum (with_isize 0 (with_inlink 1 (with_itype ty dinode0)))) as (s2 & E2 & Hb2 & Hfr2 & Hino2 & Hv2 & Hd2 & Ho2);
    [done|change NINODES with 200; lia| |].
  { split; cbn; try lia; [|done]. repeat constructor; lia. }
  exists s2. rewrite (bind_ok _ _ _ _ _ _ _ E2). split; [done|]. split; try done.
  - intros n H1 H2. rewrite Hv2 by done. by apply Hm.
  - rewrite length_app, Hino2. cbn. lia.
  - rewrite length_app. change NINODES with 200. cbn. lia.
  - rewrite total_app, Hfr2. change (mk_freeblock s = nmeta + (total fs + 0)). lia.
  - rewrite length_app. cbn [length]. change NINODES with 200. intros k Hk. rewrite Ho2 by (change NINODES with 200; lia). apply Hre. change NINODES with 200. lia.
  - intros j ty' c' Hj. apply lookup_app_Some in Hj as [Hj|[Hlt Hj]].
    + pose proof (Hfs _ _ _ Hj) as Hf. pose proof (lookup_lt_Some _ _ _ Hj). eapply has_file_ext; [| |exact Hf].
      * intros n t Ho. split; [|done]. by apply Hv2, (own_data s own n _ Hb Ho).
      * apply Ho2; [change NINODES with 200; lia|lia].
    + destruct (j - length fs)%nat eqn:E; [|by destruct n]. injection Hj as <- <-. replace (Z.of_nat j + 1) with inum by lia.
      split; rewrite ?Hd2; try done. by apply finv_empty.
Qed.

Lemma copy_file_ok j ty reads : forall s own fs c,
  world s own fs -> fs !! j = Some (ty, c) -> Forall (fun b => b <> [] /\ byte_list b) reads ->
  len c + len (concat reads) <= MAXFILE * BSIZE -> nmeta + total (<[j := (ty, c ++ concat reads)]> fs) <= FSSIZE ->
  exists s' own', copy_file (Z.of_nat j + 1) reads th s = Ok tt th s' /\ world s' own' (<[j := (ty, c ++ concat reads)]> fs).
Proof.
  induction reads as [|b reads IH]; intros s own fs c Hw Hj Hr Hmax Hroom; cbn [concat copy_file] in *.
  - exists s, own. rewrite app_nil_r, list_insert_id by done. done.
  - apply Forall_cons in Hr as [[Hne Hb] Hr]. destruct (Z.ltb_spec 0 (Z.of_nat (length b))) as [_|?]; [|by destruct b].
    assert (Hl : len (b ++ concat reads) = len b + len (concat reads)) by (unfold len; rewrite length_app; lia).
    rewrite app_assoc in Hroom. assert (Hn : need (len (c ++ b)) <= need (len ((c ++ b) ++ concat reads))) by (apply need_mono; unfold len; rewrite !length_app; lia).
    pose proof (total_insert _ _ _ (ty, (c ++ b) ++ concat reads) Hj) as T1. pose proof (total_insert _ _ _ (ty, c ++ b) Hj) as T2. cbn [snd] in T1, T2.
    destruct (iappend_ok s own fs j ty c b) as (s1 & own1 & E1 & Hw1); try done; [unfold len in *; lia|lia|].
    rewrite (bind_ok _ _ _ _ _ _ _ E1).
    destruct (IH s1 own1 _ (c ++ b) Hw1) as (s2 & own2 & E2 & Hw2); rewrite ?list_insert_insert_eq in *; try done.
    + rewrite list_lookup_insert_eq; [done|]. by eapply lookup_lt_Some.
    + unfold len in *. rewrite length_app. lia.
    + exists s2, own2. rewrite app_assoc. done.
Qed.

End Files.

(** ** The command line *)

Section CommandLine.
Context {HF : Host}.

Definition short_name (arg : list Z) : list Z := skip_underscore (strip_user arg).
Definition content (arg : list Z) : list Z := concat (default [] (host_file arg)).

(** A file the program can copy: it exists, its name has no directory and fits in a
    directory entry, and it is not too large. *)
Record arg_ok (arg : list Z) : Prop := mkArgOk {
  ao_bytes : byte_list arg;
  ao_slash : slash ∉ strip_user arg;
  ao_name : len (short_name arg) <= DIRSIZ;
  ao_reads : exists reads, host_file arg = Some reads /\ Forall (fun b => b <> [] /\ byte_list b) reads;
  ao_size : len (content arg) <= MAXFILE * BSIZE;
}.

(** The directory entries of the files, from inode [inum] on. *)
Fixpoint listing (inum : Z) (args : list (list Z)) : list Z :=
  match args with [] => [] | arg :: args' => dirent inum (short_name arg) ++ listing (inum + 1) args' end.
Definition root_listing (args : list (list Z)) : list Z :=
  dirent ROOTINO [dot_char] ++ dirent ROOTINO [dot_char; dot_char] ++ listing 2 args.

(** The files of the image. *)
Definition files (args : list (list Z)) : list (Z * list Z) :=
  (T_DIR, root_listing args) :: ((fun arg => (T_FILE, content arg)) <$> args).

Lemma length_dirent inum name : len (dirent inum name) = DIRENT_SIZE.
Proof. unfold len, dirent. rewrite length_app, length_le_bytes, length_take, length_app, length_replicate. change (Z.to_nat DIRSIZ) with 14%nat. change DIRENT_SIZE with 16. lia. Qed.

Lemma dirent_bytes inum name : byte_list name -> byte_list (dirent inum name).
Proof.
  intros Hn. apply Forall_app. split; [apply le_bytes_bytes|]. apply Forall_take, Forall_app. split; [done|by apply Forall_replicate].
Qed.

Lemma length_listing args : forall inum, len (listing inum args) = DIRENT_SIZE * Z.of_nat (length args).
Proof.
  induction args as [|arg args IH]; intros inum; [reflexivity|]. cbn [listing length]. pose proof (length_dirent inum (short_name arg)) as E.
  specialize (IH (inum + 1)). unfold len in *. rewrite length_app. lia.
Qed.

Lemma short_name_bytes arg : byte_list arg -> byte_list (short_name arg).
Proof.
  intros H. unfold short_name, strip_user. assert (H1 : byte_list (if decide (take 5 arg = user_dir) then drop 5 arg else arg)) by (case_decide; [by apply Forall_drop|done]).
  unfold skip_underscore. destruct H1 as [|b l]; [constructor|]. destruct (b =? underscore); [done|by constructor].
Qed.

Context (th : thread).

Lemma add_file_ok s own rc fl arg :
  world s own ((T_DIR, rc) :: fl) -> arg_ok arg -> Z.of_nat (length fl) + 2 < NINODES -> len rc + DIRENT_SIZE <= MAXFILE * BSIZE ->
  let fs' := (T_DIR, rc ++ dirent (Z.of_nat (length fl) + 2) (short_name arg)) :: fl ++ [(T_FILE, content arg)] in
  nmeta + total fs' <= FSSIZE ->
  exists s' own', add_file ROOTINO arg th s = Ok tt th s' /\ world s' own' fs'.
Proof.
  intros Hw [A1 A2 A3 A4 A5] Hn Hmax fs' Hroom. destruct A4 as (reads & Er & Hr). assert (Hc : content arg = concat reads) by (unfold content; by rewrite Er).
  unfold fs' in *. clear fs'. rewrite Hc in *. unfold add_file. rewrite Er. set (fs' := _ :: fl ++ [(T_FILE, concat reads)]) in *.
  rewrite bool_decide_eq_true_2 by done. change (assert true) with (ret tt : M mk unit). rewrite (bind_ok _ _ _ _ _ _ _ (eq_refl : ret tt th s = _)).
  fold (short_name arg). change (Z.of_nat (length (short_name arg))) with (len (short_name arg)). rewrite (proj2 (Z.leb_le _ _) A3). rewrite (bind_ok _ _ _ _ _ _ _ (eq_refl : ret tt th s = _)).
  destruct (ialloc_ok th s own _ T_FILE Hw) as (s1 & E1 & Hw1); [cbn [length]; lia|unfold T_FILE; lia|].
  rewrite (bind_ok _ _ _ _ _ _ _ E1). replace (Z.of_nat (length ((T_DIR, rc) :: fl)) + 1) with (Z.of_nat (length fl) + 2) in * by (cbn [length]; lia).
  set (de := dirent (Z.of_nat (length fl) + 2) (short_name arg)) in *. pose proof (length_dirent (Z.of_nat (length fl) + 2) (short_name arg)) as Hde. fold de in Hde.
  assert (Htot : nmeta + total ((T_DIR, rc ++ de) :: fl ++ [(T_FILE, [])]) <= FSSIZE).
  { unfold fs' in Hroom. cbn [total snd] in *. rewrite !total_app in *. cbn [total snd] in *. pose proof (need_mono (len []) (len (concat reads)) ltac:(unfold len; cbn [length]; lia)). lia. }
  destruct (iappend_ok th s1 own _ 0 T_DIR rc de Hw1) as (s2 & own2 & E2 & Hw2); [done|apply dirent_bytes; by apply short_name_bytes|lia|exact Htot|].
  change (Z.of_nat 0 + 1) with ROOTINO in E2. rewrite Hde in E2. rewrite (bind_ok _ _ _ _ _ _ _ E2).
  change (<[0%nat := _]> _) with ((T_DIR, rc ++ de) :: fl ++ [(T_FILE, [])]) in Hw2.
  assert (Hfs' : <[S (length fl) := (T_FILE, [] ++ concat reads)]> ((T_DIR, rc ++ de) :: fl ++ [(T_FILE, [])]) = fs').
  { change ((T_DIR, rc ++ de) :: <[length fl := (T_FILE, concat reads)]> (fl ++ [(T_FILE, [])]) = fs'). rewrite insert_app_r_alt by lia. by rewrite Nat.sub_diag. }
  destruct (copy_file_ok th (S (length fl)) T_FILE reads s2 own2 _ [] Hw2) as (s3 & own3 & E3 & Hw3); rewrite ?Hfs' in *; try done.
  { change ((fl ++ [(T_FILE, [])]) !! length fl = Some (T_FILE, [])). rewrite lookup_app_r by lia. by rewrite Nat.sub_diag. }
  exists s3, own3. split; [|done]. replace (Z.of_nat (length fl) + 2) with (Z.of_nat (S (length fl)) + 1) by lia. exact E3.
Qed.

Lemma add_files_ok args : forall s own rc fl,
  world s own ((T_DIR, rc) :: fl) -> Forall arg_ok args -> Z.of_nat (length fl + length args) + 1 < NINODES ->
  len rc + DIRENT_SIZE * Z.of_nat (length args) <= MAXFILE * BSIZE ->
  let fs' := (T_DIR, rc ++ listing (Z.of_nat (length fl) + 2) args) :: fl ++ ((fun arg => (T_FILE, content arg)) <$> args) in
  nmeta + total fs' <= FSSIZE ->
  exists s' own', add_files ROOTINO args th s = Ok tt th s' /\ world s' own' fs'.
Proof.
  induction args as [|arg args IH]; intros s own rc fl Hw Ha Hn Hmax fs' Hroom; cbn [add_files].
  - exists s, own. split; [done|]. unfold fs'. cbn. by rewrite !app_nil_r.
  - apply Forall_cons in Ha as [Ha1 Ha2]. cbn [length] in *.
    set (de := dirent (Z.of_nat (length fl) + 2) (short_name arg)). pose proof (length_dirent (Z.of_nat (length fl) + 2) (short_name arg)) as Hde. fold de in Hde.
    assert (Hfs : fs' = (T_DIR, (rc ++ de) ++ listing (Z.of_nat (length (fl ++ [(T_FILE, content arg)])) + 2) args) ::
                        (fl ++ [(T_FILE, content arg)]) ++ ((fun arg => (T_FILE, content arg)) <$> args)).
    { unfold fs'. rewrite <- !app_assoc, length_app. cbn [length listing]. replace (Z.of_nat (length fl + 1) + 2) with (Z.of_nat (length fl) + 2 + 1) by lia. done. }
    destruct (add_file_ok s own rc fl arg Hw Ha1) as (s1 & own1 & E1 & Hw1); [lia|change DIRENT_SIZE with 16 in *; lia| |].
    { rewrite Hfs in Hroom. cbn [total snd] in *. rewrite (total_app (fl ++ _)) in Hroom. fold de.
      assert (need (len (rc ++ de)) <= need (len ((rc ++ de) ++ listing (Z.of_nat (length (fl ++ [(T_FILE, content arg)])) + 2) args)))
        by (apply need_mono; unfold len; rewrite !length_app; lia).
      assert (0 <= total ((fun arg => (T_FILE, content arg)) <$> args)) by (apply total_nonneg). lia. }
    rewrite (bind_ok _ _ _ _ _ _ _ E1). fold de in Hw1. rewrite Hfs in *.
    apply (IH s1 own1 _ _ Hw1); try done; rewrite ?length_app; cbn [length]; unfold len in *; rewrite ?length_app; change DIRENT_SIZE with 16 in *; lia.
Qed.

End CommandLine.

(** ** The empty image and the bitmap *)

Lemma zero_image_ok th k : forall s i, 0 <= i -> i + Z.of_nat k <= FSSIZE -> (forall n, mk_img s n = zero_block) -> mk_len s = i ->
  exists s', zero_image k i th s = Ok tt th s' /\ (forall n, mk_img s' n = zero_block) /\ mk_len s' = i + Z.of_nat k /\
    mk_sb s' = mk_sb s /\ mk_freeinode s' = mk_freeinode s /\ mk_freeblock s' = mk_freeblock s.
Proof.
  induction k as [|k IH]; intros s i Hi Hk Hz Hl; cbn [zero_image].
  - exists s. rewrite Z.add_0_r. done.
  - change FSSIZE with 2000 in *. unfold wsect, modify. unfold bind at 1. rewrite sector_id by lia.
    edestruct (IH (set_img (upd (mk_img s) i zeroes) (Z.max (mk_len s) (i + 1)) s) (i + 1)) as (s' & E & Hz' & Hl' & Hrest); cbn; try lia.
    + intros n. unfold upd. destruct (n =? i); [reflexivity|apply Hz].
    + exists s'. split; [exact E|]. split; [done|]. split; [lia|exact Hrest].
Qed.

Lemma world_start s : mk_len s = FSSIZE -> mk_sb s = mkfs_sb -> (forall n, mk_img s n = zero_block) -> mk_freeinode s = 1 -> mk_freeblock s = nmeta ->
  world (wr s 1 sb_block) (fun _ => None) [].
Proof.
  intros Hl Hs Hz Hi Hf. assert (Hsb : length sb_block = Z.to_nat BSIZE).
  { unfold sb_block. rewrite length_splice; [apply length_replicate|]. unfold zeroes. rewrite length_replicate. unfold sb_bytes. rewrite !length_app, !length_le_bytes. change (Z.to_nat BSIZE) with 1024%nat. lia. }
  assert (Hbb : byte_list sb_block).
  { apply splice_bytes; [by apply Forall_replicate|]. unfold sb_bytes. repeat (apply Forall_app; split); apply le_bytes_bytes. }
  split; try done.
  - apply base_wr; try done; [|rewrite Hf; done]. split; try done.
    + intros n. rewrite Hz. apply length_replicate.
    + intros n. rewrite Hz. by apply Forall_replicate.
    + rewrite Hf. done.
  - intros n Hn _. cbn. unfold upd. by destruct (n =? 1).
  - intros j Hj. destruct (IBLOCK_range j ltac:(cbn in Hj; lia)) as [_ Hr]. unfold dino. cbn [wr mk_img set_img]. rewrite upd_ne, Hz by lia.
    unfold load_dinode. cbn [with_dinode i_type]. by rewrite get16_zero.
Qed.

(** Bit [b] of a bitmap block. *)
Definition bit (buf : block) (b : Z) : bool := Z.testbit (get8 buf (Z.to_nat (b / 8))) (b mod 8).

Lemma mark_used_ok k : forall i buf, 0 <= i -> i + Z.of_nat k <= BPB -> length buf = Z.to_nat BSIZE -> byte_list buf ->
  length (mark_used k i buf) = Z.to_nat BSIZE /\ byte_list (mark_used k i buf) /\
  forall b, 0 <= b < BPB -> bit (mark_used k i buf) b = (i <=? b) && (b <? i + Z.of_nat k) || bit buf b.
Proof.
  change BPB with 8192. induction k as [|k IH]; intros i buf Hi Hk Hl Hb; cbn [mark_used].
  - split_and!; try done. intros b Hb'. destruct (Z.leb_spec i b), (Z.ltb_spec b (i + Z.of_nat 0)); try done. lia.
  - set (o := Z.to_nat (i / 8)). set (x := Z.lor _ _). assert (Ho : (o + 1 <= length buf)%nat) by (rewrite Hl; change (Z.to_nat BSIZE) with 1024%nat; unfold o; Z.div_mod_to_equations; lia).
    destruct (IH (i + 1) (put8 buf o x)) as (H1 & H2 & H3); try lia; [by rewrite length_putn|by apply putn_bytes|].
    split_and!; try done. intros b Hb'. rewrite H3 by done. unfold bit. pose proof (Z.mod_pos_bound b 8 ltac:(lia)). pose proof (Z.mod_pos_bound i 8 ltac:(lia)).
    rewrite put8_test by lia. destruct (decide (Z.to_nat (b / 8) = o)) as [E|E].
    + unfold x. rewrite Z.lor_spec, shiftl_1_bit, E by lia. fold o.
      destruct (Z.eqb_spec (b mod 8) (i mod 8)), (Z.leb_spec (i + 1) b), (Z.ltb_spec b (i + 1 + Z.of_nat k)), (Z.leb_spec i b), (Z.ltb_spec b (i + Z.of_nat (S k)));
        cbn; rewrite ?orb_true_r, ?orb_false_r; try done; exfalso; unfold o in E; Z.div_mod_to_equations; lia.
    + destruct (Z.leb_spec (i + 1) b), (Z.ltb_spec b (i + 1 + Z.of_nat k)), (Z.leb_spec i b), (Z.ltb_spec b (i + Z.of_nat (S k))); cbn; try done; try lia.
      exfalso. apply E. unfold o. do 2 f_equal. lia.
Qed.

Lemma used_bit v b : 0 <= b < FSSIZE -> used mkfs_sb v b = bit (v 45) b.
Proof.
  change FSSIZE with 2000. intros Hb. unfold used, bit, BBLOCK. rewrite mkfs_sb_eq. change BPB with 8192. cbn [sb_bmapstart].
  rewrite (Z.div_small b), (Z.mod_small b) by lia. done.
Qed.

Lemma zero_bit b : bit zero_block b = false.
Proof.
  unfold bit, getn, zero_block. rewrite drop_replicate, take_replicate. destruct (_ `min` _)%nat as [|[|k]] eqn:E; [apply Z.bits_0|apply Z.bits_0|lia].
Qed.

(** ** The finished image *)

(** File [inum] of the disk [v] has the type, one link and the content [c]. *)
Record holds_file (v : blocks) (inum ty : Z) (c : list Z) : Prop := mkHoldsFile {
  hd_ok : inode_ok mkfs_sb v (dino v inum);
  hd_type : i_type (dino v inum) = ty;
  hd_nlink : i_nlink (dino v inum) = 1;
  hd_size : i_size (dino v inum) = len c;
  hd_max : len c <= MAXFILE * BSIZE;
  hd_bytes : fbytes v (dino v inum) 0 (len c) = c;
}.

(** The root directory is filled with zeros to the next block boundary. *)
Definition padded (c : list Z) : list Z := c ++ replicate (Z.to_nat ((len c / BSIZE + 1) * BSIZE - len c)) 0.

Lemma len_padded c : len (padded c) = (len c / BSIZE + 1) * BSIZE.
Proof.
  unfold padded, len. rewrite length_app, length_replicate. change BSIZE with 1024. Z.div_mod_to_equations. lia.
Qed.

Lemma nth_padded c o : nth o (padded c) 0 = nth o c 0.
Proof.
  unfold padded. rewrite nth_app. destruct (Nat.ltb_spec o (length c)); [done|]. rewrite (nth_overflow c) by lia.
  rewrite nth_lookup. destruct (_ !! _) eqn:E; [|done]. by apply lookup_replicate in E as [-> _].
Qed.

Lemma fbytes_nth v i c : (forall o, 0 <= o < len c -> fbyte v i o = nth (Z.to_nat o) c 0) -> fbytes v i 0 (len c) = c.
Proof.
  intros H. apply (list_eq_same_length _ _ (length c)); [done|rewrite length_fbytes by (unfold len; lia); unfold len; lia|].
  intros j x y Hj Hx Hy. unfold len in *. rewrite fbytes_lookup in Hx by lia. injection Hx as <-. rewrite H, nth_lookup by lia.
  by rewrite Z.add_0_l, Nat2Z.id, Hy.
Qed.

(** What the last steps of [main] change: the size of the root directory and the bitmap. *)
Record finished (s s' : mk) (rc : list Z) : Prop := mkFinished {
  fn_data : forall n, ~ 32 <= n < 46 -> mk_img s' n = mk_img s n;
  fn_bits : forall b, 0 <= b < FSSIZE -> used mkfs_sb (mk_img s') b = (b <? mk_freeblock s);
  fn_blk : forall n, length (mk_img s' n) = Z.to_nat BSIZE;
  fn_bytes : forall n, byte_list (mk_img s' n);
  fn_root : i_addrs (dino (mk_img s') ROOTINO) = i_addrs (dino (mk_img s) ROOTINO) /\
    i_type (dino (mk_img s') ROOTINO) = i_type (dino (mk_img s) ROOTINO) /\
    i_nlink (dino (mk_img s') ROOTINO) = i_nlink (dino (mk_img s) ROOTINO) /\ i_size (dino (mk_img s') ROOTINO) = len (padded rc);
  fn_dino : forall j, 0 <= j < NINODES -> j <> ROOTINO -> dino (mk_img s') j = dino (mk_img s) j;
}.

Lemma dino_ext v v' j : 0 <= j < NINODES -> (forall n, 32 <= n < 45 -> v' n = v n) -> dino v' j = dino v j.
Proof. intros Hj H. unfold dino. rewrite H; [done|]. by apply IBLOCK_range. Qed.

Lemma finish_ok th s own rc fl : world s own ((T_DIR, rc) :: fl) -> len (padded rc) <= MAXFILE * BSIZE ->
  exists s', finish ROOTINO th s = Ok 0 th s' /\ finished s s' rc.
Proof.
  intros [Hb Hm Hi Hn Hfr Hre Hfs] Hmax. pose proof (Hfs 0%nat _ _ eq_refl) as [F1 F2 F3 F4 F5]. change (Z.of_nat 0 + 1) with ROOTINO in *.
  rewrite len_padded in Hmax. assert (HM : MAXFILE * BSIZE = 274432) by reflexivity. assert (Hr : 0 <= ROOTINO < NINODES) by (change ROOTINO with 1; change NINODES with 200; lia).
  assert (0 <= len rc / BSIZE) by (apply Z.div_pos; [unfold len; lia|done]). assert (HB : BSIZE = 1024) by reflexivity.
  unfold finish. rewrite (bind_ok _ _ _ _ _ _ _ (rinode_run th s own ROOTINO Hb Hr)), F2.
  rewrite (xint_id (len rc)), (u32_id (len rc / BSIZE + 1)), (u32_id (_ * _)), xint_id by (unfold len in *; lia).
  pose proof (dino_typed (mk_img s) ROOTINO (ba_bytes _ _ Hb)) as [T1 T2 T3 T4 T5 T6 T7].
  destruct (winode_ok th s own ROOTINO (with_isize ((len rc / BSIZE + 1) * BSIZE) (dino (mk_img s) ROOTINO)))
    as (s1 & E1 & Hb1 & Hfr1 & Hino1 & Hv1 & Hd1 & Ho1); [done|done|split; try done; cbn [with_isize i_size]; lia|].
  rewrite (bind_ok _ _ _ _ _ _ _ E1). pose proof (ba_free _ _ Hb1) as Hrange. change nmeta with 46 in Hrange. change FSSIZE with 2000 in Hrange.
  unfold gets, mk_balloc. unfold bind at 1 2. rewrite i32_id by lia. change BPB with 8192. destruct (Z.ltb_spec (mk_freeblock s1) 8192); [|lia].
  destruct (mark_used_ok (Z.to_nat (mk_freeblock s1)) 0 zeroes) as (U1 & U2 & U3); [lia|change BPB with 8192; lia|apply length_replicate|by apply Forall_replicate|].
  exists (wr s1 45 (mark_used (Z.to_nat (mk_freeblock s1)) 0 zeroes)). split.
  { cbv beta iota delta [assert when ret gets bind negb]. rewrite (ba_sb _ _ Hb1). change (sb_bmapstart mkfs_sb) with 45. rewrite wsect_run by (apply Hb1 || (change FSSIZE with 2000; lia)). done. }
  assert (Hd45 : forall j, 0 <= j < NINODES -> dino (mk_img (wr s1 45 (mark_used (Z.to_nat (mk_freeblock s1)) 0 zeroes))) j = dino (mk_img s1) j).
  { intros j Hj. apply dino_ext; [done|]. intros n Hn'. cbn. apply upd_ne. lia. }
  split.
  - intros n Hn'. cbn. rewrite upd_ne by lia. apply Hv1. lia.
  - intros b Hb'. rewrite used_bit by done. cbn [wr mk_img set_img]. rewrite upd_eq, U3 by (change FSSIZE with 2000 in *; change BPB with 8192; lia).
    change zeroes with zero_block. rewrite zero_bit, orb_false_r, Hfr1. rewrite (proj2 (Z.leb_le 0 b)) by lia. rewrite Z2Nat.id by lia. done.
  - intros n. cbn. unfold upd. destruct (n =? 45); [done|apply Hb1].
  - intros n. cbn. unfold upd. destruct (n =? 45); [done|apply Hb1].
  - rewrite Hd45, Hd1, len_padded by done. done.
  - intros j Hj Hne. rewrite Hd45 by done. by apply Ho1.
Qed.

Lemma finv_inode_ok v own inum i c L q :
  finv v own inum i c L q -> (forall n t, own n = Some t -> data_block mkfs_sb v n) -> inode_ok mkfs_sb v i.
Proof.
  intros [H1 H2 H3 H4 H5 H6 H7] Hd. split; try done.
  - intros Hne. by eapply Hd, H4.
  - intros k Hk Hne. split; [by eapply Hd, H3|]. intros E. pose proof (H3 k Hk Hne) as F1. rewrite E in *. rewrite (H4 Hne) in F1. done.
  - intros k k' Hk Hk' Hne E. pose proof (H3 k Hk Hne) as F1. pose proof (H3 k' Hk' ltac:(congruence)) as F2. congruence.
Qed.

Lemma finv_owns v own inum i c L q n : finv v own inum i c L q -> n <> 0 -> owns v i n -> exists t, own n = Some (inum, t).
Proof.
  intros Hf Hn [-> | (k & Hk & <-)]; eexists; [by apply (fi_ind _ _ _ _ _ _ _ Hf)|by apply (fi_data _ _ _ _ _ _ _ Hf)].
Qed.

Section Image.
Context {HF : Host}.

(** What a disk with the files named by [args] is: the superblock the kernel reads, an
    empty log, a bitmap with exactly the blocks of the files in use, the root directory,
    and in the inodes from 2 on the files in their order; no block belongs to two files. *)
Record image (args : list (list Z)) (v : blocks) : Prop := mkImage {
  im_sb : mkSuperblock (get32 (v 1) 0) (get32 (v 1) 4) (get32 (v 1) 8) (get32 (v 1) 12)
            (get32 (v 1) 16) (get32 (v 1) 20) (get32 (v 1) 24) (get32 (v 1) 28) = mkfs_sb;
  im_log : v (sb_logstart mkfs_sb) = zero_block;
  im_ok : v_ok mkfs_sb v;
  im_used : forall b, 0 <= b < FSSIZE -> used mkfs_sb v b = (b <? nmeta + total (files args));
  im_root : holds_file v ROOTINO T_DIR (padded (root_listing args));
  im_entries : mapped v (dino v ROOTINO) 0 (len (root_listing args));
  im_file : forall j arg, args !! j = Some arg -> holds_file v (Z.of_nat j + 2) T_FILE (content arg) /\ no_holes v (dino v (Z.of_nat j + 2));
  im_apart : forall j j' n, 1 <= j <= Z.of_nat (length args) + 1 -> 1 <= j' <= Z.of_nat (length args) + 1 -> n <> 0 ->
    owns v (dino v j) n -> owns v (dino v j') n -> j = j';
  im_rest : forall j, Z.of_nat (length args) + 1 < j < NINODES -> i_type (dino v j) = 0;
}.

Lemma length_root args : len (root_listing args) = DIRENT_SIZE * (Z.of_nat (length args) + 2).
Proof.
  unfold root_listing. pose proof (length_listing args 2) as H1. pose proof (length_dirent ROOTINO [dot_char]) as H2.
  pose proof (length_dirent ROOTINO [dot_char; dot_char]) as H3. unfold len in *. rewrite !length_app. lia.
Qed.

Section Finished.
Context (args : list (list Z)) (s s' : mk) (own : owner).
Context (Hw : world s own (files args)) (Hfin : finished s s' (root_listing args)).

(** The files in the finished image, the root directory with the size it had before. *)
Lemma finished_finv j ty c : files args !! j = Some (ty, c) ->
  finv (mk_img s') own (Z.of_nat j + 1) (dino (mk_img s') (Z.of_nat j + 1)) c (len c) (indirect (len c)).
Proof.
  intros Hj. pose proof (wo_file _ _ _ Hw _ _ _ Hj) as Hf. pose proof (wo_base _ _ _ Hw) as Hb. pose proof (lookup_lt_Some _ _ _ Hj). pose proof (wo_inodes _ _ _ Hw).
  apply (finv_addrs _ _ _ (dino (mk_img s) (Z.of_nat j + 1))).
  - destruct (Z.eq_dec (Z.of_nat j + 1) ROOTINO) as [-> |Hne]; [apply Hfin|]. by rewrite (fn_dino _ _ _ Hfin) by lia.
  - eapply finv_ext; [|apply Hf]. intros n t E. split; [|done]. apply (fn_data _ _ _ Hfin). apply (ba_own _ _ Hb) in E. change nmeta with 46 in E. lia.
Qed.

Lemma finished_data n t : own n = Some t -> data_block mkfs_sb (mk_img s') n.
Proof.
  intros E. pose proof (wo_base _ _ _ Hw) as Hb. apply (ba_own _ _ Hb) in E. pose proof (ba_free _ _ Hb). change nmeta with 46 in *. change FSSIZE with 2000 in *.
  split; [rewrite mkfs_sb_eq; cbv [data_start sb_size sb_nblocks]; lia|]. rewrite (fn_bits _ _ _ Hfin) by (change FSSIZE with 2000; lia). apply Z.ltb_lt. lia.
Qed.

Lemma finished_file j arg : args !! j = Some arg ->
  holds_file (mk_img s') (Z.of_nat j + 2) T_FILE (content arg) /\ no_holes (mk_img s') (dino (mk_img s') (Z.of_nat j + 2)).
Proof.
  intros Hj. assert (Hj' : files args !! S j = Some (T_FILE, content arg)) by (change (((fun arg => (T_FILE, content arg)) <$> args) !! j = Some (T_FILE, content arg)); by rewrite list_lookup_fmap, Hj).
  pose proof (finished_finv _ _ _ Hj') as Hf. pose proof (wo_file _ _ _ Hw _ _ _ Hj') as [F1 F2 F3 F4 F5]. pose proof (lookup_lt_Some _ _ _ Hj').
  pose proof (wo_inodes _ _ _ Hw). replace (Z.of_nat (S j) + 1) with (Z.of_nat j + 2) in * by lia.
  rewrite <- (fn_dino _ _ _ Hfin (Z.of_nat j + 2)) in F2, F4, F5 by (change ROOTINO with 1; lia). split; [split; try done|].
  - eapply finv_inode_ok; [done|]. apply finished_data.
  - apply fbytes_nth. intros o Ho. apply Hf. lia.
  - intros o Ho. rewrite F2 in Ho. apply (fi_alloc _ _ _ _ _ _ _ Hf); [apply block_index; lia|]. change BSIZE with 1024. Z.div_mod_to_equations. lia.
Qed.

Lemma finished_root : len (padded (root_listing args)) <= MAXFILE * BSIZE -> holds_file (mk_img s') ROOTINO T_DIR (padded (root_listing args)).
Proof.
  intros Hmax. assert (Hj : files args !! 0%nat = Some (T_DIR, root_listing args)) by done. pose proof (finished_finv _ _ _ Hj) as Hf.
  pose proof (wo_file _ _ _ Hw _ _ _ Hj) as [F1 F2 F3 F4 F5]. change (Z.of_nat 0 + 1) with ROOTINO in *.
  destruct (fn_root _ _ _ Hfin) as (R1 & R2 & R3 & R4). split; try congruence; [|].
  - eapply finv_inode_ok; [done|]. apply finished_data.
  - apply fbytes_nth. intros o Ho. rewrite nth_padded. apply Hf. lia.
Qed.

Lemma root_block : len (padded (root_listing args)) <= MAXFILE * BSIZE -> forall o, 0 <= o < len (padded (root_listing args)) ->
  addr_of (mk_img s') (dino (mk_img s') ROOTINO) (o / BSIZE) <> 0 <-> o / BSIZE * BSIZE < len (root_listing args).
Proof.
  intros Hmax o Ho. assert (Hj : files args !! 0%nat = Some (T_DIR, root_listing args)) by done. pose proof (finished_finv _ _ _ Hj) as Hf.
  change (Z.of_nat 0 + 1) with ROOTINO in *. apply (fi_alloc _ _ _ _ _ _ _ Hf), block_index; lia.
Qed.

(** The padding of the root directory has a block unless the entries end at a block boundary. *)
Lemma finished_holes : len (padded (root_listing args)) <= MAXFILE * BSIZE ->
  no_holes (mk_img s') (dino (mk_img s') ROOTINO) <-> (Z.of_nat (length args) + 2) mod 64 <> 0.
Proof.
  intros Hmax. pose proof (root_block Hmax) as Hblk. destruct (fn_root _ _ _ Hfin) as (_ & _ & _ & R4). unfold no_holes, mapped. rewrite R4.
  rewrite len_padded in *. rewrite length_root in *. change DIRENT_SIZE with 16 in *. change BSIZE with 1024 in *. split.
  - intros H Hm. set (L := 16 * (Z.of_nat (length args) + 2)) in *. specialize (H L ltac:(Z.div_mod_to_equations; lia)).
    apply Hblk in H; [|Z.div_mod_to_equations; lia]. Z.div_mod_to_equations. lia.
  - intros Hm o Ho. apply Hblk; [done|]. Z.div_mod_to_equations. lia.
Qed.

Lemma finished_image : len (padded (root_listing args)) <= MAXFILE * BSIZE -> image args (mk_img s').
Proof.
  intros Hmax. pose proof (wo_base _ _ _ Hw) as Hb. pose proof (wo_meta _ _ _ Hw) as Hm. split.
  - rewrite (fn_data _ _ _ Hfin), Hm by (change nmeta with 46; lia). reflexivity.
  - change (sb_logstart mkfs_sb) with 2. rewrite (fn_data _ _ _ Hfin), Hm by (change nmeta with 46; lia). done.
  - split; [apply Hfin|apply Hfin|]. intros b Hb'. change (data_start mkfs_sb) with 46 in Hb'. pose proof (ba_free _ _ Hb). change nmeta with 46 in *.
    rewrite (fn_bits _ _ _ Hfin) by (change FSSIZE with 2000; lia). apply Z.ltb_lt. lia.
  - intros b Hb'. rewrite (fn_bits _ _ _ Hfin), (wo_free _ _ _ Hw) by done. done.
  - by apply finished_root.
  - intros o Ho. apply root_block; [done| |]; rewrite ?len_padded; change BSIZE with 1024 in *; Z.div_mod_to_equations; lia.
  - apply finished_file.
  - assert (Ho : forall j n, 1 <= j <= Z.of_nat (length args) + 1 -> n <> 0 -> owns (mk_img s') (dino (mk_img s') j) n -> exists t, own n = Some (j, t)).
    { intros j n Hj Hn Hown. destruct (lookup_lt_is_Some_2 (files args) (Z.to_nat (j - 1))) as [[ty c] E]; [cbn; rewrite length_fmap; lia|].
      apply finished_finv in E. replace (Z.of_nat (Z.to_nat (j - 1)) + 1) with j in E by lia. by eapply finv_owns. }
    intros j j' n Hj Hj' Hn H1 H2. destruct (Ho _ _ Hj Hn H1) as [t1 E1], (Ho _ _ Hj' Hn H2) as [t2 E2]. congruence.
  - intros j Hj. rewrite (fn_dino _ _ _ Hfin) by (change ROOTINO with 1; lia). apply (wo_rest _ _ _ Hw). cbn [files length]. rewrite length_fmap. lia.
Qed.

End Finished.

(** The files fit: in the inodes, and with their blocks on the disk. *)
Record args_ok (args : list (list Z)) : Prop := mkArgsOk {
  as_ok : Forall arg_ok args;
  as_inodes : Z.of_nat (length args) + 1 < NINODES;
  as_blocks : nmeta + total (files args) <= FSSIZE;
}.

Lemma mkfs_start th : exists s, world s (fun _ => None) [] /\
  forall k : M mk Z, (modify (set_mksb mkfs_sb);;; modify (set_freeblock nmeta);;; zero_image (Z.to_nat FSSIZE) 0;;; wsect 1 sb_block;;; k) th mk0 = k th s.
Proof.
  unfold modify. unfold bind at 1 2. set (s0 := set_freeblock nmeta (set_mksb mkfs_sb mk0)).
  destruct (zero_image_ok th (Z.to_nat FSSIZE) s0 0) as (s & E & Hz & Hl & Hs & Hi & Hf); try done.
  change (0 + Z.of_nat (Z.to_nat FSSIZE)) with FSSIZE in Hl. exists (wr s 1 sb_block). split; [by apply world_start|].
  intros k. rewrite (bind_ok _ _ _ _ _ _ _ E), (bind_ok _ _ _ _ _ _ _ (wsect_run th s 1 sb_block Hl ltac:(change FSSIZE with 2000; lia))). done.
Qed.

Lemma mkfs_runs args th : args_ok args ->
  exists s', mkfs_main args th mk0 = Ok 0 th s' /\ image args (mk_img s') /\
    (no_holes (mk_img s') (dino (mk_img s') ROOTINO) <-> (Z.of_nat (length args) + 2) mod 64 <> 0).
Proof.
  intros [Ha Hn Hroom]. destruct (mkfs_start th) as (s0 & Hw0 & E0). change NINODES with 200 in Hn.
  assert (HM : MAXFILE * BSIZE = 274432) by reflexivity. assert (HD : DIRENT_SIZE = 16) by reflexivity. assert (HF' : FSSIZE = 2000) by reflexivity. assert (HN : nmeta = 46) by reflexivity.
  assert (Hpad : len (padded (root_listing args)) <= MAXFILE * BSIZE).
  { rewrite len_padded, length_root, HD, HM. change BSIZE with 1024. Z.div_mod_to_equations. lia. }
  destruct (ialloc_ok th _ _ _ T_DIR Hw0) as (s1 & E1 & Hw1); [done|done|]. cbn [length app] in E1, Hw1. change (Z.of_nat 0 + 1) with ROOTINO in E1.
  set (d1 := dirent ROOTINO [dot_char]). set (d2 := dirent ROOTINO [dot_char; dot_char]). pose proof (length_dirent ROOTINO [dot_char]) as L1. pose proof (length_dirent ROOTINO [dot_char; dot_char]) as L2. fold d1 in L1. fold d2 in L2.
  destruct (iappend_ok th s1 _ _ 0 T_DIR [] d1 Hw1) as (s2 & own2 & E2 & Hw2); [done|by apply dirent_bytes; repeat constructor|change (len []) with 0; lia|vm_compute; discriminate|].
  destruct (iappend_ok th s2 _ _ 0 T_DIR d1 d2 Hw2) as (s3 & own3 & E3 & Hw3); [done|by apply dirent_bytes; repeat constructor|lia|vm_compute; discriminate|].
  change (Z.of_nat 0 + 1) with ROOTINO in E2, E3. rewrite L1 in E2. rewrite L2 in E3. change (<[0%nat := _]> _) with [(T_DIR, d1 ++ d2)] in Hw3.
  assert (Hfs : files args = (T_DIR, (d1 ++ d2) ++ listing (Z.of_nat 0 + 2) args) :: [] ++ ((fun arg => (T_FILE, content arg)) <$> args)).
  { unfold files, root_listing. by rewrite <- app_assoc. }
  assert (L12 : len (d1 ++ d2) = 32) by (unfold len in *; rewrite length_app; lia).
  destruct (add_files_ok th args s3 own3 (d1 ++ d2) [] Hw3 Ha) as (s4 & own4 & E4 & Hw4); [change NINODES with 200; cbn [length]; lia|lia|by rewrite Hfs in Hroom|].
  change (length (A := Z * list Z) []) with 0%nat in Hw4. rewrite <- Hfs in Hw4.
  destruct (finish_ok th s4 own4 (root_listing args) _ Hw4 Hpad) as (s5 & E5 & Hfin).
  exists s5. split; [|split; [by eapply finished_image|by eapply finished_holes]].
  unfold mkfs_main. fold sb_block. rewrite E0, (bind_ok _ _ _ _ _ _ _ E1). change (assert (ROOTINO =? ROOTINO)) with (ret tt : M mk unit).
  rewrite (bind_ok _ _ _ _ _ _ _ (eq_refl : ret tt th s1 = _)), (bind_ok _ _ _ _ _ _ _ E2), (bind_ok _ _ _ _ _ _ _ E3), (bind_ok _ _ _ _ _ _ _ E4). exact E5.
Qed.

End Image.

(** C12: mkfs makes a file system.  Given files that fit, it ends and leaves an image with
    the superblock the kernel reads, an empty log, a bitmap in which exactly the blocks
    handed out are in use, the root directory with an entry for each file, and every file
    with its name's inode, type, size and bytes, in whatever pieces the host's [read]
    delivered them; no block belongs to two files and the other inodes are free.  The
    image satisfies what the proofs about kernel/fs.c assume of a disk, with one
    exception: the root directory has a hole, a last block that was never allocated,
    exactly if its entries end at a block boundary. *)
Theorem mkfs_makes_file_system `{HF : Host} args th : args_ok args ->
  exists s', mkfs_main args th mk0 = Ok 0 th s' /\ sb_ok mkfs_sb /\ image args (mk_img s') /\
    (no_holes (mk_img s') (dino (mk_img s') ROOTINO) <-> (Z.of_nat (length args) + 2) mod 64 <> 0).
Proof. intros Ha. destruct (mkfs_runs args th Ha) as (s' & E & Him & Hh). exists s'. exact (conj E (conj mkfs_sb_ok (conj Him Hh))). Qed.

(** ** A command line with one file of three bytes, read in two pieces *)

#[export] Instance demo_host : Host := fun _ => Some [[72; 105]; [33]].

Lemma demo_args_ok : args_ok [[117; 115; 101; 114; 47; 95; 104; 105]].
Proof.
  split; [|done|vm_compute; discriminate]. constructor; [|constructor]. split.
  - repeat constructor; lia.
  - vm_compute. set_solver.
  - vm_compute. discriminate.
  - exists [[72; 105]; [33]]. split; [done|]. repeat constructor; done || lia.
  - vm_compute. discriminate.
Qed.

Lemma mkfs_makes_file_system_witness :
  exists s', mkfs_main [[117; 115; 101; 114; 47; 95; 104; 105]] demo_thread mk0 = Ok 0 demo_thread s' /\ no_holes (mk_img s') (dino (mk_img s') ROOTINO).
Proof.
  destruct (mkfs_makes_file_system [[117; 115; 101; 114; 47; 95; 104; 105]] demo_thread demo_args_ok) as (s' & E & _ & _ & H).
  exists s'. split; [exact E|]. apply H. vm_compute. discriminate.
Defined.
