(* ===== verification/MkfsKernel.v ===== *)
(** * The kernel on an image mkfs made

    The composition of mkfs with kernel/fs.c: what [ilock], [readi] and [dirlookup] find on
    the image is what was on the command line of mkfs. *)

From S2P Require Import Prelude Layout Memory Bytes Sleeplock BlockCache Bio BioSpec Log LogProto Storage FsState Txn Balloc BallocSpec Inode InodeSpec FileSpec InodeTable Dir DirSpec Mkfs MkfsSpec.

(** ** The kernel reads the files *)

Section Kernel.
Context {S : Type} {BC : BlockCache S} {BCS : BlockCacheSpec S} {K : Type} {EN : FsEnv K}.
Context (me dev : Z) (base : blocks) (w : list (Z * block)) (start nlog : Z) (Hdev : is_u32 dev).
Notation tx := (tx me dev base w start nlog).
Notation quiet := (quiet me).

(** An entry of the inode table for [inum], as [iget] leaves it. *)
Record got (i : inode) (inum : Z) : Prop := mkGot {
  got_dev : i_dev i = dev;
  got_inum : i_inum i = inum;
  got_ref : 1 <= i_ref i;
  got_lock : sl_locked (i_lock i) = 0;
  got_valid : i_valid i = 0;
}.

Lemma inode_ok_addrs_eq v i i' : i_addrs i' = i_addrs i -> inode_ok mkfs_sb v i -> inode_ok mkfs_sb v i'.
Proof.
  intros E [H1 H2 H3 H4]. assert (Hi : ind i' = ind i) by (unfold ind, naddr; by rewrite E).
  assert (Ha : forall k, addr_of v i' k = addr_of v i k) by (intros k; unfold addr_of, naddr; by rewrite Hi, E).
  split; rewrite ?E, ?Hi; try done; intros k; [|intros k']; rewrite !Ha; auto.
Qed.

Lemma fbytes_addrs_eq v i i' off n : i_addrs i' = i_addrs i -> fbytes v i' off n = fbytes v i off n.
Proof.
  intros E. assert (Hi : ind i' = ind i) by (unfold ind, naddr; by rewrite E).
  assert (Ha : forall k, addr_of v i' k = addr_of v i k) by (intros k; unfold addr_of, naddr; by rewrite Hi, E).
  unfold fbytes. apply list_fmap_ext. intros _ o _. unfold fbyte. by rewrite Ha.
Qed.

(** What a read of [n] bytes at [off] delivers of a file with the bytes [c]: nothing when
    the end of the request does not fit in 32 bits. *)
Definition part_of (c : list Z) (off n : Z) : list Z :=
  if 2 ^ 32 <=? off + n then [] else take (Z.to_nat n) (drop (Z.to_nat off) c).

(** A part of a file whose bytes are [c]. *)
Lemma fbytes_part v i c off n : fbytes v i 0 (len c) = c -> 0 <= off -> 0 <= n -> off + n <= len c ->
  fbytes v i off n = take (Z.to_nat n) (drop (Z.to_nat off) c).
Proof.
  intros Hc Ho Hn Hle. rewrite <- Hc at 1. replace (len c) with (off + (n + (len c - off - n))) by lia.
  rewrite !fbytes_app by lia. rewrite Z.add_0_l. rewrite drop_app_ge by (rewrite length_fbytes; lia). rewrite length_fbytes, Nat.sub_diag, drop_0 by done.
  rewrite take_app_ge by (rewrite length_fbytes; lia). by rewrite length_fbytes, Nat.sub_diag, take_0, app_nil_r.
Qed.

Lemma ilock_readi_ok v inum ty c R user_dst dst th f kk it W jp i off n :
  v_ok mkfs_sb v -> holds_file v inum ty c -> no_holes v (dino v inum) -> ty <> 0 -> 0 <= inum < NINODES ->
  quiet th -> tx f mkfs_sb it v W [] -> it !! jp = Some i -> got i inum -> LkInode jp ∉ th_held th ->
  is_u32 off -> is_u32 n -> sink R user_dst dst n -> R [] kk -> is_u64 dst ->
  let d := part_of c off n in
  exists th' f' kk', (fs (ilock (Some jp));;; readi jp user_dst dst off n) th (f, kk) = Ok (len d) th' (f', kk') /\ R d kk'.
Proof.
  intros Hv [D1 D2 D3 D4 D5 D6] Hh Hty Hin Hq Ht Hi [G1 G2 G3 G4 G5] Hlk Ho Hn Hs HR Hd d.
  apply (wp_run (fs (ilock (Some jp));;; readi jp user_dst dst off n) (fun a th' s' => a = len d /\ R d (snd s')) th (f, kk));
    [|intros a th' [f' kk'] E [-> HR']; by exists th', f', kk'].
  eapply fs_step; [apply (ilock_ok mkfs_sb mkfs_sb_ok me dev base w start nlog th f it v W jp i Hq Ht Hi); rewrite ?G2; try done|].
  { change (i_type (dino v inum) <> 0). by rewrite D2. }
  intros [] th1 f1 [Hth1 Ht1]. rewrite G2 in Ht1. set (i1 := with_ivalid 1 _) in Ht1.
  assert (Ea : i_addrs i1 = i_addrs (dino v inum)) by reflexivity. assert (Es : i_size i1 = len c) by (rewrite <- D4; reflexivity).
  eapply wp_mono; [eapply (readi_ok mkfs_sb mkfs_sb_ok me dev base w start nlog Hdev R user_dst dst th1 f1 kk _ v W jp i1 off n); try done|].
  - quiet_tac.
  - by eapply lookup_insert_Some_eq.
  - by eapply inode_ok_addrs_eq.
  - rewrite Es. unfold len in *. lia.
  - apply mapped_read; [|lia]. intros o Hr. unfold addr_of, ind, naddr. rewrite Ea. apply Hh. by rewrite D4, <- Es.
  - intros r th2 [f2 kk2] (-> & _ & _ & HR2). cbn [snd] in *. unfold read_count in *. rewrite Es in *.
    unfold d, part_of. clear d. destruct (Z.leb_spec (2 ^ 32) (off + n)); [by rewrite orb_true_r in *|]. set (d := take _ _). destruct (Z.ltb_spec (len c) off) as [Hlt|Hge]; cbn [orb] in *.
    + assert (d = []) as -> by (unfold d; rewrite drop_ge by (unfold len in *; lia); apply take_nil). done.
    + rewrite (fbytes_addrs_eq v (dino v inum)) in HR2 by done. rewrite (fbytes_part _ _ c) in HR2 by (done || lia).
      assert (d = take (Z.to_nat (Z.min n (len c - off))) (drop (Z.to_nat off) c)) as Ed.
      { unfold d. destruct (Z.le_ge_cases n (len c - off)); [by rewrite Z.min_l by lia|]. rewrite Z.min_r by lia.
        rewrite !take_ge; [done| |]; rewrite length_drop; unfold len in *; lia. }
      rewrite Ed. split; [|done]. unfold len in *. rewrite length_take, length_drop. lia.
Qed.

End Kernel.

(** ** The kernel finds the files *)

Section Names.
Context {HF : Host}.

(** The entries of the root directory. *)
Definition root_entries (args : list (list Z)) : list (list Z) :=
  dirent ROOTINO [dot_char] :: dirent ROOTINO [dot_char; dot_char] :: imap (fun j arg => dirent (Z.of_nat j + 2) (short_name arg)) args.

Lemma listing_entries args : forall k, listing (Z.of_nat k + 2) args = concat (imap (fun j arg => dirent (Z.of_nat (k + j) + 2) (short_name arg)) args).
Proof.
  induction args as [|arg args IH]; intros k; [done|]. cbn [listing imap concat]. rewrite Nat.add_0_r. f_equal.
  replace (Z.of_nat k + 2 + 1) with (Z.of_nat (S k) + 2) by lia. rewrite IH. f_equal. apply imap_ext. intros j a _. cbn. by rewrite Nat.add_succ_r.
Qed.

Lemma root_listing_entries args : root_listing args = concat (root_entries args).
Proof. unfold root_listing, root_entries. cbn [concat]. do 2 f_equal. apply (listing_entries args 0). Qed.

Lemma concat_chunk (m : nat) (es : list (list Z)) k e : Forall (fun x => length x = m) es -> es !! k = Some e -> take m (drop (m * k) (concat es)) = e.
Proof.
  intros Hes. revert k. induction Hes as [|x es Hx Hes IH]; intros [|k] Hk; try done; cbn [concat].
  - injection Hk as ->. rewrite Nat.mul_0_r, drop_0. by apply take_app_length'.
  - rewrite drop_app_ge by lia. replace (m * S k - length x)%nat with (m * k)%nat by lia. by apply IH.
Qed.

Lemma length_concat (m : nat) (es : list (list Z)) : Forall (fun x => length x = m) es -> length (concat es) = (m * length es)%nat.
Proof. induction 1; cbn; [lia|]. rewrite length_app. lia. Qed.

(** A directory whose bytes are those of [es] has the entries [es]. *)
Lemma dents_concat v i es : Forall (fun x => length x = Z.to_nat DIRENT_SIZE) es -> i_size i = len (concat es) -> fbytes v i 0 (len (concat es)) = concat es ->
  dents v i = es.
Proof.
  intros Hes Hs Hb. pose proof (length_concat _ _ Hes) as Hl. change (Z.to_nat DIRENT_SIZE) with 16%nat in *. assert (HD : DIRENT_SIZE = 16) by reflexivity.
  assert (Hn : i_size i / DIRENT_SIZE = Z.of_nat (length es)) by (rewrite Hs, HD; unfold len; Z.div_mod_to_equations; lia).
  apply list_eq. intros j. destruct (es !! j) as [e|] eqn:Ej.
  - pose proof (lookup_lt_Some _ _ _ Ej). replace j with (Z.to_nat (Z.of_nat j)) at 1 by lia. rewrite dents_lookup by lia. f_equal. unfold dent.
    rewrite (fbytes_part v i (concat es)) by (done || (unfold len; lia)). rewrite HD. change (Z.to_nat 16) with 16%nat.
    replace (Z.to_nat (16 * Z.of_nat j)) with (16 * j)%nat by lia. by apply concat_chunk.
  - apply lookup_ge_None_1 in Ej. apply lookup_ge_None_2. rewrite length_dents by (rewrite Hs; unfold len; lia). lia.
Qed.

(** A name of a file: without NUL, and short. *)
Definition file_name (x : list Z) : Prop := byte_list x /\ 0 ∉ x /\ len x <= DIRSIZ.

Lemma dirent_name inum x : file_name x -> de_name (dirent inum x) = x.
Proof.
  intros (Hb & H0 & Hl). unfold de_name, dirent, name_of. rewrite drop_app_length' by (by rewrite length_le_bytes). rewrite take_idemp.
  unfold len in Hl. rewrite take_app_ge by (change DIRSIZ with 14 in *; lia). rewrite take_replicate. by apply until_nul_filled.
Qed.

Lemma dirent_inum inum x : 0 <= inum < 65536 -> de_inum (dirent inum x) = inum.
Proof.
  intros Hi. unfold de_inum, dirent, getn. rewrite drop_0, take_app_length' by (by rewrite length_le_bytes). rewrite le_val_bytes, xshort_id by done. by apply Z.mod_small.
Qed.

(** The names in the root directory; entry [k] of it is for inode [root_inum k]. *)
Definition root_names (args : list (list Z)) : list (list Z) := [dot_char] :: [dot_char; dot_char] :: (short_name <$> args).
Definition root_inum (k : nat) : Z := Z.max ROOTINO (Z.of_nat k).

Lemma root_entries_names args : root_entries args = imap (fun k x => dirent (root_inum k) x) (root_names args).
Proof.
  unfold root_entries, root_names. cbn [imap]. do 2 f_equal. rewrite imap_fmap. apply imap_ext. intros j arg _. unfold compose, root_inum. change ROOTINO with 1. f_equal. lia.
Qed.

(** Looking a name up finds its first entry. *)
Lemma find_name_imap name zs names : Forall file_name names -> Forall (fun e => de_inum e = 0) zs -> forall k, Z.of_nat (k + length names) < 65536 ->
  find_name name (Z.of_nat k) (imap (fun j x => dirent (root_inum (k + j)) x) names ++ zs) =
  (fun jx => (Z.of_nat (k + jx.1), root_inum (k + jx.1))) <$> list_find (fun x => x = name) names.
Proof.
  intros Hn Hz. induction Hn as [|x names Hx Hn IH]; intros k Hk; cbn [imap app find_name list_find length] in *.
  - generalize (Z.of_nat k). clear Hk. induction Hz as [|e zs He Hz IH]; intros k'; cbn [find_name]; [done|]. rewrite He. apply IH.
  - rewrite Nat.add_0_r, dirent_name, dirent_inum by (done || (unfold root_inum; change ROOTINO with 1; lia)).
    rewrite (proj2 (Z.eqb_neq _ _)) by (unfold root_inum; change ROOTINO with 1; lia). cbn [negb andb].
    destruct (decide (x = name)) as [E|E]; [rewrite bool_decide_eq_true_2 by done; cbn; by rewrite Nat.add_0_r|].
    rewrite bool_decide_eq_false_2 by done. replace (Z.of_nat k + 1) with (Z.of_nat (k + 1)) by lia.
    rewrite (imap_ext _ (fun j x => dirent (root_inum (k + 1 + j)) x)) by (intros j y _; unfold compose; by rewrite <- Nat.add_assoc).
    rewrite IH by lia. rewrite <- option_fmap_compose. destruct (list_find _ names) as [[j y]|]; [|done]. cbn. by rewrite <- Nat.add_assoc.
Qed.

Lemma short_name_file arg : arg_ok arg -> 0 ∉ arg -> file_name (short_name arg).
Proof.
  intros Ha H0. split; [by apply short_name_bytes, Ha|]. split; [|apply Ha].
  assert (H1 : forall l, 0 ∉ l -> 0 ∉ skip_underscore l).
  { intros [|c l] Hl; [done|]. cbn. destruct (_ =? _); [|done]. set_solver. }
  apply H1. unfold strip_user. case_decide; [|done]. intros Hin. apply H0. rewrite <- (take_drop 5 arg). apply elem_of_app. by right.
Qed.

Lemma root_find args zs name : args_ok args -> Forall (fun arg => 0 ∉ arg) args -> Forall (fun e => de_inum e = 0) zs ->
  find_name name 0 (root_entries args ++ zs) = (fun jx => (Z.of_nat jx.1, root_inum jx.1)) <$> list_find (fun x => x = name) (root_names args).
Proof.
  intros Ha H0 Hz. rewrite root_entries_names.
  assert (Hn : Forall file_name (root_names args)).
  { unfold root_names, file_name, dot_char. constructor; [split; [repeat constructor; lia|]; split; [set_solver|done]|].
    constructor; [split; [repeat constructor; lia|]; split; [set_solver|done]|].
    apply Forall_fmap, Forall_lookup_2. intros j arg Hj. apply short_name_file; [exact (Forall_lookup_1 _ _ _ _ (as_ok _ Ha) Hj)|exact (Forall_lookup_1 _ _ _ _ H0 Hj)]. }
  assert (Hl : Z.of_nat (length (root_names args)) < 65536).
  { pose proof (as_inodes _ Ha). change NINODES with 200 in *. unfold root_names. cbn [length]. rewrite length_fmap. lia. }
  exact (find_name_imap name zs (root_names args) Hn Hz 0 Hl).
Qed.

End Names.

(** C13: what the kernel reads from a file is what was in the file mkfs copied.  On a disk
    with the image mkfs made, for every file named on its command line, locking the inode
    and reading [n] bytes at [off] delivers exactly those bytes of the host's file, fewer
    at its end, and returns their number.  A request whose end [off + n] does not fit in 32
    bits delivers nothing and returns 0. *)
Theorem mkfs_kernel_reads_files `{HF : Host} {S : Type} {BC : BlockCache S} {BCS : BlockCacheSpec S} {K : Type} {EN : FsEnv K} args th0 :
  args_ok args ->
  exists s', mkfs_main args th0 mk0 = Ok 0 th0 s' /\
    forall me dev base w start nlog j arg R user_dst dst th (f : fsys S) (kk : K) it W jp i off n,
      is_u32 dev -> args !! j = Some arg -> quiet me th -> tx me dev base w start nlog f mkfs_sb it (mk_img s') W [] ->
      it !! jp = Some i -> got dev i (Z.of_nat j + 2) -> LkInode jp ∉ th_held th ->
      is_u32 off -> is_u32 n -> sink R user_dst dst n -> R [] kk -> is_u64 dst ->
      let d := part_of (content arg) off n in
      exists th' f' kk', (fs (ilock (Some jp));;; readi jp user_dst dst off n) th (f, kk) = Ok (len d) th' (f', kk') /\ R d kk'.
Proof.
  intros Ha. destruct (mkfs_runs args th0 Ha) as (s' & E & Him & _). exists s'. split; [exact E|]. clear E.
  intros me dev base w start nlog j arg R user_dst dst th f kk it W jp i off n Hdev Hj Hq Ht Hi Hg Hlk Ho Hn Hs HR Hd.
  destruct (im_file _ _ Him j arg Hj) as [Hf Hh]. pose proof (lookup_lt_Some _ _ _ Hj) as Hjl. pose proof (as_inodes _ Ha) as Hin.
  assert (Hr : 0 <= Z.of_nat j + 2 < NINODES) by lia. assert (Hty : T_FILE <> 0) by discriminate.
  exact (ilock_readi_ok me dev base w start nlog Hdev _ _ _ _ R user_dst dst th f kk it W jp i off n (im_ok _ _ Him) Hf Hh Hty Hr Hq Ht Hi Hg Hlk Ho Hn Hs HR Hd).
Qed.

Lemma concat_zeros z : concat (replicate z (replicate (Z.to_nat DIRENT_SIZE) 0)) = replicate (Z.to_nat DIRENT_SIZE * z) 0.
Proof.
  induction z as [|z IH]; [by rewrite Nat.mul_0_r|]. rewrite Nat.mul_succ_r, Nat.add_comm, replicate_add, <- IH. done.
Qed.

(** The root directory of an image has the entries of the files, and then free ones. *)
Lemma image_entries `{HF : Host} args v : image args v -> exists zs, dents v (dino v ROOTINO) = root_entries args ++ zs /\ Forall (fun e => de_inum e = 0) zs.
Proof.
  intros Him. destruct (im_root _ _ Him) as [D1 D2 D3 D4 D5 D6]. pose proof (length_root args) as Hl.
  set (c := root_listing args) in *. set (m := (len c / BSIZE + 1) * BSIZE - len c).
  assert (Hm : m mod DIRENT_SIZE = 0 /\ 0 <= m) by (unfold m; rewrite Hl; change DIRENT_SIZE with 16; change BSIZE with 1024; split; Z.div_mod_to_equations; lia).
  exists (replicate (Z.to_nat (m / DIRENT_SIZE)) (replicate (Z.to_nat DIRENT_SIZE) 0)).
  assert (Hc : padded c = concat (root_entries args ++ replicate (Z.to_nat (m / DIRENT_SIZE)) (replicate (Z.to_nat DIRENT_SIZE) 0))).
  { rewrite concat_app, concat_zeros, <- root_listing_entries. fold c. unfold padded. fold m. do 2 f_equal. change DIRENT_SIZE with 16 in *. Z.div_mod_to_equations. lia. }
  rewrite Hc in D4, D6. split; [|by apply Forall_replicate]. apply dents_concat; [|done|done]. apply Forall_app. split; [|apply Forall_replicate, length_replicate].
  assert (Hd : forall inum x, length (dirent inum x) = Z.to_nat DIRENT_SIZE) by (intros inum x; pose proof (length_dirent inum x); unfold len in *; lia).
  unfold root_entries. repeat (constructor; [done|]). apply Forall_lookup_2. intros j e He. rewrite list_lookup_imap in He. destruct (args !! j); [|done]. by injection He as <-.
Qed.

Lemma table_room_insert it k i i' : it !! k = Some i -> i_ref i' = i_ref i -> i_ref i <> 0 -> table_room it -> table_room (<[k := i']> it).
Proof.
  intros Hk Hr Hne [(e & (j & Hj)%list_elem_of_lookup & He) Hmax]. split.
  - exists e. split; [|done]. apply list_elem_of_lookup. exists j. rewrite list_lookup_insert_ne; [done|]. intros ->. congruence.
  - intros x (j' & Hx)%list_elem_of_lookup. destruct (decide (k = j')) as [<-|Hn].
    + rewrite list_lookup_insert_eq in Hx by (by eapply lookup_lt_Some). injection Hx as <-. rewrite Hr. apply Hmax. by eapply list_elem_of_lookup_2.
    + rewrite list_lookup_insert_ne in Hx by done. apply Hmax. by eapply list_elem_of_lookup_2.
Qed.

(** The root directory once [ilock] has read it. *)
Lemma root_dir_ok `{HF : Host} args v dev i m : image args v -> mapped v (dino v ROOTINO) 0 (DIRENT_SIZE * m) -> got dev i ROOTINO ->
  forall lk, let i1 := with_ivalid 1 (load_dinode (v (IBLOCK ROOTINO mkfs_sb)) (dinode_off ROOTINO) (with_ilock lk i)) in
  dir_upto mkfs_sb dev v i1 (DIRENT_SIZE * m) /\ dents v i1 = dents v (dino v ROOTINO).
Proof.
  intros Him Hh [G1 G2 G3 G4 G5] lk i1. destruct (im_root _ _ Him) as [D1 D2 D3 D4 D5 D6].
  pose proof (dino_typed v ROOTINO (vo_bytes _ _ (im_ok _ _ Him))) as [T1 T2 T3 T4 T5 T6 T7]. pose proof (length_root args) as Hl.
  assert (Ea : i_addrs i1 = i_addrs (dino v ROOTINO)) by reflexivity. assert (Es : i_size i1 = i_size (dino v ROOTINO)) by reflexivity.
  split.
  - split; try assumption; rewrite ?Es, ?D4.
    + change (i_inum i1) with (i_inum i). rewrite G2. done.
    + by split.
    + by apply (inode_ok_addrs_eq v (dino v ROOTINO)).
    + done.
    + rewrite len_padded, Hl. change DIRENT_SIZE with 16. change BSIZE with 1024. Z.div_mod_to_equations. lia.
  - unfold dents. rewrite Es. apply list_fmap_ext. intros _ k _. by apply fbytes_addrs_eq.
Qed.

Section Root.
Context {HF : Host} {S : Type} {BC : BlockCache S} {BCS : BlockCacheSpec S} {K : Type} {EN : FsEnv K}.
Context (me dev : Z) (base : blocks) (w : list (Z * block)) (start nlog : Z) (Hdev : is_u32 dev).
Context (de_addr : Z) (I : list Z -> K -> Prop) (HI : de_buf de_addr I).
Notation tx := (tx me dev base w start nlog).

Lemma ilock_dirlookup_ok args v m name th (f : fsys S) (kk : K) it W dp i d :
  image args v -> mapped v (dino v ROOTINO) 0 (DIRENT_SIZE * m) -> settled v (dino v ROOTINO) name m 0 ->
  I d kk -> is_name name -> quiet me th -> LkItable ∉ th_held th -> LkInode dp ∉ th_held th -> tx f mkfs_sb it v W [] ->
  it !! dp = Some i -> got dev i ROOTINO -> table_room it ->
  wp (fs (ilock (Some dp));;; dirlookup de_addr dp name) (fun a th' s' => exists i1 it', tx (fst s') mkfs_sb it' v W [] /\
    looked_up dev name 0 (dents v (dino v ROOTINO)) a (<[dp := i1]> it) it') th (f, kk).
Proof.
  intros Him Hm Hset HdI Hn Hq Hlk Hlk2 Ht Hi Hg Hroom. pose proof Hg as [G1 G2 G3 G4 G5]. destruct (im_root _ _ Him) as [_ D2 _ _ _ _].
  eapply fs_step; [apply (ilock_ok mkfs_sb mkfs_sb_ok me dev base w start nlog th f it v W dp i Hq Ht Hi); rewrite ?G2; try done|].
  { change (i_type (dino v ROOTINO) <> 0). by rewrite D2. }
  intros [] th1 f1 [Hth1 Ht1]. rewrite G2 in Ht1. destruct (root_dir_ok args v dev i m Him Hm Hg (mkSleeplock 1 (th_pid th))) as [Hd1 Hde].
  set (i1 := with_ivalid 1 _) in *. assert (Hi1 : <[dp := i1]> it !! dp = Some i1) by (by eapply lookup_insert_Some_eq).
  assert (Hroom1 : table_room (<[dp := i1]> it)) by (eapply table_room_insert; [done|reflexivity|lia|done]).
  assert (Hq1 : quiet me th1) by quiet_tac. assert (Hlk1 : LkItable ∉ th_held th1) by (destruct Hth1 as (-> & _); exact Hlk).
  assert (Hset1 : settled v i1 name m 0) by (unfold settled in *; by rewrite Hde).
  eapply wp_mono; [exact (dirlookup_upto_ok mkfs_sb mkfs_sb_ok me dev base w start nlog Hdev de_addr I HI (<[dp := i1]> it) v W dp i1 Hi1 (im_ok _ _ Him) m Hd1 name th1 f1 kk d Hn Hset1 Hroom1 Hq1 Hlk1 Ht1 HdI)|].
  intros a th2 s2 (Hth2 & _ & it' & Ht' & Hlu). rewrite Hde in Hlu. by exists i1, it'.
Qed.

End Root.

(** C24: the kernel finds the files mkfs put into the root directory.  On a disk with the
    image mkfs made from arguments that are C strings, locking the root inode and looking
    any name up returns the entry of the first file on the command line with that name,
    and the inode the file was copied to (inode 1 for [.] and [..]), in the table entry that
    stands for it.  A name that no file has is not found, unless the entries end at a block
    boundary: there the root directory has a hole, and this half is not claimed. *)
Theorem mkfs_kernel_finds_files `{HF : Host} {S : Type} {BC : BlockCache S} {BCS : BlockCacheSpec S} {K : Type} {EN : FsEnv K} args th0 :
  args_ok args -> Forall (fun arg => 0 ∉ arg) args ->
  exists s', mkfs_main args th0 mk0 = Ok 0 th0 s' /\
    forall me dev base w start nlog de_addr I name th (f : fsys S) (kk : K) it W dp i d,
      is_u32 dev -> de_buf de_addr I -> I d kk -> is_name name ->
      quiet me th -> LkItable ∉ th_held th -> LkInode dp ∉ th_held th -> tx me dev base w start nlog f mkfs_sb it (mk_img s') W [] ->
      it !! dp = Some i -> got dev i ROOTINO -> table_room it ->
      let run := (fs (ilock (Some dp));;; dirlookup de_addr dp name) th (f, kk) in
      match list_find (fun x => x = name_of name) (root_names args) with
      | Some (k, _) => exists ip th' f' kk' i1 it', run = Ok (Some (ip, DIRENT_SIZE * Z.of_nat k)) th' (f', kk') /\
          igot (<[dp := i1]> it) dev (root_inum k) ip it' /\ tx me dev base w start nlog f' mkfs_sb it' (mk_img s') W []
      | None => (Z.of_nat (length args) + 2) mod 64 <> 0 -> exists th' f' kk' i1, run = Ok None th' (f', kk') /\
          tx me dev base w start nlog f' mkfs_sb (<[dp := i1]> it) (mk_img s') W []
      end.
Proof.
  intros Ha H0. destruct (mkfs_runs args th0 Ha) as (s' & E & Him & Hh). exists s'. split; [exact E|]. clear E.
  intros me dev base w start nlog de_addr I name th f kk it W dp i d Hdev HI HdI Hn Hq Hlk Hlk2 Ht Hi Hg Hroom run.
  set (v := mk_img s') in *. clearbody v. destruct (image_entries args v Him) as (zs & Hes & Hz).
  pose proof (fun m H1 H2 => ilock_dirlookup_ok me dev base w start nlog Hdev de_addr I HI args v m name th f kk it W dp i d Him H1 H2 HdI Hn Hq Hlk Hlk2 Ht Hi Hg Hroom) as Hwp.
  pose proof (root_find args zs (name_of name) Ha H0 Hz) as Hfind. pose proof (root_find args [] (name_of name) Ha H0 (Forall_nil_2 _)) as Hfind0. rewrite app_nil_r in Hfind0.
  assert (Hlen : length (root_entries args) = (length args + 2)%nat) by (rewrite root_entries_names, length_imap; unfold root_names; cbn; rewrite length_fmap; lia).
  destruct (list_find _ _) as [[k x]|]; cbn [fmap option_fmap option_map fst] in Hfind, Hfind0.
  - eapply wp_run; [apply (Hwp (Z.of_nat (length args) + 2))|].
    + rewrite <- length_root. apply Him.
    + right. rewrite Hes, drop_0, take_app_length' by lia. by rewrite Hfind0.
    + intros a th' [f' kk'] Er (i1 & it' & Ht' & Hlu). unfold looked_up in Hlu. rewrite Hes, Hfind in Hlu. destruct Hlu as (ip & -> & Hig).
      exists ip, th', f', kk', i1, it'. exact (conj Er (conj Hig Ht')).
  - intros Hmod. apply Hh in Hmod. eapply wp_run; [apply (Hwp (i_size (dino v ROOTINO) / DIRENT_SIZE))|].
    + intros o Ho. apply Hmod. change DIRENT_SIZE with 16 in *. Z.div_mod_to_equations. lia.
    + by left.
    + intros a th' [f' kk'] Er (i1 & it' & Ht' & Hlu). unfold looked_up in Hlu. rewrite Hes, Hfind in Hlu. destruct Hlu as [-> ->].
      exists th', f', kk', i1. exact (conj Er Ht').
Qed.

(** ** The image of MkfsSpec.v under a running kernel *)

#[local] Instance demo_copy : FsEnv (list Z) := {
  env_copyout := fun _ _ bs th k => Ok 0 th (k ++ bs);
  env_copyin := fun _ _ _ => fault "user memory";
  env_load := fun _ _ => fault "kernel stack";
  env_store := fun _ _ => fault "kernel stack";
  env_cwd := ret None;
}.

Definition mkfs_entry : inode := mkInode 1 2 1 (mkSleeplock 0 0) 0 0 0 0 0 0 (replicate 13 0).
Definition mkfs_fs (it : list inode) (v : blocks) : fsys Bio.bio := mkFsys mkfs_sb it (demo_log, cboot v).

Lemma mkfs_tx it v : (forall n, length (v n) = Z.to_nat BSIZE) -> tx 1 1 v [] 2 30 (mkfs_fs it v) mkfs_sb it v ∅ [].
Proof.
  intros Hv. split; try reflexivity.
  - exists []. split; [|split; [constructor|split; [done|intros n ?%not_elem_of_nil; done]]]. by split.
  - split; [reflexivity..|]. unfold log_fits, MAXOPBLOCKS. lia.
  - cbn [f_disk mkfs_fs snd]. by apply crepr_boot.
  - unfold fits. rewrite size_empty. lia.
Qed.

Lemma mkfs_sink n : sink (fun out k => k = out) 1 0 n.
Proof. split. intros out bs th k -> _. by exists (out ++ bs). Qed.

Lemma mkfs_kernel_reads_files_witness :
  exists s' th' f' kk', mkfs_main [[117; 115; 101; 114; 47; 95; 104; 105]] demo_thread mk0 = Ok 0 demo_thread s' /\
    (fs (ilock (Some 0%nat));;; readi 0 1 0 1 5) demo_thread (mkfs_fs [mkfs_entry] (mk_img s'), []) = Ok 2 th' (f', kk') /\ kk' = [105; 33].
Proof.
  destruct (mkfs_kernel_reads_files (K := list Z) [[117; 115; 101; 114; 47; 95; 104; 105]] demo_thread demo_args_ok) as (s' & E & H).
  destruct (mkfs_runs _ demo_thread demo_args_ok) as (s1 & E1 & Him & _). rewrite E in E1. injection E1 as <-.
  destruct (H 1 1 (mk_img s') [] 2 30 0%nat [117; 115; 101; 114; 47; 95; 104; 105] (fun out k => k = out) 1 0 demo_thread (mkfs_fs [mkfs_entry] (mk_img s')) [] [mkfs_entry] ∅ 0%nat mkfs_entry 1 5)
    as (th' & f' & kk' & E' & Hk).
  - lia.
  - reflexivity.
  - exact demo_quiet.
  - apply mkfs_tx, (vo_len _ _ (im_ok _ _ Him)).
  - reflexivity.
  - by split.
  - apply not_elem_of_nil.
  - lia.
  - lia.
  - apply mkfs_sink.
  - reflexivity.
  - lia.
  - exists s', th', f', kk'. split; [exact E|]. split; [exact E'|exact Hk].
Defined.

Definition mkfs_root : inode := mkInode 1 1 1 (mkSleeplock 0 0) 0 0 0 0 0 0 (replicate 13 0).

Lemma mkfs_kernel_finds_files_witness :
  exists s' ip th' f', mkfs_main [[117; 115; 101; 114; 47; 95; 104; 105]] demo_thread mk0 = Ok 0 demo_thread s' /\
    (fs (ilock (Some 0%nat));;; dirlookup (EN := demo_de) 0 0 [104; 105; 0]) demo_thread (mkfs_fs [mkfs_root; demo_free] (mk_img s'), replicate 16 0) = Ok (Some (ip, 32)) th' f'.
Proof.
  destruct (mkfs_kernel_finds_files (K := list Z) (EN := demo_de) [[117; 115; 101; 114; 47; 95; 104; 105]] demo_thread demo_args_ok) as (s' & E & H); [constructor; [set_solver|constructor]|].
  destruct (mkfs_runs _ demo_thread demo_args_ok) as (s1 & E1 & Him & _). rewrite E in E1. injection E1 as <-.
  destruct (H 1 1 (mk_img s') [] 2 30 0 demo_holds [104; 105; 0] demo_thread (mkfs_fs [mkfs_root; demo_free] (mk_img s'))
    (replicate 16 0) [mkfs_root; demo_free] ∅ 0%nat mkfs_root (replicate 16 0)) as (ip & th' & f' & kk' & i1 & it' & E' & _).
  - lia.
  - exact demo_de_buf.
  - split; reflexivity.
  - split; [repeat constructor; lia|right; right; right; left].
  - exact demo_quiet.
  - apply not_elem_of_nil.
  - apply not_elem_of_nil.
  - apply mkfs_tx, (vo_len _ _ (im_ok _ _ Him)).
  - reflexivity.
  - split; reflexivity || (cbn; lia).
  - split; [exists demo_free; split; [right; left|reflexivity]|]. intros e He. apply list_elem_of_In in He as [<-|[<-|[]]]; cbn; lia.
  - exists s', ip, th', (f', kk'). split; [exact E|exact E'].
Defined.
