(* ===== verification/Umalloc.v ===== *)
(** * The user memory allocator (user/umalloc.c)

    The allocator of Kernighan and Ritchie: free blocks are linked into a ring in the order
    of their addresses, through the header before each block, and neighbours are joined.
    [hdr] is the memory the headers are in, by byte address; a header is 16 bytes and sizes
    count headers.  [base] is the address of the variable of that name, [freep] the other
    global.  The kernel enters through [sbrk]. *)

From S2P Require Import Prelude.

Class Sbrk (K : Type) := { os_sbrk : Z -> M K Z }.

Record um (K : Type) := mkUm { hdr : gmap Z (Z * Z); freep : Z; um_os : K }.
Arguments mkUm {K} _ _ _.
Arguments hdr {K} _.
Arguments freep {K} _.
Arguments um_os {K} _.

Definition um_lens {K} : lens (um K) K := mkLens um_os (fun k s => mkUm (hdr s) (freep s) k).
Definition with_hdr {K} (h : gmap Z (Z * Z)) (s : um K) : um K := mkUm h (freep s) (um_os s).

(** [p->s.ptr = v] and [p->s.size = v], [size] being a [uint]. *)
Definition set_ptr (p v : Z) (h : gmap Z (Z * Z)) : gmap Z (Z * Z) := <[p := (v, snd (default (0, 0) (h !! p)))]> h.
Definition set_size (p v : Z) (h : gmap Z (Z * Z)) : gmap Z (Z * Z) := <[p := (fst (default (0, 0) (h !! p)), u32 v)]> h.

Section Alloc.
Context {K : Type} `{SB : Sbrk K} (base : Z).
Notation U := (um K).

(** [*p]: its pointer and its size. *)
Definition header (p : Z) : M U (Z * Z) :=
  let! s := get in match hdr s !! p with Some x => ret x | None => fault "header" end.
Definition upd (f : gmap Z (Z * Z) -> gmap Z (Z * Z)) : M U unit := modify (fun s => with_hdr (f (hdr s)) s).
Definition set_freep (p : Z) : M U unit := modify (fun s => mkUm (hdr s) p (um_os s)).

(** The search of [free]: the ring is walked at most once. *)
Fixpoint free_find (f : nat) (bp p : Z) : M U Z :=
  match f with
  | O => diverge
  | S f =>
      let! x := header p in
      if (bp >? p) && (bp <? fst x) then ret p
      else if (p >=? fst x) && ((bp >? p) || (bp <? fst x)) then ret p
      else free_find f bp (fst x)
  end.

Definition free (f : nat) (ap : Z) : M U unit :=
  let bp := ap - 16 in
  let! s := get in
  let! p := free_find f bp (freep s) in
  let! b := header bp in
  let! x := header p in
  (if bp + 16 * snd b =? fst x then
     let! y := header (fst x) in
     upd (set_size bp (snd b + snd y));;;
     upd (set_ptr bp (fst y))
   else upd (set_ptr bp (fst x)));;;
  let! b := header bp in
  let! x := header p in
  (if p + 16 * snd x =? bp then
     upd (set_size p (snd x + snd b));;;
     upd (set_ptr p (fst b))
   else upd (set_ptr p bp));;;
  set_freep p.

(** [sbrk] takes an [int]. *)
Definition morecore (f : nat) (nu : Z) : M U Z :=
  let nu := if nu <? 4096 then 4096 else nu in
  let! p := zoom um_lens (os_sbrk (i32 (nu * 16))) in
  if p =? -1 then ret 0
  else
    upd (set_size p nu);;;
    free f (p + 16);;;
    gets freep.

(** The loop of [malloc] at [p], [prevp] being before it. *)
Fixpoint malloc_loop (f : nat) (nunits prevp p : Z) : M U Z :=
  match f with
  | O => diverge
  | S f =>
      let! x := header p in
      if snd x >=? nunits then
        let! q :=
          (if snd x =? nunits then upd (set_ptr prevp (fst x));;; ret p
           else
             upd (set_size p (snd x - nunits));;;
             let q := p + 16 * (snd x - nunits) in
             upd (set_size q nunits);;;
             ret q) in
        set_freep prevp;;;
        ret (q + 16)
      else
        let! s := get in
        if p =? freep s then
          let! p := morecore f nunits in
          if p =? 0 then ret 0
          else let! y := header p in malloc_loop f nunits p (fst y)
        else malloc_loop f nunits p (fst x)
  end.

Definition malloc (f : nat) (nbytes : Z) : M U Z :=
  let nunits := u32 ((nbytes + 16 - 1) / 16 + 1) in
  let! s := get in
  (if freep s =? 0 then upd (fun h => <[base := (base, 0)]> h);;; set_freep base else ret tt);;;
  let! s := get in
  let! x := header (freep s) in
  malloc_loop f nunits (freep s) (fst x).
End Alloc.

(** ** The ring of free blocks

    [fl] are the free blocks, address and size, in ascending order. *)

Notation block := (Z * Z)%type.

(** From the node [p], of size [n], the pointers lead through [l] to [e]. *)
Fixpoint chain (h : gmap Z (Z * Z)) (p n : Z) (l : list block) (e : Z) : Prop :=
  match l with
  | [] => h !! p = Some (e, n)
  | (a, k) :: l' => h !! p = Some (a, n) /\ chain h a k l' e
  end.

(** The blocks come after [lo], in order, and do not touch. *)
Fixpoint ascending (lo : Z) (l : list block) : Prop :=
  match l with [] => True | (a, k) :: l' => lo < a /\ 0 < k /\ ascending (a + 16 * k) l' end.

(** The bytes of a block, and of the free blocks. *)
Definition within (b : block) (x : Z) : Prop := fst b <= x < fst b + 16 * snd b.
Definition covers (l : list block) (x : Z) : Prop := exists b, b ∈ l /\ within b x.

Lemma chain_app h l1 : forall p n a k l2 e, chain h p n (l1 ++ (a, k) :: l2) e <-> chain h p n l1 a /\ chain h a k l2 e.
Proof. induction l1 as [|[b j] l1 IH]; intros p n a k l2 e; cbn; [done|]. rewrite IH. tauto. Qed.

Lemma chain_ext h h' l : forall p n e, chain h p n l e -> h' !! p = h !! p -> (forall a, a ∈ l.*1 -> h' !! a = h !! a) -> chain h' p n l e.
Proof.
  induction l as [|[a k] l IH]; intros p n e H Hp Hl; cbn in *; [congruence|]. destruct H as [H1 H2]. split; [congruence|].
  apply IH; [done|apply Hl; set_solver|]. intros b Hb. apply Hl. set_solver.
Qed.

Lemma ascending_app l1 : forall lo a k l2, ascending lo (l1 ++ (a, k) :: l2) -> ascending lo l1 /\ ascending (a + 16 * k) l2 /\ lo < a /\ 0 < k /\ forall b, b ∈ l1 -> fst b + 16 * snd b < a.
Proof.
  induction l1 as [|[b j] l1 IH]; intros lo a k l2 H; cbn in H.
  - destruct H as (H1 & H2 & H3). split_and!; try done. intros b Hb. by apply not_elem_of_nil in Hb.
  - destruct H as (H1 & H2 & H3). destruct (IH _ _ _ _ H3) as (I1 & I2 & I3 & I4 & I5). cbn. split_and!; try done; [lia|]. intros b' [->|Hb]%elem_of_cons; [cbn; lia|by apply I5].
Qed.

Lemma ascending_all lo l b : ascending lo l -> b ∈ l -> lo < fst b /\ 0 < snd b.
Proof.
  revert lo. induction l as [|[a k] l IH]; intros lo H Hb; [by apply not_elem_of_nil in Hb|]. cbn in H. destruct H as (H1 & H2 & H3).
  apply elem_of_cons in Hb as [->|Hb]; [done|]. destruct (IH _ H3 Hb). split; lia.
Qed.

Lemma ascending_weaken lo lo' l : ascending lo l -> lo' <= lo -> ascending lo' l.
Proof. destruct l as [|[a k] l]; [done|]. cbn. intros (H1 & H2 & H3) Hl. split_and!; try done. lia. Qed.

(** Building an ascending list. *)
Lemma ascending_mk l1 : forall lo l2 mid, ascending lo l1 -> lo <= mid -> (forall b, b ∈ l1 -> fst b + 16 * snd b <= mid) -> ascending mid l2 -> ascending lo (l1 ++ l2).
Proof.
  induction l1 as [|[a k] l1 IH]; intros lo l2 mid H Hm Hl H2; cbn; [by eapply ascending_weaken|]. cbn in H. destruct H as (H1 & Hk & H3). split; [done|]. split; [done|].
  apply (IH _ _ mid); [done|apply (Hl (a, k)); set_solver| |done]. intros b Hb. apply Hl. set_solver.
Qed.

(** The place of an address among the free blocks. *)
Lemma split_at lo fl bp : ascending lo fl -> exists l1 l2, fl = l1 ++ l2 /\ (forall b, b ∈ l1 -> fst b < bp) /\ (forall b, b ∈ l2 -> bp <= fst b).
Proof.
  revert lo. induction fl as [|[a k] fl IH]; intros lo H; [exists [], []; split; [done|]; split; intros b Hb; by apply not_elem_of_nil in Hb|].
  cbn in H. destruct H as (H1 & H2 & H3). destruct (Z.lt_ge_cases a bp) as [Hlt|Hge].
  - destruct (IH _ H3) as (l1 & l2 & -> & I1 & I2). exists ((a, k) :: l1), l2. split; [done|]. split; [|done]. intros b [->|Hb]%elem_of_cons; [done|by apply I1].
  - exists [], ((a, k) :: fl). split; [done|]. split; [intros b Hb; by apply not_elem_of_nil in Hb|]. intros b [->|Hb]%elem_of_cons; [done|].
    destruct (ascending_all _ _ _ H3 Hb). lia.
Qed.

Section Ring.
Context {K : Type} `{SB : Sbrk K} (base : Z).
Notation U := (um K).

Lemma header_ok p x th (s : U) : hdr s !! p = Some x -> header p th s = Ok x th s.
Proof. intros E. unfold header. rewrite (bind_ok get _ th s s th s eq_refl). by rewrite E. Qed.

(** The last node of the chain from [p] through [l]. *)
Definition last_node (p : Z) (l : list block) : Z := default p (last l.*1).

Lemma last_node_cons p a k l : last_node p ((a, k) :: l) = last_node a l.
Proof. unfold last_node. rewrite fmap_cons, last_cons. by destruct (last l.*1). Qed.

Lemma find_forward l : forall f bp p n e th (s : U), chain (hdr s) p n l e -> ascending p l -> p < bp -> (forall b, b ∈ l -> fst b < bp) ->
  bp < e \/ e <= last_node p l -> (length l < f)%nat -> free_find f bp p th s = Ok (last_node p l) th s.
Proof.
  induction l as [|[a k] l IH]; intros f bp p n e th s Hc Ha Hp Hl He Hf; (destruct f as [|f]; [lia|]); cbn [free_find].
  - cbn in Hc. rewrite (bind_ok _ _ _ _ _ _ _ (header_ok p _ th s Hc)). cbn [fst]. unfold last_node in *. cbn in *. rewrite !Z.gtb_ltb, Z.geb_leb.
    destruct (Z.ltb_spec p bp); [|lia]. destruct (Z.ltb_spec bp e); [done|]. destruct (Z.leb_spec e p); [done|lia].
  - destruct Hc as [Hh Hc]. cbn in Ha. destruct Ha as (Ha1 & Hk & Ha2). rewrite (bind_ok _ _ _ _ _ _ _ (header_ok p _ th s Hh)). cbn [fst]. rewrite last_node_cons in *.
    pose proof (Hl (a, k) ltac:(set_solver)) as Hab. cbn in Hab. rewrite !Z.gtb_ltb, Z.geb_leb. destruct (Z.ltb_spec p bp); [|lia]. destruct (Z.ltb_spec bp a); [lia|]. destruct (Z.leb_spec a p); [lia|].
    cbn [andb]. cbn in Hf. apply (IH f bp a k e); [done|eapply ascending_weaken; [done|lia]|done|intros b Hb; apply Hl; set_solver|done|lia].
Qed.

Lemma find_around l : forall f l1 bp p n e th (s : U), chain (hdr s) p n l base -> ascending p l -> bp <= p -> (forall b, b ∈ l -> bp <= fst b) -> base < bp ->
  chain (hdr s) base 0 l1 e -> ascending base l1 -> (forall b, b ∈ l1 -> fst b < bp) -> bp < e \/ e <= last_node base l1 -> (length l + length l1 + 1 < f)%nat ->
  free_find f bp p th s = Ok (last_node base l1) th s.
Proof.
  induction l as [|[a k] l IH]; intros f l1 bp p n e th s Hc Ha Hp Hl Hb Hc1 Ha1 Hl1 He Hf; (destruct f as [|f]; [lia|]); cbn [free_find].
  - cbn in Hc. rewrite (bind_ok _ _ _ _ _ _ _ (header_ok p _ th s Hc)). cbn [fst]. rewrite !Z.gtb_ltb, Z.geb_leb. destruct (Z.ltb_spec p bp); [lia|]. destruct (Z.ltb_spec bp base); [lia|].
    cbn [andb orb]. rewrite andb_false_r. cbn in Hf. apply (find_forward l1 f bp base 0 e); [done|done|done|done|done|lia].
  - destruct Hc as [Hh Hc]. cbn in Ha. destruct Ha as (Ha2 & Hk & Ha3). rewrite (bind_ok _ _ _ _ _ _ _ (header_ok p _ th s Hh)). cbn [fst].
    rewrite !Z.gtb_ltb, Z.geb_leb. destruct (Z.ltb_spec p bp); [lia|]. destruct (Z.leb_spec a p); [lia|].
    cbn [andb]. cbn in Hf. apply (IH f l1 bp a k e); try done; [eapply ascending_weaken; [done|lia]|apply (Hl (a, k)); set_solver|intros b Hb'; apply Hl; set_solver|lia].
Qed.

(** Wherever it starts, the search ends at the node before [bp]. *)
Lemma free_find_ok f bp p l1 l2 th (s : U) : chain (hdr s) base 0 (l1 ++ l2) base -> ascending base (l1 ++ l2) -> base < bp ->
  (forall b, b ∈ l1 -> fst b < bp) -> (forall b, b ∈ l2 -> bp < fst b) -> p = base \/ p ∈ (l1 ++ l2).*1 -> (length (l1 ++ l2) + 1 < f)%nat ->
  free_find f bp p th s = Ok (last_node base l1) th s.
Proof.
  intros Hc Ha Hb H1 H2 Hp Hf. rewrite length_app in Hf.
  assert (Hsplit : exists e, chain (hdr s) base 0 l1 e /\ ascending base l1 /\ (bp < e \/ e <= last_node base l1)).
  { destruct l2 as [|[a k] l2].
    - rewrite app_nil_r in *. exists base. split; [done|]. split; [done|]. right. unfold last_node. destruct (last l1.*1) as [a|] eqn:El; cbn; [|lia].
      apply last_Some_elem_of, list_elem_of_fmap in El as (b & -> & Hin). destruct (ascending_all _ _ _ Ha Hin). lia.
    - apply chain_app in Hc as [Hc _]. apply ascending_app in Ha as (Ha & _). exists a. split; [done|]. split; [done|]. left. apply (H2 (a, k)). set_solver. }
  destruct Hsplit as (e & Hc1 & Ha1 & He). destruct Hp as [->|Hp]; [apply (find_forward l1 f bp base 0 e); try done; lia|].
  rewrite fmap_app in Hp. apply elem_of_app in Hp as [Hp|Hp]; apply list_elem_of_fmap in Hp as ([a k] & -> & Hin); cbn [fst]; apply list_elem_of_split in Hin as (x & y & ->).
  - apply chain_app in Hc1 as [_ Hc1]. pose proof Ha1 as Ha1'. apply ascending_app in Ha1' as (_ & Ha2 & _ & Hk & _). rewrite length_app in Hf. cbn in Hf.
    assert (El : last_node base (x ++ (a, k) :: y) = last_node a y).
    { unfold last_node. rewrite fmap_app, fmap_cons, last_app_cons, last_cons. by destruct (last y.*1). }
    rewrite El in *. apply (find_forward y f bp a k e); [done|eapply ascending_weaken; [done|lia]|apply (H1 (a, k)); set_solver|intros b Hb'; apply H1; set_solver|done|lia].
  - rewrite app_assoc in Hc, Ha. apply chain_app in Hc as [_ Hc]. apply ascending_app in Ha as (_ & Ha & _ & Hk & _). rewrite length_app in Hf. cbn in Hf.
    pose proof (H2 (a, k) ltac:(set_solver)) as Hak. cbn in Hak.
    apply (find_around y f l1 bp a k e); try done; [eapply ascending_weaken; [done|lia]|lia| |lia]. intros b Hb'. specialize (H2 b ltac:(set_solver)). lia.
Qed.

Definition last_size (n : Z) (l : list block) : Z := default n (last l.*2).

Lemma last_size_cons n a k l : last_size n ((a, k) :: l) = last_size k l.
Proof. unfold last_size. rewrite fmap_cons, last_cons. by destruct (last l.*2). Qed.

Lemma last_node_snoc p l a k : last_node p (l ++ [(a, k)]) = a.
Proof. unfold last_node. rewrite fmap_app. cbn [fmap list_fmap fst]. by rewrite last_snoc. Qed.
Lemma last_size_snoc n l a k : last_size n (l ++ [(a, k)]) = k.
Proof. unfold last_size. rewrite fmap_app. cbn [fmap list_fmap snd]. by rewrite last_snoc. Qed.

Lemma chain_last h l : forall p n e, chain h p n l e -> h !! last_node p l = Some (e, last_size n l).
Proof. induction l as [|[a k] l IH]; intros p n e H; [done|]. destruct H as [_ H]. rewrite last_node_cons, last_size_cons. by apply IH. Qed.

Lemma last_node_in p l : last_node p l = p \/ last_node p l ∈ l.*1.
Proof. unfold last_node. destruct (last l.*1) eqn:E; [right; by apply last_Some_elem_of in E|by left]. Qed.

Lemma ascending_fst lo l a : ascending lo l -> a ∈ l.*1 -> lo < a.
Proof. intros H (b & -> & Hb)%list_elem_of_fmap. by destruct (ascending_all _ _ _ H Hb). Qed.

(** The last pointer of a chain is changed. *)
Lemma chain_set_end h h' l : forall p n e e', chain h p n l e -> ascending p l -> h' !! last_node p l = Some (e', last_size n l) ->
  (forall a, a <> last_node p l -> (a = p \/ a ∈ l.*1) -> h' !! a = h !! a) -> chain h' p n l e'.
Proof.
  induction l as [|[a k] l IH]; intros p n e e' H Ha Hl Ho; [done|]. rewrite last_node_cons, last_size_cons in *. cbn in H, Ha |- *. destruct H as [H1 H2]. destruct Ha as (Ha1 & Hk & Ha2).
  assert (Ha3 : ascending a l) by (eapply ascending_weaken; [done|lia]). split.
  - rewrite Ho; [done| |by left]. destruct (last_node_in a l) as [->|Hin]; [lia|]. apply (ascending_fst a) in Hin; [lia|done].
  - apply (IH a k e); [done|done|done|]. intros b Hb Hin. apply Ho; [done|]. right. cbn. set_solver.
Qed.

(** The tail of a chain is taken over by another node. *)
Lemma chain_rehead h h' l p n e q k x : chain h p n l e -> h !! p = Some x -> h' !! q = Some (fst x, k) -> (forall a, a ∈ l.*1 -> h' !! a = h !! a) -> chain h' q k l e.
Proof.
  destruct l as [|[a j] l]; cbn; intros H Hp Hq Ho; [rewrite H in Hp; by injection Hp as <-|]. destruct H as [H1 H2]. rewrite H1 in Hp. injection Hp as <-. split; [done|].
  apply (chain_ext h); [done|apply Ho; set_solver|]. intros b Hb. apply Ho. set_solver.
Qed.

Lemma within_join a n b m x : 0 <= n -> 0 <= m -> a + 16 * n = b -> within (a, n + m) x <-> within (a, n) x \/ within (b, m) x.
Proof. unfold within. cbn. lia. Qed.
Lemma covers_app l1 l2 x : covers (l1 ++ l2) x <-> covers l1 x \/ covers l2 x.
Proof. unfold covers. split; [intros (b & Hb & H); apply elem_of_app in Hb; naive_solver|]. intros [(b & ? & ?)|(b & ? & ?)]; exists b; rewrite elem_of_app; auto. Qed.
Lemma covers_cons b l x : covers (b :: l) x <-> within b x \/ covers l x.
Proof. unfold covers. split; [intros (c & [->|Hb]%elem_of_cons & H); [by left|right; by exists c]|]. intros [H|(c & ? & ?)]; [exists b|exists c]; rewrite elem_of_cons; auto. Qed.
End Ring.

(** ** Giving a block back *)

Section Free.
Context {K : Type} `{SB : Sbrk K} (base : Z).
Notation U := (um K).

(** What [free] needs of the block at [bp]: it lies above [base] and is not free, and all is
    below [B]. *)
Record giveable (s : U) (fl : list block) (bp n B : Z) : Prop := mkGiveable {
  gv_base : 0 < base < bp;
  gv_size : 0 < n;
  gv_hdr : exists v, hdr s !! bp = Some (v, n);
  gv_fresh : forall x, within (bp, n) x -> ~ covers fl x;
  gv_bound : forall x, covers fl x -> x < B;
  gv_end : bp + 16 * n <= B;
  gv_limit : B <= 2 ^ 36;
}.

Lemma giveable_split s fl bp n B : giveable s fl bp n B -> ascending base fl ->
  exists l1 l2, fl = l1 ++ l2 /\ (forall b, b ∈ l1 -> fst b < bp /\ fst b + 16 * snd b <= bp) /\ (forall b, b ∈ l2 -> bp + 16 * n <= fst b).
Proof.
  intros [G1 G2 _ G4 _ _ _] Ha. destruct (split_at base fl bp Ha) as (l1 & l2 & -> & H1 & H2). exists l1, l2. split; [done|]. split.
  - intros b Hb. specialize (H1 b Hb). split; [done|]. apply Z.nlt_ge. intros Hlt. apply (G4 bp); [split; cbn; lia|]. exists b. rewrite elem_of_app. split; [by left|]. split; lia.
  - intros b Hb. specialize (H2 b Hb). apply Z.nlt_ge. intros Hlt. assert (Hin : b ∈ l1 ++ l2) by (rewrite elem_of_app; by right). destruct (ascending_all _ _ _ Ha Hin).
    apply (G4 (fst b)); [split; cbn; lia|]. exists b. split; [done|]. split; lia.
Qed.

(** The block is joined with the next one, or linked to it. *)
Lemma join_next s l1 l2 bp n B th : chain (hdr s) base 0 (l1 ++ l2) base -> ascending base (l1 ++ l2) -> giveable s (l1 ++ l2) bp n B ->
  (forall b, b ∈ l2 -> bp + 16 * n <= fst b) ->
  exists nx h1 n1 t, chain (hdr s) base 0 l1 nx /\
    (if bp + 16 * n =? nx then let! y := header nx in upd (set_size bp (n + snd y));;; upd (set_ptr bp (fst y)) else upd (set_ptr bp nx)) th s = Ok tt th (with_hdr h1 s) /\
    (forall a, a <> bp -> h1 !! a = hdr s !! a) /\ chain h1 bp n1 t base /\ ascending (bp + 16 * n1) t /\ n <= n1 /\ bp + 16 * n1 <= B /\ (length t <= length l2)%nat /\
    (forall a, a ∈ t.*1 -> a ∈ l2.*1) /\ forall x, covers ((bp, n1) :: t) x <-> within (bp, n) x \/ covers l2 x.
Proof.
  intros Hc Ha [G1 G2 (v & G3) G4 G5 G6 G7] H2. destruct l2 as [|[b m] l2].
  - rewrite app_nil_r in *. exists base, (set_ptr bp base (hdr s)), n, []. split; [done|]. rewrite (proj2 (Z.eqb_neq _ base)) by lia. split; [done|].
    unfold set_ptr. rewrite G3. cbn [default snd]. split; [intros a Hne; by rewrite lookup_insert_ne|]. split; [cbn; by rewrite lookup_insert_eq|]. split_and!; try done. intros x. apply covers_cons.
  - pose proof Hc as [Hc1 Hc2]%chain_app. pose proof Ha as (Ha1 & Ha2 & Ha3 & Hm & Ha4)%ascending_app. pose proof (H2 (b, m) ltac:(set_solver)) as Hb. cbn in Hb. exists b.
    assert (Hnb : bp ∉ ((b, m) :: l2).*1) by (intros (c & Hc' & Hin)%list_elem_of_fmap; specialize (H2 c Hin); lia).
    destruct (Z.eqb_spec (bp + 16 * n) b) as [Eb|Eb].
    + assert (Hend : b + 16 * m <= B) by (specialize (G5 (b + 16 * m - 1)); rewrite covers_app, covers_cons in G5; unfold within in G5; cbn in G5; lia).
      destruct (hdr s !! b) as [[e' m']|] eqn:Hhb; [|by destruct l2 as [|[? ?] ?]; cbn in Hc2; [congruence|destruct Hc2; congruence]].
      assert (m' = m) as -> by (destruct l2 as [|[? ?] ?]; cbn in Hc2; [congruence|destruct Hc2; congruence]).
      exists (set_ptr bp e' (set_size bp (n + m) (hdr s))), (n + m), l2. split; [done|]. split; [by rewrite (bind_ok _ _ _ _ _ _ _ (header_ok b _ th s Hhb))|].
      unfold set_ptr, set_size. rewrite lookup_insert_eq, G3. cbn [default fst snd from_option]. unfold id. rewrite u32_id, insert_insert_eq by lia.
      split; [intros a Hne; by rewrite lookup_insert_ne|]. split.
      { apply (chain_rehead (hdr s) _ l2 b m base bp (n + m) (e', m)); [done|done|by rewrite lookup_insert_eq|]. intros a Hin. rewrite lookup_insert_ne; [done|]. intros ->. apply Hnb. set_solver. }
      replace (bp + 16 * (n + m)) with (b + 16 * m) by lia. split_and!; try done; [lia|cbn; lia|set_solver|]. intros x. rewrite !covers_cons. rewrite (within_join bp n b m x) by lia. tauto.
    + exists (set_ptr bp b (hdr s)), n, ((b, m) :: l2). split; [done|]. split; [done|]. unfold set_ptr. rewrite G3. cbn [default snd from_option]. unfold id.
      split; [intros a Hne; by rewrite lookup_insert_ne|]. split.
      { cbn [chain]. rewrite lookup_insert_eq. split; [done|]. apply (chain_ext (hdr s)); [done|rewrite lookup_insert_ne; [done|lia]|]. intros a Hin. rewrite lookup_insert_ne; [done|]. intros ->. apply Hnb. set_solver. }
      split_and!; try done; [cbn; split_and!; try done; lia|]. intros x. by rewrite !covers_cons.
Qed.

Lemma gap_before l bp : ascending base l -> (forall b, b ∈ l -> fst b < bp /\ fst b + 16 * snd b <= bp) -> last_node base l + 16 * last_size 0 l <> bp ->
  forall b, b ∈ l -> fst b + 16 * snd b <= bp - 1.
Proof.
  intros Ha Hl E b Hb. destruct l as [|[a k] l _] using rev_ind; [by apply not_elem_of_nil in Hb|]. pose proof Ha as (_ & _ & _ & _ & Ha3)%ascending_app.
  destruct (Hl (a, k) ltac:(set_solver)) as [H1 H2]. cbn in H1, H2. rewrite last_node_snoc, last_size_snoc in E.
  apply elem_of_app in Hb as [Hb|Hb]; [specialize (Ha3 b Hb); lia|]. apply list_elem_of_singleton in Hb as ->. cbn. lia.
Qed.

(** It is joined with the one before, or that one is linked to it. *)
Lemma join_prev (s : U) l1 t nx bp n1 B th : chain (hdr s) base 0 l1 nx -> ascending base l1 -> (forall b, b ∈ l1 -> fst b < bp /\ fst b + 16 * snd b <= bp) ->
  chain (hdr s) bp n1 t base -> ascending (bp + 16 * n1) t -> 0 < base < bp -> 0 < n1 -> bp + 16 * n1 <= B <= 2 ^ 36 ->
  exists h2 fl', let p := last_node base l1 in
    (let! b := header bp in let! x := header p in
     (if p + 16 * snd x =? bp then upd (set_size p (snd x + snd b));;; upd (set_ptr p (fst b)) else upd (set_ptr p bp));;; set_freep p) th s = Ok tt th (mkUm h2 p (um_os s)) /\
    (forall a, a <> p -> h2 !! a = hdr s !! a) /\ chain h2 base 0 fl' base /\ ascending base fl' /\ (p = base \/ p ∈ fl'.*1) /\ (length fl' <= length l1 + S (length t))%nat /\ (exists b, b ∈ fl' /\ n1 <= snd b) /\
    forall x, covers fl' x <-> covers l1 x \/ covers ((bp, n1) :: t) x.
Proof.
  intros Hc Ha Hl Hct Hat Hb Hn HB. pose proof (chain_last _ _ _ _ _ Hc) as Hp. set (p := last_node base l1) in *. cbv zeta.
  assert (Hbp : exists e1, hdr s !! bp = Some (e1, n1)) by (destruct t as [|[c j] t]; cbn in Hct; [by eexists|destruct Hct; by eexists]). destruct Hbp as (e1 & Hbp).
  rewrite (bind_ok _ _ _ _ _ _ _ (header_ok bp _ th s Hbp)), (bind_ok _ _ _ _ _ _ _ (header_ok p _ th s Hp)). cbn [fst snd].
  assert (Hpt : p ∉ t.*1) by (intros Hin; apply (ascending_fst (bp + 16 * n1)) in Hin; [|done]; destruct (last_node_in base l1) as [E|E]; fold p in E; [lia|]; apply list_elem_of_fmap in E as (b & E & Hb'); destruct (Hl b Hb'); lia).
  assert (Hpb : p <> bp) by (destruct (last_node_in base l1) as [E|E]; fold p in E; [lia|]; apply list_elem_of_fmap in E as (b & E & Hb'); destruct (Hl b Hb'); lia).
  destruct (Z.eqb_spec (p + 16 * last_size 0 l1) bp) as [E|E].
  - destruct l1 as [|[a k] l1 _] using rev_ind; [unfold p, last_node, last_size in E; cbn in E; lia|].
    assert (Ep : p = a) by apply last_node_snoc. assert (Es : last_size 0 (l1 ++ [(a, k)]) = k) by apply last_size_snoc.
    rewrite Es in *. clearbody p. subst p. apply chain_app in Hc as [Hc Hc']. pose proof Ha as (Ha1 & _ & Ha2 & Hk & Ha3)%ascending_app.
    exists (<[a := (e1, k + n1)]> (hdr s)), (l1 ++ (a, k + n1) :: t). split.
    { rewrite (bind_ok (upd _;;; upd _) _ th s tt th (with_hdr (<[a := (e1, k + n1)]> (hdr s)) s)); [done|]. unfold upd, modify, bind. cbn. unfold set_ptr, set_size. cbn. rewrite lookup_insert_eq, Hp. cbn. rewrite u32_id, insert_insert_eq by lia. done. }
    split; [intros x Hx; by rewrite lookup_insert_ne|]. split.
    { apply chain_app. split.
      - apply (chain_ext (hdr s)); [done|rewrite lookup_insert_ne; [done|lia]|]. intros b (c & -> & Hin)%list_elem_of_fmap. rewrite lookup_insert_ne; [done|]. specialize (Ha3 c Hin). destruct (ascending_all _ _ _ Ha1 Hin). lia.
      - apply (chain_rehead (hdr s) _ t bp n1 base a (k + n1) (e1, n1)); [done|done|by rewrite lookup_insert_eq|]. intros b Hin. rewrite lookup_insert_ne; [done|]. by intros ->. }
    split; [apply (ascending_mk _ _ _ (a - 1)); [done|lia|intros b Hin; specialize (Ha3 b Hin); lia|]; cbn; split_and!; [lia|lia|by replace (a + 16 * (k + n1)) with (bp + 16 * n1) by lia]|].
    split; [right; rewrite fmap_app; set_solver|]. split; [rewrite !length_app; cbn; lia|]. split; [exists (a, k + n1); split; [set_solver|cbn; lia]|]. intros x. rewrite !covers_app, !covers_cons. rewrite (within_join a k bp n1 x) by lia.
    assert (covers [] x <-> False) by (unfold covers; split; [intros (b & Hin & _); by apply not_elem_of_nil in Hin|done]). tauto.
  - exists (set_ptr p bp (hdr s)), (l1 ++ (bp, n1) :: t). split; [done|]. unfold set_ptr. rewrite Hp. cbn [default snd from_option]. unfold id.
    split; [intros x Hx; by rewrite lookup_insert_ne|]. split.
    { apply chain_app. split.
      - apply (chain_set_end (hdr s) _ l1 base 0 nx); [done|done|fold p; by rewrite lookup_insert_eq|]. intros a Hne _. by rewrite lookup_insert_ne by (fold p in Hne; congruence).
      - apply (chain_ext (hdr s)); [done|by rewrite lookup_insert_ne|]. intros b Hin. rewrite lookup_insert_ne; [done|]. by intros ->. }
    split.
    { apply (ascending_mk _ _ _ (bp - 1)); [done|lia| |cbn; split_and!; [lia|done|done]]. apply gap_before; [done|done|]. unfold p in E. exact E. }
    split; [destruct (last_node_in base l1) as [E'|E']; [by left|right; rewrite fmap_app; apply elem_of_app; by left]|]. split; [rewrite length_app; cbn; lia|]. split; [exists (bp, n1); split; [set_solver|done]|]. intros x. by rewrite covers_app.
Qed.

(** The ring: the chain of the free blocks, in order, with [freep] one of its nodes. *)
Record ring (s : U) (fl : list block) : Prop := mkRing {
  rg_chain : chain (hdr s) base 0 fl base;
  rg_asc : ascending base fl;
  rg_freep : freep s = base \/ freep s ∈ fl.*1;
}.

Lemma free_ok f (s : U) fl bp n B th : ring s fl -> giveable s fl bp n B -> (length fl + 1 < f)%nat ->
  exists s' fl', free f (bp + 16) th s = Ok tt th s' /\ ring s' fl' /\ um_os s' = um_os s /\ (length fl' <= S (length fl))%nat /\ (exists b, b ∈ fl' /\ n <= snd b) /\
    (forall x, covers fl' x <-> covers fl x \/ within (bp, n) x) /\ (forall a, a <> bp -> a <> base -> a ∉ fl.*1 -> hdr s' !! a = hdr s !! a).
Proof.
  intros [Hc Ha Hp] Hg Hf. destruct (giveable_split s fl bp n B Hg Ha) as (l1 & l2 & -> & H1 & H2). pose proof Hg as [G1 G2 (v & G3) G4 G5 G6 G7].
  unfold free. replace (bp + 16 - 16) with bp by lia. rewrite (bind_ok get _ th s s th s eq_refl).
  rewrite (bind_ok _ _ _ _ _ _ _ (free_find_ok base f bp (freep s) l1 l2 th s Hc Ha ltac:(lia) ltac:(intros b Hb; by apply H1) ltac:(intros b Hb; specialize (H2 b Hb); lia) Hp Hf)).
  destruct (join_next s l1 l2 bp n B th Hc Ha Hg H2) as (nx & h1 & n1 & t & Hc1 & E1 & Ho1 & Hct & Hat & Hn1 & Hend & Hlen & Hin & Hcov).
  pose proof (chain_last _ _ _ _ _ Hc1) as Hh. set (p := last_node base l1) in *.
  rewrite (bind_ok _ _ _ _ _ _ _ (header_ok bp _ th s G3)), (bind_ok _ _ _ _ _ _ _ (header_ok p _ th s Hh)). cbn [fst snd]. rewrite (bind_ok _ _ _ _ _ _ _ E1).
  assert (Ha1 : ascending base l1) by (destruct l2 as [|[a k] l2]; [by rewrite app_nil_r in Ha|by apply ascending_app in Ha as (? & _)]).
  assert (Hc1' : chain h1 base 0 l1 nx).
  { apply (chain_ext (hdr s)); [done|apply Ho1; lia|]. intros a (b & -> & Hb)%list_elem_of_fmap. apply Ho1. destruct (H1 b Hb). lia. }
  destruct (join_prev (with_hdr h1 s) l1 t nx bp n1 B th Hc1' Ha1 H1 Hct Hat ltac:(lia) ltac:(lia) ltac:(lia)) as (h2 & fl' & E2 & Ho2 & Hc2 & Ha2 & Hp2 & Hlen2 & (big & Hbig & Hsz) & Hcov2).
  cbv zeta in E2. fold p in E2, Ho2, Hp2. exists (mkUm h2 p (um_os s)), fl'. split; [exact E2|]. split; [by split|]. split; [done|]. split; [rewrite length_app; lia|]. split; [exists big; split; [done|lia]|]. split.
  - intros x. rewrite Hcov2, Hcov, covers_app. tauto.
  - intros a Hb Hbase Hfl. cbn [hdr]. rewrite Ho2; [by apply Ho1|]. intros ->. destruct (last_node_in base l1) as [E|E]; fold p in E; [done|]. apply Hfl. rewrite fmap_app. apply elem_of_app. by left.
Qed.
End Free.

(** ** Taking a block *)

Section Malloc.
Context {K : Type} `{SB : Sbrk K} (base : Z).
Notation U := (um K).
Notation ring := (ring base).

(** A block is in the list at one place only. *)
Lemma split_unique x : forall lo l1 p i k y l2, ascending lo (x ++ (p, i) :: y) -> x ++ (p, i) :: y = l1 ++ (p, k) :: l2 -> x = l1 /\ i = k /\ y = l2.
Proof.
  induction x as [|[a j] x IH]; intros lo l1 p i k y l2 Ha E; destruct l1 as [|[b m] l1]; cbn in *.
  - by injection E as -> ->.
  - injection E as -> -> ->. destruct Ha as (_ & Hi & Ha). destruct (ascending_all _ _ (b, k) Ha ltac:(set_solver)). cbn in *. lia.
  - injection E as -> -> <-. destruct Ha as (_ & Hi & Ha). destruct (ascending_all _ _ (p, i) Ha ltac:(set_solver)). cbn in *. lia.
  - injection E as -> -> E. destruct Ha as (_ & _ & Ha). by destruct (IH _ _ _ _ _ _ _ Ha E) as (-> & -> & ->).
Qed.

(** The node before a block. *)
Lemma pred_unique (s : U) fl q l1 p k l2 n : ring s fl -> fl = l1 ++ (p, k) :: l2 -> q = base \/ q ∈ fl.*1 -> hdr s !! q = Some (p, n) -> q = last_node base l1.
Proof.
  intros [Hc Ha _] Hfl Hq Hh. assert (Hbp : base < p) by (apply (ascending_fst base fl); [done|rewrite Hfl, fmap_app; set_solver]). destruct Hq as [->|Hq].
  - destruct l1 as [|[a j] l1]; [done|]. rewrite Hfl in Hc, Ha. cbn in Hc, Ha. destruct Hc as [Hc _]. rewrite Hh in Hc. injection Hc as ->. destruct Ha as (_ & Hj & Ha).
    destruct (ascending_all _ _ (a, k) Ha ltac:(set_solver)). cbn in *. lia.
  - apply list_elem_of_fmap in Hq as ([q' j] & -> & Hin). cbn [fst] in *. apply list_elem_of_split in Hin as (x & y & Hfl'). rewrite Hfl' in Hc, Ha. apply chain_app in Hc as [_ Hc].
    destruct y as [|[c i] y]; cbn in Hc; [rewrite Hh in Hc; injection Hc as -> _; lia|]. destruct Hc as [Hc _]. rewrite Hh in Hc. injection Hc as <- _.
    rewrite Hfl in Hfl'. change ((q', j) :: (p, i) :: y) with ([(q', j)] ++ (p, i) :: y) in *. rewrite app_assoc in *.
    destruct (split_unique (x ++ [(q', j)]) base l1 p i k y l2 Ha (eq_sym Hfl')) as (E & _). rewrite <- E. by rewrite last_node_snoc.
Qed.

(** The part of [malloc] that takes the block [p] of size [k] after [prevp]. *)
Definition take_block (nunits prevp p : Z) (x : Z * Z) : M U Z :=
  let! q :=
    (if snd x =? nunits then upd (set_ptr prevp (fst x));;; ret p
     else
       upd (set_size p (snd x - nunits));;;
       let q := p + 16 * (snd x - nunits) in
       upd (set_size q nunits);;;
       ret q) in
  set_freep prevp;;;
  ret (q + 16).

(** What taking [n] units at [q] does. *)
Record took (s s' : U) (fl fl' : list block) (q n : Z) : Prop := mkTook {
  tk_ring : ring s' fl';
  tk_os : um_os s' = um_os s;
  tk_from : forall x, within (q, n) x -> covers fl x;
  tk_rest : forall x, covers fl' x <-> covers fl x /\ ~ within (q, n) x;
  tk_hdr : exists v, hdr s' !! q = Some (v, n);
  tk_other : forall a, a <> q -> a <> base -> a ∉ fl.*1 -> hdr s' !! a = hdr s !! a;
}.

Lemma covers_nil x : ~ covers [] x.
Proof. intros (b & Hin & _). by apply not_elem_of_nil in Hin. Qed.

(** The blocks around the place of [p] do not meet it. *)
Lemma ascending_apart l1 a k l2 x : ascending base (l1 ++ (a, k) :: l2) -> within (a, k) x -> ~ covers l1 x /\ ~ covers l2 x.
Proof.
  intros (Ha1 & Ha2 & Ha3 & Hk & Ha4)%ascending_app Hw. unfold within in Hw. cbn in Hw. split; intros (b & Hb & H); unfold within in H.
  - specialize (Ha4 b Hb). lia.
  - destruct (ascending_all _ _ _ Ha2 Hb). lia.
Qed.

Lemma take_ok (s : U) fl nunits prevp p k nx l1 l2 th : ring s fl -> fl = l1 ++ (p, k) :: l2 -> hdr s !! p = Some (nx, k) -> prevp = last_node base l1 ->
  0 < nunits <= k -> k < 2 ^ 32 -> exists s' fl' q, take_block nunits prevp p (nx, k) th s = Ok (q + 16) th s' /\ took s s' fl fl' q nunits.
Proof.
  intros [Hc Ha Hf] -> Hh -> Hn Hk. pose proof Hc as [Hc1 Hc2]%chain_app. pose proof Ha as (Ha1 & Ha2 & Ha3 & Hk0 & Ha4)%ascending_app. pose proof (chain_last _ _ _ _ _ Hc1) as Hpr.
  set (prevp := last_node base l1) in *. unfold take_block. cbn [fst snd].
  assert (Hpp : prevp <> p) by (destruct (last_node_in base l1) as [E|E]; fold prevp in E; [lia|]; apply list_elem_of_fmap in E as (b & E & Hb); specialize (Ha4 b Hb); destruct (ascending_all _ _ _ Ha1 Hb); lia).
  assert (Hp1 : p ∉ l1.*1) by (intros (b & E & Hb)%list_elem_of_fmap; specialize (Ha4 b Hb); destruct (ascending_all _ _ _ Ha1 Hb); lia).
  assert (Hp2 : p ∉ l2.*1) by (intros Hin; apply (ascending_fst _ _ _ Ha2) in Hin; lia).
  assert (Hpl : prevp = base \/ prevp ∈ l1.*1) by apply last_node_in.
  destruct (Z.eqb_spec k nunits) as [->|Hne].
  - set (h' := <[prevp := (nx, last_size 0 l1)]> (hdr s)). exists (mkUm h' prevp (um_os s)), (l1 ++ l2), p.
    split; [by rewrite (bind_ok (upd _;;; ret p) _ th s p th (with_hdr h' s)); [|unfold upd, modify, bind; cbn; unfold set_ptr; rewrite Hpr]|].
    assert (Hcl : chain h' base 0 l1 nx).
    { apply (chain_set_end (hdr s) _ l1 base 0 p); [done|done|fold prevp; unfold h'; by rewrite lookup_insert_eq|]. intros a Hne _. fold prevp in Hne. unfold h'. by rewrite lookup_insert_ne by congruence. }
    split; [split|..]; try done; cbn [hdr freep um_os].
    + destruct l2 as [|[c j] l2]; cbn in Hc2; [rewrite app_nil_r; rewrite Hc2 in Hh; by injection Hh as <-|]. destruct Hc2 as [Hc2 Hc3]. rewrite Hc2 in Hh. injection Hh as <-.
      apply chain_app. split; [done|]. cbn in Ha2. destruct Ha2 as (Ha2 & Hj & Ha5).
      assert (Hlt : prevp < c) by (destruct Hpl as [->|(b & -> & Hb)%list_elem_of_fmap]; [lia|]; specialize (Ha4 b Hb); destruct (ascending_all _ _ _ Ha1 Hb); lia).
      apply (chain_ext (hdr s)); [done|unfold h'; rewrite lookup_insert_ne; [done|lia]|]. intros a Hin. unfold h'. rewrite lookup_insert_ne; [done|]. apply (ascending_fst _ _ _ Ha5) in Hin. lia.
    + apply (ascending_mk _ _ _ p); [done|lia|intros b Hb; specialize (Ha4 b Hb); lia|]. eapply ascending_weaken; [done|lia].
    + destruct Hpl as [E|E]; [by left|right; rewrite fmap_app, elem_of_app; by left].
    + intros x Hx. rewrite covers_app, covers_cons. tauto.
    + intros x. rewrite !covers_app, covers_cons. pose proof (ascending_apart _ _ _ _ x Ha). tauto.
    + exists nx. unfold h'. by rewrite lookup_insert_ne.
    + intros a Hq Hb Hfl. unfold h'. rewrite lookup_insert_ne; [done|]. intros <-. destruct Hpl as [E|E]; [done|]. apply Hfl. rewrite fmap_app, elem_of_app. by left.
  - set (k' := k - nunits). set (q := p + 16 * k').
    assert (Hkk : 0 < k' < k) by (unfold k'; lia). assert (Hql : q ∉ l2.*1) by (intros Hin; apply (ascending_fst _ _ _ Ha2) in Hin; unfold q in Hin; lia).
    assert (Hq1 : q ∉ l1.*1) by (intros (b & E & Hb)%list_elem_of_fmap; specialize (Ha4 b Hb); destruct (ascending_all _ _ _ Ha1 Hb); unfold q in E; lia).
    set (h1 := <[p := (nx, k')]> (hdr s)). set (h' := set_size q nunits h1).
    assert (Hh' : forall a, a <> p -> a <> q -> h' !! a = hdr s !! a) by (intros a H1 H2; unfold h', h1, set_size; by rewrite !lookup_insert_ne by congruence).
    exists (mkUm h' prevp (um_os s)), (l1 ++ (p, k') :: l2), q.
    split; [rewrite (bind_ok _ _ th s q th (with_hdr h' s)); [done|]; unfold upd, modify, bind; cbn; unfold set_size at 2; rewrite Hh; cbn; fold k'; rewrite u32_id by lia; done|].
    split; [split|..]; try done; cbn [hdr freep um_os].
    + apply chain_app. split.
      * apply (chain_ext (hdr s)); [done|apply Hh'; unfold q; lia|]. intros a Hin. apply Hh'; congruence || set_solver.
      * apply (chain_rehead (hdr s) _ l2 p k base p k' (nx, k)); [done|done| |intros a Hin; apply Hh'; set_solver]. unfold h', h1, set_size. rewrite lookup_insert_ne by (unfold q; lia). by rewrite lookup_insert_eq.
    + apply (ascending_mk _ _ _ (p - 1)); [done|lia|intros b Hb; specialize (Ha4 b Hb); lia|]. cbn. split_and!; [lia|lia|]. eapply ascending_weaken; [done|lia].
    + rewrite fmap_app. destruct Hpl as [E|E]; [by left|right; apply elem_of_app; by left].
    + intros x Hx. rewrite covers_app, covers_cons. right. left. unfold within in *. cbn in *. unfold q, k' in Hx. lia.
    + intros x. rewrite !covers_app, !covers_cons. pose proof (ascending_apart _ _ _ _ x Ha) as Hap. pose proof (within_join p k' q nunits x ltac:(lia) ltac:(lia) eq_refl) as Hj.
      replace (k' + nunits) with k in Hj by (unfold k'; lia). assert (~ (within (p, k') x /\ within (q, nunits) x)) by (unfold within; cbn; unfold q; lia). tauto.
    + exists (fst (default (0, 0) (h1 !! q))). unfold h', set_size. rewrite lookup_insert_eq, u32_id by lia. done.
    + intros a Hq Hb Hfl. apply Hh'; [|done]. intros ->. apply Hfl. rewrite fmap_app. set_solver.
Qed.

(** ** Walking around the ring *)

Lemma chain_head h p n l e : chain h p n l e -> h !! p = Some (default e (head l.*1), n).
Proof. destruct l as [|[a k] l]; [done|]. by intros [H _]. Qed.

Lemma ring_rotate (s : U) fl : ring s fl -> exists rot kf, chain (hdr s) (freep s) kf rot (freep s) /\ (forall b, b ∈ rot -> b = (base, 0) \/ b ∈ fl) /\
  (forall b, b ∈ fl -> b ∈ rot \/ b = (freep s, kf)) /\ freep s ∉ rot.*1 /\ (length rot <= length fl)%nat /\ ((freep s, kf) = (base, 0) \/ (freep s, kf) ∈ fl).
Proof.
  intros [Hc Ha [E|E]].
  - exists fl, 0. rewrite E. split_and!; try done; auto. intros Hin. apply (ascending_fst _ _ _ Ha) in Hin. lia.
  - apply list_elem_of_fmap in E as ([p k] & E & Hin). cbn in E. subst p. apply list_elem_of_split in Hin as (l1 & l2 & ->). apply chain_app in Hc as [Hc1 Hc2].
    pose proof Ha as (Ha1 & Ha2 & Ha3 & Hk & Ha4)%ascending_app. exists (l2 ++ (base, 0) :: l1), k. split; [by apply chain_app|]. split; [set_solver|]. split; [set_solver|]. split; [|split; [rewrite !length_app; cbn; lia|right; set_solver]].
    rewrite fmap_app, fmap_cons. cbn [fst]. intros [Hin|[Hin|Hin]%elem_of_cons]%elem_of_app.
    + apply (ascending_fst _ _ _ Ha2) in Hin. lia.
    + lia.
    + apply list_elem_of_fmap in Hin as (b & E & Hb). specialize (Ha4 b Hb). destruct (ascending_all _ _ _ Ha1 Hb). lia.
Qed.

(** What [malloc] does when it has gone around. *)
Definition malloc_more (f : nat) (nunits : Z) : M U Z :=
  let! p := morecore f nunits in
  if p =? 0 then ret 0 else let! y := header p in malloc_loop f nunits p (fst y).

Lemma malloc_step f nunits prevp p x th (s : U) : hdr s !! p = Some x ->
  malloc_loop (S f) nunits prevp p th s =
    if snd x >=? nunits then take_block nunits prevp p x th s
    else if p =? freep s then malloc_more f nunits th s else malloc_loop f nunits p (fst x) th s.
Proof. intros Hh. cbn [malloc_loop]. rewrite (bind_ok _ _ _ _ _ _ _ (header_ok p x th s Hh)). destruct (snd x >=? nunits); [done|]. rewrite (bind_ok get _ th s s th s eq_refl). by destruct (p =? freep s). Qed.

(** A node that is large enough is taken. *)
Lemma take_here (s : U) fl nunits prevp kp p k nx th : ring s fl -> (p, k) = (base, 0) \/ (p, k) ∈ fl -> hdr s !! p = Some (nx, k) -> hdr s !! prevp = Some (p, kp) ->
  prevp = base \/ prevp ∈ fl.*1 -> (forall b, b ∈ fl -> snd b < 2 ^ 32) -> 0 < nunits <= k ->
  exists s' fl' q, take_block nunits prevp p (nx, k) th s = Ok (q + 16) th s' /\ took s s' fl fl' q nunits.
Proof.
  intros Hr [E|Hin] Hh Hpr Hprev Hsz Hn; [injection E as -> ->; lia|]. specialize (Hsz (p, k) Hin). apply list_elem_of_split in Hin as (l1 & l2 & Hfl).
  apply (take_ok s fl nunits prevp p k nx l1 l2 th); try done. by apply (pred_unique s fl prevp l1 p k l2 kp).
Qed.

Lemma walk (s : U) fl nunits nf kf th : ring s fl -> (forall b, b ∈ fl -> snd b < 2 ^ 32) -> 0 < nunits -> hdr s !! freep s = Some (nf, kf) ->
  (freep s, kf) = (base, 0) \/ (freep s, kf) ∈ fl ->
  forall rot f prevp kp, chain (hdr s) prevp kp rot (freep s) -> prevp = base \/ prevp ∈ fl.*1 -> (forall b, b ∈ rot -> b = (base, 0) \/ b ∈ fl) -> freep s ∉ rot.*1 -> (length rot < f)%nat ->
  (exists s' fl' q, malloc_loop f nunits prevp (default (freep s) (head rot.*1)) th s = Ok (q + 16) th s' /\ took s s' fl fl' q nunits) \/
  ((forall b, b ∈ rot -> snd b < nunits) /\ kf < nunits /\
   malloc_loop f nunits prevp (default (freep s) (head rot.*1)) th s = malloc_more (f - S (length rot)) nunits th s).
Proof.
  intros Hr Hsz Hn Hf Hkf rot. induction rot as [|[a m] rot IH]; intros f prevp kp Hc Hprev Hrot Hnf Hlen; (destruct f as [|f]; [cbn in Hlen; lia|]).
  - cbn [fmap list_fmap head default from_option id]. rewrite (malloc_step f nunits prevp (freep s) (nf, kf)) by done. cbn [snd]. rewrite Z.geb_leb, Z.eqb_refl. destruct (Z.leb_spec nunits kf).
    + left. by apply (take_here s fl nunits prevp kp).
    + right. split; [intros b Hb; by apply not_elem_of_nil in Hb|]. split; [done|]. cbn [length]. by rewrite Nat.sub_succ, Nat.sub_0_r.
  - destruct Hc as [Hp Hc]. pose proof (chain_head _ _ _ _ _ Hc) as Ha. cbn [fmap list_fmap head default from_option id fst]. unfold id. set (nx := default _ _) in *.
    rewrite (malloc_step f nunits prevp a (nx, m)) by done. cbn [fst snd]. rewrite Z.geb_leb. destruct (Z.leb_spec nunits m).
    + left. apply (take_here s fl nunits prevp kp); try done. apply Hrot. set_solver.
    + cbn [fmap list_fmap fst] in Hnf. apply not_elem_of_cons in Hnf as [Hne Hnf]. rewrite (proj2 (Z.eqb_neq a (freep s))) by congruence. cbn in Hlen.
      destruct (IH f a m Hc) as [HA|(HB1 & HB2 & HB3)]; [| intros b Hb; apply Hrot; set_solver|done|lia|by left|].
      * destruct (Hrot (a, m) ltac:(set_solver)) as [E|Hin]; [left; congruence|right; apply list_elem_of_fmap; by exists (a, m)].
      * right. split; [intros b [->|Hb]%elem_of_cons; [done|by apply HB1]|]. split; [done|]. exact HB3.
Qed.
End Malloc.

(** ** The heap

    [sbrk] gives the memory from the break on and moves the break, or fails; a process is
    not larger than the machine's memory, far less than 2^36 bytes. *)
Class SbrkSpec (K : Type) := {
  sbrk_ops :: Sbrk K;
  brk : K -> Z;
  brk_limit : forall k, brk k <= 2 ^ 36;
  sbrk_ok : forall n th k, 0 <= n ->
    (exists k', os_sbrk n th k = Ok (brk k) th k' /\ brk k' = brk k + n) \/ os_sbrk n th k = Ok (-1) th k;
}.

Section Heap.
Context {K : Type} `{SK : SbrkSpec K} (base : Z).
Notation U := (um K).

(** [fl] are the free blocks, [al] the blocks handed out and not given back. *)
Record heap_ok (s : U) (fl al : list block) : Prop := mkHeapOk {
  hk_base : 0 < base < brk (um_os s);
  hk_ring : (freep s = 0 /\ fl = [] /\ al = []) \/ ring base s fl;
  hk_hdr : forall b, b ∈ al -> exists v, hdr s !! fst b = Some (v, snd b);
  hk_al : forall b, b ∈ al -> base < fst b /\ 0 < snd b /\ fst b + 16 * snd b <= brk (um_os s);
  hk_free : forall x, covers fl x -> x < brk (um_os s);
  hk_sep : forall b x, b ∈ al -> within b x -> ~ covers fl x;
  hk_disj : forall i j b c x, al !! i = Some b -> al !! j = Some c -> within b x -> within c x -> i = j;
}.

(** A size that is in the ring fits a [uint]. *)
Lemma free_sizes (s : U) fl al b : heap_ok s fl al -> ring base s fl -> b ∈ fl -> snd b < 2 ^ 32.
Proof.
  intros [H1 _ _ _ H5 _ _] [_ Ha _] Hb. destruct (ascending_all _ _ _ Ha Hb) as [H2 H3]. pose proof (brk_limit (um_os s)).
  assert (Hc : covers fl (fst b + 16 * snd b - 1)) by (exists b; split; [done|unfold within; lia]). specialize (H5 _ Hc). lia.
Qed.

Lemma al_outside (s : U) fl al b : heap_ok s fl al -> ring base s fl -> b ∈ al -> fst b <> base /\ fst b ∉ fl.*1.
Proof.
  intros [H1 _ _ H4 _ H6 _] [_ Ha _] Hb. destruct (H4 b Hb) as (Hb1 & Hb2 & _). split; [lia|]. intros (c & E & Hc)%list_elem_of_fmap. destruct (ascending_all _ _ _ Ha Hc) as [_ Hc2].
  apply (H6 b (fst b) Hb); [unfold within; lia|]. exists c. split; [done|]. unfold within. lia.
Qed.

(** Giving back. *)
Lemma free_heap f (s : U) fl al i b th : heap_ok s fl al -> al !! i = Some b -> (length fl + 1 < f)%nat ->
  exists s' fl', free f (fst b + 16) th s = Ok tt th s' /\ heap_ok s' fl' (delete i al) /\ um_os s' = um_os s /\ (length fl' <= S (length fl))%nat.
Proof.
  intros Hk Hi Hf. pose proof Hk as [H1 H2 H3 H4 H5 H6 H7]. assert (Hb : b ∈ al) by (by eapply list_elem_of_lookup_2).
  destruct H2 as [(_ & _ & ->)|Hr]; [done|]. destruct b as [bp n]. destruct (H4 _ Hb) as (Hb1 & Hb2 & Hb3). cbn [fst snd] in *.
  assert (Hg : giveable base s fl bp n (brk (um_os s))).
  { split; [lia|done|apply (H3 _ Hb)|intros x; apply (H6 _ x Hb)|done|done|apply brk_limit]. }
  destruct (free_ok base f s fl bp n _ th Hr Hg Hf) as (s' & fl' & E & Hr' & Hos & Hlen & _ & Hcov & Ho). exists s', fl'. split; [done|]. split; [|done].
  assert (Hsub : forall j c, delete i al !! j = Some c -> exists j', j' <> i /\ al !! j' = Some c).
  { intros j c Hj. destruct (decide (j < i)%nat) as [Hlt|Hge]; [rewrite list_lookup_delete_lt in Hj by done; exists j; split; [lia|done]|rewrite list_lookup_delete_ge in Hj by lia; exists (S j); split; [lia|done]]. }
  assert (Hin : forall c, c ∈ delete i al -> c ∈ al /\ exists j', j' <> i /\ al !! j' = Some c).
  { intros c (j & Hj)%list_elem_of_lookup. destruct (Hsub j c Hj) as (j' & Hne & Hj'). split; [by eapply list_elem_of_lookup_2|by exists j']. }
  split; rewrite ?Hos; try done; [by right|..].
  - intros c Hc. destruct (Hin c Hc) as (Hca & j' & Hne & Hj'). destruct (al_outside s fl al c Hk Hr Hca) as [Hcb Hcf]. rewrite Ho; [by apply H3| |done|done].
    intros Heq. destruct (H4 c Hca) as (_ & Hc2 & _). apply Hne. apply (H7 j' i c (bp, n) (fst c) Hj' Hi); unfold within; cbn; lia.
  - intros c Hc. destruct (Hin c Hc) as (Hca & _). by apply H4.
  - intros x Hx. apply Hcov in Hx as [Hx|Hx]; [by apply H5|]. unfold within in Hx. cbn in Hx. lia.
  - intros c x Hc Hx Hcv. destruct (Hin c Hc) as (Hca & j' & Hne & Hj'). apply Hcov in Hcv as [Hcv|Hcv]; [by apply (H6 c x)|]. apply Hne. by apply (H7 j' i c (bp, n) x).
  - intros j1 j2 b c x Hj1 Hj2 Hx1 Hx2. destruct (decide (j1 < i)%nat), (decide (j2 < i)%nat); rewrite ?list_lookup_delete_lt in * by done; rewrite ?list_lookup_delete_ge in * by lia.
    + by apply (H7 j1 j2 b c x).
    + pose proof (H7 j1 (S j2) b c x Hj1 Hj2 Hx1 Hx2). lia.
    + pose proof (H7 (S j1) j2 b c x Hj1 Hj2 Hx1 Hx2). lia.
    + pose proof (H7 (S j1) (S j2) b c x Hj1 Hj2 Hx1 Hx2). lia.
Qed.

(** Handing out. *)
Lemma took_heap (s s' : U) fl fl' al q n : heap_ok s fl al -> ring base s fl -> 0 < n -> took base s s' fl fl' q n -> heap_ok s' fl' ((q, n) :: al).
Proof.
  intros Hk Hr Hn [T1 T2 T3 T4 T5 T6]. pose proof Hk as [H1 _ H3 H4 H5 H6 H7]. pose proof Hr as [_ Ha _].
  assert (Hq : base < q) by (destruct (T3 q) as (b & Hb & Hw); [unfold within; cbn; lia|]; destruct (ascending_all _ _ _ Ha Hb); unfold within in Hw; lia).
  assert (Hfresh : forall b x, b ∈ al -> within b x -> ~ within (q, n) x) by (intros b x Hb Hx Hw; apply (H6 b x Hb Hx); by apply T3).
  split; rewrite ?T2; try done; [by right|..].
  - intros b [->|Hb]%elem_of_cons; [done|]. destruct (al_outside s fl al b Hk Hr Hb). rewrite T6; [by apply H3| |done|done]. intros E. destruct (H4 b Hb) as (_ & Hb2 & _).
    apply (Hfresh b (fst b) Hb); [unfold within; lia|]. unfold within. cbn. lia.
  - intros b [->|Hb]%elem_of_cons; [|by apply H4]. cbn. split; [done|]. split; [done|]. specialize (H5 (q + 16 * n - 1)). cut (q + 16 * n - 1 < brk (um_os s)); [lia|]. apply H5, T3. unfold within. cbn. lia.
  - intros x [Hx _]%T4. by apply H5.
  - intros b x [->|Hb]%elem_of_cons Hx Hc%T4; [by destruct Hc|]. destruct Hc as [Hc _]. by apply (H6 b x).
  - intros [|i] [|j] b c x Hi Hj Hx Hy; cbn in Hi, Hj; [done|..].
    + injection Hi as <-. exfalso. by apply (Hfresh c x); [by eapply list_elem_of_lookup_2| |].
    + injection Hj as <-. exfalso. by apply (Hfresh b x); [by eapply list_elem_of_lookup_2| |].
    + f_equal. by apply (H7 i j b c x).
Qed.

(** One round of the search. *)
Lemma search (s : U) fl al nunits f th : heap_ok s fl al -> ring base s fl -> 0 < nunits -> (length fl < f)%nat ->
  exists nx kf, hdr s !! freep s = Some (nx, kf) /\
  ((exists s' fl' q, malloc_loop f nunits (freep s) nx th s = Ok (q + 16) th s' /\ took base s s' fl fl' q nunits) \/
   ((forall b, b ∈ fl -> snd b < nunits) /\ exists f', (f <= f' + S (length fl))%nat /\ malloc_loop f nunits (freep s) nx th s = malloc_more f' nunits th s)).
Proof.
  intros Hk Hr Hn Hf. destruct (ring_rotate base s fl Hr) as (rot & kf & Hc & Hrot & Hall & Hnf & Hlen & Hkf). pose proof (chain_head _ _ _ _ _ Hc) as Hh.
  eexists _, kf. split; [exact Hh|]. destruct (walk base s fl nunits _ kf th Hr (fun b => free_sizes s fl al b Hk Hr) Hn Hh Hkf rot f (freep s) kf Hc (rg_freep _ _ _ Hr) Hrot Hnf ltac:(lia)) as [HA|(HB1 & HB2 & HB3)]; [by left|].
  right. split; [intros b Hb; destruct (Hall b Hb) as [? | ->]; [by apply HB1|done]|]. exists (f - S (length rot))%nat. split; [lia|done].
Qed.

(** More memory. *)
Lemma morecore_heap (s : U) fl al nunits f th : heap_ok s fl al -> ring base s fl -> 0 < nunits < 2 ^ 27 -> (length fl + 1 < f)%nat ->
  morecore f nunits th s = Ok 0 th s \/
  exists s' fl', morecore f nunits th s = Ok (freep s') th s' /\ heap_ok s' fl' al /\ ring base s' fl' /\ (length fl' <= S (length fl))%nat /\ exists b, b ∈ fl' /\ nunits <= snd b.
Proof.
  intros Hk Hr Hn Hf. pose proof Hk as [H1 _ H3 H4 H5 H6 H7]. pose proof Hr as [Hc Ha Hp]. unfold morecore. set (nu := if nunits <? 4096 then 4096 else nunits).
  assert (Hnu : nunits <= nu /\ 0 < nu < 2 ^ 27) by (unfold nu; destruct (Z.ltb_spec nunits 4096); lia). clearbody nu. rewrite i32_id by lia.
  destruct (sbrk_ok (nu * 16) th (um_os s) ltac:(lia)) as [(k' & E & Hk')|E].
  2: { left. rewrite (bind_ok _ _ _ _ _ _ _ (zoom_ok um_lens _ th s _ _ _ E)). destruct s. done. }
  right. rewrite (bind_ok _ _ _ _ _ _ _ (zoom_ok um_lens _ th s _ _ _ E)). cbn [over um_lens]. set (p := brk (um_os s)) in *. rewrite (proj2 (Z.eqb_neq p (-1))) by lia.
  set (s2 := mkUm (set_size p nu (hdr s)) (freep s) k'). rewrite (bind_ok (upd (set_size p nu)) _ th (mkUm (hdr s) (freep s) k') tt th s2 eq_refl).
  assert (Hold : forall a, a <> p -> hdr s2 !! a = hdr s !! a) by (intros a Hne; cbn; unfold set_size; by rewrite lookup_insert_ne).
  assert (Hfp : forall a, a ∈ fl.*1 -> a < p).
  { intros a (b & -> & Hb)%list_elem_of_fmap. destruct (ascending_all _ _ _ Ha Hb). apply H5. exists b. split; [done|]. unfold within. lia. }
  assert (Hr2 : ring base s2 fl).
  { split; [|done|done]. apply (chain_ext (hdr s)); [done|apply Hold; lia|]. intros a Hin. apply Hold. specialize (Hfp a Hin). lia. }
  assert (Hg : giveable base s2 fl p nu (brk k')).
  { split; [lia|lia|cbn; unfold set_size; eexists; by rewrite lookup_insert_eq, u32_id by lia| | |lia|apply brk_limit].
    - intros x Hx Hcv. specialize (H5 x Hcv). unfold within in Hx. cbn in Hx. lia.
    - intros x Hcv. specialize (H5 x Hcv). lia. }
  destruct (free_ok base f s2 fl p nu _ th Hr2 Hg Hf) as (s' & fl' & E' & Hr' & Hos & Hlen & (big & Hbig & Hsz) & Hcov & Ho). rewrite (bind_ok _ _ _ _ _ _ _ E'). exists s', fl'. split; [done|].
  split; [|split; [done|]; split; [done|]; exists big; split; [done|lia]]. cbn [s2 um_os] in Hos. split; rewrite ?Hos; [lia|by right|..].
  - intros b Hb. destruct (al_outside s fl al b Hk Hr Hb). destruct (H4 b Hb) as (? & ? & ?). rewrite Ho, Hold; [by apply H3|lia|lia|done|done].
  - intros b Hb. destruct (H4 b Hb) as (? & ? & ?). lia.
  - intros x [Hx|Hx]%Hcov; [specialize (H5 x Hx); lia|]. unfold within in Hx. cbn in Hx. lia.
  - intros b x Hb Hx [Hcv|Hcv]%Hcov; [by apply (H6 b x)|]. destruct (H4 b Hb) as (? & ? & ?). unfold within in *. cbn in Hcv. lia.
  - done.
Qed.

Definition units (nbytes : Z) : Z := (nbytes + 16 - 1) / 16 + 1.
(** The largest request whose size in bytes, with the header, is an [int]; [morecore] would
    call [sbrk] with a negative number for a larger one. *)
Definition max_request : Z := 2 ^ 31 - 32.

(** The whole of [malloc]: nothing, for lack of memory, or a new block. *)
Lemma malloc_heap (s : U) fl al nbytes f th : heap_ok s fl al -> 0 <= nbytes <= max_request -> (2 * length fl + 6 <= f)%nat ->
  exists r s' fl', malloc base f nbytes th s = Ok r th s' /\
    (r = 0 /\ heap_ok s' fl' al \/ 0 < r /\ heap_ok s' fl' ((r - 16, units nbytes) :: al)).
Proof.
  intros Hk Hn Hf. unfold malloc. fold (units nbytes). assert (Hu : 0 < units nbytes < 2 ^ 27) by (unfold units, max_request in *; Z.div_mod_to_equations; lia). rewrite u32_id by lia. set (n := units nbytes) in *. clearbody n.
  rewrite (bind_ok get _ th s s th s eq_refl).
  assert (Hinit : exists s0, (if freep s =? 0 then upd (fun h => <[base := (base, 0)]> h);;; set_freep base else ret tt) th s = Ok tt th s0 /\ heap_ok s0 fl al /\ ring base s0 fl).
  { pose proof Hk as [H1 [(E & -> & ->)|Hr] H3 H4 H5 H6 H7].
    - rewrite E. cbn [Z.eqb]. eexists. split; [reflexivity|]. assert (Hr : ring base (mkUm (<[base := (base, 0)]> (hdr s)) base (um_os s)) []) by (split; [cbn; by rewrite lookup_insert_eq|done|by left]).
      split; [|done]. split; try done; [by right|..]; intros b Hb; by apply not_elem_of_nil in Hb.
    - exists s. rewrite (proj2 (Z.eqb_neq (freep s) 0)); [done|]. destruct Hr as [_ Ha [->|Hin]]; [lia|]. apply (ascending_fst _ _ _ Ha) in Hin. lia. }
  destruct Hinit as (s0 & E0 & Hk0 & Hr0). rewrite (bind_ok _ _ _ _ _ _ _ E0). rewrite (bind_ok get _ th s0 s0 th s0 eq_refl).
  assert (Hpos : forall s' fl' q, took base s0 s' fl fl' q n -> 0 < q + 16 /\ q + 16 - 16 = q).
  { intros s' fl' q [_ _ T3 _ _ _]. destruct (T3 q) as (b & Hb & Hw); [unfold within; cbn; lia|]. destruct (ascending_all _ _ _ (rg_asc _ _ _ Hr0) Hb). pose proof (hk_base _ _ _ Hk0). unfold within in Hw. lia. }
  destruct (search s0 fl al n f th Hk0 Hr0 ltac:(lia) ltac:(lia)) as (nx & kf & Hh & [(s' & fl' & q & E & Ht)|(Hsm & f' & Hf' & E)]); rewrite (bind_ok _ _ _ _ _ _ _ (header_ok _ _ th s0 Hh)); cbn [fst]; rewrite E.
  { exists (q + 16), s', fl'. split; [done|]. right. destruct (Hpos _ _ _ Ht) as [Hq ->]. split; [done|]. by apply (took_heap s0 s' fl fl' al q n); [| |lia|]. }
  clear Hpos. unfold malloc_more. destruct (morecore_heap s0 fl al n f' th Hk0 Hr0 ltac:(lia) ltac:(lia)) as [E1|(s1 & fl1 & E1 & Hk1 & Hr1 & Hlen & big & Hbig & Hsz)]; rewrite (bind_ok _ _ _ _ _ _ _ E1).
  { exists 0, s0, fl. split; [done|]. by left. }
  assert (Hf1 : 0 < freep s1) by (destruct (rg_freep _ _ _ Hr1) as [->|Hin]; [apply Hk1|]; apply (ascending_fst _ _ _ (rg_asc _ _ _ Hr1)) in Hin; pose proof (hk_base _ _ _ Hk1); lia).
  rewrite (proj2 (Z.eqb_neq (freep s1) 0)) by lia.
  destruct (search s1 fl1 al n f' th Hk1 Hr1 ltac:(lia) ltac:(lia)) as (nx1 & kf1 & Hh1 & [(s' & fl' & q & E2 & Ht)|(Hsm1 & _)]); [|specialize (Hsm1 big Hbig); lia].
  rewrite (bind_ok _ _ _ _ _ _ _ (header_ok _ _ th s1 Hh1)). cbn [fst]. rewrite E2. exists (q + 16), s', fl'. split; [done|]. right.
  pose proof (took_heap s1 s' fl1 fl' al q n Hk1 Hr1 ltac:(lia) Ht) as Hk'. pose proof (hk_al _ _ _ Hk' (q, n) ltac:(set_solver)) as (Hq & _). pose proof (hk_base _ _ _ Hk'). cbn in Hq.
  split; [lia|]. by replace (q + 16 - 16) with q by lia.
Qed.

(** ** Sequences of calls

    Every free block has a header, so the headers bound the length of the ring. *)
Definition fuel_of (s : U) : nat := (2 * size (hdr s) + 10)%nat.

Lemma chain_dom h l : forall p n e a, chain h p n l e -> a ∈ l.*1 -> a ∈ dom h.
Proof.
  induction l as [|[b k] l IH]; intros p n e a Hc Hin; [by apply not_elem_of_nil in Hin|]. destruct Hc as [_ Hc]. cbn in Hin. apply elem_of_cons in Hin as [->|Hin]; [|by eapply IH].
  apply elem_of_dom. apply chain_head in Hc. by eexists.
Qed.

Lemma ascending_nodup l : forall lo, ascending lo l -> NoDup l.*1.
Proof.
  induction l as [|[a k] l IH]; intros lo Ha; [constructor|]. cbn in Ha. destruct Ha as (_ & Hk & Ha). cbn. constructor; [|by eapply IH]. intros Hin. apply (ascending_fst _ _ _ Ha) in Hin. lia.
Qed.

Lemma heap_fuel (s : U) fl al : heap_ok s fl al -> (2 * length fl + 10 <= fuel_of s)%nat.
Proof.
  intros [_ [(_ & -> & _)|[Hc Ha _]] _ _ _ _ _]; unfold fuel_of; [cbn; lia|].
  assert (Hs : (length fl <= size (hdr s))%nat); [|lia]. rewrite <- size_dom. rewrite <- (length_fmap fst fl).
  rewrite <- (size_list_to_set (C := gset Z) fl.*1) by (by eapply ascending_nodup). apply subseteq_size. intros a Hin%elem_of_list_to_set. by eapply chain_dom.
Qed.

Inductive hstep (th : thread) : U * list block -> U * list block -> Prop :=
| hs_malloc s al n r s' : 0 <= n <= max_request -> malloc base (fuel_of s) n th s = Ok r th s' ->
    hstep th (s, al) (s', if r =? 0 then al else (r - 16, units n) :: al)
| hs_free s al i b s' : al !! i = Some b -> free (fuel_of s) (fst b + 16) th s = Ok tt th s' -> hstep th (s, al) (s', delete i al).

Lemma hstep_heap th y y' : (exists fl, heap_ok (fst y) fl (snd y)) -> hstep th y y' -> exists fl, heap_ok (fst y') fl (snd y').
Proof.
  intros (fl & Hk) St. pose proof (heap_fuel _ _ _ Hk) as Hf. destruct St as [s al n r s' Hn E|s al i b s' Hi E]; cbn [fst snd] in *.
  - destruct (malloc_heap s fl al n (fuel_of s) th Hk Hn ltac:(lia)) as (r1 & s1 & fl1 & E1 & Hr). rewrite E in E1. injection E1 as <- <-. exists fl1.
    destruct Hr as [[-> Hr]|[Hpos Hr]]; [done|]. by rewrite (proj2 (Z.eqb_neq r 0)) by lia.
  - destruct (free_heap (fuel_of s) s fl al i b th Hk Hi ltac:(lia)) as (s1 & fl1 & E1 & Hk1 & _). rewrite E in E1. injection E1 as <-. by exists fl1.
Qed.

(** C16: the allocator keeps the heap.  After any sequence of calls of [free] and of [malloc]
    for at most [max_request] bytes, that is 2^31 - 32, in which no block is given back twice
    and nothing but the allocator calls [sbrk]: the blocks in use are inside the memory of
    the process and do not overlap; a further [malloc] of such a size returns, with 0 or with
    the address of as many bytes as were asked for, none of them in use; a further [free] of
    a block in use returns.  No call follows a bad pointer or runs for ever. *)
Theorem malloc_free_keep_heap th s0 s al : freep s0 = 0 -> 0 < base < brk (um_os s0) -> rtc (hstep th) (s0, []) (s, al) ->
  (forall b, b ∈ al -> base < fst b /\ fst b + 16 * snd b <= brk (um_os s)) /\
  (forall i j b c x, al !! i = Some b -> al !! j = Some c -> within b x -> within c x -> i = j) /\
  (forall n, 0 <= n <= max_request -> exists r s', malloc base (fuel_of s) n th s = Ok r th s' /\
     (r = 0 \/ forall x, r <= x < r + n -> base < x < brk (um_os s') /\ forall b, b ∈ al -> ~ within b x)) /\
  (forall i b, al !! i = Some b -> exists s', free (fuel_of s) (fst b + 16) th s = Ok tt th s').
Proof.
  intros H0 Hb Hr. assert (Hk : exists fl, heap_ok (fst (s, al)) fl (snd (s, al))).
  { apply (rtc_invariant (hstep th) (fun y => exists fl, heap_ok (fst y) fl (snd y)) (s0, []) (s, al)); [intros y y'; apply hstep_heap| |exact Hr].
    cbn [fst snd]. exists []. split; try done; [by left|..]; intros; match goal with H : _ ∈ [] |- _ => by apply not_elem_of_nil in H | H : covers [] _ |- _ => by destruct (covers_nil _ H) end. }
  destruct Hk as (fl & Hk). cbn [fst snd] in Hk. pose proof (heap_fuel _ _ _ Hk) as Hf. pose proof Hk as [H1 H2 H3 H4 H5 H6 H7]. split_and!.
  - intros b Hin. destruct (H4 b Hin) as (? & _ & ?). done.
  - done.
  - intros n Hn. destruct (malloc_heap s fl al n (fuel_of s) th Hk Hn ltac:(lia)) as (r & s' & fl' & E & Hres). exists r, s'. split; [done|]. destruct Hres as [[-> _]|[Hpos Hk']]; [by left|]. right.
    assert (Hu : n <= 16 * (units n - 1)) by (unfold units; Z.div_mod_to_equations; lia). intros x Hx.
    pose proof (hk_al _ _ _ Hk' (r - 16, units n) ltac:(set_solver)) as (Hb1 & _ & Hb2). cbn in Hb1, Hb2. split; [lia|]. intros b Hin Hw. apply list_elem_of_lookup in Hin as (i & Hi).
    pose proof (hk_disj _ _ _ Hk' 0%nat (S i) (r - 16, units n) b x eq_refl Hi). assert (within (r - 16, units n) x) by (unfold within; cbn; lia). naive_solver.
  - intros i b Hi. destruct (free_heap (fuel_of s) s fl al i b th Hk Hi ltac:(lia)) as (s1 & fl1 & E1 & _). by exists s1.
Qed.
End Heap.

(** ** A process that can grow to 2^30 bytes *)

#[export] Instance demo_sbrk : Sbrk Z := {
  os_sbrk := fun n th k => if (Z.max 4096 (Z.min k (2 ^ 30)) + n <=? 2 ^ 30) then Ok (Z.max 4096 (Z.min k (2 ^ 30))) th (Z.max 4096 (Z.min k (2 ^ 30)) + n) else Ok (-1) th k;
}.

#[export] Instance demo_sbrk_spec : SbrkSpec Z.
Proof.
  refine {| sbrk_ops := demo_sbrk; brk := fun k => Z.max 4096 (Z.min k (2 ^ 30)) |}.
  - intros k. lia.
  - intros n th k Hn. cbn [os_sbrk demo_sbrk]. destruct (Z.leb_spec (Z.max 4096 (Z.min k (2 ^ 30)) + n) (2 ^ 30)) as [H|H]; [left|by right]. eexists. split; [reflexivity|]. lia.
Defined.

Lemma malloc_free_keep_heap_witness : exists r s, malloc 1024 10 100 (mkThread [] 0 0 []) (mkUm ∅ 0 4096) = Ok r (mkThread [] 0 0 []) s.
Proof.
  destruct (malloc_free_keep_heap (SK := demo_sbrk_spec) 1024 (mkThread [] 0 0 []) (mkUm ∅ 0 4096) (mkUm ∅ 0 4096) []) as (_ & _ & H & _).
  - reflexivity.
  - cbn. lia.
  - apply rtc_refl.
  - destruct (H 100 ltac:(unfold max_request; lia)) as (r & s & E & _). exists r, s. exact E.
Defined.
