(* ===== verification/Grep.v ===== *)
(** * The pattern matchers of user/grep.c and user/find.c

    A pointer into a string is the suffix of the string it points at; the end of the list
    is the terminating NUL.  The matchers are recursive in the pattern, and in the text for
    a star, so no fuel is needed.

    The specification is the language of a pattern: [parse] reads the pattern as a list of
    items, [lang] is the set of strings the items stand for. *)

From S2P Require Import Prelude Memory Ulib.

Definition c_caret : Z := 94.
Definition c_dollar : Z := 36.
Definition c_star : Z := 42.
Definition c_dot : Z := 46.

(** [do { if (matchhere(re, text)) return 1; } while( *text != '\0' && ( *text++ == c || c == '.'))],
    with [here text] for [matchhere(re, text)]. *)
Fixpoint star_loop (here : list Z -> bool) (c : Z) (text : list Z) : bool :=
  if here text then true
  else match text with
       | [] => false
       | t :: text' => if (t =? c) || (c =? c_dot) then star_loop here c text' else false
       end.

Fixpoint matchhere (re text : list Z) : bool :=
  match re with
  | [] => true
  | c :: re1 =>
      let rest :=
        if (c =? c_dollar) && bool_decide (re1 = []) then bool_decide (text = [])
        else match text with
             | [] => false
             | t :: text' => if (c =? c_dot) || (c =? t) then matchhere re1 text' else false
             end in
      match re1 with
      | c2 :: re2 => if c2 =? c_star then star_loop (matchhere re2) c text else rest
      | [] => rest
      end
  end.

Definition matchstar (c : Z) (re text : list Z) : bool := star_loop (matchhere re) c text.

(** [do { if (matchhere(re, text)) return 1; } while( *text++ != '\0')] *)
Fixpoint match_anywhere (re text : list Z) : bool :=
  if matchhere re text then true
  else match text with [] => false | _ :: text' => match_anywhere re text' end.

Definition grep_match (re text : list Z) : bool :=
  match re with
  | c :: re' => if c =? c_caret then matchhere re' text else match_anywhere re text
  | [] => match_anywhere re text
  end.

(** [*s == *p || ( *p == '.' && *s != '\0')] at the head of [s], for a pattern character [c]. *)
Definition head_matches (c : Z) (s : list Z) : bool :=
  match s with [] => false | t :: _ => (t =? c) || (c =? c_dot) end.

(** [match(s, p) = here s || match(s + 1, p)] while the head of [s] matches. *)
Fixpoint find_star (here : list Z -> bool) (c : Z) (s : list Z) : bool :=
  if head_matches c s then here s || match s with [] => false | _ :: s' => find_star here c s' end else here s.

Fixpoint find_match (s p : list Z) {struct p} : bool :=
  match p with
  | [] => bool_decide (s = [])
  | c :: p1 =>
      let step := if head_matches c s then find_match (tail s) p1 else false in
      match p1 with
      | c2 :: p2 => if c2 =? c_star then find_star (fun s => find_match s p2) c s else step
      | [] => step
      end
  end.

(** ** The language of a pattern *)

Inductive item := One (c : Z) | Star (c : Z).

(** The items of a pattern, and whether it ends in [$]. *)
Fixpoint parse (re : list Z) : list item * bool :=
  match re with
  | [] => ([], false)
  | c :: re1 =>
      let one := if (c =? c_dollar) && bool_decide (re1 = []) then ([], true)
                 else let (its, e) := parse re1 in (One c :: its, e) in
      match re1 with
      | c2 :: re2 => if c2 =? c_star then let (its, e) := parse re2 in (Star c :: its, e) else one
      | [] => one
      end
  end.

(** A pattern without anchors, as find reads it. *)
Fixpoint parse_plain (p : list Z) : list item :=
  match p with
  | [] => []
  | c :: p1 =>
      match p1 with
      | c2 :: p2 => if c2 =? c_star then Star c :: parse_plain p2 else One c :: parse_plain p1
      | [] => [One c]
      end
  end.

Definition sym (c x : Z) : Prop := c = c_dot \/ c = x.

Fixpoint lang (its : list item) (w : list Z) : Prop :=
  match its with
  | [] => w = []
  | One c :: its' => exists x w', w = x :: w' /\ sym c x /\ lang its' w'
  | Star c :: its' => exists u v, w = u ++ v /\ Forall (sym c) u /\ lang its' v
  end.

(** Some prefix of the text is in the language; all of it, if the pattern ends in [$]. *)
Definition here_lang (re text : list Z) : Prop :=
  exists w rest, text = w ++ rest /\ lang (fst (parse re)) w /\ (snd (parse re) = true -> rest = []).

Definition grep_lang (re text : list Z) : Prop :=
  match re with
  | c :: re' => if c =? c_caret then here_lang re' text else exists pre suf, text = pre ++ suf /\ here_lang re suf
  | [] => True
  end.

Lemma sym_iff c x : (x =? c) || (c =? c_dot) = true <-> sym c x.
Proof. unfold sym. rewrite orb_true_iff, !Z.eqb_eq. naive_solver. Qed.

Lemma star_loop_spec here c text :
  star_loop here c text = true <-> exists u v, text = u ++ v /\ Forall (sym c) u /\ here v = true.
Proof.
  induction text as [|t text IH]; cbn [star_loop].
  - destruct (here []) eqn:E; split; try done; [by exists [], []|]. intros (u & v & H & _ & Hv). symmetry in H. apply app_nil in H as [-> ->]. congruence.
  - destruct (here (t :: text)) eqn:E; [split; [by exists [], (t :: text)|done]|].
    destruct ((t =? c) || (c =? c_dot)) eqn:Et.
    + apply sym_iff in Et. rewrite IH. split.
      * intros (u & v & -> & Hu & Hv). exists (t :: u), v. split; [done|]. split; [by constructor|done].
      * intros (u & v & H & Hu & Hv). destruct u as [|x u]; [cbn in H; subst v; congruence|]. injection H as <- ->. apply Forall_cons in Hu as [_ Hu]. by exists u, v.
    + split; [done|]. intros (u & v & H & Hu & Hv). destruct u as [|x u]; [cbn in H; subst v; congruence|].
      injection H as <- ->. apply Forall_cons in Hu as [Hx _]. apply sym_iff in Hx. congruence.
Qed.

(** Induction on a pattern, two characters at a time where it has a star. *)
Lemma pattern_ind (P : list Z -> Prop) : P [] -> (forall c re, P re -> (forall c2 re2, re = c2 :: re2 -> P re2) -> P (c :: re)) -> forall re, P re.
Proof.
  intros H0 H1 re. assert (P re /\ forall c re', re = c :: re' -> P re') as [? _]; [|done].
  induction re as [|c re [IH1 IH2]]; [by split|]. split; [apply H1; [done|apply IH2]|]. intros ? ? [= _ ->]. done.
Qed.

Lemma here_star c re text :
  here_lang (c :: c_star :: re) text <-> exists u v, text = u ++ v /\ Forall (sym c) u /\ here_lang re v.
Proof.
  unfold here_lang. cbn [parse]. rewrite Z.eqb_refl. destruct (parse re) as [its e]. cbn [fst snd lang]. split.
  - intros (w & rest & -> & (u & v & -> & Hu & Hv) & He). exists u, (v ++ rest). rewrite app_assoc. split; [done|]. split; [done|]. by exists v, rest.
  - intros (u & v & -> & Hu & w & rest & -> & Hw & He). exists (u ++ w), rest. rewrite app_assoc. split; [done|]. split; [|done]. by exists u, w.
Qed.

Lemma here_one c re text : (forall re2, re <> c_star :: re2) -> ~ (c = c_dollar /\ re = []) ->
  here_lang (c :: re) text <-> exists t text', text = t :: text' /\ sym c t /\ here_lang re text'.
Proof.
  intros Hs Hd. unfold here_lang.
  assert (E : parse (c :: re) = let (its, e) := parse re in (One c :: its, e)).
  { cbn [parse]. replace ((c =? c_dollar) && bool_decide (re = [])) with false.
    - destruct re as [|c2 re2]; [done|]. destruct (Z.eqb_spec c2 c_star) as [->|]; [by destruct (Hs re2)|done].
    - symmetry. apply andb_false_iff. destruct (Z.eqb_spec c c_dollar); [right|by left]. apply bool_decide_eq_false. naive_solver. }
  rewrite E. destruct (parse re) as [its e]. cbn [fst snd lang]. split.
  - intros (w & rest & -> & (x & w' & -> & Hx & Hw) & He). exists x, (w' ++ rest). split; [done|]. split; [done|]. by exists w', rest.
  - intros (t & text' & -> & Ht & w & rest & -> & Hw & He). exists (t :: w), rest. split; [done|]. split; [|done]. by exists t, w.
Qed.

Lemma star_dec (re : list Z) : (exists re2, re = c_star :: re2) \/ forall re2, re <> c_star :: re2.
Proof. destruct re as [|c re2]; [by right|]. destruct (Z.eq_dec c c_star) as [->|Hc]; [left; by exists re2|right; by intros ? [= ]]. Qed.

Lemma matchhere_spec re : forall text, matchhere re text = true <-> here_lang re text.
Proof.
  induction re as [|c re IH1 IH2] using pattern_ind; intros text.
  - split; [|done]. intros _. by exists [], text.
  - destruct (star_dec re) as [[re2 ->]|Hs].
    { rewrite here_star. cbn [matchhere]. rewrite Z.eqb_refl, star_loop_spec. specialize (IH2 c_star re2 eq_refl).
      split; intros (u & v & -> & Hu & Hv); exists u, v; (split; [done|]; split; [done|]); by apply IH2. }
    assert (E : matchhere (c :: re) text = if (c =? c_dollar) && bool_decide (re = []) then bool_decide (text = [])
      else match text with [] => false | t :: text' => if (c =? c_dot) || (c =? t) then matchhere re text' else false end).
    { cbn [matchhere]. destruct re as [|c2 re2]; [done|]. destruct (Z.eqb_spec c2 c_star) as [->|]; [|done]. by destruct (Hs re2). }
    rewrite E. destruct ((c =? c_dollar) && bool_decide (re = [])) eqn:Hd.
    + apply andb_prop in Hd as [->%Z.eqb_eq ->%bool_decide_eq_true]. rewrite bool_decide_eq_true. unfold here_lang. cbn [parse fst snd lang]. cbn. split.
      * intros ->. by exists [], [].
      * intros (w & rest & -> & -> & H). by rewrite H.
    + rewrite here_one; [|naive_solver|].
      2: { intros [-> ->]. by rewrite bool_decide_true in Hd. }
      destruct text as [|t text]; [split; [done|]; by intros (? & ? & ? & _)|].
      rewrite (Z.eqb_sym c t), orb_comm. destruct ((t =? c) || (c =? c_dot)) eqn:Ht.
      * apply sym_iff in Ht. rewrite IH1. split; [intros H; by exists t, text|]. intros (? & ? & [= <- <-] & _ & H). done.
      * split; [done|]. intros (? & ? & [= <- <-] & Hx & _). apply sym_iff in Hx. congruence.
Qed.

Lemma match_anywhere_spec re text : match_anywhere re text = true <-> exists pre suf, text = pre ++ suf /\ here_lang re suf.
Proof.
  induction text as [|t text IH]; cbn [match_anywhere]; destruct (matchhere re _) eqn:E.
  - apply matchhere_spec in E. split; [|done]. intros _. by exists [], [].
  - split; [done|]. intros (pre & suf & H & Hs). symmetry in H. apply app_nil in H as [-> ->]. apply matchhere_spec in Hs. congruence.
  - apply matchhere_spec in E. split; [|done]. intros _. by exists [], (t :: text).
  - rewrite IH. split.
    + intros (pre & suf & -> & Hs). by exists (t :: pre), suf.
    + intros (pre & suf & H & Hs). destruct pre as [|x pre]; [cbn in H; subst suf; apply matchhere_spec in Hs; congruence|]. injection H as <- ->. by exists pre, suf.
Qed.

Lemma grep_match_spec re text : grep_match re text = true <-> grep_lang re text.
Proof.
  destruct re as [|c re]; cbn [grep_match grep_lang]; [|destruct (c =? c_caret); [apply matchhere_spec|apply match_anywhere_spec]].
  split; [done|]. intros _. by destruct text.
Qed.

Lemma find_star_spec here c s : find_star here c s = true <-> exists u v, s = u ++ v /\ Forall (sym c) u /\ here v = true.
Proof.
  rewrite <- star_loop_spec. induction s as [|t s IH]; cbn [find_star star_loop head_matches]; [by destruct (here [])|].
  destruct ((t =? c) || (c =? c_dot)); destruct (here (t :: s)); cbn [orb]; done.
Qed.

Lemma find_match_spec p : forall s, find_match s p = true <-> lang (parse_plain p) s.
Proof.
  induction p as [|c p IH1 IH2] using pattern_ind; intros s; [cbn; by rewrite bool_decide_eq_true|].
  destruct (star_dec p) as [[p2 ->]|Hs].
  { cbn [find_match parse_plain]. rewrite Z.eqb_refl, find_star_spec. cbn [lang]. specialize (IH2 c_star p2 eq_refl).
    split; intros (u & v & -> & Hu & Hv); exists u, v; (split; [done|]; split; [done|]); by apply IH2. }
  assert (E : find_match s (c :: p) = if head_matches c s then find_match (tail s) p else false).
  { cbn [find_match]. destruct p as [|c2 p2]; [done|]. destruct (Z.eqb_spec c2 c_star) as [->|]; [|done]. by destruct (Hs p2). }
  assert (E2 : parse_plain (c :: p) = One c :: parse_plain p).
  { cbn [parse_plain]. destruct p as [|c2 p2]; [done|]. destruct (Z.eqb_spec c2 c_star) as [->|]; [|done]. by destruct (Hs p2). }
  rewrite E, E2. cbn [lang]. destruct s as [|t s]; cbn [head_matches tail]; [split; [done|]; by intros (? & ? & ? & _)|].
  destruct ((t =? c) || (c =? c_dot)) eqn:Ht.
  - apply sym_iff in Ht. rewrite IH1. split; [intros H; by exists t, s|]. intros (? & ? & [= <- <-] & _ & H). done.
  - split; [done|]. intros (? & ? & [= <- <-] & Hx & _). apply sym_iff in Hx. congruence.
Qed.

Lemma parse_dollar p : parse (p ++ [c_dollar]) = (parse_plain p, true).
Proof.
  induction p as [|c p IH1 IH2] using pattern_ind; [done|]. destruct (star_dec p) as [[p2 ->]|Hs].
  { cbn [app parse parse_plain]. rewrite Z.eqb_refl, (IH2 c_star p2 eq_refl). done. }
  cbn [app parse parse_plain]. rewrite IH1. rewrite (bool_decide_eq_false_2 (p ++ [c_dollar] = [])) by (by destruct p). rewrite andb_false_r.
  destruct p as [|c2 p2]; [done|]. cbn [app]. destruct (Z.eqb_spec c2 c_star) as [->|]; [by destruct (Hs p2)|done].
Qed.

(** C17: the two matchers decide the languages their patterns stand for.  grep's finds the
    pattern anywhere in the line, or at its start after [^], or up to its end before [$];
    find's matches the whole name; and find's answer is grep's for the pattern between [^]
    and [$]. *)
Theorem matchers_decide_languages :
  (forall re text, grep_match re text = true <-> grep_lang re text) /\
  (forall s p, find_match s p = true <-> lang (parse_plain p) s) /\
  (forall s p, grep_match (c_caret :: p ++ [c_dollar]) s = find_match s p).
Proof.
  split; [apply grep_match_spec|]. split; [intros s p; apply find_match_spec|]. intros s p. apply eq_true_iff_eq.
  rewrite grep_match_spec, find_match_spec. cbn [grep_lang]. rewrite Z.eqb_refl. unfold here_lang. rewrite parse_dollar. cbn [fst snd]. split.
  - intros (w & rest & -> & H & He). by rewrite (He eq_refl), app_nil_r.
  - intros H. exists s, []. by rewrite app_nil_r.
Qed.

(** ** The program

    [buf] is the address of the buffer, a global of the program. *)

Section Program.
Context {K : Type} `{OS : UserOS K} (buf : Z).
Notation U := (uproc K).

Definition BUFSIZE : Z := 1024.

(** [while((q = strchr(p, '\n')) != 0)]; there are at most as many lines as bytes. *)
Fixpoint grep_lines (fuel : nat) (pattern : list Z) (p : Z) : M U Z :=
  let! q := run (fun m => strchr 1024 m p 10) in
  if q =? 0 then ret p
  else
    match fuel with
    | O => diverge
    | S f =>
        store (fun m => mset m q 0);;;
        let! text := load (fun m => until_nul (bytes m p 1024)) in
        when (grep_match pattern text) (store (fun m => mset m q 10);;; write 1 p (q + 1 - p);;; ret tt);;;
        grep_lines f pattern (q + 1)
    end.

(** Each turn reads at least one byte. *)
Fixpoint grep_loop (fuel : nat) (pattern : list Z) (fd m : Z) : M U unit :=
  let! n := read fd (buf + m) (BUFSIZE - m - 1) in
  if n <=? 0 then ret tt
  else
    match fuel with
    | O => diverge
    | S f =>
        let m := m + n in
        store (fun x => mset x (buf + m) 0);;;
        let! p := grep_lines 1024 pattern buf in
        if 0 <? m then
          let m := m - (p - buf) in
          store (fun x => umemmove x buf p m);;;
          grep_loop f pattern fd m
        else grep_loop f pattern fd m
    end.

Definition grep (fuel : nat) (pattern : list Z) (fd : Z) : M U unit := grep_loop fuel pattern fd 0.
End Program.

(** Files seen from a program: [stream k fd] is what is still to be read, [written k fd] what
    has been written.  A read of [n > 0] bytes gives some of the bytes that are left, in
    order, and none only at the end. *)
Class StreamOS (K : Type) := {
  stream_ops :: UserOS K;
  stream : K -> Z -> list Z;
  written : K -> Z -> list Z;
  read_ok : forall fd n th k, 0 <= n -> exists l k',
    os_read fd n th k = Ok (Z.of_nat (length l), l) th k' /\ stream k fd = l ++ stream k' fd /\
    Z.of_nat (length l) <= n /\ (0 < n -> l = [] -> stream k fd = []) /\ written k' = written k;
  write_ok : forall fd l th k, exists r k',
    os_write fd l th k = Ok r th k' /\ stream k' = stream k /\
    forall fd', written k' fd' = if fd' =? fd then written k fd' ++ l else written k fd';
}.

(** The complete lines of a text, after the start [cur] of a line. *)
Fixpoint split_lines (cur inp : list Z) : list (list Z) :=
  match inp with
  | [] => []
  | c :: r => if c =? 10 then cur :: split_lines [] r else split_lines (cur ++ [c]) r
  end.

Definition matching (pattern : list Z) (ls : list (list Z)) : list Z :=
  mjoin ((fun l => if grep_match pattern l then l ++ [10] else []) <$> ls).

(** No line is too long for the buffer. *)
Definition short_lines (l : list Z) : Prop := forall a b c, l = a ++ b ++ c -> 10 ∉ b -> (length b <= 1022)%nat.

Lemma split_lines_none l : forall cur, 10 ∉ l -> split_lines cur l = [].
Proof.
  induction l as [|c l IH]; intros cur H; [done|]. apply not_elem_of_cons in H as [Hc H]. cbn [split_lines].
  rewrite (proj2 (Z.eqb_neq c 10)) by congruence. by apply IH.
Qed.

Lemma split_lines_first l r : forall cur, 10 ∉ l -> split_lines cur (l ++ 10 :: r) = (cur ++ l) :: split_lines [] r.
Proof.
  induction l as [|c l IH]; intros cur H; [cbn; by rewrite app_nil_r|]. apply not_elem_of_cons in H as [Hc H]. cbn [app split_lines].
  rewrite (proj2 (Z.eqb_neq c 10)) by congruence. rewrite IH by done. by rewrite <- app_assoc.
Qed.

Lemma matching_app pattern a b : matching pattern (a ++ b) = matching pattern a ++ matching pattern b.
Proof. unfold matching. by rewrite fmap_app, join_app. Qed.

Lemma short_lines_suffix a b : short_lines (a ++ b) -> short_lines b.
Proof. intros H x y z ->. apply (H (a ++ x) y z). by rewrite <- app_assoc. Qed.

(** The first newline of a list. *)
Lemma newline_cases (l : list Z) : 10 ∉ l \/ exists a b, l = a ++ 10 :: b /\ 10 ∉ a.
Proof.
  induction l as [|c l IH]; [left; apply not_elem_of_nil|]. destruct (Z.eq_dec c 10) as [->|Hc]; [right; exists [], l; split; [done|apply not_elem_of_nil]|].
  destruct IH as [IH|(a & b & -> & Ha)]; [left; by apply not_elem_of_cons|]. right. exists (c :: a), b. split; [done|]. by apply not_elem_of_cons.
Qed.

Section Output.
Context {K : Type} `{SO : StreamOS K}.
Notation U := (uproc K).

(** What the inner loop does from [p], where the text [d] is stored: it stops at the last,
    incomplete line. *)
Record searched (pattern d : list Z) (p : Z) (m : mem) (k : K) (p' : Z) (m' : mem) (k' : K) (d' : list Z) : Prop := mkSearched {
  se_split : exists c, d = c ++ d' /\ p' = p + Z.of_nat (length c);
  se_lines : forall r, split_lines [] (d ++ r) = split_lines [] d ++ split_lines [] (d' ++ r);
  se_last : 10 ∉ d';
  se_mem : cstring m' p' d';
  se_out : forall fd, written k' fd = if fd =? 1 then written k fd ++ matching pattern (split_lines [] d) else written k fd;
  se_in : stream k' = stream k;
}.

(** One line: cut off, matched, printed and put back together. *)
Lemma grep_line_ok pattern a b p m k th :
  10 ∉ a -> (length (a ++ 10%Z :: b) <= 1023)%nat -> cstring m p (a ++ 10 :: b) ->
  exists m' k', (let q := p + Z.of_nat (length a) in
      store (fun m => mset m q 0);;;
      let! text := load (fun m => until_nul (bytes m p 1024)) in
      when (grep_match pattern text) (store (fun m => mset m q 10);;; write 1 p (q + 1 - p);;; ret tt)) th (mkUproc m k) = Ok tt th (mkUproc m' k') /\
    cstring m' (p + Z.of_nat (length a) + 1) b /\ stream k' = stream k /\
    forall fd, written k' fd = if fd =? 1 then written k fd ++ matching pattern [a] else written k fd.
Proof.
  intros Ha Hlen Hs. destruct (cstring_app _ _ _ _ Hs) as (Hr & Hb & H0). apply cstring_cons in Hr as (Hq & _ & Hr).
  rewrite length_app in Hlen. cbn [length] in Hlen. set (q := p + Z.of_nat (length a)) in *. cbv zeta.
  set (m1 := mset m q 0). rewrite (bind_ok (store (fun m => mset m q 0)) _ th (mkUproc m k) tt th (mkUproc m1 k) eq_refl).
  assert (Hm1 : forall x, x <> q -> mget m1 x = mget m x) by (intros x Hx; unfold m1; rewrite mget_mset; by rewrite (proj2 (Z.eqb_neq x q) Hx)).
  assert (Ht : until_nul (bytes m1 p 1024) = a).
  { replace 1024%nat with (length a + S (1023 - length a))%nat by lia. rewrite bytes_app, bytes_S. fold q. unfold m1 at 2. rewrite mget_mset, Z.eqb_refl.
    rewrite (bytes_ext m1 m p p (length a)), Hb by (intros i Hi; apply Hm1; unfold q; lia). change (u8 0) with 0. by apply until_nul_app. }
  rewrite (bind_ok (load _) _ th (mkUproc m1 k) _ th (mkUproc m1 k) eq_refl). cbn [u_mem]. rewrite Ht. clear Ht.
  unfold matching. cbn [fmap list_fmap mjoin list_join]. rewrite app_nil_r. destruct (grep_match pattern a); cbn [when].
  - set (m2 := mset m1 q 10). rewrite (bind_ok (store (fun m => mset m q 10)) _ th (mkUproc m1 k) tt th (mkUproc m2 k) eq_refl).
    assert (Hm2 : forall x, mget m2 x = mget m x).
    { intros x. unfold m2. rewrite mget_mset. destruct (Z.eqb_spec x q) as [->|Hx]; [by rewrite Hq|by apply Hm1]. }
    destruct (write_ok 1 (a ++ [10]) th k) as (r & k' & E & Hin & Hout). exists m2, k'.
    assert (Hb2 : bytes m2 p (Z.to_nat (q + 1 - p)) = a ++ [10]).
    { replace (Z.to_nat (q + 1 - p)) with (length a + 1)%nat by lia. rewrite bytes_app, (bytes_ext m2 m p p (length a)), Hb by (intros; apply Hm2).
      f_equal. cbn. rewrite Z.add_0_r, Hm2. fold q. by rewrite Hq. }
    split; [|split; [apply (cstring_ext m); [done|]; intros; apply Hm2|by split]].
    unfold write. rewrite bind_assoc. rewrite (bind_ok (load _) _ th (mkUproc m2 k) _ th (mkUproc m2 k) eq_refl). cbn [u_mem]. rewrite Hb2.
    unfold os. by rewrite (bind_ok _ _ _ _ _ _ _ (zoom_ok os_lens _ th (mkUproc m2 k) _ _ _ E)).
  - exists m1, k. split; [done|]. split; [apply (cstring_ext m); [done|]; intros i Hi; apply Hm1; lia|]. split; [done|]. intros fd. by rewrite app_nil_r; destruct (fd =? 1).
Qed.

Lemma grep_lines_ok pattern th fuel : forall d p m k,
  0 < p -> (length d <= fuel)%nat -> (length d <= 1023)%nat -> cstring m p d ->
  exists p' m' k' d', grep_lines fuel pattern p th (mkUproc m k) = Ok p' th (mkUproc m' k') /\ searched pattern d p m k p' m' k' d'.
Proof.
  induction fuel as [|fuel IH]; intros d p m k Hp Hf Hlen Hs; destruct (newline_cases d) as [Hn|(a & b & -> & Ha)].
  1,3: exists p, m, k, d; split;
    [cbn [grep_lines]; by rewrite (bind_ok _ _ _ _ _ _ _ (run_ok _ 0 th (mkUproc m k) (strchr_none 1024 m p 10 d Hn Hs ltac:(lia))))|
     split; [by exists []; rewrite Z.add_0_r|intros r; by rewrite (split_lines_none d)|done|done|intros fd; rewrite split_lines_none by done; cbn; rewrite app_nil_r; by destruct (fd =? 1)|done]].
  { rewrite length_app in Hf. cbn in Hf. lia. }
  destruct (cstring_app _ _ _ _ Hs) as (Hr & Hb & H0). apply cstring_cons in Hr as (Hq & _ & _).
  destruct (grep_line_ok pattern a b p m k th Ha Hlen Hs) as (m1 & k1 & E & Hs1 & Hin1 & Hout1). cbv zeta in E.
  rewrite length_app in Hf, Hlen. cbn [length] in Hf, Hlen. set (q := p + Z.of_nat (length a)) in *.
  destruct (IH b (q + 1) m1 k1) as (p' & m' & k' & d' & E' & [(c & -> & ->) F2 F3 F4 F5 F6]); [lia|lia|lia|done|].
  exists (q + 1 + Z.of_nat (length c)), m', k', d'. split.
  - cbn [grep_lines]. rewrite (bind_ok (run _) _ th _ q th (mkUproc m k)).
    2: { apply run_ok, (strchr_found 1024 m p 10 a); [done|done|done| |lia]. replace (S (length a)) with (length a + 1)%nat by lia. rewrite bytes_app, Hb. cbn. rewrite Z.add_0_r. fold q. by rewrite Hq. }
    rewrite (proj2 (Z.eqb_neq q 0)) by lia.
    apply bind_inv in E as ([] & th1 & s1 & E1 & E2). rewrite (bind_ok _ _ _ _ _ _ _ E1).
    apply bind_inv in E2 as (text & th2 & s2 & E2 & E3). rewrite (bind_ok _ _ _ _ _ _ _ E2), (bind_ok _ _ _ _ _ _ _ E3). exact E'.
  - split; [|intros r|done|done|intros fd|congruence].
    + exists (a ++ 10 :: c). rewrite <- app_assoc. split; [done|]. rewrite length_app. cbn. lia.
    + rewrite <- app_assoc. cbn [app]. rewrite !split_lines_first by done. cbn [app]. f_equal. rewrite <- F2. done.
    + rewrite F5, Hout1, split_lines_first by done. cbn [app]. destruct (fd =? 1); [|done]. rewrite <- app_assoc. f_equal. by rewrite <- (matching_app pattern [a]).
Qed.

Context (buf : Z) (buf_pos : 0 < buf).

(** The bytes read go after the incomplete line [pend], and are terminated. *)
Lemma append_input m pend l : bytes m buf (length pend) = pend -> 0 ∉ pend -> Forall (fun x => is_u8 x /\ x <> 0) l ->
  cstring (mset (mput m (buf + Z.of_nat (length pend)) l) (buf + (Z.of_nat (length pend) + Z.of_nat (length l))) 0) buf (pend ++ l).
Proof.
  intros Hb H0 Hl. set (m' := mset _ _ _).
  assert (Hl0 : 0 ∉ l) by (intros Hin; by destruct (proj1 (Forall_forall _ l) Hl 0 Hin)).
  assert (H1 : bytes m' buf (length pend) = pend).
  { rewrite <- Hb at 2. apply bytes_ext. intros i Hi. unfold m'. rewrite mget_mset, mget_mput. zbool; lia || done. }
  assert (H2 : bytes m' (buf + Z.of_nat (length pend)) (length l) = l).
  { apply list_eq_same_length with (length l); [done|apply length_bytes|]. intros i x y Hi Hx Hy. rewrite bytes_lookup in Hx by done. injection Hx as <-.
    unfold m'. rewrite mget_mset, mget_mput. replace (Z.to_nat (buf + Z.of_nat (length pend) + Z.of_nat i - (buf + Z.of_nat (length pend)))) with i by lia.
    rewrite Hy. apply (Forall_lookup_1 _ _ _ _ Hl) in Hy as [Hy _]. zbool. by rewrite u8_id. }
  split; [rewrite length_app, bytes_app; by rewrite H1, H2|]. split; [|by apply not_elem_of_app].
  rewrite length_app, Nat2Z.inj_add. unfold m'. by rewrite mget_mset, Z.eqb_refl.
Qed.

Lemma grep_loop_ok pattern fd th fuel : forall pend m k,
  bytes m buf (length pend) = pend -> 10 ∉ pend -> Forall (fun x => is_u8 x /\ x <> 0) (pend ++ stream k fd) -> short_lines (pend ++ stream k fd) ->
  (length (stream k fd) < fuel)%nat ->
  exists m' k', grep_loop buf fuel pattern fd (Z.of_nat (length pend)) th (mkUproc m k) = Ok tt th (mkUproc m' k') /\
    stream k' fd = [] /\ forall fd', written k' fd' = if fd' =? 1 then written k fd' ++ matching pattern (split_lines [] (pend ++ stream k fd)) else written k fd'.
Proof.
  induction fuel as [|fuel IH]; intros pend m k Hb Hn Hall Hsh Hf; [lia|].
  assert (Hp : (length pend <= 1022)%nat) by (by apply (Hsh [] pend (stream k fd))).
  apply Forall_app in Hall as [Hall1 Hall2]. assert (H0 : 0 ∉ pend) by (intros Hin; by destruct (proj1 (Forall_forall _ pend) Hall1 0 Hin)).
  destruct (read_ok fd (BUFSIZE - Z.of_nat (length pend) - 1) th k) as (l & k1 & E & Hst & Hle & Hend & Hwr); [unfold BUFSIZE; lia|].
  cbn [grep_loop]. unfold read. rewrite bind_assoc. unfold os. rewrite (bind_ok _ _ _ _ _ _ _ (zoom_ok os_lens _ th (mkUproc m k) _ _ _ E)).
  cbn [over view os_lens u_mem snd fst]. set (m1 := mput m (buf + Z.of_nat (length pend)) l).
  rewrite bind_assoc, (bind_ok (store _) _ th (mkUproc m k1) tt th (mkUproc m1 k1) eq_refl), (bind_ok (ret _) _ th _ _ th (mkUproc m1 k1) eq_refl).
  destruct (Z.leb_spec (Z.of_nat (length l)) 0) as [Hz|Hz].
  { destruct l; [|cbn in Hz; lia]. rewrite Hend in * by (unfold BUFSIZE; done || lia). exists m1, k1. split; [done|]. split; [by destruct (stream k1 fd)|].
    intros fd'. rewrite Hwr, app_nil_r, split_lines_none by done. cbn. rewrite app_nil_r. by destruct (fd' =? 1). }
  rewrite Hst in Hall2, Hsh, Hf |- *. apply Forall_app in Hall2 as [Hall2 Hall3]. rewrite length_app in Hf.
  pose proof (append_input m pend l Hb H0 Hall2) as Hs. fold m1 in Hs. set (m2 := mset _ _ _) in Hs.
  cbv zeta. rewrite (bind_ok (store _) _ th (mkUproc m1 k1) tt th (mkUproc m2 k1) eq_refl).
  unfold BUFSIZE in Hle. destruct (grep_lines_ok pattern th 1024 (pend ++ l) buf m2 k1 buf_pos) as (p' & m3 & k3 & d' & E3 & [(c & Hd & ->) S2 S3 S4 S5 S6]); [rewrite length_app; lia|rewrite length_app; lia|done|].
  rewrite (bind_ok _ _ _ _ _ _ _ E3). rewrite (proj2 (Z.ltb_lt 0 _)) by lia.
  assert (Hlen : Z.of_nat (length pend) + Z.of_nat (length l) - (buf + Z.of_nat (length c) - buf) = Z.of_nat (length d')).
  { apply (f_equal length) in Hd. rewrite !length_app in Hd. lia. }
  rewrite Hlen. set (m4 := umemmove m3 buf (buf + Z.of_nat (length c)) (Z.of_nat (length d'))).
  rewrite (bind_ok (store _) _ th (mkUproc m3 k3) tt th (mkUproc m4 k3) eq_refl).
  assert (Hr : stream k3 fd = stream k1 fd) by (by rewrite S6).
  assert (Hall : Forall (fun x => is_u8 x /\ x <> 0) (d' ++ stream k1 fd)).
  { apply Forall_app. split; [|done]. assert (H : Forall (fun x => is_u8 x /\ x <> 0) (c ++ d')) by (rewrite <- Hd; by apply Forall_app). by apply Forall_app in H as [_ H]. }
  destruct (IH d' m4 k3) as (m5 & k5 & E5 & Hst5 & Hwr5).
  - destruct S4 as (S4 & _). rewrite <- S4 at 2. apply umemmove_bytes.
  - done.
  - by rewrite Hr.
  - rewrite Hr. rewrite app_assoc, Hd, <- app_assoc in Hsh. by apply short_lines_suffix in Hsh.
  - rewrite Hr. lia.
  - exists m5, k5. split; [exact E5|]. split; [done|]. intros fd'. rewrite Hwr5, S5, Hwr, Hr. destruct (fd' =? 1); [|done].
    rewrite <- app_assoc. f_equal. rewrite app_assoc. by rewrite S2, matching_app.
Qed.

(** C18: grep prints the lines that match.  For a text of bytes other than NUL whose lines
    fit into the buffer, whatever pieces [read] delivers it in, grep reads all of it, returns,
    and writes to standard output exactly the complete lines in the language of the pattern,
    in order, and nothing anywhere else. *)
Theorem grep_prints_matching_lines pattern fd th m k :
  Forall (fun x => is_u8 x /\ x <> 0) (stream k fd) -> short_lines (stream k fd) ->
  exists m' k', grep buf (S (length (stream k fd))) pattern fd th (mkUproc m k) = Ok tt th (mkUproc m' k') /\
    stream k' fd = [] /\
    written k' 1 = written k 1 ++ mjoin ((fun l => l ++ [10]) <$> filter (fun l => grep_match pattern l = true) (split_lines [] (stream k fd))) /\
    (forall l, grep_match pattern l = true <-> grep_lang pattern l) /\
    forall fd', fd' <> 1 -> written k' fd' = written k fd'.
Proof.
  intros Hall Hsh. unfold grep. destruct (grep_loop_ok pattern fd th (S (length (stream k fd))) [] m k) as (m' & k' & E & Hs & Hw); [done|apply not_elem_of_nil|done|done|lia|].
  exists m', k'. split; [exact E|]. split; [done|]. split; [|split; [apply grep_match_spec|intros fd' Hfd; rewrite Hw; by rewrite (proj2 (Z.eqb_neq fd' 1) Hfd)]].
  rewrite Hw, Z.eqb_refl. cbn [app]. f_equal. unfold matching. generalize (split_lines [] (stream k fd)). intros ls.
  induction ls as [|l ls IH]; [done|]. rewrite filter_cons. cbn [fmap list_fmap mjoin list_join]. fold (@fmap list _ (list Z) (list Z)).
  destruct (grep_match pattern l); [rewrite decide_True by done; cbn; by f_equal|rewrite decide_False by done; cbn; done].
Qed.
End Output.

(** ** A kernel to run it on: one input, and a log of the writes *)

Record tty := mkTty { tty_in : list Z; tty_log : list (Z * list Z) }.

#[export] Instance tty_os : UserOS tty := {
  os_read := fun fd n th k =>
    if fd =? 0 then Ok (Z.of_nat (length (take (Z.to_nat n) (tty_in k))), take (Z.to_nat n) (tty_in k)) th (mkTty (drop (Z.to_nat n) (tty_in k)) (tty_log k))
    else Ok (0, []) th k;
  os_write := fun fd l th k => Ok (Z.of_nat (length l)) th (mkTty (tty_in k) (tty_log k ++ [(fd, l)]));
  os_open := fun _ _ th k => Ok (-1) th k;
  os_close := fun _ th k => Ok 0 th k;
  os_fstat := fun _ th k => Ok (-1, []) th k;
}.

#[export] Instance tty_stream : StreamOS tty.
Proof.
  refine {| stream_ops := tty_os; stream := fun k fd => if fd =? 0 then tty_in k else [];
            written := fun k fd => mjoin (snd <$> filter (fun x => fst x = fd) (tty_log k)) |}.
  - intros fd n th k Hn. cbn. destruct (fd =? 0); [|by exists [], k]. exists (take (Z.to_nat n) (tty_in k)). eexists. split; [reflexivity|]. cbn.
    rewrite take_drop. split; [done|]. rewrite length_take. split; [lia|]. split; [|done]. intros Hp H. destruct (tty_in k); [done|]. by destruct (Z.to_nat n) eqn:E; [lia|].
  - intros fd l th k. eexists _, _. split; [reflexivity|]. split; [done|]. intros fd'. cbn [tty_log]. rewrite filter_app, fmap_app, join_app, filter_cons.
    rewrite (Z.eqb_sym fd' fd). destruct (Z.eqb_spec fd fd') as [->|Hne]; cbn [fst].
    + rewrite decide_True by done. cbn. by rewrite app_nil_r.
    + rewrite decide_False by done. cbn. by rewrite app_nil_r.
Defined.

(** The lines [ab] and [cb], searched for [^a]. *)
Lemma grep_prints_matching_lines_witness : exists m k, grep 4096 7 [c_caret; 97] 0 (mkThread [] 0 0 []) (mkUproc ∅ (mkTty [97; 98; 10; 99; 98; 10] [])) = Ok tt (mkThread [] 0 0 []) (mkUproc m k) /\
  mjoin (snd <$> filter (fun x => fst x = 1) (tty_log k)) = [97; 98; 10].
Proof.
  destruct (grep_prints_matching_lines (SO := tty_stream) 4096 eq_refl [c_caret; 97] 0 (mkThread [] 0 0 []) ∅ (mkTty [97; 98; 10; 99; 98; 10] [])) as (m & k & E & _ & H & _).
  - cbn. repeat constructor; lia.
  - intros a b c H _. apply (f_equal length) in H. rewrite !length_app in H. cbn in H. lia.
  - exists m, k. split; [exact E|]. exact H.
Defined.
