(* ===== verification/Utils.v ===== *)
(** * cat, wc and the command line of grep (user/cat.c, user/wc.c, user/grep.c)

    The programs that read files to their end, over the system calls of [UserOS].  A result
    [Some c] is [exit(c)], which ends the program; [None] is a return.  The loops over [read]
    take fuel: each turn but the last takes a byte of the input. *)

From S2P Require Import Prelude Layout Memory Ulib Printf Grep.

Section Programs.
Context {K : Type} `{OS : UserOS K} (buf : Z) (sfuel : nat).
Notation U := (uproc K).
Notation msg s := (removelast (cstr s)).

(** The source's [char buf[512]]. *)
Definition BUF512 : Z := 512.

Fixpoint cat (fuel : nat) (fd : Z) : M U (option Z) :=
  let! n := read fd buf BUF512 in
  if 0 <? n then
    match fuel with
    | O => diverge
    | S f =>
        let! w := write 1 buf n in
        if negb (w =? n) then fprintf sfuel 2 (msg "cat: write error" ++ [10]) [];;; ret (Some 1)
        else cat f fd
    end
  else if n <? 0 then fprintf sfuel 2 (msg "cat: read error" ++ [10]) [];;; ret (Some 1)
  else ret None.

(** The counters of wc: lines, words, characters and whether the last was in a word. *)
Record counts := mkCounts { n_l : Z; n_w : Z; n_c : Z; inword : bool }.
Definition counts0 : counts := mkCounts 0 0 0 false.

(** [strchr(" \r\t\n\v", ch)], which does not find NUL. *)
Definition is_space (ch : Z) : bool := existsb (Z.eqb ch) [32; 13; 9; 10; 11].

Definition count_char (ch : Z) (s : counts) : counts :=
  let c := i32 (n_c s + 1) in
  let l := if ch =? 10 then i32 (n_l s + 1) else n_l s in
  if is_space ch then mkCounts l (n_w s) c false
  else if inword s then mkCounts l (n_w s) c true
  else mkCounts l (i32 (n_w s + 1)) c true.

(** [for(i=0; i<n; i++)]: [k] is [n - i]. *)
Fixpoint wc_chars (k : nat) (i : Z) (s : counts) : M U counts :=
  match k with
  | O => ret s
  | S k' => let! ch := load (fun m => mget m (buf + i)) in wc_chars k' (i + 1) (count_char ch s)
  end.

Fixpoint wc_loop (fuel : nat) (fd : Z) (s : counts) : M U (Z * counts) :=
  let! n := read fd buf BUF512 in
  if 0 <? n then
    match fuel with
    | O => diverge
    | S f => let! s := wc_chars (Z.to_nat n) 0 s in wc_loop f fd s
    end
  else ret (n, s).

Definition wc_format : list Z := msg "%d %d %d %s" ++ [10].

Definition wc (fuel : nat) (fd name : Z) : M U (option Z) :=
  let! r := wc_loop fuel fd counts0 in
  if fst r <? 0 then uprintf sfuel (msg "wc: read error" ++ [10]) [];;; ret (Some 1)
  else uprintf sfuel wc_format [n_l (snd r); n_w (snd r); n_c (snd r); name];;; ret None.

(** [main]: the addresses of the arguments after the name of the program; [empty] is that
    of the empty string. *)
Definition open_arg (a : Z) : M U Z :=
  let! path := load (fun m => until_nul (bytes m a sfuel)) in os (os_open path O_RDONLY).

Fixpoint cat_files (fuel : nat) (argv : list Z) : M U Z :=
  match argv with
  | [] => ret 0
  | a :: r =>
      let! fd := open_arg a in
      if fd <? 0 then fprintf sfuel 2 (msg "cat: cannot open %s" ++ [10]) [a];;; ret 1
      else
        let! e := cat fuel fd in
        match e with
        | Some c => ret c
        | None => os (os_close fd);;; cat_files fuel r
        end
  end.
Definition cat_main (fuel : nat) (argv : list Z) : M U Z :=
  match argv with
  | [] => let! e := cat fuel 0 in ret (default 0 e)
  | _ => cat_files fuel argv
  end.

Fixpoint wc_files (fuel : nat) (argv : list Z) : M U Z :=
  match argv with
  | [] => ret 0
  | a :: r =>
      let! fd := open_arg a in
      if fd <? 0 then uprintf sfuel (msg "wc: cannot open %s" ++ [10]) [a];;; ret 1
      else
        let! e := wc fuel fd a in
        match e with
        | Some c => ret c
        | None => os (os_close fd);;; wc_files fuel r
        end
  end.
Definition wc_main (fuel : nat) (empty : Z) (argv : list Z) : M U Z :=
  match argv with
  | [] => let! e := wc fuel 0 empty in ret (default 0 e)
  | _ => wc_files fuel argv
  end.

(** The pattern is read where it is used; [gbuf] is the buffer of grep. *)
Fixpoint grep_files (gbuf : Z) (fuel : nat) (pattern : Z) (argv : list Z) : M U Z :=
  match argv with
  | [] => ret 0
  | a :: r =>
      let! fd := open_arg a in
      if fd <? 0 then uprintf sfuel (msg "grep: cannot open %s" ++ [10]) [a];;; ret 1
      else
        let! p := load (fun m => until_nul (bytes m pattern sfuel)) in
        grep gbuf fuel p fd;;;
        os (os_close fd);;;
        grep_files gbuf fuel pattern r
  end.
Definition grep_main (gbuf : Z) (fuel : nat) (argv : list Z) : M U Z :=
  match argv with
  | [] => fprintf sfuel 2 (msg "usage: grep pattern [file ...]" ++ [10]) [];;; ret 1
  | [pattern] =>
      let! p := load (fun m => until_nul (bytes m pattern sfuel)) in
      grep gbuf fuel p 0;;; ret 0
  | pattern :: files => grep_files gbuf fuel pattern files
  end.
End Programs.

(** ** What they do *)

(** The words of a text, after the part [cur] of a word. *)
Definition word (cur : list Z) : list (list Z) := if bool_decide (cur = []) then [] else [cur].
Fixpoint words_of (cur inp : list Z) : list (list Z) :=
  match inp with
  | [] => word cur
  | c :: r => if is_space c then word cur ++ words_of [] r else words_of (cur ++ [c]) r
  end.

Definition lines (l : list Z) : Z := Z.of_nat (length (filter (fun c => c = 10) l)).
Definition words (l : list Z) : Z := Z.of_nat (length (words_of [] l)).

Definition count_all (s : counts) (l : list Z) : counts := foldl (fun s c => count_char c s) s l.

Definition counts_ok (s : counts) (room : Z) : Prop := 0 <= n_l s <= n_c s /\ 0 <= n_w s <= n_c s /\ n_c s + room < 2 ^ 31.

(** One character adds one to the counters it should. *)
Lemma count_char_ok ch s room : counts_ok s (1 + room) -> 0 <= room ->
  let s' := count_char ch s in
  counts_ok s' room /\ n_c s' = n_c s + 1 /\ n_l s' = n_l s + (if ch =? 10 then 1 else 0) /\
  n_w s' = n_w s + (if is_space ch || inword s then 0 else 1) /\ inword s' = negb (is_space ch).
Proof.
  intros (Hl & Hw & Hc) Hr. unfold counts_ok, count_char.
  rewrite !i32_id by lia. destruct (is_space ch), (inword s), (ch =? 10); cbn; lia.
Qed.

Lemma length_word cur : Z.of_nat (length (word cur)) = if bool_decide (cur = []) then 0 else 1.
Proof. unfold word. by destruct (bool_decide _). Qed.

Lemma count_all_ok l : forall s cur, counts_ok s (Z.of_nat (length l)) -> inword s = negb (bool_decide (cur = [])) ->
  n_l (count_all s l) = n_l s + lines l /\ n_c (count_all s l) = n_c s + Z.of_nat (length l) /\
  n_w (count_all s l) = n_w s + Z.of_nat (length (words_of cur l)) - Z.of_nat (length (word cur)).
Proof.
  induction l as [|ch l IH]; intros s cur Hs Hi; [cbn; unfold lines; cbn; lia|].
  cbn [length] in Hs. destruct (count_char_ok ch s (Z.of_nat (length l))) as (Hs' & Ec & El & Ew & Ei); [by rewrite Nat2Z.inj_succ, <- Z.add_1_l in Hs|lia|].
  change (count_all s (ch :: l)) with (count_all (count_char ch s) l). set (s' := count_char ch s) in *.
  destruct (IH s' (if is_space ch then [] else cur ++ [ch]) Hs') as (Hl & Hc & Hw).
  { rewrite Ei. destruct (is_space ch); [done|]. by rewrite bool_decide_eq_false_2 by (by destruct cur). }
  unfold lines in *. rewrite filter_cons. cbn [words_of length]. rewrite length_word in *. rewrite Hi in Ew.
  split; [|split; [lia|]].
  - destruct (Z.eqb_spec ch 10); [rewrite decide_True by done; cbn [length]|rewrite decide_False by done]; lia.
  - destruct (is_space ch); cbn [orb] in Ew.
    + rewrite length_app, Nat2Z.inj_add, length_word. rewrite bool_decide_eq_true_2 in Hw by done. lia.
    + rewrite bool_decide_eq_false_2 in Hw by (by destruct cur). destruct (bool_decide (cur = [])); cbn in Ew; lia.
Qed.

Lemma bytes_mput m a l : Forall (fun x => is_u8 x) l -> bytes (mput m a l) a (length l) = l.
Proof.
  intros Hl. apply list_eq_same_length with (length l); [done|apply length_bytes|]. intros i x y Hi Hx Hy.
  rewrite bytes_lookup in Hx by done. injection Hx as <-. rewrite mget_mput.
  replace (Z.to_nat (a + Z.of_nat i - a)) with i by lia. rewrite Hy. cbn [default].
  apply (Forall_lookup_1 _ _ _ _ Hl) in Hy. zbool. by rewrite u8_id.
Qed.

Section Streams.
Context {K : Type} `{SO : StreamOS K} (buf : Z) (sfuel : nat).

(** A read into the buffer takes some of the bytes that are left, and none only at the end. *)
Lemma read_buf fd th m (k : K) : Forall (fun x => is_u8 x) (stream k fd) ->
  exists l m' k', read fd buf BUF512 th (mkUproc m k) = Ok (Z.of_nat (length l)) th (mkUproc m' k') /\
    stream k fd = l ++ stream k' fd /\ bytes m' buf (length l) = l /\ (l = [] -> stream k fd = []) /\ written k' = written k.
Proof.
  intros Hall. destruct (read_ok fd BUF512 th k) as (l & k' & E & Hst & _ & Hend & Hwr); [done|].
  exists l, (mput m buf l), k'. split.
  { unfold read, os. rewrite (bind_ok _ _ _ _ _ _ _ (zoom_ok os_lens _ th (mkUproc m k) _ _ _ E)). done. }
  split; [done|]. rewrite Hst in Hall. apply Forall_app in Hall as [Hall _].
  split; [by apply bytes_mput|]. split; [|done]. intros Hl. by apply Hend.
Qed.

Lemma wc_chars_ok n th m (k : K) : forall i s,
  wc_chars buf n i s th (mkUproc m k) = Ok (count_all s (bytes m (buf + i) n)) th (mkUproc m k).
Proof.
  induction n as [|n IH]; intros i s; [done|]. cbn [wc_chars].
  rewrite (bind_ok (load _) _ th (mkUproc m k) _ th (mkUproc m k) eq_refl), IH, bytes_S. cbn [u_mem count_all foldl].
  by rewrite Z.add_assoc.
Qed.

Lemma wc_loop_ok fd th fuel : forall m (k : K) s,
  Forall (fun x => is_u8 x) (stream k fd) -> (length (stream k fd) < fuel)%nat ->
  exists m' k', wc_loop buf fuel fd s th (mkUproc m k) = Ok (0, count_all s (stream k fd)) th (mkUproc m' k') /\
    stream k' fd = [] /\ written k' = written k.
Proof.
  induction fuel as [|fuel IH]; intros m k s Hall Hf; [lia|].
  destruct (read_buf fd th m k Hall) as (l & m1 & k1 & E & Hst & Hb & Hend & Hwr).
  cbn [wc_loop]. rewrite (bind_ok _ _ _ _ _ _ _ E). destruct (Z.ltb_spec 0 (Z.of_nat (length l))) as [Hl|Hl].
  - rewrite Hst, length_app in Hf. rewrite Hst in Hall |- *. apply Forall_app in Hall as [_ Hall].
    rewrite Nat2Z.id, (bind_ok _ _ _ _ _ _ _ (wc_chars_ok _ _ _ _ 0 s)), Z.add_0_r, Hb.
    destruct (IH m1 k1 (count_all s l) Hall) as (m' & k' & E' & Hs' & Hw'); [lia|]. exists m', k'.
    rewrite E'. unfold count_all. rewrite foldl_app. by rewrite Hw'.
  - destruct l; [|cbn in Hl; lia]. rewrite (Hend eq_refl) in *. exists m1, k1. split; [done|]. by destruct (stream k1 fd).
Qed.

(** wc counts.  For a text of fewer than 2^31 bytes, whatever pieces [read] delivers it in, wc
    reads all of it and then prints the number of its newlines, of its words and of its bytes,
    with the name of the file. *)
Theorem wc_counts_text fd name th m (k : K) :
  Forall (fun x => is_u8 x) (stream k fd) -> Z.of_nat (length (stream k fd)) < 2 ^ 31 ->
  exists m' k', stream k' fd = [] /\ written k' = written k /\
    wc buf sfuel (S (length (stream k fd))) fd name th (mkUproc m k) =
    (uprintf sfuel wc_format [lines (stream k fd); words (stream k fd); Z.of_nat (length (stream k fd)); name];;; ret None) th (mkUproc m' k').
Proof.
  intros Hall Hlen. destruct (wc_loop_ok fd th (S (length (stream k fd))) m k counts0 Hall) as (m' & k' & E & Hs & Hw); [lia|].
  exists m', k'. split; [done|]. split; [done|]. unfold wc. rewrite (bind_ok _ _ _ _ _ _ _ E). cbn [fst snd].
  destruct (count_all_ok (stream k fd) counts0 []) as (Hl & Hc & Hww); [unfold counts_ok; cbn; lia|done|].
  cbn in Hl, Hc, Hww. rewrite Hl, Hc, Hww. change (0 <? 0) with false. unfold words. by rewrite Z.sub_0_r.
Qed.

(** Writes take all they are given. *)
Context (write_all : forall fd l th (k : K) r k', os_write fd l th k = Ok r th k' -> r = Z.of_nat (length l)).

Lemma cat_loop_ok fd th fuel : forall m (k : K),
  Forall (fun x => is_u8 x) (stream k fd) -> (length (stream k fd) < fuel)%nat ->
  exists m' k', cat buf sfuel fuel fd th (mkUproc m k) = Ok None th (mkUproc m' k') /\ stream k' fd = [] /\
    forall fd', written k' fd' = if fd' =? 1 then written k fd' ++ stream k fd else written k fd'.
Proof.
  induction fuel as [|fuel IH]; intros m k Hall Hf; [lia|].
  destruct (read_buf fd th m k Hall) as (l & m1 & k1 & E & Hst & Hb & Hend & Hwr).
  cbn [cat]. rewrite (bind_ok _ _ _ _ _ _ _ E). destruct (Z.ltb_spec 0 (Z.of_nat (length l))) as [Hl|Hl].
  - rewrite Hst, length_app in Hf. rewrite Hst in Hall |- *. apply Forall_app in Hall as [_ Hall].
    destruct (write_ok 1 l th k1) as (r & k2 & E2 & Hst2 & Hwr2). pose proof (write_all _ _ _ _ _ _ E2) as ->.
    assert (Ew : write 1 buf (Z.of_nat (length l)) th (mkUproc m1 k1) = Ok (Z.of_nat (length l)) th (mkUproc m1 k2)).
    { unfold write. rewrite (bind_ok (load _) _ th (mkUproc m1 k1) _ th (mkUproc m1 k1) eq_refl). cbn [u_mem].
      rewrite Nat2Z.id, Hb. apply (zoom_ok os_lens _ th (mkUproc m1 k1) _ _ _ E2). }
    rewrite (bind_ok _ _ _ _ _ _ _ Ew), Z.eqb_refl. cbn [negb].
    destruct (IH m1 k2) as (m' & k' & E' & Hs' & Hw'); [by rewrite Hst2|rewrite Hst2; lia|].
    exists m', k'. split; [done|]. split; [done|]. intros fd'. rewrite Hw', Hwr2, Hst2, Hwr.
    destruct (fd' =? 1); [by rewrite app_assoc|done].
  - destruct l; [|cbn in Hl; lia]. rewrite (Hend eq_refl) in *. exists m1, k1. split; [done|]. split; [by destruct (stream k1 fd)|].
    intros fd'. rewrite Hwr, app_nil_r. by destruct (fd' =? 1).
Qed.

(** cat copies: the whole text goes to standard output, once and in order, and nothing
    anywhere else. *)
Theorem cat_copies_text fd th m (k : K) :
  Forall (fun x => is_u8 x) (stream k fd) ->
  exists m' k', cat buf sfuel (S (length (stream k fd))) fd th (mkUproc m k) = Ok None th (mkUproc m' k') /\
    stream k' fd = [] /\ forall fd', written k' fd' = if fd' =? 1 then written k fd' ++ stream k fd else written k fd'.
Proof. intros Hall. apply cat_loop_ok; [done|lia]. Qed.
End Streams.

(** The two lines [a b] and [c] on standard input. *)
Lemma cat_copies_text_witness : exists m k, cat 4096 64 7 0 (mkThread [] 0 0 []) (mkUproc ∅ (mkTty [97; 32; 98; 10; 99; 10] [])) = Ok None (mkThread [] 0 0 []) (mkUproc m k) /\
  mjoin (snd <$> filter (fun x => fst x = 1) (tty_log k)) = [97; 32; 98; 10; 99; 10].
Proof.
  destruct (cat_copies_text (SO := tty_stream) 4096 64) with (fd := 0) (th := mkThread [] 0 0 []) (m := (∅ : mem)) (k := mkTty [97; 32; 98; 10; 99; 10] []) as (m & k & E & _ & H).
  - intros fd l th k r k' [= <- _]. reflexivity.
  - cbn. repeat constructor; lia.
  - exists m, k. split; [exact E|]. exact (H 1).
Defined.

Lemma wc_counts_text_witness : lines [97; 32; 98; 10; 99; 10] = 2 /\ words [97; 32; 98; 10; 99; 10] = 3 /\
  exists m k, wc 4096 64 7 0 8 (mkThread [] 0 0 []) (mkUproc ∅ (mkTty [97; 32; 98; 10; 99; 10] [])) =
    (uprintf 64 wc_format [2; 3; 6; 8];;; ret None) (mkThread [] 0 0 []) (mkUproc m k).
Proof.
  split; [reflexivity|]. split; [reflexivity|].
  destruct (wc_counts_text (SO := tty_stream) 4096 64 0 8 (mkThread [] 0 0 []) ∅ (mkTty [97; 32; 98; 10; 99; 10] [])) as (m & k & _ & _ & E).
  - cbn. repeat constructor; lia.
  - cbn. lia.
  - exists m, k. exact E.
Defined.
