(* ===== verification/Sh.v ===== *)
(** * The shell's parser (user/sh.c)

    The command line is a NUL-terminated string in memory.  A parsed command is a tree of
    nodes in the heap, addressed from 1 on in the order of allocation; 0 is the null
    pointer.  [char **ps] always points to the variable [s] of [parsecmd], the field [sh_ps].
    [sh_room] is the number of nodes [malloc] can still give: the constructors do not test
    its result, so that running out is a store through a null pointer.  [panic] prints its
    message and exits. *)

From S2P Require Import Prelude Layout Memory Ulib.

Definition MAXARGS : Z := 10.

Inductive node :=
| Nexec (argv eargv : list Z)
| Nredir (cmd file efile mode fd : Z)
| Npipe (left right : Z)
| Nlist (left right : Z)
| Nback (cmd : Z).

Record shell := mkShell { sh_buf : mem; sh_ps : Z; sh_heap : list node; sh_room : nat }.

Definition set_ps (x : Z) (s : shell) : shell := mkShell (sh_buf s) x (sh_heap s) (sh_room s).
Definition set_buf (m : mem) (s : shell) : shell := mkShell m (sh_ps s) (sh_heap s) (sh_room s).
Definition set_heap (h : list node) (s : shell) : shell := mkShell (sh_buf s) (sh_ps s) h (sh_room s).

(** ** Constructors *)

Definition alloc_node (n : node) : M shell Z := fun th s =>
  match sh_room s with
  | O => Fault "memset"
  | S r => Ok (Z.of_nat (S (length (sh_heap s)))) th (mkShell (sh_buf s) (sh_ps s) (sh_heap s ++ [n]) r)
  end.

Definition execcmd : M shell Z := alloc_node (Nexec (replicate 10 0) (replicate 10 0)).
Definition redircmd (subcmd file efile mode fd : Z) : M shell Z := alloc_node (Nredir subcmd file efile mode fd).
Definition pipecmd (left right : Z) : M shell Z := alloc_node (Npipe left right).
Definition listcmd (left right : Z) : M shell Z := alloc_node (Nlist left right).
Definition backcmd (subcmd : Z) : M shell Z := alloc_node (Nback subcmd).

(** ** Tokens *)

(** [strchr] in one of the constant strings. *)
Definition in_chars (l : list Z) (c : Z) : bool := bool_decide (c ∈ l).
Definition whitespace : list Z := [32; 9; 13; 10; 11].
Definition symbols : list Z := [60; 124; 62; 38; 59; 40; 41].

(** [while(s < es && strchr(whitespace, *s)) s++], [k] being [es - s]. *)
Fixpoint skip_space (k : nat) (m : mem) (s : Z) : Z :=
  match k with O => s | S k' => if in_chars whitespace (mget m s) then skip_space k' m (s + 1) else s end.
(** [while(s < es && !strchr(whitespace, *s) && !strchr(symbols, *s)) s++] *)
Fixpoint skip_word (k : nat) (m : mem) (s : Z) : Z :=
  match k with
  | O => s
  | S k' => if negb (in_chars whitespace (mget m s)) && negb (in_chars symbols (mget m s)) then skip_word k' m (s + 1) else s
  end.

(** The switch: the code of the token at [s], and its end. *)
Definition scan_token (m : mem) (es s : Z) : Z * Z :=
  let c := mget m s in
  if c =? 0 then (c, s)
  else if in_chars [124; 40; 41; 59; 38; 60] c then (c, s + 1)
  else if c =? 62 then (if mget m (s + 1) =? 62 then (43, s + 2) else (c, s + 1))
  else (97, skip_word (Z.to_nat (es - s)) m s).

(** The token's code, and its start and end. *)
Definition gettoken (es : Z) : M shell (Z * Z * Z) :=
  let! st := get in
  let m := sh_buf st in
  let s := skip_space (Z.to_nat (es - sh_ps st)) m (sh_ps st) in
  let q := s in
  let '(r, eq) := scan_token m es s in
  put (set_ps (skip_space (Z.to_nat (es - eq)) m eq) st);;;
  ret (r, q, eq).

Definition peek (es : Z) (toks : list Z) : M shell bool :=
  let! st := get in
  let m := sh_buf st in
  let s := skip_space (Z.to_nat (es - sh_ps st)) m (sh_ps st) in
  put (set_ps s st);;;
  ret (ctrue (mget m s) && in_chars toks (mget m s)).

(** ** The grammar *)

Fixpoint parseredirs (f : nat) (cmd es : Z) : M shell Z :=
  match f with
  | O => diverge
  | S f =>
      let! b := peek es [60; 62] in
      if b then
        let! tok := gettoken es in
        let! w := gettoken es in
        let '(_, q, eq) := w in
        if negb (fst (fst w) =? 97) then panic "missing file for redirection"
        else
          let tok := fst (fst tok) in
          let! cmd :=
            (if tok =? 60 then redircmd cmd q eq O_RDONLY 0
             else if tok =? 62 then redircmd cmd q eq (Z.lor (Z.lor O_WRONLY O_CREATE) O_TRUNC) 1
             else if tok =? 43 then redircmd cmd q eq (Z.lor O_WRONLY O_CREATE) 1
             else ret cmd) in
          parseredirs f cmd es
      else ret cmd
  end.

(** [cmd->argv[i] = q; cmd->eargv[i] = eq], with [cmd] an [execcmd]. *)
Definition set_arg (cmd i q eq : Z) : M shell unit :=
  let! s := get in
  match sh_heap s !! Z.to_nat (cmd - 1) with
  | Some (Nexec argv eargv) =>
      if i <? MAXARGS then
        put (set_heap (<[Z.to_nat (cmd - 1) := Nexec (<[Z.to_nat i := q]> argv) (<[Z.to_nat i := eq]> eargv)]> (sh_heap s)) s)
      else fault "argv"
  | _ => fault "cmd"
  end.

(** The loop over the arguments, [argc] of which have been stored. *)
Fixpoint parseargs (f : nat) (cmd r argc es : Z) : M shell Z :=
  match f with
  | O => diverge
  | S f =>
      let! b := peek es [124; 41; 38; 59] in
      if b then set_arg cmd argc 0 0;;; ret r
      else
        let! t := gettoken es in
        let '(tok, q, eq) := t in
        if tok =? 0 then set_arg cmd argc 0 0;;; ret r
        else if negb (tok =? 97) then panic "syntax"
        else
          set_arg cmd argc q eq;;;
          if argc + 1 >=? MAXARGS then panic "too many args"
          else
            let! r := parseredirs f r es in
            parseargs f cmd r (argc + 1) es
  end.

(** [while(peek(ps, es, AMP)) cmd = backcmd(cmd)], with the token taken. *)
Fixpoint parseback (f : nat) (cmd es : Z) : M shell Z :=
  match f with
  | O => diverge
  | S f =>
      let! b := peek es [38] in
      if b then
        gettoken es;;;
        let! cmd := backcmd cmd in
        parseback f cmd es
      else ret cmd
  end.

Fixpoint parseline (f : nat) (es : Z) : M shell Z :=
  match f with
  | O => diverge
  | S f =>
      let! cmd := parsepipe f es in
      let! cmd := parseback f cmd es in
      let! b := peek es [59] in
      if b then
        gettoken es;;;
        let! rhs := parseline f es in
        listcmd cmd rhs
      else ret cmd
  end
with parsepipe (f : nat) (es : Z) : M shell Z :=
  match f with
  | O => diverge
  | S f =>
      let! cmd := parseexec f es in
      let! b := peek es [124] in
      if b then
        gettoken es;;;
        let! rhs := parsepipe f es in
        pipecmd cmd rhs
      else ret cmd
  end
with parseblock (f : nat) (es : Z) : M shell Z :=
  match f with
  | O => diverge
  | S f =>
      let! b := peek es [40] in
      if negb b then panic "parseblock"
      else
        gettoken es;;;
        let! cmd := parseline f es in
        let! b := peek es [41] in
        if negb b then panic "syntax - missing )"
        else
          gettoken es;;;
          parseredirs f cmd es
  end
with parseexec (f : nat) (es : Z) : M shell Z :=
  match f with
  | O => diverge
  | S f =>
      let! b := peek es [40] in
      if b then parseblock f es
      else
        let! cmd := execcmd in
        let! r := parseredirs f cmd es in
        parseargs f cmd r 0 es
  end.

(** ** Terminating the strings *)

(** [for(i=0; ecmd->argv[i]; i++) *ecmd->eargv[i] = 0]; [None]: past the end of the array. *)
Fixpoint nul_args (argv eargv : list Z) (m : mem) : option mem :=
  match argv, eargv with
  | a :: argv', e :: eargv' => if ctrue a then nul_args argv' eargv' (mset m e 0) else Some m
  | _, _ => None
  end.

(** Children are allocated before their parents: the address bounds the depth. *)
Fixpoint nulterminate (f : nat) (cmd : Z) : M shell Z :=
  if cmd =? 0 then ret 0
  else
    match f with
    | O => diverge
    | S f =>
        let! s := get in
        match sh_heap s !! Z.to_nat (cmd - 1) with
        | None => fault "cmd"
        | Some (Nexec argv eargv) =>
            match nul_args argv eargv (sh_buf s) with
            | Some m => put (set_buf m s);;; ret cmd
            | None => fault "argv"
            end
        | Some (Nredir c _ efile _ _) =>
            nulterminate f c;;;
            modify (fun s => set_buf (mset (sh_buf s) efile 0) s);;;
            ret cmd
        | Some (Npipe l r) => nulterminate f l;;; nulterminate f r;;; ret cmd
        | Some (Nlist l r) => nulterminate f l;;; nulterminate f r;;; ret cmd
        | Some (Nback c) => nulterminate f c;;; ret cmd
        end
    end.

Definition parsecmd (f : nat) (s : Z) : M shell Z :=
  let! st := get in
  match ustrlen f (sh_buf st) s with
  | None => diverge
  | Some n =>
      let es := s + n in
      put (set_ps s st);;;
      let! cmd := parseline f es in
      peek es [];;;
      let! st := get in
      if negb (sh_ps st =? es) then panic "syntax"
      else
        nulterminate (Z.to_nat cmd) cmd;;;
        ret cmd
  end.
