(* ===== verification/ShSpec.v ===== *)
(** * The shell parses its grammar

    The tokens of a command line and the grammar of commands are defined on lists, apart
    from the parser; a command is an abstract tree [cmd].  The parser is related to the
    grammar in two steps: it does what the token parser [p_line] does, and [p_line] accepts
    exactly the sentences of the grammar. *)

From S2P Require Import Prelude Layout Memory Ulib Sh.

(** ** Tokens *)

Definition word_char (c : Z) : bool := negb (in_chars whitespace c) && negb (in_chars symbols c).

Fixpoint drop_space (l : list Z) : list Z :=
  match l with c :: l' => if in_chars whitespace c then drop_space l' else l | [] => [] end.
Fixpoint span_word (l : list Z) : list Z * list Z :=
  match l with
  | c :: l' => if word_char c then let (w, r) := span_word l' in (c :: w, r) else ([], l)
  | [] => ([], [])
  end.

Inductive token := TWord (w : list Z) | TSym (c : Z) | TAppend.

Definition next_token (l : list Z) : option (token * list Z) :=
  match drop_space l with
  | [] => None
  | c :: l' =>
      Some (if in_chars [124; 40; 41; 59; 38; 60] c then (TSym c, drop_space l')
            else if c =? 62 then
              match l' with
              | c2 :: l2 => if c2 =? 62 then (TAppend, drop_space l2) else (TSym 62, drop_space l')
              | [] => (TSym 62, [])
              end
            else let (w, r) := span_word (c :: l') in (TWord w, drop_space r))
  end.

Fixpoint tokens_upto (k : nat) (l : list Z) : list token :=
  match k with
  | O => []
  | S k' => match next_token l with None => [] | Some (t, l') => t :: tokens_upto k' l' end
  end.
Definition tokens (l : list Z) : list token := tokens_upto (length l) l.

Definition code (t : token) : Z := match t with TWord _ => 97 | TSym c => c | TAppend => 43 end.
Definition first_char (t : token) : Z := match t with TWord w => default 0 (head w) | TSym c => c | TAppend => 62 end.

Lemma drop_space_length l : (length (drop_space l) <= length l)%nat.
Proof. induction l as [|c l IH]; cbn; [done|]. destruct (in_chars whitespace c); cbn; lia. Qed.

Lemma drop_space_idem l : drop_space (drop_space l) = drop_space l.
Proof. induction l as [|c l IH]; cbn; [done|]. destruct (in_chars whitespace c) eqn:E; [done|]. cbn. by rewrite E. Qed.

Lemma drop_space_head l c l' : drop_space l = c :: l' -> in_chars whitespace c = false.
Proof. induction l as [|x l IH]; cbn; [done|]. destruct (in_chars whitespace x) eqn:E; [done|]. by intros [= <- _]. Qed.

Lemma span_word_spec l w r : span_word l = (w, r) ->
  l = w ++ r /\ Forall (fun c => word_char c = true) w /\ match r with [] => True | c :: _ => word_char c = false end.
Proof.
  revert w r. induction l as [|c l IH]; intros w r; cbn; [by intros [= <- <-]|]. destruct (word_char c) eqn:E; [|by intros [= <- <-]].
  destruct (span_word l) as [w' r']. intros [= <- <-]. destruct (IH w' r' eq_refl) as (-> & H2 & H3). split; [done|]. split; [by constructor|done].
Qed.

Lemma not_symbol c : in_chars whitespace c = false -> in_chars [124; 40; 41; 59; 38; 60] c = false -> c <> 62 -> word_char c = true.
Proof.
  intros H1 H2 H3. unfold word_char. rewrite H1. unfold in_chars in *. apply bool_decide_eq_false in H2. cbn. rewrite (bool_decide_eq_false_2 _); [done|].
  unfold symbols. rewrite !list_elem_of_In in *. cbn in *. intuition congruence.
Qed.

Lemma next_token_drop l : next_token (drop_space l) = next_token l.
Proof. unfold next_token. by rewrite drop_space_idem. Qed.

Lemma next_token_length l t l' : next_token l = Some (t, l') -> (length l' < length l)%nat.
Proof.
  unfold next_token. pose proof (drop_space_length l) as Hl. destruct (drop_space l) as [|c l1] eqn:E; [done|]. cbn in Hl. pose proof (drop_space_length l1) as Hl1. intros H. apply (inj Some) in H.
  destruct (in_chars [124; 40; 41; 59; 38; 60] c) eqn:E1; [injection H as _ <-; lia|].
  destruct (Z.eqb_spec c 62) as [->|Hc].
  - destruct l1 as [|c2 l2]; [injection H as _ <-; cbn in *; lia|]. pose proof (drop_space_length l2). destruct (c2 =? 62); injection H as _ <-; cbn in *; lia.
  - destruct (span_word (c :: l1)) as [w r] eqn:Ew. injection H as _ <-. pose proof (drop_space_length r). apply span_word_spec in Ew as (Ew & Hw & Hr).
    destruct w as [|x w].
    + cbn in Ew. subst r. cbn in Hr. rewrite not_symbol in Hr; [done|by eapply drop_space_head|done|done].
    + apply (f_equal length) in Ew. rewrite length_app in Ew. cbn in *. lia.
Qed.

Lemma tokens_upto_enough k k' l : (length l <= k)%nat -> (length l <= k')%nat -> tokens_upto k l = tokens_upto k' l.
Proof.
  revert k' l. induction k as [|k IH]; intros k' l H H'.
  - destruct l; [|cbn in H; lia]. by destruct k'.
  - destruct k' as [|k']; [destruct l; [done|cbn in H'; lia]|]. cbn. destruct (next_token l) as [[t l']|] eqn:E; [|done].
    apply next_token_length in E. f_equal. apply IH; lia.
Qed.

Lemma tokens_step l : tokens l = match next_token l with None => [] | Some (t, l') => t :: tokens l' end.
Proof.
  unfold tokens. destruct (length l) as [|n] eqn:E; [by destruct l|]. cbn. destruct (next_token l) as [[t l']|] eqn:Et; [|done].
  apply next_token_length in Et. f_equal. apply tokens_upto_enough; lia.
Qed.

Lemma tokens_drop_space l : tokens (drop_space l) = tokens l.
Proof. rewrite !(tokens_step _). by rewrite next_token_drop. Qed.

Lemma tokens_length l : (length (tokens l) <= length l)%nat.
Proof.
  assert (H : forall n l, (length l <= n)%nat -> (length (tokens l) <= length l)%nat); [|by apply (H (length l))].
  intros n. induction n as [|n IH]; intros x Hx; rewrite tokens_step; destruct (next_token x) as [[t l']|] eqn:E; cbn; try lia; apply next_token_length in E; [lia|].
  specialize (IH l'). lia.
Qed.

(** ** The scanner *)

(** The rest of the command line, up to [es], is [l]. *)
Definition at_text (es : Z) (l : list Z) (s : shell) : Prop := cstring (sh_buf s) (sh_ps s) l /\ es = sh_ps s + Z.of_nat (length l) /\ 0 < sh_ps s.

Lemma skip_space_ok l : forall m s, cstring m s l -> exists p, skip_space (length l) m s = p /\ cstring m p (drop_space l) /\
  p + Z.of_nat (length (drop_space l)) = s + Z.of_nat (length l) /\ s <= p.
Proof.
  induction l as [|c l IH]; intros m s H; cbn; [exists s; split; [done|]; split; [done|lia]|]. pose proof H as (Hc & _ & H')%cstring_cons. rewrite Hc.
  destruct (in_chars whitespace c); [|exists s; split; [done|]; split; [done|cbn; lia]]. destruct (IH m (s + 1) H') as (p & E & Hp & H1 & H2). exists p. split; [done|]. split; [done|lia].
Qed.

Lemma skip_word_ok l : forall m s w r, cstring m s l -> span_word l = (w, r) ->
  skip_word (length l) m s = s + Z.of_nat (length w) /\ cstring m (s + Z.of_nat (length w)) r /\ bytes m s (length w) = w.
Proof.
  induction l as [|c l IH]; intros m s w r H; cbn; [intros [= <- <-]; cbn; by rewrite Z.add_0_r|]. pose proof H as (Hc & _ & H')%cstring_cons. rewrite Hc.
  fold (word_char c). destruct (word_char c).
  - destruct (span_word l) as [w' r'] eqn:E. intros [= <- <-]. destruct (IH m (s + 1) w' r' H' eq_refl) as (E1 & E2 & E3). cbn [length].
    replace (s + Z.of_nat (S (length w'))) with (s + 1 + Z.of_nat (length w')) by lia. rewrite bytes_S, E3, Hc. done.
  - intros [= <- <-]. cbn. by rewrite Z.add_0_r.
Qed.

(** The word [w] is stored from [q] to [eq], and ends there. *)
Definition word_at (m : mem) (w : list Z) (q eq : Z) : Prop :=
  0 < q /\ bytes m q (length w) = w /\ eq = q + Z.of_nat (length w) /\ Forall (fun c => word_char c = true /\ c <> 0) w /\
  (mget m eq = 0 \/ word_char (mget m eq) = false).

Definition token_at (m : mem) (t : token) (q eq : Z) : Prop := match t with TWord w => word_at m w q eq | _ => True end.

Lemma cstring_bound m s l : cstring m s l -> match l with [] => mget m s = 0 | c :: _ => mget m s = c /\ c <> 0 end.
Proof. destruct l as [|c l]; [by intros ?%cstring_nil|]. by intros (? & ? & _)%cstring_cons. Qed.

Lemma word_char_nonsymbol c : word_char c = true -> in_chars [124; 40; 41; 59; 38; 60] c = false /\ c <> 62.
Proof.
  unfold word_char, in_chars. rewrite andb_true_iff, !negb_true_iff, !bool_decide_eq_false. intros [_ H]. unfold symbols in H.
  rewrite !list_elem_of_In in *. cbn in *. intuition congruence.
Qed.

(** The token at the start of a text without leading space. *)
Lemma scan_token_ok m s l c l1 : l = c :: l1 -> cstring m s l -> in_chars whitespace c = false -> 0 < s ->
  exists r eq rest t, scan_token m (s + Z.of_nat (length l)) s = (r, eq) /\ next_token l = Some (t, drop_space rest) /\ r = code t /\
    cstring m eq rest /\ eq + Z.of_nat (length rest) = s + Z.of_nat (length l) /\ token_at m t s eq /\ 0 < eq.
Proof.
  intros -> H Hsp Hs. pose proof H as (Hc & Hnz & H1)%cstring_cons. unfold scan_token, next_token. cbn [drop_space]. rewrite Hsp, Hc, (proj2 (Z.eqb_neq c 0) Hnz).
  destruct (in_chars [124; 40; 41; 59; 38; 60] c) eqn:Es; [exists c, (s + 1), l1, (TSym c); split_and!; done || (cbn; lia)|].
  destruct (Z.eqb_spec c 62) as [->|Hgt].
  - pose proof (cstring_bound _ _ _ H1) as H2. destruct l1 as [|c2 l2].
    + rewrite H2. cbn. exists 62, (s + 1), [], (TSym 62). split_and!; done || (cbn; lia).
    + destruct H2 as [-> _]. destruct (c2 =? 62); [exists 43, (s + 2), l2, TAppend|exists 62, (s + 1), (c2 :: l2), (TSym 62)]; split_and!; try done; try (cbn; lia).
      apply cstring_cons in H1 as (_ & _ & H1). by replace (s + 2) with (s + 1 + 1) by lia.
  - destruct (span_word (c :: l1)) as [w r] eqn:Ew. replace (Z.to_nat (s + Z.of_nat (length (c :: l1)) - s)) with (length (c :: l1)) by lia.
    destruct (skip_word_ok (c :: l1) m s w r H Ew) as (-> & Hr & Hb). apply span_word_spec in Ew as (El & Hw & Hend).
    exists 97, (s + Z.of_nat (length w)), r, (TWord w). rewrite El, length_app. split; [done|]. split; [done|]. split; [done|]. split; [done|]. split; [lia|]. split; [|lia].
    split; [done|]. split; [done|]. split; [done|]. split.
    + destruct H as (_ & _ & H0). rewrite El in H0. apply not_elem_of_app in H0 as [H0 _]. apply Forall_forall. intros x Hx. split; [by apply (proj1 (Forall_forall _ w) Hw)|]. by intros ->.
    + apply cstring_bound in Hr. destruct r as [|c' r]; [by left|]. destruct Hr as [-> _]. by right.
Qed.

Lemma gettoken_ok es l th s : at_text es l s ->
  exists q eq p, 0 < p /\ match next_token l with
  | None => gettoken es th s = Ok (0, q, eq) th (set_ps p s) /\ at_text es [] (set_ps p s)
  | Some (t, l') => gettoken es th s = Ok (code t, q, eq) th (set_ps p s) /\ at_text es l' (set_ps p s) /\ token_at (sh_buf s) t q eq
  end.
Proof.
  intros (Hl & Hes & Hp). unfold gettoken. rewrite (bind_ok get _ th s s th s eq_refl). replace (Z.to_nat (es - sh_ps s)) with (length l) by lia.
  destruct (skip_space_ok l _ _ Hl) as (p & -> & Hp1 & Hp2 & Hle). rewrite <- (next_token_drop l). destruct (drop_space l) as [|c l1] eqn:Ed.
  - apply cstring_bound in Hp1. cbn in Hp2. exists p, p, p. split; [lia|]. unfold scan_token. rewrite Hp1. cbn. replace (Z.to_nat (es - p)) with 0%nat by lia.
    split; [done|]. split; [by apply cstring_nil|]. split; [cbn; lia|cbn; lia].
  - destruct (scan_token_ok (sh_buf s) p (c :: l1) c l1 eq_refl Hp1) as (r & eq & rest & t & E & En & -> & Hr & Hlen & Ht & Heq); [by eapply drop_space_head|lia|].
    replace (p + Z.of_nat (length (c :: l1))) with es in E by lia. rewrite E. destruct (skip_space_ok rest _ _ Hr) as (p2 & Ep2 & Hp3 & Hp4 & Hle2).
    replace (Z.to_nat (es - eq)) with (length rest) by lia. rewrite Ep2. exists p, eq, p2. split; [lia|].
    rewrite En. split; [done|]. split; [|done]. split; [done|]. split; cbn; lia.
Qed.

Definition starts (cs : list Z) (ts : list token) : bool := match ts with [] => false | t :: _ => in_chars cs (first_char t) end.

Definition token_ok (t : token) : Prop :=
  match t with TWord w => exists c w', w = c :: w' /\ word_char c = true | TSym c => c ∈ [124; 40; 41; 59; 38; 60; 62] | TAppend => True end.

Lemma next_token_first l t l' : next_token l = Some (t, l') -> token_ok t /\ exists l1, drop_space l = first_char t :: l1.
Proof.
  unfold next_token. destruct (drop_space l) as [|c l1] eqn:E; [done|]. intros H. apply (inj Some) in H.
  destruct (in_chars [124; 40; 41; 59; 38; 60] c) eqn:E1.
  { injection H as <- _. split; [|by exists l1]. unfold in_chars in E1. apply bool_decide_eq_true in E1. cbn. rewrite !list_elem_of_In in *. cbn in *. tauto. }
  destruct (Z.eqb_spec c 62) as [->|Hc].
  - destruct l1 as [|c2 l2]; [injection H as <- _|destruct (c2 =? 62); injection H as <- _]; (split; [|by eexists]); try done; cbn; rewrite list_elem_of_In; cbn; tauto.
  - assert (Hw : word_char c = true) by (apply not_symbol; [by eapply drop_space_head|done|done]).
    cbn [span_word] in H. rewrite Hw in H. destruct (span_word l1) as [w r]. injection H as <- _. split; [by exists c, w|]. by exists l1.
Qed.

(** The tokens still to come are [ts]. *)
Definition at_toks (es : Z) (ts : list token) (s : shell) : Prop := exists l, at_text es l s /\ tokens l = ts.

Lemma peek_ok es cs ts th s : at_toks es ts s ->
  exists p, peek es cs th s = Ok (starts cs ts) th (set_ps p s) /\ at_toks es ts (set_ps p s).
Proof.
  intros (l & (Hl & Hes & Hp) & Ht). unfold peek. rewrite (bind_ok get _ th s s th s eq_refl). replace (Z.to_nat (es - sh_ps s)) with (length l) by lia.
  destruct (skip_space_ok l _ _ Hl) as (p & -> & Hp1 & Hp2 & Hle). exists p. split.
  - replace (starts cs ts) with (ctrue (mget (sh_buf s) p) && in_chars cs (mget (sh_buf s) p)); [done|]. apply cstring_bound in Hp1.
    rewrite tokens_step in Ht. destruct (next_token l) as [[t l']|] eqn:En.
    + apply next_token_first in En as (_ & l1 & E). rewrite E in Hp1. destruct Hp1 as [-> Hnz]. rewrite <- Ht. cbn [starts]. unfold ctrue. by rewrite (proj2 (Z.eqb_neq _ 0) Hnz).
    + unfold next_token in En. destruct (drop_space l) as [|c l1]; [|by destruct (in_chars _ c)]. rewrite Hp1, <- Ht. done.
  - exists (drop_space l). rewrite tokens_drop_space. split; [|done]. split; [done|]. split; cbn; lia.
Qed.

Lemma gettoken_cons es t ts th s : at_toks es (t :: ts) s ->
  exists q eq p, gettoken es th s = Ok (code t, q, eq) th (set_ps p s) /\ at_toks es ts (set_ps p s) /\ token_at (sh_buf s) t q eq /\ token_ok t.
Proof.
  intros (l & Hl & Ht). destruct (gettoken_ok es l th s Hl) as (q & eq & p & _ & H). rewrite tokens_step in Ht.
  destruct (next_token l) as [[t' l']|] eqn:En; [|done]. injection Ht as -> Ht. destruct H as (E & Hl' & Hw). exists q, eq, p. split; [done|]. split; [by exists l'|]. split; [done|]. by apply next_token_first in En as [? _].
Qed.

Lemma gettoken_nil es th s : at_toks es [] s ->
  exists q eq p, gettoken es th s = Ok (0, q, eq) th (set_ps p s) /\ at_toks es [] (set_ps p s).
Proof.
  intros (l & Hl & Ht). destruct (gettoken_ok es l th s Hl) as (q & eq & p & _ & H). rewrite tokens_step in Ht.
  destruct (next_token l) as [[t' l']|] eqn:En; [done|]. destruct H as (E & Hl'). exists q, eq, p. split; [done|]. by exists [].
Qed.

Lemma at_toks_ext es ts s s' : sh_buf s' = sh_buf s -> sh_ps s' = sh_ps s -> at_toks es ts s -> at_toks es ts s'.
Proof. unfold at_toks, at_text. by intros -> ->. Qed.

(** ** Commands, and the parser on tokens *)

Inductive cmd :=
| CExec (argv : list (list Z))
| CRedir (c : cmd) (file : list Z) (mode fd : Z)
| CPipe (left right : cmd)
| CList (left right : cmd)
| CBack (c : cmd).

Definition redir : Type := list Z * Z * Z.
(** Redirections are wrapped around a command, the first one innermost. *)
Definition wrap (c : cmd) (rs : list redir) : cmd := foldl (fun c r => CRedir c (fst (fst r)) (snd (fst r)) (snd r)) c rs.
Definition redir_of (t : token) (w : list Z) : redir :=
  if code t =? 60 then (w, O_RDONLY, 0)
  else if code t =? 62 then (w, Z.lor (Z.lor O_WRONLY O_CREATE) O_TRUNC, 1)
  else (w, Z.lor O_WRONLY O_CREATE, 1).

Inductive result (A : Type) := POk (a : A) (rest : list token) | PErr (msg : string) | PFuel.
Arguments POk {A} _ _.
Arguments PErr {A} _.
Arguments PFuel {A}.

Definition pbind {A B} (r : result A) (k : A -> list token -> result B) : result B :=
  match r with POk a rest => k a rest | PErr msg => PErr msg | PFuel => PFuel end.

Fixpoint p_redirs (f : nat) (ts : list token) : result (list redir) :=
  match f with
  | O => PFuel
  | S f =>
      if starts [60; 62] ts then
        match ts with
        | t :: TWord w :: ts' => pbind (p_redirs f ts') (fun rs rest => POk (redir_of t w :: rs) rest)
        | _ => PErr "missing file for redirection"
        end
      else POk [] ts
  end.

Fixpoint p_args (f : nat) (ws : list (list Z)) (rs : list redir) (ts : list token) : result cmd :=
  match f with
  | O => PFuel
  | S f =>
      if starts [124; 41; 38; 59] ts then POk (wrap (CExec ws) rs) ts
      else
        match ts with
        | [] => POk (wrap (CExec ws) rs) []
        | TWord w :: ts' =>
            if Z.of_nat (length ws) + 1 >=? MAXARGS then PErr "too many args"
            else pbind (p_redirs f ts') (fun rs' rest => p_args f (ws ++ [w]) (rs ++ rs') rest)
        | _ => PErr "syntax"
        end
  end.

Fixpoint p_back (f : nat) (c : cmd) (ts : list token) : result cmd :=
  match f with
  | O => PFuel
  | S f => if starts [38] ts then p_back f (CBack c) (tail ts) else POk c ts
  end.

Fixpoint p_line (f : nat) (ts : list token) : result cmd :=
  match f with
  | O => PFuel
  | S f =>
      pbind (p_pipe f ts) (fun c ts => pbind (p_back f c ts) (fun c ts =>
        if starts [59] ts then pbind (p_line f (tail ts)) (fun r ts => POk (CList c r) ts) else POk c ts))
  end
with p_pipe (f : nat) (ts : list token) : result cmd :=
  match f with
  | O => PFuel
  | S f =>
      pbind (p_exec f ts) (fun c ts =>
        if starts [124] ts then pbind (p_pipe f (tail ts)) (fun r ts => POk (CPipe c r) ts) else POk c ts)
  end
with p_block (f : nat) (ts : list token) : result cmd :=
  match f with
  | O => PFuel
  | S f =>
      if negb (starts [40] ts) then PErr "parseblock"
      else pbind (p_line f (tail ts)) (fun c ts =>
        if negb (starts [41] ts) then PErr "syntax - missing )"
        else pbind (p_redirs f (tail ts)) (fun rs ts => POk (wrap c rs) ts))
  end
with p_exec (f : nat) (ts : list token) : result cmd :=
  match f with
  | O => PFuel
  | S f =>
      if starts [40] ts then p_block f ts
      else pbind (p_redirs f ts) (fun rs ts => p_args f [] rs ts)
  end.

(** ** Trees in the heap *)

Definition nodeof (h : list node) (p : Z) (n : node) : Prop := 0 < p /\ h !! Z.to_nat (p - 1) = Some n.

(** The tree [t] at [p]; [W w q eq] says how a word [w] lies between the pointers [q] and [eq]. *)
Section Tree.
Context (W : list Z -> Z -> Z -> Prop).

(** The first entries of the two arrays are the words [ws]. *)
Record args_at (ws : list (list Z)) (argv eargv : list Z) : Prop := mkArgsAt {
  aa_len : length argv = 10%nat /\ length eargv = 10%nat;
  aa_words : forall i w, ws !! i = Some w -> exists q eq, argv !! i = Some q /\ eargv !! i = Some eq /\ W w q eq;
}.

Fixpoint tree (h : list node) (p : Z) (t : cmd) : Prop :=
  match t with
  | CExec ws => exists argv eargv, nodeof h p (Nexec argv eargv) /\ args_at ws argv eargv /\ argv !! length ws = Some 0
  | CRedir c w mode fd => exists p1 q eq, nodeof h p (Nredir p1 q eq mode fd) /\ p1 < p /\ W w q eq /\ tree h p1 c
  | CPipe l r => exists p1 p2, nodeof h p (Npipe p1 p2) /\ p1 < p /\ p2 < p /\ tree h p1 l /\ tree h p2 r
  | CList l r => exists p1 p2, nodeof h p (Nlist p1 p2) /\ p1 < p /\ p2 < p /\ tree h p1 l /\ tree h p2 r
  | CBack c => exists p1, nodeof h p (Nback p1) /\ p1 < p /\ tree h p1 c
  end.
End Tree.

(** The tree while the line is parsed. *)
Definition repr (h : list node) (m : mem) (p : Z) (t : cmd) : Prop := tree (word_at m) h p t.

(** [r] is [cmd] with the redirections [rs] around it. *)
Inductive wraps (h : list node) (m : mem) (cmd : Z) : Z -> list redir -> Prop :=
| wraps_nil : wraps h m cmd cmd []
| wraps_snoc r r' rs w mode fd q eq : wraps h m cmd r rs -> nodeof h r' (Nredir r q eq mode fd) -> r < r' -> word_at m w q eq ->
    wraps h m cmd r' (rs ++ [(w, mode, fd)]).

Lemma nodeof_app h h' p n : nodeof h p n -> nodeof (h ++ h') p n.
Proof. intros [H1 H2]. split; [done|]. by apply lookup_app_l_Some. Qed.

Lemma repr_app h h' m p t : repr h m p t -> repr (h ++ h') m p t.
Proof. unfold repr. revert p. induction t; intros p H; cbn in *; naive_solver eauto using nodeof_app. Qed.

Lemma repr_bound h m p t : repr h m p t -> 0 < p <= Z.of_nat (length h).
Proof.
  intros H. assert (H' : exists n, nodeof h p n) by (unfold repr in H; destruct t; cbn in H; naive_solver). destruct H' as (n & H1 & H2%lookup_lt_Some). lia.
Qed.

Lemma wraps_app h h' m cmd r rs : wraps h m cmd r rs -> wraps (h ++ h') m cmd r rs.
Proof. induction 1; [constructor|]. econstructor; eauto using nodeof_app. Qed.

Lemma wraps_trans h m a b c rs rs' : wraps h m a b rs -> wraps h m b c rs' -> wraps h m a c (rs ++ rs').
Proof. intros H. induction 1; [by rewrite app_nil_r|]. rewrite app_assoc. econstructor; eauto. Qed.

Lemma wraps_le h m cmd r rs : wraps h m cmd r rs -> cmd <= r.
Proof. induction 1; lia. Qed.

Lemma wraps_bound h m cmd r rs n : wraps h m cmd r rs -> nodeof h cmd n -> 0 < r <= Z.of_nat (length h).
Proof.
  intros H Hn. assert (Hr : exists n', nodeof h r n') by (destruct H; eauto). destruct Hr as (n' & H1 & H2%lookup_lt_Some). lia.
Qed.

Lemma wraps_insert h m cmd r rs n : 0 < cmd -> wraps h m cmd r rs -> wraps (<[Z.to_nat (cmd - 1) := n]> h) m cmd r rs.
Proof.
  intros Hc. induction 1 as [|r r' rs w mode fd q eq Hw IH [H1 H2] Hlt Hat]; [constructor|]. econstructor; [done| |done|done].
  split; [done|]. apply wraps_le in Hw. by rewrite list_lookup_insert_ne by lia.
Qed.

Lemma repr_wraps h m cmd r rs t : wraps h m cmd r rs -> repr h m cmd t -> repr h m r (wrap t rs).
Proof.
  intros H Ht. induction H as [|r r' rs w mode fd q eq Hw IH Hn Hlt Hat]; [done|]. unfold wrap. rewrite foldl_app. cbn. by exists r, q, eq.
Qed.

(** What a piece of the parser does, started at the tokens [ts], if it does what [r] says: the
    heap [h0] stays, other nodes are added to it, and [slack] nodes and two for each token
    taken are enough. *)
Definition sim {A} (h0 : list node) (es : Z) (ts : list token) (m : M shell Z) (r : result A) (slack : nat)
    (post : list node -> mem -> Z -> A -> Prop) (th : thread) (s : shell) : Prop :=
  match r with
  | POk a rest => exists p s', m th s = Ok p th s' /\ sh_buf s' = sh_buf s /\ at_toks es rest s' /\ h0 `prefix_of` sh_heap s' /\
      post (sh_heap s') (sh_buf s) p a /\ (length (sh_heap s') + sh_room s' = length (sh_heap s) + sh_room s)%nat /\
      (length (sh_heap s') + 2 * length rest <= length (sh_heap s) + 2 * length ts + slack)%nat
  | PErr msg => m th s = Panic msg
  | PFuel => m th s = OutOfFuel
  end.

Lemma bind_fuel {S A B} (m : M S A) (k : A -> M S B) th s : m th s = OutOfFuel -> bind m k th s = OutOfFuel.
Proof. unfold bind. by intros ->. Qed.

Lemma sim_prefix {A} h0 h1 es ts m (r : result A) n post th s : h0 `prefix_of` h1 -> sim h1 es ts m r n post th s -> sim h0 es ts m r n post th s.
Proof. intros Hh. unfold sim. destruct r as [a rest|msg|]; [|done..]. intros (p & s' & H1 & H2 & H3 & H4 & H5 & H6 & H7). exists p, s'. split_and!; try done. by etrans. Qed.

(** There is memory for what the tokens [ts] can need. *)
Definition enough (ts : list token) (n : nat) (s : shell) : Prop := (2 * length ts + n <= sh_room s)%nat.

(** Sequencing. *)
Lemma sim_bind {A B} n n' h0 es ts (m : M shell Z) (k : Z -> M shell Z) (r : result A) (kr : A -> list token -> result B) post post' th s :
  enough ts (n + n') s -> sim h0 es ts m r n post th s ->
  (forall p a rest s1, r = POk a rest -> sh_buf s1 = sh_buf s -> at_toks es rest s1 -> h0 `prefix_of` sh_heap s1 ->
     post (sh_heap s1) (sh_buf s1) p a -> enough rest n' s1 -> sim h0 es rest (k p) (kr a rest) n' post' th s1) ->
  sim h0 es ts (bind m k) (pbind r kr) (n + n') post' th s.
Proof.
  unfold enough. intros Hr0 H Hk. destruct r as [a rest|msg|]; cbn [pbind]; [|by apply bind_panic|by apply bind_fuel].
  destruct H as (p & s1 & E & Hb & Ht & Hh & Hp & Hr & Hl). unfold sim. rewrite (bind_ok _ _ _ _ _ _ _ E). rewrite <- Hb in Hp.
  specialize (Hk p a rest s1 eq_refl Hb Ht Hh Hp ltac:(lia)). unfold sim in Hk. destruct (kr a rest) as [b rest'|msg|]; [|done..].
  destruct Hk as (p' & s2 & E' & Hb' & Ht' & Hh' & Hp' & Hr' & Hl'). exists p', s2. rewrite <- Hb. split_and!; try done; lia.
Qed.

(** A result that only changes its shape. *)
Lemma sim_map {A B} h0 es ts m (r : result A) (g : A -> B) n (post : list node -> mem -> Z -> A -> Prop) (post' : list node -> mem -> Z -> B -> Prop) th s :
  sim h0 es ts m r n post th s -> (forall h p a, h0 `prefix_of` h -> post h (sh_buf s) p a -> post' h (sh_buf s) p (g a)) ->
  sim h0 es ts m (pbind r (fun a rest => POk (g a) rest)) n post' th s.
Proof. intros H Hg. destruct r as [a rest|msg|]; [|done..]. destruct H as (p & s' & H1 & H2 & H3 & H4 & H5 & H6 & H7). exists p, s'. split_and!; try done. by apply Hg. Qed.

(** Looking at the next token. *)
Lemma sim_peek {A} h0 es cs ts (k : bool -> M shell Z) (r : result A) n post th s :
  at_toks es ts s -> (forall p, at_toks es ts (set_ps p s) -> sim h0 es ts (k (starts cs ts)) r n post th (set_ps p s)) ->
  sim h0 es ts (bind (peek es cs) k) r n post th s.
Proof. intros Ht Hk. destruct (peek_ok es cs ts th s Ht) as (p & E & Ht'). specialize (Hk p Ht'). unfold sim in *. by rewrite (bind_ok _ _ _ _ _ _ _ E). Qed.

(** Taking a token frees the memory set aside for it. *)
Lemma sim_gettoken {A} n' h0 es t ts (k : Z * Z * Z -> M shell Z) (r : result A) n post th s :
  at_toks es (t :: ts) s -> enough (t :: ts) n s -> (n' <= n + 2)%nat ->
  (forall p q eq, at_toks es ts (set_ps p s) -> enough ts n' (set_ps p s) -> token_at (sh_buf s) t q eq -> token_ok t ->
     sim h0 es ts (k (code t, q, eq)) r n' post th (set_ps p s)) ->
  sim h0 es (t :: ts) (bind (gettoken es) k) r n post th s.
Proof.
  intros Ht Hen Hn Hk. destruct (gettoken_cons es t ts th s Ht) as (q & eq & p & E & Ht' & Hw & Hok).
  assert (Hen' : enough ts n' (set_ps p s)) by (unfold enough in *; cbn in *; lia). specialize (Hk p q eq Ht' Hen' Hw Hok). unfold sim in *.
  rewrite (bind_ok _ _ _ _ _ _ _ E). destruct r as [a rest|msg|]; [|done..]. destruct Hk as (p' & s' & H1 & H2 & H3 & H4 & H5 & H6 & H7).
  exists p', s'. cbn in *. split_and!; try done. lia.
Qed.

Lemma sim_gettoken_nil {A} h0 es (k : Z * Z * Z -> M shell Z) (r : result A) n post th s :
  at_toks es [] s -> (forall p q eq, at_toks es [] (set_ps p s) -> sim h0 es [] (k (0, q, eq)) r n post th (set_ps p s)) ->
  sim h0 es [] (bind (gettoken es) k) r n post th s.
Proof. intros Ht Hk. destruct (gettoken_nil es th s Ht) as (q & eq & p & E & Ht'). specialize (Hk p q eq Ht'). unfold sim in *. by rewrite (bind_ok _ _ _ _ _ _ _ E). Qed.

(** Allocating a node. *)
Lemma sim_alloc {A} h0 es ts nd (r : A) n (post : list node -> mem -> Z -> A -> Prop) th s :
  at_toks es ts s -> enough ts n s -> (0 < n)%nat -> h0 `prefix_of` sh_heap s -> post (sh_heap s ++ [nd]) (sh_buf s) (Z.of_nat (S (length (sh_heap s)))) r ->
  sim h0 es ts (alloc_node nd) (POk r ts) n post th s.
Proof.
  unfold enough. intros Ht Hen Hn Hh Hp. unfold sim, alloc_node. destruct (sh_room s) as [|room] eqn:E; [lia|]. eexists _, _. split; [reflexivity|]. cbn.
  rewrite length_app. cbn. split_and!; try done; [by apply prefix_app_r|lia|lia].
Qed.

Lemma sim_ret {A} h0 es ts p (r : A) n (post : list node -> mem -> Z -> A -> Prop) th s :
  at_toks es ts s -> h0 `prefix_of` sh_heap s -> post (sh_heap s) (sh_buf s) p r -> sim h0 es ts (ret p) (POk r ts) n post th s.
Proof. intros Ht Hh Hp. exists p, s. split_and!; try done. lia. Qed.

(** A store into a node. *)
Lemma sim_store {A} h0 es ts (m : M shell unit) (k : M shell Z) (r : result A) n post th s s1 :
  m th s = Ok tt th s1 -> sh_buf s1 = sh_buf s -> length (sh_heap s1) = length (sh_heap s) -> sh_room s1 = sh_room s ->
  sim h0 es ts k r n post th s1 -> sim h0 es ts (m;;; k) r n post th s.
Proof. intros E Hb Hl Hr. unfold sim. rewrite (bind_ok _ _ _ _ _ _ _ E). by rewrite Hb, Hl, Hr. Qed.

Lemma nodeof_new h n : nodeof (h ++ [n]) (Z.of_nat (S (length h))) n.
Proof. split; [lia|]. replace (Z.to_nat (Z.of_nat (S (length h)) - 1)) with (length h) by lia. by rewrite list_lookup_middle. Qed.

(** ** The parser does what the token parser does *)

Lemma starts_redir t ts : token_ok t -> starts [60; 62] (t :: ts) = true -> t = TSym 60 \/ t = TSym 62 \/ t = TAppend.
Proof.
  unfold starts, in_chars. rewrite bool_decide_eq_true, list_elem_of_In. intros Ht H. destruct t as [w|c|]; cbn in *; [|intuition congruence|tauto].
  destruct Ht as (c & w' & -> & Hc). apply word_char_nonsymbol in Hc as [Hc Hgt]. cbn in *. unfold in_chars in Hc. apply bool_decide_eq_false in Hc.
  rewrite list_elem_of_In in Hc. cbn in Hc. lia.
Qed.

Lemma parseredirs_sim f : forall es ts cmd th s, at_toks es ts s -> enough ts 0 s ->
  sim (sh_heap s) es ts (parseredirs f cmd es) (p_redirs f ts) 0 (fun h m p rs => 0 < cmd <= Z.of_nat (length (sh_heap s)) -> wraps h m cmd p rs) th s.
Proof.
  induction f as [|f IH]; intros es ts cmd th s Ht Hen; [done|]. cbn [parseredirs p_redirs]. apply sim_peek; [done|]. intros p Hp.
  destruct (starts [60; 62] ts) eqn:Hst; [|apply sim_ret; [done|done|intros _; constructor]].
  destruct ts as [|t ts]; [done|]. apply (sim_gettoken 0); [done|done|lia|]. intros p1 q1 eq1 Hp1 Hen1 _ Htok.
  destruct ts as [|t2 ts].
  { by apply sim_gettoken_nil. }
  apply (sim_gettoken 1); [done|done|lia|]. intros p2 q eq Hp2 Hen2 Hw Htok2. cbn [fst snd].
  destruct t2 as [w|c|]; [|by destruct (Z.eqb_spec (code (TSym c)) 97) as [Hc|]; [cbn in Htok2, Hc; subst c; rewrite list_elem_of_In in Htok2; cbn in Htok2; lia|]|done].
  change (code (TWord w) =? 97) with true. cbn [negb]. set (s2 := set_ps p2 _) in *.
  assert (Esw : (if code t =? 60 then redircmd cmd q eq O_RDONLY 0 else if code t =? 62 then redircmd cmd q eq (Z.lor (Z.lor O_WRONLY O_CREATE) O_TRUNC) 1
      else if code t =? 43 then redircmd cmd q eq (Z.lor O_WRONLY O_CREATE) 1 else ret cmd) = alloc_node (Nredir cmd q eq (snd (fst (redir_of t w))) (snd (redir_of t w))) /\
      fst (fst (redir_of t w)) = w).
  { by destruct (starts_redir t _ Htok Hst) as [-> | [-> | ->]]. }
  destruct Esw as [-> Ew]. destruct (redir_of t w) as [[w' mode] fd]. cbn [fst snd] in *. subst w'.
  apply (sim_bind 1 0 _ es ts _ _ (POk (w, mode, fd) ts) (fun r ts => pbind (p_redirs f ts) (fun rs rest => POk (r :: rs) rest))
    (fun h m p r => 0 < cmd <= Z.of_nat (length (sh_heap s)) -> wraps h m cmd p [r] /\ 0 < p <= Z.of_nat (length h))); [done|..].
  - apply sim_alloc; [done|done|lia|done|]. intros Hc. split; [|rewrite length_app; cbn; lia]. eapply (wraps_snoc _ _ _ cmd _ []); [constructor|apply nodeof_new|cbn; lia|done].
  - intros p3 r rest s3 [= <- <-] Hb3 Ht3 Hh3 Hw3 Hen3. apply (sim_prefix _ (sh_heap s3)); [done|]. eapply sim_map; [by apply IH|].
    intros h p4 rs Hh Hwr Hc. destruct (Hw3 Hc) as [Hw4 Hp3]. apply (wraps_trans _ _ _ p3 _ [(w, mode, fd)]); [|by apply Hwr]. destruct Hh as [h' ->]. by apply wraps_app.
Qed.

Lemma set_arg_ok cmd i q eq argv eargv th s : nodeof (sh_heap s) cmd (Nexec argv eargv) -> i < MAXARGS ->
  set_arg cmd i q eq th s =
    Ok tt th (set_heap (<[Z.to_nat (cmd - 1) := Nexec (<[Z.to_nat i := q]> argv) (<[Z.to_nat i := eq]> eargv)]> (sh_heap s)) s).
Proof. intros [_ H] Hi. unfold set_arg. rewrite (bind_ok get _ th s s th s eq_refl), H. by rewrite (proj2 (Z.ltb_lt i MAXARGS) Hi). Qed.

(** An [execcmd] that has got the words [ws], with the redirections [rs] around it. *)
Definition building (cmd r : Z) (ws : list (list Z)) (rs : list redir) (s : shell) : Prop :=
  (length ws < 10)%nat /\ wraps (sh_heap s) (sh_buf s) cmd r rs /\
  exists argv eargv, nodeof (sh_heap s) cmd (Nexec argv eargv) /\ args_at (word_at (sh_buf s)) ws argv eargv.

Lemma insert_nodeof h p n n' : nodeof h p n -> nodeof (<[Z.to_nat (p - 1) := n']> h) p n'.
Proof. intros [H1 H2]. split; [done|]. by apply (lookup_insert_Some_eq _ _ _ n). Qed.

Lemma insert_prefix (h0 h : list node) i n : h0 `prefix_of` h -> (length h0 <= i)%nat -> h0 `prefix_of` <[i := n]> h.
Proof. intros [h' ->] Hi. rewrite insert_app_r_alt by done. by apply prefix_app_r. Qed.

(** The end of the arguments. *)
Lemma args_end_sim h0 es ts cmd r ws rs th s : at_toks es ts s -> building cmd r ws rs s -> h0 `prefix_of` sh_heap s -> Z.of_nat (length h0) < cmd ->
  sim h0 es ts (set_arg cmd (Z.of_nat (length ws)) 0 0;;; ret r) (POk (wrap (CExec ws) rs) ts) 0 repr th s.
Proof.
  intros Ht (Hlen & Hw & argv & eargv & Hn & [[Ha1 Ha2] Hargs]) Hh Hcmd.
  eexists r, _. rewrite (bind_ok _ _ _ _ _ _ _ (set_arg_ok cmd (Z.of_nat (length ws)) 0 0 argv eargv th s Hn ltac:(unfold MAXARGS; lia))). split; [reflexivity|].
  cbn [set_heap sh_buf sh_ps sh_heap sh_room]. rewrite Nat2Z.id, length_insert. split_and!; try done; [by apply insert_prefix; [|lia]| |lia].
  apply (repr_wraps _ _ cmd); [apply wraps_insert; [apply Hn|done]|]. eexists _, _. split; [by eapply insert_nodeof|]. split; [|apply list_lookup_insert_eq; lia].
  split; [by rewrite !length_insert|]. intros i w Hi. pose proof (lookup_lt_Some _ _ _ Hi). destruct (Hargs i w Hi) as (q & eq & H1 & H2 & H3). exists q, eq.
  rewrite !list_lookup_insert_ne by lia. done.
Qed.

(** One more argument. *)
Lemma building_arg cmd r ws rs w q eq s : building cmd r ws rs s -> (length ws + 1 < 10)%nat -> word_at (sh_buf s) w q eq ->
  exists h', (forall th, set_arg cmd (Z.of_nat (length ws)) q eq th s = Ok tt th (set_heap h' s)) /\ building cmd r (ws ++ [w]) rs (set_heap h' s) /\
    length h' = length (sh_heap s) /\ forall h0, h0 `prefix_of` sh_heap s -> Z.of_nat (length h0) < cmd -> h0 `prefix_of` h'.
Proof.
  intros (Hlen & Hw & argv & eargv & Hn & [[Ha1 Ha2] Hargs]) Hl Hword. eexists. split; [intros th; apply set_arg_ok; [done|unfold MAXARGS; lia]|]. split; [|split; [apply length_insert|]].
  - split; [rewrite length_app; cbn; lia|]. split; [apply wraps_insert; [apply Hn|done]|]. eexists _, _. split; [by eapply insert_nodeof|]. rewrite !Nat2Z.id.
    split; [by rewrite !length_insert|]. intros i w' Hi. apply lookup_app_Some in Hi as [Hi|[Hle Hi]].
    + pose proof (lookup_lt_Some _ _ _ Hi). rewrite !list_lookup_insert_ne by lia. by apply Hargs.
    + apply list_lookup_singleton_Some in Hi as [Hi ->]. replace i with (length ws) by lia. exists q, eq. rewrite !list_lookup_insert_eq by lia. done.
  - intros h0 Hh Hc. apply insert_prefix; [done|lia].
Qed.

Lemma parseargs_sim f : forall h0 es ts cmd r ws rs th s, at_toks es ts s -> enough ts 0 s -> building cmd r ws rs s ->
  h0 `prefix_of` sh_heap s -> Z.of_nat (length h0) < cmd ->
  sim h0 es ts (parseargs f cmd r (Z.of_nat (length ws)) es) (p_args f ws rs ts) 0 repr th s.
Proof.
  induction f as [|f IH]; intros h0 es ts cmd r ws rs th s Ht Hen Hb Hh Hc; [done|]. cbn [parseargs p_args]. apply sim_peek; [done|]. intros p Hp.
  destruct (starts [124; 41; 38; 59] ts) eqn:Hst; [by apply args_end_sim|]. destruct ts as [|t ts].
  { apply sim_gettoken_nil; [done|]. intros p2 q eq Hp2. by apply args_end_sim. }
  apply (sim_gettoken 0); [done|done|lia|]. intros p1 q eq Hp1 Hen1 Hw Htok. cbn [fst snd]. set (s1 := set_ps p1 _) in *.
  destruct t as [w|c|]; [|cbn in Htok; rewrite list_elem_of_In in Htok; cbn in Htok; cbn [code]; rewrite (proj2 (Z.eqb_neq c 0)), (proj2 (Z.eqb_neq c 97)) by lia; done|done].
  change (code (TWord w) =? 97) with true. change (code (TWord w) =? 0) with false. cbn [negb]. rewrite Z.geb_leb.
  destruct (Z.leb_spec MAXARGS (Z.of_nat (length ws) + 1)) as [Hm|Hm].
  { destruct Hb as (Hlen & _ & argv & eargv & Hn & _). unfold sim. by rewrite (bind_ok _ _ _ _ _ _ _ (set_arg_ok cmd (Z.of_nat (length ws)) q eq argv eargv th s1 Hn ltac:(unfold MAXARGS in *; lia))). }
  destruct (building_arg cmd r ws rs w q eq s1 Hb) as (h' & E & Hb' & Hlen & Hpre); [unfold MAXARGS in Hm; lia|done|].
  eapply sim_store; [apply E|done|done|done|]. set (s2 := set_heap h' s1) in *.
  apply (sim_bind 0 0 _ _ _ _ _ _ _ (fun h m p rs' => exists new, h = sh_heap s2 ++ new /\ wraps h m r p rs')); [done|..].
  - apply (sim_prefix _ (sh_heap s2)); [by apply Hpre|]. pose proof (parseredirs_sim f es ts r th s2 Hp1 Hen1) as Hr. unfold sim in *. destruct (p_redirs f ts) as [rs' rest|msg|]; [|done..].
    destruct Hr as (p3 & s3 & R1 & R2 & R3 & R4 & R5 & R6 & R7). exists p3, s3. split_and!; try done. destruct R4 as [new Hnew]. exists new. split; [done|]. apply R5.
    destruct Hb' as (_ & Hw' & argv & eargv & Hn' & _). by eapply wraps_bound.
  - intros p3 rs' rest s3 _ Hb3 Ht3 Hh3 (new & Hnew & Hwr) Hen3. replace (Z.of_nat (length ws) + 1) with (Z.of_nat (length (ws ++ [w]))) by (rewrite length_app; cbn; lia).
    apply IH; try done. destruct Hb' as (Hl' & Hw' & argv & eargv & Hn' & Ha'). rewrite Hnew in Hwr. unfold building. rewrite Hb3 in Hwr |- *. split; [done|]. rewrite Hnew. split; [apply (wraps_trans _ _ _ r); [by apply wraps_app|done]|].
    exists argv, eargv. split; [by apply nodeof_app|done].
Qed.

Lemma parseback_sim f : forall es ts cmd c th s, at_toks es ts s -> enough ts 0 s -> repr (sh_heap s) (sh_buf s) cmd c ->
  sim (sh_heap s) es ts (parseback f cmd es) (p_back f c ts) 0 repr th s.
Proof.
  induction f as [|f IH]; intros es ts cmd c th s Ht Hen Hr; [done|]. cbn [parseback p_back]. apply sim_peek; [done|]. intros p Hp.
  destruct (starts [38] ts) eqn:Hst; [|by apply sim_ret]. destruct ts as [|t ts]; [done|]. apply (sim_gettoken 1); [done|done|lia|]. intros p1 q1 eq1 Hp1 Hen1 _ _.
  set (s1 := set_ps p1 _) in *. apply (sim_bind 1 0 _ es ts _ _ (POk (CBack c) ts) (fun c ts => p_back f c ts) repr); [done|..].
  - apply sim_alloc; [done|done|lia|done|]. exists cmd. split; [apply nodeof_new|]. split; [apply repr_bound in Hr; cbn; lia|by apply repr_app].
  - intros p3 r rest s3 [= <- <-] Hb3 Ht3 Hh3 Hr3 Hen3. apply (sim_prefix _ (sh_heap s3)); [done|]. by apply IH.
Qed.

Definition parses (f : nat) (m : nat -> Z -> M shell Z) (p : nat -> list token -> result cmd) : Prop :=
  forall es ts th s, at_toks es ts s -> enough ts 1 s -> sim (sh_heap s) es ts (m f es) (p f ts) 1 repr th s.

(** A binary node after its left part: the operator, the right part, the node. *)
Lemma operator_sim f mk nd (m : nat -> Z -> M shell Z) p c cmd es t ts th s :
  parses f m p -> at_toks es (t :: ts) s -> enough (t :: ts) 0 s -> repr (sh_heap s) (sh_buf s) cmd c ->
  (forall h b p1 p2 q l r, nodeof h q (nd p1 p2) -> p1 < q -> p2 < q -> repr h b p1 l -> repr h b p2 r -> repr h b q (mk l r)) ->
  sim (sh_heap s) es (t :: ts) (gettoken es;;; let! rhs := m f es in alloc_node (nd cmd rhs)) (pbind (p f ts) (fun r ts => POk (mk c r) ts)) 0 repr th s.
Proof.
  intros Hm Ht Hen Hr Hmk. apply (sim_gettoken 2); [done|done|lia|]. intros p1 q1 eq1 Hp1 Hen1 _ _. set (s1 := set_ps p1 _) in *.
  apply (sim_bind 1 1 _ _ _ _ _ _ _ repr); [done|refine (Hm es ts th s1 Hp1 _); unfold enough in *; cbn in *; lia|].
  intros p3 r rest s3 _ Hb3 Ht3 Hh3 Hr3 Hen3. apply sim_alloc; [done|done|lia|done|]. destruct Hh3 as [new Hnew].
  pose proof (repr_bound _ _ _ _ Hr). pose proof (repr_bound _ _ _ _ Hr3). rewrite Hnew in *. change (sh_heap s1) with (sh_heap s) in *. rewrite Hb3 in *. change (sh_buf s1) with (sh_buf s) in *.
  eapply Hmk; [apply nodeof_new|rewrite length_app; lia|lia|by apply repr_app, repr_app|by apply repr_app].
Qed.

Lemma parse_sim f : parses f parseline p_line /\ parses f parsepipe p_pipe /\ parses f parseblock p_block /\ parses f parseexec p_exec.
Proof.
  induction f as [|f (IHl & IHp & IHb & IHe)]; [by split_and!|]. split_and!; intros es ts th s Ht Hen; cbn [parseline p_line parsepipe p_pipe parseblock p_block parseexec p_exec].
  - apply (sim_bind 1 0 _ _ _ _ _ _ _ repr); [done|by apply IHp|]. intros p1 c1 ts1 s1 _ Hb1 Ht1 Hh1 Hr1 Hen1.
    apply (sim_bind 0 0 _ _ _ _ _ _ _ repr); [done|apply (sim_prefix _ (sh_heap s1)); [done|by apply parseback_sim]|]. intros p2 c2 ts2 s2 _ Hb2 Ht2 Hh2 Hr2 Hen2.
    apply sim_peek; [done|]. intros p3 Hp3. destruct (starts [59] ts2) eqn:Hst; [|by apply sim_ret]. destruct ts2 as [|t ts2]; [done|].
    apply (sim_prefix _ (sh_heap s2)); [done|]. apply (operator_sim f CList Nlist parseline p_line c2 p2 es t ts2 th (set_ps p3 s2)); try done. intros. by exists p0, p4.
  - apply (sim_bind 1 0 _ _ _ _ _ _ _ repr); [done|by apply IHe|]. intros p1 c1 ts1 s1 _ Hb1 Ht1 Hh1 Hr1 Hen1.
    apply sim_peek; [done|]. intros p3 Hp3. destruct (starts [124] ts1) eqn:Hst; [|by apply sim_ret]. destruct ts1 as [|t ts1]; [done|].
    apply (sim_prefix _ (sh_heap s1)); [done|]. apply (operator_sim f CPipe Npipe parsepipe p_pipe c1 p1 es t ts1 th (set_ps p3 s1)); try done. intros. by exists p0, p2.
  - apply sim_peek; [done|]. intros p Hp. destruct (starts [40] ts) eqn:Hst; [|done]. destruct ts as [|t ts]; [done|]. cbn [negb tail].
    apply (sim_gettoken 1); [done|done|lia|]. intros p1 q1 eq1 Hp1 Hen1 _ _. set (s1 := set_ps p1 _) in *.
    apply (sim_bind 1 0 _ _ _ _ _ _ _ repr); [done|exact (IHl es ts th s1 Hp1 Hen1)|]. intros p2 c2 ts2 s2 _ Hb2 Ht2 Hh2 Hr2 Hen2.
    apply sim_peek; [done|]. intros p3 Hp3. destruct (starts [41] ts2) eqn:Hst2; [|done]. destruct ts2 as [|t2 ts2]; [done|]. cbn [negb tail].
    apply (sim_gettoken 0); [done|done|lia|]. intros p4 q4 eq4 Hp4 Hen4 _ _. set (s4 := set_ps p4 _) in *.
    apply (sim_prefix _ (sh_heap s4)); [done|]. eapply sim_map; [by apply parseredirs_sim|]. intros h q rs [h' ->] Hw. pose proof (repr_bound _ _ _ _ Hr2).
    apply (repr_wraps _ _ p2); [by apply Hw|by apply repr_app].
  - apply sim_peek; [done|]. intros p Hp. destruct (starts [40] ts) eqn:Hst; [exact (IHb es ts th (set_ps p s) Hp Hen)|]. set (s1 := set_ps p s) in *.
    apply (sim_bind 1 0 _ es ts _ _ (POk tt ts) (fun _ ts => pbind (p_redirs f ts) (fun rs ts => p_args f [] rs ts))
      (fun h m p _ => h = sh_heap s ++ [Nexec (replicate 10 0) (replicate 10 0)] /\ p = Z.of_nat (S (length (sh_heap s))))); [done|by apply sim_alloc; [..|lia| |]|].
    intros cmd [] rest s2 [= <-] Hb2 Ht2 Hh2 [Hh Hc] Hen2. assert (Hn : nodeof (sh_heap s2) cmd (Nexec (replicate 10 0) (replicate 10 0))) by (rewrite Hh, Hc; apply nodeof_new).
    apply (sim_bind 0 0 _ _ _ _ _ _ _ (fun h m p rs => sh_heap s2 `prefix_of` h /\ wraps h m cmd p rs)); [done|..].
    + apply (sim_prefix _ (sh_heap s2)); [done|]. pose proof (parseredirs_sim f es ts cmd th s2 Ht2 Hen2) as Hr. unfold sim in *. destruct (p_redirs f ts) as [rs' rest|msg|]; [|done..].
      destruct Hr as (p3 & s3 & R1 & R2 & R3 & R4 & R5 & R6 & R7). exists p3, s3. split_and!; try done. apply R5. rewrite Hh, Hc, length_app. cbn. lia.
    + intros p3 rs rest s3 _ Hb3 Ht3 Hh3 [[new Hnew] Hw] Hen3. apply (parseargs_sim f _ es rest cmd p3 []); try done; [|rewrite Hc; change (sh_heap s1) with (sh_heap s); lia].
      split; [cbn; lia|]. split; [done|]. eexists _, _. split; [rewrite Hnew; by apply nodeof_app|]. by split.
Qed.

(** ** Terminating the words *)

(** Only bytes outside words are changed, to NUL. *)
Definition cut (m m' : mem) : Prop := forall a, mget m' a = mget m a \/ (mget m' a = 0 /\ (mget m a = 0 \/ word_char (mget m a) = false)).

(** A word that has been terminated. *)
Definition ended (m : mem) (w : list Z) (q eq : Z) : Prop := word_at m w q eq /\ mget m eq = 0.

#[local] Instance cut_preorder : PreOrder cut.
Proof.
  split; [intros m a; by left|]. intros m m' m'' H H' a. destruct (H a) as [E|[E Hn]], (H' a) as [E'|[E' Hn']]; rewrite ?E in *; [left; done|right; done|right; split; [congruence|done]|by right].
Qed.

Lemma word_at_cut m m' w q eq : cut m m' -> word_at m w q eq -> word_at m' w q eq.
Proof.
  intros Hc (H1 & H2 & -> & H3 & H4). split; [done|]. split; [|split; [done|]; split; [done|]].
  - rewrite <- H2 at 2. apply bytes_ext. intros i Hi. destruct (Hc (q + i)) as [E|[_ E]]; [done|]. exfalso.
    assert (Hl : w !! Z.to_nat i = Some (mget m (q + i))) by (rewrite <- H2 at 1; rewrite bytes_lookup by lia; do 2 f_equal; lia).
    apply (Forall_lookup_1 _ _ _ _ H3) in Hl as [Hl Hnz]. destruct E; congruence.
  - destruct (Hc (q + Z.of_nat (length w))) as [->|[-> _]]; [done|by left].
Qed.

Lemma ended_cut m m' w q eq : cut m m' -> ended m w q eq -> ended m' w q eq.
Proof. intros Hc [H1 H2]. split; [by eapply word_at_cut|]. destruct (Hc eq) as [E|[E _]]; congruence. Qed.

Lemma cut_end m w q eq : word_at m w q eq -> cut m (mset m eq 0) /\ ended (mset m eq 0) w q eq.
Proof.
  intros Hw. assert (Hc : cut m (mset m eq 0)).
  { intros a. rewrite mget_mset. destruct (Z.eqb_spec a eq) as [->|]; [right; split; [done|apply Hw]|by left]. }
  split; [done|]. split; [by eapply word_at_cut|]. by rewrite mget_mset, Z.eqb_refl.
Qed.

Lemma ended_cstring m w q eq : ended m w q eq -> cstring m q w.
Proof. intros [(_ & H1 & -> & H2 & _) H3]. split; [done|]. split; [done|]. intros Hin. by destruct (proj1 (Forall_forall _ w) H2 0 Hin). Qed.

Lemma tree_mono (W W' : list Z -> Z -> Z -> Prop) h t : (forall w q eq, W w q eq -> W' w q eq) -> forall p, tree W h p t -> tree W' h p t.
Proof.
  intros HW. induction t as [ws| | | |]; intros p H; cbn in *; [|naive_solver..]. destruct H as (argv & eargv & Hn & [Hl Hw] & Hz). exists argv, eargv. split; [done|].
  split; [|done]. split; [done|]. intros i w Hi. destruct (Hw i w Hi) as (q & eq & ? & ? & ?). exists q, eq. auto.
Qed.

Lemma nul_args_ok ws : forall argv eargv m, length eargv = length argv -> argv !! length ws = Some 0 ->
  (forall i w, ws !! i = Some w -> exists q eq, argv !! i = Some q /\ eargv !! i = Some eq /\ word_at m w q eq) ->
  exists m', nul_args argv eargv m = Some m' /\ cut m m' /\
    forall i w, ws !! i = Some w -> exists q eq, argv !! i = Some q /\ eargv !! i = Some eq /\ ended m' w q eq.
Proof.
  induction ws as [|w ws IH]; intros argv eargv m Hl Hz Hw.
  - destruct argv as [|a argv], eargv as [|e eargv]; try done. cbn in Hz. injection Hz as ->. by exists m.
  - destruct (Hw 0%nat w eq_refl) as (q & eq & Hq & He & Hword). destruct argv as [|a argv], eargv as [|e eargv]; try done. cbn in Hq, He. injection Hq as ->. injection He as ->.
    destruct (cut_end m w q eq Hword) as [Hc Hend]. destruct (IH argv eargv (mset m eq 0)) as (m' & E & Hc' & Hw').
    + cbn in Hl. lia.
    + done.
    + intros i w' Hi. destruct (Hw (S i) w' Hi) as (q' & eq' & Hq' & He' & H'). exists q', eq'. split; [done|]. split; [done|]. by eapply word_at_cut.
    + exists m'. cbn [nul_args]. unfold ctrue. rewrite (proj2 (Z.eqb_neq q 0)) by (destruct Hword; lia). split; [done|]. split; [by etrans|].
      intros [|i] w' Hi; [injection Hi as <-; exists q, eq; split; [done|]; split; [done|]; by eapply ended_cut|by apply Hw'].
Qed.

Lemma nulterminate_ok t : forall f p th s, repr (sh_heap s) (sh_buf s) p t -> p <= Z.of_nat f ->
  exists m', nulterminate f p th s = Ok p th (set_buf m' s) /\ cut (sh_buf s) m' /\ tree (ended m') (sh_heap s) p t.
Proof.
  assert (Hcut : forall h p t m m', cut m m' -> repr h m p t -> repr h m' p t) by (intros h p t0 m m' Hc; apply tree_mono; intros w q eq; by apply word_at_cut).
  induction t as [ws|c IH w mode fd|l IHl r IHr|l IHl r IHr|c IH]; intros f p th s Hr Hf; (destruct f as [|f]; [apply repr_bound in Hr; lia|]);
    pose proof (repr_bound _ _ _ _ Hr) as Hp; cbn [nulterminate]; rewrite (proj2 (Z.eqb_neq p 0)), (bind_ok get _ th s s th s eq_refl) by lia; cbn [repr tree] in Hr.
  - destruct Hr as (argv & eargv & Hnd & [[Hl1 Hl2] Hw] & Hz). rewrite (proj2 Hnd). destruct (nul_args_ok ws argv eargv (sh_buf s)) as (m' & -> & Hc & Hw'); [lia|done|done|].
    exists m'. split; [done|]. split; [done|]. exists argv, eargv. split; [done|]. by split.
  - destruct Hr as (p1 & q & eq & Hnd & Hlt & Hw & Hr). rewrite (proj2 Hnd). destruct (IH f p1 th s Hr) as (m1 & E & Hc & Ht); [lia|]. rewrite (bind_ok _ _ _ _ _ _ _ E).
    destruct (cut_end m1 w q eq) as [Hc2 He]; [by eapply word_at_cut|]. exists (mset m1 eq 0). split; [done|]. split; [by etrans|]. exists p1, q, eq. split; [done|]. split; [done|]. split; [done|].
    apply (tree_mono (ended m1)); [|done]. intros w' q' eq'. by apply ended_cut.
  - destruct Hr as (p1 & p2 & Hnd & Hlt1 & Hlt2 & Hl & Hr). rewrite (proj2 Hnd). destruct (IHl f p1 th s Hl) as (m1 & E1 & Hc1 & Ht1); [lia|]. rewrite (bind_ok _ _ _ _ _ _ _ E1).
    destruct (IHr f p2 th (set_buf m1 s)) as (m2 & E2 & Hc2 & Ht2); [by eapply Hcut|lia|]. rewrite (bind_ok _ _ _ _ _ _ _ E2). exists m2. split; [done|]. split; [by etrans|].
    exists p1, p2. split_and!; try done. apply (tree_mono (ended m1)); [|done]. intros w' q' eq'. by apply ended_cut.
  - destruct Hr as (p1 & p2 & Hnd & Hlt1 & Hlt2 & Hl & Hr). rewrite (proj2 Hnd). destruct (IHl f p1 th s Hl) as (m1 & E1 & Hc1 & Ht1); [lia|]. rewrite (bind_ok _ _ _ _ _ _ _ E1).
    destruct (IHr f p2 th (set_buf m1 s)) as (m2 & E2 & Hc2 & Ht2); [by eapply Hcut|lia|]. rewrite (bind_ok _ _ _ _ _ _ _ E2). exists m2. split; [done|]. split; [by etrans|].
    exists p1, p2. split_and!; try done. apply (tree_mono (ended m1)); [|done]. intros w' q' eq'. by apply ended_cut.
  - destruct Hr as (p1 & Hnd & Hlt & Hr). rewrite (proj2 Hnd). destruct (IH f p1 th s Hr) as (m1 & E & Hc & Ht); [lia|]. rewrite (bind_ok _ _ _ _ _ _ _ E).
    exists m1. split; [done|]. split; [done|]. by exists p1.
Qed.

(** ** The grammar

    [line ::= pipe {&} \[; line\]], [pipe ::= exec \[| pipe\]],
    [exec ::= ( line ) {redir} | {redir} {word {redir}}] with fewer than ten words. *)

Definition is_redir (t : token) : Prop := t = TSym 60 \/ t = TSym 62 \/ t = TAppend.

Inductive g_redirs : list token -> list redir -> Prop :=
| gr_nil : g_redirs [] []
| gr_cons t w ts rs : is_redir t -> g_redirs ts rs -> g_redirs (t :: TWord w :: ts) (redir_of t w :: rs).

Inductive g_args : list token -> list (list Z) -> list redir -> Prop :=
| ga_nil : g_args [] [] []
| ga_cons w us rs ts ws rs' : g_redirs us rs -> g_args ts ws rs' -> g_args (TWord w :: us ++ ts) (w :: ws) (rs ++ rs').

Inductive g_line : list token -> cmd -> Prop :=
| gl_pipe ts c n : g_pipe ts c -> g_line (ts ++ replicate n (TSym 38)) (Nat.iter n CBack c)
| gl_list ts c n us d : g_pipe ts c -> g_line us d -> g_line (ts ++ replicate n (TSym 38) ++ TSym 59 :: us) (CList (Nat.iter n CBack c) d)
with g_pipe : list token -> cmd -> Prop :=
| gp_one ts c : g_exec ts c -> g_pipe ts c
| gp_cons ts c us d : g_exec ts c -> g_pipe us d -> g_pipe (ts ++ TSym 124 :: us) (CPipe c d)
with g_exec : list token -> cmd -> Prop :=
| ge_block ts c us rs : g_line ts c -> g_redirs us rs -> g_exec (TSym 40 :: ts ++ TSym 41 :: us) (wrap c rs)
| ge_simple us rs ts ws rs' : g_redirs us rs -> g_args ts ws rs' -> (length ws < 10)%nat -> g_exec (us ++ ts) (wrap (CExec ws) (rs ++ rs')).

Scheme g_line_mut := Induction for g_line Sort Prop
  with g_pipe_mut := Induction for g_pipe Sort Prop
  with g_exec_mut := Induction for g_exec Sort Prop.
Combined Scheme grammar_ind from g_line_mut, g_pipe_mut, g_exec_mut.

(** ** The token parser is sound *)

Notation toks_ok := (Forall token_ok).

Lemma starts_sym c t ts : token_ok t -> c ∈ [124; 40; 41; 59; 38] -> starts [c] (t :: ts) = true -> t = TSym c.
Proof.
  unfold starts, in_chars. rewrite bool_decide_eq_true, list_elem_of_singleton, list_elem_of_In. intros Ht Hc Hst. destruct t as [w|x|]; cbn in *; [|congruence|lia].
  destruct Ht as (x & w' & -> & Hx). cbn in Hst. subst x. apply word_char_nonsymbol in Hx as [Hx _]. unfold in_chars in Hx. apply bool_decide_eq_false in Hx.
  rewrite list_elem_of_In in Hx. cbn in Hx. lia.
Qed.

Lemma p_redirs_sound f : forall ts rs rest, toks_ok ts -> p_redirs f ts = POk rs rest ->
  exists us, ts = us ++ rest /\ g_redirs us rs /\ starts [60; 62] rest = false.
Proof.
  induction f as [|f IH]; intros ts rs rest Hok; cbn [p_redirs]; [done|]. destruct (starts [60; 62] ts) eqn:Hst.
  - destruct ts as [|t [|[w| |] ts]]; try done. destruct (p_redirs f ts) as [rs1 rest1| |] eqn:E; cbn [pbind]; [|done..]. intros [= <- <-].
    apply Forall_cons in Hok as [Ht Hok]. apply Forall_cons in Hok as [_ Hok]. destruct (IH ts rs1 rest1 Hok E) as (us & -> & Hus & Hr).
    exists (t :: TWord w :: us). split; [done|]. split; [|done]. constructor; [by apply (starts_redir t _ Ht Hst)|done].
  - intros [= <- <-]. exists []. split; [done|]. split; [constructor|done].
Qed.

Lemma p_args_sound f : forall ws rs ts t rest, toks_ok ts -> (length ws < 10)%nat -> p_args f ws rs ts = POk t rest ->
  exists us ws' rs', ts = us ++ rest /\ g_args us ws' rs' /\ t = wrap (CExec (ws ++ ws')) (rs ++ rs') /\ (length (ws ++ ws') < 10)%nat.
Proof.
  induction f as [|f IH]; intros ws rs ts t rest Hok Hlen; cbn [p_args]; [done|].
  assert (Hend : wrap (CExec ws) rs = t -> ts = rest -> exists us ws' rs', ts = us ++ rest /\ g_args us ws' rs' /\ t = wrap (CExec (ws ++ ws')) (rs ++ rs') /\ (length (ws ++ ws') < 10)%nat).
  { intros <- ->. exists [], [], []. rewrite !app_nil_r. split; [done|]. split; [constructor|done]. }
  destruct (starts [124; 41; 38; 59] ts) eqn:Hst; [intros [= ? ?]; by apply Hend|]. destruct ts as [|[w| |] ts]; try done; [intros [= ? ?]; by apply Hend|].
  rewrite Z.geb_leb. destruct (Z.leb_spec MAXARGS (Z.of_nat (length ws) + 1)) as [Hm|Hm]; [done|]. unfold MAXARGS in Hm.
  apply Forall_cons in Hok as [_ Hok]. destruct (p_redirs f ts) as [rs1 ts1| |] eqn:E; cbn [pbind]; [|done..]. intros Ha.
  destruct (p_redirs_sound f ts rs1 ts1 Hok E) as (us1 & -> & Hus1 & _). apply Forall_app in Hok as [_ Hok].
  destruct (IH (ws ++ [w]) (rs ++ rs1) ts1 t rest Hok ltac:(rewrite length_app; cbn; lia) Ha) as (us & ws' & rs' & -> & Hus & -> & Hl).
  exists (TWord w :: us1 ++ us), (w :: ws'), (rs1 ++ rs'). rewrite <- !app_assoc in *. cbn [app] in *. rewrite <- !app_assoc. split; [done|]. split; [by constructor|done].
Qed.

Lemma p_back_sound f : forall c ts t rest, toks_ok ts -> p_back f c ts = POk t rest ->
  exists n, ts = replicate n (TSym 38) ++ rest /\ t = Nat.iter n CBack c /\ starts [38] rest = false.
Proof.
  induction f as [|f IH]; intros c ts t rest Hok; cbn [p_back]; [done|]. destruct (starts [38] ts) eqn:Hst; [|intros [= <- <-]; by exists 0%nat].
  destruct ts as [|t1 ts]; [done|]. apply Forall_cons in Hok as [Ht Hok]. cbn [tail]. intros E. destruct (IH _ _ _ _ Hok E) as (n & -> & -> & Hr).
  apply starts_sym in Hst as ->; [|done|rewrite list_elem_of_In; cbn; tauto]. exists (S n). split; [done|]. split; [|done]. by rewrite Nat.iter_succ_r.
Qed.

Definition sound (f : nat) (p : nat -> list token -> result cmd) (g : list token -> cmd -> Prop) : Prop :=
  forall ts t rest, toks_ok ts -> p f ts = POk t rest -> exists us, ts = us ++ rest /\ g us t.

Lemma sym_in c : c = 124 \/ c = 40 \/ c = 41 \/ c = 59 \/ c = 38 -> c ∈ [124; 40; 41; 59; 38].
Proof. rewrite list_elem_of_In. cbn. lia. Qed.

Lemma parser_sound f : sound f p_line g_line /\ sound f p_pipe g_pipe /\ sound f p_block g_exec /\ sound f p_exec g_exec.
Proof.
  induction f as [|f (IHl & IHp & IHb & IHe)]; [by split_and!|]. split_and!; intros ts t rest Hok; cbn [p_line p_pipe p_block p_exec].
  - destruct (p_pipe f ts) as [c ts1| |] eqn:E1; cbn [pbind]; [|done..]. destruct (IHp _ _ _ Hok E1) as (us1 & -> & H1). apply Forall_app in Hok as [_ Hok].
    destruct (p_back f c ts1) as [c2 ts2| |] eqn:E2; cbn [pbind]; [|done..]. destruct (p_back_sound _ _ _ _ _ Hok E2) as (n & -> & -> & _). apply Forall_app in Hok as [_ Hok].
    destruct (starts [59] ts2) eqn:Hst.
    + destruct ts2 as [|t2 ts2]; [done|]. apply Forall_cons in Hok as [Ht Hok]. apply starts_sym in Hst as ->; [|done|by apply sym_in; lia]. cbn [tail].
      destruct (p_line f ts2) as [d ts3| |] eqn:E3; cbn [pbind]; [|done..]. intros [= <- <-]. destruct (IHl _ _ _ Hok E3) as (us3 & -> & H3).
      exists (us1 ++ replicate n (TSym 38) ++ TSym 59 :: us3). split; [by rewrite <- !app_assoc|]. by constructor.
    + intros [= <- <-]. exists (us1 ++ replicate n (TSym 38)). split; [by rewrite <- app_assoc|]. by constructor.
  - destruct (p_exec f ts) as [c ts1| |] eqn:E1; cbn [pbind]; [|done..]. destruct (IHe _ _ _ Hok E1) as (us1 & -> & H1). apply Forall_app in Hok as [_ Hok].
    destruct (starts [124] ts1) eqn:Hst; [|intros [= <- <-]; exists us1; split; [done|]; by constructor].
    destruct ts1 as [|t1 ts1]; [done|]. apply Forall_cons in Hok as [Ht Hok]. apply starts_sym in Hst as ->; [|done|by apply sym_in; lia]. cbn [tail].
    destruct (p_pipe f ts1) as [d ts2| |] eqn:E2; cbn [pbind]; [|done..]. intros [= <- <-]. destruct (IHp _ _ _ Hok E2) as (us2 & -> & H2).
    exists (us1 ++ TSym 124 :: us2). split; [by rewrite <- app_assoc|]. by constructor.
  - destruct (starts [40] ts) eqn:Hst; [|done]. destruct ts as [|t0 ts]; [done|]. apply Forall_cons in Hok as [Ht Hok]. apply starts_sym in Hst as ->; [|done|by apply sym_in; lia]. cbn [negb tail].
    destruct (p_line f ts) as [c ts1| |] eqn:E1; cbn [pbind]; [|done..]. destruct (IHl _ _ _ Hok E1) as (us1 & -> & H1). apply Forall_app in Hok as [_ Hok].
    destruct (starts [41] ts1) eqn:Hst; [|done]. destruct ts1 as [|t1 ts1]; [done|]. apply Forall_cons in Hok as [Ht1 Hok]. apply starts_sym in Hst as ->; [|done|by apply sym_in; lia]. cbn [negb tail].
    destruct (p_redirs f ts1) as [rs ts2| |] eqn:E2; cbn [pbind]; [|done..]. intros [= <- <-]. destruct (p_redirs_sound _ _ _ _ Hok E2) as (us2 & -> & H2 & _).
    exists (TSym 40 :: us1 ++ TSym 41 :: us2). split; [cbn; by rewrite <- app_assoc|]. by constructor.
  - destruct (starts [40] ts); [by apply IHb|]. destruct (p_redirs f ts) as [rs ts1| |] eqn:E1; cbn [pbind]; [|done..]. destruct (p_redirs_sound _ _ _ _ Hok E1) as (us1 & -> & H1 & _).
    apply Forall_app in Hok as [_ Hok]. intros E2. destruct (p_args_sound f [] rs ts1 t rest Hok ltac:(cbn; lia) E2) as (us2 & ws & rs' & -> & H2 & -> & Hl).
    exists (us1 ++ us2). split; [by rewrite app_assoc|]. by constructor.
Qed.

(** ** The token parser is complete

    What may follow a part of a line. *)
Definition follow (cs : list Z) (rest : list token) : Prop := rest = [] \/ exists c ts, rest = TSym c :: ts /\ c ∈ cs.

Definition or_fuel {A} (r r' : result A) : Prop := r = r' \/ r = PFuel.

Lemma word_first w : token_ok (TWord w) -> forall cs ts, (forall c, c ∈ cs -> c ∈ symbols) -> starts cs (TWord w :: ts) = false.
Proof.
  intros (c & w' & -> & Hc) cs ts Hcs. unfold starts, in_chars. cbn. apply bool_decide_eq_false. intros Hin%Hcs. unfold word_char in Hc.
  apply andb_prop in Hc as [_ Hc]. unfold in_chars in Hc. by rewrite bool_decide_true in Hc.
Qed.

Lemma follow_starts cs cs' rest : follow cs rest -> (forall c, c ∈ cs -> c ∉ cs') -> starts cs' rest = false.
Proof. intros [->|(c & ts & -> & Hc)] H; [done|]. cbn. unfold in_chars. apply bool_decide_eq_false. by apply H. Qed.

Lemma follow_mono cs cs' rest : follow cs rest -> (forall c, c ∈ cs -> c ∈ cs') -> follow cs' rest.
Proof. intros [->|(c & ts & -> & Hc)] H; [by left|]. right. exists c, ts. auto. Qed.

Ltac chars := intros; rewrite ?list_elem_of_In in *; cbn in *; lia.

Lemma p_redirs_complete f : forall us rs rest, g_redirs us rs -> starts [60; 62] rest = false -> or_fuel (p_redirs f (us ++ rest)) (POk rs rest).
Proof.
  induction f as [|f IH]; intros us rs rest H Hr; [by right|]. cbn [p_redirs]. destruct H as [|t w ts rs Ht H]; cbn [app]; [rewrite Hr; by left|].
  assert (Hst : starts [60; 62] (t :: TWord w :: ts ++ rest) = true) by (by destruct Ht as [-> | [-> | ->]]). rewrite Hst.
  destruct (IH ts rs rest H Hr) as [->| ->]; [by left|by right].
Qed.

Lemma g_args_first ts ws rs rest : g_args ts ws rs -> toks_ok (ts ++ rest) -> follow [124; 41; 38; 59] rest -> starts [60; 62] (ts ++ rest) = false.
Proof.
  intros [|w us rs1 ts' ws' rs' _ _] Hok Hf; [apply (follow_starts _ _ _ Hf); chars|]. apply Forall_cons in Hok as [Hw _]. apply word_first; [done|]. unfold symbols. chars.
Qed.

Lemma p_args_complete f : forall us ws' rs' ws rs rest, g_args us ws' rs' -> toks_ok (us ++ rest) -> follow [124; 41; 38; 59] rest -> (length (ws ++ ws') < 10)%nat ->
  or_fuel (p_args f ws rs (us ++ rest)) (POk (wrap (CExec (ws ++ ws')) (rs ++ rs')) rest).
Proof.
  induction f as [|f IH]; intros us ws' rs' ws rs rest H Hok Hf Hlen; [by right|]. cbn [p_args]. destruct H as [|w us rs1 ts ws' rs' H1 H2].
  - left. cbn [app] in *. rewrite !app_nil_r. destruct Hf as [->|(c & ts & -> & Hc)]; [done|]. cbn [starts first_char]. unfold in_chars. by rewrite bool_decide_true.
  - cbn [app] in *. apply Forall_cons in Hok as [Hw Hok]. rewrite word_first; [|done|unfold symbols; chars]. rewrite Z.geb_leb. rewrite length_app in Hlen. cbn in Hlen.
    destruct (Z.leb_spec MAXARGS (Z.of_nat (length ws) + 1)) as [Hm|Hm]; [unfold MAXARGS in Hm; lia|]. rewrite <- app_assoc in *. apply Forall_app in Hok as [_ Hok].
    destruct (p_redirs_complete f us rs1 (ts ++ rest) H1 ltac:(by eapply g_args_first)) as [->| ->]; [|by right]. cbn [pbind].
    destruct (IH ts ws' rs' (ws ++ [w]) (rs ++ rs1) rest H2 Hok Hf) as [->| ->]; [rewrite !length_app; cbn; lia|left; by rewrite <- !app_assoc|by right].
Qed.

Lemma p_back_complete f : forall n c rest, starts [38] rest = false -> or_fuel (p_back f c (replicate n (TSym 38) ++ rest)) (POk (Nat.iter n CBack c) rest).
Proof.
  induction f as [|f IH]; intros n c rest H; [by right|]. cbn [p_back]. destruct n as [|n]; [cbn [replicate app]; rewrite H; by left|].
  change (starts [38] (replicate (S n) (TSym 38) ++ rest)) with true. cbn [replicate app tail]. destruct (IH n (CBack c) rest H) as [->| ->]; [left; by rewrite Nat.iter_succ_r|by right].
Qed.

Definition complete (p : nat -> list token -> result cmd) (fl : list Z) (us : list token) (t : cmd) : Prop :=
  forall f rest, toks_ok (us ++ rest) -> follow fl rest -> or_fuel (p f (us ++ rest)) (POk t rest).

Lemma replicate_follow n fl rest : follow fl rest -> (n = 0%nat -> follow [38; 59; 41] rest) -> follow [38; 59; 41] (replicate n (TSym 38) ++ rest).
Proof. intros H H0. destruct n; [by apply H0|]. right. eexists 38, _. split; [done|chars]. Qed.

(** A simple command does not begin with a parenthesis. *)
Lemma simple_first us rs ts ws rs' rest : g_redirs us rs -> g_args ts ws rs' -> toks_ok ((us ++ ts) ++ rest) -> follow [124; 38; 59; 41] rest ->
  starts [40] ((us ++ ts) ++ rest) = false.
Proof.
  intros [|t w us' rs1 Ht _] H2 Hok Hf; cbn [app] in *.
  - destruct H2 as [|w us1 rs1 ts' ws' rs2 _ _]; [apply (follow_starts _ _ _ Hf); chars|]. apply Forall_cons in Hok as [Hw _]. apply word_first; [done|]. unfold symbols. chars.
  - by destruct Ht as [-> | [-> | ->]].
Qed.

Lemma parser_complete :
  (forall us t, g_line us t -> complete p_line [41] us t) /\ (forall us t, g_pipe us t -> complete p_pipe [38; 59; 41] us t) /\
  (forall us t, g_exec us t -> complete p_exec [124; 38; 59; 41] us t).
Proof.
  apply grammar_ind; unfold complete.
  - intros ts c n _ IH [|f] rest Hok Hf; [by right|]. rewrite <- app_assoc in *. cbn [p_line].
    destruct (IH f (replicate n (TSym 38) ++ rest) Hok) as [->| ->]; [eapply replicate_follow; [done|]; intros _; eapply follow_mono; [done|chars]| |by right]. cbn [pbind].
    destruct (p_back_complete f n c rest) as [->| ->]; [apply (follow_starts _ _ _ Hf); chars| |by right]. cbn [pbind]. rewrite (follow_starts _ [59] _ Hf) by chars. by left.
  - intros ts c n us d _ IH1 _ IH2 [|f] rest Hok Hf; [by right|]. rewrite <- !app_assoc in *. cbn [app] in *. cbn [p_line].
    destruct (IH1 f (replicate n (TSym 38) ++ TSym 59 :: us ++ rest) Hok) as [->| ->];
      [eapply (replicate_follow _ [59]); [right; eexists 59, _; split; [done|chars]|]; intros _; right; eexists 59, _; split; [done|chars]| |by right]. cbn [pbind].
    destruct (p_back_complete f n c (TSym 59 :: us ++ rest)) as [->| ->]; [done| |by right]. cbn [pbind]. change (starts [59] (TSym 59 :: us ++ rest)) with true. cbn [tail].
    apply Forall_app in Hok as [_ Hok]. apply Forall_app in Hok as [_ Hok]. apply Forall_cons in Hok as [_ Hok].
    destruct (IH2 f rest Hok Hf) as [->| ->]; [by left|by right].
  - intros ts c _ IH [|f] rest Hok Hf; [by right|]. cbn [p_pipe]. destruct (IH f rest Hok) as [->| ->]; [eapply follow_mono; [done|chars]| |by right]. cbn [pbind].
    rewrite (follow_starts _ [124] _ Hf) by chars. by left.
  - intros ts c us d _ IH1 _ IH2 [|f] rest Hok Hf; [by right|]. rewrite <- app_assoc in *. cbn [app] in *. cbn [p_pipe].
    destruct (IH1 f (TSym 124 :: us ++ rest) Hok) as [->| ->]; [right; eexists 124, _; split; [done|chars]| |by right]. cbn [pbind].
    change (starts [124] (TSym 124 :: us ++ rest)) with true. cbn [tail]. apply Forall_app in Hok as [_ Hok]. apply Forall_cons in Hok as [_ Hok].
    destruct (IH2 f rest Hok Hf) as [->| ->]; [by left|by right].
  - intros ts c us rs _ IH Hr [|[|f]] rest Hok Hf; [by right|by right|]. rewrite <- app_comm_cons, <- app_assoc in *. cbn [app] in *. apply Forall_cons in Hok as [_ Hok].
    cbn [p_exec p_block]. change (starts [40] (TSym 40 :: ts ++ TSym 41 :: us ++ rest)) with true. cbn [negb tail].
    destruct (IH f (TSym 41 :: us ++ rest) Hok) as [->| ->]; [right; eexists 41, _; split; [done|chars]| |by right]. cbn [pbind]. change (starts [41] (TSym 41 :: us ++ rest)) with true. cbn [negb tail].
    destruct (p_redirs_complete f us rs rest Hr) as [->| ->]; [apply (follow_starts _ _ _ Hf); chars|by left|by right].
  - intros us rs ts ws rs' Hr Ha Hlen [|f] rest Hok Hf; [by right|]. cbn [p_exec]. rewrite (simple_first us rs ts ws rs' rest) by done. rewrite <- app_assoc in *.
    assert (Hf' : follow [124; 41; 38; 59] rest) by (eapply follow_mono; [done|chars]). apply Forall_app in Hok as [_ Hok].
    destruct (p_redirs_complete f us rs (ts ++ rest) Hr) as [->| ->]; [by eapply g_args_first| |by right]. cbn [pbind]. by apply (p_args_complete f ts ws rs' [] rs).
Qed.

(** ** The token parser ends *)

Lemma p_redirs_fuel f : forall ts, (length ts < f)%nat -> p_redirs f ts <> PFuel.
Proof.
  induction f as [|f IH]; intros ts Hf; [lia|]. cbn [p_redirs]. destruct (starts [60; 62] ts); [|done]. destruct ts as [|t [|[w| |] ts]]; try done.
  cbn in Hf. specialize (IH ts ltac:(lia)). by destruct (p_redirs f ts).
Qed.

Lemma p_args_fuel f : forall ws rs ts, toks_ok ts -> (length ts < f)%nat -> p_args f ws rs ts <> PFuel.
Proof.
  induction f as [|f IH]; intros ws rs ts Hok Hf; [lia|]. cbn [p_args]. destruct (starts [124; 41; 38; 59] ts); [done|]. destruct ts as [|[w| |] ts]; try done.
  destruct (_ >=? MAXARGS); [done|]. cbn in Hf. apply Forall_cons in Hok as [_ Hok]. pose proof (p_redirs_fuel f ts ltac:(lia)) as Hr. destruct (p_redirs f ts) as [rs1 ts1| |] eqn:E; [|done..].
  apply p_redirs_sound in E as (us & -> & _); [|done]. apply Forall_app in Hok as [_ Hok]. rewrite length_app in Hf. cbn [pbind]. apply IH; [done|lia].
Qed.

Lemma p_back_fuel f : forall c ts, (length ts < f)%nat -> p_back f c ts <> PFuel.
Proof. induction f as [|f IH]; intros c ts Hf; [lia|]. cbn [p_back]. destruct (starts [38] ts) eqn:E; [|done]. destruct ts; [done|]. cbn in *. apply IH. lia. Qed.

Definition ends (f n : nat) (p : nat -> list token -> result cmd) : Prop := forall ts, toks_ok ts -> (4 * length ts + n <= f)%nat -> p f ts <> PFuel.

Lemma parser_ends f : ends f 4 p_line /\ ends f 3 p_pipe /\ ends f 1 p_block /\ ends f 2 p_exec.
Proof.
  induction f as [|f (IHl & IHp & IHb & IHe)]; [split_and!; intros ts _ H; lia|]. destruct (parser_sound f) as (Sl & Sp & _ & Se).
  split_and!; intros ts Hok Hf; cbn [p_line p_pipe p_block p_exec].
  - pose proof (IHp ts Hok ltac:(lia)). destruct (p_pipe f ts) as [c ts1| |] eqn:E1; cbn [pbind]; [|done..]. destruct (Sp _ _ _ Hok E1) as (us1 & -> & _). rewrite length_app in Hf. apply Forall_app in Hok as [_ Hok].
    pose proof (p_back_fuel f c ts1 ltac:(lia)). destruct (p_back f c ts1) as [c2 ts2| |] eqn:E2; cbn [pbind]; [|done..]. apply p_back_sound in E2 as (n & -> & _); [|done]. rewrite length_app in Hf.
    apply Forall_app in Hok as [_ Hok]. destruct (starts [59] ts2) eqn:Hst; [|done]. destruct ts2 as [|t2 ts2]; [done|]. cbn in Hf. apply Forall_cons in Hok as [_ Hok]. cbn [tail].
    pose proof (IHl ts2 Hok ltac:(lia)). by destruct (p_line f ts2).
  - pose proof (IHe ts Hok ltac:(lia)). destruct (p_exec f ts) as [c ts1| |] eqn:E1; cbn [pbind]; [|done..]. destruct (Se _ _ _ Hok E1) as (us1 & -> & _). rewrite length_app in Hf. apply Forall_app in Hok as [_ Hok].
    destruct (starts [124] ts1) eqn:Hst; [|done]. destruct ts1 as [|t1 ts1]; [done|]. cbn in Hf. apply Forall_cons in Hok as [_ Hok]. cbn [tail].
    pose proof (IHp ts1 Hok ltac:(lia)). by destruct (p_pipe f ts1).
  - destruct (starts [40] ts) eqn:Hst; [|done]. destruct ts as [|t ts]; [done|]. cbn in Hf. apply Forall_cons in Hok as [_ Hok]. cbn [negb tail].
    pose proof (IHl ts Hok ltac:(lia)). destruct (p_line f ts) as [c ts1| |] eqn:E1; cbn [pbind]; [|done..]. destruct (Sl _ _ _ Hok E1) as (us1 & -> & _). rewrite length_app in Hf.
    destruct (starts [41] ts1) eqn:Hst1; [|done]. destruct ts1 as [|t1 ts1]; [done|]. cbn in Hf. cbn [negb tail]. pose proof (p_redirs_fuel f ts1 ltac:(lia)). by destruct (p_redirs f ts1).
  - destruct (starts [40] ts); [apply IHb; [done|lia]|]. pose proof (p_redirs_fuel f ts ltac:(lia)). destruct (p_redirs f ts) as [rs ts1| |] eqn:E1; cbn [pbind]; [|done..].
    apply p_redirs_sound in E1 as (us & -> & _); [|done]. rewrite length_app in Hf. apply Forall_app in Hok as [_ Hok]. apply p_args_fuel; [done|lia].
Qed.

(** ** The whole parser *)

Lemma tokens_ok l : toks_ok (tokens l).
Proof.
  assert (H : forall n l, (length l <= n)%nat -> toks_ok (tokens l)); [|by apply (H (length l))].
  intros n. induction n as [|n IH]; intros x Hx; rewrite tokens_step; destruct (next_token x) as [[t l']|] eqn:E; try constructor.
  - apply next_token_length in E. lia.
  - apply next_token_length in E. lia.
  - by apply next_token_first in E as [? _].
  - apply next_token_length in E. apply IH. lia.
Qed.

(** At the end of the line only space is left. *)
Lemma peek_end es ts th s : at_toks es ts s -> exists p, peek es [] th s = Ok false th (set_ps p s) /\ (p =? es) = bool_decide (ts = []).
Proof.
  intros (l & (Hl & Hes & Hp) & Ht). unfold peek. rewrite (bind_ok get _ th s s th s eq_refl). replace (Z.to_nat (es - sh_ps s)) with (length l) by lia.
  destruct (skip_space_ok l _ _ Hl) as (p & -> & Hp1 & Hp2 & Hle). exists p. split; [rewrite andb_false_r; done|]. rewrite tokens_step in Ht. unfold next_token in Ht.
  destruct (drop_space l) as [|c l1]; cbn in Hp2.
  - rewrite <- Ht. rewrite bool_decide_true by done. apply Z.eqb_eq. lia.
  - rewrite bool_decide_false; [apply Z.eqb_neq; lia|]. destruct (if in_chars _ c then _ else _) in Ht. by rewrite <- Ht.
Qed.

Lemma parse_decides f text : (4 * length (tokens text) + 4 <= f)%nat ->
  match p_line f (tokens text) with
  | POk t [] => g_line (tokens text) t /\ forall t', g_line (tokens text) t' -> t' = t
  | POk _ _ | PErr _ => forall t, ~ g_line (tokens text) t
  | PFuel => False
  end.
Proof.
  intros Hf. pose proof (tokens_ok text) as Hok. destruct (parser_ends f) as (He & _). specialize (He _ Hok Hf). destruct (parser_sound f) as (Hs & _).
  assert (Hc : forall t, g_line (tokens text) t -> p_line f (tokens text) = POk t []).
  { intros t Ht. destruct (proj1 parser_complete _ _ Ht f []) as [E|E]; rewrite ?app_nil_r in *; [done|by left|done|done]. }
  destruct (p_line f (tokens text)) as [t [|t1 rest]|msg|] eqn:E; [|intros t' H; by apply Hc in H..|done].
  split; [|intros t' Ht'; apply Hc in Ht'; congruence]. destruct (Hs _ _ _ Hok E) as (us & Hus & H). rewrite app_nil_r in Hus. by rewrite Hus.
Qed.

(** A word as the commands find it. *)
Definition shown (m : mem) (w : list Z) (q eq : Z) : Prop := 0 < q /\ cstring m q w.

Lemma parsecmd_ok f s text th st :
  cstring (sh_buf st) s text -> 0 < s -> (4 * length text + 5 <= f)%nat -> (2 * length text + 1 <= sh_room st)%nat ->
  (exists t p st', g_line (tokens text) t /\ (forall t', g_line (tokens text) t' -> t' = t) /\
     parsecmd f s th st = Ok p th st' /\ tree (shown (sh_buf st')) (sh_heap st') p t) \/
  ((forall t, ~ g_line (tokens text) t) /\ exists msg, parsecmd f s th st = Panic msg).
Proof.
  intros Hs Hpos Hf Hroom. unfold parsecmd. rewrite (bind_ok get _ th st st th st eq_refl). rewrite (ustrlen_spec f _ _ text Hs) by lia.
  set (es := s + Z.of_nat (length text)). set (s0 := set_ps s st). rewrite (bind_ok (put s0) _ th st tt th s0 eq_refl).
  assert (Ht : at_toks es (tokens text) s0) by (exists text; split; [split; [done|]; split; done|done]). pose proof (tokens_length text) as Hlen.
  destruct (parse_sim f) as (Hsim & _). specialize (Hsim es (tokens text) th s0 Ht ltac:(unfold enough; cbn; lia)). pose proof (parse_decides f text ltac:(lia)) as Hd.
  unfold sim in Hsim. destruct (p_line f (tokens text)) as [t rest|msg|]; [|right; split; [done|]; exists msg; by apply bind_panic|done].
  destruct Hsim as (p & s1 & E & Hb & Ht1 & _ & Hr & _). rewrite (bind_ok _ _ _ _ _ _ _ E). destruct (peek_end es rest th s1 Ht1) as (ps & E2 & Hps). rewrite (bind_ok _ _ _ _ _ _ _ E2).
  rewrite (bind_ok get _ th _ (set_ps ps s1) th (set_ps ps s1) eq_refl). cbn [set_ps sh_ps]. rewrite Hps. destruct rest as [|t1 rest]; [|right; split; [done|]; by eexists].
  left. rewrite bool_decide_true by done. cbn [negb]. destruct Hd as [Hg Hu]. rewrite <- Hb in Hr.
  destruct (nulterminate_ok t (Z.to_nat p) p th (set_ps ps s1) Hr) as (m' & E3 & _ & Htree); [apply repr_bound in Hr; lia|]. rewrite (bind_ok _ _ _ _ _ _ _ E3).
  exists t, p, (set_buf m' (set_ps ps s1)). split; [done|]. split; [done|]. split; [done|]. apply (tree_mono (ended m')); [|done]. intros w q eq H. split; [apply H|by eapply ended_cstring].
Qed.

(** C14: the shell's parser accepts exactly its grammar, and always ends.  On every command
    line, with two nodes of memory for each character: either the tokens of the line form a
    sentence of the grammar, the only way they can, and [parsecmd] returns its tree, in which
    every word is a NUL-terminated string; or they form none and [parsecmd] reports an
    error.  It never runs for ever, and never reads or writes outside its arrays. *)
Theorem parsecmd_accepts_grammar f s text th st :
  cstring (sh_buf st) s text -> 0 < s -> (4 * length text + 5 <= f)%nat -> (2 * length text + 1 <= sh_room st)%nat ->
  (exists t p st', g_line (tokens text) t /\ (forall t', g_line (tokens text) t' -> t' = t) /\
     parsecmd f s th st = Ok p th st' /\ tree (shown (sh_buf st')) (sh_heap st') p t) \/
  ((forall t, ~ g_line (tokens text) t) /\ exists msg, parsecmd f s th st = Panic msg).
Proof. apply parsecmd_ok. Qed.

(** The line [a|b]. *)
Definition demo_line : shell := mkShell (mput ∅ 100 [97; 124; 98; 0]) 0 [] 7.

Lemma parsecmd_accepts_grammar_witness : exists p st', parsecmd 17 100 (mkThread [] 0 0 []) demo_line = Ok p (mkThread [] 0 0 []) st' /\
  tree (shown (sh_buf st')) (sh_heap st') p (CPipe (CExec [[97]]) (CExec [[98]])).
Proof.
  assert (Hw : forall w, g_exec [TWord w] (CExec [w])).
  { intros w. apply (ge_simple [] [] [TWord w] [w] []); [constructor| |cbn; lia]. apply (ga_cons w [] [] [] [] []); constructor. }
  assert (Hg : g_line (tokens [97; 124; 98]) (CPipe (CExec [[97]]) (CExec [[98]]))).
  { change (tokens [97; 124; 98]) with (([TWord [97]] ++ TSym 124 :: [TWord [98]]) ++ replicate 0 (TSym 38)).
    apply (gl_pipe _ _ 0). constructor; [apply Hw|]. constructor. apply Hw. }
  destruct (parsecmd_accepts_grammar 17 100 [97; 124; 98] (mkThread [] 0 0 []) demo_line) as [(t & p & st' & _ & Hu & E & Ht)|[Hn _]].
  - split; [reflexivity|]. split; [reflexivity|]. rewrite list_elem_of_In. cbn. lia.
  - lia.
  - cbn. lia.
  - cbn. lia.
  - exists p, st'. split; [exact E|]. by rewrite (Hu _ Hg).
  - destruct (Hn _ Hg).
Defined.
