(* ===== verification/ShRun.v ===== *)
(** * The shell runs its commands (user/sh.c)

    [runcmd] never returns: it is the sequence of system calls the process makes, a [prog],
    with both continuations of a [fork].  The second half runs such programs in a world that
    decides which calls fail, how much time passes and how long programs run, and shows
    which programs are executed, when, and with which descriptors. *)

From S2P Require Import Prelude Layout Memory Ulib Sh ShSpec.

(** ** System calls *)

Inductive prog :=
| Exit (status : Z)
| Exec (path : list Z) (argv : list (list Z)) (k : prog)
| Close (fd : Z) (k : prog)
| Open (file : list Z) (mode : Z) (k : Z -> prog)
| Dup (fd : Z) (k : prog)
| Pipe (k : Z -> Z -> Z -> prog)
| Fork (k : Z -> prog)
| Wait (k : prog)
| Chdir (path : list Z) (k : Z -> prog)
| Getcmd (k : Z -> mem -> prog)
| Fprintf (fd : Z) (fmt : string) (args : list (list Z)) (k : prog)
| Stuck.

Definition sh_panic (s : string) : prog := Fprintf 2 s [] (Exit 1).
Definition fork1 (k : Z -> prog) : prog := Fork (fun pid => if pid =? -1 then sh_panic "fork" else k pid).

(** A string of the command line, which is at most 100 bytes long. *)
Definition str (m : mem) (q : Z) : list Z := until_nul (bytes m q 100).
(** The arguments, up to the null pointer. *)
Fixpoint args_of (m : mem) (argv : list Z) : list (list Z) :=
  match argv with [] => [] | a :: argv' => if a =? 0 then [] else str m a :: args_of m argv' end.

Fixpoint runcmd (f : nat) (h : list node) (m : mem) (cmd : Z) : prog :=
  if cmd =? 0 then Exit 1
  else
    match f with
    | O => Stuck
    | S f =>
        match h !! Z.to_nat (cmd - 1) with
        | None => sh_panic "runcmd"
        | Some (Nexec argv _) =>
            let a0 := default 0 (argv !! 0%nat) in
            if a0 =? 0 then Exit 1
            else Exec (str m a0) (args_of m argv) (Fprintf 2 "exec %s failed" [str m a0] (Exit 0))
        | Some (Nredir c file _ mode fd) =>
            Close fd (Open (str m file) mode (fun r =>
              if r <? 0 then Fprintf 2 "open %s failed" [str m file] (Exit 1) else runcmd f h m c))
        | Some (Nlist l r) =>
            fork1 (fun pid => if pid =? 0 then runcmd f h m l else Wait (runcmd f h m r))
        | Some (Npipe l r) =>
            Pipe (fun x p0 p1 =>
              if x <? 0 then sh_panic "pipe"
              else
                fork1 (fun pid =>
                  if pid =? 0 then Close 1 (Dup p1 (Close p0 (Close p1 (runcmd f h m l))))
                  else
                    fork1 (fun pid =>
                      if pid =? 0 then Close 0 (Dup p0 (Close p0 (Close p1 (runcmd f h m r))))
                      else Close p0 (Close p1 (Wait (Wait (Exit 0)))))))
        | Some (Nback c) => fork1 (fun pid => if pid =? 0 then runcmd f h m c else Exit 0)
        end
    end.

(** [runcmd(parsecmd(buf))] in the child; [room] is what [malloc] can give. *)
Definition run_line (f room : nat) (m : mem) (buf : Z) : prog :=
  match parsecmd f buf (mkThread [] 0 0 []) (mkShell m 0 [] room) with
  | Ok cmd _ st => runcmd (Z.to_nat cmd) (sh_heap st) (sh_buf st) cmd
  | Panic msg => sh_panic msg
  | _ => Stuck
  end.

(** [while((fd = open("console", O_RDWR)) >= 0) if(fd >= 3){ close(fd); break; }] *)
Fixpoint open_console (f : nat) (k : prog) : prog :=
  match f with
  | O => Stuck
  | S f => Open (removelast (cstr "console")) O_RDWR (fun fd => if fd >=? 0 then (if fd >=? 3 then Close fd k else open_console f k) else k)
  end.

(** The loop of [main]; [f] bounds the number of commands and the work on each. *)
Fixpoint sh_loop (f room : nat) (buf : Z) : prog :=
  match f with
  | O => Stuck
  | S f =>
      Getcmd (fun r m =>
        if r <? 0 then Exit 0
        else if (mget m buf =? 99) && (mget m (buf + 1) =? 100) && (mget m (buf + 2) =? 32) then
          let m := mset m (buf + Z.of_nat (length (str m buf)) - 1) 0 in
          Chdir (str m (buf + 3)) (fun r =>
            if r <? 0 then Fprintf 2 "cannot cd %s" [str m (buf + 3)] (sh_loop f room buf) else sh_loop f room buf)
        else fork1 (fun pid => if pid =? 0 then run_line f room m buf else Wait (sh_loop f room buf)))
  end.

Definition sh_main (f room : nat) (buf : Z) : prog := open_console f (sh_loop f room buf).

Section Getcmd.
Context {K : Type} `{UserOS K}.
(** [getcmd]: the prompt, and a line of input. *)
Definition getcmd (buf nbuf : Z) : M (uproc K) Z :=
  os (os_write 2 [36; 32]);;;
  store (fun m => umemset m buf 0 nbuf);;;
  ugets buf nbuf;;;
  let! c := load (fun m => mget m buf) in
  ret (if c =? 0 then -1 else 0).
End Getcmd.

(** ** Processes, their descriptors and their children

    An open file is a given one, a file opened by name, or an end of a pipe. *)

Inductive ofile := Given (n : Z) | Opened (file : list Z) (mode : Z) | PipeR (id : nat) | PipeW (id : nat).

Notation fdtable := (gmap Z ofile).

(** Descriptors are given out lowest first. *)
Fixpoint lowest_from (k : nat) (i : Z) (t : fdtable) : Z :=
  match k with O => -1 | S k' => match t !! i with None => i | Some _ => lowest_from k' (i + 1) t end end.
Definition lowest (t : fdtable) : Z := lowest_from 16 0 t.

(** [dup] fails only for a descriptor that is not open, or for want of a free one. *)
Definition dup_fds (t : fdtable) (fd : Z) : fdtable :=
  match t !! fd with Some x => if lowest t <? 0 then t else <[lowest t := x]> t | None => t end.

(** What the rest of the system decides, for each call of each process: the time that
    passes before it, whether it fails, how long a program that is executed runs (for ever,
    if there is no number), the number of a new process, the child that [wait] finds first,
    what [pipe] leaves behind when it fails, and the line that is read. *)
Record world := mkWorld {
  w_delay : list nat -> nat;
  w_fails : list nat -> bool;
  w_lasts : list nat -> option nat;
  w_pid : list nat -> nat;
  w_reap : list nat -> nat;
  w_junk : list nat -> Z * Z;
  w_line : list nat -> Z * mem;
}.

(** What is seen of a process and its descendants. *)
Inductive event :=
| Ran (path : list Z) (argv : list (list Z)) (fds : fdtable) (start : nat) (fin : option nat)
| Says (fd : Z) (fmt : string) (args : list (list Z))
| Waits (fds : fdtable)      (* it waits for a child, with these descriptors open *)
| Failed                     (* a system call has failed *)
| Lost.                      (* outside the code *)

(** The children of a process that it has not waited for are given by the times of their
    exits.  [wait] returns when a child has exited, with one of those that have. *)
Fixpoint first_exit (ks : list (option nat)) : option nat :=
  match ks with
  | [] => None
  | None :: ks' => first_exit ks'
  | Some e :: ks' => Some (match first_exit ks' with Some e' => Nat.min e e' | None => e end)
  end.
Definition is_zombie (now : nat) (x : option nat) : bool := match x with Some e => (e <=? now)%nat | None => false end.

Definition reap (w : world) (o : list nat) (now : nat) (ks : list (option nat)) : option (nat * list (option nat)) :=
  e ← first_exit ks;
  let now := (Nat.max now e + w_delay w o)%nat in
  let i := if is_zombie now (mjoin (ks !! w_reap w o)) then w_reap w o else default O (fst <$> list_find (fun x => is_zombie now x = true) ks) in
  Some (now, delete i ks).

(** A process that runs [p] with the descriptors [t], from the time [now] on: what is seen,
    and the time of its exit.  [o] names the call, [n] the pipes made so far; the processes
    are not killed.  [fork] copies the table, and the child has no children. *)
Fixpoint eval (w : world) (p : prog) (t : fdtable) (ks : list (option nat)) (o : list nat) (now n : nat) : list event * option nat * nat :=
  let now' := (now + w_delay w o)%nat in
  let o' := 0%nat :: o in
  match p with
  | Exit _ => ([], Some now', n)
  | Stuck => ([Lost], None, n)
  | Exec path argv k =>
      if w_fails w o then let '(l, x, n') := eval w k t ks o' now' n in (Failed :: l, x, n')
      else
        let e := (fun d => (now' + d)%nat) <$> w_lasts w o in
        ([Ran path argv t now' e], e, n)
  | Close fd k => eval w k (delete fd t) ks o' now' n
  | Open file mode k =>
      if w_fails w o || (lowest t <? 0) then let '(l, x, n') := eval w (k (-1)) t ks o' now' n in (Failed :: l, x, n')
      else eval w (k (lowest t)) (<[lowest t := Opened file mode]> t) ks o' now' n
  | Dup fd k => eval w k (dup_fds t fd) ks o' now' n
  | Pipe k =>
      let p0 := lowest t in
      let t1 := <[p0 := PipeR n]> t in
      let p1 := lowest t1 in
      if w_fails w o || (p0 <? 0) || (p1 <? 0) then
        let '(l, x, n') := eval w (k (-1) (fst (w_junk w o)) (snd (w_junk w o))) t ks o' now' n in (Failed :: l, x, n')
      else eval w (k 0 p0 p1) (<[p1 := PipeW n]> t1) ks o' now' (S n)
  | Fork k =>
      if w_fails w o then let '(l, x, n') := eval w (k (-1)) t ks o' now' n in (Failed :: l, x, n')
      else
        let '(l1, x1, n1) := eval w (k 0) t [] (1%nat :: o) now' n in
        let '(l2, x2, n2) := eval w (k (1 + Z.of_nat (w_pid w o))) t (ks ++ [x1]) o' now' n1 in
        (l1 ++ l2, x2, n2)
  | Wait k =>
      match ks with
      | [] => eval w k t [] o' now' n
      | _ =>
          match reap w o now ks with
          | Some (now2, ks') => let '(l, x, n') := eval w k t ks' o' now2 n in (Waits t :: l, x, n')
          | None => ([Waits t], None, n)
          end
      end
  | Chdir _ k =>
      if w_fails w o then let '(l, x, n') := eval w (k (-1)) t ks o' now' n in (Failed :: l, x, n')
      else eval w (k 0) t ks o' now' n
  | Getcmd k => eval w (k (fst (w_line w o)) (snd (w_line w o))) t ks o' now' n
  | Fprintf fd fmt args k => let '(l, x, n') := eval w k t ks o' now' n in (Says fd fmt args :: l, x, n')
  end.

(** ** What a command means *)

Definition std (a b c : ofile) : fdtable := <[0 := a]> (<[1 := b]> {[2 := c]}).

(** It exits, not before [now]. *)
Definition exits (now : nat) (x : option nat) : Prop := exists e, x = Some e /\ (now <= e)%nat.
(** A system call fails; the process reports it and exits. *)
Definition gives_up (fmt : string) (args : list (list Z)) (now : nat) (obs : list event) (x : option nat) : Prop :=
  obs = [Failed; Says 2 fmt args] /\ exits now x.

(** The behaviours of the command [t] on the standard descriptors [a], [b] and [c] from the
    time [now] on.  A simple command executes its program once; a redirection replaces a
    descriptor; a pipe joins the output of its left part to the input of its right, and
    ends when both have; a list starts its right part when its left part has ended; a
    background command is not waited for.  Pipes are numbered from [n] to [n']. *)
Fixpoint does (t : cmd) (a b c : ofile) (n now : nat) (obs : list event) (x : option nat) (n' : nat) : Prop :=
  match t with
  | CExec [] => obs = [] /\ exits now x /\ n' = n
  | CExec (v :: ws) =>
      n' = n /\
      ((exists s, (now <= s)%nat /\ obs = [Ran v (v :: ws) (std a b c) s x] /\ (forall e, x = Some e -> (s <= e)%nat)) \/
       gives_up "exec %s failed" [v] now obs x)
  | CRedir t v mode fd =>
      (exists now1, (now <= now1)%nat /\
         if fd =? 0 then does t (Opened v mode) b c n now1 obs x n' else does t a (Opened v mode) c n now1 obs x n') \/
      n' = n /\ gives_up "open %s failed" [v] now obs x
  | CPipe l r =>
      n' = n /\ gives_up "pipe" [] now obs x \/
      n' = S n /\ gives_up "fork" [] now obs x \/
      (exists now1 obs1 x1 obs2, (now <= now1)%nat /\ does l a (PipeW n) c (S n) now1 obs1 x1 n' /\
         gives_up "fork" [] now obs2 x /\ obs = obs1 ++ obs2) \/
      (exists now1 obs1 x1 n1 now2 obs2 x2 ws, (now <= now1)%nat /\ (now <= now2)%nat /\
         does l a (PipeW n) c (S n) now1 obs1 x1 n1 /\ does r (PipeR n) b c n1 now2 obs2 x2 n' /\
         obs = obs1 ++ obs2 ++ ws /\ Forall (fun e => e = Waits (std a b c)) ws /\
         match x1, x2 with Some e1, Some e2 => exits (Nat.max e1 e2) x | _, _ => x = None end)
  | CList l r =>
      n' = n /\ gives_up "fork" [] now obs x \/
      (exists now1 obs1 x1 n1, (now <= now1)%nat /\ does l a b c n now1 obs1 x1 n1 /\
         match x1 with
         | Some e => exists now2 obs2, (e <= now2)%nat /\ obs = obs1 ++ Waits (std a b c) :: obs2 /\ does r a b c n1 now2 obs2 x n'
         | None => obs = obs1 ++ [Waits (std a b c)] /\ x = None /\ n' = n1
         end)
  | CBack t =>
      n' = n /\ gives_up "fork" [] now obs x \/
      (exists now1 x1, (now <= now1)%nat /\ does t a b c n now1 obs x1 n' /\ exits now1 x)
  end.

(** The programs that are executed, and those a command consists of. *)
Definition ran (obs : list event) : list (list (list Z) * fdtable) :=
  omap (fun e => match e with Ran _ argv fds _ _ => Some (argv, fds) | _ => None end) obs.

Fixpoint leaves (t : cmd) (a b c : ofile) (n : nat) : list (list (list Z) * fdtable) * nat :=
  match t with
  | CExec [] => ([], n)
  | CExec ws => ([(ws, std a b c)], n)
  | CRedir t w mode fd => if fd =? 0 then leaves t (Opened w mode) b c n else leaves t a (Opened w mode) c n
  | CPipe l r =>
      let (l1, n1) := leaves l a (PipeW n) c (S n) in
      let (l2, n2) := leaves r (PipeR n) b c n1 in
      (l1 ++ l2, n2)
  | CList l r =>
      let (l1, n1) := leaves l a b c n in
      let (l2, n2) := leaves r a b c n1 in
      (l1 ++ l2, n2)
  | CBack t => leaves t a b c n
  end.

(** No call has failed, and every program has come to its end. *)
Definition smooth (e : event) : Prop := match e with Failed => False | Ran _ _ _ _ fin => is_Some fin | _ => True end.

(** ** The words of a parsed line *)

Definition short_token (t : token) : Prop := match t with TWord w => (length w < 100)%nat | _ => True end.

(** Words are short, and only standard input and output are redirected. *)
Fixpoint cmd_ok (t : cmd) : Prop :=
  match t with
  | CExec ws => Forall (fun w => (length w < 100)%nat) ws
  | CRedir c w _ fd => (length w < 100)%nat /\ (fd = 0 \/ fd = 1) /\ cmd_ok c
  | CPipe l r | CList l r => cmd_ok l /\ cmd_ok r
  | CBack c => cmd_ok c
  end.

Lemma span_word_length l : forall w r, span_word l = (w, r) -> (length w <= length l)%nat.
Proof. intros w r (-> & _)%span_word_spec. rewrite length_app. lia. Qed.

Lemma tokens_short l : (length l < 100)%nat -> Forall short_token (tokens l).
Proof.
  assert (H : forall n l, (length l <= n)%nat -> (length l < 100)%nat -> Forall short_token (tokens l)); [|by apply (H (length l))].
  intros n. induction n as [|n IH]; intros x Hx Hs; rewrite tokens_step; destruct (next_token x) as [[t l']|] eqn:E; try constructor;
    pose proof (next_token_length _ _ _ E) as Hlt; try lia; [|apply IH; lia].
  unfold next_token in E. pose proof (drop_space_length x) as Hd. destruct (drop_space x) as [|c l1]; [done|]. apply (inj Some) in E.
  destruct (in_chars [124; 40; 41; 59; 38; 60] c); [by injection E as <- _|]. destruct (c =? 62); [destruct l1 as [|c2 l2]; [|destruct (c2 =? 62)]; by injection E as <- _|].
  destruct (span_word (c :: l1)) as [w r] eqn:Ew. injection E as <- _. apply span_word_length in Ew. cbn in *. lia.
Qed.

Lemma wrap_ok rs : forall t, Forall (fun r : redir => (length (fst (fst r)) < 100)%nat /\ (snd r = 0 \/ snd r = 1)) rs -> cmd_ok t -> cmd_ok (wrap t rs).
Proof. induction rs as [|r rs IH]; intros t H Ht; [done|]. apply Forall_cons in H as [[H1 H2] H]. apply (IH (CRedir t (fst (fst r)) (snd (fst r)) (snd r))); [done|]. by split. Qed.

Lemma g_redirs_ok us rs : g_redirs us rs -> Forall short_token us -> Forall (fun r : redir => (length (fst (fst r)) < 100)%nat /\ (snd r = 0 \/ snd r = 1)) rs.
Proof.
  induction 1 as [|t w ts rs Ht H IH]; intros Hs; [constructor|]. apply Forall_cons in Hs as [_ Hs]. apply Forall_cons in Hs as [Hw Hs]. constructor; [|by apply IH].
  destruct Ht as [-> | [-> | ->]]; cbn; (split; [done|]); lia.
Qed.

Lemma g_args_ok ts ws rs : g_args ts ws rs -> Forall short_token ts ->
  Forall (fun w => (length w < 100)%nat) ws /\ Forall (fun r : redir => (length (fst (fst r)) < 100)%nat /\ (snd r = 0 \/ snd r = 1)) rs.
Proof.
  induction 1 as [|w us rs ts ws rs' Hr Ha IH]; intros Hs; [done|]. apply Forall_cons in Hs as [Hw Hs]. apply Forall_app in Hs as [H1 H2]. destruct (IH H2) as [I1 I2].
  split; [by constructor|]. apply Forall_app. split; [by eapply g_redirs_ok|done].
Qed.

Lemma iter_back_ok n t : cmd_ok t -> cmd_ok (Nat.iter n CBack t).
Proof. intros H. induction n; done. Qed.

Lemma grammar_ok : (forall ts t, g_line ts t -> Forall short_token ts -> cmd_ok t) /\ (forall ts t, g_pipe ts t -> Forall short_token ts -> cmd_ok t) /\
  (forall ts t, g_exec ts t -> Forall short_token ts -> cmd_ok t).
Proof.
  apply grammar_ind.
  - intros ts c n _ IH [H _]%Forall_app. by apply iter_back_ok, IH.
  - intros ts c n us d _ IH1 _ IH2 [H1 [_ [_ H2]%Forall_cons]%Forall_app]%Forall_app. split; [by apply iter_back_ok, IH1|by apply IH2].
  - done.
  - intros ts c us d _ IH1 _ IH2 [H1 [_ H2]%Forall_cons]%Forall_app. split; auto.
  - intros ts c us rs _ IH Hr [_ [H1 [_ H2]%Forall_cons]%Forall_app]%Forall_cons. apply wrap_ok; [by eapply g_redirs_ok|auto].
  - intros us rs ts ws rs' Hr Ha _ [H1 H2]%Forall_app. destruct (g_args_ok _ _ _ Ha H2) as [I1 I2]. apply wrap_ok; [|done]. apply Forall_app. split; [by eapply g_redirs_ok|done].
Qed.

(** ** The programs a command executes *)

Lemma str_shown m w q eq : shown m w q eq -> (length w < 100)%nat -> str m q = w.
Proof.
  intros [_ (H1 & H2 & H3)] Hl. unfold str. replace 100%nat with (length w + S (99 - length w))%nat by lia. rewrite bytes_app, H1, bytes_S, H2. by apply until_nul_app.
Qed.

Lemma args_of_shown m ws : forall argv eargv, length eargv = length argv -> Forall (fun w => (length w < 100)%nat) ws -> argv !! length ws = Some 0 ->
  (forall i w, ws !! i = Some w -> exists q eq, argv !! i = Some q /\ eargv !! i = Some eq /\ shown m w q eq) -> args_of m argv = ws.
Proof.
  induction ws as [|w ws IH]; intros argv eargv Hl Hs Hz Hw.
  - destruct argv as [|a argv]; [done|]. cbn in Hz. injection Hz as ->. done.
  - apply Forall_cons in Hs as [Hs1 Hs]. destruct (Hw 0%nat w eq_refl) as (q & eq & Hq & He & Hword). destruct argv as [|a argv], eargv as [|e eargv]; try done.
    cbn in Hq. injection Hq as ->. cbn [args_of]. destruct Hword as [Hq Hc]. rewrite (proj2 (Z.eqb_neq q 0)) by lia. f_equal; [by apply (str_shown m w q eq)|].
    apply (IH argv eargv); [cbn in Hl; lia|done|done|]. intros i w' Hi. by apply (Hw (S i)).
Qed.

(** ** Waiting *)

Lemma first_exit_elem ks e : first_exit ks = Some e -> Some e ∈ ks.
Proof.
  revert e. induction ks as [|[k|] ks IH]; intros e E; cbn in E; [done| |right; by apply IH].
  destruct (first_exit ks) as [e'|]; injection E as <-; [|left]. destruct (Nat.min_spec k e') as [[_ ->]|[_ ->]]; [left|right; by apply IH].
Qed.

Lemma reap_Some w o now ks now' ks' : reap w o now ks = Some (now', ks') ->
  exists i e, ks !! i = Some (Some e) /\ (e <= now')%nat /\ (now <= now')%nat /\ ks' = delete i ks.
Proof.
  unfold reap. destruct (first_exit ks) as [e|] eqn:E; [|done]. cbn [mbind option_bind]. set (T := (Nat.max now e + w_delay w o)%nat). intros [= <- <-].
  assert (HT : (now <= T /\ e <= T)%nat) by (unfold T; lia).
  assert (Hz : forall i, is_zombie T (mjoin (ks !! i)) = true -> exists e', ks !! i = Some (Some e') /\ (e' <= T)%nat).
  { intros i Hi. destruct (ks !! i) as [[e'|]|]; try done. cbn in Hi. apply Nat.leb_le in Hi. by exists e'. }
  destruct (is_zombie T (mjoin (ks !! w_reap w o))) eqn:Ei.
  - destruct (Hz _ Ei) as (e' & Hk & He). exists (w_reap w o), e'. split_and!; done || lia.
  - assert (Hf : is_Some (list_find (fun x => is_zombie T x = true) ks)).
    { apply (list_find_elem_of _ ks (Some e)); [by apply first_exit_elem|]. cbn. apply Nat.leb_le. lia. }
    destruct Hf as [[i y] Hf]. rewrite Hf. cbn [fmap option_fmap option_map default fst]. apply list_find_Some in Hf as (Hk & Hy & _).
    destruct (Hz i) as (e' & Hk' & He); [by rewrite Hk|]. exists i, e'. split_and!; done || lia.
Qed.

Lemma reap_None w o now ks : reap w o now ks = None -> Forall (fun x => x = None) ks.
Proof.
  unfold reap. destruct (first_exit ks) as [e|] eqn:E; [done|]. intros _. induction ks as [|[k|] ks IH]; [constructor|done|]. constructor; [done|by apply IH].
Qed.

(** [wait] for an only child. *)
Lemma wait_one w k t x o now n obs y n' : eval w (Wait k) t [x] o now n = (obs, y, n') ->
  match x with
  | Some e => exists now1 obs1, (e <= now1)%nat /\ (now <= now1)%nat /\ obs = Waits t :: obs1 /\ eval w k t [] (0%nat :: o) now1 n = (obs1, y, n')
  | None => obs = [Waits t] /\ y = None /\ n' = n
  end.
Proof.
  cbn [eval]. destruct (reap w o now [x]) as [[now1 ks]|] eqn:E.
  - apply reap_Some in E as (i & e & Hi & He & Hn & ->). destruct i as [|i]; [|done]. injection Hi as ->. cbn [delete list_delete].
    destruct (eval w k t [] _ now1 n) as [[l y'] m] eqn:Ek. intros [= <- <- <-]. by exists now1, l.
  - apply reap_None, Forall_cons in E as [-> _]. intros [= <- <- <-]. done.
Qed.

(** [wait] for two children. *)
Lemma wait_two w st t x1 x2 o now n obs y n' : eval w (Wait (Wait (Exit st))) t [x1; x2] o now n = (obs, y, n') ->
  Forall (fun e => e = Waits t) obs /\ n' = n /\ match x1, x2 with Some e1, Some e2 => exits (Nat.max e1 e2) y | _, _ => y = None end.
Proof.
  remember (Wait (Exit st)) as k eqn:Hk. cbn [eval]. destruct (reap w o now [x1; x2]) as [[now1 ks]|] eqn:E.
  - apply reap_Some in E as (i & e & Hi & He & Hn & ->).
    destruct (eval w k t _ _ now1 n) as [[l y'] m] eqn:Ek. intros [= <- <- <-]. subst k.
    assert (Hrest : forall x, eval w (Wait (Exit st)) t [x] (0%nat :: o) now1 n = (l, y', m) ->
      Forall (fun e => e = Waits t) l /\ m = n /\ match x with Some e2 => exits (Nat.max e2 now1) y' | None => y' = None end).
    { intros x Hx. apply wait_one in Hx. destruct x as [e2|].
      - destruct Hx as (now2 & obs1 & H1 & H2 & -> & Hx). cbn [eval] in Hx. injection Hx as <- <- <-. split; [by repeat constructor|]. split; [done|]. eexists. split; [done|]. lia.
      - destruct Hx as (-> & -> & ->). by repeat constructor. }
    assert (Hw : forall x, exits (Nat.max x now1) y' -> exits (Nat.max x e) y') by (intros x (z & -> & Hz); exists z; split; [done|lia]).
    destruct i as [|[|i]]; [| |done]; injection Hi as ->; cbn [delete list_delete] in Ek; apply Hrest in Ek as (Hl & -> & Hx); (split; [by constructor|]); (split; [done|]).
    + destruct x2; [|done]. rewrite Nat.max_comm. by apply Hw.
    + destruct x1; [|done]. by apply Hw.
  - apply reap_None, Forall_cons in E as [-> _]. intros [= <- <- <-]. by repeat constructor.
Qed.

(** A [fork] that fails, or makes a child. *)
Lemma fork1_cases w k t ks o now n obs x n' : eval w (fork1 k) t ks o now n = (obs, x, n') ->
  n' = n /\ gives_up "fork" [] now obs x \/
  exists now1 pid l1 x1 n1 l2, (now <= now1)%nat /\ 0 < pid /\ eval w (k 0) t [] (1%nat :: o) now1 n = (l1, x1, n1) /\
    eval w (k pid) t (ks ++ [x1]) (0%nat :: o) now1 n1 = (l2, x, n') /\ obs = l1 ++ l2.
Proof.
  unfold fork1. cbn [eval]. destruct (w_fails w o).
  - change (-1 =? -1) with true. cbn iota. cbn [eval sh_panic]. intros [= <- <- <-]. left. split; [done|]. split; [done|]. eexists. split; [done|]. lia.
  - change (0 =? -1) with false. cbn iota. rewrite (proj2 (Z.eqb_neq (1 + Z.of_nat (w_pid w o)) (-1))) by lia.
    destruct (eval w (k 0) t [] _ _ n) as [[l1 x1] n1] eqn:E1. destruct (eval w (k _) t _ _ _ n1) as [[l2 x2] n2] eqn:E2. intros [= <- <- <-]. right.
    exists (now + w_delay w o)%nat, (1 + Z.of_nat (w_pid w o)), l1, x1, n1, l2. split_and!; done || lia.
Qed.

(** ** The behaviour of [runcmd] *)

Lemma exits_mono now now' x : (now <= now')%nat -> exits now' x -> exits now x.
Proof. intros H (e & -> & He). exists e. split; [done|lia]. Qed.
Lemma gives_up_mono fmt args now now' obs x : (now <= now')%nat -> gives_up fmt args now' obs x -> gives_up fmt args now obs x.
Proof. intros H [-> Hx]. split; [done|by eapply exits_mono]. Qed.

Definition pipe_fds (a b c : ofile) (n : nat) : fdtable := <[4 := PipeW n]> (<[3 := PipeR n]> (std a b c)).

(** The two sides of a pipeline, from the [fork]s on, and the process that waits for them. *)
Lemma left_side w k a b c n o now m : exists now1 o1, (now <= now1)%nat /\
  eval w (Close 1 (Dup 4 (Close 3 (Close 4 k)))) (pipe_fds a b c n) [] o now m = eval w k (std a (PipeW n) c) [] o1 now1 m.
Proof. cbn [eval]. eexists _, _. split; [|reflexivity]. lia. Qed.
Lemma right_side w k a b c n o now m : exists now1 o1, (now <= now1)%nat /\
  eval w (Close 0 (Dup 3 (Close 3 (Close 4 k)))) (pipe_fds a b c n) [] o now m = eval w k (std (PipeR n) b c) [] o1 now1 m.
Proof. cbn [eval]. eexists _, _. split; [|reflexivity]. lia. Qed.
Lemma wait_side w a b c n x1 x2 o now m obs x n' :
  eval w (Close 3 (Close 4 (Wait (Wait (Exit 0))))) (pipe_fds a b c n) [x1; x2] o now m = (obs, x, n') ->
  Forall (fun e => e = Waits (std a b c)) obs /\ n' = m /\ match x1, x2 with Some e1, Some e2 => exits (Nat.max e1 e2) x | _, _ => x = None end.
Proof.
  assert (E : forall k, eval w (Close 3 (Close 4 k)) (pipe_fds a b c n) [x1; x2] o now m =
    eval w k (std a b c) [x1; x2] (0%nat :: 0%nat :: o) (now + w_delay w o + w_delay w (0%nat :: o))%nat m) by reflexivity.
  rewrite E. apply wait_two.
Qed.

Definition pipeline (p0 p1 : Z) (l r : prog) : prog :=
  fork1 (fun pid =>
    if pid =? 0 then Close 1 (Dup p1 (Close p0 (Close p1 l)))
    else
      fork1 (fun pid =>
        if pid =? 0 then Close 0 (Dup p0 (Close p0 (Close p1 r)))
        else Close p0 (Close p1 (Wait (Wait (Exit 0)))))).

Lemma pipeline_cases w l r a b c n o now obs x n' :
  eval w (pipeline 3 4 l r) (pipe_fds a b c n) [] o now (S n) = (obs, x, n') ->
  n' = S n /\ gives_up "fork" [] now obs x \/
  exists now1 o1 obs1 x1 n1 obs2, (now <= now1)%nat /\ eval w l (std a (PipeW n) c) [] o1 now1 (S n) = (obs1, x1, n1) /\ obs = obs1 ++ obs2 /\
    (n' = n1 /\ gives_up "fork" [] now obs2 x \/
     exists now2 o2 obs3 x2 ws, (now <= now2)%nat /\ eval w r (std (PipeR n) b c) [] o2 now2 n1 = (obs3, x2, n') /\ obs2 = obs3 ++ ws /\
       Forall (fun e => e = Waits (std a b c)) ws /\ match x1, x2 with Some e1, Some e2 => exits (Nat.max e1 e2) x | _, _ => x = None end).
Proof.
  intros [?|(now1 & pid & l1 & x1 & n1 & l2 & Hn & Hp & E1 & E2 & ->)]%fork1_cases; [by left|right].
  change (0 =? 0) with true in E1. cbn iota in E1. destruct (left_side w l a b c n (1%nat :: o) now1 (S n)) as (nowl & ol & Hl & El). rewrite El in E1.
  rewrite (proj2 (Z.eqb_neq pid 0)) in E2 by lia. exists nowl, ol, l1, x1, n1, l2. split; [lia|]. split; [done|]. split; [done|].
  apply fork1_cases in E2 as [[-> Hg]|(now2 & pid2 & l3 & x2 & n2 & l4 & Hn2 & Hp2 & E3 & E4 & ->)]; [left; split; [done|by eapply gives_up_mono; [|done]]|right].
  change (0 =? 0) with true in E3. cbn iota in E3. destruct (right_side w r a b c n (1%nat :: 0%nat :: o) now2 n1) as (nowr & or & Hr & Er). rewrite Er in E3.
  rewrite (proj2 (Z.eqb_neq pid2 0)) in E4 by lia. cbn [app] in E4. apply wait_side in E4 as (Hw & -> & Hx).
  exists nowr, or, l3, x2, l4. split_and!; done || lia.
Qed.

Lemma runcmd_ok w t : forall f h m p a b c o now n obs x n', tree (shown m) h p t -> cmd_ok t -> p <= Z.of_nat f ->
  eval w (runcmd f h m p) (std a b c) [] o now n = (obs, x, n') -> does t a b c n now obs x n'.
Proof.
  induction t as [ws|t IH v mode fd|l IHl r IHr|l IHl r IHr|t IH]; intros f h m p a b c o now n obs x n' Ht Hok Hf;
    (assert (Hp : 0 < p) by (cbn in Ht; destruct_and?; repeat (destruct Ht as (? & Ht)); repeat match goal with H : nodeof _ _ _ |- _ => destruct H end; done));
    (destruct f as [|f]; [lia|]); cbn [runcmd]; rewrite (proj2 (Z.eqb_neq p 0)) by lia.
  - destruct Ht as (argv & eargv & [_ ->] & [[H1 H2] Hw] & Hz). cbn in Hok. pose proof (args_of_shown m ws argv eargv ltac:(lia) Hok Hz Hw) as Ha. destruct ws as [|v ws].
    + cbn in Hz. rewrite Hz. cbn. intros [= <- <- <-]. split; [done|]. split; [|done]. eexists. split; [done|lia].
    + destruct (Hw 0%nat v eq_refl) as (q & eq & -> & _ & Hsh). pose proof Hsh as [Hq _]. cbn [default from_option]. unfold id. rewrite (proj2 (Z.eqb_neq q 0)) by lia.
      apply Forall_cons in Hok as [Hv _]. rewrite Ha, (str_shown m v q eq Hsh Hv). cbn [eval does]. destruct (w_fails w o).
      * intros [= <- <- <-]. split; [done|]. right. split; [done|]. eexists. split; [done|lia].
      * intros [= <- <- <-]. split; [done|]. left. exists (now + w_delay w o)%nat. split; [lia|]. split; [done|]. destruct (w_lasts w o); cbn; intros e [= <-]. lia.
  - destruct Ht as (p1 & q & eq & [_ ->] & Hlt & Hw & Ht). destruct Hok as (Hl & Hfd & Hok). rewrite (str_shown m v q eq Hw Hl). cbn [eval does].
    assert (Hlow : lowest (delete fd (std a b c)) = fd) by (destruct Hfd as [-> | ->]; reflexivity). rewrite Hlow, (proj2 (Z.ltb_ge fd 0)) by lia. rewrite orb_false_r.
    destruct (w_fails w _).
    + intros [= <- <- <-]. right. split; [done|]. split; [done|]. eexists. split; [done|lia].
    + intros E. left. eexists. split; [|destruct Hfd as [-> | ->]; (eapply (IH f); [exact Ht|exact Hok|lia|exact E])]. lia.
  - destruct Ht as (p1 & p2 & [_ ->] & Hlt1 & Hlt2 & Hl & Hr). destruct Hok as [Ho1 Ho2]. cbn [eval does].
    change (lowest (std a b c)) with 3. change (lowest (<[3 := PipeR n]> (std a b c))) with 4. cbv zeta. cbn [Z.ltb Z.compare orb].
    rewrite !orb_false_r. destruct (w_fails w o).
    { intros [= <- <- <-]. left. split; [done|]. split; [done|]. eexists. split; [done|lia]. }
    fold (pipeline 3 4 (runcmd f h m p1) (runcmd f h m p2)). fold (pipe_fds a b c n). intros H. right.
    apply pipeline_cases in H as [[-> Hg]|(now1 & o1 & obs1 & x1 & n1 & obs2 & Hn1 & E1 & -> & H)].
    + left. split; [done|]. eapply gives_up_mono; [|done]. lia.
    + apply (IHl f) in E1; [|done|done|lia]. right. destruct H as [[-> Hg]|(now2 & o2 & obs3 & x2 & ws & Hn2 & E2 & -> & Hws & Hx)].
      * left. exists now1, obs1, x1, obs2. split_and!; try done; [lia|]. eapply gives_up_mono; [|done]. lia.
      * right. apply (IHr f) in E2; [|done|done|lia]. exists now1, obs1, x1, n1, now2, obs3, x2, ws. split_and!; done || lia.
  - destruct Ht as (p1 & p2 & [_ ->] & Hlt1 & Hlt2 & Hl & Hr). destruct Hok as [Ho1 Ho2].
    intros [?|(now1 & pid & l1 & x1 & n1 & l2 & Hn & Hpid & E1 & E2 & ->)]%fork1_cases; [by left|right]. change (0 =? 0) with true in E1. cbn iota in E1.
    apply (IHl f) in E1; [|done|done|lia]. rewrite (proj2 (Z.eqb_neq pid 0)) in E2 by lia. apply wait_one in E2. exists now1, l1, x1, n1. split; [done|]. split; [done|].
    destruct x1 as [e|].
    + destruct E2 as (now2 & obs1 & He & Hn2 & -> & E2). apply (IHr f) in E2; [|done|done|lia]. by exists now2, obs1.
    + by destruct E2 as (-> & -> & ->).
  - destruct Ht as (p1 & [_ ->] & Hlt & Ht).
    intros [?|(now1 & pid & l1 & x1 & n1 & l2 & Hn & Hpid & E1 & E2 & ->)]%fork1_cases; [by left|right]. change (0 =? 0) with true in E1. cbn iota in E1.
    apply (IH f) in E1; [|done|done|lia]. rewrite (proj2 (Z.eqb_neq pid 0)) in E2 by lia. injection E2 as <- <- <-. rewrite app_nil_r. exists now1, x1. split; [done|]. split; [done|].
    eexists. split; [done|lia].
Qed.

Lemma ran_app l1 l2 : ran (l1 ++ l2) = ran l1 ++ ran l2.
Proof. apply omap_app. Qed.
Lemma ran_waits t ws : Forall (fun e => e = Waits t) ws -> ran ws = [].
Proof. by induction 1 as [|e ws -> _ IH]. Qed.
Lemma gives_up_smooth fmt args now obs x : gives_up fmt args now obs x -> ~ Forall smooth obs.
Proof. intros [-> _] H. by apply Forall_cons in H as [[] _]. Qed.
Lemma exits_Some now x : exits now x -> is_Some x.
Proof. intros (e & -> & _). by exists e. Qed.

(** Where nothing fails and every program ends, the whole command is executed. *)
Lemma does_leaves t : forall a b c n now obs x n', does t a b c n now obs x n' -> Forall smooth obs ->
  leaves t a b c n = (ran obs, n') /\ is_Some x.
Proof.
  induction t as [ws|t IH v mode fd|l IHl r IHr|l IHl r IHr|t IH]; intros a b c n now obs x n' Hd Hs; cbn [does leaves] in *.
  - destruct ws as [|v ws].
    + destruct Hd as (-> & Hx & ->). split; [done|by eapply exits_Some].
    + destruct Hd as [-> [(s & _ & -> & _)|Hg]]; [|by destruct (gives_up_smooth _ _ _ _ _ Hg)]. by apply Forall_cons in Hs as [Hx _].
  - destruct Hd as [(now1 & _ & Hd)|[_ Hg]]; [|by destruct (gives_up_smooth _ _ _ _ _ Hg)]. destruct (fd =? 0); by eapply IH.
  - destruct Hd as [[_ Hg]|[[_ Hg]|[(now1 & obs1 & x1 & obs2 & _ & _ & Hg & ->)|(now1 & obs1 & x1 & n1 & now2 & obs2 & x2 & ws & _ & _ & H1 & H2 & -> & Hw & Hx)]]];
      try (by destruct (gives_up_smooth _ _ _ _ _ Hg)); [by apply Forall_app in Hs as [_ Hs]; destruct (gives_up_smooth _ _ _ _ _ Hg)|].
    apply Forall_app in Hs as [Hs1 Hs]. apply Forall_app in Hs as [Hs2 _]. destruct (IHl _ _ _ _ _ _ _ _ H1 Hs1) as [-> [e1 ->]], (IHr _ _ _ _ _ _ _ _ H2 Hs2) as [-> [e2 ->]].
    rewrite !ran_app, (ran_waits _ _ Hw), app_nil_r. split; [done|by eapply exits_Some].
  - destruct Hd as [[_ Hg]|(now1 & obs1 & x1 & n1 & _ & H1 & Hd)]; [by destruct (gives_up_smooth _ _ _ _ _ Hg)|].
    assert (Hs1 : Forall smooth obs1) by (destruct x1; [destruct Hd as (? & ? & _ & -> & _)|destruct Hd as (-> & _)]; by apply Forall_app in Hs as [Hs _]).
    destruct (IHl _ _ _ _ _ _ _ _ H1 Hs1) as [-> [e ->]]. destruct Hd as (now2 & obs2 & _ & -> & H2). apply Forall_app in Hs as [_ Hs]. apply Forall_cons in Hs as [_ Hs].
    destruct (IHr _ _ _ _ _ _ _ _ H2 Hs) as [-> Hx]. by rewrite ran_app.
  - destruct Hd as [[_ Hg]|(now1 & x1 & _ & H1 & Hx)]; [by destruct (gives_up_smooth _ _ _ _ _ Hg)|]. destruct (IH _ _ _ _ _ _ _ _ H1 Hs) as [-> _]. split; [done|by eapply exits_Some].
Qed.


(** The line [a|b >f], in a world where nothing fails. *)
Definition demo_world : world := mkWorld (fun _ => 1%nat) (fun _ => false) (fun _ => Some 5%nat) (fun _ => 2%nat) (fun _ => 0%nat) (fun _ => (0, 0)) (fun _ => (0, ∅)).

